(* ===== verification/_CoqProject ===== *)
-Q . S2P
Prelude.v
Utf8.v
Redaction.v
Http.v
Crypto.v
TimeLib.v
Calendar.v
Pricing.v
Trim.v
Timefmt.v
Period.v
Config.v
Status.v
Partner.v
Context.v
LedgerTypes.v
Sql.v
Rollup.v
Retention.v
Json.v
ProxyUsage.v
SseScan.v
StreamMeter.v
Writer.v
WriterTask.v
Proxy.v
Metering.v
Recovery.v
Registry.v
Process.v
Statements.v
BillingStore.v
Email.v
Smtp.v
Cursor.v
PartnerStore.v
Web.v
ApiKeys.v
KeyLifecycle.v
Worker.v
Mailer.v
Auth.v
Dashboard.v
Agreement.v
Billed.v
Background.v
Events.v
Migration.v
Pool.v
BillingApi.v
Admin.v
Keygen.v
Startup.v
