(* ===== verification/Prelude.v ===== *)
(** * Partner Portal: a verification library

    Partner Portal is a metering proxy in front of a language-model provider,
    with a billing engine behind it. A request is authenticated against an
    in-memory snapshot of the API keys, recorded in a SQLite ledger before the
    upstream is contacted, and finalized with the usage the provider reports; an
    hourly rollup is kept beside the raw rows; once a local day is over its usage
    becomes one priced statement per partner, which is mailed; unpaid invoices
    suspend service. This library models that program: money, time, ledger,
    request path, credentials, recovery, retention, statements, mail and the
    scheduler that ties them together, the three HTTP interfaces around them
    (dashboard, billing, administration), the provisioning command, and the
    start and the end of the process. Paths are relative to [src/]; the Rust
    crate is [src/src/].

    ** Files

    Foundations
    - [Prelude]: results and the [let?] notation, machine integers, decimal text
      and byte order of strings, sums over lists, shared tactics.
    - [Utf8]: trimming, splitting, case and lossy decoding of text; [Trim]: its
      laws, and the prices an operator writes. [Redaction]
      ([config/types.rs], [proxy/handler.rs]): scrubbing of text on its way into
      the ledger. [Crypto] ([crypto.rs]): HMAC over the hash as an interface
      ([Digests], [DigestLaws]), comparison, base64url. [Http]
      ([proxy/client.rs]): the headers of the upstream request, over [Http] and
      [HttpLaws]. [TimeLib]: the [time] crate as an interface ([TimeCrate],
      [TimeLaws]); [Calendar]: a Gregorian instance of it, which discharges every
      law and runs the concrete examples. [Sql]: how rusqlite binds integers
      ([Rusqlite], [RusqliteLaws]) and the cells of SQLite.

    Money, time, configuration
    - [Pricing] ([billing/pricing.rs]): micro-dollar amounts, the price parser
      and printer, [component_cost], [price_line], [billable].
    - [Timefmt] ([ledger/timefmt.rs]): stored timestamps and hour buckets.
    - [Period] ([billing/period.rs]): timezones, billing days and periods.
    - [Config] ([config/]): the configuration, its loader, what its messages keep
      of the file, and the watcher that swaps a changed file in.

    Partners and credentials
    - [Status] ([billing/status.rs]): [status_for]. [Partner]
      ([billing/partner.rs]): billing modes, deadlines, the runtime price list.
      [Context] ([auth/context.rs], [auth/scope.rs]): who asks, and what they
      may read. [PartnerStore] ([billing/store.rs]): partners, price lists and
      scoped reads.
    - [ApiKeys] ([apikeys/]): the key table, its operations and the snapshot.
      [KeyLifecycle]: what the key store promises, and the poller. [Auth]
      ([auth/middleware.rs]): from a bearer token to a context.

    The ledger and the request path
    - [LedgerTypes] ([ledger/types.rs]): the request record and its statuses.
    - [Rollup] ([ledger/rollup.rs], [schema.sql]): contributions, the upsert and
      the retraction, and [agree], the relation of raw rows and buckets.
    - [Retention] ([ledger/retention.rs]): the batched sweep.
    - [Writer] ([ledger/writer.rs]): [insert_accept], [finalize_record], one
      batch in one transaction ([try_flush]) and the bounded retry
      ([flush_with_retry]). [WriterTask]: the handle and the task around them,
      as the step relation [step] between producers, shutdown and task.
    - [Json], [ProxyUsage] ([proxy/usage.rs]): token counts in a response, over
      [serde_json] as an interface; [SseScan] ([proxy/sse_scan.rs]): the scanner
      that reads them from a stream in passing; [StreamMeter] and [Proxy]
      ([proxy/handler.rs]): the streamed body and the handler; [Metering]: both
      put together with the writer.
    - [Recovery] ([ledger/recovery.rs], the probe of [ledger/instance.rs]): the
      pass over requests whose process is gone. [Registry]
      ([ledger/instance.rs]): how processes claim, hold and lose the lock that
      the probe reads, as interleaving steps.
    - [Agreement] ([ledger/recovery.rs]): the consistency audit, and every
      transaction on the usage tables, of any instance, as the steps of [commit].
    - [Migration] ([ledger/mod.rs], [ledger/schema.sql]): opening a ledger file
      of any version. [Pool] ([ledger/pool.rs], [ledger/mod.rs]): the pool and
      its connections; also [healthz] and [version] ([admin/mod.rs]).

    Billing
    - [Statements] ([billing/statements.rs] and [usage_groups] of
      [billing/store.rs]): which days close, the catch-up walk, and the
      statement of one day. [BillingStore] ([billing/store.rs]): statements,
      payments, email leases.
    - [Email], [Smtp] ([billing/email.rs]): the statement message and its bytes,
      and the SMTP conversation that sends it.
    - [Worker], [Mailer] ([billing/worker.rs]): closing the days and observing
      status; starting the worker, [send_emails] and the whole tick [run_once].
    - [Billed]: request path, ledger and statement generator put together.
    - [BillingApi] ([billing/api.rs]): what a partner may read of its bills.

    Interfaces and process
    - [Cursor], [Dashboard] ([dashboard/api.rs]): signed page cursors, windows,
      and the five endpoints over the ledger's tables. [Events]
      ([dashboard/sse.rs]): the change poller and the event streams, over
      [Channels] and [DataVersion].
    - [Admin] ([admin/]): the manager's guard and every handler behind it.
    - [Keygen] ([keygen.rs], [main.rs]): the provisioning command.
    - [Web] ([build.rs], [web/mod.rs]): the embedded dashboard.
    - [Startup], [Process] ([main.rs], [admin/mod.rs], [ledger/writer.rs]): what
      [run] does before it serves, readiness, and how it ends. [Background]
      ([main.rs], [billing/worker.rs]): the timers of retention and billing, the
      recovery sweeper and the audit beside it.

    ** State and effects

    A table is a finite map by its key, or a list where the order of its [id]
    matters, and an SQL statement is a function on it written from the text of
    the query, with the CHECK, UNIQUE and foreign-key refusals of
    [ledger/schema.sql]. [Result] is [result]; an operation that fails returns
    the state it leaves. Instants and clock readings are arguments. What other
    processes do is explicit: the errors of [BEGIN] and [COMMIT] in [Writer.Attempt],
    the interleaving of producers and task in [WriterTask.step], the writes
    between two slices in [Retention.World], commits and reloads of the key
    snapshot in [KeyLifecycle], the usage rows and the clock that each day of a
    walk sees in [Worker.close_each_day], the claims and crashes of other
    instances in [Registry.step] with what is in the way of a probe
    ([Registry.Trouble]), batches and recoveries of all instances in
    [Agreement.commit], requests and timers while a process ends in
    [Process.step], what a timed pass meets in [Background.Turn], the sweeps and
    ticks that run while a process starts in [Startup.Boot], the reads and notes
    of the mail that fail in [Mailer.Mail]. The proxy's handler returns the
    effects it had, in order, so that a handler cut short is a prefix; the mail
    conversation is a state monad ([Smtp.M]) over a relay that may answer
    anything, and remembers what it wrote and whether that was encrypted.

    Machine integers are [Z] with their width written out: checked [i64] and
    [i128] arithmetic as an option, [as i64] and the release-mode sums of
    counters as [i64_wrap], SQLite's sums with their overflow error ([sql_sum])
    or their promotion to a floating-point cell ([Real]).

    ** What is shown

    - Money. [price_line] is exact on every branch, each component is the
      nearest micro-dollar, the parser is exact decimal reading with rounding,
      and a printed price parses back.
    - Time. Stored timestamps sort as instants and parse back, hour buckets are
      read off them exactly, billing periods partition time.
    - Request path. The upstream is contacted exactly when the accept is durable;
      what a client is handed is the upstream's, with exactly the headers stated;
      a streamed response is accounted once however it ends; at every moment a
      request has left nothing on the ledger or one row at the price it was
      accepted at, which is terminal once the exchange has ended; a recorded
      reason is bounded, and where a credential can survive in it is said
      exactly. The upstream request carries the operator's credential and of the
      client's headers exactly those that are not held back.
    - Ledger. A finalize keeps the rollup equal to the grouped sum of the
      terminal raw rows, is idempotent and never loses a price; collapsing an
      accept into its finalize changes nothing when both carry the same
      request; a flush is all or nothing and its acknowledgements are truthful;
      the task, under every interleaving, implements the sequential log of the
      acknowledged writes ([writer_refines_log]) and a shutdown drains it.
      Whatever batches, rollbacks, crashes and recoveries follow each other, raw
      rows and rollup agree, the audit finds nothing, and a request's row stays
      its caller's at its accepted prices ([ledger_agrees_throughout]). Readers
      of the pool write nothing ([readers_never_write]).
    - Metering a stream. The scanner reads bytes and not chunks, reports what the
      whole stream says, holds a bounded amount of it, and makes no count up.
    - Credentials. A partner never has two live keys; what authenticates is a key
      that is live in the database as of the last reload, as its owner; a
      partner's credential reads its owner's rows and no others; suspension
      is what the statements say, by either of the two queries.
    - Recovery resolves exactly the rows whose owner is gone, or unknowable and
      old, and keeps the agreement; under the sweeper nothing stays stranded
      for longer than two grace periods and a pass
      ([stranded_request_is_resolved]); over every interleaving of starts, crashes
      and shutdowns, the lock says who is gone, and when it cannot be asked the
      age of the request decides ([recovery_knows_who_is_gone]).
      A migration that died anywhere is completed by the next start, with exactly
      the columns stated. Retention never deletes a request inside its window,
      ends within its budget, and keeps the agreement everywhere but in the
      cutoff's own hour, whose bucket it always takes.
    - Billing. A request is billed as it was accepted: on its caller's statement
      of its local day and no other, at its accepted prices
      ([request_is_billed_as_accepted]). Every request of a period is on a line
      or counted as incomplete, once; lines are exact; the walk visits exactly the days owed; a day is
      billed once and what was billed is never altered; a payment is recorded
      once; an email lease is exclusive; a tick without failures leaves a
      statement for every day a partner is owed ([day_owed], which does not
      mention the walk) and no tick adds another; a suspension is exactly what
      the statements justify, and the status API shows it in every field.
    - Mail. The relay's credential is never written in the clear; a message
      reported as sent was handed over whole, and no text in it can become a
      header or a command; a statement is marked sent exactly when a relay
      accepted its message and the note of it was taken; a conversation ends when the relay stops talking.
    - Interfaces. Following the dashboard's cursors lists every row of a window
      once, a text that was not issued is no cursor unless its maker has the key
      ([unforged]), a summary is the sum of the ledger's rows, a partner reads its own rows and bills and no others, a stream of
      events misses no change and ends at shutdown. Only the manager
      administers; no sequence of its requests breaks the tables; an issued
      secret works and a price list takes effect from the next request. The
      command line provisions what it says. The dashboard is served as built.
    - Process. The server starts on a recovered ledger with the key set of the
      database or refuses to start, and either way the only requests missing are
      past retention; a graceful end releases the instance after
      every request is over and every write answered, and leaves in flight
      only what clients abandoned; the drain is bounded and starts with the
      signal.
    - Configuration. The loader accepts exactly the usable files, error messages
      and reload lines hold no secret, and the watcher serves the last good file.

    ** Limits of the code, proved as such

    - Billing: a close delay of two days closes nothing
      ([closable_through_stalls]), a failed day before a successful one is not
      visited again ([failed_day_is_never_retried]), a token count beyond
      [i64::MAX] sinks its batch ([oversized_usage_fails_batch]), the boundary
      hour of a sweep ([sweep_agreement]), deleting a billed partner is a
      database error ([delete_billed_partner_is_database_error]).
    - Request path: [error_body_keeps_credential],
      [control_character_defeats_scrub], [upstream_request_id_comes_first],
      [partial_error_body_is_forwarded], [stalled_body_is_never_finalized],
      [abandoned_request_stays_in_flight], and the [Connection] headers of
      [second_connection_header_is_ignored] and
      [response_connection_tokens_are_forwarded].
    - Keys: a reload that overlaps a revocation publishes the revoked key again
      ([pending_reload_revives_revoked_key]), an expired key occupies the
      partner's slot ([expired_key_locks_out]).
    - Mail: a capability list is cut at 500 characters
      ([late_starttls_is_not_seen]), a reply without an end is read without an end
      ([endless_reply_never_ends]), a slow batch outlives its lease
      ([batch_outlives_its_lease]).
    - Ledger files: a file of version 1 is relabelled without its new column
      ([version_1_is_relabelled]), the copy of the allow lists empties them
      ([allow_lists_are_emptied_by_the_copy]); every reader warns of a file
      whose pages are not reclaimed ([every_reader_warns_of_an_old_file]); the
      audit warns after a sweep that succeeded ([audit_warns_after_a_sweep]). An
      instance that could not lock
      its file looks dead ([unlocked_instance_looks_dead]). A barrier answers
      for its own batch ([barrier_after_a_failed_batch]).
    - Interfaces: [cursor_position_is_legible], [future_window_is_inverted],
      [first_look_swallows_a_change], streams opened after the signal
      ([shutdown_ends_open_streams]), [unpaid_total_is_wider],
      [status_without_account], [empty_price_list_of_no_account],
      [empty_stdin_leaves_the_account], [whole_key_in_prefix],
      [trailing_slash_says_not_built].
    - Start: [half_a_credential_sends_anonymously],
      [invalid_origin_is_ignored].
    - Configuration: a change of the billing block is never reported
      ([unreported_changes_are_billing]), an unusable base URL is repeated in the
      error ([base_url_error_repeats_the_url]).

    ** Bounds and fuel

    - [Generator.days_from] has [MAX_CATCHUP_DAYS] (31) units: [start_day] is at
      most 30 days before the last day, and [days_to_close_spec] shows that the
      result is never [None].
    - [Writer.flush_attempts] recurses on the retries left ([BUSY_RETRIES], 6),
      the loops of [Retention] on the slices left, as the source counts them.
    - [SseUsageScanner.feed_loop] has one unit per byte of the chunk and consumes
      at least one byte per turn ([feed_loop_bytes]).
    - [WriterTask.run] takes one unit per iteration of the task's loop;
      [shutdown_drains] bounds the iterations it needs.
    - [Smtp.read_line] takes one unit per read, [Smtp.read_reply_loop] one per
      line; more units than the relay has bytes left to say are enough
      ([send_terminates]), and [None] means that the relay is still talking.
    - [Config.redact_loop] has one unit more than the text has bytes, and any
      more give the same ([redact_loop_fuel]).
    - [Events.drain] takes one unit per turn of a stream; [drain_ends] says how
      many are enough. [Process] counts milliseconds: a grace period as
      configured, a drain bound of that or 30 s, 10 s for detached finalizes.
    - Instants are those of the crate's calendar; the fixed-width texts are
      meant for years 0 to 9999 ([ledger_instant]).

    ** Not modelled

    Pool errors of plain reads outside the mail (a read that fails makes the
    caller give up without writing), a billing tick that is under way while the
    process starts, a disk that fails under the billing tables in the
    handlers of [Admin], [BillingApi] and [Keygen], log lines other than those a
    theorem is about, metrics, the pauses between the slices of a sweep.
    [wait_for_drain]. Routing, extraction and serialization (axum, serde), sending
    requests, serving HTTP, opening databases and sockets, TLS, reading and
    watching files are I/O of libraries; the Vue application, benchmarks, tests
    and deployment files are not part of the program. *)

From stdpp Require Import base gmap strings list fin_maps numbers.
From Stdlib Require Import Ascii ZArith Lia.


(** ** Results *)

(** [Option::is_some]. *)
Definition is_Some_b {A} (o : option A) : bool := match o with Some _ => true | None => false end.

Lemma is_Some_b_spec {A} (o : option A) : is_Some_b o = true ↔ is_Some o.
Proof. destruct o; cbn; [split; eauto | split; [done | intros [? [=]]]]. Qed.

(** [Result<A, E>] of the source. *)
Inductive result (A E : Type) : Type :=
  | Ok (a : A)
  | Err (e : E).
Arguments Ok {_ _} _.
Arguments Err {_ _} _.

#[global] Instance result_eq_dec {A E} `{EqDecision A, EqDecision E} : EqDecision (result A E).
Proof. solve_decision. Defined.

Declare Scope rust_scope.
Delimit Scope rust_scope with rust.
#[global] Open Scope rust_scope.

(** The [?] operator on a [Result]: go on with the value, return the error. *)
Notation "'let?' x := c 'in' k" :=
  (match c with Ok x => k | Err e => Err e end)
  (at level 10, x pattern, c at level 200, k at level 200) : rust_scope.

(** [Option::ok_or]. *)
Definition ok_or {A E} (o : option A) (e : E) : result A E :=
  match o with Some a => Ok a | None => Err e end.

Definition is_ok {A E} (r : result A E) : bool :=
  match r with Ok _ => true | Err _ => false end.

(** [Result::unwrap_or]. *)
Definition unwrap_or {A E} (r : result A E) (d : A) : A := match r with Ok a => a | Err _ => d end.

Lemma is_ok_unwrap_or {A E} (r : result A E) (d : A) : is_ok r = true → r = Ok (unwrap_or r d).
Proof. by destruct r. Qed.

(** [Iterator::find_map]. *)
Fixpoint find_map {A B} (f : A → option B) (l : list A) : option B :=
  match l with
  | [] => None
  | x :: l' => match f x with Some y => Some y | None => find_map f l' end
  end.

Lemma find_map_None {A B} (f : A → option B) l : find_map f l = None ↔ Forall (λ x, f x = None) l.
Proof.
  induction l as [|x l IH]; simpl; [by split; [constructor |] |].
  rewrite Forall_cons_iff. destruct (f x); [naive_solver | rewrite IH; naive_solver].
Qed.

Lemma find_map_Some {A B} (f : A → option B) l y :
  find_map f l = Some y ↔
  ∃ pre x post, l = pre ++ x :: post ∧ Forall (λ z, f z = None) pre ∧ f x = Some y.
Proof.
  induction l as [|x l IH]; simpl.
  { split; [done | intros ([|??] & ? & ? & ? & _); done]. }
  destruct (f x) as [b|] eqn:E.
  - split.
    + intros [= <-]. by exists [], x, l.
    + intros ([|z pre] & x' & post & [= -> ->] & Hpre & Hx); [congruence |].
      apply Forall_cons_iff in Hpre as [Hz _]. congruence.
  - rewrite IH. split.
    + intros (pre & x' & post & -> & Hpre & Hx). exists (x :: pre), x', post. by rewrite Forall_cons_iff.
    + intros ([|z pre] & x' & post & [= -> ->] & Hpre & Hx); [congruence |].
      apply Forall_cons_iff in Hpre as [_ Hpre]. eauto 10.
Qed.

Lemma ok_or_Ok {A E} (o : option A) (e : E) a : ok_or o e = Ok a ↔ o = Some a.
Proof. destruct o; split; simpl; congruence. Qed.

Lemma ok_or_Err {A E} (o : option A) (e e' : E) : ok_or o e = Err e' ↔ o = None ∧ e = e'.
Proof. destruct o; split; simpl; naive_solver. Qed.

(** ** Machine integers

    An [iN] or [uN] of the source is a [Z] with its range written out; every
    operation says what happens outside the range. *)
Section Integers.
Local Open Scope Z_scope.

Definition i32_min : Z := - 2 ^ 31.
Definition i32_max : Z := 2 ^ 31 - 1.
Definition i64_min : Z := - 2 ^ 63.
Definition i64_max : Z := 2 ^ 63 - 1.
Definition i128_min : Z := - 2 ^ 127.
Definition i128_max : Z := 2 ^ 127 - 1.
Definition u64_max : Z := 2 ^ 64 - 1.

Definition in_range (lo hi z : Z) : bool := (lo <=? z) && (z <=? hi).
Definition is_i64 (z : Z) : Prop := i64_min ≤ z ≤ i64_max.
Definition is_u64 (z : Z) : Prop := 0 ≤ z ≤ u64_max.

(** [T::try_from] and the [checked_*] operations: the exact value, or [None]. *)
Definition checked (lo hi z : Z) : option Z := if in_range lo hi z then Some z else None.
Definition i64_checked (z : Z) : option Z := checked i64_min i64_max z.
Definition u64_checked (z : Z) : option Z := checked 0 u64_max z.
Definition i128_checked (z : Z) : option Z := checked i128_min i128_max z.

(** Plain [+] on [i64]/[i128] in the release profile: two's complement. *)
Definition wrap_signed (bits z : Z) : Z := (z + 2 ^ (bits - 1)) mod 2 ^ bits - 2 ^ (bits - 1).
Definition i64_wrap (z : Z) : Z := wrap_signed 64 z.
Definition i128_wrap (z : Z) : Z := wrap_signed 128 z.
Definition u64_wrap (z : Z) : Z := z mod 2 ^ 64.

Lemma checked_Some lo hi z v : checked lo hi z = Some v ↔ v = z ∧ lo ≤ z ≤ hi.
Proof.
  unfold checked, in_range. destruct (Z.leb_spec lo z), (Z.leb_spec z hi); simpl;
    (split; [intros [= <-]; lia | intros [-> ?]; try done; lia]) || naive_solver lia.
Qed.

Lemma checked_None lo hi z : checked lo hi z = None ↔ ¬ (lo ≤ z ≤ hi).
Proof.
  unfold checked, in_range. destruct (Z.leb_spec lo z), (Z.leb_spec z hi); simpl;
    split; intros; try done; lia.
Qed.

Lemma checked_in lo hi z : lo ≤ z ≤ hi → checked lo hi z = Some z.
Proof. intros. by apply checked_Some. Qed.

Lemma checked_out lo hi z : ¬ (lo ≤ z ≤ hi) → checked lo hi z = None.
Proof. intros. by apply checked_None. Qed.

Lemma wrap_signed_id bits z :
  0 < bits → - 2 ^ (bits - 1) ≤ z < 2 ^ (bits - 1) → wrap_signed bits z = z.
Proof.
  intros Hb Hz. unfold wrap_signed.
  assert (2 ^ bits = 2 * 2 ^ (bits - 1)) as E.
  { rewrite <- Z.pow_succ_r by lia. f_equal. lia. }
  rewrite Z.mod_small; lia.
Qed.

Lemma wrap_signed_over bits z :
  0 < bits → 2 ^ (bits - 1) ≤ z < 2 ^ bits + 2 ^ (bits - 1) → wrap_signed bits z = z - 2 ^ bits.
Proof.
  intros Hb Hz. unfold wrap_signed.
  assert (2 ^ bits = 2 * 2 ^ (bits - 1)) as E.
  { rewrite <- Z.pow_succ_r by lia. f_equal. lia. }
  rewrite <- (Z.mod_unique (z + 2 ^ (bits - 1)) (2 ^ bits) 1 (z + 2 ^ (bits - 1) - 2 ^ bits)); lia.
Qed.

Lemma wrap_signed_add bits x y :
  wrap_signed bits (wrap_signed bits x + y) = wrap_signed bits (x + y).
Proof.
  unfold wrap_signed. set (h := 2 ^ (bits - 1)). set (M := 2 ^ bits).
  replace ((x + h) mod M - h + y + h) with ((x + h) mod M + y) by lia.
  rewrite Zplus_mod_idemp_l. do 2 f_equal. lia.
Qed.

Lemma i128_wrap_id z : i128_min ≤ z ≤ i128_max → i128_wrap z = z.
Proof.
  intros H. apply wrap_signed_id; [lia |]. unfold i128_min, i128_max in H.
  change (128 - 1) with 127. lia.
Qed.
End Integers.

(** Unfold the range constants to numerals, for [lia]. *)
Ltac ranges :=
  unfold is_i64, is_u64, i32_min, i32_max, i64_min, i64_max, i128_min, i128_max, u64_max in *;
  change (2 ^ 31)%Z with 2147483648%Z in *;
  change (2 ^ 63)%Z with 9223372036854775808%Z in *;
  change (2 ^ 64)%Z with 18446744073709551616%Z in *;
  change (2 ^ 127)%Z with 170141183460469231731687303715884105728%Z in *.

(** Case analysis on every boolean comparison of integers in sight. *)
Ltac zcases :=
  repeat match goal with
  | |- context [Z.leb ?a ?b] => destruct (Z.leb_spec a b)
  | |- context [Z.ltb ?a ?b] => destruct (Z.ltb_spec a b)
  | |- context [Z.eqb ?a ?b] => destruct (Z.eqb_spec a b)
  | H : context [Z.leb ?a ?b] |- _ => destruct (Z.leb_spec a b)
  | H : context [Z.ltb ?a ?b] |- _ => destruct (Z.ltb_spec a b)
  | H : context [Z.eqb ?a ?b] |- _ => destruct (Z.eqb_spec a b)
  end; simpl in *.

(** Decide a closed conjunction of comparisons by computing it. *)
Ltac concrete := vm_compute; intuition congruence.

(** ** Strings

    A [&str] or [String] of the source is a Rocq [string] holding its UTF-8
    bytes, so [str::bytes] and [as_bytes] are the characters of the [string]. *)
#[global] Arguments String.append !_ _ / : simpl nomatch.

Section Strings.
Local Open Scope string_scope.

(** [u8::is_ascii_digit], and the value [b - b'0']. *)
Definition digit_value (c : ascii) : Z := Z.of_nat (nat_of_ascii c) - 48.
Definition is_ascii_digit (c : ascii) : bool := in_range 0 9 (digit_value c).
Definition digit_char (d : Z) : ascii := ascii_of_nat (Z.to_nat (d + 48)).

Fixpoint str_all (f : ascii → bool) (s : string) : bool :=
  match s with "" => true | String c s' => f c && str_all f s' end.

Definition all_digits (s : string) : bool := str_all is_ascii_digit s.

Definition str_is_empty (s : string) : bool := match s with "" => true | _ => false end.

(** [str::split_once] on one ASCII character. *)
Fixpoint split_once (c : ascii) (s : string) : option (string * string) :=
  match s with
  | "" => None
  | String d s' =>
      if Ascii.eqb d c then Some ("", s')
      else match split_once c s' with
           | Some (a, b) => Some (String d a, b)
           | None => None
           end
  end.

(** [str::strip_prefix] and [<[u8]>::strip_prefix]. *)
Fixpoint strip_prefix (p s : string) : option string :=
  match p, s with
  | "", _ => Some s
  | String a p', String b s' => if Ascii.eqb a b then strip_prefix p' s' else None
  | String _ _, "" => None
  end.

(** [str::strip_suffix] on one ASCII character. *)
Fixpoint strip_suffix_char (c : ascii) (s : string) : option string :=
  match s with
  | "" => None
  | String d "" => if Ascii.eqb d c then Some "" else None
  | String d s' => match strip_suffix_char c s' with Some t => Some (String d t) | None => None end
  end.

(** [str::trim_end_matches] on one ASCII character. *)
Fixpoint trim_end_matches (c : ascii) (s : string) : string :=
  match s with
  | "" => ""
  | String d s' =>
      let t := trim_end_matches c s' in
      if str_is_empty t && Ascii.eqb d c then "" else String d t
  end.

Fixpoint str_repeat (c : ascii) (n : nat) : string :=
  match n with O => "" | S n' => String c (str_repeat c n') end.

(** The formatting fill [{:0>width$}] (and [{:0width$}] on an unsigned number). *)
Definition pad_left0 (width : nat) (s : string) : string :=
  str_repeat "0" (width - String.length s) ++ s.

(** [u64::to_string]: decimal digits, no leading zero. *)
Fixpoint dec_go (fuel : nat) (n : Z) (acc : string) : string :=
  match fuel with
  | O => acc
  | S f =>
      let acc' := String (digit_char (n mod 10)) acc in
      if (n <? 10)%Z then acc' else dec_go f (n / 10) acc'
  end.
Definition dec_string (n : Z) : string := dec_go (S (Z.to_nat (Z.log2 n))) n "".

(** [i64::to_string]. *)
Definition signed_dec_string (n : Z) : string :=
  if (n <? 0)%Z then String "-" (dec_string (- n)) else dec_string n.

(** The number a digit string denotes, most significant digit first. *)
Fixpoint dec_value_from (v : Z) (s : string) : Z :=
  match s with "" => v | String c s' => dec_value_from (v * 10 + digit_value c) s' end.
Definition dec_value (s : string) : Z := dec_value_from 0 s.
End Strings.

Section StringLemmas.
Local Open Scope string_scope.

Lemma str_app_nil_r (s : string) : s ++ "" = s.
Proof. induction s; simpl; congruence. Qed.

Lemma str_app_assoc (a b c : string) : (a ++ b) ++ c = a ++ (b ++ c).
Proof. induction a; simpl; congruence. Qed.

Lemma str_length_app (a b : string) : String.length (a ++ b) = String.length a + String.length b.
Proof. induction a; simpl; [done | by f_equal]. Qed.

Lemma str_length_repeat c n : String.length (str_repeat c n) = n.
Proof. induction n; simpl; [done | by f_equal]. Qed.

Lemma str_all_app f (a b : string) : str_all f (a ++ b) = str_all f a && str_all f b.
Proof. induction a; simpl; [done |]. by rewrite IHa, andb_assoc. Qed.

Lemma str_is_empty_spec s : str_is_empty s = true ↔ s = "".
Proof. by destruct s. Qed.

Lemma digit_value_char d : (0 ≤ d ≤ 9)%Z → digit_value (digit_char d) = d.
Proof.
  intros Hd. unfold digit_value, digit_char. rewrite nat_ascii_embedding; lia.
Qed.

Lemma is_ascii_digit_char d : (0 ≤ d ≤ 9)%Z → is_ascii_digit (digit_char d) = true.
Proof.
  intros Hd. unfold is_ascii_digit, in_range. rewrite digit_value_char by done.
  rewrite andb_true_iff, !Z.leb_le. lia.
Qed.

Lemma is_ascii_digit_range c : is_ascii_digit c = true → (0 ≤ digit_value c ≤ 9)%Z.
Proof. unfold is_ascii_digit, in_range. rewrite andb_true_iff, !Z.leb_le. lia. Qed.

Lemma digit_char_value c : is_ascii_digit c = true → digit_char (digit_value c) = c.
Proof.
  intros H%is_ascii_digit_range. unfold digit_char, digit_value in *.
  rewrite <- (ascii_nat_embedding c) at 2. f_equal. lia.
Qed.

Lemma dec_value_from_app v a b : dec_value_from v (a ++ b) = dec_value_from (dec_value_from v a) b.
Proof. revert v. induction a; intros v; simpl; [done | apply IHa]. Qed.

Lemma dec_value_from_shift v s :
  dec_value_from v s = (v * 10 ^ Z.of_nat (String.length s) + dec_value s)%Z.
Proof.
  unfold dec_value. revert v. induction s as [|c s IH]; intros v; cbn [dec_value_from String.length].
  { simpl. lia. }
  rewrite IH, (IH (0 * 10 + digit_value c)%Z).
  rewrite Nat2Z.inj_succ, Z.pow_succ_r by lia. lia.
Qed.

Lemma dec_value_app a b :
  dec_value (a ++ b) = (dec_value a * 10 ^ Z.of_nat (String.length b) + dec_value b)%Z.
Proof. unfold dec_value at 1. rewrite dec_value_from_app. apply dec_value_from_shift. Qed.

Lemma dec_value_cons c s :
  dec_value (String c s) = (digit_value c * 10 ^ Z.of_nat (String.length s) + dec_value s)%Z.
Proof. apply (dec_value_from_shift (0 * 10 + digit_value c)). Qed.

Lemma dec_value_bounds s :
  all_digits s = true → (0 ≤ dec_value s < 10 ^ Z.of_nat (String.length s))%Z.
Proof.
  induction s as [|c s IH]; [done |].
  unfold all_digits; simpl. rewrite andb_true_iff. intros [Hc%is_ascii_digit_range Hs].
  specialize (IH Hs). rewrite dec_value_cons.
  cbn [String.length]. rewrite Nat2Z.inj_succ, Z.pow_succ_r by lia. nia.
Qed.

Lemma dec_value_repeat0 n : dec_value (str_repeat "0" n) = 0%Z.
Proof.
  induction n; [done |]. simpl. rewrite dec_value_cons, IHn.
  change (digit_value "0") with 0%Z. lia.
Qed.

Lemma all_digits_repeat0 n : all_digits (str_repeat "0" n) = true.
Proof. by induction n. Qed.

(** [dec_go] with enough fuel puts the digits of [n] before [acc]. *)
Lemma dec_go_value fuel n acc :
  (0 ≤ n)%Z → (Z.to_nat (Z.log2 n) < fuel)%nat →
  dec_value (dec_go fuel n acc) = (n * 10 ^ Z.of_nat (String.length acc) + dec_value acc)%Z.
Proof.
  revert n acc. induction fuel as [|fuel IH]; intros n acc Hn Hf; [lia |]. simpl.
  pose proof (Z.mod_pos_bound n 10). pose proof (Z.div_mod n 10).
  destruct (Z.ltb_spec n 10).
  - rewrite dec_value_cons, digit_value_char by lia.
    by rewrite Z.mod_small by lia.
  - rewrite IH; [| apply Z.div_pos; lia |].
    + rewrite dec_value_cons, digit_value_char by lia.
      cbn [String.length]. rewrite Nat2Z.inj_succ, Z.pow_succ_r by lia. nia.
    + assert (Z.log2 (n / 10) ≤ Z.log2 (n / 2))%Z.
      { apply Z.log2_le_mono. apply Z.div_le_compat_l; lia. }
      assert (Z.log2 n = Z.succ (Z.log2 (n / 2)))%Z as E.
      { rewrite <- Z.div2_div, Z.div2_spec, Z.log2_shiftr by lia.
        assert (1 <= Z.log2 n)%Z by (apply Z.log2_le_pow2; lia). lia. }
      pose proof (Z.log2_nonneg (n / 2)). lia.
Qed.

Lemma dec_go_digits fuel n acc :
  (0 ≤ n)%Z → all_digits acc = true → all_digits (dec_go fuel n acc) = true.
Proof.
  revert n acc. induction fuel as [|fuel IH]; intros n acc Hn Hacc; simpl; [done |].
  assert (all_digits (String (digit_char (n mod 10)) acc) = true) as H.
  { unfold all_digits in *; simpl. rewrite Hacc, is_ascii_digit_char; [done |].
    pose proof (Z.mod_pos_bound n 10). lia. }
  destruct (n <? 10)%Z; [done |]. apply IH; [apply Z.div_pos; lia | done].
Qed.

Lemma dec_go_length fuel n acc k :
  (0 ≤ n < 10 ^ Z.of_nat k)%Z → (0 < k)%nat →
  (String.length (dec_go fuel n acc) ≤ k + String.length acc)%nat.
Proof.
  revert n acc k. induction fuel as [|fuel IH]; intros n acc k Hn Hk; simpl; [lia |].
  destruct (Z.ltb_spec n 10); simpl; [lia |].
  destruct k as [|[|k]]; [lia | simpl in *; lia |].
  etrans; [apply (IH _ _ (S k)) |]; simpl; try lia.
  rewrite !Nat2Z.inj_succ, !Z.pow_succ_r in * by lia. split; [apply Z.div_pos; lia |].
  apply Z.div_lt_upper_bound; lia.
Qed.

Lemma dec_go_nonempty fuel n acc : acc ≠ "" → dec_go fuel n acc ≠ "".
Proof.
  revert n acc. induction fuel as [|fuel IH]; intros n acc H; simpl; [done |].
  destruct (n <? 10)%Z; [done |]. by apply IH.
Qed.

Lemma dec_string_value n : (0 ≤ n)%Z → dec_value (dec_string n) = n.
Proof.
  intros. unfold dec_string. rewrite dec_go_value by lia. simpl. unfold dec_value; simpl. lia.
Qed.

Lemma dec_string_digits n : (0 ≤ n)%Z → all_digits (dec_string n) = true.
Proof. intros. by apply dec_go_digits. Qed.

Lemma dec_string_nonempty n : dec_string n ≠ "".
Proof.
  unfold dec_string. simpl. destruct (n <? 10)%Z; [done |]. by apply dec_go_nonempty.
Qed.

Lemma dec_string_length n k :
  (0 ≤ n < 10 ^ Z.of_nat k)%Z → (0 < k)%nat → (String.length (dec_string n) ≤ k)%nat.
Proof.
  intros. etrans; [by apply (dec_go_length _ _ _ k) |]. simpl. lia.
Qed.

(** Zero padding keeps the value, the digits, and reaches the width exactly. *)
Lemma pad_left0_value w s : dec_value (pad_left0 w s) = dec_value s.
Proof. unfold pad_left0. rewrite dec_value_app, dec_value_repeat0. lia. Qed.

Lemma pad_left0_digits w s : all_digits s = true → all_digits (pad_left0 w s) = true.
Proof.
  unfold pad_left0, all_digits. rewrite str_all_app. intros ->.
  by setoid_rewrite all_digits_repeat0.
Qed.

Lemma pad_left0_length w s : (String.length s ≤ w)%nat → String.length (pad_left0 w s) = w.
Proof. intros. unfold pad_left0. rewrite str_length_app, str_length_repeat. lia. Qed.

(** A digit string never holds the separator. *)
Lemma all_digits_not_char c s s' :
  all_digits s = true → is_ascii_digit c = false →
  split_once c (s ++ String c s') = Some (s, s').
Proof.
  intros Hs Hc. induction s as [|d s IH]; simpl.
  - by rewrite Ascii.eqb_refl.
  - unfold all_digits in *; simpl in Hs. apply andb_true_iff in Hs as [Hd Hs].
    destruct (Ascii.eqb_spec d c) as [->|]; [congruence |]. by rewrite IH.
Qed.

Lemma split_once_None c s : all_digits s = true → is_ascii_digit c = false → split_once c s = None.
Proof.
  intros Hs Hc. induction s as [|d s IH]; simpl; [done |].
  unfold all_digits in *; simpl in Hs. apply andb_true_iff in Hs as [Hd Hs].
  destruct (Ascii.eqb_spec d c) as [->|]; [congruence |]. by rewrite IH.
Qed.

Lemma split_once_Some c s a b : split_once c s = Some (a, b) → s = a ++ String c b.
Proof.
  revert a b. induction s as [|d s IH]; intros a b; simpl; [done |].
  destruct (Ascii.eqb_spec d c) as [->|]; [by intros [= <- <-] |].
  destruct (split_once c s) as [[a' b']|]; [|done]. intros [= <- <-]. simpl. f_equal. by apply IH.
Qed.

(** [trim_end_matches] removes a run of [c] and stops at anything else. *)
Lemma trim_end_spec c s : ∃ n, s = trim_end_matches c s ++ str_repeat c n.
Proof.
  induction s as [|d s [n IH]]; [by exists 0 |]. simpl.
  destruct (str_is_empty (trim_end_matches c s)) eqn:E; simpl.
  - apply str_is_empty_spec in E. rewrite E in IH. destruct (Ascii.eqb_spec d c) as [->|].
    + exists (S n). simpl. by f_equal.
    + exists n. simpl. rewrite E. by f_equal.
  - exists n. simpl. by f_equal.
Qed.

Lemma trim_end_app c a d b :
  Ascii.eqb d c = false →
  trim_end_matches c (a ++ String d b) = a ++ String d (trim_end_matches c b).
Proof.
  intros Hd. induction a as [|x a IH]; simpl.
  - by rewrite Hd, andb_false_r.
  - rewrite IH. by destruct a.
Qed.

Lemma strip_suffix_char_cons c d s :
  s ≠ "" →
  strip_suffix_char c (String d s) =
    match strip_suffix_char c s with Some t => Some (String d t) | None => None end.
Proof. by destruct s. Qed.

Lemma str_app_cons_nonempty (a : string) d b : a ++ String d b ≠ "".
Proof. by destruct a. Qed.

Lemma strip_suffix_char_app c a : strip_suffix_char c (a ++ String c "") = Some a.
Proof.
  induction a as [|x a IH]; cbn [String.append]; [simpl; by rewrite Ascii.eqb_refl |].
  by rewrite strip_suffix_char_cons, IH by apply str_app_cons_nonempty.
Qed.

Lemma strip_suffix_char_digits c s :
  all_digits s = true → is_ascii_digit c = false → strip_suffix_char c s = None.
Proof.
  unfold all_digits. intros Hs Hc. induction s as [|d s IH]; [done |].
  simpl in Hs. apply andb_true_iff in Hs as [Hd Hs]. destruct s as [|e s].
  - simpl. destruct (Ascii.eqb_spec d c) as [->|]; congruence.
  - by rewrite strip_suffix_char_cons, IH.
Qed.

Lemma strip_suffix_char_None c a s :
  s ≠ "" → all_digits s = true → is_ascii_digit c = false → strip_suffix_char c (a ++ s) = None.
Proof.
  intros Hne Hs Hc. induction a as [|x a IH]; cbn [String.append]; [by apply strip_suffix_char_digits |].
  rewrite strip_suffix_char_cons, IH; [done |]. by destruct a, s.
Qed.
End StringLemmas.

(** *** Byte-wise comparison ([memcmp], SQLite's [BINARY] collation) *)
Section Bytewise.
Local Open Scope Z_scope.

Definition byte_value (c : ascii) : Z := Z.of_nat (nat_of_ascii c).

Fixpoint str_ltb (a b : string) : bool :=
  match a, b with
  | _, EmptyString => false
  | EmptyString, String _ _ => true
  | String x a', String y b' =>
      (byte_value x <? byte_value y) || ((byte_value x =? byte_value y) && str_ltb a' b')
  end.
Definition str_leb (a b : string) : bool := negb (str_ltb b a).

Lemma byte_value_inj x y : byte_value x = byte_value y → x = y.
Proof.
  unfold byte_value. intros H%Nat2Z.inj.
  by rewrite <- (ascii_nat_embedding x), <- (ascii_nat_embedding y), H.
Qed.

Lemma str_ltb_irrefl a : str_ltb a a = false.
Proof. induction a; simpl; [done |]. by rewrite Z.ltb_irrefl, Z.eqb_refl. Qed.

(** Equal-length heads decide first. *)
Lemma str_ltb_app a b x y :
  String.length a = String.length b →
  str_ltb (a +:+ x) (b +:+ y) = str_ltb a b || (bool_decide (a = b) && str_ltb x y).
Proof.
  revert b. induction a as [|c a IH]; intros [|d b] Hl; try done.
  cbn [String.append str_ltb]. rewrite IH by (simpl in Hl; lia).
  destruct (Z.ltb_spec (byte_value c) (byte_value d)); [done |].
  destruct (Z.eqb_spec (byte_value c) (byte_value d)) as [E%byte_value_inj|E]; simpl.
  - subst d. f_equal. f_equal. apply bool_decide_ext. naive_solver.
  - rewrite bool_decide_eq_false_2; [done | congruence].
Qed.

Lemma digit_value_byte c : digit_value c = byte_value c - 48.
Proof. done. Qed.

(** On digit strings of one width, byte order is numeric order. *)
Lemma str_ltb_digits a b :
  all_digits a = true → all_digits b = true → String.length a = String.length b →
  str_ltb a b = (dec_value a <? dec_value b) ∧ (dec_value a = dec_value b → a = b).
Proof.
  unfold all_digits.
  revert b. induction a as [|c a IH]; intros [|d b] Ha Hb Hl; try done.
  simpl in Ha, Hb, Hl. apply andb_true_iff in Ha as [Hc Ha], Hb as [Hd Hb].
  destruct (IH b Ha Hb ltac:(lia)) as [IH1 IH2].
  pose proof (dec_value_bounds a Ha). pose proof (dec_value_bounds b Hb) as Bb.
  assert (String.length a = String.length b) as El by lia. rewrite <- El in Bb.
  rewrite !dec_value_cons, <- El, !digit_value_byte. cbn [str_ltb]. rewrite IH1.
  set (p := 10 ^ Z.of_nat (String.length a)) in *.
  split.
  - destruct (Z.ltb_spec (byte_value c) (byte_value d)); simpl.
    { symmetry. apply Z.ltb_lt. nia. }
    destruct (Z.eqb_spec (byte_value c) (byte_value d)) as [->|]; simpl.
    { apply Bool.eq_true_iff_eq. rewrite !Z.ltb_lt. lia. }
    symmetry. apply Z.ltb_ge. nia.
  - intros E. assert (byte_value c = byte_value d) as Ec by nia.
    f_equal; [by apply byte_value_inj |]. apply IH2. rewrite Ec in E. lia.
Qed.

(** A fixed-width number followed by a separator compares first. *)
Lemma str_ltb_pad w a b x y :
  0 ≤ a < 10 ^ Z.of_nat w → 0 ≤ b < 10 ^ Z.of_nat w → (0 < w)%nat →
  str_ltb (pad_left0 w (dec_string a) +:+ x) (pad_left0 w (dec_string b) +:+ y) =
    (a <? b) || ((a =? b) && str_ltb x y).
Proof.
  intros Ha Hb Hw.
  assert (∀ n, 0 ≤ n < 10 ^ Z.of_nat w → String.length (pad_left0 w (dec_string n)) = w) as HL.
  { intros. by apply pad_left0_length, dec_string_length. }
  rewrite str_ltb_app by (by rewrite !HL).
  destruct (str_ltb_digits (pad_left0 w (dec_string a)) (pad_left0 w (dec_string b))) as [E1 E2];
    [apply pad_left0_digits, dec_string_digits; lia | apply pad_left0_digits, dec_string_digits; lia | by rewrite !HL |].
  rewrite E1, !pad_left0_value, !dec_string_value in * by lia.
  f_equal. f_equal. apply Bool.eq_true_iff_eq. rewrite bool_decide_eq_true, Z.eqb_eq.
  split; [| intros ->; done]. intros E.
  apply (f_equal dec_value) in E. by rewrite !pad_left0_value, !dec_string_value in E by lia.
Qed.

Lemma str_ltb_cons c x y : str_ltb (String c x) (String c y) = str_ltb x y.
Proof. simpl. by rewrite Z.ltb_irrefl, Z.eqb_refl. Qed.
End Bytewise.

(** *** Characters of a UTF-8 string *)

(** A continuation byte [0b10xxxxxx]. *)
Definition is_continuation (c : ascii) : bool := in_range 128 191 (byte_value c).

(** [s.get(..n)]: the first [n] bytes when [n] is a character boundary. *)
Definition str_get_prefix (n : nat) (s : string) : option string :=
  if (String.length s <? n)%nat then None
  else match String.get n s with
       | Some c => if is_continuation c then None else Some (String.substring 0 n s)
       | None => Some (String.substring 0 n s)
       end.

(** [s.chars().take(n).collect()]. *)
Fixpoint take_chars (n : nat) (s : string) : string :=
  match s with
  | EmptyString => EmptyString
  | String c s' =>
      if is_continuation c then String c (take_chars n s')
      else match n with O => EmptyString | S n' => String c (take_chars n' s') end
  end.

(** *** Positions in a concatenation *)

Lemma str_get_app_r n a b :
  (String.length a ≤ n)%nat → String.get n (a +:+ b) = String.get (n - String.length a) b.
Proof.
  revert n. induction a as [|c a IH]; intros n Hn; simpl in *; [by rewrite Nat.sub_0_r |].
  destruct n as [|n]; [lia |]. simpl. apply IH. lia.
Qed.

Lemma str_substring_all a : String.substring 0 (String.length a) a = a.
Proof. induction a; simpl; congruence. Qed.

Lemma str_prefix_app a b : String.substring 0 (String.length a) (a +:+ b) = a.
Proof.
  induction a as [|c a IH]; simpl; [by destruct b | by rewrite IH].
Qed.

Create HintDb strings.
#[export] Hint Resolve dec_string_digits pad_left0_digits all_digits_repeat0 : strings.

(** ** Sums of integers *)
Definition zsum (l : list Z) : Z := foldr Z.add 0%Z l.

Lemma zsum_cons x l : zsum (x :: l) = (x + zsum l)%Z.
Proof. done. Qed.

Lemma zsum_app l1 l2 : zsum (l1 ++ l2) = (zsum l1 + zsum l2)%Z.
Proof. unfold zsum. induction l1 as [|x l1 IH]; simpl; [done | rewrite IH; lia]. Qed.

Lemma zsum_nonneg l : Forall (λ x, 0 ≤ x)%Z l → (0 ≤ zsum l)%Z.
Proof. unfold zsum. induction 1; csimpl; lia. Qed.

Lemma zsum_map_add {A} (f g : A → Z) l :
  zsum ((λ x, f x + g x)%Z <$> l) = (zsum (f <$> l) + zsum (g <$> l))%Z.
Proof. unfold zsum. induction l as [|x l IH]; csimpl; [done | rewrite IH; lia]. Qed.

Lemma zsum_map_le {A} (f g : A → Z) l :
  Forall (λ x, f x ≤ g x)%Z l → (zsum (f <$> l) ≤ zsum (g <$> l))%Z.
Proof. unfold zsum. induction 1; csimpl; lia. Qed.

Lemma zsum_perm l l' : l ≡ₚ l' → zsum l = zsum l'.
Proof. unfold zsum. induction 1; csimpl; lia. Qed.

Lemma zsum_zero {A} (f : A → Z) l : (∀ x, x ∈ l → f x = 0%Z) → zsum (f <$> l) = 0%Z.
Proof.
  intros Hz. unfold zsum. induction l as [|x l IH]; [done |]. csimpl. rewrite Hz by (by left).
  rewrite IH; [done |]. intros y Hy. apply Hz. by right.
Qed.

(** Counting by key: each element is counted under its own key, once. *)
Lemma zsum_by_key {A K} `{EqDecision K} (key : A → K) (ks : list K) (l : list A) :
  NoDup ks → (∀ x, x ∈ l → key x ∈ ks) →
  zsum ((λ k, Z.of_nat (length (filter (λ x, key x = k) l))) <$> ks) = Z.of_nat (length l).
Proof.
  intros Hnd. induction l as [|x l IH]; intros Hin.
  - clear. induction ks as [|k ks IH]; [done | exact IH].
  - assert (zsum ((λ k, Z.of_nat (length (filter (λ y, key y = k) (x :: l)))) <$> ks)
      = zsum ((λ k, (if decide (key x = k) then 1 else 0) + Z.of_nat (length (filter (λ y, key y = k) l)))%Z <$> ks)) as ->.
    { f_equal. apply list_fmap_ext. intros i k _. rewrite filter_cons. destruct (decide (key x = k)); simpl; lia. }
    rewrite zsum_map_add, IH by (intros y Hy; apply Hin; by right).
    assert (zsum ((λ k, if decide (key x = k) then 1 else 0)%Z <$> ks) = 1%Z) as ->.
    { assert (key x ∈ ks) as Hk by (apply Hin; by left). clear -Hk Hnd.
      assert (∀ ks', key x ∉ ks' → zsum ((λ k, if decide (key x = k) then 1 else 0)%Z <$> ks') = 0%Z) as H0.
      { intros ks'. unfold zsum. induction ks' as [|k ks' IH]; intros Hn; csimpl; [done |].
        rewrite decide_False by (intros <-; apply Hn; by left). rewrite IH; [done |]. intros ?. apply Hn. by right. }
      induction Hnd as [|k ks Hni Hnd IH]; [by apply elem_of_nil in Hk |].
      apply elem_of_cons in Hk as [<-|Hk]; unfold zsum in *; csimpl.
      - rewrite decide_True by done. rewrite H0; done.
      - rewrite decide_False by (intros <-; done). rewrite IH; done. }
    simpl length. lia.
Qed.

Lemma length_filter_split {A} (P : A → bool) (l : list A) :
  Z.of_nat (length l) = (Z.of_nat (length (filter (λ x, P x = true) l)) + Z.of_nat (length (filter (λ x, P x = false) l)))%Z.
Proof.
  induction l as [|x l IH]; [done |]. rewrite !filter_cons. destruct (P x) eqn:E; simpl length;
    rewrite ?decide_True, ?decide_False by congruence; simpl length in *; lia.
Qed.
