(* ===== verification/Utf8.v ===== *)
(** * Text as the standard library sees it

    On UTF-8 bytes: [str::trim] (the characters with the Unicode White_Space
    property, by their encodings), splitting, ASCII case, [Debug], and the lossy
    decoding of bytes. *)

From stdpp Require Import base strings list numbers.
From Stdlib Require Import Ascii ZArith Lia.
From S2P Require Import Prelude.

Definition bytes (l : list nat) : string := foldr (λ n s, String (ascii_of_nat n) s) EmptyString l.

(** U+0009-000D, U+0020, U+0085, U+00A0, U+1680, U+2000-200A, U+2028, U+2029,
    U+202F, U+205F, U+3000. *)
Definition white_space : list string :=
  bytes <$>
    [[9]; [10]; [11]; [12]; [13]; [32]; [194; 133]; [194; 160]; [225; 154; 128];
     [226; 128; 128]; [226; 128; 129]; [226; 128; 130]; [226; 128; 131]; [226; 128; 132];
     [226; 128; 133]; [226; 128; 134]; [226; 128; 135]; [226; 128; 136]; [226; 128; 137];
     [226; 128; 138]; [226; 128; 168]; [226; 128; 169]; [226; 128; 175]; [226; 129; 159];
     [227; 128; 128]]%nat.

(** Strip leading elements of [ws]; the length of the text is fuel enough. *)
Fixpoint strip_all (ws : list string) (fuel : nat) (s : string) : string :=
  match fuel with
  | O => s
  | S fuel' =>
      match find_map (λ w, strip_prefix w s) ws with
      | Some s' => strip_all ws fuel' s'
      | None => s
      end
  end.

Fixpoint str_rev_app (s acc : string) : string :=
  match s with EmptyString => acc | String c s' => str_rev_app s' (String c acc) end.
Definition str_rev (s : string) : string := str_rev_app s EmptyString.

Definition trim_start (s : string) : string := strip_all white_space (String.length s) s.
Definition trim_end (s : string) : string :=
  str_rev (strip_all (str_rev <$> white_space) (String.length s) (str_rev s)).
Definition trim (s : string) : string := trim_end (trim_start s).

Example trim_examples :
  trim "  acme  " = "acme"%string ∧ trim (bytes [194; 160; 97; 32; 98; 227; 128; 128])%nat = "a b"%string
  ∧ trim "   " = ""%string.
Proof. vm_compute. auto. Qed.

(** ** Pieces and case *)

(** [str::split(c)]. *)
Fixpoint split_char (c : ascii) (s : string) : list string :=
  match s with
  | EmptyString => [EmptyString]
  | String d s' =>
      if Ascii.eqb d c then EmptyString :: split_char c s'
      else match split_char c s' with
           | [] => [String d EmptyString]
           | w :: ws => String d w :: ws
           end
  end.

Lemma split_char_sep c a b :
  str_all (λ d, negb (Ascii.eqb d c)) a = true → split_char c (a +:+ String c b) = a :: split_char c b.
Proof.
  induction a as [|d a IH]; cbn [str_all String.append split_char]; [by rewrite Ascii.eqb_refl |].
  rewrite andb_true_iff. intros [Hd Ha]. apply negb_true_iff in Hd. by rewrite Hd, IH.
Qed.

(** [slice::join(sep)]. *)
Fixpoint join (sep : string) (l : list string) : string :=
  match l with
  | [] => EmptyString
  | [x] => x
  | x :: l' => (x +:+ sep +:+ join sep l')%string
  end.

(** [u8::to_ascii_lowercase] and [eq_ignore_ascii_case]. *)
Definition to_ascii_lowercase (c : ascii) : ascii :=
  if in_range 65 90 (byte_value c) then ascii_of_nat (Z.to_nat (byte_value c + 32)) else c.

Fixpoint eq_ignore_ascii_case (a b : string) : bool :=
  match a, b with
  | EmptyString, EmptyString => true
  | String x a', String y b' => Ascii.eqb (to_ascii_lowercase x) (to_ascii_lowercase y) && eq_ignore_ascii_case a' b'
  | _, _ => false
  end.

(** [str::to_ascii_lowercase]. *)
Fixpoint lowercase (s : string) : string :=
  match s with EmptyString => EmptyString | String c s' => String (to_ascii_lowercase c) (lowercase s') end.

Lemma lowercase_idem s : lowercase (lowercase s) = lowercase s.
Proof.
  induction s as [|c s IH]; cbn; [done |]. rewrite IH. f_equal.
  destruct c as [[] [] [] [] [] [] [] []]; reflexivity.
Qed.

(** ** [Debug for str]

    Quoted, with the ASCII escapes; characters beyond ASCII stand for
    themselves (the standard library also escapes the unprintable of those). *)
Definition hex_digit (n : Z) : ascii := if (n <? 10)%Z then digit_char n else ascii_of_nat (Z.to_nat (n + 87)%Z).

Definition escape_char (c : ascii) : string :=
  let b := byte_value c in
  (if b =? 9 then "\t" else if b =? 10 then "\n" else if b =? 13 then "\r" else if b =? 0 then "\0"
  else if (b =? 34) || (b =? 92) then String "\" (String c EmptyString)
  else if (b <? 16) then ("\u{" +:+ String (hex_digit b) "}")%string
  else if (b <? 32) || (b =? 127) then ("\u{" +:+ String (hex_digit (b / 16)) (String (hex_digit (b mod 16)) "}"))%string
  else String c EmptyString)%Z.

Fixpoint escape (s : string) : string :=
  match s with EmptyString => EmptyString | String c s' => (escape_char c +:+ escape s')%string end.

Definition debug_str (s : string) : string :=
  let q := String (ascii_of_nat 34) EmptyString in (q +:+ escape s +:+ q)%string.

Example debug_str_examples :
  debug_str "gpt-4o" = (String (ascii_of_nat 34) "gpt-4o" +:+ String (ascii_of_nat 34) EmptyString)%string
  ∧ escape (bytes [34; 92; 10; 7; 127])%nat = bytes [92; 34; 92; 92; 92; 110; 92; 117; 123; 55; 125; 92; 117; 123; 55; 102; 125]%nat.
Proof. vm_compute. auto. Qed.

(** ** [String::from_utf8_lossy]

    Every maximal invalid piece becomes one U+FFFD, as [Utf8Chunks] cuts them. *)

Definition REPLACEMENT : string := bytes [239; 191; 189]%nat.

(** What may follow a lead byte: the range of each continuation byte. *)
Definition sequence (lead : Z) : option (list (Z * Z)) :=
  if in_range 194 223 lead then Some [(128, 191)]%Z
  else if (lead =? 224)%Z then Some [(160, 191); (128, 191)]%Z
  else if in_range 225 236 lead then Some [(128, 191); (128, 191)]%Z
  else if (lead =? 237)%Z then Some [(128, 159); (128, 191)]%Z
  else if in_range 238 239 lead then Some [(128, 191); (128, 191)]%Z
  else if (lead =? 240)%Z then Some [(144, 191); (128, 191); (128, 191)]%Z
  else if in_range 241 243 lead then Some [(128, 191); (128, 191); (128, 191)]%Z
  else if (lead =? 244)%Z then Some [(128, 143); (128, 191); (128, 191)]%Z
  else None.

(** [pre] is the sequence being read, [need] what it still needs. *)
Fixpoint lossy (pre : string) (need : list (Z * Z)) (l : list ascii) : string :=
  match l with
  | [] => match need with [] => EmptyString | _ => REPLACEMENT end
  | c :: l' =>
      let start :=
        if (byte_value c <? 128)%Z then String c (lossy EmptyString [] l')
        else match sequence (byte_value c) with
             | Some ranges => lossy (String c EmptyString) ranges l'
             | None => (REPLACEMENT ++ lossy EmptyString [] l')%string
             end in
      match need with
      | [] => start
      | (lo, hi) :: need' =>
          if in_range lo hi (byte_value c) then
            match need' with
            | [] => (pre ++ String c (lossy EmptyString [] l'))%string
            | _ => lossy (pre ++ String c EmptyString)%string need' l'
            end
          else (REPLACEMENT ++ start)%string
      end
  end.
Definition from_utf8_lossy (l : list ascii) : string := lossy EmptyString [] l.

Example from_utf8_lossy_examples :
  from_utf8_lossy (ascii_of_nat <$> [97; 195; 169; 98]%nat) = bytes [97; 195; 169; 98]%nat
  ∧ from_utf8_lossy (ascii_of_nat <$> [97; 240; 159; 146; 98; 255; 237; 160; 128]%nat)
    = (bytes [97]%nat ++ REPLACEMENT ++ bytes [98]%nat ++ REPLACEMENT ++ REPLACEMENT ++ REPLACEMENT ++ REPLACEMENT)%string.
Proof. vm_compute. auto. Qed.

(** A replacement is at most three times as long as what it replaces. *)
Lemma lossy_length pre need l :
  (need = [] → pre = EmptyString) → (need ≠ [] → pre ≠ EmptyString) →
  (String.length (lossy pre need l) ≤ 3 * (String.length pre + length l))%nat.
Proof.
  revert pre need. induction l as [|c l IH]; intros pre need Hn Hp; cbn [lossy length].
  { destruct need; [cbn; lia |]. destruct pre; [by destruct Hp | cbn; lia]. }
  pose proof (IH EmptyString [] ltac:(done) ltac:(done)) as IH0. cbn [String.length] in IH0.
  assert (∀ r rs, (String.length (lossy (String c EmptyString) (r :: rs) l) ≤ 3 * (1 + length l))%nat) as IHc
    by (intros r rs; apply (IH (String c EmptyString)); done).
  set (start := if (byte_value c <? 128)%Z then _ else _).
  assert (String.length start ≤ 3 * (1 + length l))%nat as Hs.
  { unfold start. destruct (byte_value c <? 128)%Z; [cbn; lia |]. unfold sequence.
    repeat (case_match; [simplify_eq; try apply IHc |]); simplify_eq; cbn; rewrite ?str_length_app; cbn; lia. }
  destruct need as [|[lo hi] need']; [lia |].
  destruct (in_range lo hi (byte_value c)).
  - destruct need' as [|r need']; [rewrite str_length_app; cbn; lia |].
    specialize (IH (pre ++ String c EmptyString)%string (r :: need') ltac:(done)).
    rewrite str_length_app in IH. cbn [String.length] in IH. lapply IH; [lia |]. by destruct pre.
  - rewrite str_length_app. destruct pre; [by destruct Hp | cbn; lia].
Qed.

Lemma from_utf8_lossy_length l : (String.length (from_utf8_lossy l) ≤ 3 * length l)%nat.
Proof. by apply (lossy_length EmptyString []). Qed.

(** ** [String::from_utf8] and [str::parse] on integers *)

(** [need] is what the sequence being read still needs. *)
Fixpoint utf8_from (need : list (Z * Z)) (s : string) : bool :=
  match s with
  | EmptyString => match need with [] => true | _ => false end
  | String c s' =>
      match need with
      | [] =>
          if (byte_value c <? 128)%Z then utf8_from [] s'
          else match sequence (byte_value c) with Some ranges => utf8_from ranges s' | None => false end
      | (lo, hi) :: need' => in_range lo hi (byte_value c) && utf8_from need' s'
      end
  end.
Definition utf8_valid (s : string) : bool := utf8_from [] s.

Lemma utf8_from_app need a b : utf8_from need a = true → utf8_from need (a +:+ b)%string = utf8_from [] b.
Proof.
  revert need. induction a as [|c a IH]; intros need; cbn [String.append utf8_from]; [by destruct need |].
  destruct need as [|[lo hi] need].
  - destruct (byte_value c <? 128)%Z; [apply IH |]. destruct (sequence _); [apply IH | done].
  - intros [-> Ha]%andb_true_iff. by apply IH.
Qed.

Lemma utf8_valid_app a b : utf8_valid a = true → utf8_valid (a +:+ b)%string = utf8_valid b.
Proof. apply utf8_from_app. Qed.

Lemma utf8_valid_ascii s : str_all (λ c, byte_value c <? 128)%Z s = true → utf8_valid s = true.
Proof.
  unfold utf8_valid. induction s as [|c s IH]; cbn [str_all utf8_from]; [done |].
  intros [-> Hs]%andb_true_iff. by apply IH.
Qed.

(** [T::from_str] of an integer type with range [lo..=hi]: an optional sign
    ([-] only when the type has one), then digits. *)
Definition parse_digits (lo hi : Z) (negative : bool) (s : string) : option Z :=
  if str_is_empty s || negb (all_digits s) then None
  else checked lo hi (if negative then - dec_value s else dec_value s)%Z.
Definition parse_int (signed : bool) (lo hi : Z) (s : string) : option Z :=
  match s with
  | String c s' =>
      if Ascii.eqb c "+" then parse_digits lo hi false s'
      else if Ascii.eqb c "-" && signed then parse_digits lo hi true s'
      else parse_digits lo hi false s
  | EmptyString => None
  end.
Definition parse_i64 (s : string) : option Z := parse_int true i64_min i64_max s.
Definition parse_u32 (s : string) : option Z := parse_int false 0 (2 ^ 32 - 1) s.

Example parse_int_examples :
  parse_i64 "-9223372036854775808" = Some i64_min ∧ parse_i64 "9223372036854775808" = None
  ∧ parse_i64 "+7" = Some 7%Z ∧ parse_i64 "-" = None ∧ parse_i64 "" = None ∧ parse_i64 "1 " = None
  ∧ parse_u32 "6" = Some 6%Z ∧ parse_u32 "-1" = None.
Proof. vm_compute. auto 10. Qed.

Lemma digits_no_sign s c s' : all_digits s = true → s = String c s' → Ascii.eqb c "+" = false ∧ Ascii.eqb c "-" = false.
Proof.
  intros Hs ->. unfold all_digits in Hs. cbn [str_all] in Hs. apply andb_true_iff in Hs as [Hc _].
  split; apply not_true_iff_false; intros ->%Ascii.eqb_eq; done.
Qed.

Lemma parse_int_digits signed lo hi s :
  all_digits s = true → s ≠ EmptyString → parse_int signed lo hi s = checked lo hi (dec_value s).
Proof.
  intros Hs Hne. destruct s as [|c s']; [done |]. unfold parse_int.
  destruct (digits_no_sign _ c s' Hs eq_refl) as [-> ->]. cbn [andb]. unfold parse_digits. by rewrite Hs.
Qed.

(** A printed integer parses back. *)
Lemma parse_i64_to_string (z : Z) : is_i64 z → parse_i64 (signed_dec_string z) = Some z.
Proof.
  intros Hz. unfold signed_dec_string. destruct (Z.ltb_spec z 0).
  - unfold parse_i64, parse_int. cbn [Ascii.eqb Bool.eqb andb]. unfold parse_digits.
    rewrite (dec_string_digits (- z)) by lia. pose proof (dec_string_nonempty (- z)) as Hne.
    destruct (dec_string (- z)) eqn:E; [done |]. cbn [str_is_empty orb negb].
    rewrite <- E, dec_string_value, Z.opp_involutive by lia. by apply checked_in.
  - unfold parse_i64. rewrite parse_int_digits by auto using dec_string_digits, dec_string_nonempty.
    rewrite dec_string_value by done. by apply checked_in.
Qed.

(** What parses is signs and digits. *)
Definition is_sign_or_digit (c : ascii) : bool := Ascii.eqb c "+" || Ascii.eqb c "-" || is_ascii_digit c.

Lemma parse_int_chars signed lo hi s z : parse_int signed lo hi s = Some z → str_all is_sign_or_digit s = true.
Proof.
  assert (∀ n s, parse_digits lo hi n s = Some z → str_all is_sign_or_digit s = true) as Hd.
  { intros n t. unfold parse_digits. destruct (str_is_empty t); [done |]. destruct (all_digits t) eqn:E; [| done].
    intros _. revert E. unfold all_digits. induction t as [|c t IH]; [done |]. cbn [str_all].
    intros [Hc Ht]%andb_true_iff. rewrite (IH Ht). unfold is_sign_or_digit. by rewrite Hc, orb_true_r. }
  unfold parse_int. destruct s as [|c s']; [done |].
  destruct (Ascii.eqb c "+") eqn:Ep; [| destruct (Ascii.eqb c "-" && signed) eqn:Em; [| apply Hd]].
  - intros Hs%Hd. cbn [str_all]. unfold is_sign_or_digit at 1. by rewrite Ep, Hs.
  - intros Hs%Hd. apply andb_true_iff in Em as [Em _]. cbn [str_all]. unfold is_sign_or_digit at 1.
    by rewrite Em, Hs, orb_true_r.
Qed.
