(* ===== verification/Redaction.v ===== *)
(** * Text that is safe to keep ([src/src/config/types.rs], [src/src/proxy/handler.rs])

    What an upstream said, on its way into the ledger: credentials replaced,
    control characters removed, lengths capped. *)

From stdpp Require Import base strings list numbers.
From Stdlib Require Import Ascii ZArith Lia.
From S2P Require Import Prelude Utf8.

Local Open Scope Z_scope.

Definition blen (s : string) : Z := Z.of_nat (String.length s).

(** ** [str::contains], [str::replace] and [str::chars] *)

Definition starts_with (p s : string) : bool := match strip_prefix p s with Some _ => true | None => false end.

Fixpoint contains (p s : string) : bool :=
  starts_with p s || match s with EmptyString => false | String _ s' => contains p s' end.

(** [skip] bytes of a match are still to be passed over; [from] is not empty. *)
Fixpoint replace_from (from to : string) (skip : nat) (s : string) : string :=
  match s with
  | EmptyString => EmptyString
  | String c s' =>
      match skip with
      | S k => replace_from from to k s'
      | O =>
          if starts_with from s then (to +:+ replace_from from to (pred (String.length from)) s')%string
          else String c (replace_from from to O s')
      end
  end.
Definition str_replace (from to s : string) : string := replace_from from to O s.

(** The continuation bytes a text opens with, and the characters after them. *)
Fixpoint chars_from (s : string) : string * list string :=
  match s with
  | EmptyString => (EmptyString, [])
  | String c s' =>
      let '(k, l) := chars_from s' in
      if is_continuation c then (String c k, l) else (EmptyString, String c k :: l)
  end.
Definition chars (s : string) : list string :=
  let '(k, l) := chars_from s in if str_is_empty k then l else k :: l.

(** [char::is_control]: U+0000-001F and U+007F-009F. *)
Definition is_control (ch : string) : bool :=
  match ch with
  | String c EmptyString => (byte_value c <? 32) || (byte_value c =? 127)
  | String c (String d EmptyString) => (byte_value c =? 194) && in_range 128 159 (byte_value d)
  | _ => false
  end.

Fixpoint concat_str (l : list string) : string :=
  match l with [] => EmptyString | w :: l' => (w +:+ concat_str l')%string end.

(** [str::is_char_boundary]. *)
Definition is_char_boundary (s : string) (n : nat) : bool :=
  match String.get n s with Some c => negb (is_continuation c) | None => (n =? String.length s)%nat end
  || (n =? 0)%nat.

(** ** Credentials *)

Definition REDACTED : string := "<redacted>".
Definition MIN_SCRUBBED_SECRET_LEN : Z := 8.

Definition redact_credentials (text : string) (credentials : list string) : string :=
  foldl (λ out secret,
      if (MIN_SCRUBBED_SECRET_LEN <=? blen secret) && contains secret out
      then str_replace secret REDACTED out else out)
    text credentials.

(** [Config::credentials]. *)
Definition credentials (upstream_api_key : string) (manager_password : option string) : list string :=
  filter (λ secret, (MIN_SCRUBBED_SECRET_LEN <=? blen secret) = true)
    (upstream_api_key :: match manager_password with Some p => [p] | None => [] end).

(** ** The recorded reason *)

Definition MAX_REASON_CHARS : nat := 512.
Definition TRUNCATION_MARKER : string := "… (truncated)".

Definition sanitize_char (c : string) : string :=
  if is_control c then
    if String.eqb c (bytes [10]%nat) || String.eqb c (bytes [13]%nat) || String.eqb c (bytes [9]%nat) then " "%string
    else EmptyString
  else c.

(** The loop over [chars().enumerate()]; [room] is what [i] leaves of the cap. *)
Fixpoint sanitize_chars (room : nat) (l : list string) : string :=
  match l, room with
  | [], _ => EmptyString
  | _ :: _, O => TRUNCATION_MARKER
  | c :: l', S room' => (sanitize_char c +:+ sanitize_chars room' l')%string
  end.

Definition sanitize_reason (reason : string) (credentials : list string) : string :=
  sanitize_chars MAX_REASON_CHARS (chars (redact_credentials reason credentials)).

(** ** The stored error body *)

Definition MAX_STORED_ERROR_BODY : Z := 8 * 1024.
Definition ERROR_BODY_TRUNCATION_MARKER : string := "… (truncated)".

(** [while !value.is_char_boundary(end) { end -= 1 }]. *)
Fixpoint boundary_before (value : string) (end_ : nat) : nat :=
  match end_ with
  | O => O
  | S n => if is_char_boundary value end_ then end_ else boundary_before value n
  end.

Definition truncate_utf8 (value : string) (max_bytes : Z) : string :=
  if blen value <=? max_bytes then value
  else String.substring 0 (boundary_before value (Z.to_nat max_bytes)) value.

Definition bounded_error_body (body : list ascii) : string :=
  let source := take (Z.to_nat MAX_STORED_ERROR_BODY) body in
  let decoded := from_utf8_lossy source in
  let truncated := (MAX_STORED_ERROR_BODY <? Z.of_nat (length body)) || (MAX_STORED_ERROR_BODY <? blen decoded) in
  let content_limit :=
    if truncated then MAX_STORED_ERROR_BODY - blen ERROR_BODY_TRUNCATION_MARKER else MAX_STORED_ERROR_BODY in
  let content := truncate_utf8 decoded content_limit in
  if truncated then (content +:+ ERROR_BODY_TRUNCATION_MARKER)%string else content.

Example redaction_examples :
  redact_credentials "bad key sk-12345678, again sk-12345678." ["sk-12345678"; "short"]%string
    = "bad key <redacted>, again <redacted>."%string
  ∧ sanitize_reason (bytes [97; 10; 27; 98; 194; 133; 195; 169]%nat) [] = bytes [97; 32; 98; 195; 169]%nat
  ∧ truncate_utf8 (bytes [97; 195; 169; 98]%nat) 2 = "a"%string
  ∧ String.length (bounded_error_body (replicate (Z.to_nat 9000) "a"%char)) = Z.to_nat 8192.
Proof. vm_compute. auto. Qed.

(** ** Occurrences *)

(** [p] occurs in [s]. *)
Definition occurs (p s : string) : Prop := ∃ a b, s = (a +:+ p +:+ b)%string.

Definition avoids (c : ascii) (s : string) : bool := str_all (λ d, negb (Ascii.eqb d c)) s.

Lemma strip_prefix_Some p s r : strip_prefix p s = Some r ↔ s = (p +:+ r)%string.
Proof.
  revert s. induction p as [|a p IH]; intros s; cbn; [split; [by intros [= <-] | by intros <-] |].
  destruct s as [|b s]; [done |]. destruct (Ascii.eqb_spec a b) as [<-|Hn].
  - rewrite IH. split; [by intros <- | by intros [= <-]].
  - split; [done | by intros [= <- _]].
Qed.

Lemma starts_with_spec p s : starts_with p s = true ↔ ∃ r, s = (p +:+ r)%string.
Proof.
  unfold starts_with. destruct (strip_prefix p s) eqn:E.
  - apply strip_prefix_Some in E as ->. split; [eauto | done].
  - split; [done |]. intros [r Er%strip_prefix_Some]. congruence.
Qed.

Lemma contains_spec p s : contains p s = true ↔ occurs p s.
Proof.
  assert (∀ p s, starts_with p s = true → occurs p s) as Hs.
  { intros q t [r ->]%starts_with_spec. by exists EmptyString, r. }
  split.
  - induction s as [|c s IH]; cbn [contains]; rewrite orb_true_iff; intros [E|E]; try by apply Hs.
    destruct (IH E) as (a & b & ->). by exists (String c a), b.
  - intros (a & b & ->). induction a as [|c a IH].
    + change (EmptyString +:+ p +:+ b)%string with (p +:+ b)%string.
      assert (starts_with p (p +:+ b) = true) as E by (apply starts_with_spec; eauto).
      destruct (p +:+ b)%string; cbn [contains]; by rewrite E.
    + cbn [contains String.append]. by rewrite IH, orb_true_r.
Qed.

Lemma occurs_app_l p a s : occurs p s → occurs p (a +:+ s).
Proof. intros (x & y & ->). exists (a +:+ x)%string, y. by rewrite str_app_assoc. Qed.

Lemma occurs_app_r p a s : occurs p s → occurs p (s +:+ a).
Proof. intros (x & y & ->). exists x, (y +:+ a)%string. by rewrite !str_app_assoc. Qed.

Lemma occurs_nil_inv p : occurs p EmptyString → p = EmptyString.
Proof. intros (x & y & E). destruct x; [by destruct p | done]. Qed.

Lemma avoids_cons c d s : avoids c (String d s) = negb (Ascii.eqb d c) && avoids c s.
Proof. done. Qed.

Lemma split_once_avoids c a b : avoids c a = true → split_once c (a +:+ String c b) = Some (a, b).
Proof.
  induction a as [|d a IH]; cbn [String.append split_once]; [by rewrite Ascii.eqb_refl |].
  rewrite avoids_cons, andb_true_iff. intros [Hd Ha]. apply negb_true_iff in Hd. by rewrite Hd, IH.
Qed.

(** A prefix that avoids a byte stops before it. *)
Lemma prefix_split p c u v r :
  avoids c p = true → (u +:+ String c v)%string = (p +:+ r)%string → ∃ r', u = (p +:+ r')%string.
Proof.
  revert p. induction u as [|d u IH]; intros p Hp E.
  - destruct p as [|e p]; [by exists EmptyString |]. cbn in E. simplify_eq.
    rewrite avoids_cons, Ascii.eqb_refl in Hp. done.
  - destruct p as [|e p]; [by exists (String d u) |]. cbn in E. simplify_eq.
    rewrite avoids_cons in Hp. apply andb_true_iff in Hp as [_ Hp]. destruct (IH p Hp H) as [r' ->]. by exists r'.
Qed.

(** An occurrence that avoids a byte lies on one side of it. *)
Lemma occurs_split p c u v :
  avoids c p = true → occurs p (u +:+ String c v) → occurs p u ∨ occurs p v.
Proof.
  intros Hp (a & b & E). revert a E. induction u as [|d u IH]; intros a E.
  - destruct a as [|e a]; cbn in E.
    + destruct p as [|f p]; [left; by exists EmptyString, EmptyString |]. cbn in E. simplify_eq.
      rewrite avoids_cons, Ascii.eqb_refl in Hp. done.
    + simplify_eq. right. by exists a, b.
  - destruct a as [|e a]; cbn in E.
    + destruct (prefix_split p c (String d u) v b Hp E) as [r ->]. left. by exists EmptyString, r.
    + simplify_eq. destruct (IH a H) as [Ho|Ho]; [left; by apply (occurs_app_l p (String e EmptyString)) | by right].
Qed.

(** ** Scrubbing

    A text out of which pieces were cut and replaced by [barrier]s: marks that
    no occurrence of [p] can overlap. *)

Definition barrier (p m : string) : Prop :=
  ∀ u v, occurs p (u +:+ m +:+ v) → occurs p u ∨ occurs p v.

Lemma barrier_char p c : avoids c p = true → barrier p (String c EmptyString).
Proof. intros Hp u v. by apply occurs_split. Qed.

Lemma barrier_between p c mid d :
  avoids c p = true → avoids d p = true → ¬ occurs p mid →
  barrier p (String c mid +:+ String d EmptyString).
Proof.
  intros Hc Hd Hm u v. rewrite str_app_assoc. cbn [String.append]. intros Ho.
  destruct (occurs_split p c _ _ Hc Ho) as [?|Ho']; [by left |].
  destruct (occurs_split p d _ _ Hd Ho') as [?|?]; [done | by right].
Qed.

Inductive scrubbed (p : string) : string → string → Prop :=
  | scrubbed_nil : scrubbed p EmptyString EmptyString
  | scrubbed_keep c out s : scrubbed p out s → scrubbed p (String c out) (String c s)
  | scrubbed_mark m cut out s : barrier p m → scrubbed p out s → scrubbed p (m +:+ out) (cut +:+ s).

Lemma scrubbed_occurs p out s u :
  scrubbed p out s → occurs p (u +:+ out) → occurs p (u +:+ s).
Proof.
  intros Hs. revert u. induction Hs as [|c out s _ IH|m cut out s Hm _ IH]; intros u Ho; [done | |].
  - specialize (IH (u +:+ String c EmptyString)%string). rewrite !str_app_assoc in IH. by apply IH.
  - destruct (Hm u out Ho) as [?|Ho']; [by apply occurs_app_r |].
    by apply occurs_app_l, occurs_app_l, (IH EmptyString).
Qed.

(** Scrubbing brings nothing in. *)
Lemma scrubbed_adds_nothing p out s : scrubbed p out s → occurs p out → occurs p s.
Proof. intros Hs. by apply (scrubbed_occurs p out s EmptyString). Qed.

Lemma scrubbed_refl p s : scrubbed p s s.
Proof. induction s; by constructor. Qed.

Lemma scrubbed_prepend p w out s : scrubbed p out s → scrubbed p (w +:+ out) (w +:+ s).
Proof. induction w; [done | by constructor; auto]. Qed.

Lemma str_drop_app n s : ∃ w, s = (w +:+ String.substring n (String.length s - n) s)%string.
Proof.
  revert s. induction n as [|n IH]; intros s.
  - exists EmptyString. cbn [String.append]. by rewrite Nat.sub_0_r, str_substring_all.
  - destruct s as [|c s]; [by exists EmptyString |]. destruct (IH s) as [w E]. exists (String c w). cbn. congruence.
Qed.

(** [replace] cuts the matches out; the skipped bytes belong to one. *)
Lemma replace_scrubbed p from to skip s :
  barrier p to → (skip ≤ String.length s)%nat →
  scrubbed p (replace_from from to skip s) (String.substring skip (String.length s - skip) s).
Proof.
  intros Hb. revert skip. induction s as [|c s IH]; intros skip Hk.
  { destruct skip; [constructor | cbn in Hk; lia]. }
  destruct skip as [|k]; cbn [replace_from String.length String.substring] in *.
  2:{ replace (S (String.length s) - S k)%nat with (String.length s - k)%nat by lia. apply IH. lia. }
  rewrite Nat.sub_0_r. cbn [String.substring]. rewrite str_substring_all.
  destruct (starts_with from (String c s)) eqn:E.
  - apply starts_with_spec in E as [r E].
    assert (pred (String.length from) ≤ String.length s)%nat as Hf.
    { apply (f_equal String.length) in E. rewrite str_length_app in E. cbn in E. lia. }
    destruct (str_drop_app (pred (String.length from)) s) as [w Ew].
    rewrite Ew at 2. change (String c (w +:+ ?t)) with (String c w +:+ t)%string.
    constructor; [done | by apply IH].
  - constructor. specialize (IH O ltac:(lia)). by rewrite Nat.sub_0_r, str_substring_all in IH.
Qed.

Lemma str_replace_scrubbed p from to s : barrier p to → scrubbed p (str_replace from to s) s.
Proof.
  intros Hb. pose proof (replace_scrubbed p from to O s Hb ltac:(lia)) as E.
  by rewrite Nat.sub_0_r, str_substring_all in E.
Qed.

(** What starts the output of a replacement starts its input, up to the mark. *)
Lemma replace_prefix p from m to' s :
  avoids m p = true →
  (∃ r, replace_from from (String m to') O s = p +:+ r)%string → (∃ r, s = p +:+ r)%string.
Proof.
  revert p. induction s as [|c s IH]; intros p Hp [r E]; [by exists r |].
  destruct p as [|d p]; [by exists (String c s) |]. cbn [replace_from] in E.
  rewrite avoids_cons in Hp. apply andb_true_iff in Hp as [Hd Hp].
  destruct (starts_with from (String c s)); cbn in E; simplify_eq.
  - by rewrite Ascii.eqb_refl in Hd.
  - destruct (IH p Hp ltac:(eauto)) as [r' ->]. by exists r'.
Qed.

(** Nothing is left of what was replaced. *)
Lemma replace_removes from m to' skip s :
  from ≠ EmptyString → avoids m from = true → barrier from (String m to') →
  ¬ occurs from (replace_from from (String m to') skip s).
Proof.
  intros Hne Hm Hb. revert skip. induction s as [|c s IH]; intros skip.
  { intros Ho%occurs_nil_inv. done. }
  destruct skip as [|k]; cbn [replace_from]; [| apply IH].
  destruct (starts_with from (String c s)) eqn:E.
  - intros Ho. destruct (Hb EmptyString _ Ho) as [?%occurs_nil_inv|Ho']; [done | by apply IH in Ho'].
  - intros (a & b & Eo). destruct a as [|d a].
    + assert (∃ r, String c s = from +:+ r)%string as Hr.
      { apply (replace_prefix from from m to' (String c s) Hm). exists b. cbn [replace_from]. by rewrite E. }
      apply starts_with_spec in Hr. congruence.
    + cbn in Eo. simplify_eq. apply (IH O). eexists a, b. done.
Qed.

(** ** Credentials do not survive *)

(** What generated keys are made of: visible ASCII but for the brackets of the two
    marks, and not a word of the marks. *)
Definition key_char (c : ascii) : bool :=
  in_range 33 126 (byte_value c) && negb (existsb (Ascii.eqb c) ["<"; ">"; "("; ")"]%char).
Definition key_like (p : string) : Prop :=
  MIN_SCRUBBED_SECRET_LEN ≤ blen p ∧ str_all key_char p = true
  ∧ contains p "redacted" = false ∧ contains p "truncated" = false.

#[global] Instance key_like_dec p : Decision (key_like p).
Proof. unfold key_like. apply _. Defined.

Lemma occurs_all f p s : occurs p s → str_all f s = true → str_all f p = true.
Proof. intros (a & b & ->). rewrite !str_all_app, !andb_true_iff. tauto. Qed.

Lemma str_all_impl (f g : ascii → bool) s :
  (∀ c, f c = true → g c = true) → str_all f s = true → str_all g s = true.
Proof. intros Hi. induction s as [|c s IH]; cbn; [done |]. rewrite !andb_true_iff. naive_solver. Qed.

Lemma key_char_avoids c p : key_char c = false → str_all key_char p = true → avoids c p = true.
Proof.
  intros Hc. apply str_all_impl. intros d Hd. destruct (Ascii.eqb_spec d c) as [->|]; [congruence | done].
Qed.

Lemma key_like_not_in p : key_like p → ¬ occurs p "redacted" ∧ ¬ occurs p "truncated".
Proof. intros (_ & _ & H1 & H2). rewrite <- !contains_spec, H1, H2. done. Qed.

Lemma redacted_barrier p :
  avoids "<" p = true → avoids ">" p = true → ¬ occurs p "redacted" → barrier p REDACTED.
Proof. apply (barrier_between p "<" "redacted" ">"). Qed.

Lemma key_like_redacted p : key_like p → barrier p REDACTED.
Proof.
  intros Hk. pose proof Hk as (_ & Hc & _).
  apply redacted_barrier; [by apply key_char_avoids | by apply key_char_avoids | by apply (key_like_not_in p)].
Qed.

Lemma key_like_truncation p : key_like p → barrier p TRUNCATION_MARKER.
Proof.
  intros Hk. pose proof Hk as (Hlen & Hc & _).
  apply (barrier_between p (ascii_of_nat 226) (bytes [128; 166; 32; 40] +:+ "truncated")%nat ")");
    [by apply key_char_avoids | by apply key_char_avoids |].
  intros Ho. change (bytes [128; 166; 32; 40]%nat +:+ "truncated")%string
    with (bytes [128; 166; 32]%nat +:+ String "(" "truncated")%string in Ho.
  apply occurs_split in Ho as [Ho|Ho]; [| by apply (key_like_not_in p) in Ho | by apply key_char_avoids].
  apply (occurs_all (λ c, negb (key_char c))) in Ho; [| done].
  destruct p as [|c p]; [by cbn in Hlen |]. cbn in Ho, Hc. by destruct (key_char c).
Qed.

Lemma redact_adds_nothing p text creds :
  barrier p REDACTED → occurs p (redact_credentials text creds) → occurs p text.
Proof.
  intros Hb. unfold redact_credentials. revert text. induction creds as [|q creds IH]; intros text; [done |].
  cbn [foldl]. intros Ho%IH. destruct (_ && _); [| done].
  by eapply scrubbed_adds_nothing, Ho; apply str_replace_scrubbed.
Qed.

Lemma redact_removes p text creds :
  p ∈ creds → key_like p → ¬ occurs p (redact_credentials text creds).
Proof.
  intros Hp Hk. pose proof (key_like_redacted p Hk) as Hb. pose proof Hk as (Hlen & Hc & _).
  unfold redact_credentials. revert text. induction creds as [|q creds IH]; intros text; [by apply elem_of_nil in Hp |].
  cbn [foldl]. apply elem_of_cons in Hp as [<-|Hp]; [| by apply IH].
  intros Ho%redact_adds_nothing; [| done]. rewrite (proj2 (Z.leb_le _ _)) in Ho by done. cbn [andb] in Ho.
  destruct (contains p text) eqn:E; [| by apply contains_spec in Ho; congruence].
  revert Ho. apply replace_removes; [by intros -> | by apply key_char_avoids | done].
Qed.

(** ** The characters of a sanitized reason *)

Definition whitespace_controls : list string := bytes <$> [[10]; [13]; [9]]%nat.

Lemma concat_chars s : concat_str (chars s) = s.
Proof.
  assert (∀ t, (fst (chars_from t) +:+ concat_str (snd (chars_from t)))%string = t) as E.
  { induction t as [|c t IH]; [done |]. cbn [chars_from]. destruct (chars_from t) as [k l]. cbn in IH.
    destruct (is_continuation c); cbn; by rewrite IH. }
  specialize (E s). unfold chars. destruct (chars_from s) as [k l]. cbn in E. by destruct k.
Qed.

Lemma concat_str_occurs w l : w ∈ l → occurs w (concat_str l).
Proof.
  induction 1 as [x l|x y l _ IH]; cbn; [by exists EmptyString, (concat_str l) | by apply occurs_app_l].
Qed.

(** The control characters that leave no space behind. *)
Definition dropped (ch : string) : bool := is_control ch && negb (bool_decide (ch ∈ whitespace_controls)).

Lemma sanitize_char_cases ch :
  sanitize_char ch = if dropped ch then EmptyString else if is_control ch then " "%string else ch.
Proof.
  unfold sanitize_char, dropped. destruct (is_control ch); [| done]. cbn [andb].
  destruct (String.eqb_spec ch (bytes [10]%nat)) as [->|H1]; [done |].
  destruct (String.eqb_spec ch (bytes [13]%nat)) as [->|H2]; [done |].
  destruct (String.eqb_spec ch (bytes [9]%nat)) as [->|H3]; [done |]. cbn [orb].
  rewrite bool_decide_eq_false_2; [done |]. unfold whitespace_controls. cbn [fmap list_fmap].
  rewrite !elem_of_cons, elem_of_nil. tauto.
Qed.

(** A text without the characters that vanish. *)
Definition visible (l : list string) : string := concat_str (filter (λ ch, dropped ch = false) l).

Lemma sanitize_scrubbed p room l : key_like p → scrubbed p (sanitize_chars room l) (visible l).
Proof.
  intros Hk. pose proof Hk as (_ & Hc & _). unfold visible. revert room. induction l as [|ch l IH]; intros room.
  { destruct room; constructor. }
  destruct room as [|room]; cbn [sanitize_chars].
  - rewrite <- (str_app_nil_r TRUNCATION_MARKER), <- (str_app_nil_r (concat_str _)).
    constructor; [by apply key_like_truncation | constructor].
  - rewrite sanitize_char_cases, filter_cons. destruct (dropped ch); cbn [concat_str]; [apply IH |].
    destruct (is_control ch); cbn [decide]; [| by apply scrubbed_prepend].
    constructor; [| apply IH]. apply barrier_char. by apply key_char_avoids.
Qed.

(** A control character that leaves a space is no part of a credential. *)
Lemma kept_control ch : is_control ch = true → dropped ch = false → ∃ c, ch = String c EmptyString ∧ key_char c = false.
Proof.
  unfold dropped. intros -> H. apply negb_false_iff, bool_decide_eq_true in H. revert H. unfold whitespace_controls.
  cbn [fmap list_fmap]. rewrite !elem_of_cons, elem_of_nil. intros [->|[->|[->|[]]]]; by eexists.
Qed.

Lemma visible_survives p l room u :
  key_like p → (length l ≤ room)%nat → occurs p (u +:+ visible l) → occurs p (u +:+ sanitize_chars room l).
Proof.
  intros (_ & Hc & _). unfold visible. revert room u. induction l as [|ch l IH]; intros room u Hn; [by destruct room |].
  destruct room as [|room]; cbn in Hn; [lia |]. cbn [sanitize_chars]. rewrite sanitize_char_cases, filter_cons.
  destruct (dropped ch) eqn:Ed; cbn [decide]; [by apply IH; lia |]. cbn [concat_str].
  destruct (is_control ch) eqn:Ei.
  - destruct (kept_control ch Ei Ed) as (c & -> & Hk). cbn [String.append]. intros Ho.
    apply occurs_split in Ho as [Ho|Ho]; [by apply occurs_app_r | | by apply key_char_avoids].
    apply occurs_app_l, (occurs_app_l p (String " " EmptyString)), (IH room EmptyString); [lia | done].
  - intros Ho. specialize (IH room (u +:+ ch)%string ltac:(lia)). rewrite !str_app_assoc in IH. by apply IH.
Qed.

(** A dropped character is too strange to be part of a mark. *)
Lemma dropped_barrier ch : dropped ch = true → barrier ch REDACTED.
Proof.
  intros [Hc _]%andb_true_iff.
  assert (str_all (λ c, negb (key_char c)) ch = true ∧ avoids "<" ch = true ∧ avoids ">" ch = true ∧ ch ≠ EmptyString)
    as (Hn & H1 & H2 & Hne).
  { destruct ch as [|c [|d [|e ch]]]; cbn in Hc; [done | | | done].
    - assert (¬ 32 ≤ byte_value c < 127) as Hr by (apply orb_true_iff in Hc as [?%Z.ltb_lt|?%Z.eqb_eq]; lia).
      cbn. unfold key_char, in_range. split_and!; [| | | done].
      + destruct (Z.leb_spec 33 (byte_value c)), (Z.leb_spec (byte_value c) 126); cbn; try done; lia.
      + destruct (Ascii.eqb_spec c "<") as [->|]; [by destruct Hr | done].
      + destruct (Ascii.eqb_spec c ">") as [->|]; [by destruct Hr | done].
    - apply andb_true_iff in Hc as [E%Z.eqb_eq [?%Z.leb_le ?%Z.leb_le]%andb_true_iff].
      cbn. unfold key_char, in_range. split_and!; [| | | done].
      + destruct (Z.leb_spec (byte_value c) 126), (Z.leb_spec (byte_value d) 126); try lia.
      + destruct (Ascii.eqb_spec c "<") as [->|], (Ascii.eqb_spec d "<") as [->|]; done.
      + destruct (Ascii.eqb_spec c ">") as [->|], (Ascii.eqb_spec d ">") as [->|]; done. }
  apply redacted_barrier; [done | done |]. intros Ho.
  assert (str_all key_char ch = true) as Hk by (by apply (occurs_all key_char ch "redacted")).
  destruct ch as [|c ch]; [done |]. cbn in Hn, Hk. by destruct (key_char c).
Qed.

(** A character: one byte that starts it and continuation bytes. *)
Definition char_ok (ch : string) : Prop :=
  ∃ c k, ch = String c k ∧ is_continuation c = false ∧ str_all is_continuation k = true.

Lemma chars_from_continue k t :
  str_all is_continuation k = true →
  chars_from (k +:+ t) = ((k +:+ fst (chars_from t))%string, snd (chars_from t)).
Proof.
  induction k as [|c k IH]; cbn; [by destruct (chars_from t) |].
  intros [Hc Hk]%andb_true_iff. rewrite IH by done. by rewrite Hc.
Qed.

Lemma chars_from_char ch t l :
  char_ok ch → chars_from t = (EmptyString, l) → chars_from (ch +:+ t) = (EmptyString, ch :: l).
Proof.
  intros (c & k & -> & Hc & Hk) Ht. cbn [String.append chars_from].
  rewrite chars_from_continue, Ht by done. cbn. by rewrite Hc, str_app_nil_r.
Qed.

Lemma chars_from_ok s : str_all is_continuation (fst (chars_from s)) = true ∧ Forall char_ok (snd (chars_from s)).
Proof.
  induction s as [|c s [IHk IHl]]; cbn [chars_from]; [by repeat constructor |].
  destruct (chars_from s) as [k l]. cbn in *. destruct (is_continuation c) eqn:E; cbn.
  - by rewrite E.
  - split; [done |]. constructor; [| done]. by exists c, k.
Qed.

(** The characters a sanitized reason is made of. *)
Fixpoint kept_chars (room : nat) (l : list string) : list string :=
  match l, room with
  | [], _ => []
  | _ :: _, O => chars TRUNCATION_MARKER
  | ch :: l', S room' =>
      (if dropped ch then [] else if is_control ch then [" "%string] else [ch]) ++ kept_chars room' l'
  end.

Lemma chars_from_sanitized room l :
  Forall char_ok l → chars_from (sanitize_chars room l) = (EmptyString, kept_chars room l).
Proof.
  intros Hl. revert room. induction Hl as [|ch l Hch _ IH]; intros room; [by destruct room |].
  destruct room as [|room]; [done |]. cbn [sanitize_chars kept_chars]. rewrite sanitize_char_cases.
  destruct (dropped ch); [by apply IH |]. destruct (is_control ch); cbn [app].
  - apply chars_from_char; [| by apply IH]. by exists " "%char, EmptyString.
  - apply chars_from_char; [done | by apply IH].
Qed.

Lemma continuation_not_control k : str_all is_continuation k = true → is_control k = false.
Proof.
  destruct k as [|c [|d [|e k]]]; cbn; [done | | | done]; unfold is_continuation, in_range;
    rewrite ?andb_true_iff, ?Z.leb_le; intros H; zcases; try done; lia.
Qed.

Lemma chars_sanitized room s : chars (sanitize_chars room (chars s)) = kept_chars room (chars s).
Proof.
  destruct (chars_from_ok s) as [Hk Hl]. unfold chars at 2 3. destruct (chars_from s) as [k l]. cbn in *.
  destruct k as [|c k]; cbn [str_is_empty]; [unfold chars; by rewrite chars_from_sanitized |].
  destruct room as [|room]; [done |]. cbn [sanitize_chars kept_chars].
  assert (is_control (String c k) = false) as Hc by (by apply continuation_not_control).
  rewrite sanitize_char_cases. unfold dropped. rewrite Hc. cbn [andb app].
  unfold chars. rewrite chars_from_continue by done. by rewrite chars_from_sanitized, str_app_nil_r by done.
Qed.

Lemma marker_chars_plain : forallb (λ ch, negb (is_control ch)) (chars TRUNCATION_MARKER) = true.
Proof. by vm_compute. Qed.

Lemma Forallb_false {A} (f : A → bool) l : forallb (λ x, negb (f x)) l = true → Forall (λ x, f x = false) l.
Proof. induction l as [|x l IH]; cbn; [constructor |]. rewrite andb_true_iff, negb_true_iff. intros []. auto. Qed.

Lemma kept_chars_safe room l :
  Forall (λ ch, is_control ch = false) (kept_chars room l) ∧ (length (kept_chars room l) ≤ room + 13)%nat.
Proof.
  revert room. induction l as [|ch l IH]; intros room; [destruct room; cbn; split; [constructor | lia | constructor | lia] |].
  destruct room as [|room].
  { split; [| done]. by apply Forallb_false, marker_chars_plain. }
  cbn [kept_chars]. destruct (IH room) as [Hf Hn]. rewrite Forall_app, length_app.
  destruct (dropped ch); [cbn; split; [by split | lia] |].
  destruct (is_control ch) eqn:E; cbn; (split; [split; [by repeat constructor | done] | lia]).
Qed.

Lemma dropped_occurs reason creds ch :
  dropped ch = true → ch ∈ chars (redact_credentials reason creds) → occurs ch reason.
Proof.
  intros E Hch%concat_str_occurs. rewrite concat_chars in Hch.
  by eapply redact_adds_nothing, Hch; apply dropped_barrier.
Qed.

Lemma visible_all l : (∀ ch, ch ∈ l → dropped ch = false) → visible l = concat_str l.
Proof.
  intros Hl. unfold visible. f_equal. induction l as [|ch l IH]; [done |].
  rewrite filter_cons, decide_True by (apply Hl; by left). f_equal. apply IH. intros ch' Hch. apply Hl. by right.
Qed.

(** What of a credential can come out: only one that characters which vanish
    stood inside of. *)
Lemma sanitize_exposes p reason creds :
  p ∈ creds → key_like p → occurs p (sanitize_reason reason creds) →
  occurs p (visible (chars (redact_credentials reason creds))) ∧ ∃ ch, dropped ch = true ∧ occurs ch reason.
Proof.
  intros Hp Hk Ho. set (l := chars (redact_credentials reason creds)).
  assert (occurs p (visible l)) as Hv by (by eapply scrubbed_adds_nothing, Ho; apply sanitize_scrubbed).
  split; [done |]. destruct (decide (Exists (λ ch, dropped ch = true) l)) as [Hd|Hd].
  - apply Exists_exists in Hd as (ch & Hch & E). exists ch. split; [done |]. by apply (dropped_occurs reason creds ch E), list_elem_of_In.
  - exfalso. apply (redact_removes p reason creds Hp Hk). rewrite <- concat_chars. fold l.
    rewrite <- (visible_all l); [exact Hv |]. intros ch Hch. destruct (dropped ch) eqn:E; [| done].
    destruct Hd. apply Exists_exists. exists ch. by rewrite <- list_elem_of_In.
Qed.

(** C10. Whatever the reason and the credentials, a recorded reason has no control
    character and at most 512 characters and the mark that more followed. For a
    credential of at least eight visible ASCII characters without angle or round
    brackets, and not a word of the marks, this is what becomes of it: it is in
    no place left in the text before control characters are taken out; it can
    come out of the sanitizer only where control characters that vanish stood
    inside of it in the upstream's text, so never when there was none; and from a
    text of at most 512 characters it does come out exactly then, because the
    scrub runs first. Other credentials are outside the claim. *)
Theorem sanitized_reason_is_safe (reason : string) (creds : list string) :
  Forall (λ ch, is_control ch = false) (chars (sanitize_reason reason creds))
  ∧ (length (chars (sanitize_reason reason creds)) ≤ 512 + 13)%nat
  ∧ ∀ p, p ∈ creds → key_like p →
      let searched := redact_credentials reason creds in
      ¬ occurs p searched
      ∧ (occurs p (sanitize_reason reason creds) →
           occurs p (visible (chars searched)) ∧ ∃ ch, dropped ch = true ∧ occurs ch reason)
      ∧ ((length (chars searched) ≤ 512)%nat →
           occurs p (visible (chars searched)) → occurs p (sanitize_reason reason creds)).
Proof.
  unfold sanitize_reason at 1 2. rewrite chars_sanitized.
  destruct (kept_chars_safe MAX_REASON_CHARS (chars (redact_credentials reason creds))) as [Hf Hn].
  split; [done |]. split; [done |]. intros p Hp Hk.
  split; [by apply redact_removes |]. split; [by apply sanitize_exposes |].
  intros Hl Ho. by apply (visible_survives p (chars _) MAX_REASON_CHARS EmptyString).
Qed.

Definition echoed_1 : string := "Incorrect API key provided: sk-12345678".
(** The same key with an escape character inside. *)
Definition echoed_2 : string := bytes [115; 107; 45; 49; 50; 27; 51; 52; 53; 54; 55; 56]%nat.

Lemma sanitized_reason_is_safe_witness :
  key_like "sk-12345678" ∧ contains "sk-12345678" echoed_1 = true
  ∧ ¬ occurs "sk-12345678" (sanitize_reason echoed_1 ["sk-12345678"%string])
  ∧ occurs "sk-12345678" (sanitize_reason echoed_2 ["sk-12345678"%string]).
Proof.
  assert (key_like "sk-12345678") as Hk by (by apply (bool_decide_unpack _); vm_compute).
  split; [exact Hk |]. split; [done |]. split.
  - destruct (sanitized_reason_is_safe echoed_1 ["sk-12345678"%string]) as (_ & _ & Hs).
    destruct (Hs "sk-12345678"%string ltac:(by left) Hk) as (_ & Hout & _).
    intros Ho. apply Hout in Ho as [Ho _]. apply contains_spec in Ho. revert Ho. by vm_compute.
  - destruct (sanitized_reason_is_safe echoed_2 ["sk-12345678"%string]) as (_ & _ & Hs).
    destruct (Hs "sk-12345678"%string ltac:(by left) Hk) as (_ & _ & Hin).
    apply Hin; [apply (bool_decide_unpack _); by vm_compute | apply contains_spec; by vm_compute].
Defined.

(** A vanishing control character inside an echoed credential: the scrub does
    not find it, and the sanitizer puts the credential together again. *)
Theorem control_character_defeats_scrub :
  occurs "sk-12345678" (sanitize_reason echoed_2 ["sk-12345678"%string]).
Proof. exists EmptyString, EmptyString. by vm_compute. Qed.

(** ** The stored error body *)

Lemma substring_length n s : (String.length (String.substring 0 n s) ≤ n)%nat.
Proof. revert s. induction n as [|n IH]; intros [|c s]; cbn; try lia. specialize (IH s). lia. Qed.

Lemma get_length s : String.get (String.length s) s = None.
Proof. by induction s. Qed.

Lemma boundary_before_spec value n :
  let m := boundary_before value n in
  (m ≤ n)%nat ∧ is_char_boundary value m = true
  ∧ ∀ k, (m < k ≤ n)%nat → is_char_boundary value k = false.
Proof.
  induction n as [|n (Hle & Hb & Hmax)]; cbn [boundary_before].
  { split_and!; [lia | unfold is_char_boundary; apply orb_true_r | lia]. }
  destruct (is_char_boundary value (S n)) eqn:E; split_and!; try done; try lia.
  intros k Hk. destruct (decide (k = S n)) as [->|]; [done | apply Hmax; lia].
Qed.

(** The longest prefix of whole characters that fits. *)
Lemma truncate_utf8_spec value max_bytes :
  0 ≤ max_bytes →
  ∃ n, truncate_utf8 value max_bytes = String.substring 0 n value
    ∧ Z.of_nat n ≤ max_bytes ∧ is_char_boundary value n = true
    ∧ ∀ m, (n < m ≤ String.length value)%nat → Z.of_nat m ≤ max_bytes → is_char_boundary value m = false.
Proof.
  intros Hmax. unfold truncate_utf8, blen. destruct (Z.leb_spec (Z.of_nat (String.length value)) max_bytes).
  - exists (String.length value). rewrite str_substring_all. split_and!; [done | done | | lia].
    unfold is_char_boundary. by rewrite get_length, Nat.eqb_refl.
  - destruct (boundary_before_spec value (Z.to_nat max_bytes)) as (Hle & Hb & Hm).
    eexists. split_and!; [done | lia | done |]. intros m ? ?. apply Hm. lia.
Qed.

Lemma substring_blen n s m : Z.of_nat n ≤ m → blen (String.substring 0 n s) ≤ m.
Proof. intros. pose proof (substring_length n s). unfold blen. lia. Qed.

(** What is stored of an upstream's error body is at most 8192 bytes: the
    decoded body itself when it fits, and otherwise the longest prefix of whole
    characters that leaves room for the mark, and the mark. *)
Theorem stored_error_body_exact (body : list ascii) :
  blen (bounded_error_body body) ≤ MAX_STORED_ERROR_BODY
  ∧ if (Z.of_nat (length body) <=? MAX_STORED_ERROR_BODY) && (blen (from_utf8_lossy body) <=? MAX_STORED_ERROR_BODY)
    then bounded_error_body body = from_utf8_lossy body
    else
      let decoded := from_utf8_lossy (take (Z.to_nat MAX_STORED_ERROR_BODY) body) in
      let limit := MAX_STORED_ERROR_BODY - blen ERROR_BODY_TRUNCATION_MARKER in
      ∃ n, bounded_error_body body = (String.substring 0 n decoded +:+ ERROR_BODY_TRUNCATION_MARKER)%string
        ∧ Z.of_nat n ≤ limit ∧ is_char_boundary decoded n = true
        ∧ ∀ m, (n < m ≤ String.length decoded)%nat → Z.of_nat m ≤ limit → is_char_boundary decoded m = false.
Proof.
  set (decoded := from_utf8_lossy (take (Z.to_nat MAX_STORED_ERROR_BODY) body)).
  assert ((Z.of_nat (length body) <=? MAX_STORED_ERROR_BODY) && (blen (from_utf8_lossy body) <=? MAX_STORED_ERROR_BODY)
    = negb ((MAX_STORED_ERROR_BODY <? Z.of_nat (length body)) || (MAX_STORED_ERROR_BODY <? blen decoded))) as ->.
  { rewrite negb_orb, !Z.leb_antisym. unfold decoded.
    destruct (Z.ltb_spec MAX_STORED_ERROR_BODY (Z.of_nat (length body))); [done |]. by rewrite take_ge by lia. }
  unfold bounded_error_body. fold decoded.
  destruct ((MAX_STORED_ERROR_BODY <? Z.of_nat (length body)) || (MAX_STORED_ERROR_BODY <? blen decoded)) eqn:E; cbn [negb].
  - destruct (truncate_utf8_spec decoded (MAX_STORED_ERROR_BODY - blen ERROR_BODY_TRUNCATION_MARKER) ltac:(done))
      as (n & -> & Hn & Hb & Hm).
    split; [| by exists n]. pose proof (substring_length n decoded). unfold blen in *. rewrite str_length_app. lia.
  - apply orb_false_iff in E as [E1%Z.ltb_ge E2%Z.ltb_ge].
    unfold truncate_utf8. rewrite (proj2 (Z.leb_le _ _)) by done. split; [done |].
    unfold decoded. by rewrite take_ge by lia.
Qed.

Lemma from_utf8_lossy_ascii l :
  Forall (λ c, byte_value c < 128) l → from_utf8_lossy l = String.string_of_list_ascii l.
Proof.
  unfold from_utf8_lossy. induction 1 as [|c l Hc _ IH]; [done |]. cbn [lossy].
  rewrite (proj2 (Z.ltb_lt _ _)) by done. cbn. by rewrite IH.
Qed.

(** The stored body is not scrubbed: an ASCII error body that fits is kept as it
    is, with any credential it echoes. *)
Theorem error_body_keeps_credential (body : list ascii) :
  Forall (λ c, byte_value c < 128) body → Z.of_nat (length body) ≤ MAX_STORED_ERROR_BODY →
  bounded_error_body body = String.string_of_list_ascii body.
Proof.
  intros Ha Hn. unfold bounded_error_body. rewrite take_ge by lia. rewrite from_utf8_lossy_ascii by done.
  assert (blen (String.string_of_list_ascii body) = Z.of_nat (length body)) as Hb.
  { unfold blen. clear. f_equal. induction body as [|c l IH]; cbn; congruence. }
  rewrite Hb. rewrite (proj2 (Z.ltb_ge _ _)) by done. cbn [orb]. unfold truncate_utf8. rewrite Hb.
  by rewrite (proj2 (Z.leb_le _ _)).
Qed.

Lemma error_body_keeps_credential_witness :
  (let body := String.list_ascii_of_string "Incorrect API key provided: sk-12345678" in
   bounded_error_body body = String.string_of_list_ascii body)
  ∧ contains "sk-12345678" "Incorrect API key provided: sk-12345678" = true.
Proof.
  split; [| by vm_compute]. apply error_body_keeps_credential; [| by vm_compute].
  cbn. repeat constructor.
Defined.
