(* ===== verification/Http.v ===== *)
(** * The upstream request and its headers ([src/src/proxy/client.rs])

    [http]'s header map is a third-party type: the operations the client uses
    are the fields of the class [Http], their documented behaviour the class
    [HttpLaws]. [AssocHeaders] is a concrete instance. *)

From stdpp Require Import base strings list numbers.
From Stdlib Require Import Ascii ZArith Lia.
From S2P Require Import Prelude Utf8.

Local Open Scope Z_scope.

Class Http : Type := {
  HeaderMap : Type;
  Uri : Type;
  (** [HeaderMap::new], [get_all], [remove], [append] and [iter]; a name is its
      lower-case text. *)
  header_new : HeaderMap;
  get_all : HeaderMap → string → list string;
  header_remove : HeaderMap → string → HeaderMap;
  header_append : HeaderMap → string → string → HeaderMap;
  header_iter : HeaderMap → list (string * string);
  (** [HeaderValue::to_str]. *)
  to_str : string → option string;
  (** [Uri::try_from], with the error's text. *)
  uri_try_from : string → result Uri string;
  (** Whether a builder's [body] accepts what it was given, and the error's text. *)
  builds : HeaderMap → result unit string;
  (** [StatusCode::is_success] and [Display for StatusCode]. *)
  is_success : Z → bool;
  status_display : Z → string }.

Class HttpLaws `{Http} : Prop := {
  get_all_new n : get_all header_new n = [];
  get_all_remove h n m : get_all (header_remove h n) m = if String.eqb m n then [] else get_all h m;
  get_all_append h n v m :
    get_all (header_append h n v) m = get_all h m ++ if String.eqb m (lowercase n) then [v] else [];
  header_iter_all h n : snd <$> filter (λ p, p.1 = n) (header_iter h) = get_all h n;
  header_iter_lower h n v : (n, v) ∈ header_iter h → lowercase n = n }.

Section Headers.
Context `{Http}.

(** [HeaderMap::get]: the first value of a name, and [contains_key]. *)
Definition header_get (h : HeaderMap) (n : string) : option string := head (get_all h n).
Definition contains_key (h : HeaderMap) (n : string) : bool :=
  match get_all h n with [] => false | _ => true end.

Definition HOP_BY_HOP : list string :=
  ["connection"; "keep-alive"; "proxy-authenticate"; "proxy-authorization"; "te"; "trailer";
   "transfer-encoding"; "upgrade"]%string.

Definition is_hop_by_hop (name : string) : bool := bool_decide (lowercase name ∈ HOP_BY_HOP).

(** The tokens of the [Connection] header. *)
Definition named_headers (headers : HeaderMap) : list string :=
  match header_get headers "connection" ≫= to_str with
  | Some value => filter (λ t, negb (str_is_empty t) = true) ((λ t, lowercase (trim t)) <$> split_char "," value)
  | None => []
  end.

Definition strip_hop_by_hop (headers : HeaderMap) : HeaderMap :=
  let named := named_headers headers in
  header_remove (foldl header_remove (foldl header_remove headers HOP_BY_HOP) named) "host".
End Headers.

Module UpstreamConfig.
Record t : Type := mk {
  base_url : string;
  api_key : string;
  timeout_secs : Z;
  connect_timeout_secs : Z }.

Definition normalized_base_url (self : t) : string := trim_end_matches "/" (base_url self).
End UpstreamConfig.

(** The connection pool of the client is I/O; what is left is the fallback. *)
Module ProxyClient.
Section Client.
Context `{Http}.

Record t : Type := mk {
  default_base_url : string;
  default_api_key : string }.

Definition new (config : UpstreamConfig.t) : t :=
  mk (UpstreamConfig.normalized_base_url config) (UpstreamConfig.api_key config).

Definition upstream_uri (base_url path : string) : result Uri string :=
  let base := trim_end_matches "/" base_url in
  uri_try_from (base +:+ path)%string.

(** The request [self.client] is handed. *)
Record Request : Type := mkRequest {
  method : string;
  uri : Uri;
  headers : HeaderMap;
  body : list ascii }.

Definition copy_headers (builder : HeaderMap) (l : list (string * string)) : HeaderMap :=
  foldl (λ b p, header_append b p.1 p.2) builder l.

(** [proxy], up to the call of the HTTP client. *)
Definition request_for (self : t) (upstream : option UpstreamConfig.t) (method path : string)
    (body : list ascii) (headers : HeaderMap) : result Request string :=
  let '(base_url, api_key) :=
    match upstream with
    | Some cfg => (UpstreamConfig.normalized_base_url cfg, UpstreamConfig.api_key cfg)
    | None => (default_base_url self, default_api_key self)
    end in
  let? uri := upstream_uri base_url path in
  let headers := strip_hop_by_hop headers in
  let headers := header_remove headers "content-length" in
  let headers := header_remove headers "authorization" in
  let headers := header_remove headers "accept-encoding" in
  let builder := copy_headers header_new (header_iter headers) in
  let builder := header_append builder "authorization" ("Bearer " +:+ api_key)%string in
  let builder :=
    if negb (contains_key headers "content-type") then header_append builder "content-type" "application/json" else builder in
  let builder :=
    if negb (contains_key headers "accept") then header_append builder "accept" "application/json" else builder in
  let? _ := builds builder in
  Ok (mkRequest method uri builder body).

Definition forward_response_headers (builder headers : HeaderMap) : HeaderMap :=
  foldl (λ b p,
      let '(name, value) := p in
      if is_hop_by_hop name then b
      else if String.eqb name "content-length" then b
      else if String.eqb name "set-cookie" then b
      else header_append b name value)
    builder (header_iter headers).
End Client.
End ProxyClient.

(** ** A concrete header map *)

Definition printable (v : string) : bool := str_all (λ c, in_range 32 126 (byte_value c) || (byte_value c =? 9)) v.

#[global] Instance AssocHeaders : Http := {|
  HeaderMap := list (string * string);
  Uri := string;
  header_new := [];
  get_all h n := snd <$> filter (λ p, lowercase p.1 = n) h;
  header_remove h n := filter (λ p, lowercase p.1 ≠ n) h;
  header_append h n v := h ++ [(n, v)];
  header_iter h := (λ p, (lowercase p.1, p.2)) <$> h;
  to_str v := if printable v then Some v else None;
  uri_try_from s := if printable s then Ok s else Err "invalid uri character"%string;
  builds h := if forallb (λ p, printable p.2) h then Ok () else Err "failed to parse header value"%string;
  is_success s := in_range 200 299 s;
  status_display s := dec_string s |}.

#[global] Instance AssocHeadersLaws : HttpLaws.
Proof.
  split; cbn.
  - done.
  - intros h n m. rewrite list_filter_filter. destruct (String.eqb_spec m n) as [->|Hn].
    + clear. induction h as [|p h IH]; [done |]. rewrite filter_cons, decide_False by tauto. exact IH.
    + f_equal. apply list_filter_iff. intros p. split; [tauto | intros <-; split; congruence].
  - intros h n v m. rewrite list.filter_app, fmap_app. f_equal. rewrite filter_cons. cbn [fst].
    destruct (String.eqb_spec m (lowercase n)) as [->|]; [by rewrite decide_True | by rewrite decide_False].
  - intros h n. induction h as [|[k v] h IH]; [done |]. rewrite fmap_cons, !filter_cons. cbn [fst].
    destruct (decide (lowercase k = n)); cbn; by rewrite IH.
  - intros h n v. rewrite list_elem_of_fmap. intros ([k w] & [= -> ->] & _). apply lowercase_idem.
Qed.

Example http_examples :
  named_headers [("Connection", " Keep-Alive, X-Custom ,")]%string = ["keep-alive"; "x-custom"]%string
  ∧ (ProxyClient.forward_response_headers [] [("Content-Type", "text/plain"); ("TE", "x"); ("Set-Cookie", "s")]%string)
    = [("content-type", "text/plain")]%string.
Proof. by vm_compute. Qed.

(** ** What crosses the hop *)
Section Forwarding.
Context `{HttpLaws}.
Import ProxyClient.

Lemma get_all_removes h l m :
  get_all (foldl header_remove h l) m = if bool_decide (m ∈ l) then [] else get_all h m.
Proof.
  revert h. induction l as [|n l IH]; intros h; [by rewrite bool_decide_eq_false_2 by apply not_elem_of_nil |].
  cbn [foldl]. rewrite IH, get_all_remove. destruct (String.eqb_spec m n) as [->|Hn].
  - rewrite (bool_decide_eq_true_2 (n ∈ n :: l)) by (by left). by destruct (bool_decide _).
  - rewrite (bool_decide_ext (m ∈ n :: l) (m ∈ l)) by (rewrite elem_of_cons; tauto). done.
Qed.

(** A name that is not in lower case is no name of the map. *)
Lemma get_all_upper h m : lowercase m ≠ m → get_all h m = [].
Proof.
  intros Hm. rewrite <- header_iter_all. destruct (filter _ _) as [|[n v] l] eqn:E; [done |].
  assert ((n, v) ∈ filter (λ p, p.1 = m) (header_iter h)) as Hin by (rewrite E; left).
  apply list_elem_of_filter in Hin as [Hn Hin]. cbn in Hn. subst n. by apply header_iter_lower in Hin.
Qed.

Lemma get_all_copy b l m :
  (∀ n v, (n, v) ∈ l → lowercase n = n) →
  get_all (copy_headers b l) m = get_all b m ++ (snd <$> filter (λ p, p.1 = m) l).
Proof.
  revert b. induction l as [|[n v] l IH]; intros b Hl; [by rewrite app_nil_r |].
  cbn [copy_headers foldl]. change (foldl _ ?x l) with (copy_headers x l).
  rewrite IH by (intros ? ? ?; eapply Hl; by right).
  rewrite get_all_append. cbn [fst snd]. rewrite (Hl n v) by (by left). rewrite filter_cons. cbn [fst].
  destruct (String.eqb_spec m n) as [->|]; [rewrite decide_True by done | rewrite decide_False by congruence];
    by rewrite <- app_assoc.
Qed.

(** Copying a map's entries onto an empty builder copies the map. *)
Lemma copy_all h m : get_all (copy_headers header_new (header_iter h)) m = get_all h m.
Proof.
  rewrite get_all_copy by (intros n v; apply header_iter_lower). by rewrite get_all_new, header_iter_all.
Qed.

(** The fields that belong to one connection (RFC 9110, 7.6.1), and those the
    endpoint sets for itself. *)
Inductive hop_field : string → Prop :=
  | hop_connection : hop_field "connection"
  | hop_keep_alive : hop_field "keep-alive"
  | hop_proxy_authenticate : hop_field "proxy-authenticate"
  | hop_proxy_authorization : hop_field "proxy-authorization"
  | hop_te : hop_field "te"
  | hop_trailer : hop_field "trailer"
  | hop_transfer_encoding : hop_field "transfer-encoding"
  | hop_upgrade : hop_field "upgrade".

Inductive endpoint_field : string → Prop :=
  | own_host : endpoint_field "host"
  | own_content_length : endpoint_field "content-length"
  | own_authorization : endpoint_field "authorization"
  | own_accept_encoding : endpoint_field "accept-encoding".

(** A name the first [Connection] header of a message lists, in any case and with
    spaces around it. *)
Definition first_connection_names (headers : HeaderMap) (name : string) : Prop :=
  ∃ value rest text token, get_all headers "connection" = value :: rest ∧ to_str value = Some text
    ∧ token ∈ split_char "," text ∧ trim token ≠ ""%string ∧ name = lowercase (trim token).

(** The headers of a client's request that stay behind. *)
Definition stays_behind (headers : HeaderMap) (name : string) : Prop :=
  hop_field name ∨ first_connection_names headers name ∨ endpoint_field name.

Lemma hop_field_spec name : name ∈ HOP_BY_HOP ↔ hop_field name.
Proof.
  unfold HOP_BY_HOP. rewrite !elem_of_cons, elem_of_nil. split.
  - intros [->|[->|[->|[->|[->|[->|[->|[->|[]]]]]]]]]; constructor.
  - destruct 1; tauto.
Qed.

Lemma lowercase_empty s : str_is_empty (lowercase s) = str_is_empty s.
Proof. by destruct s. Qed.

Lemma named_headers_spec headers name : name ∈ named_headers headers ↔ first_connection_names headers name.
Proof.
  unfold named_headers, first_connection_names, header_get.
  destruct (get_all headers "connection") as [|v rest]; cbn [head mbind option_bind].
  { rewrite elem_of_nil. split; [done | by intros (? & ? & ? & ? & [=] & _)]. }
  destruct (to_str v) as [text|] eqn:Et; cbn.
  2:{ rewrite elem_of_nil. split; [done | intros (? & ? & ? & ? & [= <- <-] & E & _); congruence]. }
  rewrite list_elem_of_filter, list_elem_of_fmap. split.
  - intros [Hne (t & -> & Ht)]. exists v, rest, text, t. split_and!; try done. intros E. by rewrite E in Hne.
  - intros (v' & rest' & text' & t & [= <- <-] & E & Ht & Hne & ->). assert (text' = text) as -> by congruence.
    split; [| by exists t]. rewrite lowercase_empty. by destruct (trim t).
Qed.

(** The code's own test of a name that is taken out. *)
Definition held_back (headers : HeaderMap) (name : string) : bool :=
  bool_decide (name ∈ HOP_BY_HOP) || bool_decide (name ∈ named_headers headers)
  || (String.eqb name "host" || String.eqb name "content-length" || String.eqb name "authorization"
      || String.eqb name "accept-encoding").

Lemma held_back_spec headers name : held_back headers name = true ↔ stays_behind headers name.
Proof.
  unfold held_back, stays_behind. rewrite !orb_true_iff, !bool_decide_eq_true, !String.eqb_eq, hop_field_spec, named_headers_spec.
  assert (endpoint_field name ↔ name = "host" ∨ name = "content-length" ∨ name = "authorization" ∨ name = "accept-encoding")%string
    as ->; [| tauto].
  split; [by destruct 1; auto |]. intros [Hp | [Hp | [Hp | Hp]]]; subst name; constructor.
Qed.

Lemma get_all_stripped headers m :
  get_all (header_remove (header_remove (header_remove (strip_hop_by_hop headers) "content-length")
             "authorization") "accept-encoding") m
  = if held_back headers m then [] else get_all headers m.
Proof.
  unfold strip_hop_by_hop, held_back. rewrite !get_all_remove, !get_all_removes.
  destruct (String.eqb m "accept-encoding"), (String.eqb m "authorization"), (String.eqb m "content-length"),
    (String.eqb m "host"), (bool_decide (m ∈ HOP_BY_HOP)), (bool_decide (m ∈ named_headers headers)); done.
Qed.

(** What the upstream is sent under each name. *)
Definition sent (headers : HeaderMap) (api_key name : string) : list string :=
  let own := if held_back headers name then [] else get_all headers name in
  if String.eqb name "authorization" then [("Bearer " +:+ api_key)%string]
  else if String.eqb name "content-type" || String.eqb name "accept" then
    match own with [] => ["application/json"%string] | _ => own end
  else own.

Lemma request_for_headers self cfg method path body headers req m :
  request_for self (Some cfg) method path body headers = Ok req →
  get_all (ProxyClient.headers req) m = sent headers (UpstreamConfig.api_key cfg) m.
Proof.
  unfold request_for. destruct (upstream_uri _ _) as [u|]; [| done].
  set (stripped := header_remove _ "accept-encoding").
  assert (∀ n, get_all stripped n = if held_back headers n then [] else get_all headers n) as Hs
    by apply get_all_stripped.
  set (b := header_append _ "authorization" _).
  assert (∀ n, get_all b n = (if held_back headers n then [] else get_all headers n)
    ++ if String.eqb n "authorization" then [("Bearer " +:+ UpstreamConfig.api_key cfg)%string] else []) as Hb.
  { intros n. unfold b. rewrite get_all_append, copy_all, Hs. done. }
  set (b1 := if negb (contains_key stripped "content-type") then _ else b).
  set (b2 := if negb (contains_key stripped "accept") then _ else b1).
  destruct (builds b2) as [[]|]; [| done]. intros [= <-]. cbn [ProxyClient.headers]. unfold sent.
  assert (∀ k h n, get_all (if negb (contains_key stripped k) then header_append h k "application/json" else h) n
    = get_all h n ++ if String.eqb n (lowercase k) && (match get_all stripped k with [] => true | _ => false end)
                     then ["application/json"%string] else []) as Hd.
  { intros k h n. unfold contains_key. destruct (get_all stripped k); cbn.
    - rewrite get_all_append. by rewrite andb_true_r.
    - by rewrite andb_false_r, app_nil_r. }
  unfold b2. rewrite Hd. unfold b1. rewrite Hd, Hb. change (lowercase "accept") with "accept"%string.
  change (lowercase "content-type") with "content-type"%string. rewrite !Hs.
  destruct (String.eqb_spec m "authorization") as [->|].
  { assert (held_back headers "authorization" = true) as ->; [| done].
    apply held_back_spec. right. right. constructor. }
  destruct (String.eqb_spec m "content-type") as [->|].
  { cbn. destruct (if held_back headers "content-type" then [] else _); cbn; by rewrite ?app_nil_r. }
  destruct (String.eqb_spec m "accept") as [->|].
  { cbn. destruct (if held_back headers "accept" then [] else _); cbn; by rewrite ?app_nil_r. }
  cbn [andb orb]. by rewrite !app_nil_r.
Qed.

Lemma trim_end_idem c s : trim_end_matches c (trim_end_matches c s) = trim_end_matches c s.
Proof.
  induction s as [|d s IH]; [done |]. cbn [trim_end_matches].
  destruct (str_is_empty (trim_end_matches c s) && Ascii.eqb d c) eqn:E; [done |].
  cbn [trim_end_matches]. by rewrite IH, E.
Qed.

(** C9. The upstream is sent exactly this: the operator's credential as its one
    [Authorization] header; under [Content-Type] and [Accept] the client's own
    values, or [application/json] when it gave none that may cross; under any
    other name the client's own values, and nothing when the name is one of the
    eight hop-by-hop fields, one the endpoint sets for itself (host, length,
    encoding), or one that the client's first [Connection] header lists. Only
    the first counts: what a second [Connection] header alone lists is among the
    values that cross, which the module's comment does not intend. The method
    and the body are the client's, and the address is the configured base
    followed by the path. *)
Theorem upstream_request_headers (self : ProxyClient.t) (cfg : UpstreamConfig.t) (method path : string)
    (body : list ascii) (headers : HeaderMap) (req : Request) :
  request_for self (Some cfg) method path body headers = Ok req →
  get_all (ProxyClient.headers req) "authorization" = [("Bearer " +:+ UpstreamConfig.api_key cfg)%string]
  ∧ (∀ name, name = "content-type"%string ∨ name = "accept"%string →
       (stays_behind headers name ∨ get_all headers name = [] →
          get_all (ProxyClient.headers req) name = ["application/json"%string])
       ∧ (¬ stays_behind headers name → get_all headers name ≠ [] →
          get_all (ProxyClient.headers req) name = get_all headers name))
  ∧ (∀ name, name ∉ ["authorization"; "content-type"; "accept"]%string →
       (stays_behind headers name → get_all (ProxyClient.headers req) name = [])
       ∧ (¬ stays_behind headers name → get_all (ProxyClient.headers req) name = get_all headers name))
  ∧ ProxyClient.method req = method ∧ ProxyClient.body req = body
  ∧ uri_try_from (trim_end_matches "/" (UpstreamConfig.base_url cfg) +:+ path)%string = Ok (uri req).
Proof.
  intros E. pose proof (λ m, request_for_headers _ _ _ _ _ _ _ m E) as Hs. split; [by rewrite Hs |].
  split; [| split].
  - intros name Hname. rewrite Hs, <- held_back_spec. unfold sent.
    destruct Hname as [Hn | Hn]; subst name; cbn; destruct (held_back headers _), (get_all headers _); naive_solver.
  - intros name Hname. rewrite !not_elem_of_cons in Hname. rewrite Hs, <- held_back_spec. unfold sent.
    destruct Hname as (->%String.eqb_neq & ->%String.eqb_neq & ->%String.eqb_neq & _). cbn [orb].
    destruct (held_back headers name); naive_solver.
  - revert E. clear Hs. unfold request_for.
    destruct (upstream_uri _ _) as [u|] eqn:Eu; [| done].
    destruct (builds _) as [[]|]; [| done]. intros [= <-]. cbn. split_and!; [done | done |].
    unfold upstream_uri in Eu. rewrite <- Eu. do 2 f_equal. unfold UpstreamConfig.normalized_base_url.
    by rewrite trim_end_idem.
Qed.

(** What comes back to the client under each name. *)
Lemma response_headers builder headers m :
  get_all (forward_response_headers builder headers) m =
    get_all builder m
    ++ if is_hop_by_hop m || String.eqb m "content-length" || String.eqb m "set-cookie" then [] else get_all headers m.
Proof.
  rewrite <- (header_iter_all headers m). unfold forward_response_headers.
  assert (∀ n v, (n, v) ∈ header_iter headers → lowercase n = n) as Hl by (intros n v; apply header_iter_lower).
  revert builder Hl. induction (header_iter headers) as [|[n v] l IH]; intros builder Hl.
  { cbn. destruct (_ || _ || _); by rewrite app_nil_r. }
  cbn [foldl]. rewrite IH by (intros ? ? ?; eapply Hl; by right). rewrite filter_cons. cbn [fst].
  pose proof (Hl n v ltac:(by left)) as Hn.
  destruct (decide (n = m)) as [->|Hne].
  - destruct (is_hop_by_hop m), (String.eqb m "content-length"), (String.eqb m "set-cookie"); cbn; try done.
    rewrite get_all_append, Hn, String.eqb_refl. by rewrite <- app_assoc.
  - f_equal. destruct (is_hop_by_hop n), (String.eqb n "content-length"), (String.eqb n "set-cookie"); try done.
    rewrite get_all_append, Hn. destruct (String.eqb_spec m n) as [->|]; [done | by rewrite app_nil_r].
Qed.
End Forwarding.

Definition cfg_1 : UpstreamConfig.t := UpstreamConfig.mk "https://up.example/" "sk-upstream" 120 10.
Definition headers_1 : HeaderMap (Http := AssocHeaders) :=
  [("Authorization", "Bearer pk-client"); ("Connection", "close, X-Trace "); ("X-Trace", "1"); ("X-Org", "acme");
   ("Host", "portal.example"); ("Connection", "x-late"); ("X-Late", "2"); ("TE", "trailers")]%string.

Definition sent_1 : result ProxyClient.Request string :=
  ProxyClient.request_for (ProxyClient.new cfg_1) (Some cfg_1) "POST" "/v1/responses" [] headers_1.
Definition req_1 : ProxyClient.Request (H := AssocHeaders) := unwrap_or sent_1 (ProxyClient.mkRequest "" EmptyString [] []).

Lemma sent_1_ok : sent_1 = Ok req_1.
Proof. apply is_ok_unwrap_or. by vm_compute. Qed.

Lemma headers_1_fates :
  stays_behind headers_1 "x-trace" ∧ stays_behind headers_1 "te" ∧ ¬ stays_behind headers_1 "x-late"
  ∧ ¬ stays_behind headers_1 "x-org".
Proof. rewrite <- !held_back_spec. split_and!; by vm_compute. Qed.

(** [x-trace] is listed by the first [Connection] header and stays; [x-late] by
    the second alone, and crosses. *)
Lemma upstream_request_headers_witness :
  sent_1 = Ok req_1
  ∧ get_all (ProxyClient.headers req_1) "authorization" = ["Bearer sk-upstream"%string]
  ∧ get_all (ProxyClient.headers req_1) "accept" = ["application/json"%string]
  ∧ get_all (ProxyClient.headers req_1) "x-trace" = [] ∧ get_all (ProxyClient.headers req_1) "te" = []
  ∧ get_all (ProxyClient.headers req_1) "x-late" = ["2"%string] ∧ get_all (ProxyClient.headers req_1) "x-org" = ["acme"%string].
Proof.
  split; [exact sent_1_ok |].
  destruct (upstream_request_headers (ProxyClient.new cfg_1) cfg_1 "POST" "/v1/responses" [] headers_1 _ sent_1_ok)
    as (Ha & Hd & Hn & _).
  destruct headers_1_fates as (H1 & H2 & H3 & H4).
  assert (∀ n, bool_decide (n ∈ ["authorization"; "content-type"; "accept"]%string) = false →
    n ∉ ["authorization"; "content-type"; "accept"]%string) as Hout by (intros n; apply bool_decide_eq_false_1).
  split_and!; [exact Ha | | | | |].
  - apply (Hd "accept"%string); [by right |]. right. by vm_compute.
  - by apply (Hn "x-trace"%string); [apply Hout |].
  - by apply (Hn "te"%string); [apply Hout |].
  - etransitivity; [by apply (Hn "x-late"%string); [apply Hout |] | by vm_compute].
  - etransitivity; [by apply (Hn "x-org"%string); [apply Hout |] | by vm_compute].
Defined.

(** Only the first [Connection] header is read: a header that a second one names
    crosses the hop. *)
Theorem second_connection_header_is_ignored :
  let headers : HeaderMap (Http := AssocHeaders) := [("connection", "close"); ("connection", "x-trace"); ("x-trace", "1")]%string in
  get_all (strip_hop_by_hop headers) "x-trace" = ["1"%string].
Proof. by vm_compute. Qed.

(** On the way back the tokens of [Connection] are not honoured at all. *)
Theorem response_connection_tokens_are_forwarded :
  get_all (ProxyClient.forward_response_headers [] [("connection", "x-hop"); ("x-hop", "1")]%string) "x-hop" = ["1"%string].
Proof. by vm_compute. Qed.
