(* ===== verification/Crypto.v ===== *)
(** * Cryptographic primitives ([src/src/crypto.rs], key derivation of [src/src/apikeys/mod.rs])

    HMAC over [sha2] as an interface, comparison without an early exit, and the
    unpadded URL-safe base64 of cursors and generated keys, whose decoder
    accepts exactly what the encoder writes. *)

From stdpp Require Import base strings list numbers.
From Stdlib Require Import Ascii ZArith Lia.
From S2P Require Import Prelude Utf8.

Local Open Scope Z_scope.

(** A [&[u8]] is a list of integers; [bytes_ok] says they are bytes. *)
Definition bytes_ok (l : list Z) : Prop := Forall (λ b, 0 ≤ b < 256) l.

(** [str::as_bytes]. *)
Fixpoint as_bytes (s : string) : list Z :=
  match s with EmptyString => [] | String c s' => byte_value c :: as_bytes s' end.

Definition SHA256_OUTPUT : nat := 32.
Definition SHA256_BLOCK : nat := 64.

(** ** The crates [sha2] and [hex] *)

(** [Sha256::digest]; [update] concatenates and [finalize] hashes. *)
Class Digests : Type := {
  sha256 : list Z → list Z;
  hex_encode : list Z → string }.

Class DigestLaws `{Digests} : Prop := {
  sha256_length m : length (sha256 m) = SHA256_OUTPUT;
  sha256_bytes m : bytes_ok (sha256 m);
  hex_encode_inj a b : bytes_ok a → bytes_ok b → hex_encode a = hex_encode b → a = b }.

Section Hmac.
Context `{Digests}.

(** The key block: hashed down when too long, padded with zeros otherwise. *)
Definition hmac_block (key : list Z) : list Z :=
  let head := if (SHA256_BLOCK <? length key)%nat then sha256 key else key in
  head ++ replicate (SHA256_BLOCK - length head) 0.

Definition hmac_sha256 (key message : list Z) : list Z :=
  let block := hmac_block key in
  let inner := sha256 (((λ b, Z.lxor b 54) <$> block) ++ message) in
  sha256 (((λ b, Z.lxor b 92) <$> block) ++ inner).

Definition derive_key_hash (secret : list Z) (plaintext : string) : string :=
  hex_encode (hmac_sha256 secret (as_bytes plaintext)).
End Hmac.

(** The [diff |= x ^ y] loop runs over the whole of both. *)
Definition constant_time_eq (a b : list Z) : bool :=
  if negb (length a =? length b)%nat then false
  else foldl (λ diff p, Z.lor diff (Z.lxor p.1 p.2)) 0 (zip a b) =? 0.

(** ** Base64 *)
Definition B64_ALPHABET : string := "ABCDEFGHIJKLMNOPQRSTUVWXYZabcdefghijklmnopqrstuvwxyz0123456789-_".

(** [B64_ALPHABET[i]], for [i] below 64. *)
Definition alphabet_char (i : Z) : ascii := default "A"%char (String.get (Z.to_nat i) B64_ALPHABET).

(** [iter().position(|&a| a == byte)]. *)
Fixpoint position_from (i : Z) (c : ascii) (s : string) : option Z :=
  match s with
  | EmptyString => None
  | String d s' => if Ascii.eqb d c then Some i else position_from (i + 1) c s'
  end.
Definition position (c : ascii) : option Z := position_from 0 c B64_ALPHABET.

(** [slice::chunks(3)]. *)
Fixpoint chunks3 (l : list Z) : list (list Z) :=
  match l with
  | a :: b :: c :: l' => [a; b; c] :: chunks3 l'
  | [] => []
  | l => [l]
  end.

(** The 24-bit number of a chunk, zero-padded on the right. *)
Definition chunk_value (chunk : list Z) : Z :=
  foldl (λ n b, n * 256 + b) 0 (chunk ++ replicate (3 - length chunk) 0).

Definition encode_chunk (chunk : list Z) : string :=
  let n := chunk_value chunk in
  foldr (λ p out,
      if (p.1 <? length chunk + 1)%nat
      then String (alphabet_char (Z.land (Z.shiftr n p.2) 63)) out else out)
    EmptyString (imap pair [18; 12; 6; 0]).

Definition base64url_encode (bytes : list Z) : string :=
  foldr (λ chunk out, (encode_chunk chunk +:+ out)%string) EmptyString (chunks3 bytes).

(** The decoder's loop: a [u32] accumulator, of which the low [bits] bits are
    still to be written; yields the bytes pushed and the final state. *)
Fixpoint decode_loop (accumulator bits : Z) (text : string) : option (list Z * Z * Z) :=
  match text with
  | EmptyString => Some ([], accumulator, bits)
  | String byte text' =>
      match position byte with
      | None => None
      | Some value =>
          let accumulator := Z.lor (Z.shiftl accumulator 6 mod 2 ^ 32) value in
          let bits := bits + 6 in
          if 8 <=? bits then
            let bits := bits - 8 in
            match decode_loop accumulator bits text' with
            | Some (out, a, b) => Some (Z.shiftr accumulator bits mod 256 :: out, a, b)
            | None => None
            end
          else decode_loop accumulator bits text'
      end
  end.

Definition base64url_decode (text : string) : option (list Z) :=
  match decode_loop 0 0 text with
  | None => None
  | Some (out, accumulator, bits) =>
      if (6 <=? bits) || negb (Z.land accumulator (Z.shiftl 1 bits - 1) =? 0) then None else Some out
  end.

Example base64url_examples :
  base64url_encode (as_bytes "foobar") = "Zm9vYmFy"%string ∧ base64url_encode (as_bytes "fooba") = "Zm9vYmE"%string
  ∧ base64url_encode (as_bytes "f") = "Zg"%string
  ∧ base64url_decode "Zm9vYmE" = Some (as_bytes "fooba")
  ∧ base64url_decode "Zh" = None ∧ base64url_decode "Z" = None ∧ base64url_decode "Zg==" = None.
Proof. vm_compute. auto 10. Qed.

(** ** Comparison *)

Lemma lor_fold_zero (l : list (Z * Z)) (d : Z) :
  foldl (λ diff p, Z.lor diff (Z.lxor p.1 p.2)) d l = 0 ↔ d = 0 ∧ Forall (λ p, p.1 = p.2) l.
Proof.
  revert d. induction l as [|[x y] l IH]; intros d; simpl; [by split; [intros ->; split | intros [-> _]] |].
  rewrite IH, Forall_cons_iff, Z.lor_eq_0_iff, Z.lxor_eq_0_iff. simpl. tauto.
Qed.

(** Although it never stops early, the comparison is equality. *)
Lemma constant_time_eq_spec a b : constant_time_eq a b = true ↔ a = b.
Proof.
  unfold constant_time_eq. destruct (Nat.eqb_spec (length a) (length b)) as [El|Hl]; simpl.
  - rewrite Z.eqb_eq, lor_fold_zero. split; [intros [_ Hall] | intros ->; split; [done |]].
    + revert b El Hall. induction a as [|x a IH]; intros [|y b]; simpl; try done.
      intros [= El] [E Hall]%Forall_cons_iff. simpl in E. subst. f_equal. by apply IH.
    + clear. induction b; simpl; by constructor.
  - split; [done | by intros ->].
Qed.

Lemma hmac_block_length `{DigestLaws} key : length (hmac_block key) = SHA256_BLOCK.
Proof.
  unfold hmac_block, SHA256_BLOCK. destruct (Nat.ltb_spec 64 (length key));
    rewrite length_app, length_replicate; [rewrite sha256_length; done | lia].
Qed.

Lemma hmac_sha256_bytes `{DigestLaws} key m : bytes_ok (hmac_sha256 key m).
Proof. apply sha256_bytes. Qed.

(** ** The decoder accepts exactly the encodings *)

Lemma position_char v : 0 ≤ v < 64 → position (alphabet_char v) = Some v.
Proof.
  intros Hv.
  assert (forallb (λ i, bool_decide (position (alphabet_char (Z.of_nat i)) = Some (Z.of_nat i))) (seq 0 64) = true)
    as Hall by (vm_compute; reflexivity).
  rewrite forallb_forall in Hall. specialize (Hall (Z.to_nat v)).
  rewrite Z2Nat.id, bool_decide_eq_true in Hall by lia. apply Hall, in_seq. lia.
Qed.

Lemma position_Some c v : position c = Some v → 0 ≤ v < 64 ∧ alphabet_char v = c.
Proof.
  intros E.
  assert (forallb (λ i, let c := ascii_of_nat i in
    match position c with
    | Some v => (0 <=? v) && (v <? 64) && Ascii.eqb (alphabet_char v) c
    | None => true end) (seq 0 256) = true) as Hall by (vm_compute; reflexivity).
  rewrite forallb_forall in Hall. specialize (Hall (nat_of_ascii c)). cbn beta zeta in Hall.
  rewrite ascii_nat_embedding, E in Hall.
  assert ((0 <=? v) && (v <? 64) && Ascii.eqb (alphabet_char v) c = true) as Hc.
  { apply Hall, in_seq. pose proof (nat_ascii_bounded c). lia. }
  rewrite !andb_true_iff, Z.leb_le, Z.ltb_lt, Ascii.eqb_eq in Hc. lia || naive_solver.
Qed.

(** Only the low [bits] bits of the accumulator matter. *)
Fixpoint sextets (r bits : Z) (text : string) : option (list Z * Z * Z) :=
  match text with
  | EmptyString => Some ([], r, bits)
  | String byte text' =>
      match position byte with
      | None => None
      | Some v =>
          if 2 <=? bits then
            match sextets ((64 * r + v) mod 2 ^ (bits - 2)) (bits - 2) text' with
            | Some (out, a, b) => Some ((64 * r + v) / 2 ^ (bits - 2) :: out, a, b)
            | None => None
            end
          else sextets (64 * r + v) (bits + 6) text'
      end
  end.

Lemma lor_sextet acc v : 0 ≤ v < 64 → Z.lor (Z.shiftl acc 6 mod 2 ^ 32) v = 64 * (acc mod 2 ^ 26) + v.
Proof.
  intros Hv. rewrite Z.shiftl_mul_pow2 by lia. change (2 ^ 32) with (2 ^ 26 * 2 ^ 6).
  rewrite Z.mul_mod_distr_r by lia. set (k := acc mod 2 ^ 26).
  assert (Z.land (k * 2 ^ 6) v = 0) as Hl.
  { rewrite <- Z.shiftl_mul_pow2 by lia. apply Z.bits_inj'. intros n Hn.
    rewrite Z.land_spec, Z.bits_0, Z.shiftl_spec by done. destruct (Z.lt_ge_cases n 6).
    - by rewrite Z.testbit_neg_r by lia.
    - rewrite andb_comm, <- (Z.mod_small v (2 ^ 6)) by lia. by rewrite Z.mod_pow2_bits_high by lia. }
  pose proof (Z.add_lor_land (k * 2 ^ 6) v) as E. rewrite Hl in E. change (2 ^ 6) with 64 in *. lia.
Qed.

Lemma push_mod acc v k :
  0 ≤ k ≤ 26 → 0 ≤ v < 64 → (64 * (acc mod 2 ^ 26) + v) mod 2 ^ (k + 6) = 64 * (acc mod 2 ^ k) + v.
Proof.
  intros Hk Hv. replace (2 ^ 26) with (2 ^ k * 2 ^ (26 - k)) by (rewrite <- Z.pow_add_r by lia; f_equal; lia).
  rewrite Z.rem_mul_r, Z.pow_add_r by lia. change (2 ^ 6) with 64.
  pose proof (Z.mod_pos_bound acc (2 ^ k)). pose proof (Z.pow_pos_nonneg 2 k).
  symmetry. apply (Z.mod_unique _ _ ((acc / 2 ^ k) mod 2 ^ (26 - k))); [left |]; lia.
Qed.

Lemma div_pow_mod x k j : 0 ≤ k → 0 ≤ j → (x / 2 ^ k) mod 2 ^ j = (x mod 2 ^ (k + j)) / 2 ^ k.
Proof.
  intros. rewrite Z.pow_add_r, Z.rem_mul_r by lia. pose proof (Z.pow_pos_nonneg 2 k).
  rewrite Z.add_comm, Z.mul_comm, Z.div_add_l, (Z.div_small (x mod _)) by (lia || apply Z.mod_pos_bound; lia). lia.
Qed.

Lemma decode_loop_sextets acc bits text :
  0 ≤ bits < 8 →
  match decode_loop acc bits text, sextets (acc mod 2 ^ bits) bits text with
  | Some (out, a, b), Some (out', r, b') => out = out' ∧ b = b' ∧ 0 ≤ b < 8 ∧ r = a mod 2 ^ b
  | None, None => True
  | _, _ => False
  end.
Proof.
  revert acc bits. induction text as [|c text IH]; intros acc bits Hb; cbn [decode_loop sextets]; [done |].
  destruct (position c) as [v|] eqn:E; [| done]. apply position_Some in E as [Hv _].
  rewrite lor_sextet by done. set (acc' := 64 * (acc mod 2 ^ 26) + v).
  assert (acc' mod 2 ^ (bits + 6) = 64 * (acc mod 2 ^ bits) + v) as Ea by (apply push_mod; lia).
  destruct (Z.leb_spec 8 (bits + 6)), (Z.leb_spec 2 bits); try lia.
  - replace (bits + 6 - 8) with (bits - 2) by lia. specialize (IH acc' (bits - 2) ltac:(lia)).
    rewrite <- Ea. replace (bits + 6) with (bits - 2 + 8) by lia.
    assert (acc' mod 2 ^ (bits - 2 + 8) mod 2 ^ (bits - 2) = acc' mod 2 ^ (bits - 2)) as ->.
    { rewrite Z.pow_add_r, Z.rem_mul_r by lia. rewrite Z.mul_comm, Z_mod_plus_full. by rewrite Z.mod_mod by lia. }
    assert (Z.shiftr acc' (bits - 2) mod 256 = acc' mod 2 ^ (bits - 2 + 8) / 2 ^ (bits - 2)) as Ep.
    { rewrite Z.shiftr_div_pow2 by lia. change 256 with (2 ^ 8). apply div_pow_mod; lia. }
    destruct (decode_loop acc' _ text) as [[[out a] b]|], (sextets _ _ text) as [[[out' r] b']|]; try done.
    destruct IH as (-> & -> & ? & ->). by rewrite Ep.
  - rewrite <- Ea. apply IH. lia.
Qed.

Definition decode_spec (text : string) : option (list Z) :=
  match sextets 0 0 text with
  | None => None
  | Some (out, r, bits) => if (6 <=? bits) || negb (r =? 0) then None else Some out
  end.

Lemma base64url_decode_spec text : base64url_decode text = decode_spec text.
Proof.
  unfold base64url_decode, decode_spec. pose proof (decode_loop_sextets 0 0 text ltac:(lia)) as H.
  rewrite Z.mod_0_l in H by lia.
  destruct (decode_loop 0 0 text) as [[[out a] b]|], (sextets 0 0 text) as [[[out' r] b']|]; try done.
  destruct H as (-> & -> & Hb & ->).
  assert (Z.land a (Z.shiftl 1 b' - 1) = a mod 2 ^ b') as ->; [| done].
  rewrite <- Z.land_ones by lia. f_equal.
Qed.

Lemma sextet_split n k m : 0 <= k → 0 < m → Z.land (Z.shiftr n k) 63 = n / 2 ^ k mod 64.
Proof. intros. rewrite Z.shiftr_div_pow2 by lia. by rewrite (Z.land_ones _ 6) by lia. Qed.

(** The sextets of a chunk, and of three bytes written back. *)
Ltac byte_arith := Z.div_mod_to_equations; lia.
Ltac chars_arith := repeat (apply f_equal2; [apply (f_equal alphabet_char); byte_arith |]).

Lemma encode_chunk_3 a b c :
  0 ≤ a < 256 → 0 ≤ b < 256 → 0 ≤ c < 256 →
  encode_chunk [a; b; c] =
    String (alphabet_char (a / 4)) (String (alphabet_char (a mod 4 * 16 + b / 16))
      (String (alphabet_char (b mod 16 * 4 + c / 64)) (String (alphabet_char (c mod 64)) EmptyString))).
Proof.
  intros. unfold encode_chunk, chunk_value. simpl. rewrite !(sextet_split _ _ 1) by lia.
  change (2 ^ 18) with 262144; change (2 ^ 12) with 4096; change (2 ^ 6) with 64; change (2 ^ 0) with 1.
  by chars_arith.
Qed.

Lemma encode_chunk_2 a b :
  0 ≤ a < 256 → 0 ≤ b < 256 →
  encode_chunk [a; b] =
    String (alphabet_char (a / 4)) (String (alphabet_char (a mod 4 * 16 + b / 16))
      (String (alphabet_char (b mod 16 * 4)) EmptyString)).
Proof.
  intros. unfold encode_chunk, chunk_value. simpl. rewrite !(sextet_split _ _ 1) by lia.
  change (2 ^ 18) with 262144; change (2 ^ 12) with 4096; change (2 ^ 6) with 64.
  by chars_arith.
Qed.

Lemma encode_chunk_1 a :
  0 ≤ a < 256 →
  encode_chunk [a] = String (alphabet_char (a / 4)) (String (alphabet_char (a mod 4 * 16)) EmptyString).
Proof.
  intros. unfold encode_chunk, chunk_value. simpl. rewrite !(sextet_split _ _ 1) by lia.
  change (2 ^ 18) with 262144; change (2 ^ 12) with 4096.
  by chars_arith.
Qed.

Lemma sextets_4 c1 c2 c3 c4 v1 v2 v3 v4 text :
  position c1 = Some v1 → position c2 = Some v2 → position c3 = Some v3 → position c4 = Some v4 →
  sextets 0 0 (String c1 (String c2 (String c3 (String c4 text)))) =
    match sextets 0 0 text with
    | Some (out, a, b) => Some (v1 * 4 + v2 / 16 :: v2 mod 16 * 16 + v3 / 4 :: v3 mod 4 * 64 + v4 :: out, a, b)
    | None => None
    end.
Proof.
  intros E1 E2 E3 E4. cbn [sextets]. rewrite E1, E2, E3, E4.
  change (2 <=? 0) with false; change (2 <=? 0 + 6) with true; change (2 <=? 0 + 6 - 2) with true;
    change (2 <=? 0 + 6 - 2 - 2) with true; cbv iota.
  apply position_Some in E1 as [? _], E2 as [? _], E3 as [? _], E4 as [? _].
  change (2 ^ (0 + 6 - 2)) with 16; change (2 ^ (0 + 6 - 2 - 2)) with 4; change (2 ^ (0 + 6 - 2 - 2 - 2)) with 1.
  rewrite Z.mod_1_r. change (0 + 6 - 2 - 2 - 2) with 0.
  destruct (sextets 0 0 text) as [[[out a] b]|]; [| done].
  do 3 f_equal; repeat (apply f_equal2; [byte_arith |]); done.
Qed.

Lemma decode_spec_4 c1 c2 c3 c4 v1 v2 v3 v4 text :
  position c1 = Some v1 → position c2 = Some v2 → position c3 = Some v3 → position c4 = Some v4 →
  decode_spec (String c1 (String c2 (String c3 (String c4 text)))) =
    match decode_spec text with
    | Some out => Some (v1 * 4 + v2 / 16 :: v2 mod 16 * 16 + v3 / 4 :: v3 mod 4 * 64 + v4 :: out)
    | None => None
    end.
Proof.
  intros. unfold decode_spec. erewrite sextets_4 by done.
  destruct (sextets 0 0 text) as [[[out a] b]|]; [| done]. by destruct (_ || _).
Qed.

(** The two shorter tails. *)
Lemma decode_spec_3 c1 c2 c3 v1 v2 v3 :
  position c1 = Some v1 → position c2 = Some v2 → position c3 = Some v3 →
  decode_spec (String c1 (String c2 (String c3 EmptyString))) =
    if v3 mod 4 =? 0 then Some [v1 * 4 + v2 / 16; v2 mod 16 * 16 + v3 / 4] else None.
Proof.
  intros E1 E2 E3. unfold decode_spec. cbn [sextets]. rewrite E1, E2, E3.
  change (2 <=? 0) with false; change (2 <=? 0 + 6) with true; change (2 <=? 0 + 6 - 2) with true; cbv iota.
  apply position_Some in E1 as [? _], E2 as [? _], E3 as [? _].
  change (2 ^ (0 + 6 - 2)) with 16; change (2 ^ (0 + 6 - 2 - 2)) with 4; change (6 <=? 0 + 6 - 2 - 2) with false.
  simpl orb. replace ((64 * ((64 * (64 * 0 + v1) + v2) mod 16) + v3) mod 4) with (v3 mod 4) by byte_arith.
  destruct (v3 mod 4 =? 0); simpl; [| done].
  f_equal; repeat (apply f_equal2; [byte_arith |]); done.
Qed.

Lemma decode_spec_2 c1 c2 v1 v2 :
  position c1 = Some v1 → position c2 = Some v2 →
  decode_spec (String c1 (String c2 EmptyString)) =
    if v2 mod 16 =? 0 then Some [v1 * 4 + v2 / 16] else None.
Proof.
  intros E1 E2. unfold decode_spec. cbn [sextets]. rewrite E1, E2.
  change (2 <=? 0) with false; change (2 <=? 0 + 6) with true; cbv iota.
  apply position_Some in E1 as [? _], E2 as [? _].
  change (2 ^ (0 + 6 - 2)) with 16; change (6 <=? 0 + 6 - 2) with false.
  simpl orb. replace ((64 * (64 * 0 + v1) + v2) mod 16) with (v2 mod 16) by byte_arith.
  destruct (v2 mod 16 =? 0); simpl; [| done].
  f_equal; repeat (apply f_equal2; [byte_arith |]); done.
Qed.

Lemma decode_spec_1 c : decode_spec (String c EmptyString) = None.
Proof.
  unfold decode_spec. cbn [sextets]. by destruct (position c).
Qed.

(** What decodes is made of alphabet characters. *)
Definition in_alphabet (c : ascii) : bool := match position c with Some _ => true | None => false end.

Lemma sextets_alphabet r bits text : is_Some (sextets r bits text) → str_all in_alphabet text = true.
Proof.
  revert r bits. induction text as [|c text IH]; intros r bits; cbn [sextets str_all]; [done |].
  unfold in_alphabet at 1. destruct (position c) as [v|]; [| by intros [? ?]]. cbn [andb].
  destruct (2 <=? bits); [| apply IH]. destruct (sextets _ _ text) as [[[out a] b]|] eqn:E; [| by intros [? ?]].
  intros _. by eapply IH.
Qed.

Lemma decode_spec_alphabet text l : decode_spec text = Some l → str_all in_alphabet text = true.
Proof.
  unfold decode_spec. destruct (sextets 0 0 text) as [[[out r] b]|] eqn:E; [| done].
  intros _. eapply sextets_alphabet. by rewrite E.
Qed.

Lemma in_alphabet_Some c : in_alphabet c = true → ∃ v, position c = Some v ∧ 0 ≤ v < 64 ∧ c = alphabet_char v.
Proof.
  unfold in_alphabet. destruct (position c) as [v|] eqn:E; [| done]. intros _. exists v.
  apply position_Some in E as E'. naive_solver.
Qed.

Lemma decode_spec_encode l : bytes_ok l → decode_spec (base64url_encode l) = Some l.
Proof.
  unfold base64url_encode. remember (length l) as n eqn:En. revert l En.
  induction (lt_wf n) as [n _ IH]; intros [|a [|b [|c l]]] -> Hl; [done | ..];
    unfold bytes_ok in *; rewrite ?Forall_cons_iff in Hl; destruct_and? Hl;
    cbn [chunks3 foldr].
  - rewrite encode_chunk_1 by done. cbn [String.append].
    rewrite (decode_spec_2 _ _ (a / 4) (a mod 4 * 16)) by (apply position_char; byte_arith).
    rewrite (proj2 (Z.eqb_eq _ _)) by byte_arith. do 2 f_equal. byte_arith.
  - rewrite encode_chunk_2 by done. cbn [String.append].
    rewrite (decode_spec_3 _ _ _ (a / 4) (a mod 4 * 16 + b / 16) (b mod 16 * 4)) by (apply position_char; byte_arith).
    rewrite (proj2 (Z.eqb_eq _ _)) by byte_arith.
    f_equal; repeat (apply f_equal2; [byte_arith |]); done.
  - rewrite encode_chunk_3 by done. cbn [String.append].
    rewrite (decode_spec_4 _ _ _ _ (a / 4) (a mod 4 * 16 + b / 16) (b mod 16 * 4 + c / 64) (c mod 64))
      by (apply position_char; byte_arith).
    rewrite (IH (length l)) by (done || (simpl; lia)).
    f_equal; repeat (apply f_equal2; [byte_arith |]); done.
Qed.

Lemma encode_chunk_cons a b c l :
  base64url_encode (a :: b :: c :: l) = (encode_chunk [a; b; c] +:+ base64url_encode l)%string.
Proof. done. Qed.

Lemma decode_spec_Some text l : decode_spec text = Some l → bytes_ok l ∧ base64url_encode l = text.
Proof.
  remember (String.length text) as n eqn:En. revert text l En.
  induction (lt_wf n) as [n _ IH]; intros text l -> E.
  pose proof (decode_spec_alphabet _ _ E) as Ha.
  destruct text as [|c1 text]; [change (Some [] = Some l) in E; injection E as <-; by split; [constructor |] |].
  destruct text as [|c2 text]; [by rewrite decode_spec_1 in E |].
  destruct text as [|c3 text]; [| destruct text as [|c4 text]];
    cbn [str_all] in Ha; rewrite ?andb_true_iff in Ha; destruct_and? Ha;
    repeat match goal with H : in_alphabet _ = true |- _ =>
      apply in_alphabet_Some in H; destruct H as (? & ? & ? & ->) end.
  - erewrite decode_spec_2 in E by done. destruct (Z.eqb_spec (x mod 16) 0); [| done]. injection E as <-.
    split; [repeat constructor; byte_arith |]. unfold base64url_encode. cbn [chunks3 foldr].
    rewrite encode_chunk_1 by byte_arith. cbn [String.append]. by chars_arith.
  - erewrite decode_spec_3 in E by done. destruct (Z.eqb_spec (x mod 4) 0); [| done]. injection E as <-.
    split; [repeat constructor; byte_arith |]. unfold base64url_encode. cbn [chunks3 foldr].
    rewrite encode_chunk_2 by byte_arith. cbn [String.append]. by chars_arith.
  - erewrite decode_spec_4 in E by done. destruct (decode_spec text) as [out|] eqn:Et; [| done]. injection E as <-.
    destruct (IH (String.length text) ltac:(simpl; lia) text out eq_refl Et) as [Hok <-].
    split; [repeat (constructor; [byte_arith |]); done |].
    rewrite encode_chunk_cons, encode_chunk_3 by byte_arith. cbn [String.append]. by chars_arith.
Qed.

(** The decoder accepts exactly what the encoder writes: a byte string decodes
    from its own encoding and from no other text. *)
Theorem base64url_decode_exact (text : string) (l : list Z) :
  base64url_decode text = Some l ↔ bytes_ok l ∧ text = base64url_encode l.
Proof.
  rewrite base64url_decode_spec. split.
  - intros E%decode_spec_Some. naive_solver.
  - intros [Hl ->]. by apply decode_spec_encode.
Qed.

(** ** An instance of the interface

    Not SHA-256: a mixing function of the right shape, on which the concrete
    examples run. *)
Definition mix (i : Z) (m : list Z) : Z := foldl (λ h b, (h * (2 * i + 3) + b + i) mod 256) i m.

Definition hex (l : list Z) : string :=
  foldr (λ b s, String (hex_digit (b / 16)) (String (hex_digit (b mod 16)) s)) EmptyString l.

#[global] Instance MixDigests : Digests :=
  {| sha256 m := (λ i, mix (Z.of_nat i) m mod 256) <$> seq 0 32; hex_encode := hex |}.

Lemma hex_digit_inj a b : 0 ≤ a < 16 → 0 ≤ b < 16 → hex_digit a = hex_digit b → a = b.
Proof.
  intros Ha Hb E.
  assert (forallb (λ i, forallb (λ j, implb (Ascii.eqb (hex_digit (Z.of_nat i)) (hex_digit (Z.of_nat j))) (i =? j)%nat)
    (seq 0 16)) (seq 0 16) = true) as Hall by (vm_compute; reflexivity).
  rewrite forallb_forall in Hall. specialize (Hall (Z.to_nat a) ltac:(apply in_seq; lia)).
  rewrite forallb_forall in Hall. specialize (Hall (Z.to_nat b) ltac:(apply in_seq; lia)).
  rewrite !Z2Nat.id, E, Ascii.eqb_refl in Hall by lia. cbn in Hall. apply Nat.eqb_eq in Hall. lia.
Qed.

#[global] Instance MixDigestLaws : DigestLaws.
Proof.
  split.
  - intros m. reflexivity.
  - intros m. cbn. unfold bytes_ok. repeat (constructor; [apply Z.mod_pos_bound; lia |]). constructor.
  - intros a. change (hex_encode) with hex. induction a as [|x a IH]; intros [|y b] Ha Hb E; try done.
    cbn in E. injection E as E1 E2 E3. apply Forall_cons_iff in Ha as [? Ha], Hb as [? Hb].
    f_equal; [| by apply IH]. apply hex_digit_inj in E1, E2; byte_arith.
Qed.
