(* ===== verification/TimeLib.v ===== *)
(** * The [time] crate as the program uses it

    [time] is a third-party crate, so its types and functions are the fields of
    the class [TimeCrate] and what the program relies on is the class
    [TimeLaws], each law a documented behaviour.  An instant is read through
    [unix_timestamp_nanos] and a date through [to_julian_day]; comparison of
    instants and of dates is comparison of those numbers, as the crate
    documents.  [Calendar.v] gives an instance of both classes. *)

From stdpp Require Import base strings list numbers.
From Stdlib Require Import Ascii ZArith Lia.
From S2P Require Import Prelude.

Local Open Scope Z_scope.

(** The components of a format description the program writes. *)
Inductive FormatItem : Type :=
  | FYear | FMonth | FDay | FHour | FMinute | FSecond
  | FSubsecond9
  | FLiteral (c : ascii).

Class TimeCrate : Type := {
  Date : Type;
  OffsetDateTime : Type;
  to_julian_day : Date → Z;
  unix_timestamp_nanos : OffsetDateTime → Z;
  (** [date + Duration::days(n)] (panics past the calendar's end). *)
  date_add_days : Date → Z → Date;
  (** [instant.to_offset(o)], an offset in whole seconds. *)
  to_offset : OffsetDateTime → Z → OffsetDateTime;
  (** [instant.date()], in the instant's own offset. *)
  odt_date : OffsetDateTime → Date;
  (** [date.with_time(Time::MIDNIGHT).assume_offset(o)]. *)
  midnight_assume_offset : Date → Z → OffsetDateTime;
  (** [instant + Duration] and [checked_add], a duration in nanoseconds. *)
  odt_add : OffsetDateTime → Z → OffsetDateTime;
  odt_checked_add : OffsetDateTime → Z → option OffsetDateTime;
  odt_from_unix_timestamp_nanos : Z → option OffsetDateTime;
  (** [UtcOffset::from_whole_seconds]. *)
  offset_from_whole_seconds : Z → option Z;
  (** [instant.format(&description)] and [OffsetDateTime::parse(s, &description)]. *)
  odt_format : list FormatItem → OffsetDateTime → option string;
  odt_parse : list FormatItem → string → option OffsetDateTime;
  (** [Iso8601::DEFAULT] parsing. *)
  odt_parse_iso : string → option OffsetDateTime;
  date_parse_iso : string → option Date;
  (** [Display for Date]. *)
  date_display : Date → string;
  (** [to_calendar_date]: year, month, day. *)
  date_ymd : Date → Z * Z * Z;
}.

Definition NS_PER_SEC : Z := 1000000000.
Definition NS_PER_MINUTE : Z := 60 * NS_PER_SEC.
Definition NS_PER_DAY : Z := 86400 * NS_PER_SEC.
(** The Julian day of 1970-01-01, and of -9999-01-01 and 9999-12-31. *)
Definition UNIX_EPOCH_JULIAN : Z := 2440588.
Definition MIN_JULIAN : Z := -1930999.
Definition MAX_JULIAN : Z := 5373484.

(** Rendering one component of a description on calendar fields. *)
Record Fields : Type := mkFields {
  f_year : Z; f_month : Z; f_day : Z;
  f_hour : Z; f_minute : Z; f_second : Z; f_nano : Z }.

Definition pad_num (w : nat) (n : Z) : string := pad_left0 w (dec_string n).

Definition render_item (f : Fields) (i : FormatItem) : string :=
  match i with
  | FYear => pad_num 4 (f_year f)
  | FMonth => pad_num 2 (f_month f)
  | FDay => pad_num 2 (f_day f)
  | FHour => pad_num 2 (f_hour f)
  | FMinute => pad_num 2 (f_minute f)
  | FSecond => pad_num 2 (f_second f)
  | FSubsecond9 => pad_num 9 (f_nano f)
  | FLiteral c => String c ""
  end.

Fixpoint render (items : list FormatItem) (f : Fields) : string :=
  match items with
  | [] => ""
  | i :: items' => (render_item f i +:+ render items' f)%string
  end.

(** Date, time to the nanosecond, and the letter [Z]. *)
Definition UTC_NANO_ITEMS : list FormatItem :=
  [FYear; FLiteral "-"; FMonth; FLiteral "-"; FDay; FLiteral "T"; FHour; FLiteral ":"; FMinute;
   FLiteral ":"; FSecond; FLiteral "."; FSubsecond9; FLiteral "Z"].

Section Laws.
Context `{TimeCrate}.

Definition odt_le (a b : OffsetDateTime) : bool := unix_timestamp_nanos a <=? unix_timestamp_nanos b.
Definition odt_lt (a b : OffsetDateTime) : bool := unix_timestamp_nanos a <? unix_timestamp_nanos b.
Definition date_le (a b : Date) : bool := to_julian_day a <=? to_julian_day b.
Definition date_lt (a b : Date) : bool := to_julian_day a <? to_julian_day b.

(** The Julian day an instant falls in at an offset (seconds). *)
Definition local_julian (ns off : Z) : Z := (ns + off * NS_PER_SEC) / NS_PER_DAY + UNIX_EPOCH_JULIAN.

(** The calendar leaves room for offsets and a few days of arithmetic. *)
Definition date_ok (d : Date) : Prop := MIN_JULIAN + 100 ≤ to_julian_day d ≤ MAX_JULIAN - 100.
Definition instant_ok (t : OffsetDateTime) : Prop :=
  MIN_JULIAN + 200 ≤ local_julian (unix_timestamp_nanos t) 0 ≤ MAX_JULIAN - 200.

Definition offset_ok (off : Z) : Prop := -86400 < off < 86400.

(** The fields of an instant in UTC. *)
Definition utc_fields (t : OffsetDateTime) : Fields :=
  let ns := unix_timestamp_nanos t mod NS_PER_DAY in
  let '(y, m, d) := date_ymd (odt_date (to_offset t 0)) in
  mkFields y m d (ns / (3600 * NS_PER_SEC)) (ns / NS_PER_MINUTE mod 60)
    (ns / NS_PER_SEC mod 60) (ns mod NS_PER_SEC).

(** Years the fixed-width descriptions are meant for. *)
Definition four_digit_year (d : Date) : Prop := let '(y, _, _) := date_ymd d in 0 ≤ y ≤ 9999.

Definition lex3 (a b : Z * Z * Z) : Prop :=
  let '(a1, a2, a3) := a in let '(b1, b2, b3) := b in
  a1 < b1 ∨ (a1 = b1 ∧ (a2 < b2 ∨ (a2 = b2 ∧ a3 < b3))).

Class TimeLaws : Prop := {
  julian_inj (a b : Date) : to_julian_day a = to_julian_day b → a = b;
  date_add_julian d n :
    MIN_JULIAN ≤ to_julian_day d + n ≤ MAX_JULIAN →
    to_julian_day (date_add_days d n) = to_julian_day d + n;
  to_offset_nanos t o :
    instant_ok t → offset_ok o → unix_timestamp_nanos (to_offset t o) = unix_timestamp_nanos t;
  to_offset_date t o :
    instant_ok t → offset_ok o →
    to_julian_day (odt_date (to_offset t o)) = local_julian (unix_timestamp_nanos t) o;
  midnight_nanos d o :
    date_ok d → offset_ok o →
    unix_timestamp_nanos (midnight_assume_offset d o)
      = (to_julian_day d - UNIX_EPOCH_JULIAN) * NS_PER_DAY - o * NS_PER_SEC;
  odt_add_nanos t n :
    MIN_JULIAN + 1 ≤ local_julian (unix_timestamp_nanos t + n) 0 ≤ MAX_JULIAN - 1 →
    unix_timestamp_nanos (odt_add t n) = unix_timestamp_nanos t + n;
  odt_checked_add_nanos t n t' :
    odt_checked_add t n = Some t' → unix_timestamp_nanos t' = unix_timestamp_nanos t + n;
  odt_checked_add_defined t n :
    MIN_JULIAN + 1 ≤ local_julian (unix_timestamp_nanos t + n) 0 ≤ MAX_JULIAN - 1 →
    is_Some (odt_checked_add t n);
  offset_whole_seconds s : offset_ok s → offset_from_whole_seconds s = Some s;
  (** A description of date and time components renders each to its width. *)
  odt_format_render items t :
    instant_ok t → four_digit_year (odt_date (to_offset t 0)) →
    odt_format items (to_offset t 0) = Some (render items (utc_fields t));
  (** Parsing the text of an instant by the complete description, when it
      succeeds, gives that instant back; the same text is ISO 8601. *)
  odt_parse_render t t' :
    instant_ok t → four_digit_year (odt_date (to_offset t 0)) →
    odt_parse UTC_NANO_ITEMS (render UTC_NANO_ITEMS (utc_fields t)) = Some t' →
    unix_timestamp_nanos t' = unix_timestamp_nanos t;
  odt_parse_iso_canonical t :
    instant_ok t → four_digit_year (odt_date (to_offset t 0)) →
    ∃ t', odt_parse_iso (render UTC_NANO_ITEMS (utc_fields t)) = Some t'
      ∧ unix_timestamp_nanos t' = unix_timestamp_nanos t;
  date_display_iso d :
    four_digit_year d →
    date_display d = let '(y, m, dd) := date_ymd d in
      (pad_num 4 y +:+ "-" +:+ pad_num 2 m +:+ "-" +:+ pad_num 2 dd)%string;
  date_parse_display d : four_digit_year d → date_parse_iso (date_display d) = Some d;
  ymd_range d : let '(_, m, dd) := date_ymd d in 1 ≤ m ≤ 12 ∧ 1 ≤ dd ≤ 31;
  ymd_order a b : to_julian_day a < to_julian_day b ↔ lex3 (date_ymd a) (date_ymd b);
}.

End Laws.

Ltac time_consts :=
  unfold NS_PER_DAY, NS_PER_MINUTE, NS_PER_SEC, UNIX_EPOCH_JULIAN, MIN_JULIAN, MAX_JULIAN in *.
