(* ===== verification/Calendar.v ===== *)
(** * An instance of the time interface

    The proleptic Gregorian calendar by day counting, with the fixed-width
    printer and an ISO 8601 reader for four-digit years.  It discharges every
    law of [TimeLib.TimeLaws], so the hypotheses the development makes about the
    [time] crate can hold, and it is what the witnesses compute with. *)

From stdpp Require Import base strings list numbers.
From Stdlib Require Import Ascii ZArith Lia.
From S2P Require Import Prelude TimeLib.

Local Open Scope Z_scope.

(** The Julian day of 0000-01-01. *)
Definition YEAR0_JULIAN : Z := 1721060.

(** Days from 0000-01-01 to the start of a year; year 0 is a leap year. *)
Definition days_before_year (y : Z) : Z := 365 * y + (y + 3) / 4 - (y + 99) / 100 + (y + 399) / 400.

Definition year_of (n : Z) : Z :=
  let y := n * 400 / 146097 in
  if n <? days_before_year y then y - 1
  else if days_before_year (y + 1) <=? n then y + 1 else y.

Definition leap (y : Z) : Z := days_before_year (y + 1) - days_before_year y - 365.

Definition days_before_month (l m : Z) : Z :=
  if m <=? 1 then 0 else if m <=? 2 then 31 else if m <=? 3 then 59 + l else if m <=? 4 then 90 + l
  else if m <=? 5 then 120 + l else if m <=? 6 then 151 + l else if m <=? 7 then 181 + l
  else if m <=? 8 then 212 + l else if m <=? 9 then 243 + l else if m <=? 10 then 273 + l
  else if m <=? 11 then 304 + l else if m <=? 12 then 334 + l else 365 + l.

Definition month_of (l doy : Z) : Z :=
  if doy <? 31 then 1 else if doy <? 59 + l then 2 else if doy <? 90 + l then 3
  else if doy <? 120 + l then 4 else if doy <? 151 + l then 5 else if doy <? 181 + l then 6
  else if doy <? 212 + l then 7 else if doy <? 243 + l then 8 else if doy <? 273 + l then 9
  else if doy <? 304 + l then 10 else if doy <? 334 + l then 11 else 12.

Definition ymd_of_julian (j : Z) : Z * Z * Z :=
  let n := j - YEAR0_JULIAN in
  let y := year_of n in
  let doy := n - days_before_year y in
  let m := month_of (leap y) doy in
  (y, m, doy - days_before_month (leap y) m + 1).

Definition julian_of_ymd (y m d : Z) : Z :=
  days_before_year y + days_before_month (leap y) m + d - 1 + YEAR0_JULIAN.

Lemma days_before_year_approx y :
  146097 * y - 396 ≤ 400 * days_before_year y ≤ 146097 * y + 699.
Proof.
  unfold days_before_year.
  pose proof (Z.div_mod (y + 3) 4). pose proof (Z.mod_pos_bound (y + 3) 4).
  pose proof (Z.div_mod (y + 99) 100). pose proof (Z.mod_pos_bound (y + 99) 100).
  pose proof (Z.div_mod (y + 399) 400). pose proof (Z.mod_pos_bound (y + 399) 400).
  generalize dependent ((y + 3) / 4). generalize dependent ((y + 99) / 100).
  generalize dependent ((y + 399) / 400). intros. lia.
Qed.

Lemma year_of_spec n : days_before_year (year_of n) ≤ n < days_before_year (year_of n + 1).
Proof.
  unfold year_of. set (y := n * 400 / 146097).
  pose proof (Z.div_mod (n * 400) 146097) as D. pose proof (Z.mod_pos_bound (n * 400) 146097). fold y in D.
  pose proof (days_before_year_approx y). pose proof (days_before_year_approx (y + 1)).
  pose proof (days_before_year_approx (y - 1)). pose proof (days_before_year_approx (y + 1 + 1)).
  destruct (Z.ltb_spec n (days_before_year y)); [replace (y - 1 + 1) with y by lia; lia |].
  destruct (Z.leb_spec (days_before_year (y + 1)) n); lia.
Qed.

Lemma days_before_year_cycle q r : days_before_year (400 * q + r) = 146097 * q + days_before_year r.
Proof.
  unfold days_before_year.
  replace (400 * q + r + 3) with (r + 3 + 100 * q * 4) by ring.
  replace (400 * q + r + 99) with (r + 99 + 4 * q * 100) by ring.
  replace (400 * q + r + 399) with (r + 399 + q * 400) by ring.
  rewrite !Z.div_add by lia. lia.
Qed.

(** One 400-year cycle, by computation. *)
Lemma leap_cycle r : 0 ≤ r < 400 → 0 ≤ leap r ≤ 1.
Proof.
  intros Hr.
  assert (forallb (λ k, (0 <=? leap (Z.of_nat k)) && (leap (Z.of_nat k) <=? 1)) (seq 0 400) = true) as F
    by (vm_compute; reflexivity).
  rewrite forallb_forall in F. specialize (F (Z.to_nat r)).
  rewrite Z2Nat.id, andb_true_iff, !Z.leb_le in F by lia. apply F, in_seq. lia.
Qed.

Lemma leap_range y : 0 ≤ leap y ≤ 1.
Proof.
  pose proof (leap_cycle (y mod 400) (Z.mod_pos_bound y 400 ltac:(lia))) as L.
  unfold leap in *. rewrite (Z.div_mod y 400) by lia.
  rewrite <- Z.add_assoc, !days_before_year_cycle. lia.
Qed.

Lemma days_before_year_mono a b : a ≤ b → days_before_year a ≤ days_before_year b.
Proof.
  intros Hab. replace b with (a + Z.of_nat (Z.to_nat (b - a))) by lia.
  induction (Z.to_nat (b - a)) as [|k IH]; [rewrite Z.add_0_r; lia |].
  pose proof (leap_range (a + Z.of_nat k)) as L. unfold leap in L.
  rewrite Nat2Z.inj_succ. unfold Z.succ. rewrite Z.add_assoc. lia.
Qed.

Lemma month_of_spec l doy :
  0 ≤ l ≤ 1 → 0 ≤ doy < 365 + l →
  1 ≤ month_of l doy ≤ 12
  ∧ days_before_month l (month_of l doy) ≤ doy < days_before_month l (month_of l doy + 1).
Proof.
  intros Hl Hd. unfold month_of.
  repeat match goal with |- context [?a <? ?b] => destruct (Z.ltb_spec a b) end;
    unfold days_before_month; simpl; lia.
Qed.

Lemma days_before_month_mono l a b :
  0 ≤ l ≤ 1 → a ≤ b → days_before_month l a ≤ days_before_month l b.
Proof. intros. unfold days_before_month. zcases; lia. Qed.

Lemma month_length l m : 0 ≤ l ≤ 1 → 1 ≤ m ≤ 12 →
  days_before_month l m + 1 ≤ days_before_month l (m + 1) ≤ days_before_month l m + 31.
Proof. intros. unfold days_before_month. zcases; lia. Qed.

Lemma doy_range j :
  let n := j - YEAR0_JULIAN in 0 ≤ n - days_before_year (year_of n) < 365 + leap (year_of n).
Proof. intros n. pose proof (year_of_spec n). unfold leap. lia. Qed.

Lemma ymd_julian j : let '(y, m, d) := ymd_of_julian j in julian_of_ymd y m d = j.
Proof. unfold ymd_of_julian, julian_of_ymd. lia. Qed.

Lemma ymd_of_julian_range j : let '(_, m, d) := ymd_of_julian j in 1 ≤ m ≤ 12 ∧ 1 ≤ d ≤ 31.
Proof.
  unfold ymd_of_julian. set (n := j - YEAR0_JULIAN).
  pose proof (month_of_spec (leap (year_of n)) (n - days_before_year (year_of n)) (leap_range _) (doy_range j)) as [Hm ?].
  pose proof (month_length _ _ (leap_range (year_of n)) Hm). lia.
Qed.

Lemma ymd_of_julian_lt a b : a < b → lex3 (ymd_of_julian a) (ymd_of_julian b).
Proof.
  intros Hab. unfold ymd_of_julian.
  pose proof (doy_range a) as Da. pose proof (doy_range b) as Db. simpl in Da, Db.
  set (na := a - YEAR0_JULIAN) in *. set (nb := b - YEAR0_JULIAN) in *.
  pose proof (year_of_spec na) as Ya. pose proof (year_of_spec nb) as Yb.
  unfold lex3. destruct (Z.lt_trichotomy (year_of na) (year_of nb)) as [|[E|Hgt]]; [by left | right |].
  - rewrite E in *. set (y := year_of nb) in *.
    pose proof (month_of_spec _ _ (leap_range y) Da) as [Ma Ma'].
    pose proof (month_of_spec _ _ (leap_range y) Db) as [Mb Mb'].
    set (ma := month_of (leap y) (na - days_before_year y)) in *.
    set (mb := month_of (leap y) (nb - days_before_year y)) in *.
    split; [done |]. destruct (Z.lt_trichotomy ma mb) as [|[Em|Hgt]]; [by left | right; rewrite Em in *; lia |].
    pose proof (days_before_month_mono (leap y) (mb + 1) ma (leap_range y)). lia.
  - pose proof (days_before_year_mono (year_of nb + 1) (year_of na)). lia.
Qed.

Lemma lex3_asym a b : lex3 a b → ¬ lex3 b a.
Proof. destruct a as [[? ?] ?], b as [[? ?] ?]. unfold lex3. lia. Qed.

Lemma ymd_of_julian_order a b : a < b ↔ lex3 (ymd_of_julian a) (ymd_of_julian b).
Proof.
  split; [apply ymd_of_julian_lt |]. intros Hl.
  destruct (Z.lt_trichotomy a b) as [|[->|Hgt]]; [done | by apply lex3_asym in Hl as ? |].
  apply ymd_of_julian_lt in Hgt. by apply lex3_asym in Hgt.
Qed.

(** ** The instance: an instant is its nanoseconds and its offset *)

Definition cal_fields (ns : Z) : Fields :=
  let '(y, m, d) := ymd_of_julian (local_julian ns 0) in
  let r := ns mod NS_PER_DAY in
  mkFields y m d (r / (3600 * NS_PER_SEC)) (r / NS_PER_MINUTE mod 60)
    (r / NS_PER_SEC mod 60) (r mod NS_PER_SEC).

Definition cal_four_digit (j : Z) : bool := let '(y, _, _) := ymd_of_julian j in (0 <=? y) && (y <=? 9999).

Definition cal_format (items : list FormatItem) (t : Z * Z) : option string :=
  let ns := t.1 + t.2 * NS_PER_SEC in
  if cal_four_digit (local_julian ns 0) then Some (render items (cal_fields ns)) else None.

(** [d1 c d2 c ... rest]: the digit groups before each separator. *)
Fixpoint read_groups (seps : list ascii) (s : string) : option (list Z * string) :=
  match seps with
  | [] => Some ([], s)
  | c :: seps' =>
      '(g, s') ← split_once c s;
      if all_digits g then
        '(gs, rest) ← read_groups seps' s'; Some (dec_value g :: gs, rest)
      else None
  end.

Definition checked_date (y m d : Z) : option Z :=
  let j := julian_of_ymd y m d in
  if bool_decide (ymd_of_julian j = (y, m, d)) then Some j else None.

Definition cal_parse_iso (s : string) : option (Z * Z) :=
  match read_groups ["-"; "-"; "T"; ":"; ":"; "."; "Z"]%char s with
  | Some ([y; m; d; hh; mm; ss; ns], EmptyString) =>
      j ← checked_date y m d;
      if (hh <? 24) && (mm <? 60) && (ss <? 60) && (ns <? NS_PER_SEC) then
        Some ((j - UNIX_EPOCH_JULIAN) * NS_PER_DAY + hh * (3600 * NS_PER_SEC) + mm * NS_PER_MINUTE
              + ss * NS_PER_SEC + ns, 0)
      else None
  | _ => None
  end.

Definition cal_date_parse (s : string) : option Z :=
  match read_groups ["-"; "-"]%char s with
  | Some ([y; m], rest) => if all_digits rest then checked_date y m (dec_value rest) else None
  | _ => None
  end.

Definition cal_date_display (j : Z) : string :=
  let '(y, m, d) := ymd_of_julian j in
  (pad_num 4 y +:+ "-" +:+ pad_num 2 m +:+ "-" +:+ pad_num 2 d)%string.

#[global] Instance Gregorian : TimeCrate := {|
  Date := Z;
  OffsetDateTime := Z * Z;
  to_julian_day j := j;
  unix_timestamp_nanos := fst;
  date_add_days j n := j + n;
  to_offset t o := (t.1, o);
  odt_date t := local_julian t.1 t.2;
  midnight_assume_offset j o := ((j - UNIX_EPOCH_JULIAN) * NS_PER_DAY - o * NS_PER_SEC, o);
  odt_add t n := (t.1 + n, t.2);
  odt_checked_add t n :=
    let j := local_julian (t.1 + n) 0 in
    if in_range (MIN_JULIAN + 1) (MAX_JULIAN - 1) j then Some (t.1 + n, t.2) else None;
  odt_from_unix_timestamp_nanos n :=
    if in_range (MIN_JULIAN + 1) (MAX_JULIAN - 1) (local_julian n 0) then Some (n, 0) else None;
  offset_from_whole_seconds s := if in_range (-86399) 86399 s then Some s else None;
  odt_format := cal_format;
  odt_parse _ _ := None;
  odt_parse_iso := cal_parse_iso;
  date_parse_iso := cal_date_parse;
  date_display := cal_date_display;
  date_ymd := ymd_of_julian;
|}.

Lemma read_groups_cons g c seps s gs rest :
  all_digits g = true → is_ascii_digit c = false → read_groups seps s = Some (gs, rest) →
  read_groups (c :: seps) (g +:+ String c s)%string = Some (dec_value g :: gs, rest).
Proof. intros Hg Hc Hs. simpl. rewrite all_digits_not_char by done. simpl. by rewrite Hg, Hs. Qed.

Lemma pad_num_digits w n : 0 ≤ n → all_digits (pad_num w n) = true.
Proof. intros. by apply pad_left0_digits, dec_string_digits. Qed.

Lemma pad_num_value w n : 0 ≤ n → dec_value (pad_num w n) = n.
Proof. intros. unfold pad_num. by rewrite pad_left0_value, dec_string_value. Qed.

Lemma checked_date_ymd j : let '(y, m, d) := ymd_of_julian j in checked_date y m d = Some j.
Proof.
  pose proof (ymd_julian j) as H. destruct (ymd_of_julian j) as [[y m] d] eqn:E.
  unfold checked_date. rewrite H, E. by rewrite bool_decide_eq_true_2.
Qed.

(** A time of day is its hours, minutes, seconds and nanoseconds. *)
Lemma time_of_day r :
  0 ≤ r < NS_PER_DAY →
  let hh := r / (3600 * NS_PER_SEC) in let mm := r / NS_PER_MINUTE mod 60 in
  let ss := r / NS_PER_SEC mod 60 in let ns := r mod NS_PER_SEC in
  0 ≤ hh < 24 ∧ 0 ≤ mm < 60 ∧ 0 ≤ ss < 60 ∧ 0 ≤ ns < NS_PER_SEC
  ∧ hh * (3600 * NS_PER_SEC) + mm * NS_PER_MINUTE + ss * NS_PER_SEC + ns = r.
Proof.
  intros Hr. cbv zeta.
  replace (r / (3600 * NS_PER_SEC)) with (r / NS_PER_SEC / 60 / 60)
    by (rewrite !Z.div_div by done; f_equal; lia).
  replace (r / NS_PER_MINUTE) with (r / NS_PER_SEC / 60) by (by rewrite Z.div_div).
  pose proof (Z.div_mod r NS_PER_SEC ltac:(done)). pose proof (Z.mod_pos_bound r NS_PER_SEC ltac:(done)).
  assert (0 ≤ r / NS_PER_SEC < 86400).
  { split; [apply Z.div_pos | apply Z.div_lt_upper_bound]; unfold NS_PER_DAY in *; lia || done. }
  set (s := r / NS_PER_SEC) in *. set (ns := r mod NS_PER_SEC) in *. clearbody s ns.
  assert (s / 60 / 60 * 3600 + s / 60 mod 60 * 60 + s mod 60 = s) as E.
  { pose proof (Z.div_mod s 60). pose proof (Z.div_mod (s / 60) 60). lia. }
  assert (0 ≤ s / 60 / 60 < 24).
  { split; [repeat apply Z.div_pos; lia |]. do 2 (apply Z.div_lt_upper_bound; [lia |]). lia. }
  pose proof (Z.mod_pos_bound (s / 60) 60). pose proof (Z.mod_pos_bound s 60).
  split_and!; try lia. transitivity (NS_PER_SEC * (s / 60 / 60 * 3600 + s / 60 mod 60 * 60 + s mod 60) + ns).
  - unfold NS_PER_MINUTE. ring.
  - rewrite E. lia.
Qed.

(** Read the digit groups of a rendered text. *)
Tactic Notation "groups" uconstr(l) :=
  match goal with
  | |- context [read_groups ?s ?t] =>
      eassert (read_groups s t = Some (l, _)) as ->
        by (repeat (apply read_groups_cons; [apply pad_num_digits; lia | done |]); reflexivity)
  end.

Lemma cal_parse_iso_render t :
  (let '(y, _, _) := ymd_of_julian (local_julian t 0) in 0 ≤ y ≤ 9999) →
  cal_parse_iso (render
    [FYear; FLiteral "-"; FMonth; FLiteral "-"; FDay; FLiteral "T"; FHour; FLiteral ":"; FMinute;
     FLiteral ":"; FSecond; FLiteral "."; FSubsecond9; FLiteral "Z"] (cal_fields t)) = Some (t, 0).
Proof.
  intros Hy. unfold cal_fields.
  pose proof (ymd_of_julian_range (local_julian t 0)) as Hr.
  pose proof (checked_date_ymd (local_julian t 0)) as Hc.
  destruct (ymd_of_julian (local_julian t 0)) as [[y m] d].
  pose proof (time_of_day (t mod NS_PER_DAY) ltac:(apply Z.mod_pos_bound; done)) as T.
  cbv zeta in T. destruct T as (Hhh & Hmm & Hss & Hns & Hsum).
  cbv zeta. set (r := t mod NS_PER_DAY) in *.
  set (hh := r / (3600 * NS_PER_SEC)) in *. set (mm := r / NS_PER_MINUTE mod 60) in *.
  set (ss := r / NS_PER_SEC mod 60) in *. set (ns := r mod NS_PER_SEC) in *.
  clearbody hh mm ss ns.
  unfold cal_parse_iso. cbn [render render_item f_year f_month f_day f_hour f_minute f_second f_nano].
  cbn [String.append].
  groups ([_; _; _; _; _; _; _] : list Z).
  rewrite !pad_num_value, Hc by lia. cbn [mbind option_bind].
  assert ((hh <? 24) && (mm <? 60) && (ss <? 60) && (ns <? NS_PER_SEC) = true) as ->
    by (rewrite !andb_true_iff, !Z.ltb_lt; lia).
  do 2 f_equal. unfold local_julian. rewrite Z.mul_0_l, Z.add_0_r.
  pose proof (Z.div_mod t NS_PER_DAY ltac:(done)). lia.
Qed.

Lemma cal_date_parse_display j :
  (let '(y, _, _) := ymd_of_julian j in 0 ≤ y ≤ 9999) →
  cal_date_parse (cal_date_display j) = Some j.
Proof.
  intros Hy. pose proof (ymd_of_julian_range j) as Hr. pose proof (checked_date_ymd j) as Hc.
  unfold cal_date_parse, cal_date_display. destruct (ymd_of_julian j) as [[y m] d].
  change ("-" +:+ pad_num 2 m +:+ "-" +:+ pad_num 2 d)%string
    with (String "-" (pad_num 2 m +:+ String "-" (pad_num 2 d)))%string.
  groups ([_; _] : list Z).
  by rewrite pad_num_digits, !pad_num_value by lia.
Qed.

Lemma local_julian_0 ns : local_julian ns 0 = ns / NS_PER_DAY + UNIX_EPOCH_JULIAN.
Proof. unfold local_julian. by rewrite Z.mul_0_l, Z.add_0_r. Qed.

#[global] Instance GregorianLaws : TimeLaws.
Proof.
  constructor; cbn -[Z.add Z.mul Z.sub in_range ymd_of_julian render local_julian cal_format].
  - done.
  - done.
  - done.
  - done.
  - done.
  - done.
  - intros t n t'. destruct (in_range _ _ _); [|done]. by intros [= <-].
  - intros t n Hr. unfold in_range. rewrite (proj2 (andb_true_iff _ _)); [done |].
    rewrite !Z.leb_le. lia.
  - intros s Hs. unfold in_range, offset_ok in *. rewrite (proj2 (andb_true_iff _ _)); [done |].
    rewrite !Z.leb_le. lia.
  - intros items t _ Hy. unfold cal_format, cal_four_digit, four_digit_year, utc_fields, cal_fields in *.
    cbn -[Z.add Z.mul Z.sub ymd_of_julian render local_julian Z.div Z.modulo NS_PER_DAY NS_PER_MINUTE] in *.
    rewrite Z.mul_0_l, Z.add_0_r. destruct (ymd_of_julian (local_julian t.1 0)) as [[y m] d].
    rewrite (proj2 (andb_true_iff _ _)); [done |]. rewrite !Z.leb_le. lia.
  - done.
  - intros t _ Hy. exists (t.1, 0). split; [|done]. apply (cal_parse_iso_render t.1). exact Hy.
  - intros d _. reflexivity.
  - intros d Hy. by apply cal_date_parse_display.
  - apply ymd_of_julian_range.
  - apply ymd_of_julian_order.
Qed.
