(* ===== verification/Pricing.v ===== *)
(** * Money ([src/src/billing/pricing.rs])

    Micro-dollar amounts and prices as [i64], their parser and printer, and the
    cost of a token count. *)

From stdpp Require Import base strings list numbers.
From Stdlib Require Import Ascii ZArith Lia.
From S2P Require Import Prelude.

Local Open Scope Z_scope.

Definition TOKENS_PER_PRICE_UNIT : Z := 1000000.
Definition PRICE_DECIMAL_PLACES : Z := 6.

Inductive PriceError : Type :=
  | NoPriceSnapshot (column : string)
  | IncompleteUsage
  | CachedExceedsInput (input_tokens cached_tokens : Z)
  | Overflow (context : string)
  | NotANumber (text : string)
  | OutOfRange (text : string).

#[global] Instance PriceError_eq_dec : EqDecision PriceError.
Proof. solve_decision. Defined.

(** [format_micros]: exact division and remainder by the six-place scale. *)
Definition format_micros (micros : Z) : string :=
  let scale := 10 ^ PRICE_DECIMAL_PLACES in
  let negative := micros <? 0 in
  let magnitude := Z.abs micros in
  let whole := magnitude / scale in
  let fraction := magnitude mod scale in
  let out := if negative && ((0 <? whole) || (0 <? fraction)) then "-"%string else ""%string in
  (out +:+ dec_string whole +:+ String "." (pad_left0 (Z.to_nat PRICE_DECIMAL_PLACES) (dec_string fraction)))%string.

(** ** Amounts *)
Module MicroUsd.
Record t : Type := from_i64 { as_i64 : Z }.

#[global] Instance eq_dec : EqDecision t.
Proof. solve_decision. Defined.

Definition ZERO : t := from_i64 0.

Definition checked_add (self other : t) : option t :=
  match i64_checked (as_i64 self + as_i64 other) with
  | Some v => Some (from_i64 v)
  | None => None
  end.

Definition is_zero (self : t) : bool := as_i64 self =? 0.

(** [Display]: the sign outside the unit. *)
Definition display (self : t) : string :=
  let body := format_micros (as_i64 self) in
  match strip_prefix "-" body with
  | Some digits => ("-$" +:+ digits)%string
  | None => String "$" body
  end.
End MicroUsd.

(** ** Prices *)
Module PricePerMillion.
Record t : Type := new { as_i64 : Z }.

#[global] Instance eq_dec : EqDecision t.
Proof. solve_decision. Defined.

Definition ZERO : t := new 0.
Definition is_zero (self : t) : bool := as_i64 self =? 0.

(** The loop over the whole part: [checked_mul(10)] then [checked_add]. *)
Fixpoint parse_whole (whole_value : Z) (s : string) : option Z :=
  match s with
  | EmptyString => Some whole_value
  | String b s' =>
      match i128_checked (whole_value * 10) with
      | Some v =>
          match i128_checked (v + digit_value b) with
          | Some v' => parse_whole v' s'
          | None => None
          end
      | None => None
      end
  end.

(** The loop over the fraction: plain [+=] on [i128], a break at the seventh digit. *)
Fixpoint parse_fraction (seen : Z) (micros : Z) (s : string) : Z :=
  match s with
  | EmptyString => micros
  | String b s' =>
      if seen <? PRICE_DECIMAL_PLACES then
        parse_fraction (seen + 1)
          (i128_wrap (micros + digit_value b * 10 ^ (PRICE_DECIMAL_PLACES - seen - 1))) s'
      else if 5 <=? digit_value b then i128_wrap (micros + 1)
      else micros
  end.

Definition parse (text : string) : result t PriceError :=
  let '(whole, fraction) :=
    match split_once "." text with
    | Some (whole, fraction) => (whole, Some fraction)
    | None => (text, None)
    end in
  let whole_digits := all_digits whole in
  let fraction_digits :=
    match fraction with
    | Some f => if str_is_empty f then false else all_digits f
    | None => true
    end in
  if negb whole_digits || negb fraction_digits
     || (str_is_empty whole && match fraction with None => true | Some _ => false end)
  then Err (NotANumber text)
  else
    let? whole_value := ok_or (parse_whole 0 whole) (OutOfRange text) in
    let? micros := ok_or (i128_checked (whole_value * 10 ^ PRICE_DECIMAL_PLACES)) (OutOfRange text) in
    let micros := parse_fraction 0 micros (default ""%string fraction) in
    let? v := ok_or (i64_checked micros) (OutOfRange text) in
    Ok (new v).

Definition to_decimal_string (self : t) : string :=
  let rendered := format_micros (as_i64 self) in
  let trimmed := trim_end_matches "0" rendered in
  default trimmed (strip_suffix_char "." trimmed).

Definition display (self : t) : string := format_micros (as_i64 self).
End PricePerMillion.

(** ** Price snapshots *)
Module PricingSnapshot.
Record t : Type := new {
  input : PricePerMillion.t;
  cached_input : PricePerMillion.t;
  output : PricePerMillion.t }.

#[global] Instance eq_dec : EqDecision t.
Proof. solve_decision. Defined.

Definition as_tuple (self : t) : Z * Z * Z :=
  (PricePerMillion.as_i64 (input self), PricePerMillion.as_i64 (cached_input self),
   PricePerMillion.as_i64 (output self)).

Definition require (value : option Z) (column : string) : result Z PriceError :=
  ok_or value (NoPriceSnapshot column).

Definition from_columns (input cached_input output : option Z) : result t PriceError :=
  let? i := require input "input_price_snapshot" in
  let? c := require cached_input "cached_input_price_snapshot" in
  let? o := require output "output_price_snapshot" in
  Ok (new (PricePerMillion.new i) (PricePerMillion.new c) (PricePerMillion.new o)).
End PricingSnapshot.

(** ** The cost of a token count *)
Definition component_cost (tokens : Z) (price : PricePerMillion.t) : result MicroUsd.t PriceError :=
  let overflow := Overflow "pricing a token count" in
  let? product := ok_or (i128_checked (tokens * PricePerMillion.as_i64 price)) overflow in
  let? doubled := ok_or (i128_checked (product * 2)) overflow in
  let? biased := ok_or (i128_checked (doubled + TOKENS_PER_PRICE_UNIT)) overflow in
  let rounded := Z.quot biased (TOKENS_PER_PRICE_UNIT * 2) in
  let? v := ok_or (i64_checked rounded) overflow in
  Ok (MicroUsd.from_i64 v).

Definition components (input_tokens cached_input_tokens output_tokens : Z)
    (prices : PricingSnapshot.t) : result (MicroUsd.t * MicroUsd.t * MicroUsd.t) PriceError :=
  if input_tokens <? cached_input_tokens then
    Err (CachedExceedsInput input_tokens cached_input_tokens)
  else
    let uncached := input_tokens - cached_input_tokens in
    let? a := component_cost uncached (PricingSnapshot.input prices) in
    let? b := component_cost cached_input_tokens (PricingSnapshot.cached_input prices) in
    let? c := component_cost output_tokens (PricingSnapshot.output prices) in
    Ok (a, b, c).

Module LineCost.
Record t : Type := mk {
  uncached_input_tokens : Z;
  input_cost : MicroUsd.t;
  cached_input_cost : MicroUsd.t;
  output_cost : MicroUsd.t;
  total : MicroUsd.t }.

#[global] Instance eq_dec : EqDecision t.
Proof. solve_decision. Defined.

(** [LineCost::total], the constructor that adds the parts. *)
Definition of_parts (input_cost cached_input_cost output_cost : MicroUsd.t)
    (uncached_input_tokens : Z) : result t PriceError :=
  let? total :=
    ok_or (MicroUsd.checked_add input_cost cached_input_cost
             ≫= λ v, MicroUsd.checked_add v output_cost)
          (Overflow "adding up a line's component costs") in
  Ok (mk uncached_input_tokens input_cost cached_input_cost output_cost total).
End LineCost.

Definition price_line (input_tokens cached_input_tokens output_tokens : Z)
    (prices : PricingSnapshot.t) : result LineCost.t PriceError :=
  let? (ic, cc, oc) := components input_tokens cached_input_tokens output_tokens prices in
  LineCost.of_parts ic cc oc (input_tokens - cached_input_tokens).

Definition billable (input_tokens output_tokens cached_input_tokens : option Z)
    : result (Z * Z * Z) PriceError :=
  match input_tokens with
  | None => Err IncompleteUsage
  | Some input_tokens =>
      match output_tokens with
      | None => Err IncompleteUsage
      | Some output_tokens => Ok (input_tokens, output_tokens, default 0 cached_input_tokens)
      end
  end.

Definition needs_cached_count (prices : PricingSnapshot.t) : bool :=
  bool_decide (PricingSnapshot.cached_input prices ≠ PricingSnapshot.input prices).

Example parse_examples :
  PricePerMillion.parse "0.095" = Ok (PricePerMillion.new 95000)
  ∧ PricePerMillion.parse ".095" = Ok (PricePerMillion.new 95000)
  ∧ PricePerMillion.parse "1.0000005" = Ok (PricePerMillion.new 1000001)
  ∧ PricePerMillion.parse "5." = Err (NotANumber "5.")
  ∧ PricePerMillion.to_decimal_string (PricePerMillion.new 95000) = "0.095"%string
  ∧ PricePerMillion.to_decimal_string (PricePerMillion.new 0) = "0"%string
  ∧ MicroUsd.display (MicroUsd.from_i64 (-95000)) = "-$0.095000"%string.
Proof. vm_compute. repeat split. Qed.

(** ** Rounding

    [half_up n d] is [n / d] rounded to the nearest integer, a tie upward: half
    away from zero on the non-negative quotients of this module. *)
Definition half_up (n d : Z) : Z := (2 * n + d) / (2 * d).

Lemma half_up_nearest n d : 0 < d → 2 * Z.abs (d * half_up n d - n) ≤ d.
Proof.
  intros Hd. unfold half_up.
  pose proof (Z.div_mod (2 * n + d) (2 * d)). pose proof (Z.mod_pos_bound (2 * n + d) (2 * d)). nia.
Qed.

Lemma half_up_tie n d : 0 < d → 2 * n < d * (2 * half_up n d + 1).
Proof.
  intros Hd. unfold half_up.
  pose proof (Z.div_mod (2 * n + d) (2 * d)). pose proof (Z.mod_pos_bound (2 * n + d) (2 * d)). nia.
Qed.

Lemma half_up_nonneg n d : 0 ≤ n → 0 < d → 0 ≤ half_up n d.
Proof. intros. apply Z.div_pos; lia. Qed.

Lemma half_up_add k n d : 0 < d → half_up (k * d + n) d = k + half_up n d.
Proof.
  intros. unfold half_up. replace (2 * (k * d + n) + d) with (2 * n + d + k * (2 * d)) by ring.
  rewrite Z.div_add by lia. lia.
Qed.

Lemma half_up_scale c n d : 0 < c → 0 < d → half_up (c * n) (c * d) = half_up n d.
Proof.
  intros. unfold half_up.
  replace (2 * (c * n) + c * d) with (c * (2 * n + d)) by ring.
  replace (2 * (c * d)) with (c * (2 * d)) by ring. by apply Z.div_mul_cancel_l; lia.
Qed.

Lemma half_up_mono n m d : 0 < d → n ≤ m → half_up n d ≤ half_up m d.
Proof. intros. apply Z.div_le_mono; lia. Qed.

Lemma half_up_exact k d : 0 < d → half_up (k * d) d = k.
Proof.
  intros. rewrite <- (Z.add_0_r (k * d)), half_up_add by done.
  unfold half_up. rewrite Z.div_small; lia.
Qed.

(** ** The price parser against exact decimal arithmetic *)

(** The decimal a price text denotes: all its digits as one integer and how
    many of them follow the point; [None] for a text that is not one. *)
Definition decimal_value (text : string) : option (Z * nat) :=
  match split_once "." text with
  | Some (w, f) =>
      if all_digits w && all_digits f && negb (str_is_empty f)
      then Some (dec_value (w +:+ f), String.length f) else None
  | None =>
      if all_digits text && negb (str_is_empty text) then Some (dec_value text, 0%nat) else None
  end.

(** The exact price in micro-dollars per million, rounded half away from zero. *)
Definition micros_of_decimal (V : Z) (n : nat) : Z := half_up (V * 10 ^ 6) (10 ^ Z.of_nat n).

Lemma parse_whole_spec s v :
  all_digits s = true → 0 ≤ v ≤ i128_max →
  PricePerMillion.parse_whole v s =
    (if dec_value_from v s <=? i128_max then Some (dec_value_from v s) else None).
Proof.
  revert v. induction s as [|c s IH]; intros v Hs Hv; cbn [PricePerMillion.parse_whole dec_value_from].
  { destruct (Z.leb_spec v i128_max); [done | lia]. }
  unfold all_digits in Hs; simpl in Hs. apply andb_true_iff in Hs as [Hc%is_ascii_digit_range Hs].
  assert (v * 10 + digit_value c ≤ dec_value_from (v * 10 + digit_value c) s) as Hge.
  { rewrite dec_value_from_shift. pose proof (dec_value_bounds s Hs).
    assert (1 ≤ 10 ^ Z.of_nat (String.length s)) by lia. nia. }
  unfold i128_checked at 1. destruct (decide (v * 10 ≤ i128_max)).
  - rewrite checked_in by (ranges; lia). unfold i128_checked.
    destruct (decide (v * 10 + digit_value c ≤ i128_max)).
    + rewrite checked_in by (ranges; lia). apply IH; [done | lia].
    + rewrite checked_out by (ranges; lia). destruct (Z.leb_spec (dec_value_from (v * 10 + digit_value c) s) i128_max); [lia | done].
  - rewrite checked_out by (ranges; lia). destruct (Z.leb_spec (dec_value_from (v * 10 + digit_value c) s) i128_max); [lia | done].
Qed.

(** The fraction loop adds the rounded fraction, modulo the width of [i128]. *)
Lemma half_up_digit d D n k :
  0 ≤ d → 0 ≤ D < 10 ^ n → 0 ≤ n → 0 < k →
  half_up ((d * 10 ^ n + D) * 10 ^ k) (10 ^ (n + 1)) = d * 10 ^ (k - 1) + half_up (D * 10 ^ (k - 1)) (10 ^ n).
Proof.
  intros Hd HD Hn Hk.
  replace k with (k - 1 + 1) at 1 by lia. rewrite !Z.pow_add_r by lia. change (10 ^ 1) with 10.
  replace ((d * 10 ^ n + D) * (10 ^ (k - 1) * 10)) with (10 * (d * 10 ^ (k - 1) * 10 ^ n + D * 10 ^ (k - 1))) by ring.
  rewrite (Z.mul_comm (10 ^ n)), half_up_scale by lia. by rewrite half_up_add by lia.
Qed.

Lemma half_up_last d D n :
  0 ≤ d ≤ 9 → 0 ≤ D < 10 ^ n → 0 ≤ n →
  half_up (d * 10 ^ n + D) (10 ^ (n + 1)) = if 5 <=? d then 1 else 0.
Proof.
  intros Hd HD Hn. unfold half_up. rewrite Z.pow_add_r by lia. change (10 ^ 1) with 10.
  destruct (Z.leb_spec 5 d).
  - symmetry. apply Z.div_unique with (2 * (d * 10 ^ n + D) - 10 * 10 ^ n); nia.
  - apply Z.div_small. nia.
Qed.

Lemma parse_fraction_spec s seen m :
  all_digits s = true → 0 ≤ seen ≤ 6 → i128_min ≤ m ≤ i128_max →
  PricePerMillion.parse_fraction seen m s =
    i128_wrap (m + half_up (dec_value s * 10 ^ (6 - seen)) (10 ^ Z.of_nat (String.length s))).
Proof.
  revert seen m. induction s as [|c s IH]; intros seen m Hs Hseen Hm.
  { cbn [PricePerMillion.parse_fraction String.length]. change (dec_value "") with 0.
    rewrite Z.mul_0_l. change (half_up 0 (10 ^ Z.of_nat 0)) with 0.
    by rewrite Z.add_0_r, i128_wrap_id by lia. }
  cbn [PricePerMillion.parse_fraction]. unfold PRICE_DECIMAL_PLACES.
  unfold all_digits in Hs; simpl in Hs. apply andb_true_iff in Hs as [Hc%is_ascii_digit_range Hs].
  pose proof (dec_value_bounds s Hs) as HD.
  rewrite dec_value_cons. cbn [String.length]. rewrite Nat2Z.inj_succ. unfold Z.succ.
  destruct (Z.ltb_spec seen 6).
  - rewrite IH; [| done | lia |].
    + unfold i128_wrap at 1 3. rewrite wrap_signed_add. f_equal.
      rewrite half_up_digit by lia.
      replace (6 - (seen + 1)) with (6 - seen - 1) by lia. lia.
    + unfold i128_wrap, wrap_signed. ranges.
      pose proof (Z.mod_pos_bound (m + digit_value c * 10 ^ (6 - seen - 1) + 2 ^ (128 - 1)) (2 ^ 128)).
      change (2 ^ (128 - 1)) with 170141183460469231731687303715884105728 in *.
      change (2 ^ 128) with 340282366920938463463374607431768211456 in *. lia.
  - replace seen with 6 by lia. rewrite Z.mul_1_r, half_up_last by lia.
    destruct (5 <=? digit_value c); [done |]. by rewrite Z.add_0_r, i128_wrap_id by lia.
Qed.

Lemma half_up_fraction_le D n : 0 ≤ D < 10 ^ Z.of_nat n → 0 ≤ half_up (D * 10 ^ 6) (10 ^ Z.of_nat n) ≤ 10 ^ 6.
Proof.
  intros HD. split; [apply half_up_nonneg; lia |].
  transitivity (half_up (10 ^ 6 * 10 ^ Z.of_nat n) (10 ^ Z.of_nat n)).
  - apply half_up_mono; lia.
  - rewrite half_up_exact; lia.
Qed.

(** Past the whole part: the narrowing decides exactly as it would without the
    wrap-around of the last additions. *)
Lemma narrow_wrapped m e :
  0 ≤ m ≤ i128_max → 0 ≤ e ≤ 10 ^ 6 → i64_checked (i128_wrap (m + e)) = i64_checked (m + e).
Proof.
  intros Hm He. destruct (decide (m + e ≤ i128_max)).
  - by rewrite i128_wrap_id by (ranges; lia).
  - unfold i128_wrap. rewrite wrap_signed_over by (ranges; simpl; lia).
    unfold i64_checked. rewrite !checked_out; [done | |]; ranges;
      change (2 ^ 128) with 340282366920938463463374607431768211456; lia.
Qed.

(** The branch the parser takes on a well-formed [w.f] (or [w] with [f] empty). *)
Lemma parse_digits_spec w f text :
  all_digits w = true → all_digits f = true →
  (let? whole_value := ok_or (PricePerMillion.parse_whole 0 w) (OutOfRange text) in
   let? micros := ok_or (i128_checked (whole_value * 10 ^ PRICE_DECIMAL_PLACES)) (OutOfRange text) in
   let? v := ok_or (i64_checked (PricePerMillion.parse_fraction 0 micros f)) (OutOfRange text) in
   Ok (PricePerMillion.new v))
  = (let? v := ok_or (i64_checked (micros_of_decimal (dec_value (w +:+ f)) (String.length f))) (OutOfRange text) in
     Ok (PricePerMillion.new v)).
Proof.
  intros Hw Hf. pose proof (dec_value_bounds w Hw). pose proof (dec_value_bounds f Hf) as HD.
  unfold micros_of_decimal. rewrite dec_value_app.
  replace ((dec_value w * 10 ^ Z.of_nat (String.length f) + dec_value f) * 10 ^ 6)
    with (dec_value w * 10 ^ 6 * 10 ^ Z.of_nat (String.length f) + dec_value f * 10 ^ 6) by ring.
  rewrite half_up_add by lia.
  pose proof (half_up_fraction_le (dec_value f) _ HD) as HF.
  set (F := half_up _ _) in *. rewrite parse_whole_spec; [| done | ranges; lia].
  fold (dec_value w). unfold PRICE_DECIMAL_PLACES.
  assert (¬ (dec_value w * 10 ^ 6 ≤ i128_max) → i64_checked (dec_value w * 10 ^ 6 + F) = None) as Hbig.
  { intros. apply checked_out. ranges. lia. }
  destruct (Z.leb_spec (dec_value w) i128_max); cbn [ok_or].
  - unfold i128_checked. destruct (decide (dec_value w * 10 ^ 6 ≤ i128_max)).
    + rewrite checked_in by (ranges; lia). cbn [ok_or].
      rewrite parse_fraction_spec; [| done | lia | ranges; lia]. change (6 - 0) with 6. fold F.
      by rewrite narrow_wrapped by lia.
    + rewrite checked_out by (ranges; lia). by rewrite Hbig.
  - rewrite Hbig; [done | ranges; lia].
Qed.

(** [PricePerMillion::parse] is exact decimal arithmetic: it accepts just the
    plain unsigned decimals (a leading point allowed, a trailing one not), its
    value is the written amount rounded half away from zero to the micro-dollar,
    and it answers [OutOfRange] just when that value does not fit in [i64], also
    where the intermediate [i128] would overflow. *)
Theorem parse_spec (text : string) :
  PricePerMillion.parse text =
    match decimal_value text with
    | None => Err (NotANumber text)
    | Some (V, n) =>
        match i64_checked (micros_of_decimal V n) with
        | Some v => Ok (PricePerMillion.new v)
        | None => Err (OutOfRange text)
        end
    end.
Proof.
  unfold PricePerMillion.parse, decimal_value.
  destruct (split_once "." text) as [[w f]|].
  - destruct (all_digits w) eqn:Hw, (all_digits f) eqn:Hf, (str_is_empty f) eqn:Ef;
      cbn [negb orb andb]; rewrite ?andb_false_r; try done.
    etrans; [exact (parse_digits_spec w f text Hw Hf) |]. by destruct (i64_checked _).
  - destruct (all_digits text) eqn:Hw, (str_is_empty text) eqn:Ef; cbn [negb orb andb]; try done.
    etrans; [exact (parse_digits_spec text "" text Hw eq_refl) |].
    rewrite str_app_nil_r. by destruct (i64_checked _).
Qed.

(** ** Printing *)

Lemma format_micros_nonneg m :
  0 ≤ m →
  format_micros m =
    (dec_string (m / 10 ^ 6) +:+ String "." (pad_left0 6 (dec_string (m mod 10 ^ 6))))%string.
Proof.
  intros Hm. unfold format_micros, PRICE_DECIMAL_PLACES. rewrite Z.abs_eq by done.
  by destruct (Z.ltb_spec m 0); [lia |].
Qed.

(** The digits printed denote the amount, six of them after the point. *)
Lemma format_micros_digits m :
  0 ≤ m →
  let w := dec_string (m / 10 ^ 6) in
  let f := pad_left0 6 (dec_string (m mod 10 ^ 6)) in
  all_digits w = true ∧ w ≠ ""%string ∧ all_digits f = true ∧ String.length f = 6%nat
  ∧ dec_value w = m / 10 ^ 6 ∧ dec_value f = m mod 10 ^ 6.
Proof.
  intros Hm w f. pose proof (Z.mod_pos_bound m (10 ^ 6)).
  assert (0 ≤ m / 10 ^ 6) by (apply Z.div_pos; lia).
  subst w f. split_and!; eauto using dec_string_nonempty with strings.
  - apply pad_left0_digits, dec_string_digits; lia.
  - apply pad_left0_length, dec_string_length; simpl; lia.
  - by apply dec_string_value.
  - rewrite pad_left0_value. apply dec_string_value; lia.
Qed.

(** The trimmed decimal reads back as the value it was printed from. *)
Lemma trimmed_decimal_value m :
  0 ≤ m →
  ∃ V n, decimal_value (PricePerMillion.to_decimal_string (PricePerMillion.new m)) = Some (V, n)
    ∧ V * 10 ^ 6 = m * 10 ^ Z.of_nat n.
Proof.
  intros Hm. destruct (format_micros_digits m Hm) as (Hw & Hwne & Hf & Hlen & Vw & Vf).
  unfold PricePerMillion.to_decimal_string. cbn [PricePerMillion.as_i64].
  rewrite format_micros_nonneg by done.
  set (w := dec_string _) in *. set (f := pad_left0 6 _) in *.
  rewrite trim_end_app by done.
  destruct (trim_end_spec "0" f) as [k Hk]. set (t := trim_end_matches "0" f) in *.
  assert (all_digits t = true) as Ht.
  { rewrite Hk in Hf. unfold all_digits in *. rewrite str_all_app in Hf. by apply andb_true_iff in Hf as [? _]. }
  assert (String.length t + k = 6)%nat as Hsum.
  { rewrite <- Hlen, Hk, str_length_app, str_length_repeat. done. }
  assert (dec_value f = dec_value t * 10 ^ Z.of_nat k) as Vt.
  { rewrite Hk, dec_value_app, dec_value_repeat0, str_length_repeat. lia. }
  pose proof (Z.div_mod m (10 ^ 6)).
  destruct (str_is_empty t) eqn:Et.
  - apply str_is_empty_spec in Et. rewrite Et in *. rewrite strip_suffix_char_app. cbn [default from_option id].
    unfold decimal_value. rewrite split_once_None, Hw by done.
    destruct w eqn:Ew; [done |]. cbn [andb negb str_is_empty]. rewrite <- Ew in *.
    exists (dec_value w), 0%nat. split; [done |]. change (dec_value "") with 0 in Vt. lia.
  - replace (w +:+ String "." t)%string with ((w +:+ String "." "") +:+ t)%string
      by (by rewrite str_app_assoc).
    rewrite strip_suffix_char_None; [| by intros -> | done | done]. cbn [default from_option id].
    rewrite str_app_assoc. cbn [String.append].
    unfold decimal_value. rewrite all_digits_not_char, Hw, Ht, Et by done. cbn [andb negb].
    eexists _, _. split; [done |]. rewrite dec_value_app, Vw.
    assert (10 ^ 6 = 10 ^ Z.of_nat (String.length t) * 10 ^ Z.of_nat k) as Hp.
    { rewrite <- Z.pow_add_r by lia. f_equal. lia. }
    rewrite H at 2 by lia. rewrite Vf in Vt. rewrite Vt. rewrite Hp at 2 3. ring.
Qed.

(** Round trip: the decimal text a stored price is shown as parses back to
    that price, for every non-negative [i64]. *)
Theorem parse_to_decimal_string (m : Z) (Hm : 0 ≤ m ≤ i64_max) :
  PricePerMillion.parse (PricePerMillion.to_decimal_string (PricePerMillion.new m))
  = Ok (PricePerMillion.new m).
Proof.
  destruct (trimmed_decimal_value m) as (V & n & E & HV); [lia |].
  rewrite parse_spec, E. unfold micros_of_decimal. rewrite HV, half_up_exact by lia.
  unfold i64_checked. by rewrite checked_in by (ranges; lia).
Qed.

Lemma parse_to_decimal_string_witness :
  (0 ≤ 2375 ≤ i64_max)
  ∧ PricePerMillion.parse (PricePerMillion.to_decimal_string (PricePerMillion.new 2375))
    = Ok (PricePerMillion.new 2375).
Proof. split; [concrete |]. apply (parse_to_decimal_string 2375). concrete. Defined.

(** ** Costs *)

Lemma component_cost_spec t p :
  is_u64 t → 0 ≤ p ≤ i64_max →
  component_cost t (PricePerMillion.new p) =
    match i64_checked (half_up (t * p) (10 ^ 6)) with
    | Some v => Ok (MicroUsd.from_i64 v)
    | None => Err (Overflow "pricing a token count")
    end.
Proof.
  intros Ht Hp. unfold component_cost, TOKENS_PER_PRICE_UNIT. cbn [PricePerMillion.as_i64].
  assert (0 ≤ t * p ≤ u64_max * i64_max) as Hb by (ranges; nia).
  assert (2 * t * p + 10 ^ 6 ≤ i128_max ∨ i64_max < half_up (t * p) (10 ^ 6)) as Hfit.
  { destruct (decide (2 * t * p + 10 ^ 6 ≤ i128_max)) as [|Hbig]; [by left | right].
    apply Z.lt_le_trans with (half_up ((i64_max + 1) * 10 ^ 6) (10 ^ 6)).
    - rewrite half_up_exact; lia.
    - apply half_up_mono; ranges; lia. }
  unfold i128_checked at 1. rewrite checked_in by (ranges; lia). cbn [ok_or].
  change (1000000 * 2) with (2 * 10 ^ 6). change 1000000 with (10 ^ 6).
  assert (Hq : 2 * t * p + 10 ^ 6 ≤ i128_max →
    Z.quot (t * p * 2 + 10 ^ 6) (2 * 10 ^ 6) = half_up (t * p) (10 ^ 6)).
  { intros. rewrite Z.quot_div_nonneg by lia. unfold half_up. f_equal. lia. }
  unfold i128_checked. destruct Hfit as [Hfit | Hover].
  - rewrite checked_in by (ranges; lia). cbn [ok_or].
    rewrite checked_in by (ranges; lia). cbn [ok_or]. rewrite Hq by done. by destruct (i64_checked _).
  - unfold i64_checked at 2. rewrite (checked_out i64_min) by lia.
    unfold checked. destruct (in_range _ _ (t * p * 2)) eqn:E1; [cbn [ok_or] | done].
    destruct (in_range _ _ (t * p * 2 + 10 ^ 6)) eqn:E2; [cbn [ok_or] | done].
    unfold in_range in E2. rewrite andb_true_iff, !Z.leb_le in E2.
    rewrite Hq by lia. unfold i64_checked. by rewrite checked_out by lia.
Qed.

Lemma checked_add_Some a b c :
  MicroUsd.checked_add a b = Some c ↔
  c = MicroUsd.from_i64 (MicroUsd.as_i64 a + MicroUsd.as_i64 b) ∧ is_i64 (MicroUsd.as_i64 a + MicroUsd.as_i64 b).
Proof.
  unfold MicroUsd.checked_add, i64_checked, is_i64.
  destruct (checked _ _ _) as [v|] eqn:E.
  - apply checked_Some in E as [-> ?]. naive_solver.
  - apply checked_None in E. naive_solver.
Qed.

(** An accepted component cost is the nearest whole micro-dollar to
    [tokens * price / 10^6], a tie going away from zero, and it is a
    non-negative [i64]; a token count is refused only when that amount does not
    fit in [i64], never because an intermediate product overflowed. *)
Theorem component_cost_nearest (t p : Z) (Ht : is_u64 t) (Hp : 0 ≤ p ≤ i64_max) :
  match component_cost t (PricePerMillion.new p) with
  | Ok c =>
      0 ≤ MicroUsd.as_i64 c ≤ i64_max
      ∧ 2 * Z.abs (10 ^ 6 * MicroUsd.as_i64 c - t * p) ≤ 10 ^ 6
      ∧ 2 * (t * p) < 10 ^ 6 * (2 * MicroUsd.as_i64 c + 1)
  | Err e =>
      e = Overflow "pricing a token count" ∧ 10 ^ 6 * (2 * i64_max + 1) ≤ 2 * (t * p)
  end.
Proof.
  rewrite component_cost_spec by done.
  assert (0 ≤ half_up (t * p) (10 ^ 6)) by (apply half_up_nonneg; unfold is_u64 in *; nia).
  pose proof (half_up_nearest (t * p) (10 ^ 6)). pose proof (half_up_tie (t * p) (10 ^ 6)).
  destruct (i64_checked _) as [v|] eqn:E; cbn [MicroUsd.as_i64].
  - apply checked_Some in E as [-> ?]. split_and!; lia.
  - apply checked_None in E. split; [done |]. ranges. lia.
Qed.

Lemma component_cost_nearest_witness :
  is_u64 3 ∧ 0 ≤ 500000 ≤ i64_max ∧ component_cost 3 (PricePerMillion.new 500000) = Ok (MicroUsd.from_i64 2)
  ∧ 2 * Z.abs (10 ^ 6 * 2 - 3 * 500000) ≤ 10 ^ 6.
Proof.
  split; [concrete |]. split; [concrete |]. split; [reflexivity |].
  pose proof (component_cost_nearest 3 500000 ltac:(concrete) ltac:(concrete)) as (_ & H & _). exact H.
Defined.

(** The prices of a snapshot as the schema stores them. *)
Definition prices_ok (s : PricingSnapshot.t) : Prop :=
  let '(i, c, o) := PricingSnapshot.as_tuple s in
  0 ≤ i ≤ i64_max ∧ 0 ≤ c ≤ i64_max ∧ 0 ≤ o ≤ i64_max.

Lemma price_line_eq (i c o : Z) (s : PricingSnapshot.t)
    (Hi : is_u64 i) (Hc : is_u64 c) (Ho : is_u64 o) (Hs : prices_ok s) :
  let cost t p := half_up (t * PricePerMillion.as_i64 p) (10 ^ 6) in
  let ic := cost (i - c) (PricingSnapshot.input s) in
  let cc := cost c (PricingSnapshot.cached_input s) in
  let oc := cost o (PricingSnapshot.output s) in
  price_line i c o s =
    if i <? c then Err (CachedExceedsInput i c)
    else if (i64_max <? ic) || (i64_max <? cc) || (i64_max <? oc) then Err (Overflow "pricing a token count")
    else if i64_max <? ic + cc + oc then Err (Overflow "adding up a line's component costs")
    else Ok (LineCost.mk (i - c) (MicroUsd.from_i64 ic) (MicroUsd.from_i64 cc)
               (MicroUsd.from_i64 oc) (MicroUsd.from_i64 (ic + cc + oc))).
Proof.
  destruct s as [[pi] [pc] [po]]. destruct Hs as (Hpi & Hpc & Hpo).
  cbn [PricingSnapshot.input PricingSnapshot.cached_input PricingSnapshot.output PricePerMillion.as_i64] in *.
  unfold price_line, components. destruct (Z.ltb_spec i c); [done |].
  cbn -[Z.mul Z.add Z.sub half_up Z.pow component_cost].
  rewrite !component_cost_spec by (unfold is_u64 in *; lia).
  assert (∀ t p, 0 ≤ t → 0 ≤ p → 0 ≤ half_up (t * p) (10 ^ 6)) as Hnn by (intros; apply half_up_nonneg; nia).
  pose proof (Hnn (i - c) pi ltac:(lia) ltac:(lia)).
  pose proof (Hnn c pc (proj1 Hc) ltac:(lia)). pose proof (Hnn o po (proj1 Ho) ltac:(lia)).
  generalize dependent (half_up ((i - c) * pi) (10 ^ 6)). intros ic ?.
  generalize dependent (half_up (c * pc) (10 ^ 6)). intros cc ?.
  generalize dependent (half_up (o * po) (10 ^ 6)). intros oc ?.
  assert (∀ z, 0 ≤ z → i64_checked z = if i64_max <? z then None else Some z) as Hchk.
  { intros z ?. unfold i64_checked. destruct (Z.ltb_spec i64_max z);
      [apply checked_out | apply checked_in]; ranges; lia. }
  rewrite !Hchk by done.
  destruct (Z.ltb_spec i64_max ic); [done |]. destruct (Z.ltb_spec i64_max cc); [done |].
  destruct (Z.ltb_spec i64_max oc); [done |]. cbn [orb].
  unfold LineCost.of_parts, MicroUsd.checked_add. cbn [MicroUsd.as_i64].
  rewrite (Hchk (ic + cc)) by lia. destruct (Z.ltb_spec i64_max (ic + cc)); simpl.
  - destruct (Z.ltb_spec i64_max (ic + cc + oc)); [done | lia].
  - rewrite (Hchk (ic + cc + oc)) by lia. by destruct (Z.ltb_spec i64_max (ic + cc + oc)).
Qed.

(** C13. A priced line, on every branch: more cached than input tokens is
    refused; otherwise the uncached part of the prompt is charged at the input
    price and the cached part at the cached price, each token once, each
    component rounded on its own, and the total is exactly the sum of the three
    components; an amount past [i64] is refused and nothing is charged. *)
Theorem price_line_spec (i c o : Z) (s : PricingSnapshot.t)
    (Hi : is_u64 i) (Hc : is_u64 c) (Ho : is_u64 o) (Hs : prices_ok s) :
  let cost t p := half_up (t * PricePerMillion.as_i64 p) (10 ^ 6) in
  let ic := cost (i - c) (PricingSnapshot.input s) in
  let cc := cost c (PricingSnapshot.cached_input s) in
  let oc := cost o (PricingSnapshot.output s) in
  price_line i c o s =
    if i <? c then Err (CachedExceedsInput i c)
    else if (i64_max <? ic) || (i64_max <? cc) || (i64_max <? oc) then Err (Overflow "pricing a token count")
    else if i64_max <? ic + cc + oc then Err (Overflow "adding up a line's component costs")
    else Ok (LineCost.mk (i - c) (MicroUsd.from_i64 ic) (MicroUsd.from_i64 cc)
               (MicroUsd.from_i64 oc) (MicroUsd.from_i64 (ic + cc + oc))).
Proof. by apply price_line_eq. Qed.

Lemma price_line_spec_witness :
  let s := PricingSnapshot.new (PricePerMillion.new 2500000) (PricePerMillion.new 1250000) (PricePerMillion.new 10000000) in
  prices_ok s ∧ price_line 1000 200 50 s =
    Ok (LineCost.mk 800 (MicroUsd.from_i64 2000) (MicroUsd.from_i64 250) (MicroUsd.from_i64 500)
          (MicroUsd.from_i64 2750)).
Proof.
  intros s. assert (prices_ok s) as Hs by concrete.
  split; [exact Hs |].
  rewrite (price_line_spec 1000 200 50 s ltac:(concrete) ltac:(concrete) ltac:(concrete) Hs). reflexivity.
Defined.
