(* ===== verification/Trim.v ===== *)
(** * Trimmed text

    What [str::trim] leaves alone and that trimming twice is trimming once; then
    the prices an operator writes, which are such text and read back. *)

From stdpp Require Import base strings list gmap numbers sorting fin_maps.
From Stdlib Require Import Ascii ZArith Lia.
From S2P Require Import Prelude Utf8 Redaction Pricing.

Local Open Scope Z_scope.

(** ** Text that has nothing to trim *)

(** Printable ASCII but the space: nothing [trim] takes away. *)
Definition visible (c : ascii) : bool := (33 <=? byte_value c) && (byte_value c <=? 126).

Lemma str_rev_app_spec s a b : str_rev_app (str_rev_app s a) b = str_rev_app a (s +:+ b).
Proof. revert a. induction s as [|c s IH]; intros a; cbn; [done |]. by rewrite IH. Qed.

Lemma str_rev_involutive s : str_rev (str_rev s) = s.
Proof. unfold str_rev. rewrite str_rev_app_spec. cbn. apply str_app_nil_r. Qed.

Lemma str_all_rev_app f s acc : str_all f (str_rev_app s acc) = str_all f s && str_all f acc.
Proof.
  revert acc. induction s as [|c s IH]; intros acc; cbn; [done |]. rewrite IH. cbn.
  rewrite andb_assoc. f_equal. apply andb_comm.
Qed.

Lemma white_space_not_visible c s : visible c = true →
  find_map (λ w, strip_prefix w (String c s)) white_space = None
  ∧ find_map (λ w, strip_prefix w (String c s)) (str_rev <$> white_space) = None.
Proof. destruct c as [[] [] [] [] [] [] [] []]; intros Hv; try discriminate Hv; split; reflexivity. Qed.

Lemma trim_visible s : str_all visible s = true → trim s = s.
Proof.
  intros Hs. assert (trim_start s = s) as Hstart.
  { unfold trim_start. destruct s as [|c s]; [done |]. cbn [String.length strip_all].
    apply andb_true_iff in Hs as [Hc _]. by destruct (white_space_not_visible c s Hc) as [-> _]. }
  unfold trim. rewrite Hstart. unfold trim_end.
  assert (strip_all (str_rev <$> white_space) (String.length s) (str_rev s) = str_rev s) as ->; [| apply str_rev_involutive].
  assert (str_all visible (str_rev s) = true) as Hr by (unfold str_rev; rewrite str_all_rev_app, Hs; done).
  destruct (String.length s) as [|n]; [done |]. destruct (str_rev s) as [|c r] eqn:E; [done |]. cbn [strip_all].
  apply andb_true_iff in Hr as [Hc _]. by destruct (white_space_not_visible c r Hc) as [_ ->].
Qed.

(** The text of a decimal is digits and a point. *)
Lemma decimal_chars (f : ascii → bool) text V n :
  (∀ c, is_ascii_digit c = true → f c = true) → f "."%char = true → decimal_value text = Some (V, n) →
  str_all f text = true ∧ 0 ≤ V.
Proof.
  intros Hd Hp. unfold decimal_value. destruct (split_once "." text) as [[w r]|] eqn:Es.
  - apply split_once_Some in Es as ->. destruct (all_digits w) eqn:Ew; [| done]. destruct (all_digits r) eqn:Er; [| done].
    destruct (negb _); [| done]. intros [= <- _]. split.
    + rewrite str_all_app. cbn. rewrite Hp. unfold all_digits in *. by rewrite !(str_all_impl is_ascii_digit f) by done.
    + apply dec_value_bounds. unfold all_digits in *. by rewrite str_all_app, Ew, Er.
  - destruct (all_digits text) eqn:Ew; [| done]. destruct (negb _); [| done]. intros [= <- _].
    split; [by apply (str_all_impl is_ascii_digit) | by apply dec_value_bounds].
Qed.

Lemma digit_visible c : is_ascii_digit c = true → visible c = true.
Proof. destruct c as [[] [] [] [] [] [] [] []]; intros Hc; try discriminate Hc; reflexivity. Qed.

Lemma decimal_visible text V n : decimal_value text = Some (V, n) → str_all visible text = true ∧ 0 ≤ V.
Proof. by apply decimal_chars; [apply digit_visible |]. Qed.

(** An accepted price is not negative and fits its column. *)
Lemma parse_price_range text p : PricePerMillion.parse text = Ok p → 0 ≤ PricePerMillion.as_i64 p ≤ i64_max.
Proof.
  rewrite parse_spec. destruct (decimal_value text) as [[V n]|] eqn:E; [| done].
  apply decimal_visible in E as [_ HV]. unfold i64_checked.
  destruct (checked _ _ (micros_of_decimal V n)) as [v|] eqn:Ec; [| done]. intros [= <-]. cbn.
  apply checked_Some in Ec as [-> Hr]. assert (0 ≤ micros_of_decimal V n); [| ranges; lia].
  unfold micros_of_decimal. apply half_up_nonneg; [lia |]. apply Z.pow_pos_nonneg; lia.
Qed.

Definition price_in_range (p : PricePerMillion.t) : Prop := 0 ≤ PricePerMillion.as_i64 p ≤ i64_max.
Definition prices_in_range (s : PricingSnapshot.t) : Prop :=
  price_in_range (PricingSnapshot.input s) ∧ price_in_range (PricingSnapshot.cached_input s)
  ∧ price_in_range (PricingSnapshot.output s).

(** A printed price is text that nothing is trimmed from, and reads back. *)
Lemma parse_shown_price p :
  price_in_range p → PricePerMillion.parse (trim (PricePerMillion.to_decimal_string (PricePerMillion.new (PricePerMillion.as_i64 p)))) = Ok p.
Proof.
  intros Hp. destruct (trimmed_decimal_value (PricePerMillion.as_i64 p)) as (V & n & E & _); [apply Hp |].
  apply decimal_visible in E as [Hv _]. rewrite trim_visible, parse_to_decimal_string by done. by destruct p.
Qed.

(** ** Trimming twice *)

Lemma find_map_elem {A B} (f : A → option B) l y : find_map f l = Some y → ∃ x, x ∈ l ∧ f x = Some y.
Proof. intros (pre & x & post & -> & _ & E)%find_map_Some. exists x. split; [| done]. apply elem_of_app. right. by left. Qed.

Lemma strip_all_done ws fuel s :
  Forall (λ w, w ≠ ""%string) ws → (String.length s ≤ fuel)%nat →
  find_map (λ w, strip_prefix w (strip_all ws fuel s)) ws = None ∨ strip_all ws fuel s = ""%string.
Proof.
  intros Hws. revert s. induction fuel as [|fuel IH]; intros s Hl; cbn [strip_all].
  { right. destruct s; [done |]. cbn in Hl. lia. }
  destruct (find_map (λ w, strip_prefix w s) ws) as [s'|] eqn:E; [| by left]. apply IH.
  apply find_map_elem in E as (w & Hw & E). apply strip_prefix_Some in E as ->.
  rewrite Forall_forall in Hws. specialize (Hws w Hw). rewrite str_length_app in Hl.
  destruct w; [done |]. cbn in Hl. lia.
Qed.

(** What is stripped to nothing begins and ends with something to strip. *)
Lemma strip_all_empty ws fuel s :
  strip_all ws fuel s = ""%string → s ≠ ""%string →
  (∃ w r, w ∈ ws ∧ s = (w +:+ r)%string) ∧ ∃ w p, w ∈ ws ∧ s = (p +:+ w)%string.
Proof.
  revert s. induction fuel as [|fuel IH]; intros s; cbn [strip_all]; [done |].
  destruct (find_map (λ w, strip_prefix w s) ws) as [s'|] eqn:E; [| done]. intros He Hne.
  apply find_map_elem in E as (w & Hw & E). apply strip_prefix_Some in E as ->. split; [by exists w, s' |].
  destruct (decide (s' = ""%string)) as [->|Hs']; [exists w, ""%string; by rewrite str_app_nil_r |].
  destruct (IH s' He Hs') as [_ (w' & p & Hw' & ->)]. exists w', (w +:+ p)%string. by rewrite str_app_assoc.
Qed.

Lemma white_space_nonempty : Forall (λ w, w ≠ ""%string) white_space ∧ Forall (λ w, w ≠ ""%string) (str_rev <$> white_space).
Proof. split; apply (bool_decide_eq_true_1 _); vm_compute; reflexivity. Qed.

Lemma str_rev_app_acc s acc : str_rev_app s acc = (str_rev s +:+ acc)%string.
Proof.
  unfold str_rev. revert acc. induction s as [|c s IH]; intros acc; [done |]. cbn. rewrite IH, (IH (String c "")).
  by rewrite str_app_assoc.
Qed.

Lemma str_rev_concat a b : str_rev (a +:+ b) = (str_rev b +:+ str_rev a)%string.
Proof.
  unfold str_rev at 1. revert b. assert (∀ b acc, str_rev_app (a +:+ b) acc = str_rev_app b (str_rev_app a acc)) as Hall.
  { induction a as [|c a IH]; intros b acc; cbn; [done |]. by rewrite IH. }
  intros b. rewrite Hall, str_rev_app_acc. done.
Qed.

Lemma str_rev_length s : String.length (str_rev s) = String.length s.
Proof.
  induction s as [|c s IH]; [done |]. change (String c s) with (String c "" +:+ s)%string. rewrite str_rev_concat, !str_length_app, IH.
  cbn. lia.
Qed.

Lemma str_rev_empty s : str_rev s = ""%string → s = ""%string.
Proof. intros E. apply (f_equal str_rev) in E. by rewrite str_rev_involutive in E. Qed.

Lemma strip_prefix_app w r : strip_prefix w (w +:+ r) = Some r.
Proof. by apply strip_prefix_Some. Qed.

(** What is stripped from is what was stripped, then the rest. *)
Lemma strip_all_suffix ws fuel s : ∃ p, s = (p +:+ strip_all ws fuel s)%string.
Proof.
  revert s. induction fuel as [|fuel IH]; intros s; cbn [strip_all]; [by exists ""%string |].
  destruct (find_map (λ w, strip_prefix w s) ws) as [s'|] eqn:E; [| by exists ""%string].
  apply find_map_elem in E as (w & _ & ->%strip_prefix_Some). destruct (IH s') as [p Ep].
  exists (w +:+ p)%string. rewrite str_app_assoc. congruence.
Qed.

(** Nothing of [ws] begins [s]. *)
Definition clean (ws : list string) (s : string) : Prop := ∀ w r, w ∈ ws → s ≠ (w +:+ r)%string.

Lemma strip_all_clean ws s :
  Forall (λ w, w ≠ ""%string) ws → clean ws (strip_all ws (String.length s) s).
Proof.
  intros Hws w r Hw E. rewrite Forall_forall in Hws. pose proof (Hws w Hw) as Hne.
  destruct (strip_all_done ws (String.length s) s) as [Hn|Hn]; [by apply Forall_forall | done | |].
  - apply find_map_None in Hn. rewrite Forall_forall in Hn. specialize (Hn w Hw). by rewrite E, strip_prefix_app in Hn.
  - rewrite Hn in E. by destruct w.
Qed.

Lemma clean_strip ws fuel s : clean ws s → strip_all ws fuel s = s.
Proof.
  intros Hc. destruct fuel; [done |]. cbn [strip_all].
  destruct (find_map (λ w, strip_prefix w s) ws) as [s'|] eqn:E; [| done].
  apply find_map_elem in E as (w & Hw & E%strip_prefix_Some). by apply Hc in E.
Qed.

Lemma trim_end_prefix s : ∃ q, s = (trim_end s +:+ q)%string.
Proof.
  destruct (strip_all_suffix (str_rev <$> white_space) (String.length s) (str_rev s)) as [q Eq].
  exists (str_rev q). rewrite <- (str_rev_involutive s) at 1. by rewrite Eq, str_rev_concat.
Qed.

(** What is trimmed is a part of the text. *)
Lemma trim_all f s : str_all f s = true → str_all f (trim s) = true.
Proof.
  destruct (strip_all_suffix white_space (String.length s) s) as [p Ep]. destruct (trim_end_prefix (trim_start s)) as [q' Eq].
  change (strip_all white_space (String.length s) s) with (trim_start s) in Ep.
  unfold trim. intros Hs. rewrite Ep, str_all_app in Hs. apply andb_true_iff in Hs as [_ Hs].
  rewrite Eq, str_all_app in Hs. by apply andb_true_iff in Hs as [Hs _].
Qed.

Lemma trim_trim s : trim (trim s) = trim s.
Proof.
  destruct white_space_nonempty as [Hws Hrev]. unfold trim at 2 3. set (u := trim_start s).
  pose proof (strip_all_clean _ s Hws) as Hu. change (clean white_space u) in Hu.
  set (t := trim_end u). unfold trim.
  destruct (trim_end_prefix u) as [p Ep]. change (trim_end u) with t in Ep.
  assert (trim_start t = t) as ->.
  { apply clean_strip. intros w r Hw E. apply (Hu w (r +:+ p)%string Hw). by rewrite Ep, E, str_app_assoc. }
  unfold trim_end. rewrite clean_strip; [apply str_rev_involutive |].
  unfold t, trim_end. rewrite str_rev_involutive.
  pose proof (strip_all_clean _ (str_rev u) Hrev) as Hc. by rewrite str_rev_length in Hc.
Qed.

(** ** Pieces without their separator *)

Lemma split_char_avoid c s : avoids c s = true → split_char c s = [s].
Proof.
  unfold avoids. induction s as [|d s IH]; [done |]. cbn. rewrite andb_true_iff, negb_true_iff. intros [-> Hs]. by rewrite IH.
Qed.
