(* ===== verification/Timefmt.v ===== *)
(** * Ledger timestamps ([src/src/ledger/timefmt.rs])

    Fixed-width UTC text, compared byte by byte by SQLite. *)

From stdpp Require Import base strings list numbers.
From Stdlib Require Import Ascii ZArith Lia.
From S2P Require Import Prelude TimeLib Calendar.

Local Open Scope Z_scope.

Definition TS_FORMAT : list FormatItem :=
  [FYear; FLiteral "-"; FMonth; FLiteral "-"; FDay; FLiteral "T"; FHour; FLiteral ":"; FMinute;
   FLiteral ":"; FSecond; FLiteral "."; FSubsecond9; FLiteral "Z"].

Definition HOUR_FORMAT : list FormatItem :=
  [FYear; FLiteral "-"; FMonth; FLiteral "-"; FDay; FLiteral "T"; FHour].

Section Timefmt.
Context `{TimeCrate}.

Definition format_ts (ts : OffsetDateTime) : string :=
  default "1970-01-01T00:00:00.000000000Z"%string (odt_format TS_FORMAT (to_offset ts 0)).

Definition format_hour (ts : OffsetDateTime) : string :=
  default "1970-01-01T00"%string (odt_format HOUR_FORMAT (to_offset ts 0)).

Definition parse_ts (s : string) : option OffsetDateTime :=
  match odt_parse TS_FORMAT s with
  | Some ts => Some (to_offset ts 0)
  | None =>
      match odt_parse_iso s with
      | Some ts => Some (to_offset ts 0)
      | None => None
      end
  end.

Definition byte_at (n : nat) (s : string) (c : ascii) : bool :=
  match String.get n s with Some d => Ascii.eqb d c | None => false end.

Definition format_hour_str (stored : string) : string :=
  let canonical :=
    (20 <=? String.length stored)%nat && byte_at 4 stored "-" && byte_at 7 stored "-"
    && byte_at 10 stored "T" in
  let slow := match parse_ts stored with
              | Some ts => format_hour ts
              | None => take_chars 13 stored
              end in
  if canonical then match str_get_prefix 13 stored with Some hour => hour | None => slow end
  else slow.

(** [now], the clock reading an argument: whole microseconds ([/] on [i128] truncates). *)
Definition truncate_micros (now : OffsetDateTime) : OffsetDateTime :=
  default now (odt_from_unix_timestamp_nanos (Z.quot (unix_timestamp_nanos now) 1000 * 1000)).

(** ** Lemmas *)

(** An instant the fixed-width form is meant for: in the calendar, year 0 to 9999. *)
Definition ledger_instant (t : OffsetDateTime) : Prop :=
  instant_ok t ∧ four_digit_year (odt_date (to_offset t 0)).

Context `{!TimeLaws}.

Lemma format_ts_render t : ledger_instant t → format_ts t = render TS_FORMAT (utc_fields t).
Proof. intros [Hi Hy]. unfold format_ts. by rewrite odt_format_render. Qed.

Lemma format_hour_render t : ledger_instant t → format_hour t = render HOUR_FORMAT (utc_fields t).
Proof. intros [Hi Hy]. unfold format_hour. by rewrite odt_format_render. Qed.

(** The fields of a ledger instant are in range, and rebuild it. *)
Lemma utc_fields_range t :
  ledger_instant t →
  let f := utc_fields t in
  0 ≤ f_year f < 10 ^ Z.of_nat 4 ∧ 0 ≤ f_month f < 10 ^ Z.of_nat 2 ∧ 0 ≤ f_day f < 10 ^ Z.of_nat 2
  ∧ 0 ≤ f_hour f < 24 ∧ 0 ≤ f_minute f < 60 ∧ 0 ≤ f_second f < 60 ∧ 0 ≤ f_nano f < NS_PER_SEC
  ∧ unix_timestamp_nanos t =
      (to_julian_day (odt_date (to_offset t 0)) - UNIX_EPOCH_JULIAN) * NS_PER_DAY
      + f_hour f * (3600 * NS_PER_SEC) + f_minute f * NS_PER_MINUTE + f_second f * NS_PER_SEC + f_nano f
  ∧ date_ymd (odt_date (to_offset t 0)) = (f_year f, f_month f, f_day f).
Proof.
  intros [Hi Hy]. unfold utc_fields, four_digit_year in *.
  pose proof (ymd_range (odt_date (to_offset t 0))) as Hr.
  rewrite to_offset_date by (done || by unfold offset_ok). unfold local_julian. rewrite Z.mul_0_l, Z.add_0_r.
  destruct (date_ymd _) as [[y m] d].
  pose proof (time_of_day (unix_timestamp_nanos t mod NS_PER_DAY)
                ltac:(apply Z.mod_pos_bound; done)) as T.
  cbv zeta in T. destruct T as (? & ? & ? & ? & Hsum). cbn [f_year f_month f_day f_hour f_minute f_second f_nano].
  pose proof (Z.div_mod (unix_timestamp_nanos t) NS_PER_DAY ltac:(done)).
  change (10 ^ Z.of_nat 4) with 10000. change (10 ^ Z.of_nat 2) with 100.
  split_and!; try lia. done.
Qed.
End Timefmt.

(** ** Ordering *)
Section Ordering.
Context `{TimeCrate, !TimeLaws}.

(** The seven fields decide byte order from the left, as numbers. *)
Lemma str_ltb_render_ts f g :
  0 ≤ f_year f < 10 ^ Z.of_nat 4 → 0 ≤ f_month f < 10 ^ Z.of_nat 2 → 0 ≤ f_day f < 10 ^ Z.of_nat 2 →
  0 ≤ f_hour f < 24 → 0 ≤ f_minute f < 60 → 0 ≤ f_second f < 60 → 0 ≤ f_nano f < NS_PER_SEC →
  0 ≤ f_year g < 10 ^ Z.of_nat 4 → 0 ≤ f_month g < 10 ^ Z.of_nat 2 → 0 ≤ f_day g < 10 ^ Z.of_nat 2 →
  0 ≤ f_hour g < 24 → 0 ≤ f_minute g < 60 → 0 ≤ f_second g < 60 → 0 ≤ f_nano g < NS_PER_SEC →
  str_ltb (render TS_FORMAT f) (render TS_FORMAT g) = true ↔
    lex3 (f_year f, f_month f, f_day f) (f_year g, f_month g, f_day g)
    ∨ ((f_year f, f_month f, f_day f) = (f_year g, f_month g, f_day g)
       ∧ f_hour f * (3600 * NS_PER_SEC) + f_minute f * NS_PER_MINUTE + f_second f * NS_PER_SEC + f_nano f
         < f_hour g * (3600 * NS_PER_SEC) + f_minute g * NS_PER_MINUTE + f_second g * NS_PER_SEC + f_nano g).
Proof.
  intros. unfold TS_FORMAT. cbn [render render_item String.append]. unfold pad_num.
  change (10 ^ Z.of_nat 4) with 10000 in *. change (10 ^ Z.of_nat 2) with 100 in *.
  repeat (rewrite str_ltb_pad by (simpl; time_consts; lia); rewrite ?str_ltb_cons).
  rewrite str_ltb_irrefl. unfold lex3.
  rewrite !orb_true_iff, !andb_true_iff, !orb_true_iff, !andb_true_iff, !orb_true_iff, !andb_true_iff,
    !orb_true_iff, !andb_true_iff, !orb_true_iff, !andb_true_iff, !orb_true_iff, !andb_true_iff, !orb_true_iff, !andb_true_iff.
  rewrite !Z.ltb_lt, !Z.eqb_eq. time_consts.
  assert (∀ a b c a' b' c' : Z, (a, b, c) = (a', b', c') ↔ a = a' ∧ b = b' ∧ c = c') as -> by naive_solver.
  intuition (try discriminate; lia).
Qed.

Lemma format_ts_lt (a b : OffsetDateTime) (Ha : ledger_instant a) (Hb : ledger_instant b) :
  str_ltb (format_ts a) (format_ts b) = true ↔ unix_timestamp_nanos a < unix_timestamp_nanos b.
Proof.
  rewrite !format_ts_render by done.
  destruct (utc_fields_range a Ha) as (?&?&?&?&?&?&?& Ea & Da).
  destruct (utc_fields_range b Hb) as (?&?&?&?&?&?&?& Eb & Db).
  rewrite str_ltb_render_ts by done. rewrite <- Da, <- Db, <- ymd_order, Ea, Eb.
  set (ja := to_julian_day _) in *. set (jb := to_julian_day (odt_date (to_offset b 0))) in *.
  assert (date_ymd (odt_date (to_offset a 0)) = date_ymd (odt_date (to_offset b 0)) ↔ ja = jb) as ->.
  { split; intros E.
    - pose proof (ymd_order (odt_date (to_offset a 0)) (odt_date (to_offset b 0))) as O1.
      pose proof (ymd_order (odt_date (to_offset b 0)) (odt_date (to_offset a 0))) as O2.
      rewrite E in O1, O2. subst ja jb.
      destruct (Z.lt_trichotomy (to_julian_day (odt_date (to_offset a 0))) (to_julian_day (odt_date (to_offset b 0))))
        as [L|[L|L]]; [apply O1 in L | done | apply O2 in L]; by destruct (lex3_asym _ _ L).
    - by rewrite (julian_inj _ _ E). }
  clearbody ja jb. time_consts. lia.
Qed.

(** Fixed-width timestamps sort like instants: SQLite's byte-wise [<] on
    two stored [created_at] texts is the chronological [<] of the instants they
    were written from. *)
Theorem format_ts_order (a b : OffsetDateTime) (Ha : ledger_instant a) (Hb : ledger_instant b) :
  str_ltb (format_ts a) (format_ts b) = true ↔ unix_timestamp_nanos a < unix_timestamp_nanos b.
Proof. by apply format_ts_lt. Qed.

Lemma pad_num_length w n : 0 ≤ n < 10 ^ Z.of_nat w → (0 < w)%nat → String.length (pad_num w n) = w.
Proof. intros. by apply pad_left0_length, dec_string_length. Qed.

(** A timestamp is its hour bucket followed by the rest; the pieces of both. *)
Lemma render_ts_shape f :
  0 ≤ f_year f < 10 ^ Z.of_nat 4 → 0 ≤ f_month f < 10 ^ Z.of_nat 2 → 0 ≤ f_day f < 10 ^ Z.of_nat 2 →
  0 ≤ f_hour f < 24 → 0 ≤ f_minute f < 60 → 0 ≤ f_second f < 60 → 0 ≤ f_nano f < NS_PER_SEC →
  ∃ y m d h r, render HOUR_FORMAT f = (y +:+ String "-" (m +:+ String "-" (d +:+ String "T" h)))%string
    ∧ render TS_FORMAT f = (render HOUR_FORMAT f +:+ String ":" r)%string
    ∧ String.length y = 4%nat ∧ String.length m = 2%nat ∧ String.length d = 2%nat
    ∧ String.length h = 2%nat ∧ String.length r = 16%nat.
Proof.
  intros. change (10 ^ Z.of_nat 4) with 10000 in *. change (10 ^ Z.of_nat 2) with 100 in *.
  exists (pad_num 4 (f_year f)), (pad_num 2 (f_month f)), (pad_num 2 (f_day f)), (pad_num 2 (f_hour f)),
    (pad_num 2 (f_minute f) +:+ String ":" (pad_num 2 (f_second f) +:+ String "." (pad_num 9 (f_nano f) +:+ "Z")))%string.
  unfold TS_FORMAT, HOUR_FORMAT. cbn [render render_item String.append].
  rewrite str_app_nil_r, !str_app_assoc. cbn [String.append]. rewrite !str_app_assoc.
  cbn [String.append]. rewrite !str_app_assoc. split_and!; try done;
    rewrite ?str_length_app; cbn [String.length]; rewrite ?str_length_app; cbn [String.length];
    rewrite ?str_length_app; rewrite !pad_num_length; simpl; time_consts; lia.
Qed.

Lemma format_hour_of_stored (t : OffsetDateTime) (Ht : ledger_instant t) :
  format_hour_str (format_ts t) = format_hour t
  ∧ String.length (format_ts t) = 30%nat ∧ String.length (format_hour t) = 13%nat.
Proof.
  destruct (utc_fields_range t Ht) as (?&?&?&?&?&?&?&_).
  destruct (render_ts_shape (utc_fields t)) as (y & m & d & h & r & Eh & Et & Hy & Hm & Hd & Hh & Hr);
    try done.
  rewrite format_ts_render, format_hour_render by done. rewrite Et.
  assert (String.length (render HOUR_FORMAT (utc_fields t)) = 13%nat) as HL.
  { rewrite Eh, !str_length_app. cbn [String.length]. rewrite !str_length_app. cbn [String.length].
    rewrite !str_length_app. cbn [String.length]. lia. }
  split_and!; [| rewrite str_length_app; cbn [String.length]; lia | done].
  unfold format_hour_str.
  assert (∀ n c s, (4 ≤ n)%nat → byte_at n (y +:+ s) c = byte_at (n - 4) s c) as Hb.
  { intros n c s Hn. unfold byte_at. by rewrite str_get_app_r, Hy by lia. }
  assert ((20 <=? String.length (render HOUR_FORMAT (utc_fields t) +:+ String ":" r))%nat = true) as ->.
  { rewrite str_length_app, HL. cbn [String.length]. rewrite Hr. done. }
  unfold str_get_prefix. rewrite str_length_app, HL. rewrite str_get_app_r by lia.
  rewrite HL. replace (13 - 13)%nat with 0%nat by lia. cbn [String.length String.get]. rewrite Hr.
  replace (String.substring 0 13 _) with (render HOUR_FORMAT (utc_fields t))
    by (rewrite <- HL; symmetry; apply str_prefix_app).
  change ((13 + 17 <? 13)%nat) with false. change (is_continuation ":") with false. cbn [andb].
  assert (∀ P : bool, P = true → ∀ X : string,
    (if P then render HOUR_FORMAT (utc_fields t) else X) = render HOUR_FORMAT (utc_fields t)) as Hif by (by intros ? ->).
  apply Hif. rewrite Eh, str_app_assoc. cbn [String.append]. rewrite !str_app_assoc. cbn [String.append].
  rewrite !Hb by lia. unfold byte_at. cbn [Nat.sub String.get].
  rewrite (str_get_app_r 2 m) by lia. rewrite Hm. cbn [Nat.sub String.get].
  rewrite (str_get_app_r 5 m) by lia. rewrite Hm. cbn [Nat.sub String.get].
  rewrite (str_app_assoc d). rewrite (str_get_app_r 2 d) by lia. rewrite Hd. done.
Qed.

(** The hour bucket read off a stored timestamp is the bucket of the
    instant it was written from, by the byte-slice path; the text is always 30
    bytes and the bucket its first 13. *)
Theorem format_hour_str_stored (t : OffsetDateTime) (Ht : ledger_instant t) :
  format_hour_str (format_ts t) = format_hour t
  ∧ String.length (format_ts t) = 30%nat ∧ String.length (format_hour t) = 13%nat.
Proof. by apply format_hour_of_stored. Qed.

Lemma parse_ts_stored (t : OffsetDateTime) (Ht : ledger_instant t) :
  ∃ t', parse_ts (format_ts t) = Some t' ∧ unix_timestamp_nanos t' = unix_timestamp_nanos t.
Proof.
  rewrite format_ts_render by done. destruct Ht as [Hi Hy]. unfold parse_ts.
  change TS_FORMAT with UTC_NANO_ITEMS.
  assert (∀ t', unix_timestamp_nanos t' = unix_timestamp_nanos t →
    unix_timestamp_nanos (to_offset t' 0) = unix_timestamp_nanos t) as Hoff.
  { intros t' E. rewrite to_offset_nanos; [done | | by unfold offset_ok].
    unfold instant_ok in *. by rewrite E. }
  destruct (odt_parse _ _) as [t'|] eqn:E.
  - exists (to_offset t' 0). split; [done |]. apply Hoff. by eapply odt_parse_render.
  - destruct (odt_parse_iso_canonical t Hi Hy) as (t' & -> & Et).
    exists (to_offset t' 0). split; [done |]. by apply Hoff.
Qed.

(** A stored timestamp parses back to the instant it was written from. *)
Theorem parse_ts_format_ts (t : OffsetDateTime) (Ht : ledger_instant t) :
  ∃ t', parse_ts (format_ts t) = Some t' ∧ unix_timestamp_nanos t' = unix_timestamp_nanos t.
Proof. by apply parse_ts_stored. Qed.

(** *** Intervals of instants *)
Lemma local_julian_mono a b : a ≤ b → local_julian a 0 ≤ local_julian b 0.
Proof. intros Hab. unfold local_julian. apply Z.add_le_mono_r, Z.div_le_mono; [by time_consts |]. lia. Qed.

Lemma year_mono a b y m d y' m' d' :
  to_julian_day a ≤ to_julian_day b → date_ymd a = (y, m, d) → date_ymd b = (y', m', d') → y ≤ y'.
Proof.
  intros Hab Ea Eb. destruct (decide (to_julian_day a = to_julian_day b)) as [E|Hne].
  - apply julian_inj in E as ->. rewrite Ea in Eb. by injection Eb as -> _ _.
  - assert (to_julian_day a < to_julian_day b) as Hlt by lia. apply ymd_order in Hlt. rewrite Ea, Eb in Hlt.
    unfold lex3 in Hlt. lia.
Qed.

(** The instants of the fixed-width text are an interval. *)
Lemma ledger_instant_between a t b :
  ledger_instant a → ledger_instant b → unix_timestamp_nanos a ≤ unix_timestamp_nanos t ≤ unix_timestamp_nanos b → ledger_instant t.
Proof.
  intros [Ha Ya] [Hb Yb] [Hat Htb].
  assert (instant_ok t) as Ht.
  { unfold instant_ok in *. pose proof (local_julian_mono _ _ Hat). pose proof (local_julian_mono _ _ Htb). lia. }
  split; [done |]. unfold four_digit_year in *.
  assert (∀ u, instant_ok u → to_julian_day (odt_date (to_offset u 0)) = local_julian (unix_timestamp_nanos u) 0) as Hd
    by (intros u Hu; by apply to_offset_date; [| unfold offset_ok; lia]).
  destruct (date_ymd (odt_date (to_offset a 0))) as [[ya ma] da] eqn:Ea.
  destruct (date_ymd (odt_date (to_offset b 0))) as [[yb mb] db] eqn:Eb.
  destruct (date_ymd (odt_date (to_offset t 0))) as [[yt mt] dt] eqn:Et.
  assert (ya ≤ yt) by (eapply year_mono; [| exact Ea | exact Et]; rewrite !Hd by done; by apply local_julian_mono).
  assert (yt ≤ yb) by (eapply year_mono; [| exact Et | exact Eb]; rewrite !Hd by done; by apply local_julian_mono).
  lia.
Qed.

Lemma odt_add_between a t n b :
  ledger_instant a → ledger_instant b → unix_timestamp_nanos a ≤ unix_timestamp_nanos t + n ≤ unix_timestamp_nanos b → unix_timestamp_nanos (odt_add t n) = unix_timestamp_nanos t + n.
Proof.
  intros [Ha _] [Hb _] [H1 H2]. apply odt_add_nanos. unfold instant_ok in *.
  pose proof (local_julian_mono _ _ H1). pose proof (local_julian_mono _ _ H2). lia.
Qed.

(** The instant [n] nanoseconds on, when it is one of the fixed-width text's. *)
Lemma odt_add_instant t n c :
  ledger_instant c → unix_timestamp_nanos c = unix_timestamp_nanos t + n →
  ledger_instant (odt_add t n) ∧ unix_timestamp_nanos (odt_add t n) = unix_timestamp_nanos c.
Proof.
  intros Hc E. assert (unix_timestamp_nanos (odt_add t n) = unix_timestamp_nanos c) as En
    by (rewrite E; apply (odt_add_between c _ _ c); [done | done | lia]).
  split; [apply (ledger_instant_between c _ c); [done | done | lia] | done].
Qed.
End Ordering.

(** ** At concrete instants: 2026-09-24T07:12:33.123456789Z and half a second later *)
Definition t1 : OffsetDateTime := (1790233953123456789, 0).
Definition t2 : OffsetDateTime := (1790233953623456789, 25200).

Lemma ledger_instant_t1 : ledger_instant t1.
Proof. concrete. Qed.

Lemma ledger_instant_t2 : ledger_instant t2.
Proof. concrete. Qed.

Lemma format_ts_order_witness :
  ledger_instant t1 ∧ ledger_instant t2 ∧ str_ltb (format_ts t1) (format_ts t2) = true.
Proof.
  split; [exact ledger_instant_t1 |]. split; [exact ledger_instant_t2 |].
  apply (format_ts_order t1 t2 ledger_instant_t1 ledger_instant_t2). reflexivity.
Defined.

Lemma format_hour_str_stored_witness :
  ledger_instant t2 ∧ format_hour_str (format_ts t2) = "2026-09-24T07"%string.
Proof.
  split; [exact ledger_instant_t2 |].
  rewrite (proj1 (format_hour_str_stored t2 ledger_instant_t2)). vm_compute. reflexivity.
Defined.

Lemma parse_ts_format_ts_witness :
  ledger_instant t1 ∧ ∃ t', parse_ts (format_ts t1) = Some t' ∧ unix_timestamp_nanos t' = 1790233953123456789.
Proof.
  split; [exact ledger_instant_t1 |]. exact (parse_ts_format_ts t1 ledger_instant_t1).
Defined.
