(* ===== verification/Period.v ===== *)
(** * Billing days ([src/src/billing/period.rs])

    A billing day is a local calendar day at a fixed offset from UTC, and its
    period the half-open UTC window it covers. *)

From stdpp Require Import base strings list numbers.
From Stdlib Require Import Ascii ZArith Lia.
From S2P Require Import Prelude TimeLib Calendar Timefmt.

Local Open Scope Z_scope.

Module BillingTimezone.
Record t : Type := mk { offset_minutes : Z }.

Inductive TimezoneError : Type := OutOfRange (offset_minutes min max : Z).

Definition MIN_OFFSET_MINUTES : Z := -12 * 60.
Definition MAX_OFFSET_MINUTES : Z := 14 * 60.

Definition from_offset_minutes (offset_minutes : Z) : result t TimezoneError :=
  if negb (in_range MIN_OFFSET_MINUTES MAX_OFFSET_MINUTES offset_minutes) then
    Err (OutOfRange offset_minutes MIN_OFFSET_MINUTES MAX_OFFSET_MINUTES)
  else Ok (mk offset_minutes).

Definition utc_offset `{TimeCrate} (self : t) : Z :=
  default 0 (offset_from_whole_seconds (offset_minutes self * 60)).

Definition default_tz : t := mk 0.

Definition display (self : t) : string :=
  let sign := if offset_minutes self <? 0 then "-"%string else "+"%string in
  let hours := Z.abs (offset_minutes self) / 60 in
  let minutes := Z.abs (offset_minutes self) mod 60 in
  if minutes =? 0 then ("UTC" +:+ sign +:+ pad_left0 2 (dec_string hours))%string
  else ("UTC" +:+ sign +:+ pad_left0 2 (dec_string hours) +:+ ":" +:+ pad_left0 2 (dec_string minutes))%string.

(** The timezones construction admits. *)
Definition valid (self : t) : Prop := from_offset_minutes (offset_minutes self) = Ok self.
End BillingTimezone.

Module BillingDay.
Section Day.
Context `{TimeCrate}.

Record t : Type := from_date { date : Date }.

Definition parse (text : string) : option t :=
  match date_parse_iso text with Some d => Some (from_date d) | None => None end.

(** [BillingDay::of]. *)
Definition of_instant (instant : OffsetDateTime) (tz : BillingTimezone.t) : t :=
  from_date (odt_date (to_offset instant (BillingTimezone.utc_offset tz))).

Definition previous (self : t) : t := from_date (date_add_days (date self) (-1)).
Definition next (self : t) : t := from_date (date_add_days (date self) 1).
(** [previous_n], declared in statements.rs. *)
Definition previous_n (self : t) (n : Z) : t := from_date (date_add_days (date self) (- n)).

Definition start_utc (self : t) (tz : BillingTimezone.t) : OffsetDateTime :=
  midnight_assume_offset (date self) (BillingTimezone.utc_offset tz).
Definition end_exclusive_utc (self : t) (tz : BillingTimezone.t) : OffsetDateTime :=
  start_utc (next self) tz.

Definition display (self : t) : string := date_display (date self).

(** The derived [Ord]: dates compare chronologically. *)
Definition ltb (a b : t) : bool := date_lt (date a) (date b).
Definition leb (a b : t) : bool := date_le (date a) (date b).

(** A day's number, for reasoning. *)
Definition num (self : t) : Z := to_julian_day (date self).
End Day.
Arguments t {_}.
End BillingDay.

Module BillingPeriod.
Section Period.
Context `{TimeCrate}.

Record t : Type := mk { start : OffsetDateTime; end_ : OffsetDateTime }.

Definition for_day (day : BillingDay.t) (tz : BillingTimezone.t) : t :=
  mk (BillingDay.start_utc day tz) (BillingDay.end_exclusive_utc day tz).

Definition contains (self : t) (instant : OffsetDateTime) : bool :=
  odt_le (start self) instant && odt_lt instant (end_ self).

Definition to_bounds (self : t) : string * string := (format_ts (start self), format_ts (end_ self)).
End Period.
Arguments t {_}.
End BillingPeriod.

(** ** Lemmas *)
Section Lemmas.
Context `{TimeCrate, !TimeLaws}.

Lemma valid_offset tz :
  BillingTimezone.valid tz →
  BillingTimezone.utc_offset tz = BillingTimezone.offset_minutes tz * 60
  ∧ offset_ok (BillingTimezone.offset_minutes tz * 60)
  ∧ -720 ≤ BillingTimezone.offset_minutes tz ≤ 840.
Proof.
  unfold BillingTimezone.valid, BillingTimezone.from_offset_minutes, BillingTimezone.utc_offset, in_range.
  unfold BillingTimezone.MIN_OFFSET_MINUTES, BillingTimezone.MAX_OFFSET_MINUTES.
  destruct (_ && _) eqn:E; [|done]. rewrite andb_true_iff, !Z.leb_le in E. intros _.
  assert (offset_ok (BillingTimezone.offset_minutes tz * 60)) by (unfold offset_ok; lia).
  rewrite offset_whole_seconds by done. split_and!; try done; lia.
Qed.

Definition day_ok (d : BillingDay.t) : Prop :=
  MIN_JULIAN + 200 ≤ BillingDay.num d ≤ MAX_JULIAN - 200.

Lemma day_num_inj a b : BillingDay.num a = BillingDay.num b → a = b.
Proof. destruct a as [a], b as [b]. unfold BillingDay.num; cbn [BillingDay.date]. intros E. by rewrite (julian_inj _ _ E). Qed.

Lemma day_next_num d : day_ok d → BillingDay.num (BillingDay.next d) = BillingDay.num d + 1.
Proof. unfold day_ok, BillingDay.num. intros. apply date_add_julian. lia. Qed.

Lemma day_previous_num d : day_ok d → BillingDay.num (BillingDay.previous d) = BillingDay.num d - 1.
Proof. unfold day_ok, BillingDay.num. intros. cbn. rewrite date_add_julian; lia. Qed.

Lemma day_previous_n_num d n :
  day_ok d → -100 ≤ n ≤ 100 → BillingDay.num (BillingDay.previous_n d n) = BillingDay.num d - n.
Proof. unfold day_ok, BillingDay.num. intros. cbn. rewrite date_add_julian; lia. Qed.

Lemma start_utc_nanos d tz :
  MIN_JULIAN + 100 ≤ BillingDay.num d ≤ MAX_JULIAN - 100 → BillingTimezone.valid tz →
  unix_timestamp_nanos (BillingDay.start_utc d tz) =
    (BillingDay.num d - UNIX_EPOCH_JULIAN) * NS_PER_DAY - BillingTimezone.offset_minutes tz * NS_PER_MINUTE.
Proof.
  intros Hd (E & Ho & _)%valid_offset. unfold BillingDay.start_utc. rewrite E.
  rewrite midnight_nanos by done. unfold BillingDay.num, NS_PER_MINUTE. lia.
Qed.

Lemma end_utc_nanos d tz :
  day_ok d → BillingTimezone.valid tz →
  unix_timestamp_nanos (BillingDay.end_exclusive_utc d tz) =
    (BillingDay.num d + 1 - UNIX_EPOCH_JULIAN) * NS_PER_DAY - BillingTimezone.offset_minutes tz * NS_PER_MINUTE.
Proof.
  intros Hd Htz. unfold BillingDay.end_exclusive_utc. unfold day_ok in *.
  rewrite start_utc_nanos, day_next_num; [done | by unfold day_ok | rewrite day_next_num; unfold day_ok; lia | done].
Qed.

Lemma of_instant_num t tz :
  instant_ok t → BillingTimezone.valid tz →
  BillingDay.num (BillingDay.of_instant t tz) =
    (unix_timestamp_nanos t + BillingTimezone.offset_minutes tz * NS_PER_MINUTE) / NS_PER_DAY + UNIX_EPOCH_JULIAN.
Proof.
  intros Ht (E & Ho & _)%valid_offset. unfold BillingDay.of_instant, BillingDay.num. rewrite E.
  cbn [BillingDay.date]. rewrite to_offset_date by done. unfold local_julian, NS_PER_MINUTE.
  by rewrite Z.mul_assoc.
Qed.

Lemma period_partitions (t : OffsetDateTime) (d : BillingDay.t) (tz : BillingTimezone.t)
    (Ht : instant_ok t) (Hd : day_ok d) (Htz : BillingTimezone.valid tz) :
  (BillingPeriod.contains (BillingPeriod.for_day d tz) t = true ↔ BillingDay.of_instant t tz = d)
  ∧ BillingPeriod.end_ (BillingPeriod.for_day d tz)
      = BillingPeriod.start (BillingPeriod.for_day (BillingDay.next d) tz)
  ∧ unix_timestamp_nanos (BillingPeriod.end_ (BillingPeriod.for_day d tz))
      = unix_timestamp_nanos (BillingPeriod.start (BillingPeriod.for_day d tz)) + NS_PER_DAY.
Proof.
  unfold BillingPeriod.contains, odt_le, odt_lt. cbn [BillingPeriod.for_day BillingPeriod.start BillingPeriod.end_].
  rewrite end_utc_nanos, start_utc_nanos by (done || (unfold day_ok in *; lia)).
  split_and!; [| done | lia].
  rewrite andb_true_iff, Z.leb_le, Z.ltb_lt.
  assert (BillingDay.of_instant t tz = d ↔ BillingDay.num (BillingDay.of_instant t tz) = BillingDay.num d) as ->.
  { split; [by intros -> | apply day_num_inj]. }
  rewrite of_instant_num by done.
  set (x := unix_timestamp_nanos t + BillingTimezone.offset_minutes tz * NS_PER_MINUTE).
  pose proof (Z.div_mod x NS_PER_DAY ltac:(done)). pose proof (Z.mod_pos_bound x NS_PER_DAY ltac:(done)).
  split; intros; [| nia].
  enough (x / NS_PER_DAY = BillingDay.num d - UNIX_EPOCH_JULIAN) by lia.
  symmetry. apply Z.div_unique with (x - NS_PER_DAY * (BillingDay.num d - UNIX_EPOCH_JULIAN)); lia.
Qed.

(** Billing periods partition time: an instant is inside a day's period
    exactly when that day is the local calendar day of the instant, so no
    request is billed in two days or in none; consecutive periods meet (a day
    ends where the next begins) and each is 24 hours long. *)
Theorem period_partition (t : OffsetDateTime) (d : BillingDay.t) (tz : BillingTimezone.t)
    (Ht : instant_ok t) (Hd : day_ok d) (Htz : BillingTimezone.valid tz) :
  (BillingPeriod.contains (BillingPeriod.for_day d tz) t = true ↔ BillingDay.of_instant t tz = d)
  ∧ BillingPeriod.end_ (BillingPeriod.for_day d tz)
      = BillingPeriod.start (BillingPeriod.for_day (BillingDay.next d) tz)
  ∧ unix_timestamp_nanos (BillingPeriod.end_ (BillingPeriod.for_day d tz))
      = unix_timestamp_nanos (BillingPeriod.start (BillingPeriod.for_day d tz)) + NS_PER_DAY.
Proof. by apply period_partitions. Qed.

(** Days a four-digit date names: their text sorts like the calendar. *)
Definition day_named (d : BillingDay.t) : Prop := four_digit_year (BillingDay.date d).

Lemma display_lt a b :
  day_named a → day_named b →
  str_ltb (BillingDay.display a) (BillingDay.display b) = true ↔ BillingDay.num a < BillingDay.num b.
Proof.
  intros Ha Hb. unfold BillingDay.display, BillingDay.num. rewrite !date_display_iso by done.
  unfold day_named, four_digit_year in *.
  pose proof (ymd_range (BillingDay.date a)) as Ra. pose proof (ymd_range (BillingDay.date b)) as Rb.
  rewrite ymd_order. destruct (date_ymd (BillingDay.date a)) as [[y m] d], (date_ymd (BillingDay.date b)) as [[y' m'] d'].
  unfold pad_num.
  replace (pad_left0 2 (dec_string d)) with (pad_left0 2 (dec_string d) +:+ "")%string by apply str_app_nil_r.
  replace (pad_left0 2 (dec_string d')) with (pad_left0 2 (dec_string d') +:+ "")%string by apply str_app_nil_r.
  cbn [String.append].
  repeat (rewrite str_ltb_pad by (simpl; lia); rewrite ?str_ltb_cons). rewrite str_ltb_irrefl. unfold lex3.
  rewrite !orb_true_iff, !andb_true_iff, !orb_true_iff, !andb_true_iff, !orb_true_iff, !andb_true_iff, !Z.ltb_lt, !Z.eqb_eq.
  intuition (try discriminate; lia).
Qed.

Lemma parse_display d : day_named d → BillingDay.parse (BillingDay.display d) = Some d.
Proof. intros Hd. unfold BillingDay.parse, BillingDay.display. rewrite date_parse_display by done. by destruct d. Qed.
End Lemmas.

(** 2026-09-27 at UTC+07:00. *)
Definition day_2026_09_27 : BillingDay.t := BillingDay.from_date (2461311 : Date).
Definition tz_plus7 : BillingTimezone.t := BillingTimezone.mk 420.

Lemma period_partition_witness :
  instant_ok t1 ∧ day_ok day_2026_09_27 ∧ BillingTimezone.valid tz_plus7
  ∧ BillingPeriod.contains (BillingPeriod.for_day day_2026_09_27 tz_plus7) t1 = false
  ∧ BillingDay.of_instant t1 tz_plus7 ≠ day_2026_09_27.
Proof.
  split; [exact (proj1 ledger_instant_t1) |]. split; [concrete |]. split; [reflexivity |].
  split; [reflexivity |].
  intros H.
  pose proof (proj2 (proj1 (period_partition t1 day_2026_09_27 tz_plus7
    (proj1 ledger_instant_t1) ltac:(concrete) eq_refl)) H) as C. vm_compute in C. discriminate C.
Defined.
