(* ===== verification/Status.v ===== *)
(** * Service status ([src/src/billing/status.rs])

    Whether a partner may be served, derived from the overdue statements. *)

From stdpp Require Import base strings list numbers.
From Stdlib Require Import Ascii ZArith Lia.
From S2P Require Import Prelude TimeLib Calendar Pricing Timefmt.

Local Open Scope Z_scope.

Module OverdueStatement.
Record t `{TimeCrate} : Type := mk {
  id : Z;
  billing_date : string;
  due_at : OffsetDateTime;
  amount : MicroUsd.t }.
Arguments t {_}.
End OverdueStatement.

Module OverdueRow.
Record t : Type := mk {
  billing_mode : string;
  id : Z;
  billing_date : string;
  due_at : string;
  total_amount_micro_usd : Z;
  incomplete_usage_count : Z }.
End OverdueRow.

Section Status.
Context `{TimeCrate}.

Inductive SuspensionReason : Type :=
  | InvoiceOverdue (statement : OverdueStatement.t).

Inductive ServiceStatus : Type :=
  | Active
  | Suspended (reason : SuspensionReason).

Definition is_active (self : ServiceStatus) : bool :=
  match self with Active => true | Suspended _ => false end.

Definition is_suspended (self : ServiceStatus) : bool := negb (is_active self).

Definition suspension_reason (self : ServiceStatus) : option SuspensionReason :=
  match self with Active => None | Suspended reason => Some reason end.

Definition suspension_message (self : ServiceStatus) : option string :=
  match self with
  | Active => None
  | Suspended _ => Some "Service is suspended because an invoice is overdue"%string
  end.

(** [Display for ServiceStatus]. *)
Definition status_display (self : ServiceStatus) : string :=
  match self with
  | Active => "active"
  | Suspended (InvoiceOverdue s) =>
      ("suspended: statement " +:+ signed_dec_string (OverdueStatement.id s) +:+ " for "
       +:+ OverdueStatement.billing_date s +:+ " of " +:+ MicroUsd.display (OverdueStatement.amount s)
       +:+ " was due " +:+ format_ts (OverdueStatement.due_at s))%string
  end.

(** The closure of [find_map], after the filter's two guards. *)
Definition suspends (now : OffsetDateTime) (row : OverdueRow.t) : option ServiceStatus :=
  match parse_ts (OverdueRow.due_at row) with
  | None => None
  | Some due_at =>
      if odt_lt now due_at then None
      else Some (Suspended (InvoiceOverdue
             (OverdueStatement.mk _ (OverdueRow.id row) (OverdueRow.billing_date row) due_at
                (MicroUsd.from_i64 (OverdueRow.total_amount_micro_usd row)))))
  end.

Definition status_for (billing_mode : string) (now : OffsetDateTime) (overdue : list OverdueRow.t)
    : ServiceStatus :=
  if negb (String.eqb billing_mode "invoice") then Active
  else
    default Active
      (find_map (suspends now)
         (filter (λ row, OverdueRow.incomplete_usage_count row = 0
                         ∧ 0 < OverdueRow.total_amount_micro_usd row) overdue)).

(** ** What the status means *)

(** A statement whose payment can be enforced at [now]: it accounts for its day
    in full, something is owed on it, and its readable deadline has passed. *)
Definition enforceable (now : OffsetDateTime) (row : OverdueRow.t) : Prop :=
  OverdueRow.incomplete_usage_count row = 0 ∧ 0 < OverdueRow.total_amount_micro_usd row
  ∧ ∃ due, parse_ts (OverdueRow.due_at row) = Some due
           ∧ unix_timestamp_nanos due ≤ unix_timestamp_nanos now.

Lemma suspends_Some now row st :
  suspends now row = Some st ↔
  ∃ due, parse_ts (OverdueRow.due_at row) = Some due ∧ unix_timestamp_nanos due ≤ unix_timestamp_nanos now
    ∧ st = Suspended (InvoiceOverdue (OverdueStatement.mk _ (OverdueRow.id row) (OverdueRow.billing_date row)
             due (MicroUsd.from_i64 (OverdueRow.total_amount_micro_usd row)))).
Proof.
  unfold suspends. destruct (parse_ts _) as [due|]; [| naive_solver].
  unfold odt_lt. destruct (Z.ltb_spec (unix_timestamp_nanos now) (unix_timestamp_nanos due)).
  - split; [done |]. intros (? & [= <-] & ? & _). lia.
  - split; [intros [= <-]; eauto | intros (? & [= <-] & _ & ->); done].
Qed.

Definition billed (row : OverdueRow.t) : Prop :=
  OverdueRow.incomplete_usage_count row = 0 ∧ 0 < OverdueRow.total_amount_micro_usd row.

#[global] Instance billed_dec row : Decision (billed row).
Proof. unfold billed. apply _. Defined.

Lemma not_enforceable_billed now row :
  billed row → suspends now row = None ↔ ¬ enforceable now row.
Proof.
  intros [Hi Ht]. rewrite eq_None_not_Some. unfold enforceable. split.
  - intros Hn (_ & _ & due & Hp & Hd). apply Hn. eexists. apply suspends_Some. eauto.
  - intros Hn [st (due & Hp & Hd & _)%suspends_Some]. apply Hn. eauto.
Qed.

(** The first enforceable row, if any, in the order given. *)
Lemma find_map_filter_billed now rows :
  match find_map (suspends now) (filter billed rows) with
  | None => Forall (λ r, ¬ enforceable now r) rows
  | Some st => ∃ pre row post, rows = pre ++ row :: post
      ∧ Forall (λ r, ¬ enforceable now r) pre ∧ billed row ∧ suspends now row = Some st
  end.
Proof.
  induction rows as [|r rows IH]; [constructor |].
  destruct (decide (billed r)) as [Hb|Hb].
  - rewrite filter_cons_True by done. simpl. destruct (suspends now r) as [st|] eqn:E.
    + exists [], r, rows. split_and!; [done | constructor | apply Hb.. | done].
    + apply (not_enforceable_billed now r Hb) in E.
      destruct (find_map _ _); [| by constructor].
      destruct IH as (pre & row & post & -> & ? & ? & ?). exists (r :: pre), row, post.
      by rewrite Forall_cons_iff.
  - rewrite filter_cons_False by done.
    assert (¬ enforceable now r) by (intros (? & ? & _); by apply Hb).
    destruct (find_map _ _); [| by constructor].
    destruct IH as (pre & row & post & -> & ? & ? & ?). exists (r :: pre), row, post.
    by rewrite Forall_cons_iff.
Qed.

Lemma suspended_iff mode now rows :
  is_suspended (status_for mode now rows) = true ↔ mode = "invoice"%string ∧ Exists (enforceable now) rows.
Proof.
  unfold status_for. destruct (String.eqb_spec mode "invoice") as [->|]; cbn; [| naive_solver].
  pose proof (find_map_filter_billed now rows) as F. unfold billed in F. destruct (find_map _ _) as [st|]; cbn.
  - destruct F as (pre & row & post & -> & _ & [Hi Ht] & (due & Hp & Hd & ->)%suspends_Some).
    split; [| done]. intros _. split; [done |]. apply Exists_app. right. left. unfold enforceable. eauto.
  - split; [done |]. intros [_ [r [Hin He]]%Exists_exists]. rewrite Forall_forall in F. by destruct (F r Hin).
Qed.

(** A partner is suspended exactly when their mode is [invoice] and some
    statement is enforceable now (complete, more than zero owed, deadline
    reached); the statement named is the first such one in due order, with its
    own id, day, deadline and amount.  In every other case they are served: a
    reconciliation partner, an incomplete statement, a zero statement and an
    unreadable deadline suspend nobody. *)
Theorem status_for_spec (mode : string) (now : OffsetDateTime) (rows : list OverdueRow.t) :
  match status_for mode now rows with
  | Active => mode ≠ "invoice"%string ∨ Forall (λ r, ¬ enforceable now r) rows
  | Suspended (InvoiceOverdue s) =>
      mode = "invoice"%string ∧
      ∃ pre row post, rows = pre ++ row :: post
        ∧ Forall (λ r, ¬ enforceable now r) pre ∧ enforceable now row
        ∧ OverdueStatement.id s = OverdueRow.id row
        ∧ OverdueStatement.billing_date s = OverdueRow.billing_date row
        ∧ parse_ts (OverdueRow.due_at row) = Some (OverdueStatement.due_at s)
        ∧ MicroUsd.as_i64 (OverdueStatement.amount s) = OverdueRow.total_amount_micro_usd row
  end.
Proof.
  unfold status_for. destruct (String.eqb_spec mode "invoice") as [->|]; simpl; [| by left].
  pose proof (find_map_filter_billed now rows) as F. unfold billed in F.
  destruct (find_map _ _) as [st|]; simpl; [| by right].
  destruct F as (pre & row & post & -> & Hpre & [Hi Ht] & (due & Hp & Hd & ->)%suspends_Some).
  split; [done |]. exists pre, row, post. unfold enforceable. simpl. naive_solver.
Qed.
End Status.

Definition overdue_row_1 : OverdueRow.t :=
  OverdueRow.mk "invoice" 7 "2026-09-23" "2026-09-24T05:00:00.000000000Z" 2750 0.

Example status_for_example :
  is_suspended (status_for "invoice" t1 [overdue_row_1]) = true
  ∧ is_suspended (status_for "reconciliation" t1 [overdue_row_1]) = false.
Proof. vm_compute. done. Qed.
