(* ===== verification/Partner.v ===== *)
(** * Partners ([src/src/billing/partner.rs])

    The commercial row and the form the request path reads it in. *)

From stdpp Require Import base gmap strings list numbers sorting.
From Stdlib Require Import Ascii ZArith Lia.
From S2P Require Import Prelude TimeLib Calendar Pricing Timefmt Period Status.

Local Open Scope Z_scope.

Module BillingMode.
Inductive t : Type := Invoice | Reconciliation.

#[global] Instance eq_dec : EqDecision t.
Proof. solve_decision. Defined.

Definition as_str (self : t) : string :=
  match self with Invoice => "invoice" | Reconciliation => "reconciliation" end.

Definition parse (text : string) : option t :=
  if String.eqb text "invoice" then Some Invoice
  else if String.eqb text "reconciliation" then Some Reconciliation
  else None.

Definition owes_payment (self : t) : bool :=
  match self with Invoice => true | Reconciliation => false end.
End BillingMode.

Module Partner.
Record t : Type := mk {
  consumer_id : string;
  name : string;
  billing_email : string;
  billing_mode : BillingMode.t;
  payment_terms_minutes : Z;
  created_at : string;
  updated_at : string }.

(** [Duration::minutes] is exact below [i64::MAX / 60] minutes (it panics above). *)
Definition due_at_for `{TimeCrate} (self : t) (period_end : OffsetDateTime) : option OffsetDateTime :=
  if negb (BillingMode.owes_payment (billing_mode self)) then None
  else odt_checked_add period_end (payment_terms_minutes self * NS_PER_MINUTE).
End Partner.

Module ModelPrice.
Record t : Type := mk { model : string; prices : PricingSnapshot.t }.
End ModelPrice.

(** [BTreeMap::keys]: in byte order. *)
Definition key_le (a b : string) : Prop := str_ltb b a = false.

#[global] Instance key_le_dec a b : Decision (key_le a b).
Proof. unfold key_le. apply _. Defined.

Module PartnerRuntimeConfig.
Section Config.
Context `{TimeCrate}.

Record t : Type := new {
  consumer_id : string;
  key_name : string;
  billing_mode : BillingMode.t;
  billing_email : string;
  service_status : ServiceStatus;
  models : gmap string PricingSnapshot.t }.

Definition empty (consumer_id key_name : string) (billing_mode : BillingMode.t)
    (service_status : ServiceStatus) : t :=
  new consumer_id key_name billing_mode "" service_status ∅.

Definition allows (self : t) (model : string) : bool :=
  match models self !! model with Some _ => true | None => false end.

Definition pricing_for (self : t) (model : string) : option PricingSnapshot.t := models self !! model.

Definition allowed_models (self : t) : list string := merge_sort key_le (map_to_list (models self)).*1.

Definition suspended (self : t) : bool := is_suspended (service_status self).

Definition emails_statements (self : t) : bool :=
  BillingMode.owes_payment (billing_mode self) && negb (str_is_empty (billing_email self)).
End Config.
Arguments t {_}.
End PartnerRuntimeConfig.

Module PartnerSnapshot.
Section Snapshot.
Context `{TimeCrate}.

Record t : Type := mk { by_hash : gmap string PartnerRuntimeConfig.t }.

(** [rows.into_iter().collect()]: a later row replaces an earlier one. *)
Definition from_rows (rows : list (string * PartnerRuntimeConfig.t)) : t :=
  mk (foldl (λ m row, <[row.1 := row.2]> m) ∅ rows).

Definition len (self : t) : nat := size (by_hash self).
Definition is_empty (self : t) : bool := (len self =? 0)%nat.
Definition get (self : t) (hash : string) : option PartnerRuntimeConfig.t := by_hash self !! hash.
Definition entries (self : t) : list (string * PartnerRuntimeConfig.t) := map_to_list (by_hash self).
End Snapshot.
Arguments t {_}.
End PartnerSnapshot.

Lemma billing_mode_parse_as_str m : BillingMode.parse (BillingMode.as_str m) = Some m.
Proof. by destruct m. Qed.

Lemma billing_mode_parse_Some s m : BillingMode.parse s = Some m ↔ s = BillingMode.as_str m.
Proof.
  unfold BillingMode.parse. destruct (String.eqb_spec s "invoice") as [->|].
  { split; [by intros [= <-] | by destruct m]. }
  destruct (String.eqb_spec s "reconciliation") as [->|].
  { split; [by intros [= <-] | by destruct m]. }
  split; [done |]. by destruct m; intros ->.
Qed.

(** Strings and their bytes are totally ordered. *)
Lemma str_ltb_cons_spec x a y b :
  str_ltb (String x a) (String y b) = true ↔
  byte_value x < byte_value y ∨ (byte_value x = byte_value y ∧ str_ltb a b = true).
Proof. simpl. by rewrite orb_true_iff, andb_true_iff, Z.ltb_lt, Z.eqb_eq. Qed.

Lemma str_ltb_asym a b : str_ltb a b = true → str_ltb b a = false.
Proof.
  revert b. induction a as [|x a IH]; intros [|y b]; try done.
  rewrite str_ltb_cons_spec. intros Hab. apply not_true_is_false.
  rewrite str_ltb_cons_spec. intros [?|[? Hba]]; destruct Hab as [?|[? Hab]]; try lia.
  apply IH in Hab. congruence.
Qed.

Lemma str_ltb_trans a b c : str_ltb a b = true → str_ltb b c = true → str_ltb a c = true.
Proof.
  revert b c. induction a as [|x a IH]; intros [|y b] [|z c]; try done.
  rewrite !str_ltb_cons_spec. intros [?|[? ?]] [?|[? ?]]; try (left; lia).
  right. split; [congruence | eauto].
Qed.

Lemma str_ltb_total a b : str_ltb a b = false → str_ltb b a = false → a = b.
Proof.
  revert b. induction a as [|x a IH]; intros [|y b]; simpl; try done.
  rewrite !orb_false_iff, !andb_false_iff, !Z.ltb_ge, !Z.eqb_neq.
  intros [? Hab] [? Hba]. assert (byte_value x = byte_value y) as E by lia.
  rewrite (byte_value_inj _ _ E). f_equal. apply IH; naive_solver.
Qed.

#[global] Instance key_le_total : Total key_le.
Proof. intros a b. unfold key_le. destruct (str_ltb b a) eqn:E; [right | by left]. by apply str_ltb_asym. Qed.

#[global] Instance key_le_trans : Transitive key_le.
Proof.
  intros a b c. unfold key_le. intros Hab Hbc. apply not_true_is_false. intros Hca.
  destruct (str_ltb a b) eqn:E.
  - rewrite (str_ltb_trans c a b) in Hbc by done. done.
  - rewrite (str_ltb_total a b) in Hca by done. congruence.
Qed.

#[global] Instance key_le_antisymm : AntiSymm eq key_le.
Proof. intros a b Hab Hba. by apply str_ltb_total. Qed.

(** One map answers both questions: a model has a price exactly when the
    partner may call it, and the list shown is exactly the models that may be
    called, sorted and without repeats. *)
Theorem models_one_source `{TimeCrate} (cfg : PartnerRuntimeConfig.t) (model : string) :
  (PartnerRuntimeConfig.allows cfg model = true ↔ is_Some (PartnerRuntimeConfig.pricing_for cfg model))
  ∧ (model ∈ PartnerRuntimeConfig.allowed_models cfg ↔ PartnerRuntimeConfig.allows cfg model = true)
  ∧ Sorted key_le (PartnerRuntimeConfig.allowed_models cfg)
  ∧ NoDup (PartnerRuntimeConfig.allowed_models cfg).
Proof.
  unfold PartnerRuntimeConfig.allows, PartnerRuntimeConfig.pricing_for, PartnerRuntimeConfig.allowed_models.
  assert (∀ m, (match PartnerRuntimeConfig.models cfg !! m with Some _ => true | None => false end) = true
    ↔ is_Some (PartnerRuntimeConfig.models cfg !! m)) as Hsome.
  { intros m. destruct (_ !! m); split; [eauto | done | done | by intros [? [=]]]. }
  split_and!.
  - apply Hsome.
  - rewrite merge_sort_Permutation, Hsome, list_elem_of_fmap. split.
    + intros ([k p] & -> & E%elem_of_map_to_list). simpl. eauto.
    + intros [p E]. exists (model, p). split; [done |]. by apply elem_of_map_to_list.
  - apply Sorted_merge_sort; apply _.
  - rewrite merge_sort_Permutation. apply NoDup_fst_map_to_list.
Qed.

(** The snapshot holds the last row of each hash. *)
Lemma snapshot_get_app `{TimeCrate} rows hash cfg :
  PartnerSnapshot.get (PartnerSnapshot.from_rows (rows ++ [(hash, cfg)])) hash = Some cfg.
Proof.
  unfold PartnerSnapshot.get, PartnerSnapshot.from_rows. simpl. rewrite foldl_app. simpl.
  apply lookup_insert_eq.
Qed.
