(* ===== verification/Context.v ===== *)
(** * Who is asking, and what they may see ([src/src/auth/context.rs], [src/src/auth/scope.rs])

    The context an authenticated credential yields, and the consumers its
    queries may read. *)

From stdpp Require Import base strings list gmap numbers.
From Stdlib Require Import Ascii ZArith Lia.
From S2P Require Import Prelude Utf8 TimeLib Pricing Status Partner.

Local Open Scope Z_scope.

Module ManagerRole.
Inductive t : Type := Consumer | Manager.

#[global] Instance eq_dec : EqDecision t.
Proof. solve_decision. Defined.
End ManagerRole.

Module ConsumerIdentity.
Record t : Type := mk {
  consumer_id : string;
  key_name : string;
  scope : ManagerRole.t;
  allowed_models : list string }.
End ConsumerIdentity.

Module ConsumerContext.
Section Context.
Context `{TimeCrate}.

Record t : Type := mk {
  identity : ConsumerIdentity.t;
  partner : option PartnerRuntimeConfig.t }.

Definition new (partner : PartnerRuntimeConfig.t) : t :=
  mk (ConsumerIdentity.mk (PartnerRuntimeConfig.consumer_id partner) (PartnerRuntimeConfig.key_name partner)
        ManagerRole.Consumer (PartnerRuntimeConfig.allowed_models partner))
     (Some partner).

Definition manager : t := mk (ConsumerIdentity.mk "" "manager" ManagerRole.Manager []) None.

Definition consumer_id (self : t) : string := ConsumerIdentity.consumer_id (identity self).

Definition is_manager (self : t) : bool :=
  bool_decide (ConsumerIdentity.scope (identity self) = ManagerRole.Manager).

Definition allowed_models (self : t) : list string :=
  match partner self with Some p => PartnerRuntimeConfig.allowed_models p | None => [] end.

Definition allows_model (self : t) (model : string) : bool :=
  match partner self with Some p => PartnerRuntimeConfig.allows p model | None => false end.

Definition pricing_for (self : t) (model : string) : option PricingSnapshot.t :=
  partner self ≫= λ p, PartnerRuntimeConfig.pricing_for p model.

Definition service_status (self : t) : ServiceStatus :=
  match partner self with Some p => PartnerRuntimeConfig.service_status p | None => Active end.
End Context.
Arguments t {_}.
End ConsumerContext.

(** ** Scopes *)
Module Scope.
Inductive t : Type := One (id : string) | List (list : list string) | All.

#[global] Instance eq_dec : EqDecision t.
Proof. solve_decision. Defined.

(** The consumers whose rows the scope reads. *)
Definition admits (self : t) (consumer_id : string) : bool :=
  match self with
  | One id => String.eqb consumer_id id
  | List l => bool_decide (consumer_id ∈ l)
  | All => true
  end.
End Scope.

(** The names a [consumers=] parameter lists. *)
Definition requested_names (consumers : string) : list string :=
  filter (λ s, negb (str_is_empty s) = true) (trim <$> split_char "," consumers).

Definition resolve_scope `{TimeCrate} (consumer : ConsumerContext.t) (consumers : string) : Scope.t :=
  if negb (ConsumerContext.is_manager consumer) then Scope.One (ConsumerContext.consumer_id consumer)
  else
    match requested_names consumers with
    | [] => Scope.All
    | requested => Scope.List requested
    end.

Definition scope_clause (scope : Scope.t) : string * list string :=
  match scope with
  | Scope.One id => ("consumer_id = ?"%string, [id])
  | Scope.List l => (("consumer_id IN (" +:+ join "," (replicate (length l) "?"%string) +:+ ")")%string, l)
  | Scope.All => ("1 = 1"%string, [])
  end.

(** *** What SQLite makes of the fragment

    The three shapes of a WHERE fragment, its [?] bound to the parameters in
    order; [None] when the text is none of them or the counts differ. *)
Definition in_list (text : string) (params : list string) : bool :=
  match params with
  | [] => str_is_empty text
  | _ => bool_decide (split_char "," text = ((λ _, "?"%string) <$> params))
  end.

Definition eval_fragment (fragment : string * list string) (consumer_id : string) : option bool :=
  let '(text, params) := fragment in
  if String.eqb text "1 = 1" then match params with [] => Some true | _ => None end
  else if String.eqb text "consumer_id = ?" then
    match params with [p] => Some (String.eqb consumer_id p) | _ => None end
  else
    match strip_prefix "consumer_id IN (" text ≫= strip_suffix_char ")" with
    | Some inner => if in_list inner params then Some (bool_decide (consumer_id ∈ params)) else None
    | None => None
    end.

Example scope_examples :
  split_char "," " acme ,, globex" = [" acme "; ""; " globex"]%string
  ∧ requested_names " acme ,, globex" = ["acme"; "globex"]%string
  ∧ scope_clause (Scope.List ["acme"; "globex"]%string) = ("consumer_id IN (?,?)", ["acme"; "globex"])%string
  ∧ eval_fragment (scope_clause (Scope.List [])) "acme" = Some false
  ∧ eval_fragment (scope_clause (Scope.List ["acme"; "globex"]%string)) "globex" = Some true.
Proof. vm_compute. auto 10. Qed.

Lemma split_join_marks n : (0 < n)%nat → split_char "," (join "," (replicate n "?"%string)) = replicate n "?"%string.
Proof.
  intros Hn. destruct n as [|n]; [lia |]. clear Hn. induction n as [|n IH]; [done |].
  change (join "," (replicate (S (S n)) "?"%string)) with ("?" +:+ String "," (join "," (replicate (S n) "?")))%string.
  rewrite split_char_sep by done. by rewrite IH.
Qed.

(** A rendered scope filters exactly the rows of the scope: the placeholders
    are as many as the parameters, and an empty list matches nothing. *)
Lemma eval_scope_clause (s : Scope.t) (c : string) :
  eval_fragment (scope_clause s) c = Some (Scope.admits s c).
Proof.
  destruct s as [id|l|]; [done | | done].
  unfold scope_clause, eval_fragment. cbn [String.append String.eqb Ascii.eqb Bool.eqb].
  cbn [strip_prefix Ascii.eqb Bool.eqb]. cbn [mbind option_bind].
  rewrite strip_suffix_char_app.
  assert (in_list (join "," (replicate (length l) "?"%string)) l = true) as ->; [| done].
  destruct l as [|x l]; [done |]. unfold in_list. rewrite split_join_marks by (simpl; lia).
  apply bool_decide_eq_true_2. simpl. f_equal. clear. induction l; simpl; congruence.
Qed.

Section Resolve.
Context `{TimeCrate}.

Lemma requested_names_spec consumers c :
  c ∈ requested_names consumers ↔ c ≠ ""%string ∧ ∃ w, w ∈ split_char "," consumers ∧ c = trim w.
Proof.
  unfold requested_names. rewrite list_elem_of_filter, negb_true_iff, list_elem_of_fmap.
  assert (str_is_empty c = false ↔ c ≠ ""%string) as ->.
  { rewrite <- str_is_empty_spec. by destruct (str_is_empty c). }
  naive_solver.
Qed.

(** The scope of a partner's credential is that partner, whatever the
    [consumers] parameter says; a manager sees the consumers named, verbatim,
    or all of them when none is named. *)
Lemma resolve_scope_admits (ctx : ConsumerContext.t) (consumers c : string) :
  Scope.admits (resolve_scope ctx consumers) c = true ↔
  if ConsumerContext.is_manager ctx
  then requested_names consumers = [] ∨ c ∈ requested_names consumers
  else c = ConsumerContext.consumer_id ctx.
Proof.
  unfold resolve_scope. destruct (ConsumerContext.is_manager ctx); simpl; [| apply String.eqb_eq].
  destruct (requested_names consumers) as [|w ws] eqn:E; simpl; [naive_solver |].
  rewrite bool_decide_eq_true. naive_solver.
Qed.

(** A rendered scope is SQL that admits exactly the rows the caller may see: a
    partner's own, whatever the [consumers] parameter asks for, and for a
    manager the consumers it names, or every one when it names none. *)
Theorem scope_never_widens (ctx : ConsumerContext.t) (consumers c : string) :
  eval_fragment (scope_clause (resolve_scope ctx consumers)) c =
    Some (if ConsumerContext.is_manager ctx
          then bool_decide (requested_names consumers = []) || bool_decide (c ∈ requested_names consumers)
          else String.eqb c (ConsumerContext.consumer_id ctx)).
Proof.
  rewrite eval_scope_clause. f_equal. apply Bool.eq_true_iff_eq. rewrite resolve_scope_admits.
  destruct (ConsumerContext.is_manager ctx); [| by rewrite String.eqb_eq].
  by rewrite orb_true_iff, !bool_decide_eq_true.
Qed.

(** A credential's permission and its price come from one object. *)
Lemma context_models_one_source (ctx : ConsumerContext.t) (model : string) :
  ConsumerContext.allows_model ctx model = true ↔ is_Some (ConsumerContext.pricing_for ctx model).
Proof.
  unfold ConsumerContext.allows_model, ConsumerContext.pricing_for.
  destruct (ConsumerContext.partner ctx) as [p|]; simpl; [| split; [done | by intros [? ?]]].
  unfold PartnerRuntimeConfig.allows, PartnerRuntimeConfig.pricing_for.
  destruct (_ !! _); split; [eauto | done | done | by intros [? ?]].
Qed.
End Resolve.
