(* ===== verification/LedgerTypes.v ===== *)
(** * Ledger types ([src/src/ledger/types.rs])

    Endpoints, statuses, token usage, and the request record with the
    transitions that finish it. *)

From stdpp Require Import base strings list numbers.
From Stdlib Require Import Ascii ZArith Lia.
From S2P Require Import Prelude TimeLib Pricing.

Local Open Scope Z_scope.

Module Endpoint.
Inductive t : Type := ChatCompletions | Responses | Models.

#[global] Instance eq_dec : EqDecision t.
Proof. solve_decision. Defined.

Definition as_str (self : t) : string :=
  match self with
  | ChatCompletions => "chat_completions"
  | Responses => "responses"
  | Models => "models"
  end.

(** [path.find(['?', '#'])] and the slice before it. *)
Fixpoint before_query (path : string) : string :=
  match path with
  | EmptyString => EmptyString
  | String c path' =>
      if Ascii.eqb c "?" || Ascii.eqb c "#" then EmptyString else String c (before_query path')
  end.

Definition from_path (path : string) : option t :=
  let path := before_query path in
  if String.eqb path "/v1/chat/completions" then Some ChatCompletions
  else if String.eqb path "/v1/responses" then Some Responses
  else if String.eqb path "/v1/models" then Some Models
  else None.
End Endpoint.

Module RequestStatus.
Inductive t : Type := InFlight | Completed | Failed | Interrupted.

#[global] Instance eq_dec : EqDecision t.
Proof. solve_decision. Defined.

Definition as_str (self : t) : string :=
  match self with
  | InFlight => "in_flight"
  | Completed => "completed"
  | Failed => "failed"
  | Interrupted => "interrupted"
  end.

Definition is_terminal (self : t) : bool := match self with InFlight => false | _ => true end.

Definition from_str_lossy (s : string) : t :=
  if String.eqb s "in_flight" then InFlight
  else if String.eqb s "completed" then Completed
  else if String.eqb s "failed" then Failed
  else Interrupted.
End RequestStatus.

Module UsageStatus.
Inductive t : Type := Available | Unavailable | Partial.

#[global] Instance eq_dec : EqDecision t.
Proof. solve_decision. Defined.

Definition as_str (self : t) : string :=
  match self with
  | Available => "available"
  | Unavailable => "unavailable"
  | Partial => "partial"
  end.
End UsageStatus.

Module Usage.
Record t : Type := new {
  input_tokens : option Z;
  output_tokens : option Z;
  cached_tokens : option Z }.

#[global] Instance eq_dec : EqDecision t.
Proof. solve_decision. Defined.

Definition default_usage : t := new None None None.

Definition status (self : t) : UsageStatus.t :=
  if is_Some_b (input_tokens self) && is_Some_b (output_tokens self) then UsageStatus.Available
  else if is_Some_b (input_tokens self) || is_Some_b (output_tokens self) then UsageStatus.Partial
  else UsageStatus.Unavailable.

(** [Some(i + o)], an unchecked [u64] addition. *)
Definition total (self : t) : option Z :=
  match input_tokens self, output_tokens self with
  | Some i, Some o => Some (u64_wrap (i + o))
  | _, _ => None
  end.
End Usage.

Module RequestRecord.
Section Record.
Context `{TimeCrate}.

Record t : Type := mk {
  request_id : string;
  created_at : OffsetDateTime;
  consumer_id : string;
  model : string;
  endpoint : Endpoint.t;
  streaming : bool;
  http_status : option Z;
  request_status : RequestStatus.t;
  usage : Usage.t;
  ttft_ms : option Z;
  duration_ms : Z;
  error_message : option string;
  error_body : option string;
  pricing : option PricingSnapshot.t }.

(** [RequestRecord::new]; the clock reading is an argument. *)
Definition new (now : OffsetDateTime) (request_id consumer_id model : string)
    (endpoint : Endpoint.t) (streaming : bool) : t :=
  mk request_id now consumer_id model endpoint streaming None RequestStatus.InFlight
     Usage.default_usage None 0 None None None.

Definition with_pricing (self : t) (prices : PricingSnapshot.t) : t :=
  mk (request_id self) (created_at self) (consumer_id self) (model self) (endpoint self)
     (streaming self) (http_status self) (request_status self) (usage self) (ttft_ms self)
     (duration_ms self) (error_message self) (error_body self) (Some prices).

Definition complete (self : t) (http_status : Z) (usage : Usage.t) (duration_ms : Z) : t :=
  mk (request_id self) (created_at self) (consumer_id self) (model self) (endpoint self)
     (streaming self) (Some http_status) RequestStatus.Completed usage (ttft_ms self)
     duration_ms (error_message self) (error_body self) (pricing self).

Definition fail (self : t) (http_status : option Z) (error : string) (duration_ms : Z) : t :=
  mk (request_id self) (created_at self) (consumer_id self) (model self) (endpoint self)
     (streaming self) http_status RequestStatus.Failed (usage self) (ttft_ms self)
     duration_ms (Some error) (error_body self) (pricing self).

Definition interrupt (self : t) (reason : string) (duration_ms : Z) : t :=
  mk (request_id self) (created_at self) (consumer_id self) (model self) (endpoint self)
     (streaming self) (http_status self) RequestStatus.Interrupted (usage self) (ttft_ms self)
     duration_ms
     (match error_message self with None => Some reason | Some e => Some e end)
     (error_body self) (pricing self).

Definition is_terminal (self : t) : bool := RequestStatus.is_terminal (request_status self).

Definition set_ttft (self : t) (ttft : Z) : t :=
  mk (request_id self) (created_at self) (consumer_id self) (model self) (endpoint self)
     (streaming self) (http_status self) (request_status self) (usage self) (Some ttft)
     (duration_ms self) (error_message self) (error_body self) (pricing self).

Definition usage_status (self : t) : UsageStatus.t := Usage.status (usage self).

Definition set_usage (self : t) (usage : Usage.t) : t :=
  mk (request_id self) (created_at self) (consumer_id self) (model self) (endpoint self)
     (streaming self) (http_status self) (request_status self) usage (ttft_ms self)
     (duration_ms self) (error_message self) (error_body self) (pricing self).
End Record.
Arguments t {_}.
End RequestRecord.

(** ** Lemmas *)

Lemma from_str_lossy_as_str s : RequestStatus.from_str_lossy (RequestStatus.as_str s) = s.
Proof. by destruct s. Qed.

Lemma before_query_app p q c :
  str_all (λ c, negb (Ascii.eqb c "?" || Ascii.eqb c "#")) p = true →
  (c = "?" ∨ c = "#")%char →
  Endpoint.before_query (p +:+ String c q) = p.
Proof.
  intros Hp Hc. induction p as [|d p IH]; simpl.
  - destruct Hc as [-> | ->]; done.
  - simpl in Hp. apply andb_true_iff in Hp as [Hd Hp]. apply negb_true_iff in Hd. rewrite Hd.
    f_equal. by apply IH.
Qed.

Lemma before_query_id p :
  str_all (λ c, negb (Ascii.eqb c "?" || Ascii.eqb c "#")) p = true → Endpoint.before_query p = p.
Proof.
  intros Hp. induction p as [|d p IH]; simpl; [done |].
  simpl in Hp. apply andb_true_iff in Hp as [Hd Hp]. apply negb_true_iff in Hd. rewrite Hd.
  f_equal. by apply IH.
Qed.

(** Available means both counts were reported; a missing count is never a zero. *)
Lemma usage_status_available u :
  Usage.status u = UsageStatus.Available ↔ is_Some (Usage.input_tokens u) ∧ is_Some (Usage.output_tokens u).
Proof.
  destruct u as [[i|] [o|] c]; unfold Usage.status; simpl; split;
    try (intros [=]); try (by intros [[? [=]] ?]); try (by intros [? [? [=]]]); eauto.
Qed.
