(* ===== verification/Sql.v ===== *)
(** * SQLite and rusqlite as the program uses them

    The tables are finite maps and the statements are functions on them,
    written from the SQL text of the source. What belongs to the libraries is
    kept apart: how rusqlite binds an unsigned integer is the class
    [Rusqlite], and a value SQLite turns into a floating-point number is the
    opaque [Real]. *)

From stdpp Require Import base strings list gmap numbers.
From Stdlib Require Import ZArith Lia.
From S2P Require Import Prelude.

Local Open Scope Z_scope.

(** The errors a statement or transaction returns. *)
Inductive SqlError : Type :=
  | ToSqlConversionFailure
  | ConstraintViolation
  | Busy
  | OtherFailure
  | SqliteFailure (extended_code : Z)
  | QueryReturnedNoRows
  | InvalidQuery
  | InvalidColumnType.

#[global] Instance SqlError_eq_dec : EqDecision SqlError.
Proof. solve_decision. Defined.

(** The extended result codes of the constraints. *)
Definition SQLITE_CONSTRAINT_CHECK : Z := 275.
Definition SQLITE_CONSTRAINT_FOREIGNKEY : Z := 787.
Definition SQLITE_CONSTRAINT_PRIMARYKEY : Z := 1555.
Definition SQLITE_CONSTRAINT_UNIQUE : Z := 2067.

(** rusqlite's [ToSql for u64]: SQLite integers are signed 64-bit, so a larger
    value is a conversion failure. *)
Class Rusqlite : Type := { u64_to_sql : Z → option Z }.

Class RusqliteLaws `{Rusqlite} : Prop := {
  u64_to_sql_value z v : u64_to_sql z = Some v → v = z ∧ z ≤ i64_max;
  u64_to_sql_fits z : 0 ≤ z ≤ i64_max → u64_to_sql z = Some z }.

(** An instance that satisfies them, for the witnesses. *)
#[global] Instance RusqliteChecked : Rusqlite := {| u64_to_sql z := if z <=? i64_max then Some z else None |}.

#[global] Instance RusqliteCheckedLaws : RusqliteLaws.
Proof. split; intros z; simpl; zcases; intros; naive_solver lia. Qed.

(** Binding a [u64], and an [Option<u64>] ([None] is [NULL]). *)
Definition bind_u64 `{Rusqlite} (z : Z) : result Z SqlError :=
  ok_or (u64_to_sql z) ToSqlConversionFailure.

Definition bind_opt_u64 `{Rusqlite} (o : option Z) : result (option Z) SqlError :=
  match o with
  | None => Ok None
  | Some z => let? v := bind_u64 z in Ok (Some v)
  end.

(** A numeric cell: an INTEGER, or the REAL that [+] and [-] yield when the
    exact result does not fit 64 bits. *)
Inductive Cell : Type := Int (z : Z) | Real.

#[global] Instance Cell_eq_dec : EqDecision Cell.
Proof. solve_decision. Defined.

Definition cell_of (z : Z) : Cell := if in_range i64_min i64_max z then Int z else Real.

Definition cell_add (c : Cell) (d : Z) : Cell := match c with Int z => cell_of (z + d) | Real => Real end.
Definition cell_sub (c : Cell) (d : Z) : Cell := match c with Int z => cell_of (z - d) | Real => Real end.

(** [cell <= 0]; a sum that left 64 bits upwards is positive. *)
Definition cell_nonpos (c : Cell) : bool := match c with Int z => z <=? 0 | Real => false end.

Lemma cell_of_fits z : is_i64 z → cell_of z = Int z.
Proof. unfold cell_of, in_range, is_i64. intros. zcases; done || lia. Qed.

Lemma bind_opt_u64_Ok `{RusqliteLaws} o v :
  bind_opt_u64 o = Ok v → v = o ∧ (∀ z, o = Some z → z ≤ i64_max).
Proof.
  destruct o as [z|]; simpl; [| intros [= <-]; naive_solver].
  unfold bind_u64. destruct (u64_to_sql z) as [w|] eqn:E; simpl; [| done].
  intros [= <-]. apply u64_to_sql_value in E as [-> ?]. naive_solver.
Qed.

Lemma bind_opt_u64_fits `{RusqliteLaws} o :
  (∀ z, o = Some z → 0 ≤ z ≤ i64_max) → bind_opt_u64 o = Ok o.
Proof.
  destruct o as [z|]; simpl; [| done]. intros Hz. unfold bind_u64.
  by rewrite u64_to_sql_fits by auto.
Qed.

(** A CHECK of the form [col IS NULL OR col >= 0]. *)
Definition null_or_nonneg (o : option Z) : bool := match o with None => true | Some z => 0 <=? z end.
