(* ===== verification/Rollup.v ===== *)
(** * The hourly rollup ([src/src/ledger/rollup.rs])

    [usage_hourly] is derived from [usage_records]. One request's effect on one
    bucket is a [Contribution], which is added and retracted; the agreement of
    the two tables is [agree], and the rollup is a function of the raw rows
    ([agree_unique]). *)

From stdpp Require Import base strings list gmap numbers fin_maps.
From Stdlib Require Import ZArith Lia.
From S2P Require Import Prelude TimeLib Timefmt Pricing LedgerTypes Sql.

Local Open Scope Z_scope.

(** ** Data *)

Module BucketKey.
Record t : Type := mk {
  hour : string; consumer_id : string; model : string; endpoint : string; streaming : Z }.

#[global] Instance eq_dec : EqDecision t.
Proof. solve_decision. Defined.

#[global] Instance countable : Countable t.
Proof.
  apply (inj_countable' (λ k, (hour k, consumer_id k, model k, endpoint k, streaming k))
           (λ '(h, c, m, e, s), mk h c m e s)).
  by intros [].
Defined.

Definition from_record `{TimeCrate} (record : RequestRecord.t) : t :=
  mk (format_hour (RequestRecord.created_at record))
     (RequestRecord.consumer_id record) (RequestRecord.model record)
     (Endpoint.as_str (RequestRecord.endpoint record))
     (Z.b2z (RequestRecord.streaming record)).
End BucketKey.

Module Metrics.
Record t : Type := mk {
  input_tokens : Z; output_tokens : Z; cached_tokens : Z; duration_ms : Z;
  ttft_ms : Z; ttft_count : Z; success_count : Z; failure_count : Z }.

Definition default_metrics : t := mk 0 0 0 0 0 0 0 0.
End Metrics.

(** A row of [usage_hourly], its counters only. *)
Module Bucket.
Record t : Type := mk {
  request_count : Cell; total_input_tokens : Cell; total_output_tokens : Cell;
  total_cached_tokens : Cell; total_duration_ms : Cell; total_ttft_ms : Cell;
  ttft_count : Cell; success_count : Cell; failure_count : Cell }.
End Bucket.

(** A row of [usage_records] without its surrogate [id]. *)
Module Row.
Record t : Type := mk {
  created_at : string; consumer_id : string; model : string; endpoint : string;
  streaming : Z; http_status : option Z; request_status : string;
  instance_id : option string;
  input_tokens : option Z; output_tokens : option Z; cached_tokens : option Z;
  ttft_ms : option Z; duration_ms : Z; usage_status : string;
  error_message : option string; error_body : option string;
  input_price_snapshot : option Z; cached_input_price_snapshot : option Z;
  output_price_snapshot : option Z }.

(** The table's CHECK constraints. *)
Definition check (r : t) : bool :=
  bool_decide (request_status r ∈ ["in_flight"; "completed"; "failed"; "interrupted"]%string)
  && bool_decide (usage_status r ∈ ["available"; "unavailable"; "partial"]%string)
  && bool_decide (endpoint r ∈ ["chat_completions"; "responses"; "models"]%string)
  && null_or_nonneg (input_tokens r) && null_or_nonneg (output_tokens r) && null_or_nonneg (cached_tokens r)
  && null_or_nonneg (input_price_snapshot r) && null_or_nonneg (cached_input_price_snapshot r)
  && null_or_nonneg (output_price_snapshot r).
End Row.

Abbreviation Records := (gmap string Row.t).
Abbreviation Hourly := (gmap BucketKey.t Bucket.t).

(** ** Contributions *)

Module Contribution.
Record t : Type := mk { key : BucketKey.t; metrics : Metrics.t }.

(** [x as i64] on a [u64]. *)
Definition as_i64 (z : Z) : Z := i64_wrap z.

Definition is_failure (s : RequestStatus.t) : bool :=
  match s with RequestStatus.Failed | RequestStatus.Interrupted => true | _ => false end.
Definition is_success (s : RequestStatus.t) : bool :=
  match s with RequestStatus.Completed => true | _ => false end.

Definition terminal `{TimeCrate} (record : RequestRecord.t) (key : BucketKey.t) : t :=
  let usage := RequestRecord.usage record in
  mk key (Metrics.mk
    (as_i64 (default 0 (Usage.input_tokens usage)))
    (as_i64 (default 0 (Usage.output_tokens usage)))
    (as_i64 (default 0 (Usage.cached_tokens usage)))
    (as_i64 (RequestRecord.duration_ms record))
    (as_i64 (default 0 (RequestRecord.ttft_ms record)))
    (Z.b2z (is_Some_b (RequestRecord.ttft_ms record)))
    (Z.b2z (is_success (RequestRecord.request_status record)))
    (Z.b2z (is_failure (RequestRecord.request_status record)))).

Definition interrupted (duration_ms : Z) : Metrics.t :=
  Metrics.mk 0 0 0 duration_ms 0 0 0 1.

(** The [VALUES] row of the insert. *)
Definition first (m : Metrics.t) : Bucket.t :=
  Bucket.mk (Int 1) (Int (Metrics.input_tokens m)) (Int (Metrics.output_tokens m))
    (Int (Metrics.cached_tokens m)) (Int (Metrics.duration_ms m)) (Int (Metrics.ttft_ms m))
    (Int (Metrics.ttft_count m)) (Int (Metrics.success_count m)) (Int (Metrics.failure_count m)).

(** [DO UPDATE SET], and the [UPDATE] of a retraction. *)
Definition update (op : Cell → Z → Cell) (b : Bucket.t) (m : Metrics.t) : Bucket.t :=
  Bucket.mk (op (Bucket.request_count b) 1)
    (op (Bucket.total_input_tokens b) (Metrics.input_tokens m))
    (op (Bucket.total_output_tokens b) (Metrics.output_tokens m))
    (op (Bucket.total_cached_tokens b) (Metrics.cached_tokens m))
    (op (Bucket.total_duration_ms b) (Metrics.duration_ms m))
    (op (Bucket.total_ttft_ms b) (Metrics.ttft_ms m))
    (op (Bucket.ttft_count b) (Metrics.ttft_count m))
    (op (Bucket.success_count b) (Metrics.success_count m))
    (op (Bucket.failure_count b) (Metrics.failure_count m)).

Definition add (self : t) (hourly : Hourly) : Hourly :=
  match hourly !! key self with
  | None => <[key self := first (metrics self)]> hourly
  | Some b => <[key self := update cell_add b (metrics self)]> hourly
  end.

(** The [UPDATE], then the [DELETE] of an emptied bucket. *)
Definition retract (self : t) (hourly : Hourly) : Hourly :=
  match hourly !! key self with
  | None => hourly
  | Some b =>
      let b' := update cell_sub b (metrics self) in
      if cell_nonpos (Bucket.request_count b') then delete (key self) hourly
      else <[key self := b']> hourly
  end.
End Contribution.

Module StoredRow.
Record t : Type := mk {
  status : RequestStatus.t; key : BucketKey.t; metrics : Metrics.t }.

Definition of_row `{TimeCrate} (r : Row.t) : t :=
  let status := RequestStatus.from_str_lossy (Row.request_status r) in
  mk status
    (BucketKey.mk (format_hour_str (Row.created_at r)) (Row.consumer_id r) (Row.model r)
       (Row.endpoint r) (Row.streaming r))
    (Metrics.mk (default 0 (Row.input_tokens r)) (default 0 (Row.output_tokens r))
       (default 0 (Row.cached_tokens r)) (Row.duration_ms r) (default 0 (Row.ttft_ms r))
       (Z.b2z (is_Some_b (Row.ttft_ms r)))
       (Z.b2z (Contribution.is_success status)) (Z.b2z (Contribution.is_failure status))).

Definition load `{TimeCrate} (records : Records) (request_id : string) : option t :=
  of_row <$> records !! request_id.

Definition contribution (self : t) : option Contribution.t :=
  if RequestStatus.is_terminal (status self) then Some (Contribution.mk (key self) (metrics self)) else None.
End StoredRow.

(** ** Raw and rollup *)

(** The counters of a bucket, by column. *)
Inductive Col : Type :=
  | Requests | InputTokens | OutputTokens | CachedTokens | Duration | Ttft | TtftCount | Success | Failure.

Definition metric (m : Metrics.t) (c : Col) : Z :=
  match c with
  | Requests => 1
  | InputTokens => Metrics.input_tokens m
  | OutputTokens => Metrics.output_tokens m
  | CachedTokens => Metrics.cached_tokens m
  | Duration => Metrics.duration_ms m
  | Ttft => Metrics.ttft_ms m
  | TtftCount => Metrics.ttft_count m
  | Success => Metrics.success_count m
  | Failure => Metrics.failure_count m
  end.

Definition cell (b : Bucket.t) (c : Col) : Cell :=
  match c with
  | Requests => Bucket.request_count b
  | InputTokens => Bucket.total_input_tokens b
  | OutputTokens => Bucket.total_output_tokens b
  | CachedTokens => Bucket.total_cached_tokens b
  | Duration => Bucket.total_duration_ms b
  | Ttft => Bucket.total_ttft_ms b
  | TtftCount => Bucket.ttft_count b
  | Success => Bucket.success_count b
  | Failure => Bucket.failure_count b
  end.

Lemma bucket_ext b b' : (∀ c, cell b c = cell b' c) → b = b'.
Proof.
  intros E. destruct b, b'.
  pose proof (E Requests). pose proof (E InputTokens). pose proof (E OutputTokens).
  pose proof (E CachedTokens). pose proof (E Duration). pose proof (E Ttft).
  pose proof (E TtftCount). pose proof (E Success). pose proof (E Failure).
  simpl in *. by subst.
Qed.

Lemma cell_first m c : cell (Contribution.first m) c = Int (metric m c).
Proof. by destruct c. Qed.

Lemma cell_update op b m c : cell (Contribution.update op b m) c = op (cell b c) (metric m c).
Proof. by destruct c. Qed.

Section Agreement.
Context `{TimeCrate}.

(** What a raw row contributes to column [c] of bucket [k]. *)
Definition contribution_amount (ct : Contribution.t) (k : BucketKey.t) (c : Col) : Z :=
  if decide (Contribution.key ct = k) then metric (Contribution.metrics ct) c else 0.

Definition amount (r : Row.t) (k : BucketKey.t) (c : Col) : Z :=
  match StoredRow.contribution (StoredRow.of_row r) with
  | Some ct => contribution_amount ct k c
  | None => 0
  end.

(** The sum over the raw table. *)
Definition total (records : Records) (k : BucketKey.t) (c : Col) : Z :=
  map_fold (λ _ r acc, amount r k c + acc) 0 records.

Definition metrics_ok (m : Metrics.t) : Prop := ∀ c, 0 ≤ metric m c.
Definition row_ok (r : Row.t) : Prop := metrics_ok (StoredRow.metrics (StoredRow.of_row r)).
Definition rows_ok (records : Records) : Prop := map_Forall (λ _ r, row_ok r) records.

(** Every bucket's exact sums fit SQLite's integers. *)
Definition fits (records : Records) : Prop := ∀ k c, total records k c ≤ i64_max.

(** The rollup is the grouped sum of the terminal raw rows: a bucket exists
    exactly for the groups that have rows, and each of its counters is the sum. *)
Definition agree (records : Records) (hourly : Hourly) : Prop :=
  ∀ k, match hourly !! k with
       | None => total records k Requests = 0
       | Some b => 0 < total records k Requests ∧ ∀ c, cell b c = Int (total records k c)
       end.

Definition consistent (records : Records) (hourly : Hourly) : Prop :=
  rows_ok records ∧ fits records ∧ agree records hourly.

Lemma total_empty k c : total ∅ k c = 0.
Proof. apply map_fold_empty. Qed.

Lemma total_insert records i r k c :
  records !! i = None → total (<[i := r]> records) k c = amount r k c + total records k c.
Proof. intros Hi. unfold total. rewrite map_fold_insert_L; [done | intros; lia | done]. Qed.

Lemma total_delete records i r k c :
  records !! i = Some r → total records k c = amount r k c + total (delete i records) k c.
Proof.
  intros Hi. rewrite <- (insert_delete_id records i r Hi) at 1.
  apply total_insert, lookup_delete_eq.
Qed.

Lemma amount_nonneg r k c : row_ok r → 0 ≤ amount r k c.
Proof.
  intros Hr. unfold amount, StoredRow.contribution, contribution_amount.
  destruct (RequestStatus.is_terminal _); [| lia]. cbn [Contribution.key Contribution.metrics].
  destruct (decide _); [apply Hr | lia].
Qed.

Lemma amount_zero r k c : amount r k Requests = 0 → amount r k c = 0.
Proof.
  unfold amount. destruct (StoredRow.contribution _); [| done].
  unfold contribution_amount. destruct (decide _); [done | done].
Qed.

Lemma rows_ok_delete records i : rows_ok records → rows_ok (delete i records).
Proof. apply map_Forall_delete. Qed.

Lemma total_nonneg records k c : rows_ok records → 0 ≤ total records k c.
Proof.
  induction records as [|i r records Hi IH] using map_ind; [by rewrite total_empty |].
  rewrite total_insert by done. intros (Hr & Hok)%map_Forall_insert; [| done].
  pose proof (amount_nonneg r k c Hr). specialize (IH Hok). lia.
Qed.

Lemma total_zero records k c : rows_ok records → total records k Requests = 0 → total records k c = 0.
Proof.
  induction records as [|i r records Hi IH] using map_ind; [by rewrite total_empty |].
  rewrite !total_insert by done. intros (Hr & Hok)%map_Forall_insert E; [| done].
  pose proof (amount_nonneg r k Requests Hr). pose proof (total_nonneg records k Requests Hok).
  rewrite amount_zero, IH by (done || lia). done.
Qed.

Lemma fits_delete records i : rows_ok records → fits records → fits (delete i records).
Proof.
  intros Hok Hf k c. destruct (records !! i) as [r|] eqn:E; [| by rewrite delete_id].
  specialize (Hf k c). rewrite (total_delete _ _ _ _ _ E) in Hf.
  pose proof (amount_nonneg r k c (Hok i r E)). lia.
Qed.

(** The rollup is determined by the raw rows. *)
Lemma agree_unique records h h' : agree records h → agree records h' → h = h'.
Proof.
  intros Ha Ha'. apply map_eq. intros k. specialize (Ha k). specialize (Ha' k).
  destruct (h !! k) as [b|], (h' !! k) as [b'|]; [| lia | lia | done].
  f_equal. apply bucket_ext. intros c. destruct Ha as [_ ->], Ha' as [_ ->]. done.
Qed.

Lemma agree_empty : agree ∅ ∅.
Proof. intros k. rewrite lookup_empty. apply total_empty. Qed.

(** Rows without a contribution leave the agreement alone. *)
Lemma agree_same_totals records records' h :
  (∀ k c, total records' k c = total records k c) → agree records h → agree records' h.
Proof.
  intros E Ha k. specialize (Ha k). destruct (h !! k); rewrite !E; [| done].
  destruct Ha as [? Ha]. split; [done |]. intros c. by rewrite E.
Qed.

Lemma contribution_key_amount r ct k c :
  StoredRow.contribution (StoredRow.of_row r) = Some ct → amount r k c = contribution_amount ct k c.
Proof. intros E. unfold amount. by rewrite E. Qed.

Lemma add_agree records h i r ct :
  records !! i = None → StoredRow.contribution (StoredRow.of_row r) = Some ct →
  rows_ok (<[i := r]> records) → fits (<[i := r]> records) →
  agree records h → agree (<[i := r]> records) (Contribution.add ct h).
Proof.
  intros Hi Hct Hok Hf Ha k.
  assert (rows_ok records) as Hok' by (by apply map_Forall_insert in Hok as [_ ?]).
  assert (row_ok r) as Hr by (by apply (Hok i), lookup_insert_eq).
  unfold Contribution.add. specialize (Hf k). pose proof (Ha k) as Hk.
  pose proof (λ c, total_nonneg records k c Hok') as Hn.
  pose proof (λ c, amount_nonneg r k c Hr) as Hm.
  assert (∀ c, is_i64 (total records k c + amount r k c)) as Hi64.
  { intros c. specialize (Hn c). specialize (Hm c). specialize (Hf c).
    rewrite total_insert in Hf by done. ranges. lia. }
  destruct (decide (Contribution.key ct = k)) as [<-|Hne].
  - destruct (h !! Contribution.key ct) as [b|] eqn:Eb; rewrite lookup_insert_eq.
    + destruct Hk as [Hpos Hc]. rewrite total_insert by done. split; [specialize (Hm Requests); lia |].
      intros c. rewrite cell_update, Hc, total_insert by done. cbn [cell_add].
      specialize (Hi64 c). rewrite (contribution_key_amount _ _ _ _ Hct) in *.
      unfold contribution_amount in *. rewrite decide_True in * by done.
      rewrite cell_of_fits by done. f_equal. lia.
    + assert (∀ c, total (<[i := r]> records) (Contribution.key ct) c = metric (Contribution.metrics ct) c) as E.
      { intros c. rewrite total_insert by done. rewrite (total_zero _ _ c Hok' Hk).
        rewrite (contribution_key_amount _ _ _ _ Hct). unfold contribution_amount.
        rewrite decide_True by done. lia. }
      rewrite E. split; [simpl; lia |]. intros c. by rewrite E, cell_first.
  - assert (∀ c, total (<[i := r]> records) k c = total records k c) as E.
    { intros c. rewrite total_insert by done. rewrite (contribution_key_amount _ _ _ _ Hct).
      unfold contribution_amount. rewrite decide_False by done. lia. }
    destruct (h !! Contribution.key ct); rewrite lookup_insert_ne by done;
      destruct (h !! k); rewrite !E; [| done | | done];
      (destruct Hk as [? Hk]; split; [done |]; intros c; by rewrite E).
Qed.

Lemma retract_agree records h i r ct :
  records !! i = Some r → StoredRow.contribution (StoredRow.of_row r) = Some ct →
  rows_ok records → fits records →
  agree records h → agree (delete i records) (Contribution.retract ct h).
Proof.
  intros Hi Hct Hok Hf Ha k. pose proof (Ha k) as Hk.
  pose proof (rows_ok_delete _ i Hok) as Hok'. pose proof (fits_delete _ i Hok Hf k) as Hf'.
  pose proof (λ c, total_nonneg (delete i records) k c Hok') as Hn.
  pose proof (λ c, total_delete records i r k c Hi) as E.
  assert (∀ c, amount r k c = contribution_amount ct k c) as Ea by (intros; by apply contribution_key_amount).
  unfold Contribution.retract. destruct (decide (Contribution.key ct = k)) as [<-|Hne].
  - assert (∀ c, amount r (Contribution.key ct) c = metric (Contribution.metrics ct) c) as Em.
    { intros c. rewrite Ea. unfold contribution_amount. by rewrite decide_True. }
    destruct (h !! Contribution.key ct) as [b|] eqn:Eb.
    + destruct Hk as [Hpos Hc].
      assert (∀ c, cell (Contribution.update cell_sub b (Contribution.metrics ct)) c
                   = Int (total (delete i records) (Contribution.key ct) c)) as Ec.
      { intros c. rewrite cell_update, Hc. cbn [cell_sub]. rewrite E, Em, cell_of_fits; [f_equal; lia |].
        specialize (Hn c). specialize (Hf' c). ranges. lia. }
      pose proof (Ec Requests) as Er. cbn [cell] in Er. rewrite Er. cbn [cell_nonpos].
      destruct (Z.leb_spec (total (delete i records) (Contribution.key ct) Requests) 0).
      * rewrite lookup_delete_eq. specialize (Hn Requests). lia.
      * rewrite lookup_insert_eq. done.
    + rewrite E, Em in Hk. specialize (Hn Requests). simpl in Hk. lia.
  - assert (∀ c, total (delete i records) k c = total records k c) as E'.
    { intros c. rewrite E, Ea. unfold contribution_amount. rewrite decide_False by done. lia. }
    assert (∀ b', (if cell_nonpos (Bucket.request_count b') then delete (Contribution.key ct) h
                   else <[Contribution.key ct := b']> h) !! k = h !! k) as El.
    { intros b'. destruct (cell_nonpos _); [by rewrite lookup_delete_ne | by rewrite lookup_insert_ne]. }
    destruct (h !! Contribution.key ct); [rewrite El |];
      (destruct (h !! k); rewrite !E'; [| done]; destruct Hk as [? Hk]; split; [done |]; intros c; by rewrite E').
Qed.

Lemma fits_singleton i r :
  row_ok r → (∀ c, metric (StoredRow.metrics (StoredRow.of_row r)) c ≤ i64_max) → fits (<[i := r]> ∅).
Proof.
  intros Hr Hm k c. rewrite total_insert, total_empty by apply lookup_empty.
  unfold amount, StoredRow.contribution, contribution_amount.
  destruct (RequestStatus.is_terminal _); [| ranges; lia]. cbn [Contribution.key Contribution.metrics].
  destruct (decide _); [specialize (Hm c); lia | ranges; lia].
Qed.

Lemma consistent_empty : consistent ∅ ∅.
Proof.
  split_and!; [apply map_Forall_empty | intros k c; rewrite total_empty; ranges; lia | apply agree_empty].
Qed.
End Agreement.

(** Counters an addition of [m] keeps within 64 bits; a stored bucket is never empty. *)
Definition bucket_room (b : Bucket.t) (m : Metrics.t) : Prop :=
  (∃ n, Bucket.request_count b = Int n ∧ 0 < n)
  ∧ ∀ c, ∃ z, cell b c = Int z ∧ is_i64 z ∧ is_i64 (z + metric m c).

(** Retracting a contribution undoes adding it, exactly: the bucket's
    counters come back, a bucket the addition created is removed again, and no
    other bucket is touched by either. *)
Theorem retract_add (ct : Contribution.t) (hourly : Hourly)
    (Hroom : ∀ b, hourly !! Contribution.key ct = Some b → bucket_room b (Contribution.metrics ct)) :
  Contribution.retract ct (Contribution.add ct hourly) = hourly
  ∧ (∀ k, k ≠ Contribution.key ct →
       Contribution.add ct hourly !! k = hourly !! k ∧ Contribution.retract ct hourly !! k = hourly !! k).
Proof.
  split.
  - unfold Contribution.retract, Contribution.add.
    destruct (hourly !! Contribution.key ct) as [b|] eqn:Eb; rewrite lookup_insert_eq.
    + destruct (Hroom b eq_refl) as [(n & En & Hn) Hc].
      assert (Contribution.update cell_sub (Contribution.update cell_add b (Contribution.metrics ct))
                (Contribution.metrics ct) = b) as ->.
      { apply bucket_ext. intros c. rewrite !cell_update. destruct (Hc c) as (z & -> & Hz & Hz').
        cbn [cell_add]. rewrite cell_of_fits by done. cbn [cell_sub].
        rewrite Z.add_simpl_r. by apply cell_of_fits. }
      rewrite En. cbn [cell_nonpos]. destruct (Z.leb_spec n 0); [lia |].
      rewrite insert_insert_eq. by apply insert_id.
    + cbn. rewrite delete_insert_id by done. done.
  - intros k Hk. unfold Contribution.retract, Contribution.add.
    destruct (hourly !! Contribution.key ct); [| by rewrite lookup_insert_ne].
    rewrite lookup_insert_ne by done. split; [done |].
    destruct (cell_nonpos _); [by rewrite lookup_delete_ne | by rewrite lookup_insert_ne].
Qed.

Definition key_0712 : BucketKey.t := BucketKey.mk "2026-09-24T07" "acme" "gpt-4o" "chat_completions" 1.
Definition contribution_1 : Contribution.t :=
  Contribution.mk key_0712 (Metrics.mk 100 20 0 350 120 1 1 0).
Definition hourly_1 : Hourly := Contribution.add contribution_1 ∅.

Lemma retract_add_witness :
  (∀ b, hourly_1 !! key_0712 = Some b → bucket_room b (Contribution.metrics contribution_1))
  ∧ Contribution.retract contribution_1 (Contribution.add contribution_1 hourly_1) = hourly_1.
Proof.
  assert (∀ b, hourly_1 !! key_0712 = Some b → bucket_room b (Contribution.metrics contribution_1)) as H.
  { intros b. unfold hourly_1, Contribution.add. rewrite lookup_empty.
    change key_0712 with (Contribution.key contribution_1). rewrite lookup_insert_eq.
    intros [= <-]. split; [by exists 1 |].
    intros []; eexists; (split; [reflexivity |]); split; split; discriminate. }
  split; [exact H |]. exact (proj1 (retract_add contribution_1 hourly_1 H)).
Defined.
