(* ===== verification/Retention.v ===== *)
(** * The retention sweep ([src/src/ledger/retention.rs])

    Batched deletion of raw rows and rollup buckets older than the window, the
    reclamation of free pages, and what the sweep means for the agreement of
    raw rows and rollup. The tables are lists in the order of their [id]. *)

From stdpp Require Import base strings list gmap numbers fin_maps.
From Stdlib Require Import Ascii ZArith Lia.
From S2P Require Import Prelude TimeLib Calendar Timefmt Pricing Partner LedgerTypes Sql Rollup.

Local Open Scope Z_scope.

Definition DEFAULT_BATCH_SIZE : Z := 2000.
Definition DEFAULT_MAX_BATCHES : nat := 500.
Definition VACUUM_PAGES_PER_STATEMENT : Z := 64.
Definition MAX_VACUUM_STATEMENTS : nat := 128.

Module RetentionStats.
Record t : Type := mk {
  raw_deleted : Z;
  hourly_deleted : Z;
  batches : nat;
  hit_budget : bool;
  pages_reclaimed : Z;
  page_size : Z;
  duration_ms : Z }.

(** [..Default::default()] with the page size read from the file. *)
Definition start (page_size : Z) : t := mk 0 0 0 false 0 page_size 0.

(** [u64] arithmetic, in the range where it does not overflow. *)
Definition bytes_reclaimed (self : t) : Z := pages_reclaimed self * page_size self.
Definition total_deleted (self : t) : Z := raw_deleted self + hourly_deleted self.

Definition add_raw (self : t) (n : Z) : t :=
  mk (raw_deleted self + n) (hourly_deleted self) (S (batches self)) (hit_budget self)
    (pages_reclaimed self) (page_size self) (duration_ms self).
Definition add_hourly (self : t) (n : Z) : t :=
  mk (raw_deleted self) (hourly_deleted self + n) (S (batches self)) (hit_budget self)
    (pages_reclaimed self) (page_size self) (duration_ms self).
Definition out_of_budget (self : t) : t :=
  mk (raw_deleted self) (hourly_deleted self) (batches self) true
    (pages_reclaimed self) (page_size self) (duration_ms self).
Definition set_pages (self : t) (pages : Z) : t :=
  mk (raw_deleted self) (hourly_deleted self) (batches self) (hit_budget self)
    pages (page_size self) (duration_ms self).
Definition set_duration (self : t) (ms : Z) : t :=
  mk (raw_deleted self) (hourly_deleted self) (batches self) (hit_budget self)
    (pages_reclaimed self) (page_size self) ms.
End RetentionStats.

(** The tables a sweep touches. *)
Record Tables : Type := mkTables {
  usage_records : list (string * Row.t);
  usage_hourly : list (BucketKey.t * Bucket.t);
  last_retention_run : option string }.

(** [LIMIT ?2]: a negative limit is no limit. *)
Definition sql_limit (limit : Z) : option nat := if limit <? 0 then None else Some (Z.to_nat limit).

(** [DELETE ... WHERE id IN (SELECT id ... WHERE eligible ORDER BY id LIMIT n)]:
    the rows left, and how many went. *)
Fixpoint delete_slice {A} (eligible : A → bool) (limit : option nat) (rows : list A) : list A * Z :=
  match rows with
  | [] => ([], 0)
  | row :: rest =>
      match limit with
      | Some O => (rows, 0)
      | _ =>
          if eligible row
          then let '(kept, n) := delete_slice eligible (pred <$> limit) rest in (kept, n + 1)
          else let '(kept, n) := delete_slice eligible limit rest in (row :: kept, n)
      end
  end.

(** What happens around the slices: the writes other connections commit
    before the [k]-th slice, the error SQLite answers it with, the pages
    the [k]-th vacuum statement moves, the clock. *)
Record World : Type := mkWorld {
  interleaved : nat → Tables → Tables;
  refused : nat → option SqlError;
  vacuumed : nat → result Z SqlError;
  meta_refused : bool;
  elapsed_ms : Z;
  finished_at : string }.

Section Retention.
Context `{TimeCrate}.

(** [cutoff_for], [now] being [timefmt::now()]. *)
Definition cutoff_at (now : OffsetDateTime) (retention_days : Z) : OffsetDateTime :=
  let days := Z.max 1 retention_days in
  odt_add now (- (days * NS_PER_DAY)).
Definition cutoff_for (now : OffsetDateTime) (retention_days : Z) : string := format_ts (cutoff_at now retention_days).

Definition raw_old (cutoff : string) (p : string * Row.t) : bool := str_ltb (Row.created_at p.2) cutoff.
Definition hour_old (cutoff : string) (p : BucketKey.t * Bucket.t) : bool := str_ltb (BucketKey.hour p.1) cutoff.

(** The first loop; [left] is [max_batches - batches]. *)
Fixpoint raw_slices (w : World) (cutoff : string) (batch_size : Z) (left : nat) (t : Tables) (s : RetentionStats.t)
    : Tables * result RetentionStats.t SqlError :=
  match left with
  | O => (t, Ok (RetentionStats.out_of_budget s))
  | S left' =>
      let t := interleaved w (RetentionStats.batches s) t in
      match refused w (RetentionStats.batches s) with
      | Some e => (t, Err e)
      | None =>
          let '(rows, deleted) := delete_slice (raw_old cutoff) (sql_limit batch_size) (usage_records t) in
          let t := mkTables rows (usage_hourly t) (last_retention_run t) in
          let s := RetentionStats.add_raw s deleted in
          if deleted <? batch_size then (t, Ok s) else raw_slices w cutoff batch_size left' t s
      end
  end.

Fixpoint hourly_slices (w : World) (cutoff : string) (batch_size : Z) (left : nat) (t : Tables) (s : RetentionStats.t)
    : Tables * result RetentionStats.t SqlError :=
  match left with
  | O => (t, Ok (RetentionStats.out_of_budget s))
  | S left' =>
      let t := interleaved w (RetentionStats.batches s) t in
      match refused w (RetentionStats.batches s) with
      | Some e => (t, Err e)
      | None =>
          let '(rows, deleted) := delete_slice (hour_old cutoff) (sql_limit batch_size) (usage_hourly t) in
          let t := mkTables (usage_records t) rows (last_retention_run t) in
          let s := RetentionStats.add_hourly s deleted in
          if deleted <? batch_size then (t, Ok s) else hourly_slices w cutoff batch_size left' t s
      end
  end.

(** [reclaim_free_pages]: the pages moved, whether or not a statement fails. *)
Fixpoint reclaim_free_pages (vacuumed : nat → result Z SqlError) (left k : nat) (pages : Z) : Z :=
  match left with
  | O => pages
  | S left' =>
      match vacuumed k with
      | Err _ => pages
      | Ok reclaimed =>
          if reclaimed <? VACUUM_PAGES_PER_STATEMENT then pages + reclaimed
          else reclaim_free_pages vacuumed left' (S k) (pages + reclaimed)
      end
  end.

Definition run_retention (w : World) (now : OffsetDateTime) (page_size retention_days batch_size : Z)
    (max_batches : nat) (t : Tables) : Tables * result RetentionStats.t SqlError :=
  let cutoff := cutoff_for now retention_days in
  let batch_size := i64_wrap (Z.max 1 batch_size) in
  match raw_slices w cutoff batch_size max_batches t (RetentionStats.start page_size) with
  | (t, Err e) => (t, Err e)
  | (t, Ok s) =>
      match hourly_slices w cutoff batch_size (max_batches - RetentionStats.batches s) t s with
      | (t, Err e) => (t, Err e)
      | (t, Ok s) =>
          let '(t, s) :=
            if 0 <? RetentionStats.total_deleted s
            then (if meta_refused w then t else mkTables (usage_records t) (usage_hourly t) (Some (finished_at w)),
                  RetentionStats.set_pages s
                    (reclaim_free_pages (vacuumed w) MAX_VACUUM_STATEMENTS 0 (RetentionStats.pages_reclaimed s)))
            else (t, s) in
          (t, Ok (RetentionStats.set_duration s (elapsed_ms w)))
      end
  end.

(** The log line of [report]. *)
Inductive SweepReport : Type :=
  | NothingToPrune
  | NotInAutoVacuumMode (stats : RetentionStats.t)
  | SweepComplete (stats : RetentionStats.t) (bytes : Z).

Definition report (stats : RetentionStats.t) : SweepReport :=
  if RetentionStats.total_deleted stats =? 0 then NothingToPrune
  else if RetentionStats.pages_reclaimed stats =? 0 then NotInAutoVacuumMode stats
  else SweepComplete stats (RetentionStats.bytes_reclaimed stats).
End Retention.

(** ** Slices *)
Section Slices.
Context {A : Type} (eligible : A → bool).

(** A slice removes eligible rows only, keeps the order, and counts what it
    removed; a slice below its limit has left nothing eligible. *)
Lemma delete_slice_spec limit rows kept n :
  delete_slice eligible limit rows = (kept, n) →
  sublist kept rows ∧ 0 ≤ n ∧ Z.of_nat (length rows) = Z.of_nat (length kept) + n
  ∧ (∀ x, x ∈ rows → eligible x = false → x ∈ kept)
  ∧ filter (λ x, eligible x = false) kept = filter (λ x, eligible x = false) rows
  ∧ match limit with
    | Some l => n ≤ Z.of_nat l ∧ (n < Z.of_nat l → kept = filter (λ x, eligible x = false) rows)
                ∧ (n = Z.of_nat l ∨ kept = filter (λ x, eligible x = false) rows)
    | None => kept = filter (λ x, eligible x = false) rows
    end.
Proof.
  revert limit kept n. induction rows as [|x rows IH]; intros limit kept n E; cbn in E.
  { injection E as <- <-. split_and!; [done | lia | done | by intros ? ?%elem_of_nil | done |].
    destruct limit; [split_and!; [lia | done | by right] | done]. }
  rewrite !filter_cons.
  assert (limit = Some O ∨ limit ≠ Some O) as [->|Hl] by (destruct limit as [[]|]; auto).
  { injection E as <- <-. rewrite filter_cons. split_and!; first [done | lia | by left | idtac]. }
  assert ((if eligible x
           then let '(kept, n) := delete_slice eligible (pred <$> limit) rows in (kept, n + 1)
           else let '(kept, n) := delete_slice eligible limit rows in (x :: kept, n)) = (kept, n)) as E'.
  { destruct limit as [[|l]|]; done. }
  clear E. destruct (eligible x) eqn:Ex.
  - destruct (delete_slice eligible (pred <$> limit) rows) as [k m] eqn:Er. injection E' as <- <-.
    destruct (IH _ _ _ Er) as (I1 & I2 & I3 & I4 & I5 & I6). rewrite decide_False by done.
    split_and!; [by apply sublist_cons | lia | cbn [length]; lia | | done |].
    + intros y [->|Hy]%elem_of_cons Hey; [congruence | by apply I4].
    + destruct limit as [[|l]|]; cbn in I6; [done | | done]. destruct I6 as (J1 & J2 & J3).
      split_and!; [lia | intros; apply J2; lia | destruct J3; [left; lia | by right]].
  - destruct (delete_slice eligible limit rows) as [k m] eqn:Er. injection E' as <- <-.
    destruct (IH _ _ _ Er) as (I1 & I2 & I3 & I4 & I5 & I6). rewrite filter_cons, Ex, !decide_True by done.
    split_and!; [by apply sublist_skip | lia | cbn [length]; lia | | by f_equal |].
    + intros y [->|Hy]%elem_of_cons Hey; [by left | right; by apply I4].
    + destruct limit as [l|]; [| by f_equal]. destruct I6 as (J1 & J2 & J3).
      split_and!; [lia | intros; f_equal; by apply J2 | destruct J3; [by left | right; by f_equal]].
Qed.
End Slices.

(** ** Hours *)
Section Hours.
Context `{TimeCrate, !TimeLaws}.

Definition NS_PER_HOUR : Z := 3600 * NS_PER_SEC.

(** The hour an instant lies in, counted from the epoch. *)
Definition hour_of (t : OffsetDateTime) : Z := unix_timestamp_nanos t / NS_PER_HOUR.

Lemma str_ltb_render_hour f g :
  0 ≤ f_year f < 10 ^ Z.of_nat 4 → 0 ≤ f_month f < 10 ^ Z.of_nat 2 → 0 ≤ f_day f < 10 ^ Z.of_nat 2 → 0 ≤ f_hour f < 24 →
  0 ≤ f_year g < 10 ^ Z.of_nat 4 → 0 ≤ f_month g < 10 ^ Z.of_nat 2 → 0 ≤ f_day g < 10 ^ Z.of_nat 2 → 0 ≤ f_hour g < 24 →
  str_ltb (render HOUR_FORMAT f) (render HOUR_FORMAT g) = true ↔
    lex3 (f_year f, f_month f, f_day f) (f_year g, f_month g, f_day g)
    ∨ ((f_year f, f_month f, f_day f) = (f_year g, f_month g, f_day g) ∧ f_hour f < f_hour g).
Proof.
  intros. unfold HOUR_FORMAT. cbn [render render_item String.append]. unfold pad_num.
  change (10 ^ Z.of_nat 4) with 10000 in *. change (10 ^ Z.of_nat 2) with 100 in *.
  repeat (rewrite str_ltb_pad by (simpl; time_consts; lia); rewrite ?str_ltb_cons).
  rewrite str_ltb_irrefl. unfold lex3.
  rewrite !orb_true_iff, !andb_true_iff, !orb_true_iff, !andb_true_iff, !orb_true_iff, !andb_true_iff, !orb_true_iff, !andb_true_iff.
  rewrite !Z.ltb_lt, !Z.eqb_eq.
  assert (∀ a b c a' b' c' : Z, (a, b, c) = (a', b', c') ↔ a = a' ∧ b = b' ∧ c = c') as -> by naive_solver.
  intuition (try discriminate; lia).
Qed.

Lemma hour_of_fields t :
  ledger_instant t →
  hour_of t = (to_julian_day (odt_date (to_offset t 0)) - UNIX_EPOCH_JULIAN) * 24 + f_hour (utc_fields t).
Proof.
  intros Ht. destruct (utc_fields_range t Ht) as (_&_&_&?&?&?&?& E & _). unfold hour_of. rewrite E.
  symmetry. apply Z.div_unique with (f_minute (utc_fields t) * NS_PER_MINUTE + f_second (utc_fields t) * NS_PER_SEC + f_nano (utc_fields t)).
  - left. unfold NS_PER_HOUR. time_consts. lia.
  - unfold NS_PER_HOUR. time_consts. lia.
Qed.

(** Hour texts sort like the hours. *)
Lemma format_hour_lt a b :
  ledger_instant a → ledger_instant b → str_ltb (format_hour a) (format_hour b) = true ↔ hour_of a < hour_of b.
Proof.
  intros Ha Hb. rewrite !format_hour_render, !hour_of_fields by done.
  destruct (utc_fields_range a Ha) as (?&?&?&?&_&_&_&_& Da). destruct (utc_fields_range b Hb) as (?&?&?&?&_&_&_&_& Db).
  rewrite str_ltb_render_hour by done. rewrite <- Da, <- Db, <- ymd_order.
  assert (date_ymd (odt_date (to_offset a 0)) = date_ymd (odt_date (to_offset b 0)) ↔
    to_julian_day (odt_date (to_offset a 0)) = to_julian_day (odt_date (to_offset b 0))) as ->.
  { split; intros E; [| by rewrite (julian_inj _ _ E)].
    pose proof (ymd_order (odt_date (to_offset a 0)) (odt_date (to_offset b 0))) as O1.
    pose proof (ymd_order (odt_date (to_offset b 0)) (odt_date (to_offset a 0))) as O2. rewrite E in O1, O2.
    destruct (Z.lt_trichotomy (to_julian_day (odt_date (to_offset a 0))) (to_julian_day (odt_date (to_offset b 0))))
      as [L|[L|L]]; [apply O1 in L | done | apply O2 in L]; by destruct (lex3_asym _ _ L). }
  lia.
Qed.

Lemma format_hour_eq a b :
  ledger_instant a → ledger_instant b → format_hour a = format_hour b ↔ hour_of a = hour_of b.
Proof.
  intros Ha Hb. pose proof (format_hour_lt a b Ha Hb) as Hab. pose proof (format_hour_lt b a Hb Ha) as Hba. split.
  - intros E. rewrite E, str_ltb_irrefl in Hab. rewrite E, str_ltb_irrefl in Hba.
    destruct (Z.lt_trichotomy (hour_of a) (hour_of b)) as [L|[L|L]]; [by apply Hab in L | done | by apply Hba in L].
  - intros E. apply str_ltb_total; apply not_true_iff_false; intros L; [apply Hab in L | apply Hba in L]; lia.
Qed.

Lemma format_ts_split a :
  ledger_instant a → ∃ r, format_ts a = (format_hour a +:+ r)%string ∧ String.length (format_hour a) = 13%nat
    ∧ String.length r = 17%nat.
Proof.
  intros Ha. destruct (utc_fields_range a Ha) as (?&?&?&?&?&?&?&_).
  destruct (render_ts_shape (utc_fields a)) as (y & m & d & h & r & _ & Et & _ & _ & _ & _ & Hr); try done.
  destruct (format_hour_of_stored a Ha) as (_ & _ & Hl).
  exists (String ":" r). rewrite format_ts_render, format_hour_render in * by done. split_and!; [done | done |].
  cbn. by rewrite Hr.
Qed.

(** An hour is below a cutoff when it is not above the cutoff's own hour. *)
Lemma hour_below a c :
  ledger_instant a → ledger_instant c →
  str_ltb (format_hour a) (format_ts c) = str_ltb (format_hour a) (format_hour c) || bool_decide (format_hour a = format_hour c).
Proof.
  intros Ha Hc. destruct (format_ts_split a Ha) as (_ & _ & La & _). destruct (format_ts_split c Hc) as (r & -> & Lc & Lr).
  rewrite <- (str_app_nil_r (format_hour a)) at 1. rewrite str_ltb_app by congruence. destruct r; [done |].
  by rewrite andb_true_r.
Qed.

(** The comparison of the bucket's [DELETE], by hours. *)
Lemma hour_old_spec a c :
  ledger_instant a → ledger_instant c → str_ltb (format_hour a) (format_ts c) = true ↔ hour_of a ≤ hour_of c.
Proof.
  intros Ha Hc. rewrite hour_below, orb_true_iff, bool_decide_eq_true, format_hour_lt, format_hour_eq by done. lia.
Qed.
End Hours.

(** ** The window *)
Section Window.
Context `{TimeCrate, !TimeLaws}.

(** What holds before, survives the other writers and survives a slice holds
    afterwards, however the loop ends. *)
Lemma raw_slices_inv (P : Tables → Prop) w cutoff bs left t s :
  (∀ k u, P u → P (interleaved w k u)) →
  (∀ u, P u → P (mkTables (delete_slice (raw_old cutoff) (sql_limit bs) (usage_records u)).1
                  (usage_hourly u) (last_retention_run u))) →
  P t → P (raw_slices w cutoff bs left t s).1.
Proof.
  intros Hw Hs. revert t s. induction left as [|left IH]; intros t s Ht; cbn; [done |].
  destruct (refused w (RetentionStats.batches s)); [by apply Hw |].
  specialize (Hs _ (Hw (RetentionStats.batches s) t Ht)).
  destruct (delete_slice _ _ _) as [rows n]; cbn in *. destruct (n <? bs); [done | by apply IH].
Qed.

Lemma hourly_slices_inv (P : Tables → Prop) w cutoff bs left t s :
  (∀ k u, P u → P (interleaved w k u)) →
  (∀ u, P u → P (mkTables (usage_records u) (delete_slice (hour_old cutoff) (sql_limit bs) (usage_hourly u)).1
                  (last_retention_run u))) →
  P t → P (hourly_slices w cutoff bs left t s).1.
Proof.
  intros Hw Hs. revert t s. induction left as [|left IH]; intros t s Ht; cbn; [done |].
  destruct (refused w (RetentionStats.batches s)); [by apply Hw |].
  specialize (Hs _ (Hw (RetentionStats.batches s) t Ht)).
  destruct (delete_slice _ _ _) as [rows n]; cbn in *. destruct (n <? bs); [done | by apply IH].
Qed.

Lemma run_retention_inv (P : Tables → Prop) w now ps days bs mb t :
  (∀ k u, P u → P (interleaved w k u)) →
  (∀ l u, P u → P (mkTables (delete_slice (raw_old (cutoff_for now days)) l (usage_records u)).1
                    (usage_hourly u) (last_retention_run u))) →
  (∀ l u, P u → P (mkTables (usage_records u) (delete_slice (hour_old (cutoff_for now days)) l (usage_hourly u)).1
                    (last_retention_run u))) →
  (∀ m u, P u → P (mkTables (usage_records u) (usage_hourly u) m)) →
  P t → P (run_retention w now ps days bs mb t).1.
Proof.
  intros Hw Hr Hh Hm Ht. unfold run_retention.
  pose proof (raw_slices_inv P w (cutoff_for now days) (i64_wrap (Z.max 1 bs)) mb t (RetentionStats.start ps)
    Hw (Hr _) Ht) as H1.
  destruct (raw_slices _ _ _ _ _ _) as [t1 [s1|e]]; [| done].
  pose proof (hourly_slices_inv P w (cutoff_for now days) (i64_wrap (Z.max 1 bs)) (mb - RetentionStats.batches s1) t1 s1
    Hw (Hh _) H1) as H2.
  destruct (hourly_slices _ _ _ _ _ _) as [t2 [s2|e]]; [| done].
  destruct (0 <? _); [| done]. destruct (meta_refused w); [done | by apply Hm].
Qed.

Lemma delete_slice_keeps {A} (eligible : A → bool) l rows x :
  eligible x = false → x ∈ rows → x ∈ (delete_slice eligible l rows).1.
Proof.
  intros Hx Hin. destruct (delete_slice eligible l rows) as [kept n] eqn:E.
  apply delete_slice_spec in E as (_ & _ & _ & Hk & _). by apply Hk.
Qed.

End Window.

(** ** A quiet sweep *)
Section Quiet.
Context `{TimeCrate, !TimeLaws}.

(** Nobody else writes and nothing fails. *)
Definition quiet (w : World) : Prop := (∀ k u, interleaved w k u = u) ∧ ∀ k, refused w k = None.

Definition count {A} (P : A → bool) (l : list A) : Z := Z.of_nat (length (filter (λ x, P x = true) l)).
Definition fresh {A} (P : A → bool) (l : list A) : list A := filter (λ x, P x = false) l.

Lemma delete_slice_count {A} (P : A → bool) limit rows kept n :
  delete_slice P limit rows = (kept, n) → count P rows = count P kept + n ∧ 0 ≤ n ∧ fresh P kept = fresh P rows.
Proof.
  intros E. apply delete_slice_spec in E as (_ & Hn & Hl & _ & Hf & _). unfold count, fresh.
  rewrite (length_filter_split P rows), (length_filter_split P kept), Hf in Hl. split_and!; [lia | lia | done].
Qed.

Lemma count_fresh {A} (P : A → bool) l : count P (fresh P l) = 0.
Proof.
  unfold count, fresh. induction l as [|x l IH]; [done |]. rewrite filter_cons.
  destruct (P x) eqn:E; [by rewrite decide_False by congruence |].
  by rewrite decide_True, filter_cons, E, decide_False by done.
Qed.

Lemma delete_slice_limit {A} (P : A → bool) bs rows kept n :
  1 ≤ bs → delete_slice P (sql_limit bs) rows = (kept, n) →
  if n <? bs then kept = fresh P rows else n = bs.
Proof.
  intros Hbs E. apply delete_slice_spec in E as (_ & _ & _ & _ & _ & Hlim). unfold sql_limit in Hlim.
  destruct (Z.ltb_spec bs 0); [lia |]. rewrite Z2Nat.id in Hlim by lia.
  destruct Hlim as (Hle & Hlt & _). destruct (Z.ltb_spec n bs); [by apply Hlt | lia].
Qed.

(** Either loop, alone: the rows left, how many went, the slices it took, and
    whether it ran out of them. *)
Fixpoint sweep_rows {A} (P : A → bool) (bs : Z) (left : nat) (rows : list A) : list A * Z * nat * bool :=
  match left with
  | O => (rows, 0, O, true)
  | S left' =>
      let '(kept, n) := delete_slice P (sql_limit bs) rows in
      if n <? bs then (kept, n, 1%nat, false)
      else let '(kept, m, k, hit) := sweep_rows P bs left' kept in (kept, n + m, S k, hit)
  end.

Lemma sweep_rows_spec {A} (P : A → bool) bs left (rows : list A) :
  1 ≤ bs →
  let '(kept, n, k, hit) := sweep_rows P bs left rows in
  count P rows = count P kept + n ∧ fresh P kept = fresh P rows ∧ (k ≤ left)%nat
  ∧ (if hit : bool then k = left ∧ Z.of_nat left * bs ≤ count P rows
     else kept = fresh P rows ∧ Z.of_nat k = count P rows / bs + 1).
Proof.
  intros Hbs. revert rows. induction left as [|left IH]; intros rows; cbn [sweep_rows].
  { split_and!; [lia | done | done | done | unfold count; lia]. }
  destruct (delete_slice P (sql_limit bs) rows) as [kept n] eqn:E.
  pose proof (delete_slice_count _ _ _ _ _ E) as (Hc & Hn & Hf). pose proof (delete_slice_limit _ _ _ _ _ Hbs E) as Hl.
  destruct (Z.ltb_spec n bs) as [Hlt|Hge].
  - assert (count P kept = 0) as Hz.
    { rewrite Hl. apply count_fresh. }
    split_and!; [lia | done | lia | done |]. rewrite Z.div_small; lia.
  - specialize (IH kept). destruct (sweep_rows P bs left kept) as [[[kept' m] k] hit].
    destruct IH as (I1 & I2 & I3 & I4). split_and!; [lia | congruence | lia |]. subst n. destruct hit.
    + destruct I4 as [-> I4]. split; [done | lia].
    + destruct I4 as [-> I4]. split; [done |]. replace (count P rows) with (count P kept + 1 * bs) by lia.
      rewrite Z.div_add by lia. lia.
Qed.

Lemma raw_slices_quiet w cutoff bs left t s :
  quiet w →
  raw_slices w cutoff bs left t s =
    let '(rows, n, k, hit) := sweep_rows (raw_old cutoff) bs left (usage_records t) in
    (mkTables rows (usage_hourly t) (last_retention_run t),
     Ok (RetentionStats.mk (RetentionStats.raw_deleted s + n) (RetentionStats.hourly_deleted s)
           (RetentionStats.batches s + k) (hit || RetentionStats.hit_budget s) (RetentionStats.pages_reclaimed s)
           (RetentionStats.page_size s) (RetentionStats.duration_ms s))).
Proof.
  intros [Hw Hr]. revert t s. induction left as [|left IH]; intros t s; cbn [raw_slices sweep_rows].
  { destruct t, s. cbn. by rewrite Z.add_0_r, Nat.add_0_r. }
  rewrite Hw, Hr. destruct (delete_slice _ _ _) as [rows n]. destruct (n <? bs).
  - destruct s. cbn. by rewrite Nat.add_1_r.
  - rewrite IH. cbn [usage_records usage_hourly last_retention_run].
    destruct (sweep_rows _ _ _ _) as [[[rows' m] k] hit]. destruct s. cbn.
    by rewrite Z.add_assoc, Nat.add_succ_r.
Qed.

Lemma hourly_slices_quiet w cutoff bs left t s :
  quiet w →
  hourly_slices w cutoff bs left t s =
    let '(rows, n, k, hit) := sweep_rows (hour_old cutoff) bs left (usage_hourly t) in
    (mkTables (usage_records t) rows (last_retention_run t),
     Ok (RetentionStats.mk (RetentionStats.raw_deleted s) (RetentionStats.hourly_deleted s + n)
           (RetentionStats.batches s + k) (hit || RetentionStats.hit_budget s) (RetentionStats.pages_reclaimed s)
           (RetentionStats.page_size s) (RetentionStats.duration_ms s))).
Proof.
  intros [Hw Hr]. revert t s. induction left as [|left IH]; intros t s; cbn [hourly_slices sweep_rows].
  { destruct t, s. cbn. by rewrite Z.add_0_r, Nat.add_0_r. }
  rewrite Hw, Hr. destruct (delete_slice _ _ _) as [rows n]. destruct (n <? bs).
  - destruct s. cbn. by rewrite Nat.add_1_r.
  - rewrite IH. cbn [usage_records usage_hourly last_retention_run].
    destruct (sweep_rows _ _ _ _) as [[[rows' m] k] hit]. destruct s. cbn.
    by rewrite Z.add_assoc, Nat.add_succ_r.
Qed.

(** A quiet sweep in full. *)
Lemma run_retention_quiet w now ps days bs mb t :
  quiet w → 1 ≤ bs ≤ i64_max →
  let cutoff := cutoff_for now days in
  let raw := count (raw_old cutoff) (usage_records t) in
  let hourly := count (hour_old cutoff) (usage_hourly t) in
  ∃ t' s, run_retention w now ps days bs mb t = (t', Ok s)
  ∧ count (raw_old cutoff) (usage_records t') = raw - RetentionStats.raw_deleted s
  ∧ count (hour_old cutoff) (usage_hourly t') = hourly - RetentionStats.hourly_deleted s
  ∧ fresh (raw_old cutoff) (usage_records t') = fresh (raw_old cutoff) (usage_records t)
  ∧ fresh (hour_old cutoff) (usage_hourly t') = fresh (hour_old cutoff) (usage_hourly t)
  ∧ (RetentionStats.batches s ≤ mb)%nat
  ∧ (RetentionStats.hit_budget s = true → RetentionStats.batches s = mb ∧ Z.of_nat mb ≤ raw / bs + hourly / bs + 1)
  ∧ (RetentionStats.hit_budget s = false →
       usage_records t' = fresh (raw_old cutoff) (usage_records t)
       ∧ usage_hourly t' = fresh (hour_old cutoff) (usage_hourly t)).
Proof.
  intros Hq Hbs cutoff raw hourly. unfold run_retention. fold cutoff.
  unfold i64_wrap. rewrite Z.max_r, wrap_signed_id by (ranges; lia). rewrite raw_slices_quiet by done.
  pose proof (sweep_rows_spec (raw_old cutoff) bs mb (usage_records t) ltac:(lia)) as H1.
  destruct (sweep_rows (raw_old cutoff) _ _ _) as [[[rows n] k] hit1]. rewrite hourly_slices_quiet by done.
  cbn [RetentionStats.start RetentionStats.raw_deleted RetentionStats.hourly_deleted RetentionStats.batches
    RetentionStats.hit_budget RetentionStats.pages_reclaimed RetentionStats.page_size RetentionStats.duration_ms
    usage_hourly usage_records last_retention_run Nat.add].
  pose proof (sweep_rows_spec (hour_old cutoff) bs (mb - k) (usage_hourly t) ltac:(lia)) as H2.
  destruct (sweep_rows (hour_old cutoff) _ _ _) as [[[buckets m] k2] hit2].
  destruct H1 as (C1 & F1 & K1 & B1), H2 as (C2 & F2 & K2 & B2).
  assert ((hit2 || (hit1 || false))%bool = true →
    (k + k2)%nat = mb ∧ Z.of_nat mb ≤ raw / bs + hourly / bs + 1) as Hhit.
  { intros Hh. assert (∀ c z, z * bs ≤ c → z ≤ c / bs) as Hdiv by (intros c z Hz; apply Z.div_le_lower_bound; lia).
    assert (0 ≤ raw / bs ∧ 0 ≤ hourly / bs) as [] by (split; apply Z.div_pos; unfold raw, hourly, count; lia).
    destruct hit1, hit2; [| | | done].
    - destruct B1 as [-> B1]. apply Hdiv in B1. fold raw in B1. split; lia.
    - destruct B1 as [-> B1]. apply Hdiv in B1. fold raw in B1. split; lia.
    - destruct B1 as [_ B1], B2 as [-> B2]. apply Hdiv in B2. fold raw in B1. fold hourly in B2. split; lia. }
  assert ((hit2 || (hit1 || false))%bool = false →
    rows = fresh (raw_old cutoff) (usage_records t) ∧ buckets = fresh (hour_old cutoff) (usage_hourly t)) as Hall.
  { destruct hit1, hit2; try done. intros _. split; [apply B1 | apply B2]. }
  destruct (0 <? _); [destruct (meta_refused w) |]; (eexists _, _; split; [reflexivity |]); cbn;
    (split_and!; [unfold raw; lia | unfold hourly; lia | done | done | lia | exact Hhit | exact Hall]).
Qed.

(** A sweep ends, and says truthfully what it did. When nobody interferes
    it succeeds within its slice budget; the rows and buckets it leaves are
    the old ones minus exactly the counts it reports, everything inside the
    window untouched and in order; when it does not report an exhausted
    budget nothing eligible is left; and a budget larger than
    [raw / batch + hourly / batch + 1] slices is never exhausted. *)
Theorem sweep_complete (w : World) (now : OffsetDateTime) (ps days bs : Z) (mb : nat) (t : Tables)
    (Hq : quiet w) (Hbs : 1 ≤ bs ≤ i64_max) :
  let cutoff := cutoff_for now days in
  let raw := count (raw_old cutoff) (usage_records t) in
  let hourly := count (hour_old cutoff) (usage_hourly t) in
  ∃ t' s, run_retention w now ps days bs mb t = (t', Ok s)
  ∧ count (raw_old cutoff) (usage_records t') = raw - RetentionStats.raw_deleted s
  ∧ count (hour_old cutoff) (usage_hourly t') = hourly - RetentionStats.hourly_deleted s
  ∧ fresh (raw_old cutoff) (usage_records t') = fresh (raw_old cutoff) (usage_records t)
  ∧ fresh (hour_old cutoff) (usage_hourly t') = fresh (hour_old cutoff) (usage_hourly t)
  ∧ (RetentionStats.batches s ≤ mb)%nat
  ∧ (RetentionStats.hit_budget s = true → RetentionStats.batches s = mb ∧ Z.of_nat mb ≤ raw / bs + hourly / bs + 1)
  ∧ (RetentionStats.hit_budget s = false →
       usage_records t' = fresh (raw_old cutoff) (usage_records t)
       ∧ usage_hourly t' = fresh (hour_old cutoff) (usage_hourly t)).
Proof. by apply run_retention_quiet. Qed.
(** C37. What a sweep deletes. Whatever other connections commit between its slices
    and wherever it fails, a request accepted at or after the cutoff that nobody
    else removes is still there, and so is the bucket of every hour after the
    cutoff's own. A sweep that nobody disturbs and that ends within its budget
    leaves exactly those: of the requests, the ones accepted at or after the
    cutoff; of the buckets, those of a later hour than the cutoff's. So the
    bucket of the cutoff's own hour goes with every sweep, also when requests of
    that hour are inside the window and stay, or when the cutoff is the hour's
    first instant: raw rows and rollup do not go together there, as ADR 0005
    says they do. The cutoff is as many days before the sweep as are configured,
    and at least one. *)
Theorem sweep_keeps_window (w : World) (now c : OffsetDateTime) (ps days bs : Z) (mb : nat) (t : Tables)
    (Hcut : ledger_instant c) (Hdays : unix_timestamp_nanos c = unix_timestamp_nanos now - Z.max 1 days * NS_PER_DAY) :
  let '(t', r) := run_retention w now ps days bs mb t in
  (∀ id row a, (id, row) ∈ usage_records t → Row.created_at row = format_ts a → ledger_instant a →
     unix_timestamp_nanos c ≤ unix_timestamp_nanos a →
     (∀ k u, (id, row) ∈ usage_records u → (id, row) ∈ usage_records (interleaved w k u)) →
     (id, row) ∈ usage_records t')
  ∧ (∀ key b a, (key, b) ∈ usage_hourly t → BucketKey.hour key = format_hour a → ledger_instant a →
     unix_timestamp_nanos c / NS_PER_HOUR < unix_timestamp_nanos a / NS_PER_HOUR →
     (∀ k u, (key, b) ∈ usage_hourly u → (key, b) ∈ usage_hourly (interleaved w k u)) →
     (key, b) ∈ usage_hourly t')
  ∧ (quiet w → 1 ≤ bs ≤ i64_max → RetentionStats.hit_budget (unwrap_or r (RetentionStats.start ps)) = false →
     (∀ id row a, Row.created_at row = format_ts a → ledger_instant a →
        (id, row) ∈ usage_records t' ↔
        (id, row) ∈ usage_records t ∧ unix_timestamp_nanos c ≤ unix_timestamp_nanos a)
     ∧ (∀ key b a, BucketKey.hour key = format_hour a → ledger_instant a →
        (key, b) ∈ usage_hourly t' ↔
        (key, b) ∈ usage_hourly t ∧ unix_timestamp_nanos c / NS_PER_HOUR < unix_timestamp_nanos a / NS_PER_HOUR)).
Proof.
  destruct (odt_add_instant now (- (Z.max 1 days * NS_PER_DAY)) c Hcut ltac:(lia)) as [Hcut' Ec].
  change (odt_add now (- (Z.max 1 days * NS_PER_DAY))) with (cutoff_at now days) in *. rewrite <- Ec.
  fold (hour_of (cutoff_at now days)). destruct (run_retention w now ps days bs mb t) as [t' r] eqn:E.
  assert (t' = (run_retention w now ps days bs mb t).1) as Et by (by rewrite E).
  assert (∀ id row a, Row.created_at row = format_ts a → ledger_instant a →
    raw_old (cutoff_for now days) (id, row) = false ↔ unix_timestamp_nanos (cutoff_at now days) ≤ unix_timestamp_nanos a) as Hraw.
  { intros id row a Ea Ha. unfold raw_old, cutoff_for. cbn. rewrite Ea, <- not_true_iff_false, format_ts_lt by done. lia. }
  assert (∀ (key : BucketKey.t) (b : Bucket.t) a, BucketKey.hour key = format_hour a → ledger_instant a →
    hour_old (cutoff_for now days) (key, b) = false ↔ hour_of (cutoff_at now days) < hour_of a) as Hhour.
  { intros key b a Ea Ha. unfold hour_old, cutoff_for. cbn. rewrite Ea, <- not_true_iff_false, hour_old_spec by done. lia. }
  split_and!.
  - intros id row a Hin Ea Ha Hle Hw. rewrite Et. apply (run_retention_inv (λ u, (id, row) ∈ usage_records u)); auto.
    intros l u Hu. apply delete_slice_keeps; [| done]. by apply (Hraw id row a).
  - intros key b a Hin Ea Ha Hlt Hw. rewrite Et. apply (run_retention_inv (λ u, (key, b) ∈ usage_hourly u)); auto.
    intros l u Hu. apply delete_slice_keeps; [| done]. by apply (Hhour key b a).
  - intros Hq Hbs Hdone. destruct (run_retention_quiet w now ps days bs mb t Hq Hbs) as (u & s & Eu & _ & _ & _ & _ & _ & _ & Hall).
    rewrite E in Eu. injection Eu as <- ->. destruct (Hall Hdone) as [-> ->]. split.
    + intros id row a Ea Ha. unfold fresh. rewrite list_elem_of_filter, (Hraw id row a Ea Ha). apply and_comm.
    + intros key b a Ea Ha. unfold fresh. rewrite list_elem_of_filter, (Hhour key b a Ea Ha). apply and_comm.
Qed.
End Quiet.

(** ** Raw rows and rollup after a sweep *)
Section Boundary.
Context `{TimeCrate, !TimeLaws}.

Definition records_of (t : Tables) : Records := list_to_map (usage_records t).
Definition hourly_of (t : Tables) : Hourly := list_to_map (usage_hourly t).

(** Unique request ids, unique bucket keys, timestamps as the program writes them. *)
Definition tables_ok (t : Tables) : Prop :=
  NoDup (usage_records t).*1 ∧ NoDup (usage_hourly t).*1
  ∧ ∀ id row, (id, row) ∈ usage_records t → ∃ a, ledger_instant a ∧ Row.created_at row = format_ts a.

Lemma ts_below a c :
  ledger_instant a → ledger_instant c →
  format_hour a ≠ format_hour c → str_ltb (format_ts a) (format_ts c) = str_ltb (format_hour a) (format_hour c).
Proof.
  intros Ha Hc Hne. destruct (format_ts_split a Ha) as (ra & -> & La & _). destruct (format_ts_split c Hc) as (rc & -> & Lc & _).
  rewrite str_ltb_app by congruence. by rewrite bool_decide_false, andb_false_l, orb_false_r by done.
Qed.

Definition key_of (row : Row.t) : BucketKey.t := StoredRow.key (StoredRow.of_row row).
Definition counted (row : Row.t) : bool := RequestStatus.is_terminal (RequestStatus.from_str_lossy (Row.request_status row)).

Lemma amount_counted row k c :
  amount row k c = if counted row && bool_decide (key_of row = k) then metric (StoredRow.metrics (StoredRow.of_row row)) c else 0.
Proof.
  unfold amount, counted, StoredRow.contribution. cbn [StoredRow.of_row StoredRow.status].
  destruct (RequestStatus.is_terminal _); [| done]. unfold contribution_amount, key_of. cbn.
  destruct (decide _) as [E|E]; [by rewrite bool_decide_true | by rewrite bool_decide_false].
Qed.

Lemma total_list (l : list (string * Row.t)) k c :
  NoDup l.*1 → total (list_to_map l) k c = zsum ((λ p, amount p.2 k c) <$> l).
Proof.
  induction l as [|[id row] l IH]; intros Hnd; cbn; [apply total_empty |]. apply NoDup_cons in Hnd as [Hni Hnd].
  rewrite total_insert by (by apply not_elem_of_list_to_map). unfold zsum in *. cbn. by rewrite IH.
Qed.

Lemma zsum_fresh {A} (P : A → bool) (f : A → Z) l :
  (∀ x, x ∈ l → P x = true → f x = 0) → zsum (f <$> fresh P l) = zsum (f <$> l).
Proof.
  intros Hz. induction l as [|x l IH]; [done |]. unfold fresh. rewrite filter_cons.
  assert (zsum (f <$> fresh P l) = zsum (f <$> l)) as E by (apply IH; intros y Hy; apply Hz; by right).
  unfold zsum, fresh in *. destruct (decide (P x = false)) as [Hp|Hp]; cbn; rewrite E; [done |].
  rewrite (Hz x); [lia | by left | by apply not_false_iff_true].
Qed.

Lemma fresh_NoDup {K V} (P : K * V → bool) l : NoDup l.*1 → NoDup (fresh P l).*1.
Proof.
  unfold fresh. induction l as [|p l IH]; [done |]. rewrite fmap_cons, filter_cons. intros [Hni Hnd]%NoDup_cons.
  destruct (decide _); [| by apply IH]. rewrite fmap_cons. constructor; [| by apply IH].
  intros (q & Eq & [_ Hq]%list_elem_of_filter)%list_elem_of_fmap. apply Hni. rewrite Eq. by apply list_elem_of_fmap_2.
Qed.

Lemma lookup_fresh {V} (P : BucketKey.t * V → bool) (l : list (BucketKey.t * V)) k :
  NoDup l.*1 →
  list_to_map (M := gmap BucketKey.t V) (fresh P l) !! k =
    match list_to_map (M := gmap BucketKey.t V) l !! k with Some b => if P (k, b) then None else Some b | None => None end.
Proof.
  induction l as [|[j b] l IH]; intros Hnd; [done |]. rewrite fmap_cons in Hnd. apply NoDup_cons in Hnd as [Hni Hnd].
  unfold fresh. rewrite filter_cons, list_to_map_cons. fold (fresh P l). destruct (decide (j = k)) as [->|Hne].
  - rewrite lookup_insert_eq. destruct (P (k, b)) eqn:E.
    + rewrite decide_False by congruence. rewrite (IH Hnd). apply not_elem_of_list_to_map in Hni. cbn in Hni. by rewrite Hni.
    + rewrite decide_True by done. rewrite list_to_map_cons. by rewrite lookup_insert_eq.
  - rewrite lookup_insert_ne by done. rewrite <- (IH Hnd). destruct (decide _); [| done].
    rewrite list_to_map_cons. by rewrite lookup_insert_ne.
Qed.
(** Agreement at one bucket; [agree] is agreement at every one. *)
Definition agree_at (records : Records) (hourly : Hourly) (k : BucketKey.t) : Prop :=
  match hourly !! k with
  | None => total records k Requests = 0
  | Some b => 0 < total records k Requests ∧ ∀ c, cell b c = Int (total records k c)
  end.

(** A row of the bucket [k] is eligible exactly when the bucket is, save in
    the cutoff's own hour. *)
Lemma same_side c a row k :
  ledger_instant c → ledger_instant a → Row.created_at row = format_ts a → key_of row = k →
  BucketKey.hour k = format_hour a
  ∧ (BucketKey.hour k ≠ format_hour c → str_ltb (Row.created_at row) (format_ts c) = str_ltb (BucketKey.hour k) (format_ts c)).
Proof.
  intros Hc Ha Ea <-. assert (BucketKey.hour (key_of row) = format_hour a) as Eh.
  { cbn. rewrite Ea. by apply format_hour_of_stored. }
  split; [done |]. rewrite Eh, Ea. intros Hne. rewrite ts_below, hour_below by done.
  by rewrite bool_decide_false, orb_false_r.
Qed.

Lemma fresh_agree_at (c : OffsetDateTime) (t : Tables) rows buckets k :
  tables_ok t → ledger_instant c → agree_at (records_of t) (hourly_of t) k → BucketKey.hour k ≠ format_hour c →
  rows = fresh (raw_old (format_ts c)) (usage_records t) → buckets = fresh (hour_old (format_ts c)) (usage_hourly t) →
  agree_at (list_to_map rows) (list_to_map buckets) k.
Proof.
  intros (Hnr & Hnh & Hts) Hc Hag Hne -> ->. unfold agree_at, records_of, hourly_of in *.
  rewrite lookup_fresh by done.
  assert (∀ p, p ∈ usage_records t → ∀ col, amount p.2 k col ≠ 0 →
    raw_old (format_ts c) p = str_ltb (BucketKey.hour k) (format_ts c)) as Hside.
  { intros [id row] Hin col Ham. rewrite amount_counted in Ham. cbn in Ham.
    destruct (counted row); [| done]. destruct (decide (key_of row = k)) as [Ek|Ek];
      [| by rewrite bool_decide_false in Ham].
    destruct (Hts id row Hin) as (a & Ha & Ea). by apply (same_side c a row k). }
  assert (NoDup (fresh (raw_old (format_ts c)) (usage_records t)).*1) as Hnf.
  { by apply fresh_NoDup. }
  assert (∀ f : Z, (∃ col, f = total (list_to_map (fresh (raw_old (format_ts c)) (usage_records t))) k col) →
    str_ltb (BucketKey.hour k) (format_ts c) = true → f = 0) as Hzero.
  { intros f [col ->] Hold. rewrite total_list by done.
    assert (∀ p, p ∈ fresh (raw_old (format_ts c)) (usage_records t) → amount p.2 k col = 0) as Hz.
    { intros p [Hf Hin]%list_elem_of_filter. destruct (decide (amount p.2 k col = 0)) as [|Hz]; [done |].
      rewrite (Hside p Hin col Hz), Hold in Hf. done. }
    by apply zsum_zero. }
  destruct (str_ltb (BucketKey.hour k) (format_ts c)) eqn:Eold.
  - assert (∀ b, hour_old (format_ts c) (k, b) = true) as Hb by (intros b; exact Eold).
    destruct (list_to_map (usage_hourly t) !! k); rewrite ?Hb; by apply Hzero; [eexists |].
  - assert (∀ b, hour_old (format_ts c) (k, b) = false) as Hb by (intros b; exact Eold).
    assert (∀ col, total (list_to_map (fresh (raw_old (format_ts c)) (usage_records t))) k col
      = total (list_to_map (usage_records t)) k col) as Htot.
    { intros col. rewrite !total_list by done. apply zsum_fresh. intros p Hin Hp.
      destruct (decide (amount p.2 k col = 0)) as [|Hz]; [done |]. rewrite (Hside p Hin col Hz) in Hp. done. }
    destruct (list_to_map (usage_hourly t) !! k) as [b|]; rewrite ?Hb, !Htot; [| done].
    destruct Hag as [Hpos Hcell]. split; [done |]. intros col. by rewrite Htot.
Qed.

(** A counted row makes its bucket's count positive. *)
Lemma total_positive (l : list (string * Row.t)) id row :
  NoDup l.*1 → (id, row) ∈ l → counted row = true → 0 < total (list_to_map l) (key_of row) Requests.
Proof.
  intros Hnd Hin Hc. rewrite total_list by done.
  assert (∀ r, 0 ≤ amount r (key_of row) Requests) as Hnn.
  { intros r. rewrite amount_counted. destruct (_ && _); cbn; lia. }
  assert (amount row (key_of row) Requests = 1) as H1.
  { rewrite amount_counted, Hc. by rewrite bool_decide_true. }
  clear Hnd. induction l as [|p l IH]; [by apply elem_of_nil in Hin |].
  assert (0 ≤ zsum ((λ p, amount p.2 (key_of row) Requests) <$> l)) as Hz.
  { apply zsum_nonneg, Forall_fmap, Forall_true. intros q. apply Hnn. }
  rewrite fmap_cons, zsum_cons. apply elem_of_cons in Hin as [<-|Hin].
  - cbn [snd]. rewrite H1. lia.
  - pose proof (Hnn p.2). specialize (IH Hin). lia.
Qed.

(** What a sweep does to the rollup. Raw rows and rollup agreed before a
    completed sweep; afterwards they agree at every bucket outside the
    cutoff's own hour. The bucket of the cutoff's own hour is always gone,
    because an hour text is below every timestamp of that hour, so the tables
    still agree as a whole exactly when no counted request of that hour was
    accepted at or after the cutoff. *)
Theorem sweep_agreement (w : World) (now : OffsetDateTime) (ps days bs : Z) (mb : nat) (t t' : Tables)
    (s : RetentionStats.t) (Hq : quiet w) (Hbs : 1 ≤ bs ≤ i64_max) (Hok : tables_ok t)
    (Hcut : ledger_instant (cutoff_at now days)) (Hagree : agree (records_of t) (hourly_of t))
    (Hrun : run_retention w now ps days bs mb t = (t', Ok s)) (Hdone : RetentionStats.hit_budget s = false) :
  (∀ k, BucketKey.hour k ≠ format_hour (cutoff_at now days) → agree_at (records_of t') (hourly_of t') k)
  ∧ (∀ k, BucketKey.hour k = format_hour (cutoff_at now days) → hourly_of t' !! k = None)
  ∧ (agree (records_of t') (hourly_of t') ↔
       ∀ id row, (id, row) ∈ usage_records t' → counted row = true →
         BucketKey.hour (key_of row) ≠ format_hour (cutoff_at now days)).
Proof.
  destruct (run_retention_quiet w now ps days bs mb t Hq Hbs) as (u & s' & Eu & _ & _ & _ & _ & _ & _ & Hall).
  rewrite Hrun in Eu. injection Eu as <- <-. destruct (Hall Hdone) as [Er Eh]. clear Hall Hrun.
  unfold cutoff_for in *. set (c := cutoff_at now days) in *. unfold records_of, hourly_of. rewrite Er, Eh.
  assert (∀ k, BucketKey.hour k ≠ format_hour c →
    agree_at (list_to_map (fresh (raw_old (format_ts c)) (usage_records t)))
      (list_to_map (fresh (hour_old (format_ts c)) (usage_hourly t))) k) as Hout.
  { intros k Hk. by eapply (fresh_agree_at c t); [| | apply Hagree | | |]. }
  assert (∀ k, BucketKey.hour k = format_hour c →
    list_to_map (M := Hourly) (fresh (hour_old (format_ts c)) (usage_hourly t)) !! k = None) as Hgone.
  { intros k Hk. rewrite lookup_fresh by apply Hok. destruct (list_to_map _ !! k); [| done].
    unfold hour_old. cbn. rewrite Hk, hour_below by done. by rewrite bool_decide_true, orb_true_r. }
  split_and!; [exact Hout | exact Hgone |]. split.
  - intros Hag id row Hin Hcount Ek. specialize (Hag (key_of row)). rewrite (Hgone _ Ek) in Hag.
    pose proof (total_positive (fresh (raw_old (format_ts c)) (usage_records t)) id row) as Hp.
    rewrite Hag in Hp. specialize (Hp ltac:(by apply fresh_NoDup, Hok) Hin Hcount).
    lia.
  - intros Hno k. destruct (decide (BucketKey.hour k = format_hour c)) as [Ek|Ek]; [| by apply Hout].
    rewrite (Hgone k Ek). rewrite total_list by (by apply fresh_NoDup, Hok).
    apply zsum_zero. intros p Hin. rewrite amount_counted. destruct p as [id row]. cbn.
    destruct (counted row) eqn:Ec; [| done]. rewrite bool_decide_false; [done |].
    intros <-. by apply (Hno id row Hin Ec).
Qed.
End Boundary.

(** ** At concrete tables: one request of the cutoff's hour, half a second after it *)
Definition quiet_world : World := mkWorld (λ _ u, u) (λ _, None) (λ _, Ok 0) false 3 "2026-09-25T07:12:33.123456789Z".

Lemma quiet_world_quiet : quiet quiet_world.
Proof. split; reflexivity. Qed.

Definition now_1 : OffsetDateTime := odt_add t1 NS_PER_DAY.
Definition row_0712 : Row.t :=
  Row.mk (format_ts t2) "acme" "gpt-4o" "chat_completions" 1 (Some 200) "completed" None (Some 1000) (Some 20)
    (Some 400) (Some 120) 350 "available" None None (Some 95000) (Some 47500) (Some 475000).
Definition bucket_0712 : Bucket.t := Contribution.first (StoredRow.metrics (StoredRow.of_row row_0712)).
Definition tables_1 : Tables :=
  mkTables [("req-1"%string, row_0712)] [(key_of row_0712, bucket_0712)] None.
Definition swept_1 : Tables * result RetentionStats.t SqlError := run_retention quiet_world now_1 4096 1 2000 500 tables_1.
Definition swept_stats : RetentionStats.t := unwrap_or swept_1.2 (RetentionStats.start 4096).

Lemma swept_1_Ok : run_retention quiet_world now_1 4096 1 2000 500 tables_1 = (swept_1.1, Ok swept_stats).
Proof.
  assert (is_ok swept_1.2 = true) as Hok by (vm_compute; reflexivity).
  unfold swept_stats. rewrite <- (is_ok_unwrap_or swept_1.2 _ Hok). exact (surjective_pairing swept_1).
Qed.

Lemma cutoff_1_instant : ledger_instant (cutoff_at now_1 1).
Proof. concrete. Qed.

Lemma row_0712_ok : row_ok row_0712 ∧ ∀ c, metric (StoredRow.metrics (StoredRow.of_row row_0712)) c ≤ i64_max.
Proof. split; intros []; ranges; cbn; lia. Qed.

Lemma tables_1_ok : tables_ok tables_1.
Proof.
  split_and!; [apply NoDup_singleton | apply NoDup_singleton |].
  intros id row Hin. apply list_elem_of_singleton in Hin. assert (row = row_0712) as -> by congruence.
  exists t2. split; [exact ledger_instant_t2 | reflexivity].
Qed.

Lemma tables_1_agree : agree (records_of tables_1) (hourly_of tables_1).
Proof.
  set (ct := Contribution.mk (key_of row_0712) (StoredRow.metrics (StoredRow.of_row row_0712))).
  assert (hourly_of tables_1 = Contribution.add ct ∅) as ->.
  { unfold Contribution.add. rewrite lookup_empty. reflexivity. }
  change (records_of tables_1) with (<["req-1"%string := row_0712]> (∅ : Records)).
  apply add_agree.
  - apply lookup_empty.
  - reflexivity.
  - apply map_Forall_insert_2; [apply row_0712_ok | apply map_Forall_empty].
  - apply fits_singleton; apply row_0712_ok.
  - apply consistent_empty.
Qed.

(** The sweep keeps the request and drops its bucket. *)
Lemma sweep_agreement_witness :
  agree (records_of tables_1) (hourly_of tables_1) ∧ ¬ agree (records_of swept_1.1) (hourly_of swept_1.1).
Proof.
  split; [exact tables_1_agree |].
  assert (1 ≤ 2000 ≤ i64_max) as Hbs by (ranges; lia).
  assert (RetentionStats.hit_budget swept_stats = false) as Hdone by (vm_compute; reflexivity).
  pose proof (sweep_agreement quiet_world now_1 4096 1 2000 500 tables_1 swept_1.1 swept_stats quiet_world_quiet Hbs
    tables_1_ok cutoff_1_instant tables_1_agree swept_1_Ok Hdone) as (_ & _ & T).
  intros Hag. apply (proj1 T Hag "req-1"%string row_0712); [| reflexivity | vm_compute; reflexivity].
  replace (usage_records swept_1.1) with [("req-1"%string, row_0712)] by (vm_compute; reflexivity). by left.
Defined.

Lemma sweep_complete_witness :
  ∃ t' s, run_retention quiet_world now_1 4096 1 2000 500 tables_1 = (t', Ok s) ∧ RetentionStats.hit_budget s = false.
Proof.
  assert (1 ≤ 2000 ≤ i64_max) as Hbs by (ranges; lia).
  destruct (sweep_complete quiet_world now_1 4096 1 2000 500 tables_1 quiet_world_quiet Hbs)
    as (t' & s & E & _ & _ & _ & _ & _ & Hhit & _).
  exists t', s. split; [exact E |]. destruct (RetentionStats.hit_budget s); [| reflexivity].
  exfalso. destruct (Hhit eq_refl) as [_ Hle]. revert Hle. vm_compute. intros Hle. by apply Hle.
Defined.

(** The request stays, its bucket goes. *)
Lemma sweep_keeps_window_witness :
  ("req-1"%string, row_0712) ∈ usage_records swept_1.1 ∧ (key_of row_0712, bucket_0712) ∉ usage_hourly swept_1.1.
Proof.
  pose proof (sweep_keeps_window quiet_world now_1 t1 4096 1 2000 500 tables_1 ledger_instant_t1 eq_refl) as T.
  assert (RetentionStats.hit_budget (unwrap_or (run_retention quiet_world now_1 4096 1 2000 500 tables_1).2 (RetentionStats.start 4096))
    = false) as Hdone by (vm_compute; reflexivity).
  unfold swept_1. destruct (run_retention quiet_world now_1 4096 1 2000 500 tables_1) as [t' r].
  destruct T as (Tr & _ & Tq). cbn [fst snd] in *. split.
  - refine (Tr "req-1"%string row_0712 t2 _ eq_refl ledger_instant_t2 _ _); [by left | concrete | done].
  - destruct (Tq quiet_world_quiet ltac:(ranges; lia) Hdone) as [_ Th].
    rewrite (Th (key_of row_0712) bucket_0712 t2); [| vm_compute; reflexivity | exact ledger_instant_t2].
    intros [_ Hlt]. revert Hlt. vm_compute. discriminate.
Defined.

(** The line that says the database is not in auto-vacuum mode is written for
    every sweep that frees no whole page, whatever the mode. *)
Example report_blames_the_mode :
  (∀ k, vacuumed quiet_world k = Ok 0) ∧ report swept_stats = NotInAutoVacuumMode swept_stats.
Proof. split; [done |]. vm_compute. reflexivity. Qed.
