(* ===== verification/Json.v ===== *)
(** * JSON values as the program reads them

    [serde_json] is a third-party crate: its value type and the reads the
    program makes are the fields of the class [SerdeJson]. [TinyJson] is a
    concrete instance, objects and arrays of texts, numbers, booleans and [null],
    that the examples compute with. *)

From stdpp Require Import base strings list numbers.
From Stdlib Require Import Ascii ZArith Lia.
From S2P Require Import Prelude.

Class SerdeJson : Type := {
  Value : Type;
  Map : Type;
  (** [serde_json::from_str::<Value>]. *)
  from_str : string → option Value;
  (** [Value::get] with a text key, and [Map::get]. *)
  value_get : Value → string → option Value;
  map_get : Map → string → option Value;
  as_object : Value → option Map;
  as_u64 : Value → option Z;
  as_str : Value → option string }.

(** [as_u64] yields a [u64]. *)
Class SerdeJsonLaws `{SerdeJson} : Prop := as_u64_range v n : as_u64 v = Some n → is_u64 n.

(** What the request handler reads and rewrites besides: whole documents. *)
Class SerdeDocs `{SerdeJson} : Type := {
  (** [serde_json::from_slice::<Value>] and [to_vec]. *)
  from_slice : list ascii → option Value;
  to_vec : Value → option (list ascii);
  as_bool : Value → option bool;
  as_array : Value → option (list Value);
  (** [get_mut(key)] and [as_array_mut], the list replaced. *)
  set_array : Value → string → list Value → Value }.

Class SerdeDocsLaws `{SerdeDocs} : Prop := {
  set_array_same v key l old :
    (value_get v key ≫= as_array) = Some old → (value_get (set_array v key l) key ≫= as_array) = Some l;
  set_array_other v key l other : other ≠ key → value_get (set_array v key l) other = value_get v other }.

(** ** A concrete instance *)
Inductive json : Type :=
  | JNull | JBool (b : bool) | JNumber (n : Z) | JString (s : string)
  | JArray (items : list json) | JObject (fields : list (string * json)).

Fixpoint get_field (fields : list (string * json)) (key : string) : option json :=
  match fields with
  | [] => None
  | (k, v) :: rest => if String.eqb k key then Some v else get_field rest key
  end.

Definition quote : ascii := ascii_of_nat 34.

Fixpoint read_until_quote (s : string) : option (string * string) :=
  match s with
  | EmptyString => None
  | String c s' =>
      if Ascii.eqb c quote then Some (EmptyString, s')
      else match read_until_quote s' with Some (a, r) => Some (String c a, r) | None => None end
  end.

Fixpoint read_number (acc : Z) (s : string) : Z * string :=
  match s with
  | String c s' => if is_ascii_digit c then read_number (acc * 10 + digit_value c) s' else (acc, s)
  | EmptyString => (acc, s)
  end.

Fixpoint read_json (fuel : nat) (s : string) : option (json * string) :=
  match fuel, s with
  | S fuel', String "{" s' => match read_fields fuel' s' with Some (l, r) => Some (JObject l, r) | None => None end
  | S fuel', String "[" s' => match read_items fuel' s' with Some (l, r) => Some (JArray l, r) | None => None end
  | S _, String "n" (String "u" (String "l" (String "l" r))) => Some (JNull, r)
  | S _, String "t" (String "r" (String "u" (String "e" r))) => Some (JBool true, r)
  | S _, String "f" (String "a" (String "l" (String "s" (String "e" r)))) => Some (JBool false, r)
  | S _, String c s' =>
      if Ascii.eqb c quote then match read_until_quote s' with Some (a, r) => Some (JString a, r) | None => None end
      else if is_ascii_digit c then let '(n, r) := read_number 0 s in Some (JNumber n, r) else None
  | _, _ => None
  end
with read_items (fuel : nat) (s : string) : option (list json * string) :=
  match fuel, s with
  | S _, String "]" r => Some ([], r)
  | S fuel', String "," r => read_items fuel' r
  | S fuel', s =>
      match read_json fuel' s with
      | Some (v, r) => match read_items fuel' r with Some (l, r) => Some (v :: l, r) | None => None end
      | None => None
      end
  | _, _ => None
  end
with read_fields (fuel : nat) (s : string) : option (list (string * json) * string) :=
  match fuel, s with
  | S _, String "}" r => Some ([], r)
  | S fuel', String "," r => read_fields fuel' r
  | S fuel', String c r =>
      if Ascii.eqb c quote then
        match read_until_quote r with
        | Some (k, String ":" r) =>
            match read_json fuel' r with
            | Some (v, r) => match read_fields fuel' r with Some (l, r) => Some ((k, v) :: l, r) | None => None end
            | None => None
            end
        | _ => None
        end
      else None
  | _, _ => None
  end.

Definition quoted (s : string) : string := String quote (s +:+ String quote EmptyString)%string.

Fixpoint write_json (v : json) : string :=
  match v with
  | JNull => "null"
  | JBool b => if b then "true" else "false"
  | JNumber n => dec_string n
  | JString s => quoted s
  | JArray l => ("[" +:+ (fix items (l : list json) : string :=
      match l with [] => "]" | [v] => write_json v +:+ "]" | v :: l' => write_json v +:+ "," +:+ items l' end) l)
  | JObject l => ("{" +:+ (fix fields (l : list (string * json)) : string :=
      match l with
      | [] => "}"
      | [(k, v)] => quoted k +:+ ":" +:+ write_json v +:+ "}"
      | (k, v) :: l' => quoted k +:+ ":" +:+ write_json v +:+ "," +:+ fields l'
      end) l)
  end%string.

Fixpoint set_field (fields : list (string * json)) (key : string) (v : json) : list (string * json) :=
  match fields with
  | [] => []
  | (k, w) :: rest => if String.eqb k key then (k, v) :: rest else (k, w) :: set_field rest key v
  end.

#[global] Instance TinyJson : SerdeJson := {|
  Value := json;
  Map := list (string * json);
  from_str s := match read_json (S (String.length s)) s with Some (v, EmptyString) => Some v | _ => None end;
  value_get v key := match v with JObject l => get_field l key | _ => None end;
  map_get := get_field;
  as_object v := match v with JObject l => Some l | _ => None end;
  as_u64 v := match v with JNumber n => if in_range 0 u64_max n then Some n else None | _ => None end;
  as_str v := match v with JString s => Some s | _ => None end |}.

#[global] Instance TinyJsonLaws : SerdeJsonLaws.
Proof.
  intros v n. cbn. destruct v as [| |z| | |]; try done. destruct (in_range 0 u64_max z) eqn:E; [| done]. intros [= <-].
  unfold in_range in E. apply andb_true_iff in E as [?%Z.leb_le ?%Z.leb_le]. done.
Qed.

#[global] Instance TinyDocs : SerdeDocs := {|
  from_slice l := from_str (String.string_of_list_ascii l);
  to_vec v := Some (String.list_ascii_of_string (write_json v));
  as_bool v := match v with JBool b => Some b | _ => None end;
  as_array v := match v with JArray l => Some l | _ => None end;
  set_array v key l := match v with JObject fields => JObject (set_field fields key (JArray l)) | _ => v end |}.

#[global] Instance TinyDocsLaws : SerdeDocsLaws.
Proof.
  split; cbn.
  - intros [| | | | |fields] key l old; cbn; try done. induction fields as [|[k w] fields IH]; cbn; [done |].
    destruct (String.eqb_spec k key) as [->|Hn]; cbn; [by rewrite String.eqb_refl |].
    by rewrite (proj2 (String.eqb_neq k key)).
  - intros [| | | | |fields] key l other Hn; cbn; try done. induction fields as [|[k w] fields IH]; cbn; [done |].
    destruct (String.eqb_spec k key) as [->|]; cbn; [by rewrite (proj2 (String.eqb_neq key other)) |].
    by destruct (String.eqb k other).
Qed.

Example tiny_docs :
  (from_slice (String.list_ascii_of_string (write_json (JObject [("a", JArray [JNumber 12; JBool true]); ("b", JNull)]%string))))
    = Some (JObject [("a", JArray [JNumber 12; JBool true]); ("b", JNull)]%string).
Proof. by vm_compute. Qed.
