(* ===== verification/ProxyUsage.v ===== *)
(** * Usage in a response ([src/src/proxy/usage.rs])

    Where the two endpoints report token counts, in a whole body and in an
    event of a stream. A count that is not there is never made up. *)

From stdpp Require Import base strings list numbers.
From Stdlib Require Import Ascii ZArith Lia.
From S2P Require Import Prelude TimeLib Pricing LedgerTypes Json.

Section Usage.
Context `{SerdeJson}.

Definition or_else {A} (a b : option A) : option A := match a with Some _ => a | None => b end.

Definition extract_chat_completions_usage (body : Value) : Usage.t :=
  match value_get body "usage" with
  | Some usage_obj =>
      Usage.new (value_get usage_obj "prompt_tokens" ≫= as_u64)
        (value_get usage_obj "completion_tokens" ≫= as_u64)
        (value_get usage_obj "prompt_tokens_details" ≫= λ d, value_get d "cached_tokens" ≫= as_u64)
  | None => Usage.default_usage
  end.

Definition extract_responses_usage (body : Value) : Usage.t :=
  match value_get body "usage" with
  | Some usage_obj =>
      Usage.new (or_else (value_get usage_obj "input_tokens") (value_get usage_obj "prompt_tokens") ≫= as_u64)
        (or_else (value_get usage_obj "output_tokens") (value_get usage_obj "completion_tokens") ≫= as_u64)
        (value_get usage_obj "input_tokens_details" ≫= λ d, value_get d "cached_tokens" ≫= as_u64)
  | None => Usage.default_usage
  end.

Definition stream_usage_objects (event : Value) : list Map :=
  omap as_object
    (omap id [value_get event "usage"; value_get event "response" ≫= λ response, value_get response "usage"]).

Definition observed_usage (input_tokens output_tokens cached_tokens : option Z) : option Usage.t :=
  if is_Some_b input_tokens || is_Some_b output_tokens || is_Some_b cached_tokens
  then Some (Usage.new input_tokens output_tokens cached_tokens) else None.

Definition extract_stream_chat_completions_usage (chunk : Value) : option Usage.t :=
  find_map (λ usage,
    observed_usage (map_get usage "prompt_tokens" ≫= as_u64)
      (map_get usage "completion_tokens" ≫= as_u64)
      (map_get usage "prompt_tokens_details" ≫= λ details, value_get details "cached_tokens" ≫= as_u64))
    (stream_usage_objects chunk).

Definition extract_stream_responses_usage (event : Value) : option Usage.t :=
  find_map (λ usage,
    observed_usage (or_else (map_get usage "input_tokens") (map_get usage "prompt_tokens") ≫= as_u64)
      (or_else (map_get usage "output_tokens") (map_get usage "completion_tokens") ≫= as_u64)
      (map_get usage "input_tokens_details" ≫= λ details, value_get details "cached_tokens" ≫= as_u64))
    (stream_usage_objects event).

Definition extract_model_from_request (body : Value) : string :=
  default "unknown"%string (value_get body "model" ≫= as_str).

Definition extract_responses_model (body : Value) : string :=
  default "unknown"%string (value_get body "model" ≫= as_str).

Definition merge_usage (base incoming : Usage.t) : Usage.t :=
  Usage.new (or_else (Usage.input_tokens incoming) (Usage.input_tokens base))
    (or_else (Usage.output_tokens incoming) (Usage.output_tokens base))
    (or_else (Usage.cached_tokens incoming) (Usage.cached_tokens base)).

Definition usage_status_never_fabricate (usage : Usage.t) : UsageStatus.t := Usage.status usage.

(** Some count was reported. *)
Definition observed (u : Usage.t) : Prop :=
  is_Some (Usage.input_tokens u) ∨ is_Some (Usage.output_tokens u) ∨ is_Some (Usage.cached_tokens u).

Lemma observed_usage_Some i o c u : observed_usage i o c = Some u → u = Usage.new i o c ∧ observed u.
Proof.
  unfold observed_usage, observed. destruct i, o, c; cbn; intros [= <-]; cbn; split; try done;
    first [left; by eexists | right; left; by eexists | right; right; by eexists].
Qed.

(** An event's usage carries at least one count. *)
Lemma extract_stream_observed event u :
  extract_stream_chat_completions_usage event = Some u ∨ extract_stream_responses_usage event = Some u → observed u.
Proof.
  intros [E|E]; apply find_map_Some in E as (pre & x & post & _ & _ & E); by apply observed_usage_Some in E as [_ ?].
Qed.

(** Every count is a [u64]. *)
Definition counts_u64 (u : Usage.t) : Prop :=
  ∀ z, Usage.input_tokens u = Some z ∨ Usage.output_tokens u = Some z ∨ Usage.cached_tokens u = Some z → is_u64 z.

Lemma default_counts : counts_u64 Usage.default_usage.
Proof. by intros z [|[|]]. Qed.

Context `{!SerdeJsonLaws}.

Lemma bind_as_u64 (v : option Value) n : (v ≫= as_u64) = Some n → is_u64 n.
Proof. intros (w & _ & E)%bind_Some. by apply as_u64_range in E. Qed.

Lemma bind_bind_as_u64 {A} (v : option A) (f : A → option Value) n : (v ≫= λ d, f d ≫= as_u64) = Some n → is_u64 n.
Proof. intros (w & _ & E)%bind_Some. by apply bind_as_u64 in E. Qed.

Lemma counts_new i o c :
  (∀ z, i = Some z → is_u64 z) → (∀ z, o = Some z → is_u64 z) → (∀ z, c = Some z → is_u64 z) →
  counts_u64 (Usage.new i o c).
Proof. intros Hi Ho Hc z [|[|]]; auto. Qed.

Lemma extract_chat_counts v : counts_u64 (extract_chat_completions_usage v).
Proof.
  unfold extract_chat_completions_usage. destruct (value_get v "usage"); [| apply default_counts].
  apply counts_new; intros z; [apply bind_as_u64 | apply bind_as_u64 | apply bind_bind_as_u64].
Qed.

Lemma extract_responses_counts v : counts_u64 (extract_responses_usage v).
Proof.
  unfold extract_responses_usage. destruct (value_get v "usage"); [| apply default_counts].
  apply counts_new; intros z; [apply bind_as_u64 | apply bind_as_u64 | apply bind_bind_as_u64].
Qed.

Lemma extract_stream_counts v u :
  extract_stream_chat_completions_usage v = Some u ∨ extract_stream_responses_usage v = Some u → counts_u64 u.
Proof.
  intros [E|E]; apply find_map_Some in E as (pre & x & post & _ & _ & E); apply observed_usage_Some in E as [-> _];
    apply counts_new; intros z; first [apply bind_as_u64 | apply bind_bind_as_u64].
Qed.
End Usage.
