(* ===== verification/SseScan.v ===== *)
(** * The event-stream scanner ([src/src/proxy/sse_scan.rs])

    Usage is recovered from a stream as its chunks pass through. The scanner is
    shown to read the bytes and not the chunks, to agree with a declarative
    reading of the whole stream, and to hold a bounded amount of it. *)

From stdpp Require Import base strings list numbers.
From Stdlib Require Import Ascii ZArith Lia.
From S2P Require Import Prelude Utf8 TimeLib Pricing LedgerTypes Json ProxyUsage.

Local Open Scope Z_scope.

Definition MAX_EVENT_BYTES : Z := 256 * 1024.

(** [memchr::memchr2], a third-party search: the first place of either byte. *)
Class Memchr : Type := memchr2 : ascii → ascii → list ascii → option nat.
Class MemchrLaws `{Memchr} : Prop :=
  memchr2_first a b l : memchr2 a b l = fst <$> list_find (λ c, c = a ∨ c = b) l.

#[global] Instance FirstOf : Memchr := λ a b l, fst <$> list_find (λ c, c = a ∨ c = b) l.
#[global] Instance FirstOfLaws : MemchrLaws.
Proof. done. Qed.

Definition LF : ascii := ascii_of_nat 10.
Definition CR : ascii := ascii_of_nat 13.

Module ScanOutcome.
Record t : Type := mk {
  usage : option Usage.t;
  json_events : Z;
  truncated : bool;
  unparsable_events : Z }.

Definition default_outcome : t := mk None 0 false 0.
End ScanOutcome.

Module SseUsageScanner.
Record t : Type := mk {
  endpoint : Endpoint.t;
  line_buf : list ascii;
  pending_data : string;
  event_bytes : Z;
  after_cr : bool;
  outcome : ScanOutcome.t }.

Definition new (endpoint : Endpoint.t) : t := mk endpoint [] "" 0 false ScanOutcome.default_outcome.

Definition truncated (self : t) : bool := ScanOutcome.truncated (outcome self).
Definition usage (self : t) : option Usage.t := ScanOutcome.usage (outcome self).

Definition set_line_buf (self : t) (l : list ascii) : t :=
  mk (endpoint self) l (pending_data self) (event_bytes self) (after_cr self) (outcome self).
Definition set_pending (self : t) (d : string) : t :=
  mk (endpoint self) (line_buf self) d (event_bytes self) (after_cr self) (outcome self).
Definition set_event_bytes (self : t) (n : Z) : t :=
  mk (endpoint self) (line_buf self) (pending_data self) n (after_cr self) (outcome self).
Definition set_after_cr (self : t) (b : bool) : t :=
  mk (endpoint self) (line_buf self) (pending_data self) (event_bytes self) b (outcome self).
Definition set_outcome (self : t) (o : ScanOutcome.t) : t :=
  mk (endpoint self) (line_buf self) (pending_data self) (event_bytes self) (after_cr self) o.

Definition truncate (self : t) : t :=
  mk (endpoint self) [] "" 0 false
    (ScanOutcome.mk None (ScanOutcome.json_events (outcome self)) true (ScanOutcome.unparsable_events (outcome self))).

(** [reserve]: the state, and whether the bytes were accepted. *)
Definition reserve (self : t) (n : Z) : t * bool :=
  let self := set_event_bytes self (Z.min u64_max (event_bytes self + n)) in
  if MAX_EVENT_BYTES <? event_bytes self then (truncate self, false) else (self, true).

Section Scan.
Context `{SerdeJson, Memchr}.

Definition extract (endpoint : Endpoint.t) (value : Value) : option Usage.t :=
  match endpoint with
  | Endpoint.ChatCompletions => extract_stream_chat_completions_usage value
  | Endpoint.Responses => extract_stream_responses_usage value
  | Endpoint.Models => None
  end.

Definition flush_event (self : t) : t :=
  if str_is_empty (pending_data self) then self
  else
    let data := pending_data self in
    let self := set_pending self "" in
    let o := outcome self in
    if String.eqb (trim data) "[DONE]" then self
    else
      match from_str data with
      | None =>
          set_outcome self (ScanOutcome.mk (ScanOutcome.usage o) (ScanOutcome.json_events o)
                              (ScanOutcome.truncated o) (ScanOutcome.unparsable_events o + 1))
      | Some value =>
          set_outcome self (ScanOutcome.mk (or_else (extract (endpoint self) value) (ScanOutcome.usage o))
                              (ScanOutcome.json_events o + 1) (ScanOutcome.truncated o)
                              (ScanOutcome.unparsable_events o))
      end.

(** [line.strip_prefix(p)] on bytes. *)
Fixpoint strip_bytes (p l : list ascii) : option (list ascii) :=
  match p, l with
  | [], _ => Some l
  | a :: p', b :: l' => if Ascii.eqb a b then strip_bytes p' l' else None
  | _ :: _, [] => None
  end.
Definition DATA : list ascii := String.list_ascii_of_string "data:".

Definition add_data (pending : string) (line : list ascii) : string :=
  match strip_bytes DATA line with
  | Some rest =>
      let rest := default rest (strip_bytes [" "%char] rest) in
      ((if str_is_empty pending then pending else (pending ++ String LF EmptyString)%string) ++ from_utf8_lossy rest)%string
  | None => pending
  end.

Definition absorb_line (self : t) (line : list ascii) : t :=
  match line with
  | [] => set_event_bytes (flush_event self) 0
  | _ => set_pending self (add_data (pending_data self) line)
  end.

(** The loop of [feed]; the length of the chunk is fuel enough. *)
Fixpoint feed_loop (fuel : nat) (self : t) (rest : list ascii) : t :=
  match fuel with
  | O => self
  | S fuel' =>
      let search self :=
        match memchr2 LF CR rest with
        | None =>
            match reserve self (Z.of_nat (length rest)) with
            | (self, false) => self
            | (self, true) => set_line_buf self (line_buf self ++ rest)
            end
        | Some idx =>
            let terminator := default LF (rest !! idx) in
            let line := take idx rest in
            match reserve self (Z.of_nat (length line) + 1) with
            | (self, false) => self
            | (self, true) =>
                let self := set_after_cr self (Ascii.eqb terminator CR) in
                let joined := line_buf self ++ line in
                feed_loop fuel' (absorb_line (set_line_buf self []) joined) (drop (S idx) rest)
            end
        end in
      match rest with
      | [] => self
      | c :: tail =>
          if after_cr self then
            let self := set_after_cr self false in
            if Ascii.eqb c LF then feed_loop fuel' self tail else search self
          else search self
      end
  end.

Definition feed (self : t) (chunk : list ascii) : t :=
  if truncated self then self else feed_loop (length chunk) self chunk.

Definition finish (self : t) : t * ScanOutcome.t :=
  let self :=
    if truncated self then self
    else
      let self := match line_buf self with
                  | [] => self
                  | line => absorb_line (set_line_buf self []) line
                  end in
      flush_event self in
  let o := outcome self in
  let o := if ScanOutcome.truncated o
           then ScanOutcome.mk None (ScanOutcome.json_events o) true (ScanOutcome.unparsable_events o) else o in
  (mk (endpoint self) [] "" 0 false o, o).
End Scan.
End SseUsageScanner.

(** ** The scanner byte by byte *)
Section Bytewise.
Context `{SerdeJson, Memchr, !MemchrLaws}.
Import SseUsageScanner.

Definition terminates (c : ascii) : bool := Ascii.eqb c LF || Ascii.eqb c CR.

(** One byte, the second half of a CRLF apart. *)
Definition push_byte (self : t) (c : ascii) : t :=
  match reserve self 1 with
  | (self, false) => self
  | (self, true) =>
      if terminates c
      then absorb_line (set_line_buf (set_after_cr self (Ascii.eqb c CR)) []) (line_buf self)
      else set_line_buf self (line_buf self ++ [c])
  end.
Definition push (self : t) (c : ascii) : t :=
  if truncated self then self
  else if after_cr self then (if Ascii.eqb c LF then set_after_cr self false else push_byte (set_after_cr self false) c)
  else push_byte self c.

(** What the cap allows between two bytes. *)
Definition wf (self : t) : Prop := 0 ≤ event_bytes self ≤ MAX_EVENT_BYTES.

Lemma reserve_spec self n :
  wf self → 0 ≤ n →
  reserve self n = if MAX_EVENT_BYTES <? event_bytes self + n then (truncate self, false)
                   else (set_event_bytes self (event_bytes self + n), true).
Proof.
  unfold wf, reserve. intros Hwf Hn. cbn [set_event_bytes event_bytes].
  assert (MAX_EVENT_BYTES < u64_max) as Hm by (unfold MAX_EVENT_BYTES; ranges; lia).
  destruct (Z.ltb_spec MAX_EVENT_BYTES (event_bytes self + n)), (Z.ltb_spec MAX_EVENT_BYTES (Z.min u64_max (event_bytes self + n)));
    try lia; [done |]. by rewrite Z.min_r by lia.
Qed.

Lemma wf_truncate self : wf (truncate self).
Proof. unfold wf, MAX_EVENT_BYTES. cbn. lia. Qed.

Lemma flush_event_bytes self : event_bytes (flush_event self) = event_bytes self.
Proof. unfold flush_event. repeat case_match; done. Qed.

Lemma flush_truncated self : truncated (flush_event self) = truncated self.
Proof. unfold flush_event, truncated. repeat case_match; done. Qed.

Lemma absorb_truncated self line : truncated (absorb_line self line) = truncated self.
Proof. destruct line; [exact (flush_truncated self) | done]. Qed.

Lemma flush_frame self :
  after_cr (flush_event self) = after_cr self ∧ line_buf (flush_event self) = line_buf self
  ∧ endpoint (flush_event self) = endpoint self.
Proof. unfold flush_event. repeat case_match; done. Qed.

Lemma absorb_after_cr self line : after_cr (absorb_line self line) = after_cr self.
Proof. destruct line; [apply (flush_frame self) | done]. Qed.

Lemma absorb_line_buf self line : line_buf (absorb_line self line) = line_buf self.
Proof. destruct line; [apply (flush_frame self) | done]. Qed.

Lemma wf_absorb self line : wf self → wf (absorb_line self line).
Proof. unfold wf, MAX_EVENT_BYTES. intros Hw. unfold absorb_line. destruct line; cbn [event_bytes set_event_bytes set_pending]; lia. Qed.

Lemma wf_push self c : wf self → wf (push self c).
Proof.
  intros Hw. unfold push. destruct (truncated self); [done |].
  assert (∀ s, wf s → wf (push_byte s c)) as Hb.
  { intros s Hs. unfold push_byte. rewrite reserve_spec by (done || lia).
    destruct (Z.ltb_spec MAX_EVENT_BYTES (event_bytes s + 1)); [apply wf_truncate |].
    assert (wf (set_event_bytes s (event_bytes s + 1))) as Hs' by (unfold wf in *; cbn; lia).
    destruct (terminates c); [by apply wf_absorb | done]. }
  destruct (after_cr self); [| by apply Hb]. destruct (Ascii.eqb c LF); [done | by apply Hb].
Qed.

Lemma push_truncated self l : truncated self = true → foldl push self l = self.
Proof. intros Ht. induction l as [|c l IH]; [done |]. cbn. unfold push at 2. by rewrite Ht. Qed.

Lemma truncate_set_line_buf self l : truncate (set_line_buf self l) = truncate self.
Proof. done. Qed.

Lemma push_not_cr self c : truncated self = false → after_cr self = false → push self c = push_byte self c.
Proof. intros Ht Ha. unfold push. by rewrite Ht, Ha. Qed.

(** Bytes of one line, unterminated. *)
Lemma push_plain self l :
  truncated self = false → wf self → after_cr self = false → Forall (λ c, terminates c = false) l →
  foldl push self l =
    match reserve self (Z.of_nat (length l)) with
    | (self', false) => self'
    | (self', true) => set_line_buf self' (line_buf self ++ l)
    end.
Proof.
  intros Ht Hw Ha Hl. revert self Ht Hw Ha. induction Hl as [|c l Hc _ IH]; intros self Ht Hw Ha.
  { rewrite reserve_spec by (done || lia). unfold wf in Hw. cbn [length foldl].
    destruct (Z.ltb_spec MAX_EVENT_BYTES (event_bytes self + Z.of_nat 0)); [lia |].
    rewrite app_nil_r, Z.add_0_r. by destruct self. }
  cbn [foldl length]. rewrite push_not_cr by done. unfold push_byte. rewrite Hc, !reserve_spec by (done || lia).
  unfold wf in Hw.
  destruct (Z.ltb_spec MAX_EVENT_BYTES (event_bytes self + 1)).
  - destruct (Z.ltb_spec MAX_EVENT_BYTES (event_bytes self + Z.of_nat (S (length l)))); [| lia].
    by apply push_truncated.
  - rewrite IH; [| done | unfold wf; cbn; lia | done]. rewrite reserve_spec by (try lia; unfold wf; cbn; lia).
    cbn [event_bytes set_line_buf set_event_bytes line_buf].
    replace (event_bytes self + Z.of_nat (S (length l))) with (event_bytes self + 1 + Z.of_nat (length l)) by lia.
    destruct (MAX_EVENT_BYTES <? _); [done |]. unfold set_line_buf, set_event_bytes. cbn. by rewrite <- app_assoc.
Qed.

(** A whole line and its terminator. *)
Lemma push_line self l c :
  truncated self = false → wf self → after_cr self = false → Forall (λ c, terminates c = false) l → terminates c = true →
  foldl push self (l ++ [c]) =
    match reserve self (Z.of_nat (length l) + 1) with
    | (self', false) => self'
    | (self', true) => absorb_line (set_line_buf (set_after_cr self' (Ascii.eqb c CR)) []) (line_buf self ++ l)
    end.
Proof.
  intros Ht Hw Ha Hl Hc. rewrite foldl_app, (push_plain self l) by done. rewrite !reserve_spec by (done || lia). unfold wf in Hw.
  destruct (Z.ltb_spec MAX_EVENT_BYTES (event_bytes self + Z.of_nat (length l))).
  - destruct (Z.ltb_spec MAX_EVENT_BYTES (event_bytes self + (Z.of_nat (length l) + 1))); [by apply push_truncated | lia].
  - cbn [foldl]. rewrite push_not_cr by done. unfold push_byte. rewrite Hc, reserve_spec by (try lia; unfold wf; cbn; lia).
    cbn [event_bytes set_line_buf set_event_bytes].
    replace (event_bytes self + (Z.of_nat (length l) + 1)) with (event_bytes self + Z.of_nat (length l) + 1) by lia.
    by destruct (MAX_EVENT_BYTES <? _).
Qed.
(** [memchr2] cuts at the first terminator. *)
Lemma memchr2_cut l :
  match memchr2 LF CR l with
  | None => Forall (λ c, terminates c = false) l
  | Some idx => ∃ c, l !! idx = Some c ∧ terminates c = true ∧ Forall (λ c, terminates c = false) (take idx l)
      ∧ l = take idx l ++ [c] ++ drop (S idx) l
  end.
Proof.
  rewrite memchr2_first.
  assert (∀ c, terminates c = false ↔ ¬ (c = LF ∨ c = CR)) as Ht.
  { intros c. unfold terminates. rewrite orb_false_iff, !Ascii.eqb_neq. tauto. }
  destruct (list_find _ l) as [[i c]|] eqn:E; cbn.
  - apply list_find_Some in E as (Hi & Hc & Hbefore). exists c. split_and!; [done | | |].
    + apply not_false_iff_true. rewrite Ht. tauto.
    + apply Forall_lookup. intros j d [Hj Hlt]%lookup_take_Some. apply Ht. by eapply Hbefore.
    + symmetry. by apply take_drop_middle.
  - apply list_find_None in E. eapply Forall_impl; [| exact E]. intros d Hd. by apply Ht.
Qed.

(** The loop is the bytes it reads. *)
Lemma feed_loop_bytes fuel self rest :
  (length rest ≤ fuel)%nat → truncated self = false → wf self → feed_loop fuel self rest = foldl push self rest.
Proof.
  revert self rest. induction fuel as [|fuel IH]; intros self rest Hf Ht Hw; [by destruct rest; [| cbn in Hf; lia] |].
  cbn [feed_loop].
  assert (∀ s, truncated s = false → wf s → after_cr s = false →
    match memchr2 LF CR rest with
    | None => match reserve s (Z.of_nat (length rest)) with
              | (s', false) => s' | (s', true) => set_line_buf s' (line_buf s' ++ rest) end
    | Some idx =>
        match reserve s (Z.of_nat (length (take idx rest)) + 1) with
        | (s', false) => s'
        | (s', true) =>
            feed_loop fuel (absorb_line (set_line_buf (set_after_cr s' (Ascii.eqb (default LF (rest !! idx)) CR)) [])
              (line_buf (set_after_cr s' (Ascii.eqb (default LF (rest !! idx)) CR)) ++ take idx rest)) (drop (S idx) rest)
        end
    end = foldl push s rest) as Hsearch.
  { intros s Hts Hws Has. pose proof (memchr2_cut rest) as Hcut. destruct (memchr2 LF CR rest) as [idx|].
    - destruct Hcut as (c & Hc & Htc & Hpre & Hl). rewrite Hc. cbn [default].
      transitivity (foldl push s (take idx rest ++ [c] ++ drop (S idx) rest)); [| by rewrite <- Hl].
      rewrite app_assoc, foldl_app, push_line by done. rewrite reserve_spec by (done || lia). unfold wf in Hws.
      destruct (Z.ltb_spec MAX_EVENT_BYTES (event_bytes s + (Z.of_nat (length (take idx rest)) + 1))).
      + by rewrite push_truncated.
      + cbn [line_buf set_after_cr set_event_bytes]. apply IH.
        * rewrite length_drop. apply lookup_lt_Some in Hc. lia.
        * by rewrite absorb_truncated.
        * apply wf_absorb. unfold wf. cbn. lia.
    - rewrite push_plain by done. rewrite reserve_spec by (done || lia). by destruct (MAX_EVENT_BYTES <? _). }
  destruct rest as [|c tail]; [done |]. destruct (after_cr self) eqn:Ea.
  - destruct (Ascii.eqb_spec c LF) as [->|Hc].
    + cbn [foldl]. unfold push at 2. rewrite Ht, Ea. cbn. apply IH; [cbn in Hf; lia | done | done].
    + rewrite (Hsearch (set_after_cr self false)) by done. cbn [foldl]. f_equal. apply Ascii.eqb_neq in Hc.
      unfold push. change (truncated (set_after_cr self false)) with (truncated self).
      change (after_cr (set_after_cr self false)) with false. by rewrite Ht, Ea, Hc.
  - by apply Hsearch.
Qed.
Lemma feed_bytes self chunk : wf self → feed self chunk = foldl push self chunk.
Proof.
  intros Hw. unfold feed. destruct (truncated self) eqn:Et; [by rewrite push_truncated | by apply feed_loop_bytes].
Qed.

Lemma wf_pushes self l : wf self → wf (foldl push self l).
Proof. revert self. induction l as [|c l IH]; intros self Hw; [done |]. cbn. by apply IH, wf_push. Qed.

Lemma feed_chunks self chunks : wf self → foldl feed self chunks = foldl push self (mjoin chunks).
Proof.
  revert self. induction chunks as [|c chunks IH]; intros self Hw; [done |].
  cbn [foldl]. change (mjoin (c :: chunks)) with (c ++ mjoin chunks).
  rewrite foldl_app, feed_bytes by done. apply IH. by apply wf_pushes.
Qed.

Lemma wf_new e : wf (new e).
Proof. unfold wf, MAX_EVENT_BYTES. cbn. lia. Qed.

(** The scanner reads bytes, not chunks. However a stream is cut into
    chunks (inside a line, between the two bytes of a CRLF, into empty pieces)
    the scanner ends in the same state and reports the same outcome,
    truncation included, as if the stream had come in one piece. *)
Theorem chunks_do_not_matter (e : Endpoint.t) (chunks : list (list ascii)) :
  foldl feed (new e) chunks = feed (new e) (mjoin chunks)
  ∧ finish (foldl feed (new e) chunks) = finish (feed (new e) (mjoin chunks)).
Proof.
  assert (foldl feed (new e) chunks = feed (new e) (mjoin chunks)) as ->; [| done].
  rewrite feed_chunks, feed_bytes by apply wf_new. done.
Qed.
End Bytewise.

(** ** What a stream says *)
Section Meaning.
Context `{SerdeJson, Memchr, !MemchrLaws}.
Import SseUsageScanner.

(** The terminated lines of a stream, and the unterminated rest; a CRLF is one
    terminator. *)
Fixpoint split_lines (after_cr : bool) (cur l : list ascii) : list (list ascii) * list ascii :=
  match l with
  | [] => ([], cur)
  | c :: l' =>
      if after_cr && Ascii.eqb c LF then split_lines false cur l'
      else if terminates c then let '(ls, rest) := split_lines (Ascii.eqb c CR) [] l' in (cur :: ls, rest)
      else split_lines false (cur ++ [c]) l'
  end.

(** The events: the lines before each blank line, and the lines after the last. *)
Fixpoint split_events (cur : list (list ascii)) (lines : list (list ascii))
    : list (list (list ascii)) * list (list ascii) :=
  match lines with
  | [] => ([], cur)
  | [] :: lines' => let '(es, rest) := split_events [] lines' in (cur :: es, rest)
  | line :: lines' => split_events (cur ++ [line]) lines'
  end.

(** The size of an event's lines, one byte for each terminator. *)
Definition lines_size (lines : list (list ascii)) : Z := zsum ((λ l, Z.of_nat (length l) + 1) <$> lines).

Definition event_data (lines : list (list ascii)) : string := foldl add_data "" lines.

(** The events of a stream that are read, the unfinished one last. *)
Definition events (stream : list ascii) : list (list (list ascii)) :=
  let '(ls, tail) := split_lines false [] stream in
  let '(es, rest) := split_events [] ls in
  es ++ [match tail with [] => rest | _ => rest ++ [tail] end].

(** No event is larger than the cap. *)
Definition within_cap (stream : list ascii) : Prop :=
  let '(ls, tail) := split_lines false [] stream in
  let '(es, rest) := split_events [] ls in
  Forall (λ e, lines_size e + 1 ≤ MAX_EVENT_BYTES) es
  ∧ lines_size rest + Z.of_nat (length tail) ≤ MAX_EVENT_BYTES.

(** The payloads that are looked at, and what they hold. *)
Definition payloads (stream : list ascii) : list string :=
  filter (λ d, str_is_empty d = false ∧ String.eqb (trim d) "[DONE]" = false) (event_data <$> events stream).
Definition values (stream : list ascii) : list Value := omap from_str (payloads stream).

(** What the scan of a whole stream should report. *)
Definition report (e : Endpoint.t) (stream : list ascii) : ScanOutcome.t :=
  ScanOutcome.mk (list.last (omap (extract e) (values stream))) (Z.of_nat (length (values stream))) false
    (Z.of_nat (length (payloads stream)) - Z.of_nat (length (values stream))).
(** *** Line by line *)
Definition line_step (self : t) (line : list ascii) : t :=
  if truncated self then self
  else match reserve self (Z.of_nat (length line) + 1) with
       | (self, false) => self
       | (self, true) => absorb_line self line
       end.
Definition tail_step (self : t) (tail : list ascii) : t :=
  if truncated self then self
  else match reserve self (Z.of_nat (length tail)) with
       | (self, false) => self
       | (self, true) => set_line_buf self tail
       end.

Lemma line_steps_truncated self ls : truncated self = true → foldl line_step self ls = self.
Proof. intros Ht. induction ls as [|l ls IH]; [done |]. cbn. unfold line_step at 2. by rewrite Ht. Qed.

(** The line being read only grows. *)
Lemma split_lines_first ac cur l :
  match split_lines ac cur l with
  | ([], rest) => (length cur ≤ length rest)%nat
  | (first :: _, _) => (length cur ≤ length first)%nat
  end.
Proof.
  revert ac cur. induction l as [|c l IH]; intros ac cur; cbn; [done |].
  destruct (ac && Ascii.eqb c LF); [apply IH |]. destruct (terminates c).
  - by destruct (split_lines _ [] l).
  - specialize (IH false (cur ++ [c])). destruct (split_lines false (cur ++ [c]) l) as [[|f ls] rest];
      rewrite length_app in IH; cbn in IH; lia.
Qed.

(** The state at the start of the line being read. *)
Definition line_start (self : t) (cur : list ascii) : t :=
  mk (endpoint self) [] (pending_data self) (event_bytes self - Z.of_nat (length cur)) false (outcome self).

Lemma absorb_line_start self n b line :
  line_start (absorb_line (set_line_buf (set_after_cr (set_event_bytes self n) b) []) line) []
  = absorb_line (set_event_bytes (line_start self []) n) line.
Proof.
  unfold absorb_line, line_start. destruct line; cbn; rewrite ?Z.sub_0_r; [| done].
  unfold flush_event. cbn. repeat case_match; done.
Qed.

(** A line too long for the cap truncates, terminated or not. *)
Lemma too_long self cur c l :
  truncated self = false → wf self → Z.of_nat (length cur) ≤ event_bytes self →
  MAX_EVENT_BYTES < event_bytes self + 1 →
  let '(ls, tail) := split_lines false (cur ++ [c]) l in
  tail_step (foldl line_step (line_start self cur) ls) tail = truncate self.
Proof.
  intros Ht Hw Hc Hm. pose proof (split_lines_first false (cur ++ [c]) l) as Hf.
  destruct (split_lines false (cur ++ [c]) l) as [ls tail]. unfold wf in Hw.
  assert (wf (line_start self cur)) as Hws by (unfold wf; cbn; lia).
  assert (truncated (line_start self cur) = false) as Hts by done. rewrite length_app in Hf. cbn [length] in Hf.
  destruct ls as [|first ls]; cbn [foldl].
  - unfold tail_step. rewrite Hts, reserve_spec by (done || lia). cbn [line_start event_bytes].
    destruct (Z.ltb_spec MAX_EVENT_BYTES (event_bytes self - Z.of_nat (length cur) + Z.of_nat (length tail))); [done | lia].
  - unfold line_step at 2. rewrite Hts, reserve_spec by (done || lia). cbn [line_start event_bytes].
    destruct (Z.ltb_spec MAX_EVENT_BYTES (event_bytes self - Z.of_nat (length cur) + (Z.of_nat (length first) + 1))); [| lia].
    rewrite line_steps_truncated by done. done.
Qed.

Lemma pushes_are_lines self cur l :
  truncated self = false → wf self → line_buf self = cur → Z.of_nat (length cur) ≤ event_bytes self →
  let '(ls, tail) := split_lines (after_cr self) cur l in
  set_after_cr (foldl push self l) false = tail_step (foldl line_step (line_start self cur) ls) tail.
Proof.
  revert self cur. induction l as [|c l IH]; intros self cur Ht Hw Hb Hc.
  { cbn [split_lines foldl]. unfold wf in Hw. unfold tail_step.
    change (truncated (line_start self cur)) with (truncated self). rewrite Ht, reserve_spec by (unfold wf; cbn; lia).
    cbn [line_start event_bytes]. rewrite Z.sub_add.
    destruct (Z.ltb_spec MAX_EVENT_BYTES (event_bytes self)); [lia |]. subst cur. by destruct self. }
  assert (∀ s, truncated s = false → wf s → line_buf s = cur → event_bytes s = event_bytes self → after_cr s = false →
    line_start s cur = line_start self cur → truncate s = truncate self →
    let '(ls, tail) := if terminates c then let '(ls, rest) := split_lines (Ascii.eqb c CR) [] l in (cur :: ls, rest)
                       else split_lines false (cur ++ [c]) l in
    set_after_cr (foldl push (push_byte s c) l) false = tail_step (foldl line_step (line_start self cur) ls) tail) as Hbyte.
  { intros s Hts Hws Hbs Hes Has Hls Htr. unfold push_byte. rewrite reserve_spec by (done || lia). rewrite Hes.
    destruct (terminates c).
    - destruct (split_lines (Ascii.eqb c CR) [] l) as [ls rest] eqn:El. cbn [foldl]. rewrite <- Hls.
      unfold line_step at 2. change (truncated (line_start s cur)) with (truncated s). rewrite Hts.
      unfold wf in Hw, Hws. rewrite reserve_spec by (unfold wf; cbn; lia). cbn [line_start event_bytes].
      replace (event_bytes s - Z.of_nat (length cur) + (Z.of_nat (length cur) + 1)) with (event_bytes self + 1) by lia.
      destruct (Z.ltb_spec MAX_EVENT_BYTES (event_bytes self + 1)).
      + rewrite push_truncated, line_steps_truncated by done. done.
      + set (a := absorb_line _ (line_buf (set_event_bytes s (event_bytes self + 1)))).
        assert (after_cr a = Ascii.eqb c CR) as Ea by (unfold a; apply absorb_after_cr).
        assert (line_buf a = []) as Eb by (unfold a; rewrite absorb_line_buf; done).
        assert (truncated a = false) as Eta by (unfold a; by rewrite absorb_truncated).
        assert (wf a) as Hwa by (apply wf_absorb; unfold wf; cbn; lia).
        specialize (IH a [] Eta Hwa Eb ltac:(unfold wf in Hwa; cbn; lia)). rewrite Ea, El in IH. rewrite IH. f_equal.
        f_equal. unfold a. change (line_buf (set_event_bytes s (event_bytes self + 1))) with (line_buf s). rewrite Hbs.
          rewrite absorb_line_start. done.
    - destruct (Z.ltb_spec MAX_EVENT_BYTES (event_bytes self + 1)) as [Hlt|Hge].
      + pose proof (too_long self cur c l Ht Hw Hc Hlt) as Htl. destruct (split_lines false (cur ++ [c]) l) as [ls tail].
        rewrite Htl, push_truncated by done. by rewrite Htr.
      + cbn [line_buf set_event_bytes]. rewrite Hbs.
        set (a := set_line_buf _ (cur ++ [c])). unfold wf in Hw.
        specialize (IH a (cur ++ [c]) Hts ltac:(unfold wf, a; cbn; lia) eq_refl
          ltac:(unfold a; cbn; rewrite length_app; cbn; lia)).
        change (after_cr a) with (after_cr s) in IH. rewrite Has in IH.
        replace (line_start a (cur ++ [c])) with (line_start self cur) in IH; [exact IH |].
        rewrite <- Hls. unfold line_start, a. cbn. f_equal. rewrite length_app. cbn. lia. }
  cbn [foldl split_lines]. unfold push at 2. rewrite Ht. destruct (after_cr self) eqn:Ea; cbn [andb].
  - destruct (Ascii.eqb c LF).
    + apply (IH (set_after_cr self false) cur Ht Hw Hb Hc).
    + by apply Hbyte.
  - by apply Hbyte.
Qed.
(** *** Event by event *)

(** What one event's data adds to the outcome. *)
Definition observe (e : Endpoint.t) (o : ScanOutcome.t) (data : string) : ScanOutcome.t :=
  if str_is_empty data || String.eqb (trim data) "[DONE]" then o
  else match from_str data with
       | None => ScanOutcome.mk (ScanOutcome.usage o) (ScanOutcome.json_events o) (ScanOutcome.truncated o)
                   (ScanOutcome.unparsable_events o + 1)
       | Some value => ScanOutcome.mk (or_else (extract e value) (ScanOutcome.usage o)) (ScanOutcome.json_events o + 1)
                         (ScanOutcome.truncated o) (ScanOutcome.unparsable_events o)
       end.

Lemma flush_observe self :
  flush_event self = mk (endpoint self) (line_buf self) "" (event_bytes self) (after_cr self)
    (observe (endpoint self) (outcome self) (pending_data self)).
Proof.
  unfold flush_event, observe. destruct (str_is_empty (pending_data self)) eqn:E; cbn [orb].
  - apply str_is_empty_spec in E. destruct self; cbn in *; by subst.
  - destruct (String.eqb (trim (pending_data self)) "[DONE]"); [done |]. by destruct (from_str (pending_data self)).
Qed.

Lemma lines_size_app a b : lines_size (a ++ b) = lines_size a + lines_size b.
Proof. unfold lines_size. by rewrite fmap_app, zsum_app. Qed.

Lemma lines_size_one l : lines_size [l] = Z.of_nat (length l) + 1.
Proof. unfold lines_size, zsum. cbn. lia. Qed.

Lemma lines_size_nonneg ls : 0 ≤ lines_size ls.
Proof. apply zsum_nonneg, Forall_fmap, Forall_true. intros l. cbn. lia. Qed.

Definition events_fit (es : list (list (list ascii))) (rest : list (list ascii)) : Prop :=
  Forall (λ e, lines_size e + 1 ≤ MAX_EVENT_BYTES) es ∧ lines_size rest ≤ MAX_EVENT_BYTES.

Lemma events_oversized cur ls :
  MAX_EVENT_BYTES < lines_size cur → let '(es, rest) := split_events cur ls in ¬ events_fit es rest.
Proof.
  revert cur. induction ls as [|[|c l] ls IH]; intros cur Hc; cbn [split_events].
  - intros [_ Hr]. lia.
  - destruct (split_events [] ls) as [es rest]. intros [[Hr _]%Forall_cons_iff _]. lia.
  - apply IH. rewrite lines_size_app. pose proof (lines_size_nonneg [c :: l]). lia.
Qed.

(** The scanner at a line boundary, with [cur] the lines of the event read so far. *)
Definition at_boundary (e : Endpoint.t) (cur : list (list ascii)) (o : ScanOutcome.t) : t :=
  mk e [] (event_data cur) (lines_size cur) false o.

Lemma lines_are_events e cur o ls :
  ScanOutcome.truncated o = false → lines_size cur ≤ MAX_EVENT_BYTES →
  let '(es, rest) := split_events cur ls in
  (events_fit es rest →
     foldl line_step (at_boundary e cur o) ls = at_boundary e rest (foldl (observe e) o (event_data <$> es)))
  ∧ (¬ events_fit es rest → truncated (foldl line_step (at_boundary e cur o) ls) = true).
Proof.
  revert cur o. induction ls as [|line ls IH]; intros cur o Ho Hc; cbn [split_events foldl].
  { split; [done |]. intros Hn. exfalso. apply Hn. by split; [constructor |]. }
  pose proof (lines_size_nonneg cur) as Hnn.
  unfold line_step at 2 4. change (truncated (at_boundary e cur o)) with (ScanOutcome.truncated o).
  rewrite Ho, reserve_spec by (try lia; by unfold wf). cbn [at_boundary event_bytes].
  destruct line as [|c line].
  - cbn [length]. pose proof (IH [] (observe e o (event_data cur))) as IH'.
    destruct (split_events [] ls) as [es rest]. destruct (Z.ltb_spec MAX_EVENT_BYTES (lines_size cur + (Z.of_nat 0 + 1))) as [Hlt|Hge].
    + rewrite line_steps_truncated by done. split; [| done]. intros [[Hf _]%Forall_cons_iff _]. lia.
    + assert (absorb_line (set_event_bytes (at_boundary e cur o) (lines_size cur + (Z.of_nat 0 + 1))) []
        = at_boundary e [] (observe e o (event_data cur))) as ->.
      { unfold absorb_line. rewrite flush_observe. done. }
      assert (ScanOutcome.truncated (observe e o (event_data cur)) = false) as Ho'.
      { unfold observe. destruct (_ || _); [done |]. by destruct (from_str _). }
      destruct (IH' Ho' ltac:(by unfold MAX_EVENT_BYTES)) as [I1 I2].
      assert (events_fit (cur :: es) rest ↔ events_fit es rest) as ->.
      { unfold events_fit. rewrite Forall_cons_iff. split; [tauto |]. intros [? ?]. split; [split; [lia | done] | done]. }
      by split; [| exact I2].
  - set (line' := c :: line) in *. destruct (Z.ltb_spec MAX_EVENT_BYTES (lines_size cur + (Z.of_nat (length line') + 1))) as [Hlt|Hge].
    + rewrite line_steps_truncated by done. pose proof (events_oversized (cur ++ [line']) ls) as Hov.
      rewrite lines_size_app, lines_size_one in Hov. specialize (Hov ltac:(lia)).
      destruct (split_events _ _) as [es rest]. by split.
    + assert (absorb_line (set_event_bytes (at_boundary e cur o) (lines_size cur + (Z.of_nat (length line') + 1))) line'
        = at_boundary e (cur ++ [line']) o) as ->.
      { unfold at_boundary, event_data. rewrite foldl_app, lines_size_app, lines_size_one. done. }
      apply IH; [done |]. rewrite lines_size_app, lines_size_one. lia.
Qed.

Lemma observe_all e o ds :
  foldl (observe e) o ds =
    let ps := filter (λ d, str_is_empty d = false ∧ String.eqb (trim d) "[DONE]" = false) ds in
    ScanOutcome.mk (or_else (list.last (omap (extract e) (omap from_str ps))) (ScanOutcome.usage o))
      (ScanOutcome.json_events o + Z.of_nat (length (omap from_str ps))) (ScanOutcome.truncated o)
      (ScanOutcome.unparsable_events o + (Z.of_nat (length ps) - Z.of_nat (length (omap from_str ps)))).
Proof.
  revert o. induction ds as [|d ds IH]; intros o.
  { destruct o. cbn. by rewrite !Z.add_0_r. }
  cbn [foldl]. rewrite IH. cbv zeta. clear IH. rewrite filter_cons.
  set (ps := filter _ ds). destruct (decide _) as [[E1 E2]|Hn].
  - unfold observe. rewrite E1, E2. cbn [orb omap list_omap]. destruct (from_str d) as [v|] eqn:Ev.
    + cbn [omap list_omap length ScanOutcome.usage ScanOutcome.json_events ScanOutcome.truncated ScanOutcome.unparsable_events].
      cbn [length].
      f_equal; try lia. destruct (extract e v) as [u|] eqn:Eu; [| done].
      destruct (omap (extract e) (omap from_str ps)) as [|u' us] using rev_ind; [done |].
      by rewrite app_comm_cons, !last_snoc.
    + cbn [omap list_omap length ScanOutcome.usage ScanOutcome.json_events ScanOutcome.truncated ScanOutcome.unparsable_events].
      f_equal; lia.
  - assert (observe e o d = o) as ->; [| done]. unfold observe.
    destruct (str_is_empty d); [done |]. destruct (String.eqb (trim d) "[DONE]"); [done |]. by destruct Hn.
Qed.
Lemma finish_after_cr self b : finish (set_after_cr self b) = finish self.
Proof.
  unfold finish. change (truncated (set_after_cr self b)) with (truncated self).
  destruct (truncated self); [done |]. change (line_buf (set_after_cr self b)) with (line_buf self).
  by destruct (line_buf self); rewrite !flush_observe.
Qed.

Lemma finish_truncated self :
  truncated self = true →
  ScanOutcome.truncated (finish self).2 = true ∧ ScanOutcome.usage (finish self).2 = None.
Proof. intros Ht. unfold finish, truncated in *. rewrite Ht. cbn. by rewrite Ht. Qed.

(** The end of the stream at a line boundary. *)
Lemma finish_boundary e rest o tail :
  ScanOutcome.truncated o = false → lines_size rest + Z.of_nat (length tail) ≤ MAX_EVENT_BYTES →
  (finish (tail_step (at_boundary e rest o) tail)).2
    = observe e o (event_data (match tail with [] => rest | _ => rest ++ [tail] end)).
Proof.
  intros Ho Hc. pose proof (lines_size_nonneg rest). unfold tail_step.
  change (truncated (at_boundary e rest o)) with (ScanOutcome.truncated o).
  rewrite Ho, reserve_spec by (try lia; unfold wf; cbn; lia). cbn [at_boundary event_bytes].
  destruct (Z.ltb_spec MAX_EVENT_BYTES (lines_size rest + Z.of_nat (length tail))); [lia |].
  assert (∀ d, ScanOutcome.truncated (observe e o d) = false) as Hob.
  { intros d. unfold observe. destruct (_ || _); [done |]. by destruct (from_str d). }
  unfold finish, truncated. cbn [outcome set_line_buf set_event_bytes at_boundary]. rewrite Ho. cbn [line_buf set_line_buf].
  destruct tail as [|c tail].
  - rewrite flush_observe. cbn. by rewrite Hob.
  - cbn [absorb_line]. rewrite flush_observe. cbn [outcome endpoint pending_data set_pending set_line_buf set_event_bytes at_boundary].
    rewrite Hob. unfold event_data. by rewrite foldl_app.
Qed.

(** C33. The scanner reports what the stream says. When no event of the stream
    is larger than the cap, the outcome is that of reading the whole stream
    at once: every event's data is joined, the payloads that are JSON and those
    that are not are counted, and the usage is the last one an event
    reported; when some event is larger, the scan says so and reports no
    usage. *)
Theorem scan_is_report (e : Endpoint.t) (stream : list ascii) :
  (within_cap stream → (finish (feed (new e) stream)).2 = report e stream)
  ∧ (¬ within_cap stream →
       ScanOutcome.truncated (finish (feed (new e) stream)).2 = true
       ∧ ScanOutcome.usage (finish (feed (new e) stream)).2 = None).
Proof.
  rewrite feed_bytes, <- (finish_after_cr _ false) by apply wf_new.
  pose proof (pushes_are_lines (new e) [] stream eq_refl (wf_new e) eq_refl ltac:(done)) as Hl.
  unfold within_cap, report, values, payloads, events. change (after_cr (new e)) with false in Hl.
  destruct (split_lines false [] stream) as [ls tail]. rewrite Hl.
  change (line_start (new e) []) with (at_boundary e [] ScanOutcome.default_outcome).
  pose proof (lines_are_events e [] ScanOutcome.default_outcome ls eq_refl ltac:(by unfold MAX_EVENT_BYTES)) as He.
  destruct (split_events [] ls) as [es rest]. destruct He as [Hfit Hover].
  assert (∀ ds, ScanOutcome.truncated (foldl (observe e) ScanOutcome.default_outcome ds) = false) as Htr.
  { intros ds. by rewrite observe_all. }
  split.
  - intros [Hes Hrest]. rewrite Hfit by (split; [done | lia]). rewrite finish_boundary by (done || apply Htr).
    rewrite fmap_app. cbn [fmap list_fmap].
    transitivity (foldl (observe e) ScanOutcome.default_outcome
      ((event_data <$> es) ++ [event_data (match tail with [] => rest | _ => rest ++ [tail] end)])).
    { by rewrite foldl_app. }
    rewrite observe_all. cbv zeta. cbn [ScanOutcome.default_outcome ScanOutcome.usage ScanOutcome.json_events
      ScanOutcome.truncated ScanOutcome.unparsable_events]. rewrite !Z.add_0_l. f_equal.
    by destruct (list.last _).
  - intros Hn. apply finish_truncated. unfold tail_step.
    destruct (truncated (foldl line_step _ ls)) eqn:Et; [done |].
    destruct (decide (lines_size rest + Z.of_nat (length tail) ≤ MAX_EVENT_BYTES)) as [Hle|Hgt].
    + assert (¬ events_fit es rest) as Hnf by (intros [Hes _]; by apply Hn).
      discriminate (Hover Hnf).
    + assert (events_fit es rest ∨ ¬ events_fit es rest) as [Hf|Hf].
      { destruct (decide (Forall (λ ev, lines_size ev + 1 ≤ MAX_EVENT_BYTES) es ∧ lines_size rest ≤ MAX_EVENT_BYTES)); auto. }
      2:{ discriminate (Hover Hf). }
      rewrite Hfit by done. pose proof (lines_size_nonneg rest). destruct Hf as [_ Hr].
      rewrite reserve_spec by (try lia; unfold wf; cbn; lia). cbn [at_boundary event_bytes].
      by destruct (Z.ltb_spec MAX_EVENT_BYTES (lines_size rest + Z.of_nat (length tail))); [| lia].
Qed.
End Meaning.

(** ** What the scanner holds *)
Section Memory.
Context `{SerdeJson, Memchr, !MemchrLaws}.
Import SseUsageScanner.

(** What holds of every usage that an event yields. *)
Variable P : Usage.t → Prop.
Hypothesis extract_P : ∀ e v u, extract e v = Some u → P u.

(** The held bytes are paid for, and a reported usage was an event's. *)
Record held (self : t) : Prop := {
  held_wf : wf self;
  held_bytes : Z.of_nat (String.length (pending_data self)) + 3 * Z.of_nat (length (line_buf self)) ≤ 3 * event_bytes self;
  held_usage u : usage self = Some u → P u }.

Lemma strip_bytes_length p l r : strip_bytes p l = Some r → (length r ≤ length l)%nat.
Proof.
  revert l. induction p as [|a p IH]; intros l; [by intros [= <-] |]. destruct l as [|b l]; [done |]. cbn.
  destruct (Ascii.eqb a b); [| done]. intros E%IH. lia.
Qed.

Lemma add_data_length pending line :
  (String.length (add_data pending line) ≤ String.length pending + 1 + 3 * length line)%nat.
Proof.
  unfold add_data. destruct (strip_bytes DATA line) as [r|] eqn:E; [| lia]. apply strip_bytes_length in E.
  rewrite str_length_app. pose proof (from_utf8_lossy_length (default r (strip_bytes [" "%char] r))) as Hl.
  assert (length (default r (strip_bytes [" "%char] r)) ≤ length r)%nat as Hr.
  { destruct (strip_bytes [" "%char] r) as [r'|] eqn:E'; cbn; [by apply strip_bytes_length in E' | done]. }
  destruct (str_is_empty pending); rewrite ?str_length_app; cbn [String.length]; lia.
Qed.

Lemma flush_usage self u : (∀ v, usage self = Some v → P v) → usage (flush_event self) = Some u → P u.
Proof.
  intros Hu. rewrite flush_observe. unfold usage, observe in *. cbn [outcome]. destruct (_ || _); [apply Hu |].
  destruct (from_str (pending_data self)) as [v|]; cbn [ScanOutcome.usage]; [| apply Hu].
  destruct (extract (endpoint self) v) as [w|] eqn:E; cbn; [| apply Hu]. intros [= <-]. by apply extract_P in E.
Qed.

Lemma held_new e : held (new e).
Proof. split; [apply wf_new | cbn; lia | done]. Qed.

Lemma held_push self c : held self → held (push self c).
Proof.
  intros [Hw Hb Hu]. unfold push. destruct (truncated self); [done |].
  assert (∀ b, held (push_byte (set_after_cr self b) c) ∧ held (set_after_cr self b)) as Hs.
  { intros b. split; [| done]. unfold push_byte. rewrite reserve_spec by (done || lia). cbn [event_bytes set_after_cr].
    unfold wf in Hw. destruct (Z.ltb_spec MAX_EVENT_BYTES (event_bytes self + 1)).
    { split; [apply wf_truncate | cbn; lia | done]. }
    destruct (terminates c).
    - split.
      + apply wf_absorb. unfold wf. cbn. lia.
      + rewrite absorb_line_buf. cbn [line_buf set_line_buf set_event_bytes set_after_cr]. unfold absorb_line.
        destruct (line_buf self) as [|d l]; [rewrite flush_observe; cbn; lia |].
        cbn [pending_data event_bytes set_pending set_line_buf set_after_cr set_event_bytes].
        pose proof (add_data_length (pending_data self) (d :: l)). cbn [length] in *. lia.
      + intros u. unfold absorb_line. cbn [line_buf set_event_bytes set_after_cr]. destruct (line_buf self); [| apply Hu].
        apply (flush_usage (set_line_buf (set_after_cr (set_event_bytes (set_after_cr self b) (event_bytes self + 1)) (Ascii.eqb c CR)) [])). exact Hu.
    - split; [unfold wf; cbn; lia | | exact Hu]. cbn. rewrite length_app. cbn. lia. }
  destruct (after_cr self) eqn:Ea.
  - destruct (Ascii.eqb c LF); apply Hs.
  - specialize (Hs false) as [Hs _]. by replace (set_after_cr self false) with self in Hs by (rewrite <- Ea; by destruct self).
Qed.

Lemma held_pushes self l : held self → held (foldl push self l).
Proof. revert self. induction l as [|c l IH]; intros s Hs; [done |]. cbn. apply IH. by apply held_push. Qed.

Lemma held_finish self u : held self → ScanOutcome.usage (finish self).2 = Some u → P u.
Proof.
  intros [_ _ Hu]. unfold finish. destruct (truncated self) eqn:Et; cbn [snd].
  - unfold truncated in Et. by rewrite Et.
  - set (f := flush_event _). destruct (ScanOutcome.truncated (outcome f)); [done |]. change (usage f = Some u → P u).
    apply flush_usage. destruct (line_buf self); [exact Hu |]. exact Hu.
Qed.

Lemma scan_usage e l u : ScanOutcome.usage (finish (feed (new e) l)).2 = Some u → P u.
Proof. rewrite feed_bytes by apply wf_new. apply held_finish, held_pushes, held_new. Qed.
End Memory.

Section Bounded.
Context `{SerdeJson, Memchr, !MemchrLaws}.
Import SseUsageScanner.

Lemma extract_observed e v u : extract e v = Some u → observed u.
Proof. destruct e; cbn; intros E; [| | done]; apply (extract_stream_observed v); auto. Qed.

(** The scanner holds a bounded amount of the stream and never makes a
    count up. After any chunks whatever it keeps at most [MAX_EVENT_BYTES] of
    an unfinished line and three times that of decoded data, and a usage it
    reports was read from an event that carried at least one count. *)
Theorem scanner_is_bounded (e : Endpoint.t) (chunks : list (list ascii)) :
  let s := foldl feed (new e) chunks in
  Z.of_nat (length (line_buf s)) ≤ MAX_EVENT_BYTES
  ∧ Z.of_nat (String.length (pending_data s)) ≤ 3 * MAX_EVENT_BYTES
  ∧ ∀ u, ScanOutcome.usage (finish s).2 = Some u → observed u.
Proof.
  cbv zeta. rewrite feed_chunks by apply wf_new.
  assert (held observed (foldl push (new e) (mjoin chunks))) as Hs
    by exact (held_pushes observed extract_observed _ _ (held_new observed e)).
  split_and!; [| | intros u; exact (held_finish observed extract_observed _ u Hs)]; destruct Hs as [Hw Hb _]; unfold wf in Hw; lia.
Qed.
End Bounded.

(** ** At a concrete stream *)
Definition ascii_lines (l : list string) : list ascii :=
  mjoin ((λ s, String.list_ascii_of_string s ++ [CR; LF]) <$> l).
Definition dq (s : string) : string := String quote (s +:+ String quote "").
Definition usage_event : string :=
  ("data: {" +:+ dq "usage" +:+ ":{" +:+ dq "prompt_tokens" +:+ ":12," +:+ dq "completion_tokens" +:+ ":34}}")%string.
Definition stream_1 : list ascii :=
  ascii_lines ["event: chunk"; "data: {}"; ""; usage_event; ""; "data: oops"; ""; "data: [DONE]"; ""]%string.

Lemma chunks_do_not_matter_witness :
  foldl SseUsageScanner.feed (SseUsageScanner.new Endpoint.ChatCompletions) ((λ c, [c]) <$> stream_1)
    = SseUsageScanner.feed (SseUsageScanner.new Endpoint.ChatCompletions) (mjoin ((λ c, [c]) <$> stream_1)).
Proof. exact (proj1 (chunks_do_not_matter Endpoint.ChatCompletions ((λ c, [c]) <$> stream_1))). Defined.

Lemma stream_1_within : within_cap stream_1.
Proof.
  unfold within_cap. vm_compute split_lines. vm_compute split_events. split; [| by vm_compute].
  repeat constructor; by vm_compute.
Qed.

Lemma scan_is_report_witness :
  (SseUsageScanner.finish (SseUsageScanner.feed (SseUsageScanner.new Endpoint.ChatCompletions) stream_1)).2
    = ScanOutcome.mk (Some (Usage.new (Some 12) (Some 34) None)) 2 false 1.
Proof.
  rewrite (proj1 (scan_is_report Endpoint.ChatCompletions stream_1) stream_1_within). vm_compute. reflexivity.
Defined.

Lemma scanner_is_bounded_witness :
  Z.of_nat (length (SseUsageScanner.line_buf
    (foldl SseUsageScanner.feed (SseUsageScanner.new Endpoint.Responses) [take 20 stream_1; drop 20 stream_1]))) ≤ MAX_EVENT_BYTES.
Proof. exact (proj1 (scanner_is_bounded Endpoint.Responses [take 20 stream_1; drop 20 stream_1])). Defined.
