(* ===== verification/StreamMeter.v ===== *)
(** * Metering a streamed response ([stream_response] and [StreamMeter] of [src/src/proxy/handler.rs])

    The body of a streamed response as its generator runs: frames are observed
    and passed on one by one, and however the stream ends (to its end, broken,
    stalled, or dropped with the client) its request is handed to the ledger
    once. *)

From stdpp Require Import base strings list numbers.
From Stdlib Require Import Ascii ZArith Lia.
From S2P Require Import Prelude Utf8 Redaction TimeLib Calendar Timefmt Pricing LedgerTypes Json ProxyUsage SseScan.

Local Open Scope Z_scope.

Definition CLIENT_DISCONNECT : string := "client disconnected during streaming".

(** [Duration::as_millis() as u64]; a clock reading is an argument. *)
Definition as_u64_ms (millis : Z) : Z := u64_wrap millis.

Module MeterLatch.
Inductive t : Type := Armed | HandedOff.
End MeterLatch.

Module StreamMeterState.
Record t `{TimeCrate} : Type := mk {
  record : RequestRecord.t;
  scanner : SseUsageScanner.t;
  ttft_ms : option Z;
  bytes : Z;
  latch : MeterLatch.t }.
Arguments t {_}.

Definition arm_once `{TimeCrate} (self : t) : t * bool :=
  match latch self with
  | MeterLatch.Armed => (mk _ (record self) (scanner self) (ttft_ms self) (bytes self) MeterLatch.HandedOff, true)
  | MeterLatch.HandedOff => (self, false)
  end.

Definition set_scanner `{TimeCrate} (self : t) (s : SseUsageScanner.t) : t :=
  mk _ (record self) s (ttft_ms self) (bytes self) (latch self).
End StreamMeterState.

Module StreamMeter.
Section Meter.
Context `{TimeCrate, SerdeJson, Memchr}.

(** The operations hold the lock from their first to their last line. What an
    operation hands to [spawn_detached_finalize] is its second result. *)
Record t : Type := mk {
  inner : StreamMeterState.t;
  http_status : Z;
  credentials : list string }.

Definition new (record : RequestRecord.t) (endpoint : Endpoint.t) (http_status : Z) (credentials : list string) : t :=
  mk (StreamMeterState.mk _ record (SseUsageScanner.new endpoint) None 0 MeterLatch.Armed) http_status credentials.

Definition observe (self : t) (elapsed : Z) (data : list ascii) : t :=
  let state := inner self in
  let ttft := match StreamMeterState.ttft_ms state with None => Some (as_u64_ms elapsed) | Some t => Some t end in
  mk (StreamMeterState.mk _ (StreamMeterState.record state)
        (SseUsageScanner.feed (StreamMeterState.scanner state) data) ttft
        (u64_wrap (StreamMeterState.bytes state + Z.of_nat (length data))) (StreamMeterState.latch state))
     (http_status self) (credentials self).

Definition with_state (self : t) (state : StreamMeterState.t) : t := mk state (http_status self) (credentials self).

Definition with_ttft (record : RequestRecord.t) (ttft : option Z) : RequestRecord.t :=
  match ttft with Some ttft => RequestRecord.set_ttft record ttft | None => record end.
Definition with_usage (record : RequestRecord.t) (usage : option Usage.t) : RequestRecord.t :=
  match usage with Some usage => RequestRecord.set_usage record usage | None => record end.

(** The part the three endings share: claim the latch, finish the scan, and
    build the record from the state. *)
Definition hand_off (self : t) (build : StreamMeterState.t → RequestRecord.t) : t * option RequestRecord.t :=
  let '(state, armed) := StreamMeterState.arm_once (inner self) in
  if negb armed then (self, None)
  else
    let state := StreamMeterState.set_scanner state (fst (SseUsageScanner.finish (StreamMeterState.scanner state))) in
    (with_state self state, Some (build state)).

Definition usage (state : StreamMeterState.t) : option Usage.t := SseUsageScanner.usage (StreamMeterState.scanner state).

Definition finish_completed (self : t) (elapsed : Z) : t * option RequestRecord.t :=
  hand_off self (λ state,
    let record := RequestRecord.complete (StreamMeterState.record state) (http_status self)
                    (default Usage.default_usage (usage state)) (as_u64_ms elapsed) in
    with_ttft record (StreamMeterState.ttft_ms state)).

Definition finish_broken (self : t) (reason : string) (elapsed : Z) : t * option RequestRecord.t :=
  hand_off self (λ state,
    let reason := (reason +:+ " (after " +:+ dec_string (StreamMeterState.bytes state) +:+ " bytes)")%string in
    let record := RequestRecord.fail (StreamMeterState.record state) (Some (http_status self))
                    (sanitize_reason reason (credentials self)) (as_u64_ms elapsed) in
    with_ttft (with_usage record (usage state)) (StreamMeterState.ttft_ms state)).

(** [Drop]. *)
Definition drop_meter (self : t) (elapsed : Z) : t * option RequestRecord.t :=
  hand_off self (λ state,
    let record := RequestRecord.interrupt (StreamMeterState.record state) CLIENT_DISCONNECT (as_u64_ms elapsed) in
    with_ttft (with_usage record (usage state)) (StreamMeterState.ttft_ms state)).
End Meter.
End StreamMeter.

(** ** The body *)
Section Body.
Context `{TimeCrate, SerdeJson, Memchr}.

(** What [timeout(idle_timeout, body.frame())] yields; a frame is its data, or
    trailers. *)
Inductive Polled : Type :=
  | IdleTimeout
  | EndOfBody
  | BodyError (e : string)
  | Frame (data : option (list ascii)).

(** What happens to a body: a poll of the generator with the clock's reading,
    or the drop of the whole. *)
Inductive BodyEvent : Type :=
  | Poll (elapsed : Z) (p : Polled)
  | Drop (elapsed : Z).

Record StreamBody : Type := mkBody {
  meter : StreamMeter.t;
  running : bool;
  yielded : list (list ascii);
  handed : list RequestRecord.t }.

Definition option_list {A} (o : option A) : list A := match o with Some a => [a] | None => [] end.

(** The generator ends and its locals go, the meter last. *)
Definition end_generator (b : StreamBody) (ended : StreamMeter.t * option RequestRecord.t) (elapsed : Z) : StreamBody :=
  let '(m, r) := ended in
  let '(m, r') := StreamMeter.drop_meter m elapsed in
  mkBody m false (yielded b) (handed b ++ option_list r ++ option_list r').

(** One turn of the loop. *)
Definition body_step (timeout_secs : Z) (b : StreamBody) (e : BodyEvent) : StreamBody :=
  if negb (running b) then b
  else
    match e with
    | Drop elapsed =>
        let '(m, r) := StreamMeter.drop_meter (meter b) elapsed in
        mkBody m false (yielded b) (handed b ++ option_list r)
    | Poll elapsed IdleTimeout =>
        let reason := ("upstream sent no data for " +:+ dec_string timeout_secs +:+ "s mid-stream")%string in
        end_generator b (StreamMeter.finish_broken (meter b) reason elapsed) elapsed
    | Poll elapsed (BodyError e) =>
        end_generator b (StreamMeter.finish_broken (meter b) ("upstream stream broke: " +:+ e)%string elapsed) elapsed
    | Poll elapsed EndOfBody =>
        end_generator b (StreamMeter.finish_completed (meter b) elapsed) elapsed
    | Poll elapsed (Frame (Some data)) =>
        match data with
        | [] => b
        | _ => mkBody (StreamMeter.observe (meter b) elapsed data) true (yielded b ++ [data]) (handed b)
        end
    | Poll elapsed (Frame None) => b
    end.

Definition new_body (m : StreamMeter.t) : StreamBody := mkBody m true [] [].

Definition run_body (timeout_secs : Z) (b : StreamBody) (events : list BodyEvent) : StreamBody :=
  foldl (body_step timeout_secs) b events.

(** ** What the ledger should be told

    Read off the events: the chunks up to the ending, and the ending. *)
Inductive Ending : Type := Completed | Broken (reason : string) | Interrupted.

Fixpoint chunks (events : list BodyEvent) : list (Z * list ascii) :=
  match events with
  | Poll elapsed (Frame (Some (c :: data))) :: rest => (elapsed, c :: data) :: chunks rest
  | Poll _ (Frame _) :: rest => chunks rest
  | _ => []
  end.

Fixpoint ending (timeout_secs : Z) (events : list BodyEvent) : option (Ending * Z) :=
  match events with
  | [] => None
  | Poll _ (Frame _) :: rest => ending timeout_secs rest
  | Poll elapsed EndOfBody :: _ => Some (Completed, elapsed)
  | Poll elapsed IdleTimeout :: _ =>
      Some (Broken ("upstream sent no data for " +:+ dec_string timeout_secs +:+ "s mid-stream")%string, elapsed)
  | Poll elapsed (BodyError e) :: _ => Some (Broken ("upstream stream broke: " +:+ e)%string, elapsed)
  | Drop elapsed :: _ => Some (Interrupted, elapsed)
  end.

(** The bytes that went through, the usage a scan of the whole of them
    reports, and the time of the first of them. *)
Definition passed (events : list BodyEvent) : list ascii := mjoin (snd <$> chunks events).
Definition stream_usage (e : Endpoint.t) (events : list BodyEvent) : option Usage.t :=
  ScanOutcome.usage (snd (SseUsageScanner.finish (SseUsageScanner.feed (SseUsageScanner.new e) (passed events)))).
Definition first_byte (events : list BodyEvent) : option Z := (λ p, as_u64_ms p.1) <$> head (chunks events).

Definition stream_record (record : RequestRecord.t) (e : Endpoint.t) (http_status : Z) (credentials : list string)
    (events : list BodyEvent) (end_ : Ending * Z) : RequestRecord.t :=
  let '(how, elapsed) := end_ in
  let usage := stream_usage e events in
  let ended :=
    match how with
    | Completed => RequestRecord.complete record http_status (default Usage.default_usage usage) (as_u64_ms elapsed)
    | Broken reason =>
        let reason := (reason +:+ " (after " +:+ dec_string (u64_wrap (Z.of_nat (length (passed events)))) +:+ " bytes)")%string in
        StreamMeter.with_usage
          (RequestRecord.fail record (Some http_status) (sanitize_reason reason credentials) (as_u64_ms elapsed)) usage
    | Interrupted =>
        StreamMeter.with_usage (RequestRecord.interrupt record CLIENT_DISCONNECT (as_u64_ms elapsed)) usage
    end in
  StreamMeter.with_ttft ended (first_byte events).
End Body.

(** ** Every ending is recorded, once *)
Section Accounted.
Context `{TimeCrate, SerdeJson, Memchr, !MemchrLaws}.

Definition armed (m : StreamMeter.t) : Prop := StreamMeterState.latch (StreamMeter.inner m) = MeterLatch.Armed.

Lemma hand_off_armed m build :
  armed m →
  ∃ m' r, StreamMeter.hand_off m build = (m', Some r)
    ∧ StreamMeterState.latch (StreamMeter.inner m') = MeterLatch.HandedOff.
Proof.
  unfold armed, StreamMeter.hand_off, StreamMeterState.arm_once. intros ->. cbn. by eexists _, _.
Qed.

Lemma hand_off_again m build :
  StreamMeterState.latch (StreamMeter.inner m) = MeterLatch.HandedOff → StreamMeter.hand_off m build = (m, None).
Proof. unfold StreamMeter.hand_off, StreamMeterState.arm_once. by intros ->. Qed.

Definition observe_all (m : StreamMeter.t) (l : list (Z * list ascii)) : StreamMeter.t :=
  foldl (λ m p, StreamMeter.observe m p.1 p.2) m l.

Lemma observe_all_fields m l :
  let m' := observe_all m l in
  armed m →
  armed m' ∧ StreamMeter.http_status m' = StreamMeter.http_status m
  ∧ StreamMeter.credentials m' = StreamMeter.credentials m
  ∧ StreamMeterState.record (StreamMeter.inner m') = StreamMeterState.record (StreamMeter.inner m)
  ∧ StreamMeterState.scanner (StreamMeter.inner m')
      = foldl SseUsageScanner.feed (StreamMeterState.scanner (StreamMeter.inner m)) (snd <$> l)
  ∧ StreamMeterState.ttft_ms (StreamMeter.inner m')
      = or_else (StreamMeterState.ttft_ms (StreamMeter.inner m)) ((λ p, as_u64_ms p.1) <$> head l)
  ∧ u64_wrap (StreamMeterState.bytes (StreamMeter.inner m'))
      = u64_wrap (StreamMeterState.bytes (StreamMeter.inner m) + Z.of_nat (length (mjoin (snd <$> l)))).
Proof.
  unfold observe_all. revert m. induction l as [|[t d] l IH]; intros m Ha; cbn [foldl fst snd].
  { split_and!; try done; [by destruct (StreamMeterState.ttft_ms _) | by rewrite Z.add_0_r]. }
  destruct (IH (StreamMeter.observe m t d) Ha) as (E1 & E2 & E3 & E4 & E5 & E6 & E7).
  rewrite E2, E3, E4, E5, E6, E7. split_and!; try done.
  - unfold StreamMeter.observe. cbn [StreamMeter.inner StreamMeterState.ttft_ms]. by destruct (StreamMeterState.ttft_ms (StreamMeter.inner m)).
  - cbn. change (mjoin (d :: (snd <$> l))) with (d ++ mjoin (snd <$> l)).
    rewrite length_app, Nat2Z.inj_add, Z.add_assoc. unfold u64_wrap. by rewrite Zplus_mod_idemp_l.
Qed.

(** What the meter does at an ending. *)
Definition end_meter (m : StreamMeter.t) (end_ : Ending * Z) : StreamMeter.t * option RequestRecord.t :=
  let '(how, elapsed) := end_ in
  match how with
  | Completed => StreamMeter.finish_completed m elapsed
  | Broken reason => StreamMeter.finish_broken m reason elapsed
  | Interrupted => StreamMeter.drop_meter m elapsed
  end.

Lemma end_meter_armed m e :
  armed m → ∃ m' r, end_meter m e = (m', Some r)
    ∧ StreamMeterState.latch (StreamMeter.inner m') = MeterLatch.HandedOff.
Proof. destruct e as [[] ?]; apply hand_off_armed. Qed.

Lemma end_generator_once b m r elapsed :
  StreamMeterState.latch (StreamMeter.inner m) = MeterLatch.HandedOff →
  end_generator b (m, r) elapsed = mkBody m false (yielded b) (handed b ++ option_list r).
Proof. intros Hl. unfold end_generator, StreamMeter.drop_meter. rewrite hand_off_again by done. by rewrite app_nil_r. Qed.

Lemma run_ended secs b events : running b = false → run_body secs b events = b.
Proof. intros Hr. induction events as [|e events IH]; [done |]. cbn. unfold body_step at 2. by rewrite Hr. Qed.

Lemma run_body_spec secs b events :
  running b = true → armed (meter b) →
  run_body secs b events =
    let m := observe_all (meter b) (chunks events) in
    match ending secs events with
    | None => mkBody m true (yielded b ++ (snd <$> chunks events)) (handed b)
    | Some e => mkBody (fst (end_meter m e)) false (yielded b ++ (snd <$> chunks events))
                  (handed b ++ option_list (snd (end_meter m e)))
    end.
Proof.
  revert b. induction events as [|e events IH]; intros b Hr Ha.
  { cbn. rewrite app_nil_r. destruct b. cbn in Hr. by subst. }
  cbn [run_body foldl]. change (foldl (body_step secs) ?x events) with (run_body secs x events).
  assert (∀ how elapsed, ending secs (e :: events) = Some (how, elapsed) → chunks (e :: events) = [] →
    body_step secs b e = mkBody (fst (end_meter (meter b) (how, elapsed))) false (yielded b)
                           (handed b ++ option_list (snd (end_meter (meter b) (how, elapsed)))) →
    run_body secs (body_step secs b e) events =
    match ending secs (e :: events) with
    | None => mkBody (observe_all (meter b) (chunks (e :: events))) true (yielded b ++ (snd <$> chunks (e :: events))) (handed b)
    | Some e' => mkBody (fst (end_meter (observe_all (meter b) (chunks (e :: events))) e')) false
                   (yielded b ++ (snd <$> chunks (e :: events)))
                   (handed b ++ option_list (snd (end_meter (observe_all (meter b) (chunks (e :: events))) e')))
    end) as Hend.
  { intros how elapsed -> -> ->. rewrite run_ended by done. cbn. by rewrite app_nil_r. }
  assert (∀ p t, end_meter (meter b) (p, t) = (fst (end_meter (meter b) (p, t)), snd (end_meter (meter b) (p, t)))
    ∧ StreamMeterState.latch (StreamMeter.inner (fst (end_meter (meter b) (p, t)))) = MeterLatch.HandedOff) as Hm.
  { intros p t. destruct (end_meter_armed (meter b) (p, t) Ha) as (m' & r & -> & ?). done. }
  destruct e as [t [| |x|[[|c d]|]]|t].
  - eapply Hend; [done | done |]. unfold body_step. rewrite Hr. cbn [negb].
    pose proof (Hm (Broken ("upstream sent no data for " +:+ dec_string secs +:+ "s mid-stream")%string) t) as [E El].
    cbn [end_meter] in E, El |- *. rewrite E. by apply end_generator_once.
  - eapply Hend; [done | done |]. unfold body_step. rewrite Hr. cbn [negb].
    pose proof (Hm Completed t) as [E El]. cbn [end_meter] in E, El |- *. rewrite E. by apply end_generator_once.
  - eapply Hend; [done | done |]. unfold body_step. rewrite Hr. cbn [negb].
    pose proof (Hm (Broken ("upstream stream broke: " +:+ x)%string) t) as [E El].
    cbn [end_meter] in E, El |- *. rewrite E. by apply end_generator_once.
  - unfold body_step. rewrite Hr. cbn [negb]. by rewrite IH.
  - unfold body_step. rewrite Hr. cbn [negb]. rewrite IH by done. cbn.
    destruct (ending secs events); by rewrite <- app_assoc.
  - unfold body_step. rewrite Hr. cbn [negb]. by rewrite IH.
  - eapply (Hend Interrupted t); [done | done |]. unfold body_step. rewrite Hr. cbn [negb end_meter].
    by destruct (StreamMeter.drop_meter (meter b) t).
Qed.

Lemma finished_usage s :
  SseUsageScanner.usage (fst (SseUsageScanner.finish s)) = ScanOutcome.usage (snd (SseUsageScanner.finish s)).
Proof. done. Qed.

(** The record the meter builds is the one the events call for. *)
Lemma end_meter_record record e http_status credentials events end_ :
  snd (end_meter (observe_all (StreamMeter.new record e http_status credentials) (chunks events)) end_)
  = Some (stream_record record e http_status credentials events end_).
Proof.
  set (m0 := StreamMeter.new record e http_status credentials).
  destruct (observe_all_fields m0 (chunks events) eq_refl) as (Ha & Es & Ec & Er & Ef & Et & Eb).
  set (m := observe_all m0 (chunks events)) in *. unfold armed in Ha.
  assert (StreamMeterState.bytes (StreamMeter.inner m) = u64_wrap (Z.of_nat (length (passed events)))) as Eby.
  { unfold passed. change (StreamMeterState.bytes (StreamMeter.inner m0)) with 0 in Eb. rewrite Z.add_0_l in Eb.
    rewrite <- Eb. unfold m, observe_all. clear. induction (chunks events) as [|p l IH] using rev_ind; [done |].
    rewrite foldl_app. cbn. unfold u64_wrap. by rewrite Z.mod_mod. }
  assert (∀ build, snd (StreamMeter.hand_off m build) = Some (build
    (StreamMeterState.mk _ record (fst (SseUsageScanner.finish (SseUsageScanner.feed (SseUsageScanner.new e) (passed events))))
       (first_byte events) (u64_wrap (Z.of_nat (length (passed events)))) MeterLatch.HandedOff))) as Hb.
  { intros build. unfold StreamMeter.hand_off, StreamMeterState.arm_once. rewrite Ha. cbn [negb snd].
    unfold StreamMeterState.set_scanner. cbn [StreamMeterState.scanner StreamMeterState.record StreamMeterState.ttft_ms
      StreamMeterState.bytes StreamMeterState.latch]. rewrite Eby, Er, Ef, Et. cbn [StreamMeter.inner m0 StreamMeter.new
      StreamMeterState.scanner StreamMeterState.record StreamMeterState.ttft_ms or_else].
    rewrite feed_chunks, <- feed_bytes by apply wf_new. done. }
  destruct end_ as [how elapsed]. unfold stream_record, stream_usage.
  destruct how as [|reason|]; cbn [end_meter]; unfold StreamMeter.finish_completed, StreamMeter.finish_broken, StreamMeter.drop_meter;
    rewrite Hb; cbn [StreamMeterState.record StreamMeterState.ttft_ms StreamMeterState.bytes]; rewrite ?Es, ?Ec; done.
Qed.

(** Whatever the frames, the clock and the client do. *)
Lemma run_body_new secs record e http_status credentials events :
  let b := run_body secs (new_body (StreamMeter.new record e http_status credentials)) events in
  yielded b = (snd <$> chunks events)
  ∧ running b = negb (is_Some_b (ending secs events))
  ∧ handed b = option_list (stream_record record e http_status credentials events <$> ending secs events).
Proof.
  intros b. subst b. rewrite run_body_spec by done.
  change (meter (new_body ?m)) with m. cbn [new_body yielded handed app].
  destruct (ending secs events) as [end_|]; cbn [yielded running handed]; [| done].
  by rewrite end_meter_record.
Qed.

(** C7. A streamed response is accounted for exactly once. Whatever its frames
    are, whatever the clock says and whenever the client goes away, the client
    gets the upstream's bytes, unchanged and in order, up to the ending; nothing
    is handed to the ledger before the ending, and one terminal record at it:
    completed when the upstream's stream ended, failed with the scrubbed reason
    when it broke or stalled, interrupted when the response was dropped; with
    the usage that a scan of all the bytes together reports, the time of the
    first byte, and everything the accept recorded. *)
Theorem stream_accounted_once (timeout_secs : Z) (record : RequestRecord.t) (e : Endpoint.t) (http_status : Z)
    (credentials : list string) (events : list BodyEvent) :
  let b := run_body timeout_secs (new_body (StreamMeter.new record e http_status credentials)) events in
  mjoin (yielded b) = passed events
  ∧ (running b = true ↔ ending timeout_secs events = None)
  ∧ handed b = option_list (stream_record record e http_status credentials events <$> ending timeout_secs events)
  ∧ Forall (λ r, RequestRecord.is_terminal r = true
                 ∧ RequestRecord.request_id r = RequestRecord.request_id record
                 ∧ RequestRecord.pricing r = RequestRecord.pricing record
                 ∧ RequestRecord.streaming r = RequestRecord.streaming record) (handed b).
Proof.
  intros b. destruct (run_body_new timeout_secs record e http_status credentials events) as (Hy & Hr & Hh).
  fold b in Hy, Hr, Hh. rewrite Hy, Hr, Hh. split_and!; [done | by destruct (ending _ _) | done |].
  destruct (ending timeout_secs events) as [[how elapsed]|]; cbn; [| constructor].
  repeat constructor; unfold stream_record, StreamMeter.with_ttft, StreamMeter.with_usage;
    destruct how, (first_byte events), (stream_usage e events); done.
Qed.
End Accounted.

(** ** At a concrete response *)
Definition streamed_1 : RequestRecord.t :=
  RequestRecord.with_pricing
    (RequestRecord.new t1 "req-1" "acme" "gpt-4o" Endpoint.ChatCompletions true)
    (PricingSnapshot.new (PricePerMillion.new 95000) (PricePerMillion.new 47500) (PricePerMillion.new 475000)).

(** The stream of the scanner's example in two chunks, then the client leaves. *)
Definition events_1 (last : BodyEvent) : list BodyEvent :=
  [Poll 120 (Frame (Some (take 30 stream_1))); Poll 121 (Frame (Some [])); Poll 200 (Frame (Some (drop 30 stream_1)));
   Poll 210 (Frame None); last; Poll 400 EndOfBody].

Lemma stream_accounted_once_witness :
  (let b := run_body 60 (new_body (StreamMeter.new streamed_1 Endpoint.ChatCompletions 200 [])) (events_1 (Drop 350)) in
   mjoin (yielded b) = passed (events_1 (Drop 350)))
  ∧ passed (events_1 (Drop 350)) = stream_1
  ∧ ending 60 (events_1 (Drop 350)) = Some (Interrupted, 350)
  ∧ RequestRecord.usage (stream_record streamed_1 Endpoint.ChatCompletions 200 [] (events_1 (Drop 350)) (Interrupted, 350))
      = Usage.new (Some 12) (Some 34) None.
Proof.
  split; [exact (proj1 (stream_accounted_once 60 streamed_1 Endpoint.ChatCompletions 200 [] (events_1 (Drop 350)))) |].
  split; [by vm_compute |]. split; [by vm_compute |]. unfold stream_record, stream_usage. by vm_compute.
Defined.
