(* ===== verification/Writer.v ===== *)
(** * The ledger writer ([src/src/ledger/writer.rs])

    Two write operations ([insert_accept], [finalize_record]), one transaction
    per batch ([try_flush]) and a bounded retry ([flush_with_retry]); the task that
    owns them is [WriterTask]. *)

From stdpp Require Import base strings list gmap numbers fin_maps.
From Stdlib Require Import ZArith Lia.
From S2P Require Import Prelude TimeLib Calendar Timefmt Pricing LedgerTypes Sql Rollup.

Local Open Scope Z_scope.

(** ** Data *)

Definition BUSY_RETRIES : nat := 6.

Inductive WriteError : Type := QueueFull | Shutdown | Sqlite (e : SqlError).

Module WriteOp.
Inductive t : Type := Accept | Finalize | Barrier.

#[global] Instance eq_dec : EqDecision t.
Proof. solve_decision. Defined.
End WriteOp.

(** The acknowledgement channel is an identity of the caller waiting on it. *)
Module PendingWrite.
Record t `{TimeCrate} : Type := mk {
  op : WriteOp.t; record : option RequestRecord.t; ack : nat }.
Arguments mk {_} _ _ _.
End PendingWrite.

Record Ledger : Type := mkLedger { usage_records : Records; usage_hourly : Hourly }.

(** ** Statements *)
Section Statements.
Context `{TimeCrate, Rusqlite}.

Definition format_timestamp (ts : OffsetDateTime) : string := format_ts ts.

(** [record.pricing.map(|p| p.as_tuple().i)], the three of them. *)
Definition price_columns (pricing : option PricingSnapshot.t) : option Z * option Z * option Z :=
  match pricing with
  | None => (None, None, None)
  | Some p => let '(i, c, o) := PricingSnapshot.as_tuple p in (Some i, Some c, Some o)
  end.

(** A statement's CHECK constraints. *)
Definition checked_row (r : Row.t) : result Row.t SqlError :=
  if Row.check r then Ok r else Err ConstraintViolation.

Definition accept_row (record : RequestRecord.t) (instance_id : option string) : Row.t :=
  let '(i, c, o) := price_columns (RequestRecord.pricing record) in
  Row.mk (format_timestamp (RequestRecord.created_at record)) (RequestRecord.consumer_id record)
    (RequestRecord.model record) (Endpoint.as_str (RequestRecord.endpoint record))
    (Z.b2z (RequestRecord.streaming record)) None "in_flight" instance_id None None None None 0
    "unavailable" None None i c o.

(** [ON CONFLICT(request_id) DO NOTHING]; the CHECKs come first. *)
Definition insert_accept (db : Ledger) (record : RequestRecord.t) (instance_id : option string)
    : result Ledger SqlError :=
  let? row := checked_row (accept_row record instance_id) in
  match usage_records db !! RequestRecord.request_id record with
  | Some _ => Ok db
  | None => Ok (mkLedger (<[RequestRecord.request_id record := row]> (usage_records db)) (usage_hourly db))
  end.

(** [COALESCE(a, b)]. *)
Definition coalesce (a b : option Z) : option Z := match a with Some _ => a | None => b end.

(** The bound parameters a finalize writes. *)
Record Bound : Type := mkBound {
  b_input : option Z; b_output : option Z; b_cached : option Z; b_ttft : option Z }.

Definition bind_record (record : RequestRecord.t) : result Bound SqlError :=
  let usage := RequestRecord.usage record in
  let? i := bind_opt_u64 (Usage.input_tokens usage) in
  let? o := bind_opt_u64 (Usage.output_tokens usage) in
  let? c := bind_opt_u64 (Usage.cached_tokens usage) in
  let? t := bind_opt_u64 (RequestRecord.ttft_ms record) in
  Ok (mkBound i o c t).

(** [UPDATE usage_records SET ... WHERE request_id = ?1]. *)
Definition updated_row (record : RequestRecord.t) (b : Bound) (r : Row.t) : Row.t :=
  let '(i, c, o) := price_columns (RequestRecord.pricing record) in
  Row.mk (Row.created_at r) (Row.consumer_id r) (Row.model r) (Row.endpoint r)
    (Z.b2z (RequestRecord.streaming record)) (RequestRecord.http_status record)
    (RequestStatus.as_str (RequestRecord.request_status record)) (Row.instance_id r)
    (b_input b) (b_output b) (b_cached b) (b_ttft b)
    (Contribution.as_i64 (RequestRecord.duration_ms record))
    (UsageStatus.as_str (RequestRecord.usage_status record))
    (RequestRecord.error_message record) (RequestRecord.error_body record)
    (coalesce i (Row.input_price_snapshot r)) (coalesce c (Row.cached_input_price_snapshot r))
    (coalesce o (Row.output_price_snapshot r)).

(** [INSERT INTO usage_records] of a terminal row with no accept before it. *)
Definition inserted_row (record : RequestRecord.t) (b : Bound) (instance_id : option string) : Row.t :=
  let '(i, c, o) := price_columns (RequestRecord.pricing record) in
  Row.mk (format_timestamp (RequestRecord.created_at record)) (RequestRecord.consumer_id record)
    (RequestRecord.model record) (Endpoint.as_str (RequestRecord.endpoint record))
    (Z.b2z (RequestRecord.streaming record)) (RequestRecord.http_status record)
    (RequestStatus.as_str (RequestRecord.request_status record)) instance_id
    (b_input b) (b_output b) (b_cached b) (b_ttft b)
    (Contribution.as_i64 (RequestRecord.duration_ms record))
    (UsageStatus.as_str (RequestRecord.usage_status record))
    (RequestRecord.error_message record) (RequestRecord.error_body record) i c o.

Definition finalize_record (db : Ledger) (record : RequestRecord.t) (instance_id : option string)
    : result Ledger SqlError :=
  let request_id := RequestRecord.request_id record in
  let stored := StoredRow.load (usage_records db) request_id in
  let? b := bind_record record in
  let? rolled :=
    match usage_records db !! request_id, stored with
    | Some r, Some existing =>
        let? row := checked_row (updated_row record b r) in
        Ok (mkLedger (<[request_id := row]> (usage_records db))
              (match StoredRow.contribution existing with
               | Some previous => Contribution.retract previous (usage_hourly db)
               | None => usage_hourly db
               end))
    | _, _ =>
        let? row := checked_row (inserted_row record b instance_id) in
        Ok (mkLedger (<[request_id := row]> (usage_records db)) (usage_hourly db))
    end in
  let added := Contribution.terminal record (BucketKey.from_record record) in
  Ok (mkLedger (usage_records rolled) (Contribution.add added (usage_hourly rolled))).

(** [finalize_in_tx]. *)
Definition finalize_in_tx (db : Ledger) (record : RequestRecord.t) : result Ledger SqlError :=
  finalize_record db record None.

(** ** A batch in one transaction *)

(** What the lock and the disk do to one attempt: an error of [BEGIN
    IMMEDIATE], an error of [COMMIT]. Either leaves the database as it was. *)
Record Attempt : Type := mkAttempt { begin_error : option SqlError; commit_error : option SqlError }.

Definition unless (e : option SqlError) : result unit SqlError :=
  match e with Some e => Err e | None => Ok () end.

(** The request ids a batch finalizes. *)
Definition finalized_ids (batch : list PendingWrite.t) : gset string :=
  list_to_set (RequestRecord.request_id <$>
    omap PendingWrite.record (filter (λ p, PendingWrite.op p = WriteOp.Finalize) batch)).

(** One iteration of the loop over the batch: the new state, and 1 when it wrote. *)
Definition write_one (finalized : gset string) (instance_id : option string)
    (p : PendingWrite.t) (db : Ledger) : result (Ledger * Z) SqlError :=
  match PendingWrite.record p with
  | None => Ok (db, 0)
  | Some record =>
      match PendingWrite.op p with
      | WriteOp.Accept =>
          if decide (RequestRecord.request_id record ∈ finalized) then Ok (db, 0)
          else let? db' := insert_accept db record instance_id in Ok (db', 1)
      | WriteOp.Finalize => let? db' := finalize_record db record instance_id in Ok (db', 1)
      | WriteOp.Barrier => Ok (db, 0)
      end
  end.

Fixpoint write_all (finalized : gset string) (instance_id : option string)
    (batch : list PendingWrite.t) (db : Ledger) (written : Z) : result (Ledger * Z) SqlError :=
  match batch with
  | [] => Ok (db, written)
  | p :: batch' =>
      let? (db', n) := write_one finalized instance_id p db in
      write_all finalized instance_id batch' db' (written + n)
  end.

Definition try_flush (attempt : Attempt) (db : Ledger) (batch : list PendingWrite.t)
    (instance_id : option string) : result (Ledger * Z) SqlError :=
  let? _ := unless (begin_error attempt) in
  let? (db', written) := write_all (finalized_ids batch) instance_id batch db 0 in
  let? _ := unless (commit_error attempt) in
  Ok (db', written).

Definition is_busy (e : SqlError) : bool := match e with Busy => true | _ => false end.

(** The acknowledgements a drained batch sends. *)
Definition drain_acks (batch : list PendingWrite.t) (r : result unit WriteError)
    : list (PendingWrite.t * result unit WriteError) := (λ p, (p, r)) <$> batch.

Record Flushed : Type := mkFlushed {
  fl_ledger : Ledger;
  fl_committed : Z;
  fl_acks : list (PendingWrite.t * result unit WriteError);
  fl_healthy : bool }.

(** The retry loop; [attempt] counts the retries made, [left] those allowed. *)
Fixpoint flush_attempts (attempts : nat → Attempt) (left attempt : nat) (db : Ledger)
    (batch : list PendingWrite.t) (committed : Z) (instance_id : option string) : Flushed :=
  match try_flush (attempts attempt) db batch instance_id with
  | Ok (db', n) => mkFlushed db' (committed + n) (drain_acks batch (Ok ())) true
  | Err e =>
      match is_busy e, left with
      | true, S left' => flush_attempts attempts left' (S attempt) db batch committed instance_id
      | _, _ => mkFlushed db committed (drain_acks batch (Err (Sqlite e))) false
      end
  end.

Definition flush_with_retry (attempts : nat → Attempt) (db : Ledger) (batch : list PendingWrite.t)
    (committed : Z) (instance_id : option string) : Flushed :=
  match batch with
  | [] => mkFlushed db committed [] true
  | _ => flush_attempts attempts BUSY_RETRIES 0 db batch committed instance_id
  end.
End Statements.

(** ** What a write does to the rows *)
Section Rows.
Context `{TimeCrate, !TimeLaws, RusqliteLaws}.

Definition fits_i64 (o : option Z) : Prop := ∀ z, o = Some z → 0 ≤ z ≤ i64_max.
Definition usage_fits (u : Usage.t) : Prop :=
  fits_i64 (Usage.input_tokens u) ∧ fits_i64 (Usage.output_tokens u) ∧ fits_i64 (Usage.cached_tokens u).

(** A finished record, as the request handler builds it: the counts are [u64]s
    and the durations milliseconds of a clock. *)
Definition record_ok (record : RequestRecord.t) : Prop :=
  RequestRecord.is_terminal record = true
  ∧ ledger_instant (RequestRecord.created_at record)
  ∧ (∀ z, Usage.input_tokens (RequestRecord.usage record) = Some z → is_u64 z)
  ∧ (∀ z, Usage.output_tokens (RequestRecord.usage record) = Some z → is_u64 z)
  ∧ (∀ z, Usage.cached_tokens (RequestRecord.usage record) = Some z → is_u64 z)
  ∧ (∀ z, RequestRecord.ttft_ms record = Some z → 0 ≤ z ≤ i64_max)
  ∧ 0 ≤ RequestRecord.duration_ms record ≤ i64_max.

(** The row a finalize finds is the accepted request's. *)
Definition same_bucket (record : RequestRecord.t) (r : Row.t) : Prop :=
  format_hour_str (Row.created_at r) = format_hour (RequestRecord.created_at record)
  ∧ Row.consumer_id r = RequestRecord.consumer_id record
  ∧ Row.model r = RequestRecord.model record
  ∧ Row.endpoint r = Endpoint.as_str (RequestRecord.endpoint record).

Lemma as_i64_id z : 0 ≤ z ≤ i64_max → Contribution.as_i64 z = z.
Proof. intros. apply wrap_signed_id; [lia |]. change (2 ^ (64 - 1)) with (2 ^ 63). ranges. lia. Qed.

Lemma as_i64_default o : fits_i64 o → Contribution.as_i64 (default 0 o) = default 0 o.
Proof. intros Ho. apply as_i64_id. destruct o; simpl; [by apply Ho | ranges; lia]. Qed.

Lemma bind_record_Ok record b :
  bind_record record = Ok b →
  b = mkBound (Usage.input_tokens (RequestRecord.usage record)) (Usage.output_tokens (RequestRecord.usage record))
        (Usage.cached_tokens (RequestRecord.usage record)) (RequestRecord.ttft_ms record)
  ∧ (∀ z, Usage.input_tokens (RequestRecord.usage record) = Some z → z ≤ i64_max)
  ∧ (∀ z, Usage.output_tokens (RequestRecord.usage record) = Some z → z ≤ i64_max)
  ∧ (∀ z, Usage.cached_tokens (RequestRecord.usage record) = Some z → z ≤ i64_max).
Proof.
  unfold bind_record.
  destruct (bind_opt_u64 _) as [i|] eqn:Ei; [| done]. destruct (bind_opt_u64 (Usage.output_tokens _)) as [o|] eqn:Eo; [| done].
  destruct (bind_opt_u64 (Usage.cached_tokens _)) as [c|] eqn:Ec; [| done].
  destruct (bind_opt_u64 (RequestRecord.ttft_ms _)) as [t|] eqn:Et; [| done].
  apply bind_opt_u64_Ok in Ei as [-> ?], Eo as [-> ?], Ec as [-> ?], Et as [-> ?].
  by intros [= <-].
Qed.

Lemma bind_record_fits record :
  usage_fits (RequestRecord.usage record) → fits_i64 (RequestRecord.ttft_ms record) →
  is_ok (bind_record record) = true.
Proof. intros (?&?&?) ?. unfold bind_record. by rewrite !bind_opt_u64_fits. Qed.

(** The rollup delta a written row is responsible for is the one that is added. *)
Lemma row_contribution record b (r : Row.t) :
  record_ok record → bind_record record = Ok b →
  StoredRow.key (StoredRow.of_row r) = BucketKey.from_record record →
  Row.request_status r = RequestStatus.as_str (RequestRecord.request_status record) →
  (Row.input_tokens r, Row.output_tokens r, Row.cached_tokens r, Row.ttft_ms r)
    = (b_input b, b_output b, b_cached b, b_ttft b) →
  Row.duration_ms r = Contribution.as_i64 (RequestRecord.duration_ms record) →
  StoredRow.contribution (StoredRow.of_row r)
    = Some (Contribution.terminal record (BucketKey.from_record record))
  ∧ row_ok r.
Proof.
  intros (Ht & _ & Hi & Ho & Hc & Htt & Hd) Hb Hk Hs [= Ei Eo Ec Et] Ed.
  apply bind_record_Ok in Hb as (-> & Mi & Mo & Mc).
  assert (fits_i64 (Usage.input_tokens (RequestRecord.usage record))) as Hi'.
  { intros z Ez. split; [apply (Hi z Ez) | by apply Mi]. }
  assert (fits_i64 (Usage.output_tokens (RequestRecord.usage record))) as Ho'.
  { intros z Ez. split; [apply (Ho z Ez) | by apply Mo]. }
  assert (fits_i64 (Usage.cached_tokens (RequestRecord.usage record))) as Hc'.
  { intros z Ez. split; [apply (Hc z Ez) | by apply Mc]. }
  cbn [b_input b_output b_cached b_ttft] in *.
  assert (StoredRow.metrics (StoredRow.of_row r)
          = Contribution.metrics (Contribution.terminal record (BucketKey.from_record record))) as Em.
  { unfold StoredRow.of_row, Contribution.terminal. cbn [StoredRow.metrics Contribution.metrics].
    rewrite Hs, from_str_lossy_as_str, Ei, Eo, Ec, Et, Ed.
    rewrite !as_i64_default by (done || exact Htt). done. }
  split.
  - unfold StoredRow.contribution. cbn [StoredRow.status StoredRow.of_row].
    unfold RequestRecord.is_terminal in Ht. rewrite Hs, from_str_lossy_as_str, Ht, Hk, Em. done.
  - intros c. rewrite Em. unfold Contribution.terminal.
    rewrite !as_i64_default by (done || exact Htt). rewrite as_i64_id by done.
    destruct (Usage.input_tokens _) as [?|] eqn:E1, (Usage.output_tokens _) as [?|] eqn:E2,
      (Usage.cached_tokens _) as [?|] eqn:E3, (RequestRecord.ttft_ms _) as [?|] eqn:E4; destruct c; simpl;
      try lia; try (destruct (RequestRecord.request_status record); simpl; lia); try (by apply Hi'); try (by apply Ho');
      try (by apply Hc'); try (by apply Htt).
Qed.

Lemma row_check_ok (r : Row.t) :
  Row.check r = true ↔
  Row.request_status r ∈ ["in_flight"; "completed"; "failed"; "interrupted"]%string
  ∧ Row.usage_status r ∈ ["available"; "unavailable"; "partial"]%string
  ∧ Row.endpoint r ∈ ["chat_completions"; "responses"; "models"]%string
  ∧ null_or_nonneg (Row.input_tokens r) = true ∧ null_or_nonneg (Row.output_tokens r) = true
  ∧ null_or_nonneg (Row.cached_tokens r) = true ∧ null_or_nonneg (Row.input_price_snapshot r) = true
  ∧ null_or_nonneg (Row.cached_input_price_snapshot r) = true
  ∧ null_or_nonneg (Row.output_price_snapshot r) = true.
Proof. unfold Row.check. rewrite !andb_true_iff, !bool_decide_eq_true. tauto. Qed.

Lemma status_text_ok s : RequestStatus.as_str s ∈ ["in_flight"; "completed"; "failed"; "interrupted"]%string.
Proof. destruct s; simpl; set_solver. Qed.

Lemma usage_text_ok s : UsageStatus.as_str s ∈ ["available"; "unavailable"; "partial"]%string.
Proof. destruct s; simpl; set_solver. Qed.

Lemma endpoint_text_ok e : Endpoint.as_str e ∈ ["chat_completions"; "responses"; "models"]%string.
Proof. destruct e; simpl; set_solver. Qed.

Lemma checked_row_Ok r r' : checked_row r = Ok r' ↔ r = r' ∧ Row.check r = true.
Proof. unfold checked_row. destruct (Row.check r); naive_solver. Qed.

(** The row a successful finalize leaves behind. *)
Definition final_row (records : Records) (record : RequestRecord.t) (b : Bound) (inst : option string) : Row.t :=
  match records !! RequestRecord.request_id record with
  | Some r => updated_row record b r
  | None => inserted_row record b inst
  end.

Lemma finalize_record_Ok db record inst db' :
  finalize_record db record inst = Ok db' ↔
  ∃ b, bind_record record = Ok b
    ∧ Row.check (final_row (usage_records db) record b inst) = true
    ∧ usage_records db' = <[RequestRecord.request_id record := final_row (usage_records db) record b inst]> (usage_records db)
    ∧ usage_hourly db' =
        Contribution.add (Contribution.terminal record (BucketKey.from_record record))
          (match usage_records db !! RequestRecord.request_id record with
           | Some r => match StoredRow.contribution (StoredRow.of_row r) with
                       | Some ct => Contribution.retract ct (usage_hourly db)
                       | None => usage_hourly db end
           | None => usage_hourly db
           end).
Proof.
  unfold finalize_record, final_row, StoredRow.load. destruct (bind_record record) as [b|e]; [| naive_solver].
  destruct db as [records hourly], db' as [records' hourly']. cbn [usage_records usage_hourly].
  destruct (records !! _) as [r|]; cbn [fmap option_fmap option_map]; unfold checked_row.
  - destruct (Row.check (updated_row record b r)) eqn:Ec;
      [| split; [done | intros (b' & [= <-] & E & _); congruence]].
    cbn [usage_records usage_hourly]. split.
    + intros [= <- <-]. eauto.
    + intros (b' & [= <-] & _ & -> & ->). done.
  - destruct (Row.check (inserted_row record b inst)) eqn:Ec;
      [| split; [done | intros (b' & [= <-] & E & _); congruence]].
    cbn [usage_records usage_hourly]. split.
    + intros [= <- <-]. eauto.
    + intros (b' & [= <-] & _ & -> & ->). done.
Qed.

Lemma final_row_contribution records record b inst :
  record_ok record → bind_record record = Ok b →
  (∀ r, records !! RequestRecord.request_id record = Some r → same_bucket record r) →
  StoredRow.contribution (StoredRow.of_row (final_row records record b inst))
    = Some (Contribution.terminal record (BucketKey.from_record record))
  ∧ row_ok (final_row records record b inst)
  ∧ same_bucket record (final_row records record b inst).
Proof.
  intros Hr Hb Hsame.
  assert (∀ r : Row.t, same_bucket record r → Row.streaming r = Z.b2z (RequestRecord.streaming record) →
    StoredRow.key (StoredRow.of_row r) = BucketKey.from_record record) as Hkey.
  { intros r (Eh & Ec & Em & Ee) Es. unfold StoredRow.of_row, BucketKey.from_record.
    cbn [StoredRow.key]. by rewrite Eh, Ec, Em, Ee, Es. }
  assert (same_bucket record (final_row records record b inst)) as Hsb.
  { unfold final_row. destruct (records !! _) as [r|].
    - specialize (Hsame r eq_refl). unfold updated_row. by destruct (price_columns _) as [[? ?] ?].
    - unfold inserted_row. destruct (price_columns _) as [[? ?] ?]. unfold same_bucket. cbn.
      unfold format_timestamp. split_and!; try done. by apply format_hour_of_stored, Hr. }
  enough (StoredRow.contribution (StoredRow.of_row (final_row records record b inst))
    = Some (Contribution.terminal record (BucketKey.from_record record))
    ∧ row_ok (final_row records record b inst)) by tauto.
  apply row_contribution with b; [done | done | apply Hkey; [done |] | | |];
    unfold final_row, updated_row, inserted_row; destruct (records !! _); by destruct (price_columns _) as [[? ?] ?].
Qed.
End Rows.

(** ** Raw and rollup stay in step *)
Section Agreement.
Context `{TimeCrate, !TimeLaws, RusqliteLaws}.

Definition ledger_consistent (db : Ledger) : Prop := consistent (usage_records db) (usage_hourly db).

(** The record and the row of the same request name the same request. *)
Definition of_request (db : Ledger) (record : RequestRecord.t) : Prop :=
  ∀ r, usage_records db !! RequestRecord.request_id record = Some r → same_bucket record r.

(** Totals never see a row that is not terminal. *)
Lemma total_delete_idle records i r k c :
  records !! i = Some r → StoredRow.contribution (StoredRow.of_row r) = None →
  total (delete i records) k c = total records k c.
Proof. intros Hi Hn. rewrite (total_delete records i r) by done. unfold amount. by rewrite Hn. Qed.

Lemma finalize_consistent db record inst db' :
  ledger_consistent db → record_ok record → of_request db record →
  finalize_record db record inst = Ok db' → fits (usage_records db') → ledger_consistent db'.
Proof.
  intros (Hok & Hf & Ha) Hr Hsame (b & Hb & _ & Er & Eh)%finalize_record_Ok Hf'.
  destruct (final_row_contribution _ record b inst Hr Hb Hsame) as (Hct & Hrow & _).
  unfold ledger_consistent, consistent. rewrite Eh. rewrite Er in *.
  set (row := final_row _ _ _ _) in *. set (i := RequestRecord.request_id record) in *.
  rewrite <- insert_delete_eq in Hf' |- *.
  assert (rows_ok (<[i := row]> (delete i (usage_records db)))) as Hok'.
  { apply map_Forall_insert_2; [done |]. by apply rows_ok_delete. }
  split_and!; [done | done |]. apply add_agree; [apply lookup_delete_eq | done | done | done |].
  destruct (usage_records db !! i) as [r|] eqn:Ei; [| by rewrite delete_id].
  destruct (StoredRow.contribution (StoredRow.of_row r)) as [ct|] eqn:Ect.
  - by eapply retract_agree.
  - eapply agree_same_totals; [| exact Ha]. intros. by eapply total_delete_idle.
Qed.

(** A finalize keeps the rollup equal to the grouped sum of the terminal
    raw rows, whatever state it finds the request in (absent, in flight, or
    already terminal with other figures): afterwards the request's row
    contributes exactly the record's figures to exactly the record's bucket,
    no other row has changed, and every bucket is again the sum of its rows. *)
Theorem finalize_keeps_agreement (db db' : Ledger) (record : RequestRecord.t) (instance_id : option string)
    (Hdb : ledger_consistent db) (Hrecord : record_ok record) (Hsame : of_request db record)
    (Hfin : finalize_record db record instance_id = Ok db') (Hfits : fits (usage_records db')) :
  ledger_consistent db'
  ∧ ∃ row, usage_records db' = <[RequestRecord.request_id record := row]> (usage_records db)
      ∧ StoredRow.contribution (StoredRow.of_row row)
          = Some (Contribution.terminal record (BucketKey.from_record record)).
Proof.
  split; [by eapply finalize_consistent |].
  apply finalize_record_Ok in Hfin as (b & Hb & _ & Er & _).
  exists (final_row (usage_records db) record b instance_id). split; [done |].
  by apply final_row_contribution.
Qed.

(** A finalize is idempotent: repeating it, as a retried or duplicated
    write does, leaves both tables exactly as the first left them. *)
Theorem finalize_idempotent (db db' : Ledger) (record : RequestRecord.t) (instance_id : option string)
    (Hdb : ledger_consistent db) (Hrecord : record_ok record) (Hsame : of_request db record)
    (Hfin : finalize_record db record instance_id = Ok db') (Hfits : fits (usage_records db')) :
  finalize_record db' record instance_id = Ok db'.
Proof.
  pose proof (finalize_consistent _ _ _ _ Hdb Hrecord Hsame Hfin Hfits) as Hdb'.
  apply finalize_record_Ok in Hfin as (b & Hb & Hc & Er & _).
  destruct (final_row_contribution _ record b instance_id Hrecord Hb Hsame) as (_ & _ & Hsb).
  assert (final_row (usage_records db') record b instance_id
          = final_row (usage_records db) record b instance_id) as Erow.
  { unfold final_row at 1. rewrite Er, lookup_insert_eq. unfold final_row, updated_row, inserted_row.
    destruct (usage_records db !! _); destruct (price_columns _) as [[[?|] [?|]] [?|]]; done. }
  assert (of_request db' record) as Hsame'.
  { intros r. rewrite Er, lookup_insert_eq. by intros [= <-]. }
  set (h2 := Contribution.add (Contribution.terminal record (BucketKey.from_record record))
          (match usage_records db' !! RequestRecord.request_id record with
           | Some r => match StoredRow.contribution (StoredRow.of_row r) with
                       | Some ct => Contribution.retract ct (usage_hourly db')
                       | None => usage_hourly db' end
           | None => usage_hourly db' end)).
  assert (usage_records db' = <[RequestRecord.request_id record :=
            final_row (usage_records db') record b instance_id]> (usage_records db')) as Esame.
  { rewrite Erow. rewrite Er at 2. by rewrite insert_insert_eq. }
  assert (finalize_record db' record instance_id = Ok (mkLedger (usage_records db') h2)) as E.
  { apply finalize_record_Ok. exists b. by rewrite Erow in *. }
  rewrite E. do 2 f_equal. destruct db' as [r' h']. cbn [usage_records usage_hourly] in *. f_equal.
  assert (ledger_consistent (mkLedger r' h2)) as (_ & _ & Ha2) by (by eapply finalize_consistent).
  apply (agree_unique r'); [exact Ha2 | apply Hdb'].
Qed.
End Agreement.

(** ** Accepts, prices and batches *)
Section Batches.
Context `{TimeCrate, !TimeLaws, RusqliteLaws}.

(** A price list as the schema keeps it, on a record. *)
Definition priced_ok (record : RequestRecord.t) : Prop :=
  ∀ s, RequestRecord.pricing record = Some s → prices_ok s.

Lemma price_columns_check record i c o :
  priced_ok record → price_columns (RequestRecord.pricing record) = (i, c, o) →
  null_or_nonneg i = true ∧ null_or_nonneg c = true ∧ null_or_nonneg o = true.
Proof.
  unfold priced_ok, price_columns. destruct (RequestRecord.pricing record) as [s|]; [| by intros _ [= <- <- <-]].
  intros Hs. specialize (Hs s eq_refl). unfold prices_ok in Hs.
  destruct (PricingSnapshot.as_tuple s) as [[? ?] ?]. intros [= <- <- <-]. simpl. rewrite !Z.leb_le. lia.
Qed.

Lemma accept_row_check record inst : priced_ok record → Row.check (accept_row record inst) = true.
Proof.
  intros Hp. unfold accept_row. destruct (price_columns _) as [[i c] o] eqn:E.
  destruct (price_columns_check _ _ _ _ Hp E) as (?&?&?).
  apply row_check_ok. cbn. split_and!; try done; try set_solver. apply endpoint_text_ok.
Qed.

Lemma accept_row_idle record inst : StoredRow.contribution (StoredRow.of_row (accept_row record inst)) = None.
Proof. unfold accept_row. by destruct (price_columns _) as [[? ?] ?]. Qed.

Lemma insert_accept_Ok db record inst :
  priced_ok record →
  insert_accept db record inst =
    Ok (match usage_records db !! RequestRecord.request_id record with
        | Some _ => db
        | None => mkLedger (<[RequestRecord.request_id record := accept_row record inst]> (usage_records db)) (usage_hourly db)
        end).
Proof.
  intros Hp. unfold insert_accept, checked_row. rewrite accept_row_check by done.
  by destruct (usage_records db !! _).
Qed.

Lemma idle_insert_consistent records h i r :
  consistent records h → records !! i = None → row_ok r →
  StoredRow.contribution (StoredRow.of_row r) = None → consistent (<[i := r]> records) h.
Proof.
  intros (Hok & Hf & Ha) Hi Hr Hidle.
  assert (∀ k c, total (<[i := r]> records) k c = total records k c) as Et.
  { intros k c. rewrite total_insert by done. unfold amount. by rewrite Hidle. }
  split_and!; [by apply map_Forall_insert_2 | intros k c; by rewrite Et | by eapply agree_same_totals].
Qed.

Lemma accept_row_ok record inst : row_ok (accept_row record inst).
Proof. intros c. unfold accept_row. destruct (price_columns _) as [[? ?] ?]. by destruct c. Qed.

(** An accept writes an in-flight row carrying the prices in force and
    leaves the rollup alone; a duplicate accept changes nothing at all, and in
    particular cannot reopen a finished request or reprice it. *)
Theorem insert_accept_spec (db : Ledger) (record : RequestRecord.t) (instance_id : option string)
    (Hdb : ledger_consistent db) (Hprice : priced_ok record) :
  ∃ db', insert_accept db record instance_id = Ok db' ∧ ledger_consistent db'
    ∧ usage_hourly db' = usage_hourly db
    ∧ (is_Some (usage_records db !! RequestRecord.request_id record) → db' = db)
    ∧ (usage_records db !! RequestRecord.request_id record = None →
         usage_records db' !! RequestRecord.request_id record = Some (accept_row record instance_id)).
Proof.
  rewrite insert_accept_Ok by done. eexists. split; [done |].
  destruct (usage_records db !! _) as [r|] eqn:Ei; [by split_and!; eauto |].
  cbn [usage_records usage_hourly]. split_and!; [| done | by intros [? [=]] | by rewrite lookup_insert_eq].
  apply idle_insert_consistent; [done | done | apply accept_row_ok | apply accept_row_idle].
Qed.

(** A price recorded with a request is never lost: a finalize keeps each
    stored price unless it carries one itself, and a finalize that carries no
    price leaves all three exactly as the accept wrote them. *)
Theorem finalize_keeps_prices (db db' : Ledger) (record : RequestRecord.t) (instance_id : option string) (r : Row.t)
    (Hr : usage_records db !! RequestRecord.request_id record = Some r)
    (Hfin : finalize_record db record instance_id = Ok db') :
  ∃ r', usage_records db' !! RequestRecord.request_id record = Some r'
    ∧ (is_Some (Row.input_price_snapshot r) → is_Some (Row.input_price_snapshot r'))
    ∧ (is_Some (Row.cached_input_price_snapshot r) → is_Some (Row.cached_input_price_snapshot r'))
    ∧ (is_Some (Row.output_price_snapshot r) → is_Some (Row.output_price_snapshot r'))
    ∧ (RequestRecord.pricing record = None →
         Row.input_price_snapshot r' = Row.input_price_snapshot r
         ∧ Row.cached_input_price_snapshot r' = Row.cached_input_price_snapshot r
         ∧ Row.output_price_snapshot r' = Row.output_price_snapshot r).
Proof.
  apply finalize_record_Ok in Hfin as (b & _ & _ & Er & _). unfold final_row in Er. rewrite Hr in Er.
  exists (updated_row record b r). rewrite Er, lookup_insert_eq. split; [done |].
  unfold updated_row, price_columns. destruct (RequestRecord.pricing record) as [s|]; [| by cbn].
  destruct (PricingSnapshot.as_tuple s) as [[? ?] ?]. cbn. by split_and!.
Qed.

(** *** Collapsing accepts *)

(** The accept and the finalize of one request are copies of one record. *)
Definition same_request (a f : RequestRecord.t) : Prop :=
  RequestRecord.created_at a = RequestRecord.created_at f
  ∧ RequestRecord.consumer_id a = RequestRecord.consumer_id f
  ∧ RequestRecord.model a = RequestRecord.model f
  ∧ RequestRecord.endpoint a = RequestRecord.endpoint f
  ∧ RequestRecord.pricing a = RequestRecord.pricing f.

Definition is_accept (p : PendingWrite.t) (r : RequestRecord.t) : Prop :=
  PendingWrite.op p = WriteOp.Accept ∧ PendingWrite.record p = Some r.
Definition is_finalize (p : PendingWrite.t) (r : RequestRecord.t) : Prop :=
  PendingWrite.op p = WriteOp.Finalize ∧ PendingWrite.record p = Some r.

Definition coherent (writes : list PendingWrite.t) : Prop :=
  (∀ p a, p ∈ writes → is_accept p a → priced_ok a)
  ∧ ∀ p q a f, p ∈ writes → q ∈ writes → is_accept p a → is_finalize q f →
      RequestRecord.request_id a = RequestRecord.request_id f → same_request a f.

Lemma finalized_ids_spec batch id :
  id ∈ finalized_ids batch ↔ ∃ p r, p ∈ batch ∧ is_finalize p r ∧ RequestRecord.request_id r = id.
Proof.
  unfold finalized_ids, is_finalize. rewrite elem_of_list_to_set, list_elem_of_fmap. split.
  - intros (r & -> & (p & Hp & E)%list_elem_of_omap). apply list_elem_of_filter in Hp as [? ?]. eauto 10.
  - intros (p & r & Hp & [Ho E] & <-). exists r. split; [done |]. apply list_elem_of_omap.
    exists p. split; [by apply list_elem_of_filter | done].
Qed.

(** The row written straight from the finalize is the accepted row, updated. *)
Lemma updated_accept_row a f b inst :
  same_request a f → updated_row f b (accept_row a inst) = inserted_row f b inst.
Proof.
  intros (E1 & E2 & E3 & E4 & E5). unfold updated_row, inserted_row, accept_row. rewrite E1, E2, E3, E4, E5.
  by destruct (price_columns _) as [[[?|] [?|]] [?|]].
Qed.

(** The database with collapsed accepts ([c]) against the one without ([u]),
    while [suffix] is still to be written. *)
Record collapsed (writes suffix : list PendingWrite.t) (inst : option string) (c u : Ledger) : Prop := {
  col_hourly : usage_hourly c = usage_hourly u;
  col_some id x : usage_records c !! id = Some x → usage_records u !! id = Some x;
  col_none id : usage_records c !! id = None →
    usage_records u !! id = None ∨
    ∃ p a, p ∈ writes ∧ is_accept p a ∧ RequestRecord.request_id a = id
      ∧ usage_records u !! id = Some (accept_row a inst);
  col_pending id : id ∈ finalized_ids writes → usage_records c !! id = None → id ∈ finalized_ids suffix;
  col_idle id : id ∉ finalized_ids writes → usage_records c !! id = usage_records u !! id }.

Definition same_outcome (rc ru : result (Ledger * Z) SqlError) : Prop :=
  match rc, ru with
  | Ok (c, _), Ok (u, _) => c = u
  | Err e, Err e' => e = e'
  | _, _ => False
  end.

Lemma collapsed_end writes inst c u : collapsed writes [] inst c u → c = u.
Proof.
  intros Hs. destruct c as [rc hc], u as [ru hu]. pose proof (col_hourly _ _ _ _ _ Hs) as Eh. cbn in Eh. subst.
  f_equal. apply map_eq. intros id.
  destruct (decide (id ∈ finalized_ids writes)) as [Hin|Hni].
  - destruct (rc !! id) as [x|] eqn:E; [symmetry; exact (col_some _ _ _ _ _ Hs id x E) |].
    pose proof (col_pending _ _ _ _ _ Hs id Hin E) as Hp. by apply finalized_ids_spec in Hp as (? & ? & ?%elem_of_nil & _).
  - apply (col_idle _ _ _ _ _ Hs id Hni).
Qed.

Lemma collapsed_skip writes p suffix inst c u :
  (∀ r, ¬ is_finalize p r) → collapsed writes (p :: suffix) inst c u → collapsed writes suffix inst c u.
Proof.
  intros Hp [K1 K2 K3 K4 K5]. split; try done. intros id Hin Hn.
  specialize (K4 id Hin Hn).
  apply finalized_ids_spec in K4 as (q & r & [->|Hq]%elem_of_cons & Hf & Hid); [by destruct (Hp r) |].
  apply finalized_ids_spec. eauto.
Qed.

(** A finalize does the same to both. *)
Lemma collapsed_finalize writes p f suffix inst c u :
  coherent writes → p ∈ writes → is_finalize p f → collapsed writes (p :: suffix) inst c u →
  match finalize_record c f inst, finalize_record u f inst with
  | Ok c', Ok u' => collapsed writes suffix inst c' u'
  | Err e, Err e' => e = e'
  | _, _ => False
  end.
Proof.
  intros [_ Hcoh] Hp Hf Hs. set (i := RequestRecord.request_id f).
  assert (∀ b, final_row (usage_records c) f b inst = final_row (usage_records u) f b inst) as Erow.
  { intros b. unfold final_row. fold i. destruct (usage_records c !! i) as [x|] eqn:E.
    { by rewrite (col_some _ _ _ _ _ Hs i x E). }
    destruct (col_none _ _ _ _ _ Hs i E) as [->|(q & a & Hq & Ha & Hi & ->)]; [done |].
    symmetry. apply updated_accept_row. by apply (Hcoh q p a f). }
  assert (∀ h, match usage_records c !! i with
    | Some r => match StoredRow.contribution (StoredRow.of_row r) with Some ct => Contribution.retract ct h | None => h end
    | None => h end
    = match usage_records u !! i with
    | Some r => match StoredRow.contribution (StoredRow.of_row r) with Some ct => Contribution.retract ct h | None => h end
    | None => h end) as Eret.
  { intros h. destruct (usage_records c !! i) as [x|] eqn:E; [by rewrite (col_some _ _ _ _ _ Hs i x E) |].
    destruct (col_none _ _ _ _ _ Hs i E) as [->|(q & a & Hq & Ha & Hi & ->)]; [done |]. by rewrite accept_row_idle. }
  assert (∀ c', finalize_record c f inst = Ok c' → ∃ u', finalize_record u f inst = Ok u' ∧ collapsed writes suffix inst c' u') as Hok.
  { intros c' (b & Hb & Hc & Er & Eh)%finalize_record_Ok. rewrite Erow in Hc, Er. fold i in Er, Eh.
    exists (mkLedger (<[i := final_row (usage_records u) f b inst]> (usage_records u)) (usage_hourly c')). split.
    { apply finalize_record_Ok. exists b. cbn. by rewrite Eh, Eret, (col_hourly _ _ _ _ _ Hs). }
    destruct Hs as [K1 K2 K3 K4 K5]. split; cbn [usage_records usage_hourly]; rewrite ?Er; [done | | | |]; intros id.
    - intros x. destruct (decide (i = id)) as [<-|]; [by rewrite !lookup_insert_eq | rewrite !lookup_insert_ne by done; auto].
    - destruct (decide (i = id)) as [<-|]; [by rewrite lookup_insert_eq | rewrite !lookup_insert_ne by done; auto].
    - intros Hin. destruct (decide (i = id)) as [<-|Hne]; [by rewrite lookup_insert_eq | rewrite lookup_insert_ne by done].
      intros Hn. specialize (K4 id Hin Hn). apply finalized_ids_spec in K4 as (q & r & [->|Hq]%elem_of_cons & [Hfo Hfr] & Hid).
      + destruct Hf as [_ Hf]. rewrite Hf in Hfr. by injection Hfr as <-.
      + apply finalized_ids_spec. exists q, r. by repeat split.
    - intros Hni. destruct (decide (i = id)) as [<-|]; [by rewrite !lookup_insert_eq | rewrite !lookup_insert_ne by done; auto]. }
  assert (∀ e, finalize_record c f inst = Err e → finalize_record u f inst = Err e) as Herr.
  { unfold finalize_record, StoredRow.load. fold i. intros e. destruct (bind_record f) as [b|]; [| done].
    specialize (Erow b). unfold final_row in Erow. fold i in Erow.
    destruct (usage_records c !! i), (usage_records u !! i); cbn [fmap option_fmap option_map];
      try rewrite Erow; unfold checked_row; by destruct (Row.check _). }
  destruct (finalize_record c f inst) as [c'|e].
  - by destruct (Hok c' eq_refl) as (u' & -> & ?).
  - by rewrite (Herr e eq_refl).
Qed.

Lemma write_all_collapse writes inst suffix c u n m :
  coherent writes → suffix ⊆ writes → collapsed writes suffix inst c u →
  same_outcome (write_all (finalized_ids writes) inst suffix c n) (write_all ∅ inst suffix u m).
Proof.
  intros Hcoh. revert c u n m. induction suffix as [|p suffix IH]; intros c u n m Hsub Hs.
  { cbn. by apply (collapsed_end writes inst). }
  assert (p ∈ writes) as Hp by set_solver. assert (suffix ⊆ writes) as Hsub' by set_solver.
  cbn [write_all]. unfold write_one.
  destruct (PendingWrite.record p) as [r|] eqn:Er.
  2:{ apply IH; [done |]. eapply collapsed_skip; [| done]. intros r [_ E]. congruence. }
  destruct (PendingWrite.op p) eqn:Eo.
  - assert (is_accept p r) as Ha by done.
    assert (∀ r', ¬ is_finalize p r') as Hnf by (intros r' [E _]; congruence).
    apply (collapsed_skip _ _ _ _ _ _ Hnf) in Hs. pose proof (proj1 Hcoh p r Hp Ha) as Hpr.
    rewrite (decide_False (P := _ ∈ ∅)) by set_solver. rewrite !insert_accept_Ok by done.
    set (i := RequestRecord.request_id r) in *. destruct Hs as [K1 K2 K3 K4 K5].
    destruct (decide (i ∈ finalized_ids writes)) as [Hin|Hni].
    + apply IH; [done |]. destruct (usage_records u !! i) as [x|] eqn:Eu; [by split |].
      split; cbn [usage_records usage_hourly]; try done; intros id.
      * intros x Ex. rewrite lookup_insert_ne; [auto |]. intros <-. rewrite (K2 i x Ex) in Eu. done.
      * intros Hn. destruct (decide (i = id)) as [<-|]; [| rewrite lookup_insert_ne by done; auto].
        right. exists p, r. by rewrite lookup_insert_eq.
      * intros Hni. rewrite lookup_insert_ne; [auto |]. by intros <-.
    + rewrite (K5 i Hni).
      destruct (usage_records u !! i) as [x|] eqn:Eu; [apply IH; [done | by split] |].
      apply IH; [done |]. split; cbn [usage_records usage_hourly]; try done; intros id.
      * intros x. rewrite !lookup_insert_Some. intros [[<- <-]|[? ?]]; [by left | right; auto].
      * intros [Hn ?]%lookup_insert_None. rewrite lookup_insert_ne by done. auto.
      * intros Hin [? ?]%lookup_insert_None. auto.
      * intros Hni'. destruct (decide (i = id)) as [<-|]; [by rewrite !lookup_insert_eq | rewrite !lookup_insert_ne by done; auto].
  - pose proof (collapsed_finalize writes p r suffix inst c u Hcoh Hp ltac:(done) Hs) as Hfin.
    destruct (finalize_record c r inst) as [c'|e], (finalize_record u r inst) as [u'|e']; try done.
    by apply IH.
  - apply IH; [done |]. eapply collapsed_skip; [| done]. intros r' [E _]. congruence.
Qed.

(** Collapsing an accept into the finalize of the same batch is a pure
    optimisation: when each accept and its finalize are copies of one record,
    the transaction of the collapsed batch leaves exactly the tables the
    batch written operation by operation leaves, or fails with the same error. *)
Theorem collapse_equiv (db : Ledger) (batch : list PendingWrite.t) (instance_id : option string)
    (Hcoh : coherent batch) :
  same_outcome (try_flush (mkAttempt None None) db batch instance_id) (write_all ∅ instance_id batch db 0).
Proof.
  unfold try_flush. cbn [begin_error commit_error unless].
  pose proof (write_all_collapse batch instance_id batch db db 0 0 Hcoh ltac:(done)) as Hs.
  destruct (write_all (finalized_ids batch) instance_id batch db 0) as [[c n]|e]; apply Hs; split; eauto;
    intros id Hn; by left.
Qed.
End Batches.

(** ** Flushing with retries *)
Section Flush.
Context `{TimeCrate, Rusqlite}.

(** [k] is the attempt that settled a flush: every earlier one was busy. *)
Definition settled (attempts : nat → Attempt) (db : Ledger) (batch : list PendingWrite.t)
    (inst : option string) (k : nat) : Prop :=
  ∀ j, (j < k)%nat → try_flush (attempts j) db batch inst = Err Busy.

Lemma flush_attempts_spec attempts left k db batch committed inst :
  settled attempts db batch inst k →
  ∃ k', (k ≤ k' ≤ k + left)%nat ∧ settled attempts db batch inst k' ∧
    ((∃ db' n, try_flush (attempts k') db batch inst = Ok (db', n)
       ∧ flush_attempts attempts left k db batch committed inst
           = mkFlushed db' (committed + n) (drain_acks batch (Ok ())) true)
     ∨ ∃ e, try_flush (attempts k') db batch inst = Err e ∧ (e ≠ Busy ∨ k' = k + left)%nat
       ∧ flush_attempts attempts left k db batch committed inst
           = mkFlushed db committed (drain_acks batch (Err (Sqlite e))) false).
Proof.
  revert k. induction left as [|left IH]; intros k Hk; cbn [flush_attempts];
    destruct (try_flush (attempts k) db batch inst) as [[db' n]|e] eqn:E.
  1, 3: exists k; split_and!; [lia | lia | done | left; eauto].
  - exists k. split_and!; [lia | lia | done | right]. exists e. split_and!; [done | right; lia |]. by destruct (is_busy e).
  - destruct (decide (e = Busy)) as [->|Hne].
    + cbn [is_busy]. destruct (IH (S k)) as (k' & Hk' & Hs & Hor).
      { intros j Hj. destruct (decide (j = k)) as [->|]; [done | apply Hk; lia]. }
      exists k'. split_and!; [lia | lia | done |]. destruct Hor as [Hor|(e & ? & [?|?] & ?)]; [by left | |];
        right; exists e; split_and!; try done; [by left | right; lia].
    + exists k. split_and!; [lia | lia | done | right]. exists e. split_and!; [done | by left |].
      by destruct e.
Qed.

(** A flush is all or nothing and always ends: within seven attempts
    either the whole batch is committed by one transaction and every waiter is
    told so, or nothing of it is, every waiter gets the error that the last
    attempt really returned and the writer reports itself unhealthy; only a
    busy database is ever retried. *)
Theorem flush_with_retry_spec (attempts : nat → Attempt) (db : Ledger) (batch : list PendingWrite.t)
    (committed : Z) (instance_id : option string) (Hne : batch ≠ []) :
  let r := flush_with_retry attempts db batch committed instance_id in
  ∃ k, (k ≤ 6)%nat ∧ settled attempts db batch instance_id k ∧
    ((∃ db' n, try_flush (attempts k) db batch instance_id = Ok (db', n)
       ∧ r = mkFlushed db' (committed + n) (drain_acks batch (Ok ())) true)
     ∨ ∃ e, try_flush (attempts k) db batch instance_id = Err e ∧ (e ≠ Busy ∨ k = 6%nat)
       ∧ r = mkFlushed db committed (drain_acks batch (Err (Sqlite e))) false).
Proof.
  intros r. subst r. unfold flush_with_retry. destruct batch as [|p batch]; [done |].
  destruct (flush_attempts_spec attempts BUSY_RETRIES 0 db (p :: batch) committed instance_id) as (k & Hk & Hs & Hor).
  { intros j Hj. lia. }
  exists k. unfold BUSY_RETRIES in *. split_and!; [lia | done | exact Hor].
Qed.

Lemma write_all_Err finalized inst batch db n p :
  p ∈ batch → (∀ db', ∃ e, write_one finalized inst p db' = Err e) →
  ∃ e, write_all finalized inst batch db n = Err e.
Proof.
  revert db n. induction batch as [|q batch IH]; intros db n; [by intros ?%elem_of_nil |].
  intros [<-|Hp]%elem_of_cons Hw; cbn [write_all].
  - destruct (Hw db) as [e ->]. by exists e.
  - destruct (write_one finalized inst q db) as [[db' k]|e]; [by apply IH | by exists e].
Qed.

(** A count SQLite cannot hold. *)
Definition oversized (record : RequestRecord.t) : Prop :=
  ∃ z, i64_max < z ∧
    (Usage.input_tokens (RequestRecord.usage record) = Some z
     ∨ Usage.output_tokens (RequestRecord.usage record) = Some z
     ∨ Usage.cached_tokens (RequestRecord.usage record) = Some z
     ∨ RequestRecord.ttft_ms record = Some z).

Lemma bind_opt_u64_oversized `{!RusqliteLaws} z : i64_max < z → ∃ e, bind_opt_u64 (Some z) = Err e.
Proof.
  intros Hz. unfold bind_opt_u64, bind_u64. destruct (u64_to_sql z) as [v|] eqn:E; [| by eexists].
  apply u64_to_sql_value in E as [_ ?]. lia.
Qed.

Lemma finalize_oversized `{!RusqliteLaws} db record inst :
  oversized record → ∃ e, finalize_record db record inst = Err e.
Proof.
  intros (z & Hz & Hor). unfold finalize_record.
  assert (∃ e, bind_record record = Err e) as [e ->]; [| by eexists].
  destruct (bind_opt_u64_oversized z Hz) as [e He]. unfold bind_record.
  destruct Hor as [-> | [-> | [-> | ->]]]; rewrite He;
    repeat match goal with |- context [let? _ := ?c in _] => destruct c end; by eexists.
Qed.

(** One finalize whose reported token count exceeds [i64::MAX] sinks its
    whole batch: whatever else the batch holds and however often it is retried,
    nothing is committed, every waiter is refused and the writer turns
    unhealthy. *)
Theorem oversized_usage_fails_batch `{!RusqliteLaws} (attempts : nat → Attempt) (db : Ledger)
    (batch : list PendingWrite.t) (committed : Z) (instance_id : option string)
    (p : PendingWrite.t) (record : RequestRecord.t)
    (Hp : p ∈ batch) (Hop : PendingWrite.op p = WriteOp.Finalize)
    (Hrec : PendingWrite.record p = Some record) (Hover : oversized record) :
  let r := flush_with_retry attempts db batch committed instance_id in
  fl_ledger r = db ∧ fl_committed r = committed ∧ fl_healthy r = false
  ∧ Forall (λ a, ∃ e, a.2 = Err (Sqlite e)) (fl_acks r) ∧ (fl_acks r).*1 = batch.
Proof.
  intros r. subst r. unfold flush_with_retry. destruct batch as [|q batch]; [by apply elem_of_nil in Hp |].
  destruct (flush_attempts_spec attempts BUSY_RETRIES 0 db (q :: batch) committed instance_id) as (k & _ & _ & Hor).
  { intros j Hj. lia. }
  destruct Hor as [(db' & n & Hok & _)|(e & _ & _ & ->)].
  - exfalso. unfold try_flush in Hok. destruct (unless (begin_error _)); [| done].
    destruct (write_all_Err (finalized_ids (q :: batch)) instance_id (q :: batch) db 0 p Hp) as [e He].
    { intros d. unfold write_one. rewrite Hrec, Hop.
      destruct (finalize_oversized d record instance_id Hover) as [e ->]. by eexists. }
    by rewrite He in Hok.
  - cbn [fl_ledger fl_committed fl_healthy fl_acks]. split_and!; try done.
    + unfold drain_acks. apply Forall_fmap, Forall_forall. intros; cbn; by eexists.
    + unfold drain_acks. rewrite <- list_fmap_compose. by apply list_fmap_id.
Qed.
End Flush.

(** ** At concrete requests *)
Definition prices_1 : PricingSnapshot.t :=
  PricingSnapshot.new (PricePerMillion.new 95000) (PricePerMillion.new 47500) (PricePerMillion.new 475000).
Definition request_1 : RequestRecord.t :=
  RequestRecord.with_pricing
    (RequestRecord.new t1 "req-1" "acme" "gpt-4o" Endpoint.ChatCompletions true) prices_1.
Definition finished_1 : RequestRecord.t :=
  RequestRecord.complete (RequestRecord.set_ttft request_1 120) 200 (Usage.new (Some 100) (Some 20) (Some 0)) 350.
Definition ledger_0 : Ledger := mkLedger ∅ ∅.
Definition bound_1 : Bound := mkBound (Some 100) (Some 20) (Some 0) (Some 120).
Definition row_1 : Row.t := inserted_row finished_1 bound_1 (Some "i-1"%string).
Definition ledger_1 : Ledger :=
  mkLedger (<["req-1"%string := row_1]> ∅)
    (Contribution.add (Contribution.terminal finished_1 (BucketKey.from_record finished_1)) ∅).

Lemma finished_1_ok : record_ok finished_1.
Proof.
  split; [reflexivity |]. split; [exact ledger_instant_t1 |].
  cbn. split_and!; try (intros z [= <-]); ranges; lia.
Qed.

Lemma ledger_0_consistent : ledger_consistent ledger_0.
Proof. apply consistent_empty. Qed.

Lemma finalize_ledger_0 : finalize_record ledger_0 finished_1 (Some "i-1"%string) = Ok ledger_1.
Proof.
  apply finalize_record_Ok. exists bound_1. unfold final_row. cbn [usage_records usage_hourly ledger_0 ledger_1].
  rewrite lookup_empty. by split_and!.
Qed.

Lemma ledger_0_request : of_request ledger_0 finished_1.
Proof. intros r. cbn. by rewrite lookup_empty. Qed.

Lemma row_1_ok : row_ok row_1 ∧ ∀ c, metric (StoredRow.metrics (StoredRow.of_row row_1)) c ≤ i64_max.
Proof. split; intros []; vm_compute; congruence. Qed.

Lemma ledger_1_fits : fits (usage_records ledger_1).
Proof. apply fits_singleton; apply row_1_ok. Qed.

Lemma finalize_keeps_agreement_witness :
  finalize_record ledger_0 finished_1 (Some "i-1"%string) = Ok ledger_1 ∧ ledger_consistent ledger_1.
Proof.
  split; [exact finalize_ledger_0 |].
  exact (proj1 (finalize_keeps_agreement ledger_0 ledger_1 finished_1 (Some "i-1"%string)
    ledger_0_consistent finished_1_ok ledger_0_request finalize_ledger_0 ledger_1_fits)).
Defined.

Lemma finalize_idempotent_witness :
  finalize_record ledger_0 finished_1 (Some "i-1"%string) = Ok ledger_1
  ∧ finalize_record ledger_1 finished_1 (Some "i-1"%string) = Ok ledger_1.
Proof.
  split; [exact finalize_ledger_0 |].
  exact (finalize_idempotent ledger_0 ledger_1 finished_1 (Some "i-1"%string)
    ledger_0_consistent finished_1_ok ledger_0_request finalize_ledger_0 ledger_1_fits).
Defined.

Lemma request_1_priced : priced_ok request_1.
Proof. intros s [= <-]. cbn. ranges. lia. Qed.

Lemma insert_accept_spec_witness :
  ledger_consistent ledger_0 ∧ priced_ok request_1
  ∧ ∃ db', insert_accept ledger_0 request_1 None = Ok db'
      ∧ usage_records db' !! "req-1"%string = Some (accept_row request_1 None).
Proof.
  split; [exact ledger_0_consistent |]. split; [exact request_1_priced |].
  destruct (insert_accept_spec ledger_0 request_1 None ledger_0_consistent request_1_priced)
    as (db' & E & _ & _ & _ & Hn).
  exists db'. split; [exact E | apply Hn; apply lookup_empty].
Defined.

(** The same request finished again, by a record without prices. *)
Definition unpriced_1 : RequestRecord.t :=
  RequestRecord.fail (RequestRecord.new t1 "req-1" "acme" "gpt-4o" Endpoint.ChatCompletions true)
    (Some 502) "upstream closed" 400.

Lemma finalize_ledger_1_unpriced : ∃ db', finalize_record ledger_1 unpriced_1 None = Ok db'.
Proof.
  set (b := mkBound None None None None).
  assert (final_row (usage_records ledger_1) unpriced_1 b None = updated_row unpriced_1 b row_1) as E.
  { unfold final_row. change (RequestRecord.request_id unpriced_1) with "req-1"%string.
    unfold ledger_1. cbn [usage_records]. by rewrite lookup_insert_eq. }
  eexists (mkLedger _ _). apply finalize_record_Ok. exists b. rewrite E.
  split; [reflexivity |]. split; [reflexivity |]. split; cbn [usage_records usage_hourly]; reflexivity.
Qed.

Lemma finalize_keeps_prices_witness :
  usage_records ledger_1 !! "req-1"%string = Some row_1 ∧
  ∃ db' r', finalize_record ledger_1 unpriced_1 None = Ok db'
    ∧ usage_records db' !! "req-1"%string = Some r' ∧ Row.output_price_snapshot r' = Some 475000.
Proof.
  assert (usage_records ledger_1 !! "req-1"%string = Some row_1) as Hr by apply lookup_insert_eq.
  split; [exact Hr |]. destruct finalize_ledger_1_unpriced as [db' E].
  destruct (finalize_keeps_prices ledger_1 db' unpriced_1 None row_1 Hr E) as (r' & Hr' & _ & _ & _ & Hk).
  exists db', r'. split; [exact E |]. split; [exact Hr' |].
  rewrite (proj2 (proj2 (Hk eq_refl))). reflexivity.
Defined.

Definition accept_1 : PendingWrite.t := PendingWrite.mk WriteOp.Accept (Some request_1) 0.
Definition finalize_1 : PendingWrite.t := PendingWrite.mk WriteOp.Finalize (Some finished_1) 1.
Definition batch_1 : list PendingWrite.t := [accept_1; finalize_1].

Lemma batch_1_coherent : coherent batch_1.
Proof.
  split.
  - intros p a Hp [Ho Hr]. repeat (apply elem_of_cons in Hp as [->|Hp]; [| ]); [| done | by apply elem_of_nil in Hp].
    injection Hr as <-. exact request_1_priced.
  - intros p q a f Hp Hq [Ho Hr] [Ho' Hr'] _.
    repeat (apply elem_of_cons in Hp as [->|Hp]; [| ]); [| done | by apply elem_of_nil in Hp].
    repeat (apply elem_of_cons in Hq as [->|Hq]; [| ]); [done | | by apply elem_of_nil in Hq].
    injection Hr as <-. injection Hr' as <-. done.
Qed.

Lemma collapse_equiv_witness :
  coherent batch_1 ∧ same_outcome (try_flush (mkAttempt None None) ledger_0 batch_1 None)
                                  (write_all ∅ None batch_1 ledger_0 0).
Proof. split; [exact batch_1_coherent |]. exact (collapse_equiv ledger_0 batch_1 None batch_1_coherent). Defined.

(** A database busy at the first two attempts. *)
Definition busy_twice (k : nat) : Attempt := mkAttempt (if (k <? 2)%nat then Some Busy else None) None.

Lemma flush_with_retry_spec_witness :
  batch_1 ≠ [] ∧ ∃ k, (k ≤ 6)%nat ∧ settled busy_twice ledger_0 batch_1 None k.
Proof.
  assert (batch_1 ≠ []) as Hne by discriminate. split; [exact Hne |].
  destruct (flush_with_retry_spec busy_twice ledger_0 batch_1 0 None Hne) as (k & Hk & Hs & _).
  exists k. split; [exact Hk | exact Hs].
Defined.

(** A finish whose upstream reported 2^63 prompt tokens. *)
Definition finalize_2 : PendingWrite.t :=
  PendingWrite.mk WriteOp.Finalize
    (Some (RequestRecord.complete request_1 200 (Usage.new (Some (2 ^ 63)) (Some 20) None) 350)) 2.

Lemma oversized_usage_fails_batch_witness :
  fl_healthy (flush_with_retry busy_twice ledger_0 [accept_1; finalize_2] 0 None) = false.
Proof.
  refine (proj1 (proj2 (proj2 (oversized_usage_fails_batch busy_twice ledger_0 [accept_1; finalize_2] 0 None
    finalize_2 _ _ eq_refl eq_refl _)))).
  - apply elem_of_cons. right. apply elem_of_cons. left. reflexivity.
  - exists (2 ^ 63). split; [reflexivity |]. left. reflexivity.
Defined.
