(* ===== verification/WriterTask.v ===== *)
(** * The writer task and its handle ([src/src/ledger/writer.rs])

    Producers put writes into a bounded channel through clones of one sender;
    the task takes them in batches, flushes and acknowledges. [step] is the
    interleaving of producers, shutdown and task; the refinement theorem says
    the task implements the plain sequential log of the acknowledged writes. *)

From stdpp Require Import base strings list gmap numbers.
From Stdlib Require Import ZArith Lia.
From S2P Require Import Prelude TimeLib Calendar Timefmt Pricing LedgerTypes Sql Rollup Writer.

(** Sizes are [usize]; none of them is added to another without bound. *)
Module LedgerWriterConfig.
Record t : Type := mk {
  queue_size : nat; batch_size : nat; batch_timeout_ms : Z; instance_id : option string }.

(** [Default]. *)
Definition default_config : t := mk (100 * 100) 100 10 None.
End LedgerWriterConfig.

Section Task.
Context `{TimeCrate, Rusqlite}.

Record Task : Type := mkTask {
  ledger : Ledger;
  channel : list PendingWrite.t;
  batch : list PendingWrite.t;
  acks : list (PendingWrite.t * result unit WriteError);
  committed : Z;
  healthy : bool;
  commits_are_healthy : bool;
  ready : bool;
  closed : bool;
  exited : bool;
  (* the handle *)
  shutting_down : bool;
  tx : bool;
  clones : nat }.

(** [LedgerWriter::new]. *)
Definition new_task (db : Ledger) : Task :=
  mkTask db [] [] [] 0 true true true false false false true 0.

(** The channel closes when the handle's sender and every clone are gone. *)
Definition sender_open (t : Task) : bool := tx t || (0 <? clones t)%nat.

Definition sender (t : Task) : result unit WriteError :=
  if shutting_down t then Err Shutdown else if tx t then Ok () else Err Shutdown.

Definition capacity (config : LedgerWriterConfig.t) : nat := Nat.max (LedgerWriterConfig.queue_size config) 1.
Definition batch_limit (config : LedgerWriterConfig.t) : nat := Nat.max (LedgerWriterConfig.batch_size config) 1.

(** [is_ready] of the handle. *)
Definition is_ready (t : Task) : bool := negb (shutting_down t) && healthy t && ready t.

Definition queue_depth (t : Task) : nat := if tx t then length (channel t) else 0.

Definition with_channel (t : Task) (ch : list PendingWrite.t) (c : nat) : Task :=
  mkTask (ledger t) ch (batch t) (acks t) (committed t) (healthy t) (commits_are_healthy t)
    (ready t) (closed t) (exited t) (shutting_down t) (tx t) c.

Definition with_handle (t : Task) (down tx' : bool) : Task :=
  mkTask (ledger t) (channel t) (batch t) (acks t) (committed t) (healthy t) (commits_are_healthy t)
    (ready t) (closed t) (exited t) down tx' (clones t).

Definition mark_unhealthy (t : Task) : Task :=
  mkTask (ledger t) (channel t) (batch t) (acks t) (committed t) false (commits_are_healthy t)
    (ready t) (closed t) (exited t) (shutting_down t) (tx t) (clones t).

(** [try_send] on a clone that is dropped at once. *)
Definition try_finalize (config : LedgerWriterConfig.t) (t : Task) (p : PendingWrite.t) : result Task WriteError :=
  let? _ := sender t in
  if exited t then Err Shutdown
  else if (length (channel t) <? capacity config)%nat then Ok (with_channel t (channel t ++ [p]) (clones t))
  else Err QueueFull.

(** What the environment decides in one iteration: whether the batch timeout
    has elapsed at the check, and what happens to each commit. *)
Record Tick : Type := mkTick {
  timed_out : bool; attempts : nat → Attempt; leftover_attempts : nat → Attempt }.

(** The biased [select!]: a receive when the batch has room, else the sleep. *)
Definition receive (limit : nat) (t : Task) : list PendingWrite.t * list PendingWrite.t * bool :=
  if (length (batch t) <? limit)%nat then
    match channel t with
    | p :: ch => (ch, batch t ++ [p], closed t)
    | [] => ([], batch t, if sender_open t then closed t else true)
    end
  else (channel t, batch t, closed t).

(** [while batch.len() < batch_size { try_recv }], when the channel is closed. *)
Definition drain_closed (limit : nat) (ch b : list PendingWrite.t) (closed : bool)
    : list PendingWrite.t * list PendingWrite.t :=
  if closed then (drop (limit - length b) ch, b ++ take (limit - length b) ch) else (ch, b).

(** One turn of the loop is one step: what producers send while it flushes
    counts as sent just after it. *)
Definition iterate (config : LedgerWriterConfig.t) (tick : Tick) (t : Task) : Task :=
  let limit := batch_limit config in
  let instance_id := LedgerWriterConfig.instance_id config in
  let '(ch, b, closed') := receive limit t in
  let '(ch, b) := drain_closed limit ch b closed' in
  let due := negb (bool_decide (b = []))
             && (closed' || (limit <=? length b)%nat || timed_out tick) in
  let f := if due then flush_with_retry (attempts tick) (ledger t) b (committed t) instance_id
           else mkFlushed (ledger t) (committed t) [] (commits_are_healthy t) in
  let b := if due then [] else b in
  let healthy' := if due && negb (fl_healthy f) then false else healthy t in
  let depth := (length ch + length b)%nat in
  let is_ready := fl_healthy f && (depth * 2 <? capacity config)%nat in
  if closed' && bool_decide (b = []) then
    let g := flush_with_retry (leftover_attempts tick) (fl_ledger f) ch (fl_committed f) instance_id in
    mkTask (fl_ledger g) [] [] (acks t ++ fl_acks f ++ fl_acks g) (fl_committed g) healthy'
      (fl_healthy f) false closed' true (shutting_down t) (tx t) (clones t)
  else
    mkTask (fl_ledger f) ch b (acks t ++ fl_acks f) (fl_committed f) healthy'
      (fl_healthy f) is_ready closed' (exited t) (shutting_down t) (tx t) (clones t).

(** [enqueue] takes a clone of the sender and sends when the channel has room,
    which ends with the drop of the clone; a producer that waits for room may be
    cancelled, and drops it unused. *)
Inductive step (config : LedgerWriterConfig.t) : list PendingWrite.t → Task → list PendingWrite.t → Task → Prop :=
  | step_clone sent t :
      sender t = Ok () → step config sent t sent (with_channel t (channel t) (S (clones t)))
  | step_send sent t p n :
      clones t = S n → (length (channel t) < capacity config)%nat → exited t = false →
      step config sent t (sent ++ [p]) (with_channel t (channel t ++ [p]) n)
  (* a waiting producer is cancelled *)
  | step_drop_clone sent t n :
      clones t = S n → step config sent t sent (with_channel t (channel t) n)
  | step_try_send sent t p t' :
      try_finalize config t p = Ok t' → step config sent t (sent ++ [p]) t'
  | step_iterate sent t tick :
      exited t = false → step config sent t sent (iterate config tick t)
  | step_unhealthy sent t : step config sent t sent (mark_unhealthy t)
  | step_shutdown sent t : step config sent t sent (with_handle t true (tx t))
  | step_take sent t : shutting_down t = true → step config sent t sent (with_handle t true false).

Inductive reachable (config : LedgerWriterConfig.t) (db : Ledger) : list PendingWrite.t → Task → Prop :=
  | reach_new : reachable config db [] (new_task db)
  | reach_step sent t sent' t' :
      reachable config db sent t → step config sent t sent' t' → reachable config db sent' t'.

(** ** The sequential log *)

(** The tables after writing [writes] one by one, nothing collapsed. *)
Definition replay (inst : option string) (db : Ledger) (writes : list PendingWrite.t) : option Ledger :=
  match write_all ∅ inst writes db 0 with Ok (db', _) => Some db' | Err _ => None end.

(** The writes whose waiter was told they are durable. *)
Definition acknowledged (acks : list (PendingWrite.t * result unit WriteError)) : list PendingWrite.t :=
  (filter (λ a, is_ok a.2 = true) acks).*1.
End Task.

(** ** Invariant *)
Section Invariant.
Context `{TimeCrate, !TimeLaws, RusqliteLaws}.
Variable config : LedgerWriterConfig.t.
Variable db : Ledger.

Let inst := LedgerWriterConfig.instance_id config.

Lemma write_all_written F l d n m :
  match write_all F inst l d n, write_all F inst l d m with
  | Ok (a, _), Ok (b, _) => a = b | Err e, Err e' => e = e' | _, _ => False end.
Proof.
  revert d n m. induction l as [|p l IH]; intros d n m; cbn [write_all]; [done |].
  destruct (write_one F inst p d) as [[d' k]|]; [apply IH | done].
Qed.

Lemma replay_app d l1 l2 :
  replay inst d (l1 ++ l2) = match replay inst d l1 with Some d' => replay inst d' l2 | None => None end.
Proof.
  unfold replay. generalize 0%Z at 1 2 as n. revert d. induction l1 as [|p l1 IH]; intros d n; cbn [app write_all].
  - pose proof (write_all_written ∅ l2 d n 0%Z) as E.
    destruct (write_all ∅ inst l2 d n) as [[? ?]|], (write_all ∅ inst l2 d 0) as [[? ?]|]; naive_solver.
  - destruct (write_one ∅ inst p d) as [[d' k]|]; [apply IH | done].
Qed.

Lemma coherent_subset l l' : coherent l → l' ⊆ l → coherent l'.
Proof. intros [H1' H2'] Hs. split; [intros p a Hp; apply (H1' p a); set_solver | intros p q a f Hp Hq; apply (H2' p q a f); set_solver]. Qed.

Lemma flush_replay a d b d' n :
  coherent b → try_flush a d b inst = Ok (d', n) → replay inst d b = Some d'.
Proof.
  intros Hb. unfold try_flush, replay. destruct (unless (begin_error a)); [| done].
  pose proof (write_all_collapse b inst b d d 0 0 Hb ltac:(done)) as Hc.
  destruct (write_all (finalized_ids b) inst b d 0) as [[c k]|]; [| done].
  destruct (unless (commit_error a)); [| done]. intros [= <- <-].
  assert (same_outcome (Ok (c, k)) (write_all ∅ inst b d 0)) as E.
  { apply Hc. split; eauto; intros id Hn; by left. }
  destruct (write_all ∅ inst b d 0) as [[u m]|]; cbn in E; [by subst | done].
Qed.

Lemma acknowledged_app a b : acknowledged (a ++ b) = acknowledged a ++ acknowledged b.
Proof. unfold acknowledged. by rewrite list.filter_app, fmap_app. Qed.

Lemma acknowledged_drain_Ok b : acknowledged (drain_acks b (Ok ())) = b.
Proof. unfold acknowledged, drain_acks. induction b as [|p b IH]; [done |]. rewrite fmap_cons, filter_cons_True by done. cbn. by rewrite IH. Qed.

Lemma acknowledged_drain_Err b e : acknowledged (drain_acks b (Err e)) = [].
Proof. unfold acknowledged, drain_acks. induction b as [|p b IH]; [done |]. by rewrite fmap_cons, filter_cons_False. Qed.

Lemma drain_acks_fst b r : (drain_acks b r).*1 = b.
Proof. unfold drain_acks. rewrite <- list_fmap_compose. by apply list_fmap_id. Qed.

(** What one flush does, in terms of the log. *)
Lemma flush_log attempts d b c :
  let f := flush_with_retry attempts d b c inst in
  (fl_acks f).*1 = b
  ∧ (fl_healthy f = true → Forall (λ a, is_ok a.2 = true) (fl_acks f))
  ∧ (coherent b → replay inst d (acknowledged (fl_acks f)) = Some (fl_ledger f)).
Proof.
  intros f. subst f. unfold flush_with_retry. destruct b as [|p b]; [by repeat split |].
  destruct (flush_attempts_spec attempts BUSY_RETRIES 0 d (p :: b) c inst) as (k & _ & _ & Hor).
  { intros j Hj. lia. }
  destruct Hor as [(d' & n & Hok & ->)|(e & _ & _ & ->)]; cbn [fl_acks fl_healthy fl_ledger];
    rewrite drain_acks_fst; split_and!; try done.
  - intros _. unfold drain_acks. by apply Forall_fmap, Forall_forall.
  - intros Hb. rewrite acknowledged_drain_Ok. by eapply flush_replay.
  - intros _. by rewrite acknowledged_drain_Err.
Qed.

Record task_inv (sent : list PendingWrite.t) (t : Task) : Prop := {
  inv_fifo : sent = (acks t).*1 ++ batch t ++ channel t;
  inv_channel : (length (channel t) ≤ capacity config)%nat;
  inv_batch : (length (batch t) < batch_limit config)%nat;
  inv_closed : closed t = true → exited t = true;
  inv_exited : exited t = true → batch t = [] ∧ channel t = [] ∧ sender_open t = false;
  inv_healthy : healthy t = true → Forall (λ a, is_ok a.2 = true) (acks t);
  inv_log : coherent sent → replay inst db (acknowledged (acks t)) = Some (ledger t) }.

Lemma new_task_inv : task_inv [] (new_task db).
Proof. split; cbn; try done; unfold batch_limit; lia. Qed.

(** The batch an iteration holds when it decides whether to flush. *)
Lemma received sent t :
  exited t = false → task_inv sent t →
  let '(ch, b, closed') := receive (batch_limit config) t in
  drain_closed (batch_limit config) ch b closed' = (ch, b)
  ∧ b ++ ch = batch t ++ channel t ∧ (length b ≤ batch_limit config)%nat
  ∧ (length ch ≤ length (channel t))%nat
  ∧ (closed' = true → ch = [] ∧ sender_open t = false)
  ∧ (sender_open t = false → channel t = [] → closed' = true)
  ∧ (channel t ≠ [] → closed' = false ∧ S (length ch) = length (channel t)).
Proof.
  intros Hex [_ _ Hb Hcl _ _ _]. unfold receive. apply Nat.ltb_lt in Hb as Hlt. rewrite Hlt.
  assert (closed t = false) as Ecl by (destruct (closed t); [rewrite Hcl in Hex by done; done | done]).
  rewrite Ecl. destruct (channel t) as [|p ch].
  - split_and!; try done; [| lia | by destruct (sender_open t) | by intros ->].
    destruct (sender_open t); [done |]. cbn. by rewrite drop_nil, take_nil, app_nil_r.
  - split_and!; try done; [by rewrite <- app_assoc | rewrite length_app; cbn; lia | cbn; lia].
Qed.

Lemma iterate_inv sent t tick :
  exited t = false → task_inv sent t → task_inv sent (iterate config tick t).
Proof.
  intros Hex Hinv. pose proof (received sent t Hex Hinv) as Hrec. unfold iterate. fold inst.
  destruct (receive (batch_limit config) t) as [[ch b] closed'].
  destruct Hrec as (-> & Eapp & Hlen & Hch & Hclosed & _). destruct Hinv as [Hf Hc Hb Hcl _ Hh Hl].
  rewrite <- Eapp in Hf.
  set (due := negb (bool_decide (b = [])) && (closed' || (batch_limit config <=? length b)%nat || timed_out tick)).
  pose proof (flush_log (attempts tick) (ledger t) b (committed t)) as (F1 & F2 & F3). fold inst in F1, F2, F3.
  set (f := flush_with_retry (attempts tick) (ledger t) b (committed t) inst) in *.
  assert (coherent sent → coherent b) as Hcb.
  { intros Hs. eapply coherent_subset; [exact Hs |]. rewrite Hf. set_solver. }
  assert (healthy t = true → fl_healthy f = true →
    Forall (λ a, is_ok a.2 = true) (acks t ++ fl_acks f)) as Hall by (intros; apply Forall_app_2; auto).
  assert (coherent sent → replay inst db (acknowledged (acks t ++ fl_acks f)) = Some (fl_ledger f)) as Hlog.
  { intros Hs. rewrite acknowledged_app, replay_app, Hl by done. auto. }
  assert (batch_limit config ≠ 0%nat) as Hlim by (unfold batch_limit; lia).
  destruct due eqn:Edue.
  - rewrite (bool_decide_eq_true_2 ([] = [])) by done. destruct closed' eqn:Ecl'; cbn [andb].
    + destruct (Hclosed eq_refl) as [-> Hso]. cbn [flush_with_retry fl_ledger fl_acks fl_committed negb].
      split; cbn; rewrite ?app_nil_r; try done; [| lia | lia |].
      * by rewrite Hf, fmap_app, F1, !app_nil_r.
      * destruct (fl_healthy f) eqn:Ef; cbn; [auto | done].
    + split; cbn; try done; [by rewrite Hf, fmap_app, F1, <- app_assoc | lia | lia | by rewrite Hex |].
      destruct (fl_healthy f) eqn:Ef; cbn; [auto | done].
  - cbn [fl_ledger fl_acks fl_committed fl_healthy andb]. destruct (bool_decide_reflect (b = [])) as [->|Hne].
    + destruct closed' eqn:Ecl'; cbn [andb].
      * destruct (Hclosed eq_refl) as [-> Hso]. cbn [flush_with_retry fl_ledger fl_acks fl_committed].
        split; cbn; rewrite ?app_nil_r; try done; try lia. by rewrite Hf, !app_nil_r.
      * split; cbn; rewrite ?app_nil_r; try done; try lia; by rewrite ?Hf, ?Hex.
    + rewrite andb_false_r. cbn in Edue. apply orb_false_iff in Edue as [[Ecl' El]%orb_false_iff _].
      rewrite Ecl'. apply Nat.leb_gt in El.
      split; cbn; rewrite ?app_nil_r; try done; try lia; by rewrite Hex.
Qed.

Lemma step_inv sent t sent' t' :
  task_inv sent t → step config sent t sent' t' → task_inv sent' t'.
Proof.
  intros Hinv Hs. destruct Hs as [sent t Hs | sent t p n Hn Hroom Hex | sent t n Hn | sent t p t' Hs | sent t tick Hex
    | sent t | sent t | sent t Hd].
  - destruct Hinv as [Hf Hc Hb Hcl He Hh Hl]. split; cbn; try done. intros E. destruct (He E) as (_ & _ & Hso).
    unfold sender in Hs. unfold sender_open in Hso. destruct (shutting_down t), (tx t); done.
  - destruct Hinv as [Hf Hc Hb Hcl He Hh Hl]. split; cbn; try done.
    + by rewrite Hf, <- !app_assoc.
    + rewrite length_app. cbn. lia.
    + by rewrite Hex.
    + intros Hs. apply Hl. eapply coherent_subset; [exact Hs | set_solver].
  - destruct Hinv as [Hf Hc Hb Hcl He Hh Hl]. split; cbn; try done. intros E. destruct (He E) as (_ & _ & Hso).
    unfold sender_open in Hso. rewrite Hn in Hso. by apply orb_false_iff in Hso as [_ ?].
  - unfold try_finalize in Hs. destruct (sender t) as [u|]; [| done]. destruct (exited t) eqn:Hex; [done |].
    destruct (Nat.ltb_spec (length (channel t)) (capacity config)) as [Hroom|]; [| done]. injection Hs as <-.
    destruct Hinv as [Hf Hc Hb Hcl He Hh Hl]. split; cbn; try done.
    + by rewrite Hf, <- !app_assoc.
    + rewrite length_app. cbn. lia.
    + by rewrite Hex.
    + intros Hs. apply Hl. eapply coherent_subset; [exact Hs | set_solver].
  - by apply iterate_inv.
  - destruct Hinv as [Hf Hc Hb Hcl He Hh Hl]. by split.
  - destruct Hinv as [Hf Hc Hb Hcl He Hh Hl]. by split.
  - destruct Hinv as [Hf Hc Hb Hcl He Hh Hl]. split; cbn; try done. intros E.
    destruct (He E) as (? & ? & Hso). split_and!; [done | done |].
    unfold sender_open in *. cbn. apply orb_false_iff in Hso as [_ ?]. done.
Qed.

Lemma reachable_inv sent t : reachable config db sent t → task_inv sent t.
Proof. induction 1; [apply new_task_inv | by eapply step_inv]. Qed.

(** The task loop, until it breaks. *)
Fixpoint run (ticks : list Tick) (t : Task) : Task :=
  match ticks with
  | [] => t
  | tick :: ticks' => if exited t then t else run ticks' (iterate config tick t)
  end.

Lemma iterate_sender_open tick t : sender_open (iterate config tick t) = sender_open t.
Proof.
  unfold iterate. destruct (receive _ t) as [[ch b] c]. destruct (drain_closed _ ch b c) as [ch' b'].
  by destruct (_ && _).
Qed.

Lemma iterate_closed sent t tick :
  exited t = false → task_inv sent t → sender_open t = false →
  (channel t = [] → exited (iterate config tick t) = true)
  ∧ (channel t ≠ [] → exited (iterate config tick t) = false
      ∧ S (length (channel (iterate config tick t))) = length (channel t)).
Proof.
  intros Hex Hinv Hso. pose proof (received sent t Hex Hinv) as Hrec. unfold iterate.
  destruct (receive (batch_limit config) t) as [[ch b] closed'].
  destruct Hrec as (-> & _ & _ & _ & _ & Hnil & Hcons). split.
  - intros E. rewrite (Hnil Hso E). cbn. destruct (bool_decide_reflect (b = [])) as [->|Hne]; by cbn.
  - intros E. destruct (Hcons E) as [-> El]. cbn. split; [exact Hex | exact El].
Qed.

Lemma run_inv ticks sent t : task_inv sent t → task_inv sent (run ticks t).
Proof.
  revert t. induction ticks as [|tick ticks IH]; intros t Hi; cbn; [done |].
  destruct (exited t) eqn:E; [done |]. by apply IH, iterate_inv.
Qed.

Lemma run_exits ticks sent t :
  task_inv sent t → sender_open t = false → (length (channel t) < length ticks)%nat →
  exited (run ticks t) = true.
Proof.
  revert t. induction ticks as [|tick ticks IH]; intros t Hi Hso Hl; cbn in *; [lia |].
  destruct (exited t) eqn:Hex; [done |].
  destruct (iterate_closed sent t tick Hex Hi Hso) as [Hn Hc].
  destruct (decide (channel t = [])) as [E|E].
  - specialize (Hn E). destruct ticks; cbn; [done | by rewrite Hn].
  - destruct (Hc E) as [_ El]. apply IH; [by apply iterate_inv | by rewrite iterate_sender_open | lia].
Qed.

(** C1. Under every interleaving of producers, shutdown and task, the task
    implements a sequential log. Writes are taken in the order they were
    queued: acknowledged first, then batched, then waiting, none lost and none
    twice. The tables are exactly what writing the positively acknowledged
    operations one by one produces, so an acknowledged write is durable and a
    refused one left no trace. The queue and the batch stay within their
    bounds, and a healthy writer has refused nothing. *)
Theorem writer_refines_log (sent : list PendingWrite.t) (t : Task)
    (Hreach : reachable config db sent t) (Hcoh : coherent sent) :
  sent = (acks t).*1 ++ batch t ++ channel t
  ∧ replay inst db (acknowledged (acks t)) = Some (ledger t)
  ∧ (length (channel t) ≤ capacity config)%nat ∧ (length (batch t) < batch_limit config)%nat
  ∧ (healthy t = true → acknowledged (acks t) = (acks t).*1).
Proof.
  destruct (reachable_inv sent t Hreach) as [Hf Hc Hb _ _ Hh Hl].
  split_and!; [done | by apply Hl | done | done |]. intros Hok. specialize (Hh Hok). unfold acknowledged.
  f_equal. clear -Hh. induction Hh as [|a l Ha Hl IH]; [done |]. rewrite filter_cons_True by done. by rewrite IH.
Qed.

(** Shutdown drains: once every producer handle is gone the task exits
    after at most one iteration per queued write and one more, and by then
    every write that was ever queued has been acknowledged, in order. *)
Theorem shutdown_drains (sent : list PendingWrite.t) (t : Task) (ticks : list Tick)
    (Hreach : reachable config db sent t) (Hclosed : sender_open t = false)
    (Hticks : length ticks = S (length (channel t))) :
  exited (run ticks t) = true ∧ (acks (run ticks t)).*1 = sent
  ∧ batch (run ticks t) = [] ∧ channel (run ticks t) = [].
Proof.
  pose proof (reachable_inv sent t Hreach) as Hi.
  assert (exited (run ticks t) = true) as He by (eapply run_exits; [done | done | lia]).
  destruct (run_inv ticks sent t Hi) as [Hf _ _ _ Hx _ _]. destruct (Hx He) as (Eb & Ec & _).
  split_and!; [done | | done | done]. by rewrite Hf, Eb, Ec, !app_nil_r.
Qed.
End Invariant.

(** ** Two queued writes, then shutdown *)
Definition task_queued : Task :=
  mkTask ledger_0 batch_1 [] [] 0 true true true false false true false 0.

Lemma task_queued_reachable : reachable LedgerWriterConfig.default_config ledger_0 batch_1 task_queued.
Proof.
  pose (cfg := LedgerWriterConfig.default_config). fold cfg.
  pose (t1 := with_channel (new_task ledger_0) [] 1).
  pose (t2 := with_channel t1 [accept_1] 0).
  pose (t3 := with_channel t2 [accept_1] 1).
  pose (t4 := with_channel t3 batch_1 0).
  pose (t5 := with_handle t4 true true).
  assert (reachable cfg ledger_0 [] t1) as H1.
  { eapply reach_step; [apply reach_new | by apply (step_clone cfg [] (new_task ledger_0))]. }
  assert (reachable cfg ledger_0 [accept_1] t2) as H2.
  { eapply reach_step; [exact H1 | apply (step_send cfg [] t1 accept_1 0); [done | cbn; lia | done]]. }
  assert (reachable cfg ledger_0 [accept_1] t3) as H3.
  { eapply reach_step; [exact H2 | by apply (step_clone cfg [accept_1] t2)]. }
  assert (reachable cfg ledger_0 batch_1 t4) as H4.
  { eapply reach_step; [exact H3 | apply (step_send cfg [accept_1] t3 finalize_1 0); [done | cbn; lia | done]]. }
  assert (reachable cfg ledger_0 batch_1 t5) as H5.
  { eapply reach_step; [exact H4 | apply (step_shutdown cfg batch_1 t4)]. }
  eapply reach_step; [exact H5 | by apply (step_take cfg batch_1 t5)].
Qed.

Definition tick_1 : Tick := mkTick false busy_twice busy_twice.

Lemma writer_refines_log_witness :
  coherent batch_1 ∧ (length (channel task_queued) ≤ capacity LedgerWriterConfig.default_config)%nat
  ∧ replay None ledger_0 (acknowledged (acks task_queued)) = Some (ledger task_queued).
Proof.
  split; [exact batch_1_coherent |].
  destruct (writer_refines_log LedgerWriterConfig.default_config ledger_0 batch_1 task_queued
              task_queued_reachable batch_1_coherent) as (_ & Hl & Hc & _).
  split; [exact Hc | exact Hl].
Defined.

Lemma shutdown_drains_witness :
  sender_open task_queued = false
  ∧ (acks (run LedgerWriterConfig.default_config [tick_1; tick_1; tick_1] task_queued)).*1 = batch_1.
Proof.
  split; [reflexivity |].
  destruct (shutdown_drains LedgerWriterConfig.default_config ledger_0 batch_1 task_queued
              [tick_1; tick_1; tick_1] task_queued_reachable eq_refl eq_refl) as (_ & E & _).
  exact E.
Defined.

(** [flush_now] queues a barrier and waits for its answer. It says that the
    batch with the barrier was committed, not that everything queued before it
    is durable: an earlier batch may have failed for good. *)
Definition flush_now (ack : nat) : PendingWrite.t := PendingWrite.mk WriteOp.Barrier None ack.

Definition disk_fails : Tick := mkTick true (λ _, mkAttempt None (Some OtherFailure)) (λ _, mkAttempt None (Some OtherFailure)).
Definition disk_works : Tick := mkTick true (λ _, mkAttempt None None) (λ _, mkAttempt None None).

Example barrier_after_a_failed_batch :
  let t := with_channel (new_task ledger_0) [finalize_1; flush_now 9] 0 in
  acks (run (LedgerWriterConfig.mk 8 1 10 None) [disk_fails; disk_works] t)
  = [(finalize_1, Err (Sqlite OtherFailure)); (flush_now 9, Ok ())].
Proof. reflexivity. Qed.
