(* ===== verification/Proxy.v ===== *)
(** * A proxied request, end to end ([src/src/proxy/handler.rs], [proxy_handler] of [src/src/main.rs])

    [handle_proxy] as a function of what its environment answers, returning what
    it did to the ledger and the upstream, in order, and the client's response. *)

From stdpp Require Import base strings list gmap numbers sorting.
From Stdlib Require Import Ascii ZArith Lia.
From S2P Require Import Prelude Utf8 Redaction Http TimeLib Calendar Timefmt Pricing Status Partner Context LedgerTypes Sql Rollup Json ProxyUsage SseScan StreamMeter Writer.

Local Open Scope Z_scope.

Definition MAX_BUFFERED_RESPONSE : Z := 32 * 1024 * 1024.

Section Proxy.
Context `{TimeCrate, SerdeDocs, Memchr, Http}.

(** ** Responses *)

(** The error object of a response the proxy words itself. *)
Record ErrorDoc : Type := mkErrorDoc {
  message : string;
  type_ : string;
  code : option string }.

Inductive ResponseBody : Type :=
  | ErrorBody (doc : ErrorDoc)
  | Bytes (data : list ascii)
  | Stream (body : StreamBody)
  | Empty.

Record Response : Type := mkResponse {
  status : Z;
  headers : HeaderMap;
  body : ResponseBody }.

(** [builder.body(..)], with what to answer when the builder refuses. *)
Definition build (status : Z) (headers : HeaderMap) (body : ResponseBody) (otherwise : Response) : Response :=
  if is_ok (builds headers) then mkResponse status headers body else otherwise.

(** [Response::new(AxumBody::empty())]. *)
Definition empty_response : Response := mkResponse 200 header_new Empty.

Definition error_headers (request_id : string) : HeaderMap :=
  header_append (header_append header_new "content-type" "application/json") "x-request-id" request_id.

Definition error_response (request_id : string) (status : Z) (message error_type : string) : Response :=
  build status (error_headers request_id) (ErrorBody (mkErrorDoc message error_type None)) empty_response.

Definition billing_suspended_error (request_id message : string) : Response :=
  build 403 (header_append (error_headers request_id) "cache-control" "no-store")
    (ErrorBody (mkErrorDoc message "permission_error" (Some "billing_suspended"%string))) empty_response.

Definition model_not_allowed_error (request_id model : string) : Response :=
  build 404 (error_headers request_id)
    (ErrorBody (mkErrorDoc ("The model '" +:+ model +:+ "' does not exist")%string "invalid_request_error"
                  (Some "model_not_found"%string))) empty_response.

(** The upstream's response under the client's request id. *)
Definition forwarded_headers (headers : HeaderMap) (request_id : string) : HeaderMap :=
  header_append (ProxyClient.forward_response_headers header_new headers) "x-request-id" request_id.

Definition forward_upstream_error (status : Z) (headers : HeaderMap) (data : list ascii) (request_id : string) : Response :=
  match data with
  | [] => error_response request_id status "Upstream error" "upstream_error"
  | _ => build status (forwarded_headers headers request_id) (Bytes data)
           (error_response request_id status "Upstream error" "upstream_error")
  end.

(** ** Bodies *)

Inductive BodyFate : Type := Complete | CapExceeded | BodyBroken (e : string).

(** The frames of a body as they arrive, and whether the upstream then stops
    sending without ending it. *)
Inductive UpstreamFrame : Type := FrameData (data : list ascii) | FrameTrailers | FrameError (e : string).
Record Incoming : Type := mkIncoming { frames : list UpstreamFrame; stalls : bool }.

(** [collect_capped]; [None] when it waits for ever. *)
Fixpoint collect_from (acc : list ascii) (l : list UpstreamFrame) (stalls : bool) : option (list ascii * BodyFate) :=
  match l with
  | [] => if stalls then None else Some (acc, Complete)
  | FrameTrailers :: l' => collect_from acc l' stalls
  | FrameError e :: _ => Some (acc, BodyBroken e)
  | FrameData data :: l' =>
      if MAX_BUFFERED_RESPONSE <? Z.of_nat (length acc) + Z.of_nat (length data) then
        let room := MAX_BUFFERED_RESPONSE - Z.of_nat (length acc) in
        Some (acc ++ take (Z.to_nat room) data, CapExceeded)
      else collect_from (acc ++ data) l' stalls
  end.
Definition collect_capped (body : Incoming) : option (list ascii * BodyFate) :=
  collect_from [] (frames body) (stalls body).

Definition extract_usage (data : list ascii) (endpoint : Endpoint.t) : Usage.t :=
  match from_slice data with
  | None => Usage.default_usage
  | Some value =>
      match endpoint with
      | Endpoint.ChatCompletions => extract_chat_completions_usage value
      | Endpoint.Responses => extract_responses_usage value
      | Endpoint.Models => Usage.default_usage
      end
  end.

Definition upstream_error_message (data : list ascii) : option string :=
  from_slice data ≫= λ value, value_get value "error" ≫= λ e, value_get e "message" ≫= as_str.

(** Whether an entry of a model list names an allowed model. *)
Definition entry_allowed (allowed : list string) (entry : Value) : bool :=
  match value_get entry "id" ≫= as_str with
  | Some id => existsb (λ m, String.eqb m id) allowed
  | None => false
  end.

Definition filter_models_response (data : list ascii) (allowed : list string) : list ascii :=
  match from_slice data with
  | None => data
  | Some json =>
      match value_get json "data" ≫= as_array with
      | None => data
      | Some entries =>
          let filtered := filter (λ entry, entry_allowed allowed entry = true) entries in
          default data (to_vec (set_array json "data" filtered))
      end
  end.

(** ** The environment of one request *)

(** What sending the request and waiting for the response's head comes to. *)
Inductive Reply : Type :=
  | TimedOut
  | SendError (e : string)
  | Answered (status : Z) (headers : HeaderMap) (body : Incoming).

Record Env : Type := mkEnv {
  request_id : string;
  now : OffsetDateTime;
  upstream : UpstreamConfig.t;
  client : ProxyClient.t;
  credentials : list string;
  accept_result : result unit WriteError;
  reply : Reply;
  elapsed : Z;
  finalize_result : result unit WriteError }.

(** What a request does to the world, with what the ledger answered. *)
Inductive Effect : Type :=
  | Accept (record : RequestRecord.t) (r : result unit WriteError)
  | Send (request : ProxyClient.Request)
  | Finalize (record : RequestRecord.t) (r : result unit WriteError)
  | MarkUnhealthy.

(** [tokio::time::timeout(.., state.client.proxy(..))]: a request that cannot be
    built is never sent. *)
Definition send (env : Env) (method path : string) (data : list ascii) (headers : HeaderMap) : list Effect * Reply :=
  match ProxyClient.request_for (client env) (Some (upstream env)) method path data headers with
  | Err e => ([], SendError e)
  | Ok request => ([Send request], reply env)
  end.

(** [state.ledger.finalize(record)] and what follows its failure. *)
Definition finalize (env : Env) (record : RequestRecord.t) : list Effect :=
  Finalize record (finalize_result env) :: if is_ok (finalize_result env) then [] else [MarkUnhealthy].

(** [spawn_detached_finalize] of the ledger writer: the write in a task of its
    own, and [report_detached_result]. *)
Definition spawn_detached_finalize (env : Env) (record : RequestRecord.t) : list Effect :=
  Finalize record (finalize_result env) :: if is_ok (finalize_result env) then [] else [MarkUnhealthy].

Record Failed : Type := mkFailed {
  http_status : option Z;
  reason : string;
  usage : Usage.t;
  error_body : option string }.

Definition set_error_body (r : RequestRecord.t) (b : option string) : RequestRecord.t :=
  RequestRecord.mk (RequestRecord.request_id r) (RequestRecord.created_at r) (RequestRecord.consumer_id r)
    (RequestRecord.model r) (RequestRecord.endpoint r) (RequestRecord.streaming r) (RequestRecord.http_status r)
    (RequestRecord.request_status r) (RequestRecord.usage r) (RequestRecord.ttft_ms r) (RequestRecord.duration_ms r)
    (RequestRecord.error_message r) b (RequestRecord.pricing r).

Definition set_streaming (r : RequestRecord.t) (b : bool) : RequestRecord.t :=
  RequestRecord.mk (RequestRecord.request_id r) (RequestRecord.created_at r) (RequestRecord.consumer_id r)
    (RequestRecord.model r) (RequestRecord.endpoint r) b (RequestRecord.http_status r)
    (RequestRecord.request_status r) (RequestRecord.usage r) (RequestRecord.ttft_ms r) (RequestRecord.duration_ms r)
    (RequestRecord.error_message r) (RequestRecord.error_body r) (RequestRecord.pricing r).

Definition failed_record (env : Env) (record : RequestRecord.t) (outcome : Failed) : RequestRecord.t :=
  let record := RequestRecord.fail record (http_status outcome) (reason outcome) (as_u64_ms (elapsed env)) in
  let record := RequestRecord.set_usage record (usage outcome) in
  set_streaming (set_error_body record (error_body outcome)) false.

Definition finalize_and_respond (env : Env) (record : RequestRecord.t) (outcome : Failed) (response : Response)
    : list Effect * option Response :=
  (finalize env (failed_record env record outcome), Some response).

Definition scrub (env : Env) (reason : string) : string := sanitize_reason reason (credentials env).

Definition header_timeout (env : Env) : Z := Z.max 1 (UpstreamConfig.timeout_secs (upstream env)).

(** Whether the upstream answers an event stream. *)
Definition is_event_stream (headers : HeaderMap) : bool :=
  match header_get headers "content-type" ≫= to_str with
  | Some v => contains "text/event-stream" (lowercase v)
  | None => false
  end.

(** The generator of a response that could not be built is dropped unpolled:
    its meter's guard hands the record over. *)
Definition stream_response (env : Env) (record : RequestRecord.t) (endpoint : Endpoint.t) (http_status : Z)
    (upstream_headers : HeaderMap) : list Effect * option Response :=
  let meter := StreamMeter.new (set_streaming record true) endpoint http_status (credentials env) in
  let headers := forwarded_headers upstream_headers (request_id env) in
  if is_ok (builds headers) then ([], Some (mkResponse http_status headers (Stream (new_body meter))))
  else
    (mjoin (spawn_detached_finalize env <$>
              handed (body_step (header_timeout env) (new_body meter) (Drop (elapsed env)))),
     Some (error_response (request_id env) 500 "Failed to build streaming response" "proxy_error")).

Definition proxy_unmetered (env : Env) (consumer : ConsumerContext.t) (method path : string)
    (headers : HeaderMap) (data : list ascii) : list Effect * option Response :=
  let '(sent, reply) := send env method path data headers in
  match reply with
  | TimedOut => (sent, Some (error_response (request_id env) 504 "Upstream timeout" "upstream_timeout"))
  | SendError e =>
      (sent, Some (error_response (request_id env) 502 ("Upstream connection failed: " +:+ e)%string "upstream_error"))
  | Answered status upstream_headers body =>
      match collect_capped body with
      | None => (sent, None)
      | Some (bytes, Complete) =>
          let data := filter_models_response bytes (ConsumerContext.allowed_models consumer) in
          (sent, Some (build status (forwarded_headers upstream_headers (request_id env)) (Bytes data)
                         (error_response (request_id env) 500 "Failed to build response" "proxy_error")))
      | Some (_, _) =>
          (sent, Some (error_response (request_id env) 502 "Upstream response could not be read in full" "upstream_error"))
      end
  end.

(** The reason recorded for an error status. *)
Definition upstream_failure_reason (status : Z) (bytes : list ascii) (fate : BodyFate) : string :=
  match fate with
  | Complete => default ("upstream returned " +:+ Http.status_display status)%string (upstream_error_message bytes)
  | CapExceeded =>
      ("upstream returned " +:+ Http.status_display status +:+ " with an error body above "
       +:+ dec_string MAX_BUFFERED_RESPONSE +:+ " bytes")%string
  | BodyBroken e =>
      ("upstream returned " +:+ Http.status_display status +:+ " and its error body broke mid-read: " +:+ e)%string
  end.

(** The reason recorded for a response that did not arrive whole; [None] for
    one that did. *)
Definition partial_reason (fate : BodyFate) : option string :=
  match fate with
  | Complete => None
  | CapExceeded =>
      Some ("upstream response exceeded the " +:+ dec_string MAX_BUFFERED_RESPONSE +:+ "-byte buffering cap")%string
  | BodyBroken e => Some ("upstream response body broke mid-read: " +:+ e)%string
  end.

Definition completed_record (env : Env) (record : RequestRecord.t) (status : Z) (usage : Usage.t) : RequestRecord.t :=
  RequestRecord.complete (set_streaming record false) status usage (as_u64_ms (elapsed env)).

(** What follows the durable accept and the call of the upstream. *)
Definition respond (env : Env) (record : RequestRecord.t) (endpoint : Endpoint.t) (wants_stream : bool) (reply : Reply)
    : list Effect * option Response :=
  match reply with
  | TimedOut =>
      let reason := scrub env ("upstream did not respond within " +:+ dec_string (header_timeout env) +:+ "s")%string in
      finalize_and_respond env record (mkFailed (Some 504) reason Usage.default_usage None)
        (error_response (request_id env) 504 "Upstream timeout" "upstream_timeout")
  | SendError e =>
      let reason := scrub env ("upstream connection failed: " +:+ e)%string in
      finalize_and_respond env record (mkFailed (Some 502) reason Usage.default_usage None)
        (error_response (request_id env) 502 "Upstream connection failed" "upstream_error")
  | Answered status upstream_headers body =>
      if negb (is_success status) then
        match collect_capped body with
        | None => ([], None)
        | Some (bytes, fate) =>
            let usage := extract_usage bytes endpoint in
            let reason := scrub env (upstream_failure_reason status bytes fate) in
            let response := forward_upstream_error status upstream_headers bytes (request_id env) in
            finalize_and_respond env record (mkFailed (Some status) reason usage (Some (bounded_error_body bytes))) response
        end
      else if wants_stream || is_event_stream upstream_headers then
        stream_response env record endpoint status upstream_headers
      else
        match collect_capped body with
        | None => ([], None)
        | Some (bytes, fate) =>
            match partial_reason fate with
            | Some reason =>
                finalize_and_respond env record (mkFailed (Some 502) reason Usage.default_usage None)
                  (error_response (request_id env) 502 "Upstream response could not be read in full" "upstream_error")
            | None =>
                let usage := extract_usage bytes endpoint in
                (finalize env (completed_record env record status usage),
                 Some (build status (forwarded_headers upstream_headers (request_id env)) (Bytes bytes)
                         (error_response (request_id env) 500 "Failed to build response" "proxy_error")))
            end
        end
  end.

(** The request's JSON, and the model it names. *)
Definition request_value (data : list ascii) : option Value :=
  match data with [] => None | _ => from_slice data end.

Definition requested_model (endpoint : Endpoint.t) (value : option Value) : string :=
  match value with
  | Some v =>
      match endpoint with
      | Endpoint.ChatCompletions => extract_model_from_request v
      | Endpoint.Responses => extract_responses_model v
      | Endpoint.Models => "unknown"
      end
  | None => "unknown"
  end.

Definition wants_stream (value : option Value) : bool :=
  default false (value ≫= λ v, value_get v "stream" ≫= as_bool).

Definition accepted_record (env : Env) (consumer : ConsumerContext.t) (model : string) (endpoint : Endpoint.t)
    (streaming : bool) (prices : PricingSnapshot.t) : RequestRecord.t :=
  RequestRecord.with_pricing
    (RequestRecord.new (now env) (request_id env) (ConsumerContext.consumer_id consumer) model endpoint streaming) prices.

Definition handle_proxy (env : Env) (consumer : ConsumerContext.t) (method path : string) (headers : HeaderMap)
    (data : list ascii) : list Effect * option Response :=
  match Endpoint.from_path path with
  | None => ([], Some (error_response (request_id env) 404 "Not Found" "invalid_request_error"))
  | Some endpoint =>
      match suspension_message (ConsumerContext.service_status consumer) with
      | Some message => ([], Some (billing_suspended_error (request_id env) message))
      | None =>
          if bool_decide (endpoint = Endpoint.Models) then proxy_unmetered env consumer method path headers data
          else
            let value := request_value data in
            let model := requested_model endpoint value in
            match ConsumerContext.pricing_for consumer model with
            | None => ([], Some (model_not_allowed_error (request_id env) model))
            | Some prices =>
                let record := accepted_record env consumer model endpoint (wants_stream value) prices in
                match accept_result env with
                | Err e =>
                    ([Accept record (Err e); MarkUnhealthy],
                     Some (error_response (request_id env) 503 "Metering unavailable; request not forwarded" "metering_error"))
                | Ok _ =>
                    let '(sent, reply) := send env method path data headers in
                    let '(effects, response) := respond env record endpoint (wants_stream value) reply in
                    (Accept record (Ok ()) :: sent ++ effects, response)
                end
            end
      end
  end.

(** [proxy_handler] of the router: [path] is the path and query, [data] the
    body when it could be read within the limit. *)
Definition proxy_handler (env : Env) (consumer : ConsumerContext.t) (method path : string) (headers : HeaderMap)
    (data : option (list ascii)) : list Effect * option Response :=
  if ConsumerContext.is_manager consumer then
    ([], Some (error_response (request_id env) 403
       "The manager credential is a dashboard credential and cannot be used to proxy requests" "invalid_request_error"))
  else
    match data with
    | None => ([], Some (error_response (request_id env) 413 "Request body could not be read" "invalid_request_error"))
    | Some data => handle_proxy env consumer method path headers data
    end.
End Proxy.

(** ** Bodies that are read whole *)
Section Collecting.

Definition frame_data (f : UpstreamFrame) : list ascii := match f with FrameData d => d | _ => [] end.
Definition is_frame_error (f : UpstreamFrame) : bool := match f with FrameError _ => true | _ => false end.

Lemma collect_from_bounded acc l s d fate :
  collect_from acc l s = Some (d, fate) → Z.of_nat (length acc) ≤ MAX_BUFFERED_RESPONSE →
  Z.of_nat (length d) ≤ MAX_BUFFERED_RESPONSE.
Proof.
  revert acc. induction l as [|[data| |e] l IH]; intros acc; cbn [collect_from].
  - destruct s; [done |]. by intros [= <- <-].
  - destruct (Z.ltb_spec MAX_BUFFERED_RESPONSE (Z.of_nat (length acc) + Z.of_nat (length data))).
    + intros [= <- <-] Ha. rewrite length_app, length_take. lia.
    + intros E _. eapply IH; [done |]. rewrite length_app. lia.
  - apply IH.
  - by intros [= <- <-].
Qed.

Lemma collect_from_complete acc l s d :
  Z.of_nat (length acc) ≤ MAX_BUFFERED_RESPONSE →
  collect_from acc l s = Some (d, Complete) ↔
  s = false ∧ existsb is_frame_error l = false ∧ d = acc ++ mjoin (frame_data <$> l)
  ∧ Z.of_nat (length d) ≤ MAX_BUFFERED_RESPONSE.
Proof.
  revert acc. induction l as [|[data| |e] l IH]; intros acc Ha; cbn [collect_from existsb is_frame_error orb].
  - cbn. rewrite app_nil_r. destruct s; naive_solver.
  - cbn [fmap list_fmap frame_data].
    change (mjoin (data :: (frame_data <$> l))) with (data ++ mjoin (frame_data <$> l)). rewrite (assoc_L (++)).
    destruct (Z.ltb_spec MAX_BUFFERED_RESPONSE (Z.of_nat (length acc) + Z.of_nat (length data))) as [Hlt|Hge].
    + split; [done |]. intros (_ & _ & -> & Hd). rewrite !length_app in Hd. lia.
    + rewrite IH; [done |]. rewrite length_app. lia.
  - by rewrite IH.
  - split; [done |]. by intros (_ & [=] & _).
Qed.

(** A body counts as complete exactly when it ended, unbroken, within the cap,
    and then what was read is all of it. *)
Lemma collect_capped_complete b d :
  collect_capped b = Some (d, Complete) ↔
  stalls b = false ∧ existsb is_frame_error (frames b) = false ∧ d = mjoin (frame_data <$> frames b)
  ∧ Z.of_nat (length d) ≤ MAX_BUFFERED_RESPONSE.
Proof. unfold collect_capped. rewrite collect_from_complete by (cbn; unfold MAX_BUFFERED_RESPONSE; lia). done. Qed.

Lemma collect_capped_bounded b d fate :
  collect_capped b = Some (d, fate) → Z.of_nat (length d) ≤ MAX_BUFFERED_RESPONSE.
Proof. intros E. eapply collect_from_bounded; [exact E |]. cbn. unfold MAX_BUFFERED_RESPONSE. lia. Qed.
End Collecting.

(** ** What a request does, case by case *)
Section Gates.
Context `{TimeCrate, SerdeDocs, Memchr, Http}.

(** The checks a metered request passes before it is accepted, and what they
    find: the endpoint, the model and its prices. *)
Definition gate (consumer : ConsumerContext.t) (path : string) (data : list ascii)
    : option (Endpoint.t * string * PricingSnapshot.t) :=
  match Endpoint.from_path path, suspension_message (ConsumerContext.service_status consumer) with
  | Some endpoint, None =>
      if bool_decide (endpoint = Endpoint.Models) then None
      else
        let model := requested_model endpoint (request_value data) in
        (λ prices, (endpoint, model, prices)) <$> ConsumerContext.pricing_for consumer model
  | _, _ => None
  end.

Definition metered_record (env : Env) (consumer : ConsumerContext.t) (data : list ascii)
    (g : Endpoint.t * string * PricingSnapshot.t) : RequestRecord.t :=
  let '(endpoint, model, prices) := g in
  accepted_record env consumer model endpoint (wants_stream (request_value data)) prices.

(** [handle_proxy] behind its gate. *)
Lemma handle_proxy_gate env consumer method path headers data :
  handle_proxy env consumer method path headers data =
  match gate consumer path data with
  | Some g =>
      let record := metered_record env consumer data g in
      match accept_result env with
      | Err e =>
          ([Accept record (Err e); MarkUnhealthy],
           Some (error_response (request_id env) 503 "Metering unavailable; request not forwarded" "metering_error"))
      | Ok _ =>
          let '(sent, reply) := send env method path data headers in
          let '(effects, response) := respond env record (fst (fst g)) (wants_stream (request_value data)) reply in
          (Accept record (Ok ()) :: sent ++ effects, response)
      end
  | None =>
      match Endpoint.from_path path, suspension_message (ConsumerContext.service_status consumer) with
      | None, _ => ([], Some (error_response (request_id env) 404 "Not Found" "invalid_request_error"))
      | Some _, Some message => ([], Some (billing_suspended_error (request_id env) message))
      | Some Endpoint.Models, None => proxy_unmetered env consumer method path headers data
      | Some endpoint, None =>
          ([], Some (model_not_allowed_error (request_id env) (requested_model endpoint (request_value data))))
      end
  end.
Proof.
  unfold handle_proxy, gate. destruct (Endpoint.from_path path) as [e|]; [| done].
  destruct (suspension_message _) as [m|]; [by destruct e |].
  destruct e; [rewrite !bool_decide_eq_false_2 by done | rewrite !bool_decide_eq_false_2 by done | by rewrite !bool_decide_eq_true_2];
    unfold metered_record; by destruct (ConsumerContext.pricing_for _ _).
Qed.

Lemma send_effects env method path data headers :
  fst (send env method path data headers) =
    match ProxyClient.request_for (client env) (Some (upstream env)) method path data headers with
    | Ok request => [Send request] | Err _ => [] end.
Proof. unfold send. by destruct (ProxyClient.request_for _ _ _ _ _ _). Qed.

Lemma unmetered_effects env consumer method path headers data :
  fst (proxy_unmetered env consumer method path headers data) = fst (send env method path data headers).
Proof.
  unfold proxy_unmetered. destruct (send _ _ _ _ _) as [sent [|e|s h b]]; [done | done |].
  destruct (collect_capped b) as [[d []]|]; done.
Qed.

(** No branch after the accept sends anything more. *)
Lemma respond_sends_nothing env record e w reply req :
  Send req ∉ fst (respond env record e w reply).
Proof.
  assert (∀ r, Send req ∉ finalize env r) as Hf.
  { intros r. unfold finalize. rewrite elem_of_cons. intros [|Hin]; [done |].
    destruct (is_ok _); [by apply elem_of_nil in Hin |]. by apply list_elem_of_singleton in Hin. }
  unfold respond, finalize_and_respond. destruct reply as [|x|status h b]; [apply Hf | apply Hf |].
  destruct (negb (is_success status)).
  { destruct (collect_capped b) as [[d fate]|]; [apply Hf | apply not_elem_of_nil]. }
  destruct (w || is_event_stream h).
  { unfold stream_response. destruct (is_ok _); [apply not_elem_of_nil |].
    cbn -[spawn_detached_finalize]. rewrite app_nil_r. apply Hf. }
  destruct (collect_capped b) as [[d fate]|]; [| apply not_elem_of_nil].
  destruct (partial_reason fate); apply Hf.
Qed.
End Gates.

(** ** Nothing is forwarded unaccounted *)
Section Forwarded.
Context `{TimeCrate, SerdeDocs, Memchr, Http, !HttpLaws}.

(** C6. What a request does before anyone answers. A request that fails a check
    (no such endpoint, a suspended partner, a model without a price) touches
    neither ledger nor upstream, and model discovery only the upstream. Every
    other request is first put on the ledger, in flight, as the caller's, at
    the price of the very lookup that let it in; the upstream is contacted
    exactly when that write is durable, and refused with the writer marked
    unhealthy when it is not. *)
Theorem nothing_forwarded_unaccounted (env : Env) (consumer : ConsumerContext.t) (method path : string)
    (headers : HeaderMap) (data : list ascii) :
  let effects := fst (handle_proxy env consumer method path headers data) in
  match gate consumer path data with
  | None =>
      ∀ e, e ∈ effects → ∃ req, e = Send req ∧ Endpoint.from_path path = Some Endpoint.Models
        ∧ suspension_message (ConsumerContext.service_status consumer) = None
  | Some (endpoint, model, prices) =>
      let record := metered_record env consumer data (endpoint, model, prices) in
      RequestRecord.request_status record = RequestStatus.InFlight
      ∧ RequestRecord.consumer_id record = ConsumerContext.consumer_id consumer
      ∧ RequestRecord.model record = model
      ∧ ConsumerContext.pricing_for consumer model = RequestRecord.pricing record
      ∧ ∃ rest, effects = Accept record (accept_result env) :: rest
          ∧ (is_ok (accept_result env) = false → rest = [MarkUnhealthy])
          ∧ ∀ req, Send req ∈ rest ↔
              is_ok (accept_result env) = true
              ∧ ProxyClient.request_for (client env) (Some (upstream env)) method path data headers = Ok req
  end.
Proof.
  intros effects. subst effects. rewrite handle_proxy_gate.
  destruct (gate consumer path data) as [[[endpoint model] prices]|] eqn:Eg.
  - cbn [metered_record]. split_and!; [done | done | done | |].
    { unfold gate in Eg. destruct (Endpoint.from_path path); [| done]. destruct (suspension_message _); [done |].
      destruct (bool_decide _); [done |]. apply fmap_Some in Eg as (p & Ep & E). by simplify_eq. }
    destruct (accept_result env) as [[]|e].
    + destruct (send env method path data headers) as [sent reply] eqn:Es.
      pose proof (respond_sends_nothing env (accepted_record env consumer model endpoint (wants_stream (request_value data)) prices)
        endpoint (wants_stream (request_value data)) reply) as Hno.
      cbn [fst] in *. destruct (respond _ _ _ _ _) as [effects response]. cbn [fst] in *.
      eexists. split; [done |]. split; [done |]. intros req. rewrite elem_of_app.
      pose proof (send_effects env method path data headers) as Hs. rewrite Es in Hs. cbn [fst] in Hs. rewrite Hs.
      destruct (ProxyClient.request_for _ _ _ _ _ _) as [r|].
      * rewrite list_elem_of_singleton. split; [intros [[= ->]|[]%Hno]; done | intros [_ [= ->]]; by left].
      * rewrite elem_of_nil. split; [intros [[]|[]%Hno] | intros [_ [=]]].
    + eexists. split; [done |]. split; [done |]. intros req. split; [by intros [= ]%list_elem_of_singleton | by intros [[=] _]].
  - destruct (Endpoint.from_path path) as [endpoint|]; [| intros e []%elem_of_nil].
    destruct (suspension_message _); [destruct endpoint; intros e []%elem_of_nil |].
    destruct endpoint; [intros e []%elem_of_nil | intros e []%elem_of_nil |].
    rewrite unmetered_effects, send_effects. intros e.
    destruct (ProxyClient.request_for _ _ _ _ _ _); [| intros []%elem_of_nil].
    intros ->%list_elem_of_singleton. by eexists.
Qed.

Lemma get_all_forwarded upstream_headers id name :
  get_all (forwarded_headers upstream_headers id) name =
    (if is_hop_by_hop name || String.eqb name "content-length" || String.eqb name "set-cookie" then []
     else get_all upstream_headers name)
    ++ if String.eqb name "x-request-id" then [id] else [].
Proof. unfold forwarded_headers. rewrite get_all_append, response_headers, get_all_new. done. Qed.

Lemma forwarded_request_id upstream_headers id :
  get_all (forwarded_headers upstream_headers id) "x-request-id" = get_all upstream_headers "x-request-id" ++ [id].
Proof. rewrite get_all_forwarded. by vm_compute is_hop_by_hop. Qed.

Lemma forwarded_withheld upstream_headers id name :
  hop_field name ∨ name = "content-length"%string ∨ name = "set-cookie"%string →
  get_all (forwarded_headers upstream_headers id) name = [].
Proof.
  intros Hn. rewrite get_all_forwarded.
  destruct Hn as [Hh | [Hn | Hn]]; [by destruct Hh | by subst name | by subst name].
Qed.

Lemma forwarded_others upstream_headers id name :
  ¬ hop_field name → name ∉ ["content-length"; "set-cookie"; "x-request-id"]%string →
  get_all (forwarded_headers upstream_headers id) name = get_all upstream_headers name.
Proof.
  intros Hh Hn. rewrite !not_elem_of_cons in Hn.
  destruct Hn as (Hl%String.eqb_neq & Hc%String.eqb_neq & Hx%String.eqb_neq & _).
  rewrite get_all_forwarded, Hl, Hc, Hx, !orb_false_r, app_nil_r.
  destruct (is_hop_by_hop name) eqn:E; [| done]. destruct (decide (lowercase name = name)) as [El|El].
  - unfold is_hop_by_hop in E. rewrite El in E. by apply bool_decide_eq_true, hop_field_spec in E.
  - by rewrite get_all_upper.
Qed.

(** A response that the proxy words itself carries no upstream bytes. *)
Lemma error_response_no_bytes id status message kind d : body (error_response id status message kind) ≠ Bytes d.
Proof. unfold error_response, build. by destruct (is_ok _). Qed.

(** The response of a branch after the accept, when it carries upstream bytes. *)
Lemma respond_bytes env record endpoint w reply effects r d :
  respond env record endpoint w reply = (effects, Some r) → body r = Bytes d →
  ∃ status' upstream_headers b fate,
    reply = Answered status' upstream_headers b ∧ status r = status'
    ∧ headers r = forwarded_headers upstream_headers (request_id env)
    ∧ collect_capped b = Some (d, fate)
    ∧ if is_success status'
      then fate = Complete ∧ Finalize (completed_record env record status' (extract_usage d endpoint)) (finalize_result env) ∈ effects
      else d ≠ [] ∧ ∃ f, Finalize f (finalize_result env) ∈ effects
             ∧ RequestRecord.request_status f = RequestStatus.Failed ∧ RequestRecord.http_status f = Some status'.
Proof.
  unfold respond, finalize_and_respond. intros E Hb.
  assert (∀ s m k, r = error_response (request_id env) s m k → False) as Herr
    by (intros s m k ->; by apply error_response_no_bytes in Hb).
  destruct reply as [|x|s h b]; [simplify_eq; by destruct (Herr _ _ _ eq_refl) | simplify_eq; by destruct (Herr _ _ _ eq_refl) |].
  exists s, h, b. destruct (is_success s) eqn:Es; cbn [negb] in E.
  - destruct (w || is_event_stream h).
    { unfold stream_response in E. destruct (is_ok _); simplify_eq; by destruct (Herr _ _ _ eq_refl). }
    destruct (collect_capped b) as [[bytes fate]|]; [| done].
    destruct fate; cbn [partial_reason] in E; [| simplify_eq; by destruct (Herr _ _ _ eq_refl) ..].
    injection E as <- <-. unfold build in Hb |- *. destruct (is_ok _); [| by apply error_response_no_bytes in Hb].
    injection Hb as ->. exists Complete. split_and!; try done. unfold finalize. by left.
  - destruct (collect_capped b) as [[bytes fate]|]; [| done]. injection E as <- <-.
    unfold forward_upstream_error in Hb |- *. destruct bytes as [|c bytes]; [by apply error_response_no_bytes in Hb |].
    unfold build in Hb |- *. destruct (is_ok _); [| by apply error_response_no_bytes in Hb]. injection Hb as <-.
    exists fate. split_and!; try done. eexists. split; [by left | done].
Qed.

(** C8. The bytes a client is handed under a success status are the whole of
    the upstream's body, never a part of it, and the ledger is told of exactly
    them; under an error status they are what was read of the upstream's own
    document, and the ledger is told of the failure. The status is the
    upstream's. Its headers come back under every name but the eight hop-by-hop
    fields, [Content-Length] and [Set-Cookie]; that includes the names its own
    [Connection] header lists, which are not taken out on the way back, as the
    client's module comment would have it. Under [x-request-id] the client finds
    the ledger row's id last, after the ids the upstream itself sent. *)
Theorem delivered_bytes_are_the_upstreams (env : Env) (consumer : ConsumerContext.t) (method path : string)
    (client_headers : HeaderMap) (data : list ascii) (effects : list Effect) (r : Response) (d : list ascii)
    (g : Endpoint.t * string * PricingSnapshot.t)
    (Hgate : gate consumer path data = Some g)
    (Hrun : handle_proxy env consumer method path client_headers data = (effects, Some r))
    (Hbody : body r = Bytes d) :
  ∃ upstream_headers b fate,
    reply env = Answered (status r) upstream_headers b ∧ collect_capped b = Some (d, fate)
    ∧ (if is_success (status r)
       then d = mjoin (frame_data <$> frames b)
            ∧ Finalize (completed_record env (metered_record env consumer data g) (status r) (extract_usage d (fst (fst g))))
                (finalize_result env) ∈ effects
       else ∃ f, Finalize f (finalize_result env) ∈ effects
              ∧ RequestRecord.request_status f = RequestStatus.Failed ∧ RequestRecord.http_status f = Some (status r))
    ∧ get_all (headers r) "x-request-id" = get_all upstream_headers "x-request-id" ++ [request_id env]
    ∧ (∀ name, hop_field name ∨ name = "content-length"%string ∨ name = "set-cookie"%string →
         get_all (headers r) name = [])
    ∧ ∀ name, ¬ hop_field name → name ∉ ["content-length"; "set-cookie"; "x-request-id"]%string →
        get_all (headers r) name = get_all upstream_headers name.
Proof.
  rewrite handle_proxy_gate, Hgate in Hrun. cbn zeta in Hrun.
  destruct (accept_result env) as [[]|e].
  2:{ injection Hrun as <- <-. by apply error_response_no_bytes in Hbody. }
  destruct (send env method path data client_headers) as [sent reply'] eqn:Es.
  destruct (respond _ _ _ _ _) as [effects' response] eqn:Er. injection Hrun as <- ->.
  destruct (respond_bytes _ _ _ _ _ _ _ _ Er Hbody) as (s & h & b & fate & -> & <- & Eh & Ec & Hcase).
  exists h, b, fate. rewrite Eh.
  split_and!; [| done | | by apply forwarded_request_id | apply forwarded_withheld | apply forwarded_others].
  { unfold send in Es. destruct (ProxyClient.request_for _ _ _ _ _ _); by simplify_eq. }
  destruct (is_success (status r)).
  - destruct Hcase as [-> Hin]. apply collect_capped_complete in Ec as (_ & _ & -> & _).
    split; [done |]. right. apply elem_of_app. by right.
  - destruct Hcase as (_ & f & Hin & ? & ?). exists f. split_and!; try done. right. apply elem_of_app. by right.
Qed.
End Forwarded.

(** ** Model discovery *)
Section Discovery.
Context `{TimeCrate, SerdeDocs, !SerdeDocsLaws}.

Lemma entry_allowed_spec (consumer : ConsumerContext.t) entry :
  entry_allowed (ConsumerContext.allowed_models consumer) entry = true ↔
  ∃ id, (value_get entry "id" ≫= as_str) = Some id ∧ is_Some (ConsumerContext.pricing_for consumer id).
Proof.
  unfold entry_allowed. destruct (value_get entry "id" ≫= as_str) as [id|]; [| split; [done | by intros (? & [=] & _)]].
  assert (existsb (λ m, String.eqb m id) (ConsumerContext.allowed_models consumer) = true ↔
    is_Some (ConsumerContext.pricing_for consumer id)) as ->; [| naive_solver].
  rewrite existsb_exists. setoid_rewrite String.eqb_eq.
  transitivity (id ∈ ConsumerContext.allowed_models consumer).
  { rewrite list_elem_of_In. naive_solver. }
  unfold ConsumerContext.allowed_models, ConsumerContext.pricing_for.
  destruct (ConsumerContext.partner consumer) as [p|]; cbn; [| rewrite elem_of_nil; split; [done | by intros [? ?]]].
  unfold PartnerRuntimeConfig.allowed_models, PartnerRuntimeConfig.pricing_for.
  rewrite merge_sort_Permutation, list_elem_of_fmap. split.
  - intros ([k v] & -> & E%elem_of_map_to_list). by eexists.
  - intros [v E]. exists (id, v). split; [done |]. by apply elem_of_map_to_list.
Qed.

(** Model discovery answers with the upstream's document in which the list
    of models keeps, in order, exactly the entries that name a model the
    partner has a price for (so what is listed is what can be called) and
    nothing else is touched; a document of another shape is passed on as it is. *)
Theorem discovery_lists_callable_models (consumer : ConsumerContext.t) (data : list ascii) :
  let answer := filter_models_response data (ConsumerContext.allowed_models consumer) in
  match from_slice data ≫= λ json, value_get json "data" ≫= as_array with
  | None => answer = data
  | Some entries =>
      ∃ json json' kept, from_slice data = Some json ∧ answer = default data (to_vec json')
        ∧ (value_get json' "data" ≫= as_array) = Some kept
        ∧ sublist kept entries
        ∧ (∀ entry, entry ∈ kept ↔ entry ∈ entries ∧ ∃ id, (value_get entry "id" ≫= as_str) = Some id
                                     ∧ is_Some (ConsumerContext.pricing_for consumer id))
        ∧ ∀ key, key ≠ "data"%string → value_get json' key = value_get json key
  end.
Proof.
  intros answer. subst answer. unfold filter_models_response.
  destruct (from_slice data) as [json|]; [| done]. cbn [mbind option_bind].
  destruct (value_get json "data" ≫= as_array) as [entries|] eqn:E; [| done].
  eexists json, _, _. split; [done |]. split; [done |].
  split; [by eapply set_array_same |]. split; [apply sublist_filter |]. split.
  - intros entry. rewrite list_elem_of_filter, entry_allowed_spec. tauto.
  - intros key Hk. by apply set_array_other.
Qed.
End Discovery.

(** ** At a concrete request *)
Definition partner_1 : PartnerRuntimeConfig.t :=
  PartnerRuntimeConfig.new "acme" "prod" BillingMode.Invoice "billing@acme.example" Active {["gpt-4o"%string := prices_1]}.
Definition caller_1 : ConsumerContext.t := ConsumerContext.new partner_1.

Definition text (s : string) : list ascii := String.list_ascii_of_string s.
Definition request_body_1 : list ascii := text (write_json (JObject [("model", JString "gpt-4o"); ("input", JString "hi")]%string)).
Definition answer_body_1 : list ascii :=
  text (write_json (JObject [("id", JString "r1");
    ("usage", JObject [("input_tokens", JNumber 100); ("output_tokens", JNumber 20)])]%string)).
Definition answer_headers_1 : HeaderMap (Http := AssocHeaders) :=
  [("Content-Type", "application/json"); ("X-Request-Id", "upstream-7"); ("Content-Length", "80");
   ("Connection", "x-hop"); ("X-Hop", "1")]%string.

Definition env_with (reply : Reply) : Env :=
  mkEnv "req-9" t1 cfg_1 (ProxyClient.new cfg_1) ["sk-upstream"%string] (Ok ()) reply 350 (Ok ()).
Definition env_1 : Env := env_with (Answered 200 answer_headers_1 (mkIncoming [FrameData (take 20 answer_body_1); FrameTrailers; FrameData (drop 20 answer_body_1)] false)).

Definition run_1 (env : Env) : list Effect * option Response :=
  handle_proxy env caller_1 "POST" "/v1/responses?beta=1" headers_1 request_body_1.
Definition gate_1 : Endpoint.t * string * PricingSnapshot.t := (Endpoint.Responses, "gpt-4o"%string, prices_1).

Definition response_bytes (r : option Response) : list ascii :=
  match r with Some r => match body r with Bytes d => d | _ => [] end | None => [] end.

Lemma gate_1_open : gate caller_1 "/v1/responses?beta=1" request_body_1 = Some gate_1.
Proof. by vm_compute. Qed.

Lemma discovery_lists_callable_models_witness :
  (let json := JObject [("object", JString "list");
       ("data", JArray [JObject [("id", JString "gpt-4o")]; JObject [("id", JString "o3")]; JNull])]%string in
   let data := text (write_json json) in
   ∃ json0 json' kept, from_slice data = Some json0
     ∧ filter_models_response data (ConsumerContext.allowed_models caller_1) = default data (to_vec json')
     ∧ (value_get json' "data" ≫= as_array) = Some kept ∧ JNull ∉ kept)
  ∧ (ConsumerContext.allowed_models caller_1) = ["gpt-4o"%string].
Proof.
  split; [| by vm_compute].
  set (json := JObject _).
  destruct (discovery_lists_callable_models caller_1 (text (write_json json))) as (j & j' & kept & H1 & H2 & H3 & _ & H5 & _).
  exists j, j', kept. split; [exact H1 |]. split; [exact H2 |]. split; [exact H3 |].
  intros Hin. apply H5 in Hin as [_ (id & Hid & _)]. discriminate Hid.
Defined.

Lemma response_bytes_body r d : response_bytes r = d → d ≠ [] → ∃ r', r = Some r' ∧ body r' = Bytes d.
Proof. destruct r as [r|]; [| by intros <-]. cbn. destruct (body r) eqn:E; try (by intros <-). intros <-. eauto. Qed.

Lemma run_1_bytes : response_bytes (snd (run_1 env_1)) = answer_body_1.
Proof. by vm_compute. Qed.

Lemma delivered_bytes_are_the_upstreams_witness :
  (∃ effects r, run_1 env_1 = (effects, Some r) ∧ body r = Bytes answer_body_1
     ∧ get_all (headers r) "content-type" = ["application/json"%string]
     ∧ get_all (headers r) "content-length" = [] ∧ get_all (headers r) "x-hop" = ["1"%string]
     ∧ get_all (headers r) "x-request-id" = ["upstream-7"; "req-9"]%string)
  ∧ answer_body_1 ≠ [].
Proof.
  split; [| by vm_compute]. destruct (run_1 env_1) as [effects response] eqn:E.
  pose proof run_1_bytes as Eb. rewrite E in Eb. apply response_bytes_body in Eb as (r & Er & Eb); [| done].
  cbn [snd] in Er. subst response. unfold run_1 in E.
  exists effects, r. split; [done |]. split; [done |].
  destruct (delivered_bytes_are_the_upstreams env_1 caller_1 "POST" "/v1/responses?beta=1" headers_1 request_body_1
    effects r _ gate_1 gate_1_open E Eb) as (h & b & fate & Er & _ & _ & Hid & Hout & Hin).
  injection Er as _ <- _. clear E Eb. rewrite Hid, (Hout "content-length"%string), (Hin "content-type"%string), (Hin "x-hop"%string).
  - split_and!; by vm_compute.
  - by rewrite <- hop_field_spec, <- (bool_decide_eq_false (_ ∈ HOP_BY_HOP)).
  - by apply (bool_decide_eq_false_1 _).
  - by rewrite <- hop_field_spec, <- (bool_decide_eq_false (_ ∈ HOP_BY_HOP)).
  - by apply (bool_decide_eq_false_1 _).
  - by right; left.
Defined.

(** An upstream that answers under its own [x-request-id] is not overruled: the
    client finds that id first, and the proxy's second. *)
Theorem upstream_request_id_comes_first :
  header_get (H := AssocHeaders) (forwarded_headers answer_headers_1 "req-9") "x-request-id" = Some "upstream-7"%string.
Proof. by vm_compute. Qed.

(** An error document that broke off mid-read is forwarded as far as it came,
    under the upstream's status. *)
Theorem partial_error_body_is_forwarded :
  response_bytes (snd (run_1 (env_with (Answered 429 answer_headers_1
    (mkIncoming [FrameData (text "{err"); FrameError "reset"] false))))) = text "{err".
Proof. by vm_compute. Qed.

(** The body of a buffered response is awaited without a timeout: an upstream
    that stops sending after the head keeps the request open, and its row in
    flight. *)
Theorem stalled_body_is_never_finalized :
  let run := run_1 (env_with (Answered 200 answer_headers_1 (mkIncoming [FrameData (text "{")] true))) in
  match run with
  | ([Accept record (Ok tt); Send _], None) => RequestRecord.request_status record = RequestStatus.InFlight
  | _ => False
  end.
Proof. by vm_compute. Qed.
