(* ===== verification/Metering.v ===== *)
(** * From the request to the ledger ([src/src/proxy/handler.rs] with [src/src/ledger/writer.rs])

    The proxy's handler, its streamed bodies and the ledger writer put
    together: what a request writes, what that does to the tables, and that the
    writes of any number of requests are such as the writer's log relies on. *)

From stdpp Require Import base strings list gmap numbers.
From Stdlib Require Import Ascii ZArith Lia.
From S2P Require Import Prelude Utf8 Redaction Http TimeLib Calendar Timefmt Pricing Status Partner Context LedgerTypes Sql Rollup Json ProxyUsage SseScan StreamMeter Writer WriterTask Proxy.

Local Open Scope Z_scope.

Section Exchange.
Context `{TimeCrate, SerdeDocs, Memchr, Http}.

(** A request with everything that happens to it: what the environment answers
    and, for a streamed response, what happens to its body. *)
Record Exchange : Type := mkExchange {
  env : Env;
  consumer : ConsumerContext.t;
  method : string;
  path : string;
  client_headers : HeaderMap;
  data : list ascii;
  events : list BodyEvent }.

(** What the body of the response writes once it runs. *)
Definition streamed (env : Env) (response : option Response) (events : list BodyEvent) : list Effect :=
  match response with
  | Some r =>
      match body r with
      | Stream b => mjoin (spawn_detached_finalize env <$> handed (run_body (header_timeout env) b events))
      | _ => []
      end
  | None => []
  end.

Definition effects (x : Exchange) : list Effect :=
  let '(effects, response) := handle_proxy (env x) (consumer x) (method x) (path x) (client_headers x) (data x) in
  effects ++ streamed (env x) response (events x).

(** The writes an effect queues with the ledger writer. *)
Definition pending (ack : nat) (e : Effect) : option PendingWrite.t :=
  match e with
  | Accept record _ => Some (PendingWrite.mk WriteOp.Accept (Some record) ack)
  | Finalize record _ => Some (PendingWrite.mk WriteOp.Finalize (Some record) ack)
  | Send _ | MarkUnhealthy => None
  end.
Definition writes (ack : nat) (x : Exchange) : list PendingWrite.t := omap (pending ack) (effects x).
End Exchange.

Section Ends.
Context `{TimeCrate, SerdeDocs, !SerdeJsonLaws, Memchr, !MemchrLaws, Http}.

Definition clock (millis : Z) : Prop := 0 ≤ millis ≤ i64_max.
Definition event_clock (e : BodyEvent) : Prop := match e with Poll t _ | Drop t => clock t end.

Lemma as_u64_ms_id t : clock t → as_u64_ms t = t.
Proof. intros Ht. unfold as_u64_ms, u64_wrap. apply Z.mod_small. unfold clock in Ht. ranges. lia. Qed.

(** A terminal record that belongs to the record a request was accepted with. *)
Record resolves (r f : RequestRecord.t) : Prop := {
  res_terminal : RequestRecord.is_terminal f = true;
  res_id : RequestRecord.request_id f = RequestRecord.request_id r;
  res_same : same_request r f;
  res_usage : counts_u64 (RequestRecord.usage f);
  res_ttft z : RequestRecord.ttft_ms f = Some z → clock z;
  res_duration : clock (RequestRecord.duration_ms f) }.

(** Just accepted. *)
Definition fresh (r : RequestRecord.t) : Prop :=
  RequestRecord.usage r = Usage.default_usage ∧ RequestRecord.ttft_ms r = None.

Lemma extract_usage_counts d e : counts_u64 (extract_usage d e).
Proof.
  unfold extract_usage. destruct (from_slice d) as [v|]; [| apply default_counts].
  destruct e; [apply extract_chat_counts | apply extract_responses_counts | apply default_counts].
Qed.

Lemma failed_resolves env r outcome :
  fresh r → clock (elapsed env) → counts_u64 (usage outcome) → resolves r (failed_record env r outcome).
Proof.
  intros [_ Ht] Hc Hu. split; try done; cbn [failed_record set_streaming set_error_body RequestRecord.ttft_ms].
  - intros z. cbn. by rewrite Ht.
  - cbn. by rewrite as_u64_ms_id.
Qed.

Lemma completed_resolves env r status u :
  fresh r → clock (elapsed env) → counts_u64 u → resolves r (completed_record env r status u).
Proof.
  intros [_ Ht] Hc Hu. split; try done.
  - intros z. cbn. by rewrite Ht.
  - cbn. by rewrite as_u64_ms_id.
Qed.

Lemma stream_usage_counts e events u : stream_usage e events = Some u → counts_u64 u.
Proof.
  apply (scan_usage counts_u64). intros e' v w. destruct e'; cbn; intros E; [| | done];
    apply (extract_stream_counts v); auto.
Qed.

Lemma first_byte_clock events z : Forall event_clock events → first_byte events = Some z → clock z.
Proof.
  unfold first_byte. induction 1 as [|e l He _ IH]; [done |].
  destruct e as [t [| |x|[[|c d]|]]|t]; try done. cbn. intros [= <-]. by rewrite as_u64_ms_id.
Qed.

Lemma ending_clock secs events how t : Forall event_clock events → ending secs events = Some (how, t) → clock t.
Proof.
  induction 1 as [|e l He _ IH]; [done |]. destruct e as [t' [| |x|?]|t']; cbn; try (by intros [= _ <-]). exact IH.
Qed.

Lemma stream_resolves r e s creds events end_ :
  fresh r → Forall event_clock events → clock (snd end_) → resolves r (stream_record r e s creds events end_).
Proof.
  intros [Hf Ht] He Hc. destruct end_ as [how t]. cbn [snd] in Hc.
  pose proof (stream_usage_counts e events) as Hu. pose proof (first_byte_clock events) as Hb.
  assert (∀ f, RequestRecord.ttft_ms f = None →
    ∀ z, RequestRecord.ttft_ms (StreamMeter.with_ttft f (first_byte events)) = Some z → clock z) as Httft.
  { intros f Hn z. destruct (first_byte events) as [b|]; cbn; [| by rewrite Hn]. intros [= <-]. by apply Hb. }
  assert (∀ f, RequestRecord.duration_ms f = as_u64_ms t →
    clock (RequestRecord.duration_ms (StreamMeter.with_ttft f (first_byte events)))) as Hd.
  { intros f Ed. destruct (first_byte events); cbn; by rewrite Ed, as_u64_ms_id. }
  assert (∀ f, counts_u64 (RequestRecord.usage f) →
    counts_u64 (RequestRecord.usage (StreamMeter.with_ttft f (first_byte events)))) as Huse.
  { intros f Hfu. by destruct (first_byte events). }
  unfold stream_record, StreamMeter.with_usage.
  destruct how; destruct (stream_usage e events) as [u|] eqn:Eu; split; try (by destruct (first_byte events));
    try (by apply Httft); try (by apply Hd).
  all: apply Huse; cbn; first [by apply Hu | apply default_counts | rewrite Hf; apply default_counts].
Qed.

(** The upstream stops in the middle of a body that is read whole. *)
Definition reply_stalls (reply : Reply) : Prop :=
  ∃ s h b, reply = Answered s h b ∧ stalls b = true.

Lemma collect_capped_stalls b : collect_capped b = None → stalls b = true.
Proof.
  unfold collect_capped. generalize (@nil ascii) as acc. induction (frames b) as [|[d| |x] l IH]; intros acc; cbn.
  - by destruct (stalls b).
  - destruct (_ <? _); [done | apply IH].
  - apply IH.
  - done.
Qed.

(** After the accept: nothing more, when the upstream or the client leaves the
    exchange open, or one terminal record. *)
Lemma respond_ends env r e w reply events :
  fresh r → clock (elapsed env) → Forall event_clock events →
  let '(eff, response) := respond env r e w reply in
  (eff ++ streamed env response events = []
     ∧ (reply_stalls reply ∨ ending (header_timeout env) events = None))
  ∨ ∃ f, eff ++ streamed env response events = finalize env f ∧ resolves r f.
Proof.
  intros Hf Hc He. unfold respond, finalize_and_respond.
  assert (∀ o s m k, counts_u64 (usage o) →
    ∃ f, finalize env (failed_record env r o) ++ streamed env (Some (error_response (request_id env) s m k)) events
      = finalize env f ∧ resolves r f) as Hfail.
  { intros o s m k Hu. exists (failed_record env r o). split; [| by apply failed_resolves].
    unfold streamed, error_response, build. destruct (is_ok _); cbn [body empty_response]; by rewrite app_nil_r. }
  destruct reply as [|x|s h b]; [right; by apply Hfail, default_counts | right; by apply Hfail, default_counts |].
  destruct (negb (is_success s)).
  { destruct (collect_capped b) as [[d fate]|] eqn:Ec; [| left; split; [done |]; left; apply collect_capped_stalls in Ec; unfold reply_stalls; eauto].
    right. assert (streamed env (Some (forward_upstream_error s h d (request_id env))) events = []) as ->.
    { unfold forward_upstream_error, error_response, build, streamed. destruct d; repeat destruct (is_ok _); done. }
    rewrite app_nil_r. eexists. split; [reflexivity |].
    apply failed_resolves; [done | done | apply extract_usage_counts]. }
  destruct (w || is_event_stream h).
  { assert (∀ t evs, clock t → Forall event_clock evs → ∀ how, resolves r
      (stream_record (set_streaming r true) e s (credentials env) evs (how, t))) as Hs.
    { intros t evs Ht Hevs how. pose proof (stream_resolves (set_streaming r true) e s (credentials env) evs (how, t) Hf Hevs Ht) as Hr.
      destruct Hr as [R1 R2 R3 R4 R5 R6]. by split. }
    unfold stream_response. destruct (is_ok (builds _)).
    - cbn [app streamed body].
      destruct (run_body_new (header_timeout env) (set_streaming r true) e s (credentials env) events) as (_ & _ & ->).
      destruct (ending (header_timeout env) events) as [[how t]|] eqn:Ee; [| left; split; [done | by right]].
      right. eexists. split; [cbn [fmap option_fmap option_map option_list list_fmap]; by apply app_nil_r |].
      apply Hs; [by eapply ending_clock | done].
    - right. pose proof (run_body_new (header_timeout env) (set_streaming r true) e s (credentials env) [Drop (elapsed env)])
        as (_ & _ & Hh). cbn [run_body foldl ending] in Hh. rewrite Hh.
      assert (Forall event_clock [Drop (elapsed env)]) as Hd
        by exact (Forall_cons_2 event_clock (Drop (elapsed env)) [] Hc (Forall_nil_2 _)).
      eexists. split; [| exact (Hs (elapsed env) [Drop (elapsed env)] Hc Hd Interrupted)].
      cbn [fmap option_fmap option_map option_list list_fmap].
      unfold streamed, error_response, build. destruct (is_ok _); cbn [body empty_response]; rewrite app_nil_r; by apply app_nil_r. }
  destruct (collect_capped b) as [[d fate]|] eqn:Ec; [| left; split; [done |]; left; apply collect_capped_stalls in Ec; unfold reply_stalls; eauto].
  destruct (partial_reason fate); right; [by apply Hfail, default_counts |].
  assert (∀ k m t, streamed env (Some (build s k (Bytes d) (error_response (request_id env) 500 m t))) events = []) as ->.
  { intros. unfold error_response, build, streamed. repeat destruct (is_ok _); done. }
  rewrite app_nil_r. eexists. split; [reflexivity |].
  apply completed_resolves; [done | done | apply extract_usage_counts].
Qed.
End Ends.

(** ** One request on the ledger *)
Section Accounting.
Context `{TimeCrate, !TimeLaws, SerdeDocs, !SerdeJsonLaws, Memchr, !MemchrLaws, Http, RusqliteLaws}.

Definition exchange_clock (x : Exchange) : Prop := clock (elapsed (env x)) ∧ Forall event_clock (events x).

Definition exchange_gate (x : Exchange) : option (Endpoint.t * string * PricingSnapshot.t) :=
  gate (consumer x) (path x) (data x).
Definition accepted (x : Exchange) (g : Endpoint.t * string * PricingSnapshot.t) : RequestRecord.t :=
  metered_record (env x) (consumer x) (data x) g.

(** Neither the upstream nor the client lets the exchange come to an end. *)
Definition open_ended (x : Exchange) : Prop :=
  reply_stalls (reply (env x)) ∨ ending (header_timeout (env x)) (events x) = None.

Lemma accepted_fresh x g : fresh (accepted x g).
Proof. by destruct g as [[? ?] ?]. Qed.

Lemma send_reply e m p d h sent reply' :
  send e m p d h = (sent, reply') →
  (∀ ack, omap (pending ack) sent = []) ∧ (reply_stalls reply' → reply_stalls (reply e)).
Proof.
  unfold send. destruct (ProxyClient.request_for _ _ _ _ _ _); intros [= <- <-]; split; try done.
  intros (? & ? & ? & [=] & _).
Qed.

(** A request that is let in: its accept and at most one finalize. *)
Lemma effects_gated x g :
  exchange_clock x → exchange_gate x = Some g → accept_result (env x) = Ok () →
  ∃ sent tail, effects x = Accept (accepted x g) (Ok ()) :: sent ++ tail
    ∧ (∀ e, e ∈ sent → ∃ req, e = Send req)
    ∧ ((tail = [] ∧ open_ended x) ∨ ∃ f, tail = finalize (env x) f ∧ resolves (accepted x g) f).
Proof.
  intros [Hc He] Hg Ha. unfold effects. rewrite handle_proxy_gate. unfold exchange_gate in Hg. rewrite Hg, Ha. cbn zeta.
  change (metered_record _ _ _ g) with (accepted x g).
  destruct (send _ _ _ _ _) as [sent reply'] eqn:Es.
  pose proof (respond_ends (env x) (accepted x g) g.1.1 (wants_stream (request_value (data x))) reply' (events x)
    (accepted_fresh x g) Hc He) as Hr.
  destruct (respond _ _ _ _ _) as [eff response]. exists sent, (eff ++ streamed (env x) response (events x)).
  split; [by rewrite <- app_comm_cons, <- (assoc_L (++)) |]. split.
  - pose proof (send_effects (env x) (method x) (path x) (data x) (client_headers x)) as E. rewrite Es in E. cbn [fst] in E. subst sent.
    destruct (ProxyClient.request_for _ _ _ _ _ _); intros y; [| by intros ?%elem_of_nil].
    intros ->%list_elem_of_singleton. by eexists.
  - destruct Hr as [[-> Ho]|Hf]; [left | by right]. split; [done |]. destruct Ho as [Ho|Ho]; [left | by right].
    by eapply (proj2 (send_reply _ _ _ _ _ _ _ Es)).
Qed.

Lemma effects_refused x g e :
  exchange_gate x = Some g → accept_result (env x) = Err e →
  effects x = [Accept (accepted x g) (Err e); MarkUnhealthy].
Proof.
  intros Hg Ha. unfold effects. rewrite handle_proxy_gate. unfold exchange_gate in Hg. rewrite Hg, Ha. cbn zeta.
  unfold streamed, error_response, build. destruct (is_ok _); cbn [body empty_response]; by rewrite app_nil_r.
Qed.

Lemma effects_ungated x : exchange_gate x = None → ∀ e, e ∈ effects x → ∃ req, e = Send req.
Proof.
  intros Hg. unfold effects. rewrite handle_proxy_gate. unfold exchange_gate in Hg. rewrite Hg. clear Hg.
  assert (∀ s m k, streamed (env x) (Some (error_response (request_id (env x)) s m k)) (events x) = []) as Hs.
  { intros. unfold streamed, error_response, build. by destruct (is_ok _). }
  destruct (Endpoint.from_path (path x)) as [ep|].
  2:{ rewrite Hs. by intros y ?%elem_of_nil. }
  destruct (suspension_message _) as [m|].
  { unfold streamed, billing_suspended_error, build.
    destruct ep, (is_ok _); cbn [body empty_response]; by intros y ?%elem_of_nil. }
  destruct ep;
    [unfold streamed, model_not_allowed_error, build; destruct (is_ok _); cbn [body empty_response]; by intros y ?%elem_of_nil .. |].
  pose proof (unmetered_effects (env x) (consumer x) (method x) (path x) (client_headers x) (data x)) as Ef.
  pose proof (send_effects (env x) (method x) (path x) (data x) (client_headers x)) as Es. rewrite Es in Ef. clear Es.
  assert (∀ r, snd (proxy_unmetered (env x) (consumer x) (method x) (path x) (client_headers x) (data x)) = r →
    streamed (env x) r (events x) = []) as Hr.
  { intros r <-. unfold proxy_unmetered. destruct (send _ _ _ _ _) as [sent [|e|s h b]]; cbn [snd]; [apply Hs | apply Hs |].
    destruct (collect_capped b) as [[d []]|]; cbn [snd]; [| apply Hs | apply Hs | done].
    unfold build. destruct (is_ok _); [done | apply Hs]. }
  destruct (proxy_unmetered _ _ _ _ _ _) as [eff r]. cbn [fst snd] in *. rewrite (Hr r eq_refl), app_nil_r, Ef.
  destruct (ProxyClient.request_for _ _ _ _ _ _); intros y; [| by intros ?%elem_of_nil].
  intros ->%list_elem_of_singleton. by eexists.
Qed.

(** *** The tables after a request *)

Definition apply_effect (inst : option string) (db : Ledger) (e : Effect) : result Ledger SqlError :=
  match e with
  | Accept record (Ok _) => insert_accept db record inst
  | Finalize record (Ok _) => finalize_record db record inst
  | _ => Ok db
  end.

Fixpoint apply_effects (inst : option string) (db : Ledger) (l : list Effect) : result Ledger SqlError :=
  match l with
  | [] => Ok db
  | e :: l' => let? db' := apply_effect inst db e in apply_effects inst db' l'
  end.

Lemma apply_sends inst db l l' :
  (∀ e, e ∈ l → ∃ req, e = Send req) → apply_effects inst db (l ++ l') = apply_effects inst db l'.
Proof.
  induction l as [|e l IH]; intros Hl; [done |]. destruct (Hl e ltac:(by left)) as [req ->]. cbn.
  apply IH. intros e' He. apply Hl. by right.
Qed.

Lemma apply_finalize inst db env f :
  apply_effects inst db (finalize env f) = if is_ok (finalize_result env) then finalize_record db f inst else Ok db.
Proof.
  unfold finalize. destruct (finalize_result env) as [[]|]; cbn; [| done].
  by destruct (finalize_record db f inst).
Qed.

(** A request that is not accepted leaves the tables alone. *)
Lemma apply_refused inst db x :
  exchange_gate x = None ∨ is_ok (accept_result (env x)) = false → apply_effects inst db (effects x) = Ok db.
Proof.
  intros Hx. destruct (exchange_gate x) as [g|] eqn:Eg.
  - destruct Hx as [[=]|Ha]. destruct (accept_result (env x)) as [|e] eqn:Ea; [done |].
    by rewrite (effects_refused x g e).
  - rewrite <- (app_nil_r (effects x)), apply_sends by (intros e; by apply effects_ungated). done.
Qed.

Lemma resolves_record_ok r f :
  ledger_instant (RequestRecord.created_at r) → resolves r f → record_ok f.
Proof.
  intros Hi [R1 R2 (E1 & E2 & E3 & E4 & E5) R4 R5 R6]. unfold record_ok. split_and!; try done.
  - by rewrite <- E1.
  - intros z Hz. apply R4. by left.
  - intros z Hz. apply R4. right; by left.
  - intros z Hz. apply R4. right; by right.
  - apply R6.
  - apply R6.
Qed.

(** The row of an accept is the bucket of the record it was accepted with. *)
Lemma accept_row_bucket r f inst :
  ledger_instant (RequestRecord.created_at r) → same_request r f → same_bucket f (accept_row r inst).
Proof.
  intros Hi (E1 & E2 & E3 & E4 & E5). unfold same_bucket, accept_row. destruct (price_columns _) as [[? ?] ?]. cbn.
  rewrite <- E1, <- E2, <- E3, <- E4. split_and!; try done. unfold format_timestamp. by apply format_hour_of_stored.
Qed.

Lemma sends_queue_nothing ack (l : list Effect) : (∀ e, e ∈ l → ∃ req, e = Send req) → omap (pending ack) l = [].
Proof.
  induction l as [|e l IH]; intros Hl; [done |]. destruct (Hl e ltac:(by left)) as [req ->]. cbn.
  apply IH. intros y Hy. apply Hl. by right.
Qed.

Lemma ungated_writes ack x : exchange_gate x = None → writes ack x = [].
Proof.
  intros Hg. by apply sends_queue_nothing, effects_ungated.
Qed.

(** The prices a record carries, as the columns of a row. *)
Definition price_row (row : Row.t) : option Z * option Z * option Z :=
  (Row.input_price_snapshot row, Row.cached_input_price_snapshot row, Row.output_price_snapshot row).

Lemma final_row_of_accept r f b inst :
  same_request r f →
  let row := updated_row f b (accept_row r inst) in
  Row.consumer_id row = RequestRecord.consumer_id r ∧ Row.model row = RequestRecord.model r
  ∧ price_row row = price_columns (RequestRecord.pricing r)
  ∧ Row.request_status row = RequestStatus.as_str (RequestRecord.request_status f).
Proof.
  intros Hs. rewrite updated_accept_row by done. destruct Hs as (E1 & E2 & E3 & E4 & E5).
  unfold inserted_row, price_row. rewrite <- E5. destruct (price_columns _) as [[? ?] ?]. cbn. by rewrite E2, E3.
Qed.

(** The tables once the accept is durable. *)
Definition accepted_ledger (inst : option string) (db : Ledger) (r : RequestRecord.t) : Ledger :=
  mkLedger (<[RequestRecord.request_id r := accept_row r inst]> (usage_records db)) (usage_hourly db).

Lemma apply_accepted inst db r sent tail :
  priced_ok r → usage_records db !! RequestRecord.request_id r = None → (∀ e, e ∈ sent → ∃ req, e = Send req) →
  apply_effects inst db (Accept r (Ok ()) :: sent ++ tail) = apply_effects inst (accepted_ledger inst db r) tail.
Proof.
  intros Hp Hnew Hs. cbn [apply_effects apply_effect]. rewrite insert_accept_Ok, Hnew by done. by apply apply_sends.
Qed.

(** Every effect of the exchange has happened, the exchange came to an end and
    the ledger took the final write. *)
Definition ended (x : Exchange) (k : nat) : Prop :=
  ¬ open_ended x ∧ is_ok (finalize_result (env x)) = true ∧ (length (effects x) ≤ k)%nat.

(** The row of a request that was let in with [g], in tables that were [db]. *)
Definition charged (x : Exchange) (g : Endpoint.t * string * PricingSnapshot.t) (db db' : Ledger) (row : Row.t) : Prop :=
  usage_records db' = <[request_id (env x) := row]> (usage_records db)
  ∧ Row.consumer_id row = ConsumerContext.consumer_id (consumer x) ∧ Row.model row = g.1.2
  ∧ price_row row = price_columns (Some g.2).

Lemma accepted_consistent inst db r : ledger_consistent db → usage_records db !! RequestRecord.request_id r = None →
  ledger_instant (RequestRecord.created_at r) → priced_ok r → ledger_consistent (accepted_ledger inst db r).
Proof. intros. apply idle_insert_consistent; [done | done | by apply accept_row_ok | apply accept_row_idle]. Qed.

Lemma accepted_charged inst db x g : charged x g db (accepted_ledger inst db (accepted x g)) (accept_row (accepted x g) inst).
Proof. destruct g as [[e m] prices]. unfold charged, accept_row, price_row. cbn. destruct prices. done. Qed.

Lemma finalized_charged inst db db' x g f :
  ledger_consistent db → usage_records db !! request_id (env x) = None → ledger_instant (now (env x)) → prices_ok g.2 →
  resolves (accepted x g) f → finalize_record (accepted_ledger inst db (accepted x g)) f inst = Ok db' → fits (usage_records db') →
  ledger_consistent db' ∧ ∃ row, charged x g db db' row
    ∧ Row.request_status row = RequestStatus.as_str (RequestRecord.request_status f)
    ∧ StoredRow.contribution (StoredRow.of_row row) = Some (Contribution.terminal f (BucketKey.from_record f)).
Proof.
  intros Hdb Hnew Hnow Hp Hres Happly Hfits. set (r := accepted x g) in *. set (db1 := accepted_ledger inst db r) in *.
  assert (RequestRecord.request_id r = request_id (env x) ∧ RequestRecord.created_at r = now (env x)
    ∧ RequestRecord.consumer_id r = ConsumerContext.consumer_id (consumer x) ∧ RequestRecord.model r = g.1.2
    ∧ RequestRecord.pricing r = Some g.2) as (Ei & Ec & Eo & Em & Ep) by (unfold r; by destruct g as [[? ?] ?]).
  assert (ledger_consistent db1) as Hdb1.
  { apply accepted_consistent; [done | by rewrite Ei | by rewrite Ec |]. intros s. rewrite Ep. by intros [= <-]. }
  assert (usage_records db1 !! RequestRecord.request_id f = Some (accept_row r inst)) as Hrow
    by (rewrite (res_id _ _ Hres); apply lookup_insert_eq).
  assert (ledger_instant (RequestRecord.created_at r)) as Hi by (by rewrite Ec).
  assert (record_ok f) as Hf by exact (resolves_record_ok r f Hi Hres).
  assert (of_request db1 f) as Hof.
  { intros r'. rewrite Hrow. intros [= <-]. by apply accept_row_bucket, Hres. }
  split; [by eapply finalize_consistent |]. apply finalize_record_Ok in Happly as (b & Hb & _ & Er & _).
  destruct (final_row_contribution _ f b inst Hf Hb Hof) as (Hct & _ & _).
  unfold final_row in Er, Hct. rewrite Hrow in Er, Hct. rewrite (res_id _ _ Hres) in Er.
  destruct (final_row_of_accept r f b inst (res_same _ _ Hres)) as (E1 & E2 & E3 & E4).
  exists (updated_row f b (accept_row r inst)). unfold charged. rewrite <- Eo, <- Em, <- Ep. split_and!; try done.
  rewrite Er, <- Ei. apply insert_insert_eq.
Qed.

(** The first [k] effects of a request that is let in. *)
Lemma effects_prefix inst db x g k :
  exchange_clock x → usage_records db !! request_id (env x) = None → prices_ok g.2 →
  exchange_gate x = Some g → accept_result (env x) = Ok () →
  (apply_effects inst db (take (S k) (effects x)) = Ok (accepted_ledger inst db (accepted x g)) ∧ ¬ ended x (S k))
  ∨ ∃ f, resolves (accepted x g) f
      ∧ apply_effects inst db (take (S k) (effects x)) = finalize_record (accepted_ledger inst db (accepted x g)) f inst.
Proof.
  intros Hclock Hnew Hprices Hgate Haccept.
  assert (priced_ok (accepted x g)) as Hp by (destruct g as [[e m] prices]; intros s Es; by injection Es as <-).
  assert (usage_records db !! RequestRecord.request_id (accepted x g) = None) as Hnew' by (by destruct g as [[? ?] ?]).
  destruct (effects_gated x _ Hclock Hgate Haccept) as (sent & tail & E & Hsent & Htail). unfold ended. rewrite E. cbn [take].
  assert (∀ j, ∀ e, e ∈ take j sent → ∃ req, e = Send req) as Hcut by (intros j e He; apply elem_of_take in He as (? & ?%list_elem_of_lookup_2 & _); auto).
  rewrite firstn_app, apply_accepted by (done || apply Hcut). destruct Htail as [[-> Ho]|(f & -> & Hres)].
  { left. rewrite firstn_nil. split; [done | tauto]. }
  unfold finalize. cbn [length]. rewrite length_app. destruct (k - length sent)%nat as [|j] eqn:Ek.
  { left. split; [done |]. cbn [length]. lia. }
  cbn [take apply_effects apply_effect]. destruct (finalize_result (env x)) as [[]|e].
  - right. exists f. split; [done |]. cbn. rewrite firstn_nil. by destruct (finalize_record _ _ _).
  - left. split; [by destruct j as [|[|j]] | intros (_ & [=] & _)].
Qed.

Lemma refused_prefix inst db x k :
  exchange_gate x = None ∨ is_ok (accept_result (env x)) = false → apply_effects inst db (take k (effects x)) = Ok db.
Proof.
  intros Hx. destruct (exchange_gate x) as [g|] eqn:Eg.
  - destruct Hx as [[=]|Ha]. destruct (accept_result (env x)) as [|e] eqn:Ea; [done |].
    rewrite (effects_refused x g e) by done. by destruct k as [|[|[|k]]].
  - rewrite <- (app_nil_r (take k (effects x))), apply_sends; [done |].
    intros e He. eapply effects_ungated; [done | apply elem_of_take in He as (? & ?%list_elem_of_lookup_2 & _); done].
Qed.


(** ** Many requests through one writer *)

(** What the writes of a request look like. *)
Lemma writes_cases ack x p :
  exchange_clock x → p ∈ writes ack x →
  ∃ g, exchange_gate x = Some g
    ∧ (is_accept p (accepted x g) ∨ ∃ f, is_finalize p f ∧ resolves (accepted x g) f).
Proof.
  intros Hc Hp. destruct (exchange_gate x) as [g|] eqn:Eg; [| by rewrite ungated_writes in Hp; [apply elem_of_nil in Hp |]].
  exists g. split; [done |]. unfold writes in Hp. apply list_elem_of_omap in Hp as (e & He & Hpe).
  destruct (accept_result (env x)) as [[]|err] eqn:Ea.
  - destruct (effects_gated x g Hc Eg Ea) as (sent & tail & E & Hsent & Htail). rewrite E in He.
    apply elem_of_cons in He as [->|He]; [left; by injection Hpe as <- |].
    apply elem_of_app in He as [He|He]; [by destruct (Hsent e He) as [req ->] |].
    destruct Htail as [[-> _]|(f & -> & Hres)]; [by apply elem_of_nil in He |].
    unfold finalize in He. apply elem_of_cons in He as [->|He].
    { right. exists f. injection Hpe as <-. done. }
    destruct (is_ok _); [by apply elem_of_nil in He |]. apply list_elem_of_singleton in He as ->. done.
  - rewrite (effects_refused x g err) in He by done.
    apply elem_of_cons in He as [->|He]; [left; by injection Hpe as <- |].
    apply list_elem_of_singleton in He as ->. done.
Qed.

Lemma proxy_writes_coherent (xs : list Exchange) (acks : Exchange → nat) :
  (∀ x y, x ∈ xs → y ∈ xs → request_id (env x) = request_id (env y) → x = y) →
  (∀ x, x ∈ xs → exchange_clock x ∧ ∀ e m prices, exchange_gate x = Some (e, m, prices) → prices_ok prices) →
  coherent (xs ≫= λ x, writes (acks x) x).
Proof.
  intros Hids Hxs. split.
  - intros p a Hp [Ho Hr]. apply list_elem_of_bind in Hp as (x & Hp & Hx). destruct (Hxs x Hx) as [Hc Hpr].
    destruct (writes_cases _ _ _ Hc Hp) as ([[e m] prices] & Hg & [[_ E]|(f & [E _] & _)]); [| congruence].
    rewrite Hr in E. injection E as ->. intros s [= <-]. by eapply Hpr.
  - intros p q a f Hp Hq [Hpo Hpr] [Hqo Hqr] Hid.
    apply list_elem_of_bind in Hp as (x & Hp & Hx), Hq as (y & Hq & Hy).
    destruct (writes_cases _ _ _ (proj1 (Hxs x Hx)) Hp) as (gx & Hgx & [[_ Ex]|(? & [E _] & _)]); [| congruence].
    destruct (writes_cases _ _ _ (proj1 (Hxs y Hy)) Hq) as (gy & Hgy & [[E _]|(f' & [_ Ef] & Hres)]); [congruence |].
    rewrite Hpr in Ex. injection Ex as ->. rewrite Hqr in Ef. injection Ef as ->.
    assert (x = y) as ->.
    { apply Hids; [done | done |]. rewrite (res_id _ _ Hres) in Hid. by destruct gx as [[? ?] ?], gy as [[? ?] ?]. }
    rewrite Hgx in Hgy. injection Hgy as ->. apply Hres.
Qed.

(** The proxy keeps the writer's promise. Requests with ids of their own and
    prices the schema accepts, whatever their upstreams, clients and clocks do
    and however their writes interleave in the writer's queue: the ledger's
    tables are exactly what writing the acknowledged accepts and finalizes one
    by one, in the order they were queued, produces. *)
Theorem requests_through_the_writer (config : LedgerWriterConfig.t) (db : Ledger) (xs : list Exchange)
    (acks_of : Exchange → nat) (sent : list PendingWrite.t) (t : Task)
    (Hids : ∀ x y, x ∈ xs → y ∈ xs → request_id (env x) = request_id (env y) → x = y)
    (Hxs : ∀ x, x ∈ xs → exchange_clock x ∧ ∀ e m prices, exchange_gate x = Some (e, m, prices) → prices_ok prices)
    (Hsent : sent ⊆ (xs ≫= λ x, writes (acks_of x) x))
    (Hreach : reachable config db sent t) :
  coherent sent
  ∧ replay (LedgerWriterConfig.instance_id config) db (acknowledged (acks t)) = Some (ledger t).
Proof.
  assert (coherent sent) as Hc by (eapply coherent_subset; [by apply proxy_writes_coherent | done]).
  split; [done |]. by eapply inv_log, Hc; apply reachable_inv.
Qed.
End Accounting.

(** ** An exchange whose final record is known *)
Section Finalized.
Context `{TimeCrate, !TimeLaws, SerdeDocs, !SerdeJsonLaws, Memchr, !MemchrLaws, Http, RusqliteLaws}.

Definition finalized (e : Effect) : option RequestRecord.t := match e with Finalize f _ => Some f | _ => None end.

(** A record as the list of its fields. *)
Definition fields (r : RequestRecord.t) :=
  (RequestRecord.request_id r, RequestRecord.created_at r, RequestRecord.consumer_id r, RequestRecord.model r,
   RequestRecord.endpoint r, RequestRecord.streaming r, RequestRecord.http_status r, RequestRecord.request_status r,
   RequestRecord.usage r, RequestRecord.ttft_ms r, RequestRecord.duration_ms r, RequestRecord.error_message r,
   RequestRecord.error_body r, RequestRecord.pricing r).

Lemma fields_inj r s : fields r = fields s → r = s.
Proof. destruct r, s. unfold fields. cbn. intros E. by simplify_eq. Qed.

Lemma sends_finalize_nothing (l : list Effect) : (∀ e, e ∈ l → ∃ req, e = Send req) → omap finalized l = [].
Proof.
  induction l as [|e l IH]; intros Hl; [done |]. destruct (Hl e ltac:(by left)) as [req ->]. cbn.
  apply IH. intros y Hy. apply Hl. by right.
Qed.

(** It accepts, sends and finalizes. *)
Lemma finalized_effects x g f :
  exchange_clock x → exchange_gate x = Some g → accept_result (env x) = Ok () → ¬ open_ended x →
  fields <$> omap finalized (effects x) = [fields f] →
  ∃ sent, effects x = Accept (accepted x g) (Ok ()) :: sent ++ finalize (env x) f ∧ ∀ e, e ∈ sent → ∃ req, e = Send req.
Proof.
  intros Hc Hg Ha Ho Hf. destruct (effects_gated x g Hc Hg Ha) as (sent & tail & E & Hs & Ht).
  exists sent. split; [| done]. destruct Ht as [[_ ?]|(f' & -> & _)]; [done |]. rewrite E in *.
  enough (f' = f) as -> by done.
  cbn [omap list_omap finalized] in Hf. rewrite omap_app, sends_finalize_nothing in Hf by done.
  unfold finalize in Hf. cbn [omap list_omap finalized app] in Hf.
  apply fields_inj. exact (inj Some _ _ (f_equal head Hf)).
Qed.

Lemma finalized_writes ack x g f :
  exchange_clock x → exchange_gate x = Some g → accept_result (env x) = Ok () → ¬ open_ended x →
  fields <$> omap finalized (effects x) = [fields f] →
  writes ack x = [PendingWrite.mk WriteOp.Accept (Some (accepted x g)) ack; PendingWrite.mk WriteOp.Finalize (Some f) ack].
Proof.
  intros Hc Hg Ha Ho Hf. destruct (finalized_effects x g f Hc Hg Ha Ho Hf) as (sent & E & Hs).
  unfold writes. rewrite E. cbn [omap list_omap pending]. rewrite omap_app, (sends_queue_nothing ack sent Hs).
  unfold finalize. by destruct (is_ok _).
Qed.
End Finalized.

(** ** At a concrete exchange *)
Definition exchange_1 : Exchange :=
  mkExchange env_1 caller_1 "POST" "/v1/responses?beta=1" headers_1 request_body_1 [Drop 400].
Definition accepted_1 : RequestRecord.t := accepted exchange_1 gate_1.
Definition completed_1 : RequestRecord.t :=
  completed_record env_1 accepted_1 200 (Usage.new (Some 100) (Some 20) None).
Definition completed_bound_1 : Bound := mkBound (Some 100) (Some 20) None None.
Definition completed_row_1 : Row.t := updated_row completed_1 completed_bound_1 (accept_row accepted_1 None).
Definition after_1 : Ledger :=
  mkLedger (<["req-9"%string := completed_row_1]> ∅)
    (Contribution.add (Contribution.terminal completed_1 (BucketKey.from_record completed_1)) ∅).

Lemma exchange_1_finalized : fields <$> omap finalized (effects exchange_1) = [fields completed_1].
Proof. by vm_compute. Qed.

Lemma exchange_1_clock : exchange_clock exchange_1.
Proof. split; [| constructor; [| constructor]]; unfold clock, event_clock; cbn; unfold clock; ranges; lia. Qed.

Lemma exchange_1_gate : exchange_gate exchange_1 = Some gate_1.
Proof. exact gate_1_open. Qed.

Lemma exchange_1_closed : ¬ open_ended exchange_1.
Proof. intros [(s & h & b & E & Hb)|E]; [injection E as _ _ <-; done | done]. Qed.

Lemma exchange_1_effects :
  ∃ sent, effects exchange_1 = Accept accepted_1 (Ok ()) :: sent ++ finalize env_1 completed_1
    ∧ ∀ e, e ∈ sent → ∃ req, e = Send req.
Proof.
  exact (finalized_effects exchange_1 gate_1 completed_1 exchange_1_clock exchange_1_gate eq_refl exchange_1_closed exchange_1_finalized).
Qed.

Lemma exchange_1_applied : apply_effects None ledger_0 (effects exchange_1) = Ok after_1.
Proof.
  destruct exchange_1_effects as (sent & -> & Hs).
  rewrite apply_accepted, apply_finalize; [| intros s Es; injection Es as <-; cbn; ranges; lia | exact (lookup_empty _) | done].
  apply finalize_record_Ok. exists completed_bound_1. cbn [usage_records usage_hourly accepted_ledger after_1].
  unfold final_row. change (RequestRecord.request_id completed_1) with "req-9"%string.
  change (RequestRecord.request_id (accepted exchange_1 gate_1)) with "req-9"%string.
  rewrite lookup_insert_eq, insert_insert_eq, accept_row_idle. by split_and!.
Qed.

Lemma after_1_fits : fits (usage_records after_1).
Proof. apply fits_singleton; intros []; vm_compute; congruence. Qed.

Lemma gate_1_priced : prices_ok prices_1.
Proof. cbn. ranges. lia. Qed.

(** A caller that gives up before the response has begun ends the handler with
    the row in flight: only a streamed response has a guard. *)
Lemma abandoned_request_stays_in_flight :
  ∃ req, take 2 (effects exchange_1) = [Accept accepted_1 (Ok ()); Send req]
    ∧ apply_effects None ledger_0 (take 2 (effects exchange_1)) = Ok (accepted_ledger None ledger_0 accepted_1)
    ∧ Row.request_status (accept_row accepted_1 None) = "in_flight"%string.
Proof.
  destruct exchange_1_effects as (sent & E & Hs).
  assert (existsb (λ e, match e with Send _ => true | _ => false end) (take 2 (effects exchange_1)) = true) as Hsend by (by vm_compute).
  rewrite E in Hsend |- *. destruct sent as [|y sent]; [done |]. destruct (Hs y ltac:(by left)) as [req ->].
  exists req. split; [done |]. split; [| by vm_compute].
  apply (apply_accepted None ledger_0 accepted_1 [Send req] []); [| exact (lookup_empty _) |].
  - intros s Es. injection Es as <-. exact gate_1_priced.
  - intros e ->%list_elem_of_singleton. by eexists.
Qed.

Lemma exchange_1_cut : apply_effects None ledger_0 (take 2 (effects exchange_1)) = Ok (accepted_ledger None ledger_0 accepted_1).
Proof. destruct abandoned_request_stays_in_flight as (_ & _ & E & _). exact E. Qed.

Lemma accepted_1_fits : fits (usage_records (accepted_ledger None ledger_0 accepted_1)).
Proof. apply fits_singleton; intros []; vm_compute; congruence. Qed.

Lemma exchange_1_prices g : exchange_gate exchange_1 = Some g → prices_ok g.2.
Proof. rewrite exchange_1_gate. intros E. injection E as <-. exact gate_1_priced. Qed.

Lemma exchange_1_all : apply_effects None ledger_0 (take 9 (effects exchange_1)) = Ok after_1.
Proof.
  assert (length (effects exchange_1) <= 9)%nat as Hl by (apply Nat.leb_le; vm_compute; reflexivity).
  rewrite (firstn_all2 _ Hl). exact exchange_1_applied.
Qed.

Lemma only_row (id : string) (a b : Row.t) : (<[id := a]> ∅ : gmap string Row.t) = <[id := b]> ∅ → a = b.
Proof. intros E. apply (f_equal (lookup id)) in E. rewrite !lookup_insert_eq in E. by injection E. Qed.


Lemma exchanges_1_distinct (x y : Exchange) :
  x ∈ [exchange_1] → y ∈ [exchange_1] → request_id (env x) = request_id (env y) → x = y.
Proof. intros ->%list_elem_of_singleton ->%list_elem_of_singleton. done. Qed.

Lemma exchanges_1_ok (x : Exchange) :
  x ∈ [exchange_1] →
  exchange_clock x ∧ ∀ e m prices, exchange_gate x = Some (e, m, prices) → prices_ok prices.
Proof.
  intros ->%list_elem_of_singleton. split; [exact exchange_1_clock |]. intros e m p E.
  rewrite exchange_1_gate in E. injection E as _ _ <-. exact gate_1_priced.
Qed.

Definition queued_1 : list PendingWrite.t := [PendingWrite.mk WriteOp.Accept (Some accepted_1) 7].

Lemma queued_1_written : queued_1 ⊆ ([exchange_1] ≫= λ x, writes 7 x).
Proof.
  cbn. rewrite app_nil_r. unfold writes.
  destruct (effects_gated exchange_1 gate_1 exchange_1_clock exchange_1_gate eq_refl) as (sent & tail & -> & _).
  intros p ->%list_elem_of_singleton. by left.
Qed.

Definition task_1 : Task := with_channel (with_channel (new_task ledger_0) [] 1) queued_1 0.

Lemma task_1_reachable : reachable LedgerWriterConfig.default_config ledger_0 queued_1 task_1.
Proof.
  pose (cfg := LedgerWriterConfig.default_config). fold cfg.
  eapply reach_step.
  - eapply reach_step; [apply reach_new | by apply (step_clone cfg [] (new_task ledger_0))].
  - apply (step_send cfg [] (with_channel (new_task ledger_0) [] 1) _ 0); [done | cbn; lia | done].
Qed.

Lemma requests_through_the_writer_witness :
  queued_1 ≠ [] ∧ coherent queued_1 ∧ replay None ledger_0 (acknowledged (acks task_1)) = Some (ledger task_1).
Proof.
  split; [done |].
  exact (requests_through_the_writer LedgerWriterConfig.default_config ledger_0 [exchange_1] (λ _, 7%nat) queued_1 task_1
    exchanges_1_distinct exchanges_1_ok queued_1_written task_1_reachable).
Defined.

