(* ===== verification/Recovery.v ===== *)
(** * Recovery of stranded requests ([src/src/ledger/recovery.rs], [instance.rs])

    A row left in flight is resolved to [interrupted] only when its owner is
    known to be gone, or is unknowable and the row is old. *)

From stdpp Require Import base strings list gmap numbers fin_maps.
From Stdlib Require Import ZArith Lia.
From S2P Require Import Prelude TimeLib Calendar Timefmt Pricing LedgerTypes Sql Rollup Writer.

Local Open Scope Z_scope.

(** ** Liveness *)

Module Liveness.
Inductive t : Type := Alive | Dead | Unknown.

#[global] Instance eq_dec : EqDecision t.
Proof. solve_decision. Defined.

Definition is_recoverable_now (self : t) : bool := match self with Dead => true | _ => false end.
Definition is_recoverable_when_old (self : t) : bool := match self with Unknown => true | _ => false end.
End Liveness.

(** What the file system answers about an instance's lock file: it is not
    there, it cannot be opened, the lock was taken ([true]) or is held
    ([false]), or locking fails. *)
Inductive LockFile : Type :=
  | NotFound | OpenFailed | TryLock (acquired : bool) | LockFailed.

Definition probe (file : LockFile) : Liveness.t :=
  match file with
  | NotFound => Liveness.Dead
  | OpenFailed => Liveness.Unknown
  | TryLock true => Liveness.Dead
  | TryLock false => Liveness.Alive
  | LockFailed => Liveness.Unknown
  end.

(** ** A recovery pass *)

Module RecoveryReport.
Record t : Type := mk { recovered : Z; instances_swept : Z }.

Definition is_empty (self : t) : bool := (recovered self =? 0) && (instances_swept self =? 0).
End RecoveryReport.

Definition INTERRUPT_REASON : string := "owning process is gone; request was in flight".

Section Recovery.
Context `{TimeCrate}.

Record RecoveryContext : Type := mkContext {
  ctx_instance_id : string;
  (* the lock files beside the database *)
  lock_file : string → LockFile;
  (* in whole seconds *)
  unknown_owner_grace : Z;
  now : OffsetDateTime }.

Definition old_before (ctx : RecoveryContext) : string :=
  format_ts (odt_add (now ctx) (- (unknown_owner_grace ctx * NS_PER_SEC))).

(** [ledger_instances] and [ledger_meta] beside the two usage tables. *)
Record Database : Type := mkDatabase {
  tables : Ledger;
  ledger_instances : gset string;
  ledger_meta : gmap string string }.

Definition in_flight (r : Row.t) : bool := String.eqb (Row.request_status r) "in_flight".

(** The owners on in-flight rows. *)
Definition owners (records : Records) : gset string :=
  list_to_set (omap (λ p : string * Row.t, if in_flight p.2 then Row.instance_id p.2 else None)
                    (map_to_list records)).

Record DeadInstances : Type := mkDead { confirmed : list string; unknown : list string }.

Definition candidates (ctx : RecoveryContext) (db : Database) : list string :=
  elements ((ledger_instances db ∪ owners (usage_records (tables db))) ∖ {[ ctx_instance_id ctx ]}).

Definition classify_candidates (ctx : RecoveryContext) (db : Database) : DeadInstances :=
  let verdict c := probe (lock_file ctx c) in
  mkDead (filter (λ c, verdict c = Liveness.Dead) (candidates ctx db))
         (filter (λ c, verdict c = Liveness.Unknown) (candidates ctx db)).

(** [_pp_recoverable]: owner to [require_old]. *)
Definition stage_recoverable (dead : DeadInstances) : gmap string Z :=
  foldl (λ m id, <[id := 1]> m) (foldl (λ m id, <[id := 0]> m) ∅ (confirmed dead)) (unknown dead).

(** [STRANDED_PREDICATE]. *)
Definition stranded (recoverable : gmap string Z) (cutoff : string) (r : Row.t) : bool :=
  in_flight r &&
  match Row.instance_id r with
  | Some id =>
      match recoverable !! id with
      | Some require_old => (require_old =? 0) || str_ltb (Row.created_at r) cutoff
      | None => false
      end
  | None => str_ltb (Row.created_at r) cutoff
  end.

(** The contribution added for a stranded row. *)
Definition stranded_contribution (r : Row.t) : Contribution.t :=
  Contribution.mk
    (BucketKey.mk (format_hour_str (Row.created_at r)) (Row.consumer_id r) (Row.model r)
       (Row.endpoint r) (Row.streaming r))
    (Contribution.interrupted (Row.duration_ms r)).

(** The [UPDATE]. *)
Definition interrupt_row (r : Row.t) : Row.t :=
  Row.mk (Row.created_at r) (Row.consumer_id r) (Row.model r) (Row.endpoint r) (Row.streaming r)
    (Row.http_status r) "interrupted" (Row.instance_id r) (Row.input_tokens r) (Row.output_tokens r)
    (Row.cached_tokens r) (Row.ttft_ms r) (Row.duration_ms r) "unavailable" (Some INTERRUPT_REASON) None
    (Row.input_price_snapshot r) (Row.cached_input_price_snapshot r) (Row.output_price_snapshot r).

Definition select_stranded (recoverable : gmap string Z) (cutoff : string) (records : Records)
    : list (string * Row.t) :=
  filter (λ p, stranded recoverable cutoff p.2 = true) (map_to_list records).

Definition recover_in_tx (ctx : RecoveryContext) (db : Database)
    : Database * RecoveryReport.t * list string :=
  let dead := classify_candidates ctx db in
  let recoverable := stage_recoverable dead in
  let cutoff := old_before ctx in
  let records := usage_records (tables db) in
  let rows := select_stranded recoverable cutoff records in
  let hourly' := foldr (λ p h, Contribution.add (stranded_contribution p.2) h) (usage_hourly (tables db)) rows in
  let records' := (λ r, if stranded recoverable cutoff r then interrupt_row r else r) <$> records in
  let swept := filter (λ id, id ∈ ledger_instances db) (confirmed dead) in
  (mkDatabase (mkLedger records' hourly')
     (ledger_instances db ∖ list_to_set (confirmed dead)) (ledger_meta db),
   RecoveryReport.mk (Z.of_nat (length rows)) (Z.of_nat (length swept)),
   confirmed dead).

Definition recover_in_flight (ctx : RecoveryContext) (db : Database) : Database * RecoveryReport.t :=
  let '(db', report, _) := recover_in_tx ctx db in
  if RecoveryReport.is_empty report then (db', report)
  else (mkDatabase (tables db') (ledger_instances db')
          (<["last_recovery_run"%string := format_ts (now ctx)]> (ledger_meta db')), report).

(** [count_in_flight], and the two sides of [check_raw_rollup_consistency]. *)
Definition count_in_flight (records : Records) : Z :=
  Z.of_nat (length (filter (λ p, in_flight p.2 = true) (map_to_list records))).
End Recovery.

(** ** Who is recovered *)
Section Verdict.
Context `{TimeCrate}.

Lemma foldl_insert_lookup (l : list string) (v : Z) (m : gmap string Z) id :
  foldl (λ m id, <[id := v]> m) m l !! id = if decide (id ∈ l) then Some v else m !! id.
Proof.
  revert m. induction l as [|x l IH]; intros m; cbn [foldl].
  - rewrite decide_False by (by intros ?%elem_of_nil). done.
  - rewrite IH. destruct (decide (id ∈ l)) as [Hin|Hni].
    + rewrite decide_True by (by apply elem_of_cons; right). done.
    + destruct (decide (id = x)) as [->|Hne].
      * rewrite lookup_insert_eq, decide_True by (by apply elem_of_cons; left). done.
      * rewrite lookup_insert_ne by done. rewrite decide_False; [done |]. by intros [?|?]%elem_of_cons.
Qed.

Lemma stage_recoverable_lookup dead id :
  stage_recoverable dead !! id =
    if decide (id ∈ unknown dead) then Some 1
    else if decide (id ∈ confirmed dead) then Some 0 else None.
Proof. unfold stage_recoverable. by rewrite !foldl_insert_lookup, lookup_empty. Qed.

Lemma candidates_spec ctx db o i r :
  usage_records (tables db) !! i = Some r → in_flight r = true → Row.instance_id r = Some o →
  (o ∈ candidates ctx db ↔ o ≠ ctx_instance_id ctx).
Proof.
  intros Hi Hf Ho. unfold candidates. rewrite elem_of_elements, elem_of_difference, elem_of_singleton, elem_of_union.
  split; [tauto |]. intros Hne. split; [right | done].
  unfold owners. apply elem_of_list_to_set, list_elem_of_omap. exists (i, r). split; [by apply elem_of_map_to_list |].
  cbn. by rewrite Hf.
Qed.

(** What the lock of a row's owner says about it. *)
Definition verdict (ctx : RecoveryContext) (r : Row.t) : bool :=
  match Row.instance_id r with
  | None => str_ltb (Row.created_at r) (old_before ctx)
  | Some o =>
      if decide (o = ctx_instance_id ctx) then false
      else match probe (lock_file ctx o) with
           | Liveness.Alive => false
           | Liveness.Dead => true
           | Liveness.Unknown => str_ltb (Row.created_at r) (old_before ctx)
           end
  end.

Lemma stranded_verdict ctx db i r :
  usage_records (tables db) !! i = Some r → in_flight r = true →
  stranded (stage_recoverable (classify_candidates ctx db)) (old_before ctx) r = verdict ctx r.
Proof.
  intros Hi Hf. unfold stranded, verdict. rewrite Hf. cbn [andb].
  destruct (Row.instance_id r) as [o|] eqn:Eo; [| done].
  pose proof (candidates_spec ctx db o i r Hi Hf Eo) as Hc.
  rewrite stage_recoverable_lookup. unfold classify_candidates. cbn [unknown confirmed].
  destruct (decide (o = ctx_instance_id ctx)) as [Eself|Hne].
  - rewrite !decide_False by (rewrite list_elem_of_filter; tauto). done.
  - assert (o ∈ candidates ctx db) as Hin by tauto.
    destruct (probe (lock_file ctx o)) eqn:Ep.
    + rewrite !decide_False by (rewrite list_elem_of_filter, Ep; by intros [? _]). done.
    + rewrite decide_False by (rewrite list_elem_of_filter, Ep; by intros [? _]).
      rewrite decide_True by (by rewrite list_elem_of_filter, Ep). done.
    + rewrite decide_True by (by rewrite list_elem_of_filter, Ep). done.
Qed.

Lemma recover_tables ctx db :
  let recoverable := stage_recoverable (classify_candidates ctx db) in
  let cutoff := old_before ctx in
  let records := usage_records (tables db) in
  let rows := select_stranded recoverable cutoff records in
  tables (recover_in_flight ctx db).1
    = mkLedger ((λ r, if stranded recoverable cutoff r then interrupt_row r else r) <$> records)
        (foldr (λ p h, Contribution.add (stranded_contribution p.2) h) (usage_hourly (tables db)) rows)
  ∧ RecoveryReport.recovered (recover_in_flight ctx db).2 = Z.of_nat (length rows).
Proof. cbv zeta. unfold recover_in_flight, recover_in_tx. by destruct (RecoveryReport.is_empty _). Qed.

(** Recovery resolves exactly the right requests. A row that is not in
    flight is untouched; an in-flight row becomes [interrupted] at once when
    its owner's lock is free or gone, only once it is older than the grace
    period when its owner is unrecorded or cannot be probed, and never when its
    owner holds its lock or is the instance running the pass. *)
Theorem recover_resolves (ctx : RecoveryContext) (db : Database) (i : string) (r : Row.t)
    (Hi : usage_records (tables db) !! i = Some r) :
  usage_records (tables (recover_in_flight ctx db).1) !! i =
    Some (if in_flight r && verdict ctx r then interrupt_row r else r).
Proof.
  rewrite (proj1 (recover_tables ctx db)). cbn [usage_records].
  rewrite lookup_fmap, Hi. cbn [fmap option_fmap option_map]. f_equal. destruct (in_flight r) eqn:Hf; cbn [andb].
  - by rewrite (stranded_verdict ctx db i r Hi Hf).
  - unfold stranded. by rewrite Hf.
Qed.
End Verdict.

(** ** The rollup after a pass *)
Section Agreement.
Context `{TimeCrate, !TimeLaws}.

(** An in-flight row has no figures yet: an accept writes none. *)
Definition in_flight_blank (records : Records) : Prop :=
  map_Forall (λ _ r, in_flight r = true →
    Row.input_tokens r = None ∧ Row.output_tokens r = None ∧ Row.cached_tokens r = None ∧ Row.ttft_ms r = None)
    records.

Lemma interrupt_row_contribution r :
  Row.input_tokens r = None → Row.output_tokens r = None → Row.cached_tokens r = None → Row.ttft_ms r = None →
  StoredRow.contribution (StoredRow.of_row (interrupt_row r)) = Some (stranded_contribution r).
Proof. intros E1 E2 E3 E4. unfold StoredRow.contribution, StoredRow.of_row. cbn. by rewrite E1, E2, E3, E4. Qed.

Lemma in_flight_idle r : in_flight r = true → StoredRow.contribution (StoredRow.of_row r) = None.
Proof. unfold in_flight. intros E%String.eqb_eq. unfold StoredRow.contribution, StoredRow.of_row. by rewrite E. Qed.

(** The raw table after the rows [l] have been interrupted. *)
Definition interrupt_all (l : list (string * Row.t)) (records : Records) : Records :=
  foldr (λ p m, <[p.1 := interrupt_row p.2]> m) records l.

Lemma interrupt_all_lookup_ne l records i : i ∉ l.*1 → interrupt_all l records !! i = records !! i.
Proof.
  induction l as [|[j r] l IH]; [done |]. cbn. intros Hni. rewrite lookup_insert_ne by set_solver. apply IH. set_solver.
Qed.

Lemma interrupt_all_agree l records h :
  NoDup l.*1 → (∀ i r, (i, r) ∈ l → records !! i = Some r ∧ in_flight r = true) →
  in_flight_blank records → rows_ok records → fits (interrupt_all l records) → agree records h →
  agree (interrupt_all l records) (foldr (λ p h, Contribution.add (stranded_contribution p.2) h) h l)
  ∧ rows_ok (interrupt_all l records).
Proof.
  intros Hnd Hl Hblank Hok Hf Ha. revert Hnd Hl Hf.
  induction l as [|[i r] l IH]; intros Hnd Hl Hf; [done |]. cbn in Hnd. apply NoDup_cons in Hnd as [Hni Hnd].
  cbn [interrupt_all foldr fst snd] in *. fold (interrupt_all l records) in *.
  destruct (Hl i r ltac:(set_solver)) as [Hi Hfl]. destruct (Hblank i r Hi Hfl) as (E1 & E2 & E3 & E4).
  pose proof (interrupt_row_contribution r E1 E2 E3 E4) as Hct.
  assert (interrupt_all l records !! i = Some r) as Hi' by (by rewrite interrupt_all_lookup_ne).
  assert (row_ok (interrupt_row r)) as Hr.
  { intros c. specialize (Hok i r Hi c). destruct c; cbn in *; rewrite ?E1, ?E2, ?E3, ?E4 in *; done. }
  assert (∀ k c, total (delete i (interrupt_all l records)) k c = total (interrupt_all l records) k c) as Et.
  { intros k c. eapply total_delete_idle; [exact Hi' | by apply in_flight_idle]. }
  assert (fits (interrupt_all l records)) as Hf'.
  { intros k c. specialize (Hf k c). rewrite <- insert_delete_eq, total_insert, Et in Hf by apply lookup_delete_eq.
    pose proof (amount_nonneg (interrupt_row r) k c Hr). lia. }
  destruct (IH Hnd ltac:(set_solver) Hf') as [Ha' Hok'].
  assert (rows_ok (<[i := interrupt_row r]> (interrupt_all l records))) as Hok2 by (by apply map_Forall_insert_2).
  split; [| done]. rewrite <- insert_delete_eq. apply add_agree;
    [apply lookup_delete_eq | done | by rewrite insert_delete_eq | by rewrite insert_delete_eq |].
  by eapply agree_same_totals.
Qed.

Lemma recovered_records recoverable cutoff (records : Records) :
  (λ r, if stranded recoverable cutoff r then interrupt_row r else r) <$> records
    = interrupt_all (select_stranded recoverable cutoff records) records.
Proof.
  apply map_eq. intros i. rewrite lookup_fmap.
  assert (NoDup (select_stranded recoverable cutoff records).*1) as Hnd.
  { unfold select_stranded. eapply sublist_NoDup; [apply (NoDup_fst_map_to_list records) |].
    apply fmap_sublist, sublist_filter. }
  assert (∀ j r, (j, r) ∈ select_stranded recoverable cutoff records ↔
    records !! j = Some r ∧ stranded recoverable cutoff r = true) as Hin.
  { intros j r. unfold select_stranded. rewrite list_elem_of_filter, elem_of_map_to_list. cbn. tauto. }
  destruct (records !! i) as [r|] eqn:Ei; cbn.
  - destruct (stranded recoverable cutoff r) eqn:Es.
    + assert ((i, r) ∈ select_stranded recoverable cutoff records) as Hr by (by apply Hin).
      symmetry. clear Hin Es. induction (select_stranded recoverable cutoff records) as [|[j s] l IH]; [by apply elem_of_nil in Hr |].
      cbn in Hnd |- *. apply NoDup_cons in Hnd as [Hni Hnd]. apply elem_of_cons in Hr as [[= <- <-]|Hr].
      * by rewrite lookup_insert_eq.
      * rewrite lookup_insert_ne; [by apply IH |]. intros ->. apply Hni. apply list_elem_of_fmap. by exists (i, r).
    + rewrite interrupt_all_lookup_ne; [done |]. intros ([j s] & -> & Hr)%list_elem_of_fmap.
      apply Hin in Hr as [Hj Hs]. cbn in Ei. congruence.
  - rewrite interrupt_all_lookup_ne; [done |]. intros ([j s] & -> & Hr)%list_elem_of_fmap.
    apply Hin in Hr as [Hj Hs]. cbn in Ei. congruence.
Qed.

(** Counting rows of the raw table. *)
Definition count_rows (P : Row.t → bool) (records : Records) : nat :=
  length (filter (λ p, P p.2 = true) (map_to_list records)).

Lemma count_rows_insert P i r records :
  records !! i = None → count_rows P (<[i := r]> records) = ((if P r then 1 else 0) + count_rows P records)%nat.
Proof.
  intros Hi. unfold count_rows. rewrite (map_to_list_insert records i r) by done. rewrite filter_cons. cbn.
  by destruct (P r).
Qed.

Lemma count_interrupted f records :
  (∀ r, f r = true → in_flight r = true) →
  count_rows in_flight records
    = (count_rows f records + count_rows in_flight ((λ r, if f r then interrupt_row r else r) <$> records))%nat.
Proof.
  intros Hf. induction records as [|i r records Hi IH] using map_ind; [by rewrite fmap_empty |].
  rewrite fmap_insert, !count_rows_insert by (done || by rewrite lookup_fmap, Hi).
  rewrite IH. destruct (f r) eqn:E; [rewrite (Hf r E); cbn; lia |]. destruct (in_flight r); lia.
Qed.

(** Recovery keeps the rollup equal to the raw rows: each resolved
    request is counted once, as a failure without tokens, in the bucket it was
    accepted in, and the report counts the resolved rows. *)
Theorem recover_keeps_agreement (ctx : RecoveryContext) (db : Database)
    (Hdb : ledger_consistent (tables db)) (Hblank : in_flight_blank (usage_records (tables db)))
    (Hfits : fits (usage_records (tables (recover_in_flight ctx db).1))) :
  ledger_consistent (tables (recover_in_flight ctx db).1)
  ∧ RecoveryReport.recovered (recover_in_flight ctx db).2
    = count_in_flight (usage_records (tables db))
      - count_in_flight (usage_records (tables (recover_in_flight ctx db).1)).
Proof.
  set (recoverable := stage_recoverable (classify_candidates ctx db)).
  set (rows := select_stranded recoverable (old_before ctx) (usage_records (tables db))).
  assert (tables (recover_in_flight ctx db).1 = mkLedger (interrupt_all rows (usage_records (tables db)))
      (foldr (λ p h, Contribution.add (stranded_contribution p.2) h) (usage_hourly (tables db)) rows)
    ∧ RecoveryReport.recovered (recover_in_flight ctx db).2 = Z.of_nat (length rows)) as [Et Er].
  { pose proof (recover_tables ctx db) as Ht. cbv zeta in Ht. by rewrite recovered_records in Ht. }
  rewrite Et in *. cbn [usage_records usage_hourly] in *. destruct Hdb as (Hok & Hf & Ha). split.
  - destruct (interrupt_all_agree rows (usage_records (tables db)) (usage_hourly (tables db))) as [Ha' Hok'];
      try done.
    + unfold rows, select_stranded. eapply sublist_NoDup; [apply (NoDup_fst_map_to_list (usage_records (tables db))) |].
      apply fmap_sublist, sublist_filter.
    + intros i r. unfold rows, select_stranded. rewrite list_elem_of_filter, elem_of_map_to_list. cbn.
      intros [Hs Hi]. split; [done |]. unfold stranded in Hs. by apply andb_true_iff in Hs as [? _].
  - rewrite Er. unfold rows. rewrite <- recovered_records.
    pose proof (count_interrupted (stranded recoverable (old_before ctx)) (usage_records (tables db))
      ltac:(intros r; unfold stranded; by intros [? _]%andb_true_iff)) as Hc.
    unfold count_in_flight, count_rows, select_stranded in *. lia.
Qed.
End Agreement.

(** A request of instance i-1, whose lock file is gone, and the pass of i-2. *)
Definition stranded_row : Row.t := accept_row request_1 (Some "i-1"%string).
Definition stranded_db : Database :=
  mkDatabase (mkLedger (<["req-1"%string := stranded_row]> ∅) ∅) {[ "i-1"%string; "i-2"%string ]} ∅.
Definition context_2 : RecoveryContext := mkContext "i-2" (λ _, NotFound) 30 t2.

Lemma stranded_db_row : usage_records (tables stranded_db) !! "req-1"%string = Some stranded_row.
Proof. apply lookup_insert_eq. Qed.

Lemma recover_resolves_witness :
  usage_records (tables stranded_db) !! "req-1"%string = Some stranded_row
  ∧ usage_records (tables (recover_in_flight context_2 stranded_db).1) !! "req-1"%string
      = Some (interrupt_row stranded_row).
Proof.
  split; [exact stranded_db_row |].
  exact (recover_resolves context_2 stranded_db "req-1" stranded_row stranded_db_row).
Defined.

Lemma stranded_db_consistent : ledger_consistent (tables stranded_db).
Proof.
  apply idle_insert_consistent; [apply consistent_empty | apply lookup_empty | apply accept_row_ok | apply accept_row_idle].
Qed.

Lemma stranded_db_blank : in_flight_blank (usage_records (tables stranded_db)).
Proof. apply map_Forall_insert_2; [done | apply map_Forall_empty]. Qed.

Lemma stranded_db_fits : fits (usage_records (tables (recover_in_flight context_2 stranded_db).1)).
Proof.
  rewrite (proj1 (recover_tables context_2 stranded_db)). unfold stranded_db. cbn [usage_records tables].
  rewrite fmap_insert, fmap_empty. destruct (stranded _ _ _); apply fits_singleton.
  2, 4: intros []; vm_compute; congruence.
  all: intros []; vm_compute; congruence.
Qed.

Lemma recover_keeps_agreement_witness :
  ledger_consistent (tables stranded_db) ∧ in_flight_blank (usage_records (tables stranded_db))
  ∧ ledger_consistent (tables (recover_in_flight context_2 stranded_db).1).
Proof.
  split; [exact stranded_db_consistent |]. split; [exact stranded_db_blank |].
  exact (proj1 (recover_keeps_agreement context_2 stranded_db stranded_db_consistent stranded_db_blank stranded_db_fits)).
Defined.
