(* ===== verification/Registry.v ===== *)
(** * Who is running ([src/src/ledger/instance.rs])

    Every process takes an advisory lock on a file of its own beside the
    database and registers; the lock is how recovery tells a dead owner of
    requests from a live one. Starts, crashes, shutdowns and recovery passes of
    many processes interleave as the steps of [step]. *)

From stdpp Require Import base strings list gmap numbers fin_maps relations.
From Stdlib Require Import Ascii ZArith Lia.
From S2P Require Import Prelude Utf8 TimeLib Calendar Timefmt LedgerTypes Sql Rollup Writer Recovery.

Local Open Scope Z_scope.

(** ** Files and errors *)

Definition DEFAULT_UNKNOWN_OWNER_GRACE : Z := 30.
Definition LOCK_PREFIX : string := ".partner-portal-instance-".

(** [Path::join] of a directory and a file name. *)
Definition join (dir name : string) : string :=
  if str_is_empty dir then name
  else match strip_suffix_char "/" dir with Some _ => (dir +:+ name)%string | None => (dir +:+ "/" +:+ name)%string end.

Definition lock_name (instance_id : string) : string := (LOCK_PREFIX +:+ instance_id +:+ ".lock")%string.

(** [parent] is the database path's, [None] for a root. *)
Definition lock_path_for (parent : option string) (instance_id : string) : string :=
  join (default "."%string parent) (lock_name instance_id).

Inductive InstanceError : Type := InstanceIo (e : string) | InstanceSqlite (e : SqlError).

(** [Display for InstanceError]; [db_text] is the text of a database error. *)
Definition instance_error_display (db_text : SqlError → string) (self : InstanceError) : string :=
  (match self with
   | InstanceIo e => "instance lock file: " +:+ e
   | InstanceSqlite e => "instance registration: " +:+ db_text e
   end)%string.

(** [HOSTNAME], an empty one as absent. *)
Definition hostname (env : option string) : option string :=
  match env with Some h => if str_is_empty h then None else Some h | None => None end.

(** [flock(2)] without blocking: done, or an error number. *)
Definition EWOULDBLOCK : Z := 11.
Definition try_lock_exclusive (flock : result unit Z) : result bool Z :=
  match flock with
  | Ok _ => Ok true
  | Err code => if code =? EWOULDBLOCK then Ok false else Err code
  end.

(** What [probe] sees: the error of opening the file ([None] when there is no
    such file), or the answer of [flock]. *)
Definition lock_answer (file : option (result (result unit Z) string)) : LockFile :=
  match file with
  | None => NotFound
  | Some (Err _) => OpenFailed
  | Some (Ok flock) => match try_lock_exclusive flock with Ok acquired => TryLock acquired | Err _ => LockFailed end
  end.

(** Two instances never share a file. *)
Lemma lock_path_inj parent a b : lock_path_for parent a = lock_path_for parent b → a = b.
Proof.
  assert (∀ p x y, (p +:+ x)%string = (p +:+ y)%string → x = y) as Hcancel by (intros p; induction p; cbn; [done |]; intros x y [= E]; auto).
  assert (∀ x y s, (x +:+ s)%string = (y +:+ s)%string → x = y) as Hcancel_r.
  { intros x. induction x as [|c x IH]; intros [|d y] s E; [done | | |].
    - apply (f_equal String.length) in E. cbn in E. rewrite str_length_app in E. lia.
    - apply (f_equal String.length) in E. cbn in E. rewrite str_length_app in E. lia.
    - cbn in E. injection E as -> E. f_equal. by eapply IH. }
  unfold lock_path_for, join, lock_name. set (dir := default "."%string parent).
  destruct (str_is_empty dir); [| destruct (strip_suffix_char "/" dir)]; intros E;
    repeat apply Hcancel in E; by apply Hcancel_r in E.
Qed.

(** ** The processes *)
Section Registry.
Context `{TimeCrate}.

(** A process that claims an identity, step by step ([InstanceGuard::acquire]):
    the file is open; the lock was taken or was not ([locked]), and it goes on
    either way; it is registered and runs; it has removed its registration
    ([release]); it is gone, having removed its file ([drop]) or not (a crash). *)
Inductive Phase : Type := Opened | Claimed (locked : bool) | Running (locked : bool) | Released | Gone.

(** The lock files beside the database, each with the process that holds its
    lock; the database; the processes by the identity each made for itself; the
    instances some pass has swept and whose files are still to be removed. *)
Record World : Type := mkWorld {
  files : gmap string (option string);
  db : Database;
  procs : gmap string Phase;
  condemned : gset string }.

Definition with_db (w : World) (d : Database) : World := mkWorld (files w) d (procs w) (condemned w).
Definition with_files (w : World) f : World := mkWorld f (db w) (procs w) (condemned w).
Definition with_proc (w : World) (i : string) (p : Phase) : World :=
  mkWorld (files w) (db w) (<[i := p]> (procs w)) (condemned w).

Definition register (d : Database) (i : string) : Database :=
  mkDatabase (tables d) ({[i]} ∪ ledger_instances d) (ledger_meta d).
Definition unregister (d : Database) (i : string) : Database :=
  mkDatabase (tables d) (ledger_instances d ∖ {[i]}) (ledger_meta d).

(** What the kernel does with the lock of a process that ends. *)
Definition unlock (i : string) (holder : option string) : option string :=
  if decide (holder = Some i) then None else holder.

(** What can be in the way of a probe: the file cannot be opened, for another
    reason than that it is not there, or [flock] fails with an error number. *)
Inductive Trouble : Type := OpenTrouble (e : string) | FlockTrouble (code : Z).

(** [File::open] and [flock] by another process, as [probe] meets them. *)
Definition answer (trouble : string → option Trouble) (f : gmap string (option string)) (i : string) : LockFile :=
  lock_answer (match trouble i, f !! i with
               | Some (OpenTrouble e), _ => Some (Err e)
               | _, None => None
               | Some (FlockTrouble code), Some _ => Some (Ok (Err code))
               | None, Some None => Some (Ok (Ok tt))
               | None, Some (Some _) => Some (Ok (Err EWOULDBLOCK))
               end).

(** [RecoveryContext::new]. *)
Definition new_context (instance_id : string) (locks : string → LockFile) (now : OffsetDateTime) : RecoveryContext :=
  mkContext instance_id locks DEFAULT_UNKNOWN_OWNER_GRACE now.

(** The pass that instance [j] runs at [now]. *)
Definition context (w : World) (j : string) (trouble : string → option Trouble) (now : OffsetDateTime) : RecoveryContext :=
  new_context j (answer trouble (files w)) now.

Definition with_records (d : Database) (r : Records) : Database :=
  mkDatabase (mkLedger r (usage_hourly (tables d))) (ledger_instances d) (ledger_meta d).

Inductive step : World → World → Prop :=
  (* the identity is a fresh UUID *)
  | step_open w i : procs w !! i = None → files w !! i = None →
      step w (with_proc (with_files w (<[i := None]> (files w))) i Opened)
  | step_lock w i : procs w !! i = Some Opened → files w !! i = Some None →
      step w (with_proc (with_files w (<[i := Some i]> (files w))) i (Claimed true))
  | step_lock_fails w i : procs w !! i = Some Opened → step w (with_proc w i (Claimed false))
  | step_register w i b : procs w !! i = Some (Claimed b) →
      step w (with_proc (with_db w (register (db w) i)) i (Running b))
  (* an instance writes rows of its own requests, and may delete any *)
  | step_write w i b records : procs w !! i = Some (Running b) →
      (∀ id r, records !! id = Some r → usage_records (tables (db w)) !! id = Some r ∨ Row.instance_id r = Some i) →
      step w (with_db w (with_records (db w) records))
  (* one transaction, and after it the lock files of the swept *)
  | step_recover w j b trouble now : procs w !! j = Some (Running b) →
      step w (mkWorld (files w) (recover_in_flight (context w j trouble now) (db w)).1 (procs w)
                (list_to_set (confirmed (classify_candidates (context w j trouble now) (db w))) ∪ condemned w))
  | step_remove w i : i ∈ condemned w → step w (with_files w (delete i (files w)))
  | step_release w i b : procs w !! i = Some (Running b) →
      step w (with_proc (with_db w (unregister (db w) i)) i Released)
  | step_drop w i : procs w !! i = Some Released →
      step w (with_proc (with_files w (delete i (files w))) i Gone)
  | step_crash w i p : procs w !! i = Some p → step w (with_proc (with_files w (unlock i <$> files w)) i Gone).

(** ** Who is alive *)

(** A process that was registered at some time. *)
Definition registered (p : option Phase) : Prop :=
  match p with Some (Running _) | Some Released | Some Gone => True | _ => False end.

(** The owner of a row, and a registration. *)
Definition named (d : Database) (i : string) : Prop :=
  i ∈ ledger_instances d ∨ ∃ id r, usage_records (tables d) !! id = Some r ∧ Row.instance_id r = Some i.

Record world_ok (w : World) : Prop := {
  wo_locked i : procs w !! i = Some (Claimed true) ∨ procs w !! i = Some (Running true) → files w !! i = Some (Some i);
  wo_held i h : files w !! i = Some (Some h) → h = i ∧ procs w !! i ≠ Some Gone ∧ procs w !! i ≠ Some Opened ∧ is_Some (procs w !! i);
  wo_named i : named (db w) i → registered (procs w !! i);
  wo_condemned i : i ∈ condemned w → registered (procs w !! i) ∧ procs w !! i ≠ Some (Running true) }.

(** Nothing runs, and whatever the database names is gone. *)
Definition all_gone (w : World) : Prop :=
  (∀ i p, procs w !! i = Some p → p = Gone) ∧ (∀ i h, files w !! i = Some h → h = None)
  ∧ (∀ i, named (db w) i → procs w !! i = Some Gone) ∧ condemned w = ∅.

Lemma all_gone_ok w : all_gone w → world_ok w.
Proof.
  intros (Hp & Hf & Hn & Hc). split.
  - intros i [E|E]; by apply Hp in E.
  - intros i h E. by apply Hf in E.
  - intros i Hi. by rewrite (Hn i Hi).
  - intros i. rewrite Hc. set_solver.
Qed.

Lemma probe_answer trouble f i : trouble i = None →
  probe (answer trouble f i) = match f !! i with Some (Some _) => Liveness.Alive | _ => Liveness.Dead end.
Proof. unfold answer, lock_answer, try_lock_exclusive. intros ->. by destruct (f !! i) as [[h|]|]. Qed.

(** A held lock is never taken for a dead owner's, whatever is in the way. *)
Lemma probe_held trouble f i h : f !! i = Some (Some h) → probe (answer trouble f i) ≠ Liveness.Dead.
Proof.
  unfold answer, lock_answer, try_lock_exclusive. intros ->. destruct (trouble i) as [[e|code]|]; [done | | done].
  by destruct (code =? EWOULDBLOCK).
Qed.

Lemma candidate_named ctx d i : i ∈ candidates ctx d → named d i ∧ i ≠ ctx_instance_id ctx.
Proof.
  unfold candidates. rewrite elem_of_elements, elem_of_difference, elem_of_singleton, elem_of_union. intros [[Hi|Hi] Hne]; (split; [| done]).
  - by left.
  - right. unfold owners in Hi. apply elem_of_list_to_set, list_elem_of_omap in Hi as ([id r] & Hin & E).
    apply elem_of_map_to_list in Hin. cbn in E. destruct (in_flight r); [| done]. by exists id, r.
Qed.

Lemma confirmed_dead ctx d i :
  i ∈ confirmed (classify_candidates ctx d) → i ∈ candidates ctx d ∧ probe (lock_file ctx i) = Liveness.Dead.
Proof. unfold classify_candidates. cbn. rewrite list_elem_of_filter. tauto. Qed.

Lemma recover_names ctx d i : named (recover_in_flight ctx d).1 i → named d i.
Proof.
  assert (ledger_instances (recover_in_flight ctx d).1 ⊆ ledger_instances d) as Hinst.
  { unfold recover_in_flight, recover_in_tx. destruct (RecoveryReport.is_empty _); cbn; set_solver. }
  intros [Hi|(id & r & Hr & Ho)]; [left; set_solver |]. right.
  destruct (usage_records (tables d) !! id) as [r0|] eqn:E.
  - rewrite (recover_resolves ctx d id r0 E) in Hr. exists id, r0. split; [done |]. injection Hr as <-.
    by destruct (in_flight r0 && verdict ctx r0).
  - pose proof (proj1 (recover_tables ctx d)) as Et. cbv zeta in Et. rewrite Et in Hr. cbn in Hr. by rewrite lookup_fmap, E in Hr.
Qed.

(** One process moves to another phase, touching no file but its own. *)
Lemma proc_ok w i p f d :
  world_ok w → (∀ k, k ≠ i → f !! k = files w !! k) →
  (p = Claimed true ∨ p = Running true → f !! i = Some (Some i)) →
  (∀ h, f !! i = Some (Some h) → h = i ∧ p ≠ Gone ∧ p ≠ Opened) →
  (∀ k, named d k → k ≠ i → named (db w) k) → (named d i → registered (Some p)) →
  (i ∈ condemned w → registered (Some p) ∧ p ≠ Running true) →
  world_ok (mkWorld f d (<[i := p]> (procs w)) (condemned w)).
Proof.
  intros [Hl Hh Hn Hc] Hf Hp Hi Hd Hdi Hci. split; cbn; intros k.
  - destruct (decide (k = i)) as [->|Hk]; [rewrite lookup_insert_eq; naive_solver |]. rewrite lookup_insert_ne, Hf by done. apply Hl.
  - intros h. destruct (decide (k = i)) as [->|Hk].
    + rewrite lookup_insert_eq. intros Eh. destruct (Hi h Eh) as (-> & ? & ?). split_and!; [done | congruence | congruence | done].
    + rewrite lookup_insert_ne, Hf by done. apply Hh.
  - intros Hnk. destruct (decide (k = i)) as [->|Hk]; [rewrite lookup_insert_eq; auto |]. rewrite lookup_insert_ne by done. auto.
  - intros Hk. destruct (decide (k = i)) as [->|Hne]; [rewrite lookup_insert_eq; naive_solver |]. rewrite lookup_insert_ne by done. auto.
Qed.

(** The database and the list of files to remove change. *)
Lemma db_ok w d c :
  world_ok w → (∀ i, named d i → registered (procs w !! i)) →
  (∀ i, i ∈ c → registered (procs w !! i) ∧ procs w !! i ≠ Some (Running true)) →
  world_ok (mkWorld (files w) d (procs w) c).
Proof. intros [Hl Hh _ _] Hd Hc. by split. Qed.

Lemma unnamed w i p : world_ok w → procs w !! i = p → ¬ registered p → ¬ named (db w) i ∧ (i ∉ condemned w).
Proof. intros Hok <- Hr. split; intros Hi; apply Hr; [by apply (wo_named w Hok) | by apply (wo_condemned w Hok)]. Qed.

Lemma step_recover_ok w j b trouble now :
  world_ok w → procs w !! j = Some (Running b) →
  world_ok (mkWorld (files w) (recover_in_flight (context w j trouble now) (db w)).1 (procs w)
    (list_to_set (confirmed (classify_candidates (context w j trouble now) (db w))) ∪ condemned w)).
Proof.
  intros Hok Hp. apply db_ok; [done | intros i Hi; by apply (wo_named w Hok), (recover_names (context w j trouble now)) |].
  intros i [Hi|Hi]%elem_of_union; [| by apply (wo_condemned w Hok)].
  apply elem_of_list_to_set, confirmed_dead in Hi as [[Hni _]%candidate_named Hd]. split; [by apply (wo_named w Hok) |].
  intros E. apply (probe_held trouble (files w) i i); [by apply (wo_locked w Hok); auto | exact Hd].
Qed.

Lemma step_world_ok w w' : world_ok w → step w w' → world_ok w'.
Proof.
  intros Hok Hstep. pose proof Hok as [Hl Hh Hn Hc].
  destruct Hstep as [w i Hp Hf|w i Hp Hf|w i Hp|w i b Hp|w i b records Hp Hrec|w j b trouble now Hp|w i Hi|w i b Hp|w i Hp|w i p Hp].
  - destruct (unnamed w i None Hok Hp) as [H1 H2]; [by intros [] |].
    apply (proc_ok w i); cbn; try done; [intros k Hk; by rewrite lookup_insert_ne | by intros [?|?] | by intros h; rewrite lookup_insert_eq].
  - destruct (unnamed w i _ Hok Hp) as [H1 H2]; [by intros [] |].
    apply (proc_ok w i); cbn; try done; [intros k Hk; by rewrite lookup_insert_ne | by rewrite lookup_insert_eq |].
    rewrite lookup_insert_eq. by intros h [= <-].
  - destruct (unnamed w i _ Hok Hp) as [H1 H2]; [by intros [] |].
    apply (proc_ok w i); try done; [by intros [?|?] |]. intros h Eh. destruct (Hh i h Eh) as (_ & _ & Ho & _). congruence.
  - destruct (unnamed w i _ Hok Hp) as [H1 H2]; [by intros [] |].
    apply (proc_ok w i); try done.
    + intros [?|[= ->]]; [done |]. apply Hl. by left.
    + intros h Eh. by destruct (Hh i h Eh) as (-> & _).
    + intros k [Hk|Hk] Hne; [left; cbn in *; set_solver | right; exact Hk].
  - apply (db_ok w); [done | | done]. intros k [Hk|(id & r & Hr & Ho)]; [apply Hn; by left |].
    cbn in Hr. destruct (Hrec id r Hr) as [Hr'|Ho']; [apply Hn; right; by exists id, r |]. assert (k = i) as -> by congruence. by rewrite Hp.
  - by apply step_recover_ok with b.
  - split; cbn; try done.
    + intros k Hk. destruct (decide (k = i)) as [->|Hne]; [| rewrite lookup_delete_ne by done; by apply Hl].
      exfalso. destruct (Hc i Hi) as [Hr Hnr]. destruct Hk as [Hk|Hk]; [by rewrite Hk in Hr | done].
    + intros k h [_ E]%lookup_delete_Some. by apply Hh.
  - apply (proc_ok w i); try done.
    + by intros [?|?].
    + intros h Eh. by destruct (Hh i h Eh) as (-> & _).
    + intros k [Hk|Hk] Hne; [left; cbn in *; set_solver | right; exact Hk].
  - apply (proc_ok w i); cbn; try done; [intros k Hk; by rewrite lookup_delete_ne | by intros [?|?] | intros h; by rewrite lookup_delete_eq].
  - apply (proc_ok w i); cbn; try done.
    + intros k Hk. rewrite lookup_fmap. destruct (files w !! k) as [[h|]|] eqn:E; [| done | done]. cbn. unfold unlock.
      destruct (Hh k h E) as (-> & _). rewrite decide_False by congruence. done.
    + by intros [?|?].
    + intros h. rewrite lookup_fmap. destruct (files w !! i) as [[h'|]|] eqn:E; [| done | done]. cbn. unfold unlock.
      destruct (Hh i h' E) as (-> & _). by rewrite decide_True.
Qed.

Lemma reach_world_ok w w' : world_ok w → rtc step w w' → world_ok w'.
Proof. intros Hok Hs. induction Hs as [w|w w1 w2 Hstep _ IH]; [done |]. apply IH. by eapply step_world_ok. Qed.

(** A probe that gets no answer. *)
Definition unprobeable (w : World) (trouble : string → option Trouble) (i : string) : Prop :=
  probe (answer trouble (files w) i) = Liveness.Unknown.

Lemma unprobeable_troubled w trouble i : unprobeable w trouble i → trouble i ≠ None.
Proof.
  unfold unprobeable. intros Hp Ht. rewrite probe_answer in Hp by done. by destruct (files w !! i) as [[h|]|].
Qed.

(** What a pass does to the row of an owner it cannot probe. *)
Lemma unprobeable_row `{!TimeLaws} w trouble j now i r a c :
  i ≠ j → unprobeable w trouble i → Row.instance_id r = Some i → Row.created_at r = format_ts a → ledger_instant a →
  ledger_instant c → unix_timestamp_nanos c = unix_timestamp_nanos now - 30 * NS_PER_SEC →
  verdict (context w j trouble now) r = bool_decide (unix_timestamp_nanos a < unix_timestamp_nanos c).
Proof.
  intros Hne Hu Ho Hc Ha Hic Ec. destruct (odt_add_instant now (- (30 * NS_PER_SEC)) c Hic ltac:(lia)) as [Hn <-]. unfold verdict. rewrite Ho. cbn [ctx_instance_id context new_context lock_file].
  rewrite decide_False by done. unfold unprobeable in Hu. rewrite Hu. cbn. unfold old_before.
  cbn [Recovery.now unknown_owner_grace context new_context]. rewrite Hc. apply eq_bool_prop_intro.
  rewrite bool_decide_spec, <- (format_ts_lt a _ Ha Hn). by destruct (str_ltb _ _).
Qed.

(** C21. Recovery knows who is gone. Whatever starts, crashes, shuts down, writes and
    sweeps beside it, in any order, and whatever is in the way of its probes: a
    pass takes no request of its own instance. Of another that runs with its
    lock it takes none unless the probe of its lock file gets no answer; of one
    that is gone it resolves every in-flight request at once when nothing is in
    the way of the probe, however the owner went. When the probe gets no answer
    the owner's requests are judged by age: those accepted more than 30 seconds
    before the pass are resolved, whether the owner is gone or not, and the
    others are left alone. No lock file of a running owner is condemned. *)
Theorem recovery_knows_who_is_gone `{!TimeLaws} (w0 w : World) (j : string) (b : bool) (trouble : string → option Trouble)
    (now : OffsetDateTime) (Hstart : all_gone w0) (Hsteps : rtc step w0 w) (Hj : procs w !! j = Some (Running b)) :
  let after := usage_records (tables (recover_in_flight (context w j trouble now) (db w)).1) in
  (∀ i id r, usage_records (tables (db w)) !! id = Some r → Row.instance_id r = Some i →
     registered (procs w !! i)
     ∧ (i = j → after !! id = Some r)
     ∧ (procs w !! i = Some (Running true) → ¬ unprobeable w trouble i → after !! id = Some r)
     ∧ (procs w !! i = Some Gone → trouble i = None → after !! id = Some (if in_flight r then interrupt_row r else r))
     ∧ (i ≠ j → unprobeable w trouble i → ∀ a c, Row.created_at r = format_ts a → ledger_instant a →
          ledger_instant c → unix_timestamp_nanos c = unix_timestamp_nanos now - 30 * NS_PER_SEC →
          after !! id = Some (if in_flight r && bool_decide (unix_timestamp_nanos a < unix_timestamp_nanos c)
                              then interrupt_row r else r)))
  ∧ (∀ i, unprobeable w trouble i → trouble i ≠ None)
  ∧ ∀ i, procs w !! i = Some (Running true) →
      (i ∉ confirmed (classify_candidates (context w j trouble now) (db w))) ∧ (i ∉ condemned w) ∧ files w !! i = Some (Some i).
Proof.
  pose proof (reach_world_ok w0 w (all_gone_ok w0 Hstart) Hsteps) as Hok. cbv zeta.
  split_and!; [| by intros i; apply unprobeable_troubled |].
  - intros i id r Hr Ho. pose proof (wo_named w Hok i ltac:(right; by exists id, r)) as Hreg. split; [done |].
    rewrite (recover_resolves (context w j trouble now) (db w) id r Hr). split_and!.
    + intros ->. unfold verdict. rewrite Ho. cbn [ctx_instance_id context new_context]. by rewrite decide_True, andb_false_r.
    + intros Hi Hu. pose proof (probe_held trouble (files w) i i (wo_locked w Hok i ltac:(auto))) as Hd.
      unfold verdict. rewrite Ho. cbn [ctx_instance_id context new_context lock_file]. unfold unprobeable in Hu.
      destruct (decide (i = j)); [by rewrite andb_false_r |]. destruct (probe _); [by rewrite andb_false_r | done | done].
    + intros Hi Ht. unfold verdict. rewrite Ho. cbn [ctx_instance_id context new_context lock_file].
      rewrite decide_False, probe_answer by congruence.
      destruct (files w !! i) as [[h|]|] eqn:E; [| by rewrite andb_true_r | by rewrite andb_true_r].
      by destruct (wo_held w Hok i h E) as (_ & Hng & _).
    + intros Hne Hu a c Hc Ha Hic Ec. by rewrite (unprobeable_row w trouble j now i r a c).
  - intros i Hi. pose proof (wo_locked w Hok i ltac:(auto)) as Hf. split_and!; [| | done].
    + intros [_ Hd]%confirmed_dead. by apply (probe_held trouble (files w) i i).
    + intros Hc. by destruct (wo_condemned w Hok i Hc).
Qed.
End Registry.

(** ** Two instances *)
Section Example_registry.
Local Existing Instance Gregorian.

Definition empty_db : Database := mkDatabase (mkLedger ∅ ∅) ∅ ∅.
Definition world_0 : World := mkWorld ∅ empty_db ∅ ∅.
Definition row_of (i : string) : Row.t := accept_row request_1 (Some i).

(** Instance [a] runs, with its lock or without, and has one request in flight;
    then [b] starts. *)
Definition world_ab (locked : bool) : World :=
  mkWorld (<["b"%string := Some "b"%string]> {[ "a"%string := if locked then Some "a"%string else None ]})
    (register (with_records (register empty_db "a") (<["req-1"%string := row_of "a"]> ∅)) "b")
    (<["b"%string := Running true]> (<["b"%string := Claimed true]> (<["b"%string := Opened]> {[ "a"%string := Running locked ]}))) ∅.
End Example_registry.

Lemma world_0_gone : all_gone world_0.
Proof.
  split_and!; try done; cbn.
  - intros i [Hi|(id & r & Hr & _)]; [by apply elem_of_empty in Hi | exfalso; exact (lookup_empty_Some (M:=gmap string) id r Hr)].
Qed.

Lemma reach_ab locked : rtc step world_0 (world_ab locked).
Proof.
  destruct locked; (eapply rtc_l; [apply (step_open _ "a"%string); reflexivity |]).
  1: eapply rtc_l; [apply (step_lock _ "a"%string); reflexivity |].
  2: eapply rtc_l; [apply (step_lock_fails _ "a"%string); reflexivity |].
  all: eapply rtc_l; [eapply (step_register _ "a"%string); reflexivity |].
  all: eapply rtc_l; [eapply (step_write _ "a"%string _ (<["req-1"%string := row_of "a"]> ∅)); [reflexivity |] |].
  1, 3: intros id r [[_ <-]|[_ E]]%lookup_insert_Some; [by right | by rewrite lookup_empty in E].
  all: eapply rtc_l; [apply (step_open _ "b"%string); reflexivity |].
  all: eapply rtc_l; [apply (step_lock _ "b"%string); reflexivity |].
  all: eapply rtc_l; [eapply (step_register _ "b"%string); reflexivity |].
  all: match goal with |- rtc step ?x ?y => replace x with y by (vm_compute; reflexivity) end; apply rtc_refl.
Qed.

Definition no_trouble : string → option Trouble := λ _, None.
(** The file system under [b] no longer locks. *)
Definition no_locks : string → option Trouble := λ _, Some (FlockTrouble 37).
Definition two_minutes_on : OffsetDateTime := odt_add t1 (120 * NS_PER_SEC).

(** Beside [a], which runs with its lock, [b] takes nothing of it as long as its
    probes are answered; when they are not, it takes what is old. *)
Lemma recovery_knows_who_is_gone_witness :
  all_gone world_0 ∧ procs (world_ab true) !! "b"%string = Some (Running true)
  ∧ usage_records (tables (recover_in_flight (context (world_ab true) "b" no_trouble two_minutes_on) (db (world_ab true))).1)
      !! "req-1"%string = Some (row_of "a")
  ∧ usage_records (tables (recover_in_flight (context (world_ab true) "b" no_locks t2) (db (world_ab true))).1)
      !! "req-1"%string = Some (row_of "a")
  ∧ usage_records (tables (recover_in_flight (context (world_ab true) "b" no_locks two_minutes_on) (db (world_ab true))).1)
      !! "req-1"%string = Some (interrupt_row (row_of "a")).
Proof.
  split; [exact world_0_gone |]. split; [reflexivity |].
  split; [| split].
  - destruct (recovery_knows_who_is_gone world_0 (world_ab true) "b" true no_trouble two_minutes_on world_0_gone (reach_ab true) eq_refl) as [X _].
    refine (proj1 (proj2 (proj2 (X "a"%string "req-1"%string (row_of "a") eq_refl eq_refl))) eq_refl _). discriminate.
  - destruct (recovery_knows_who_is_gone world_0 (world_ab true) "b" true no_locks t2 world_0_gone (reach_ab true) eq_refl) as [X _].
    refine (proj2 (proj2 (proj2 (proj2 (X "a"%string "req-1"%string (row_of "a") eq_refl eq_refl)))) _ eq_refl t1 (odt_add t2 (- (30 * NS_PER_SEC))) eq_refl ledger_instant_t1 _ _);
      [discriminate | concrete | vm_compute; reflexivity].
  - destruct (recovery_knows_who_is_gone world_0 (world_ab true) "b" true no_locks two_minutes_on world_0_gone (reach_ab true) eq_refl) as [X _].
    refine (proj2 (proj2 (proj2 (proj2 (X "a"%string "req-1"%string (row_of "a") eq_refl eq_refl)))) _ eq_refl t1 (odt_add two_minutes_on (- (30 * NS_PER_SEC))) eq_refl ledger_instant_t1 _ _);
      [discriminate | concrete | vm_compute; reflexivity].
Defined.

(** An instance that could not lock its file is not of unknown liveness: its
    file is there and its lock is free, so the next pass takes its requests
    while it serves them, and sweeps its registration. *)
Example unlocked_instance_looks_dead :
  rtc step world_0 (world_ab false) ∧ procs (world_ab false) !! "a"%string = Some (Running false)
  ∧ probe (answer no_trouble (files (world_ab false)) "a") = Liveness.Dead
  ∧ (Row.request_status <$> usage_records (tables (recover_in_flight (context (world_ab false) "b" no_trouble t2) (db (world_ab false))).1) !! "req-1"%string)
    = Some "interrupted"%string.
Proof. split; [apply reach_ab |]. vm_compute. auto. Qed.

Example lock_paths :
  lock_path_for (Some "/data"%string) "i-1" = "/data/.partner-portal-instance-i-1.lock"%string
  ∧ lock_path_for (Some ""%string) "i-1" = ".partner-portal-instance-i-1.lock"%string
  ∧ lock_path_for None "i-1" = "./.partner-portal-instance-i-1.lock"%string
  ∧ hostname (Some ""%string) = None ∧ try_lock_exclusive (Err 11) = Ok false ∧ try_lock_exclusive (Err 37) = Err 37.
Proof. vm_compute. auto 10. Qed.
