(* ===== verification/Process.v ===== *)
(** * The life of the process ([src/src/main.rs], [src/src/admin/mod.rs], [src/src/ledger/writer.rs])

    What readiness says, and how the process ends: the signal, the grace period,
    the drain of the requests with its bound, the detached finalizes, the
    writer's queue, the release of the instance. Requests, the writer task and
    the clock interleave as the steps of [step]. *)

From stdpp Require Import base strings list gmap numbers fin_maps relations.
From Stdlib Require Import Ascii ZArith Lia.
From S2P Require Import Prelude Utf8 TimeLib Calendar Timefmt Pricing Partner Context Config LedgerTypes Sql Rollup Json StreamMeter Writer WriterTask Metering Recovery.

Local Open Scope Z_scope.

(** Durations in milliseconds. *)
Definition MIN_DRAIN_BOUND : Z := 30 * 1000.
Definition DETACHED_DRAIN_TIMEOUT : Z := 10 * 1000.
Definition DETACHED_POLL : Z := 2.

(** How long the balancer is given. *)
Definition grace (server : ServerConfig.t) : Z :=
  if ServerConfig.graceful_shutdown server then ServerConfig.shutdown_grace_secs server * 1000 else 0.
Definition drain_bound (server : ServerConfig.t) : Z := Z.max (grace server) MIN_DRAIN_BOUND.

Section Process.
Context `{TimeCrate, Rusqlite}.
Variable config : LedgerWriterConfig.t.
Variable server : ServerConfig.t.

(** ** Readiness *)

Record ReadyResponse : Type := mkReady {
  ready_ : bool; ledger_ready : bool; shutting_down_ : bool; ledger_queue_depth : nat; ledger_committed : Z }.

(** [readyz]: the status and the body. *)
Definition readyz (shutting_down : bool) (ledger : Task) : Z * ReadyResponse :=
  let ledger_ready := is_ready ledger in
  let ready := negb shutting_down && ledger_ready in
  (if ready then 200 else 503,
   mkReady ready ledger_ready shutting_down (queue_depth ledger) (committed ledger)).

(** ** Requests *)

Definition accept_write (r : RequestRecord.t) : PendingWrite.t := PendingWrite.mk WriteOp.Accept (Some r) 0.
Definition final_write (f : RequestRecord.t) : PendingWrite.t := PendingWrite.mk WriteOp.Finalize (Some f) 1.

(** Where a request is. The finalize is awaited by the handler, or [detached]:
    spawned by a drop guard and counted. [Lost] and [Refused] had an error of the
    writer for an answer; [Abandoned] is a handler its client cancelled. *)
Inductive Progress : Type :=
  | AcceptSending | AcceptWaiting | Open
  | FinalReady (f : RequestRecord.t) (detached : bool)
  | FinalSending (f : RequestRecord.t) (detached : bool)
  | FinalWaiting (f : RequestRecord.t) (detached : bool)
  | Done | Lost | Refused | Abandoned.

(** The connection of the request is still open. *)
Definition connected (g : Progress) : bool :=
  match g with
  | AcceptSending | AcceptWaiting | Open => true
  | FinalReady _ d | FinalSending _ d | FinalWaiting _ d => negb d
  | Done | Lost | Refused | Abandoned => false
  end.

(** Counted by [detached]. *)
Definition is_detached (g : Progress) : bool :=
  match g with FinalReady _ d | FinalSending _ d | FinalWaiting _ d => d | _ => false end.

Definition over (g : Progress) : bool := negb (connected g) && negb (is_detached g).

(** Holds a clone of the sender. *)
Definition sending (g : Progress) : bool :=
  match g with AcceptSending | FinalSending _ _ => true | _ => false end.

(** ** The process *)

(** [run]: it serves; the signal has come and the balancer is given its time;
    the listener has closed and the requests drain; the detached finalizes are
    awaited; the writer is closed; its task has ended; the instance is released;
    [run] has returned. *)
Inductive Stage : Type :=
  | Serving | Unready | Draining (since : Z) | Detaching (since : Z) | Closed | Drained | Released | Ended.

Record Process : Type := mkProcess {
  now : Z;
  stage : Stage;
  signalled : option Z;
  drain_expired : bool;
  detached_expired : bool;
  sent : list PendingWrite.t;
  task : Task;
  requests : gmap string (RequestRecord.t * Progress) }.

Definition start (db : Ledger) : Process := mkProcess 0 Serving None false false [] (new_task db) ∅.

Definition with_task (p : Process) (t : Task) : Process :=
  mkProcess (now p) (stage p) (signalled p) (drain_expired p) (detached_expired p) (sent p) t (requests p).
Definition with_sent (p : Process) (w : PendingWrite.t) : Process :=
  mkProcess (now p) (stage p) (signalled p) (drain_expired p) (detached_expired p) (sent p ++ [w]) (task p) (requests p).
Definition with_stage (p : Process) (s : Stage) : Process :=
  mkProcess (now p) s (signalled p) (drain_expired p) (detached_expired p) (sent p) (task p) (requests p).
Definition at_progress (p : Process) (r : RequestRecord.t) (g : Progress) : Process :=
  mkProcess (now p) (stage p) (signalled p) (drain_expired p) (detached_expired p) (sent p) (task p)
    (<[RequestRecord.request_id r := (r, g)]> (requests p)).
Definition in_progress (p : Process) (r : RequestRecord.t) (g : Progress) : Prop :=
  requests p !! RequestRecord.request_id r = Some (r, g).
Definition none_is (f : Progress → bool) (p : Process) : Prop := ∀ id x, requests p !! id = Some x → f x.2 = false.

(** [sender] and [send] of a producer, and the drop of its clone. *)
Definition cloned (t : Task) : Task := with_channel t (channel t) (S (clones t)).
Definition dropped (t : Task) (n : nat) : Task := with_channel t (channel t) n.
Definition queued (t : Task) (w : PendingWrite.t) (n : nat) : Task := with_channel t (channel t ++ [w]) n.

(** Timers fire when they are due: how far the clock can go in a stage. *)
Definition deadline (p : Process) : option Z :=
  match stage p, signalled p with
  | Unready, Some s => Some (s + grace server)
  | Draining since, _ => Some (since + drain_bound server)
  | Detaching since, _ => Some (since + DETACHED_DRAIN_TIMEOUT + DETACHED_POLL)
  | _, _ => None
  end.

(** The record a request is accepted with: a fresh one with the prices of a
    price list. *)
Definition arrival (r : RequestRecord.t) : Prop := fresh r ∧ priced_ok r.

Inductive step : Process → Process → Prop :=
  | step_tick p dt : 0 < dt → (∀ d, deadline p = Some d → now p + dt ≤ d) →
      step p (mkProcess (now p + dt) (stage p) (signalled p) (drain_expired p) (detached_expired p) (sent p) (task p) (requests p))
  | step_task p tick : exited (task p) = false → step p (with_task p (iterate config tick (task p)))
  (* a request, up to its accept; its id is a fresh UUID *)
  | step_arrive p r : stage p = Serving ∨ stage p = Unready → requests p !! RequestRecord.request_id r = None → arrival r →
      sender (task p) = Ok () → step p (at_progress (with_task p (cloned (task p))) r AcceptSending)
  | step_accept_sent p r n : in_progress p r AcceptSending → clones (task p) = S n →
      (length (channel (task p)) < capacity config)%nat → exited (task p) = false →
      step p (at_progress (with_sent (with_task p (queued (task p) (accept_write r) n)) (accept_write r)) r AcceptWaiting)
  | step_accepted p r : in_progress p r AcceptWaiting → (accept_write r, Ok ()) ∈ acks (task p) →
      step p (at_progress p r Open)
  | step_refused p r e : in_progress p r AcceptWaiting → (accept_write r, Err e) ∈ acks (task p) →
      step p (at_progress (with_task p (mark_unhealthy (task p))) r Refused)
  (* the response is there, or the stream ended: a terminal record of the request *)
  | step_finish p r f detached : in_progress p r Open → resolves r f →
      step p (at_progress p r (FinalReady f detached))
  | step_finalize p r f d : in_progress p r (FinalReady f d) → sender (task p) = Ok () →
      step p (at_progress (with_task p (cloned (task p))) r (FinalSending f d))
  | step_finalize_refused p r f d e : in_progress p r (FinalReady f d) → sender (task p) = Err e →
      step p (at_progress (with_task p (mark_unhealthy (task p))) r Lost)
  | step_final_sent p r f d n : in_progress p r (FinalSending f d) → clones (task p) = S n →
      (length (channel (task p)) < capacity config)%nat → exited (task p) = false →
      step p (at_progress (with_sent (with_task p (queued (task p) (final_write f) n)) (final_write f)) r (FinalWaiting f d))
  | step_finalized p r f d : in_progress p r (FinalWaiting f d) → (final_write f, Ok ()) ∈ acks (task p) →
      step p (at_progress p r Done)
  | step_final_failed p r f d e : in_progress p r (FinalWaiting f d) → (final_write f, Err e) ∈ acks (task p) →
      step p (at_progress (with_task p (mark_unhealthy (task p))) r Lost)
  (* the client goes away before the response begins *)
  | step_abandon p r g : in_progress p r g → connected g = true → sending g = false → step p (at_progress p r Abandoned)
  | step_abandon_sending p r g n : in_progress p r g → connected g = true → sending g = true → clones (task p) = S n →
      step p (at_progress (with_task p (dropped (task p) n)) r Abandoned)
  (* the end *)
  | step_signal p : stage p = Serving →
      step p (mkProcess (now p) Unready (Some (now p)) (drain_expired p) (detached_expired p) (sent p) (task p) (requests p))
  | step_close_listener p s : stage p = Unready → signalled p = Some s → s + grace server ≤ now p →
      step p (with_stage p (Draining (now p)))
  | step_served p since : stage p = Draining since → none_is connected p → step p (with_stage p (Detaching (now p)))
  | step_drain_expires p since : stage p = Draining since → since + drain_bound server ≤ now p →
      step p (mkProcess (now p) (Detaching (now p)) (signalled p) true (detached_expired p) (sent p) (task p) (requests p))
  | step_close p since : stage p = Detaching since → none_is is_detached p →
      step p (with_stage (with_task p (with_handle (task p) true false)) Closed)
  | step_detached_expires p since : stage p = Detaching since → since + DETACHED_DRAIN_TIMEOUT ≤ now p →
      step p (mkProcess (now p) Closed (signalled p) (drain_expired p) true (sent p) (with_handle (task p) true false) (requests p))
  | step_joined p : stage p = Closed → exited (task p) = true → step p (with_stage p Drained)
  | step_release p : stage p = Drained → step p (with_stage p Released)
  | step_end p : stage p = Released → step p (with_stage p Ended).

Definition reaches (db : Ledger) (p : Process) : Prop := rtc step (start db) p.
End Process.

(** ** What holds at every moment *)
Section Invariant.
Context `{TimeCrate, !TimeLaws, RusqliteLaws}.
Variable config : LedgerWriterConfig.t.
Variable server : ServerConfig.t.
Variable db : Ledger.

Definition rank (s : Stage) : nat :=
  match s with
  | Serving => 0 | Unready => 1 | Draining _ => 2 | Detaching _ => 3 | Closed => 4 | Drained => 5 | Released => 6 | Ended => 7
  end.

Definition progress_ok (t : Task) (r : RequestRecord.t) (g : Progress) : Prop :=
  match g with
  | FinalReady f _ | FinalSending f _ | FinalWaiting f _ => resolves r f
  | Done => ∃ f, resolves r f ∧ (final_write f, Ok ()) ∈ acks t
  | Lost | Refused => healthy t = false
  | _ => True
  end.

Definition write_of (r : RequestRecord.t) (w : PendingWrite.t) : Prop :=
  w = accept_write r ∨ ∃ f, w = final_write f ∧ resolves r f.

Record inv (p : Process) : Prop := {
  i_reach : reachable config db (sent p) (task p);
  i_requests id r g : requests p !! id = Some (r, g) → id = RequestRecord.request_id r ∧ arrival r ∧ progress_ok (task p) r g;
  i_sent w : w ∈ sent p → ∃ r g, in_progress p r g ∧ write_of r w;
  i_connected : (3 ≤ rank (stage p))%nat → drain_expired p = false → none_is connected p;
  i_detached : (4 ≤ rank (stage p))%nat → drain_expired p = false → detached_expired p = false → none_is is_detached p;
  i_exited : (5 ≤ rank (stage p))%nat → exited (task p) = true }.

(** What no step of the writer takes back. *)
Record later (t t' : Task) : Prop := {
  l_acks : acks t ⊆ acks t';
  l_healthy : healthy t' = true → healthy t = true;
  l_exited : exited t = true → exited t' = true }.

Lemma later_iterate tick t : later t (iterate config tick t).
Proof.
  unfold iterate. destruct (receive _ t) as [[ch b] c]. destruct (drain_closed _ ch b c) as [ch' b'].
  destruct (c && bool_decide _); split; cbn; try (intros x Hx; set_solver); try done;
    destruct (negb _ && _ && _); cbn; try done; by destruct (fl_healthy _).
Qed.

Lemma later_same t t' : acks t = acks t' → healthy t = healthy t' → exited t = exited t' → later t t'.
Proof. intros E1 E2 E3. split; congruence || (by rewrite E1). Qed.

Lemma later_unhealthy t : later t (mark_unhealthy t).
Proof. by split. Qed.

Lemma progress_later t t' r g : later t t' → progress_ok t r g → progress_ok t' r g.
Proof.
  intros [Ha Hh _]. destruct g; cbn; try done.
  - intros (f & ? & ?). eauto.
  - intros E. apply not_true_is_false. intros ?%Hh. congruence.
  - intros E. apply not_true_is_false. intros ?%Hh. congruence.
Qed.

(** A step of one request. *)
Lemma inv_request p r g new_sent t g' :
  inv p → (in_progress p r g ∨ requests p !! RequestRecord.request_id r = None) → arrival r →
  later (task p) t → reachable config db (sent p ++ new_sent) t → Forall (write_of r) new_sent → progress_ok t r g' →
  ((rank (stage p) ≤ 1)%nat ∨ (in_progress p r g
    ∧ (connected g' = true → connected g = true) ∧ (is_detached g' = true → connected g = true ∨ is_detached g = true))) →
  inv (at_progress (mkProcess (now p) (stage p) (signalled p) (drain_expired p) (detached_expired p) (sent p ++ new_sent) t (requests p)) r g').
Proof.
  intros [Hr Hq Hs Hc Hd He] Hprev Ha Hl Hreach Hnew Hok Hmove. split; cbn; [done | | | | |].
  - intros id r0 g0. cbn. rewrite lookup_insert_Some. intros [[<- [= <- <-]]|[_ E]]; [done |].
    destruct (Hq id r0 g0 E) as (? & ? & ?). split_and!; [done | done | by eapply progress_later].
  - intros w [Hw|Hw]%elem_of_app.
    + destruct (Hs w Hw) as (r0 & g0 & Hin & Hwr). unfold in_progress in *. cbn.
      destruct (decide (RequestRecord.request_id r0 = RequestRecord.request_id r)) as [E|E].
      * destruct Hprev as [Hp|Hp]; unfold in_progress in Hp; rewrite E, Hp in Hin; [| done]. injection Hin as <- <-.
        exists r, g'. split; [by rewrite lookup_insert_eq | done].
      * exists r0, g0. split; [by rewrite lookup_insert_ne | done].
    + exists r, g'. unfold in_progress. cbn. split; [by rewrite lookup_insert_eq | by eapply Forall_forall in Hnew].
  - intros Hrank Hx id x. cbn. rewrite lookup_insert_Some. intros [[<- <-]|[_ E]]; [| by eapply Hc].
    cbn. destruct Hmove as [?|(Hp & Hm & _)]; [lia |]. apply not_true_is_false. intros Hg%Hm.
    pose proof (Hc Hrank Hx _ _ Hp) as E. cbn in E. congruence.
  - intros Hrank Hx Hy id x. cbn. rewrite lookup_insert_Some. intros [[<- <-]|[_ E]]; [| by eapply Hd].
    cbn. destruct Hmove as [?|(Hp & _ & Hm)]; [lia |]. apply not_true_is_false. intros [Hg|Hg]%Hm.
    + pose proof (Hc ltac:(lia) Hx _ _ Hp) as E. cbn in E. congruence.
    + pose proof (Hd Hrank Hx Hy _ _ Hp) as E. cbn in E. congruence.
  - intros Hrank. by apply (l_exited _ _ Hl), He.
Qed.

Lemma start_inv : inv (start db).
Proof. split; cbn; try (intros; lia); [apply reach_new | by intros ? ? ? ?%lookup_empty_Some | by intros ? ?%elem_of_nil]. Qed.

(** A step of the task alone, and of the stage alone. *)
Lemma inv_task p t : inv p → later (task p) t → reachable config db (sent p) t → inv (with_task p t).
Proof.
  intros [Hr Hq Hs Hc Hd He] Hl Hreach. split; cbn; try done.
  - intros id r g E. destruct (Hq id r g E) as (? & ? & ?). split_and!; [done | done | by eapply progress_later].
  - intros Hrank. by apply (l_exited _ _ Hl), He.
Qed.

Lemma inv_stage p now' s signalled' b c :
  inv p → ((3 ≤ rank s)%nat → b = false → none_is connected p) →
  ((4 ≤ rank s)%nat → b = false → c = false → none_is is_detached p) →
  ((5 ≤ rank s)%nat → exited (task p) = true) →
  inv (mkProcess now' s signalled' b c (sent p) (task p) (requests p)).
Proof. intros [Hr Hq Hs _ _ _] Hc Hd He. by split. Qed.

Lemma reach_handle sent t : reachable config db sent t → reachable config db sent (with_handle t true false).
Proof.
  intros Hr. eapply (reach_step _ _ _ (with_handle t true (tx t))).
  - eapply reach_step; [exact Hr | apply WriterTask.step_shutdown].
  - replace (with_handle t true false) with (with_handle (with_handle t true (tx t)) true false) by done.
    by apply step_take.
Qed.

(** The rows of [inv_request] that steps of requests have in common. *)
Lemma inv_moves p r g t g' :
  inv p → in_progress p r g → later (task p) t → reachable config db (sent p) t → (arrival r → progress_ok (task p) r g → progress_ok t r g') →
  (connected g' = true → connected g = true) → (is_detached g' = true → connected g = true ∨ is_detached g = true) →
  inv (at_progress (with_task p t) r g').
Proof.
  intros Hi Hp Hl Hr Hok Hc Hd. destruct (i_requests p Hi _ _ _ Hp) as (_ & Ha & Hg).
  pose proof (inv_request p r g [] t g' Hi (or_introl Hp) Ha Hl) as X. rewrite app_nil_r in X.
  apply X; [done | constructor | auto | right; auto].
Qed.

Lemma inv_sends p r g w n g' :
  inv p → in_progress p r g → clones (task p) = S n → (length (channel (task p)) < capacity config)%nat →
  exited (task p) = false → (progress_ok (task p) r g → write_of r w ∧ progress_ok (task p) r g') →
  connected g' = connected g → is_detached g' = is_detached g →
  inv (at_progress (with_sent (with_task p (queued (task p) w n)) w) r g').
Proof.
  intros Hi Hp Hn Hroom Hex Hok Hc Hd. destruct (i_requests p Hi _ _ _ Hp) as (_ & Ha & Hg). destruct (Hok Hg) as [Hw Hg'].
  apply (inv_request p r g [w] (queued (task p) w n) g'); [done | by left | done | by apply later_same | | by apply Forall_singleton | done | right; rewrite Hc, Hd; auto].
  eapply reach_step; [apply (i_reach p Hi) | by apply step_send].
Qed.

Lemma step_keeps_inv p p' : inv p → step config server p p' → inv p'.
Proof.
  intros Hi Hs. pose proof Hi as [Hr Hq Hsent Hc Hd He].
  assert (∀ r g g', in_progress p r g → (progress_ok (task p) r g → progress_ok (task p) r g') →
    (connected g' = true → connected g = true) → (is_detached g' = true → connected g = true ∨ is_detached g = true) →
    inv (at_progress p r g')) as Hmove.
  { intros r g g' Hp Hok. replace (at_progress p r g') with (at_progress (with_task p (task p)) r g') by done.
    apply inv_moves; auto. by apply later_same. }
  assert (∀ r g g', in_progress p r g → connected g' = false → is_detached g' = false →
    (g' = Refused ∨ g' = Lost) → inv (at_progress (with_task p (mark_unhealthy (task p))) r g')) as Hfail.
  { intros r g g' Hp Hc' Hd' Hg'. apply (inv_moves _ _ g); [done | done | apply later_unhealthy | | | congruence | congruence].
    - eapply reach_step; [exact Hr | apply step_unhealthy].
    - intros _ _. by destruct Hg' as [-> | ->]. }
  destruct Hs as [p dt ? ? | p tick Hex | p r Hst Hnone Harr Hsend | p r n Hp Hn Hroom Hex | p r Hp Hack | p r e Hp Hack
    | p r f d Hp Hf | p r f d Hp Hsend | p r f d e Hp Hsend | p r f d n Hp Hn Hroom Hex | p r f d Hp Hack | p r f d e Hp Hack
    | p r g Hp Hcon Hsg | p r g n Hp Hcon Hsg Hn | p Hst | p s Hst Hsig Hdue | p since Hst Hnone | p since Hst Hdue
    | p since Hst Hnone | p since Hst Hdue | p Hst Hex | p Hst | p Hst].
  - by apply inv_stage.
  - apply inv_task; [done | apply later_iterate |]. eapply reach_step; [exact Hr | by apply step_iterate].
  - pose proof (inv_request p r Open [] (cloned (task p)) AcceptSending Hi (or_intror Hnone) Harr) as X.
    rewrite app_nil_r in X. apply X; [by apply later_same | | constructor | done | left; destruct Hst as [-> | ->]; cbn; lia].
    eapply reach_step; [exact Hr | by apply step_clone].
  - by eapply (inv_sends p r AcceptSending); [.. | intros _; split; [by left |] | |].
  - by eapply Hmove.
  - eapply Hfail; [exact Hp | auto ..].
  - eapply Hmove; [done | by intros _ | cbn; auto | cbn; auto].
  - apply (inv_moves _ _ (FinalReady f d)); [done | done | by apply later_same | | done | done | by right].
    eapply reach_step; [exact Hr | by apply step_clone].
  - eapply Hfail; [exact Hp | auto ..].
  - eapply (inv_sends p r (FinalSending f d)); try done. cbn. intros ?. split; [right; eauto | done].
  - eapply Hmove; [done | cbn; intros ?; eauto | done | done].
  - eapply Hfail; [exact Hp | auto ..].
  - by eapply Hmove.
  - apply (inv_moves _ _ g); [done | done | by apply later_same | | done | done | done].
    eapply reach_step; [exact Hr | by apply step_drop_clone].
  - apply inv_stage; cbn; try (intros; lia). done.
  - apply inv_stage; cbn; try (intros; lia). done.
  - apply inv_stage; cbn; try (intros; lia); [done | by intros].
  - apply inv_stage; cbn; try (intros; lia); done.
  - assert (inv (with_task p (with_handle (task p) true false))) as X
      by (apply inv_task; [done | by apply later_same | by apply reach_handle]).
    refine (inv_stage _ (now p) Closed (signalled p) (drain_expired p) (detached_expired p) X _ _ _); cbn; [| by intros | lia].
    intros _ Hx. apply Hc; [rewrite Hst; cbn; lia | done].
  - assert (inv (with_task p (with_handle (task p) true false))) as X
      by (apply inv_task; [done | by apply later_same | by apply reach_handle]).
    refine (inv_stage _ (now p) Closed (signalled p) (drain_expired p) true X _ _ _); cbn; [| done | lia].
    intros _ Hx. apply Hc; [rewrite Hst; cbn; lia | done].
  - apply inv_stage; cbn; [done | | | done]; intros; [apply Hc | apply Hd]; try done; rewrite Hst; cbn; lia.
  - apply inv_stage; cbn; [done | | |]; intros; [apply Hc | apply Hd | apply He]; try done; rewrite Hst; cbn; lia.
  - apply inv_stage; cbn; [done | | |]; intros; [apply Hc | apply Hd | apply He]; try done; rewrite Hst; cbn; lia.
Qed.

Lemma reaches_inv p : reaches config server db p → inv p.
Proof.
  unfold reaches. intros Hs. assert (inv (start db)) as Hi by exact start_inv. revert Hi.
  induction Hs; [done |]. eauto using step_keeps_inv.
Qed.

(** *** The rows the writes leave in flight *)

Lemma terminal_not_in_flight records f b inst :
  RequestRecord.is_terminal f = true → in_flight (final_row records f b inst) = false.
Proof.
  intros Ht. unfold in_flight.
  assert (Row.request_status (final_row records f b inst) = RequestStatus.as_str (RequestRecord.request_status f)) as ->.
  { unfold final_row, updated_row, inserted_row. destruct (price_columns _) as [[? ?] ?]. by destruct (records !! _). }
  unfold RequestRecord.is_terminal in Ht. by destruct (RequestRecord.request_status f).
Qed.

Definition finals_terminal (l : list PendingWrite.t) : Prop :=
  ∀ w f, w ∈ l → is_finalize w f → RequestRecord.is_terminal f = true.

(** What a row in flight after a write was before it. *)
Lemma write_one_in_flight inst w d d' k id :
  finals_terminal [w] → write_one ∅ inst w d = Ok (d', k) →
  match usage_records d' !! id with
  | Some row' => in_flight row' = true →
      (∀ f, is_finalize w f → RequestRecord.request_id f ≠ id)
      ∧ match usage_records d !! id with
        | Some row => in_flight row = true ∧ Row.instance_id row = Row.instance_id row'
        | None => ∃ r, PendingWrite.record w = Some r ∧ RequestRecord.request_id r = id
        end
  | None => usage_records d !! id = None ∧ ∀ f, is_finalize w f → RequestRecord.request_id f ≠ id
  end.
Proof.
  intros Ht. unfold write_one. destruct (PendingWrite.record w) as [r|] eqn:Er.
  2:{ intros [= <- _]. destruct (usage_records d !! id); [intros ? |]; split; auto; unfold is_finalize; intros f [_ E]; congruence. }
  assert (PendingWrite.op w ≠ WriteOp.Finalize → ∀ f, is_finalize w f → RequestRecord.request_id f ≠ id) as Hno
    by (unfold is_finalize; intros ? ? [? _]; done).
  destruct (PendingWrite.op w) eqn:Eo.
  - rewrite decide_False by set_solver. unfold insert_accept, checked_row.
    destruct (Row.check _); cbn; [| by destruct (usage_records d !! _)].
    destruct (usage_records d !! RequestRecord.request_id r) as [r0|] eqn:E0; cbn; intros [= <- _].
    + destruct (usage_records d !! id); auto.
    + cbn. destruct (decide (RequestRecord.request_id r = id)) as [<-|Hne].
      * rewrite lookup_insert_eq, E0. intros _. split; [auto | eauto].
      * rewrite lookup_insert_ne by done. destruct (usage_records d !! id); auto.
  - destruct (finalize_record d r inst) as [d1|] eqn:Ef; cbn; [| done]. intros [= <- _].
    apply finalize_record_Ok in Ef as (b & _ & _ & Eu & _). rewrite Eu.
    assert (is_finalize w r) as Hf by done.
    assert (∀ f, is_finalize w f → f = r) as Huniq by (intros f [_ E]; congruence).
    destruct (decide (RequestRecord.request_id r = id)) as [<-|Hne].
    + rewrite lookup_insert_eq, terminal_not_in_flight; [done |]. eapply Ht; [by left | done].
    + rewrite lookup_insert_ne by done.
      assert (∀ f, is_finalize w f → RequestRecord.request_id f ≠ id) as Hf' by (intros f ->%Huniq; done).
      destruct (usage_records d !! id); auto.
  - intros [= <- _]. destruct (usage_records d !! id); auto.
Qed.

Let inst := LedgerWriterConfig.instance_id config.

Lemma replay_in_flight l d d' id row' :
  finals_terminal l → replay inst d l = Some d' → usage_records d' !! id = Some row' → in_flight row' = true →
  (∀ w f, w ∈ l → is_finalize w f → RequestRecord.request_id f ≠ id)
  ∧ match usage_records d !! id with
    | Some row => in_flight row = true ∧ Row.instance_id row = Row.instance_id row'
    | None => ∃ w r, w ∈ l ∧ PendingWrite.record w = Some r ∧ RequestRecord.request_id r = id
    end.
Proof.
  intros Ht Hr Hrow Hin. revert d Ht Hr. induction l as [|w l IH]; intros d Ht Hr.
  { injection Hr as ->. rewrite Hrow. split; [by intros ? ? ?%elem_of_nil | done]. }
  change (w :: l) with ([w] ++ l) in Hr. unfold inst in Hr. rewrite replay_app in Hr. fold inst in Hr. unfold replay at 1 in Hr. cbn [app write_all] in Hr.
  destruct (write_one ∅ inst w d) as [[d1 k]|] eqn:Ew; [cbn in Hr | done].
  destruct (IH d1) as [Hno Hd1]; [intros ? ? ?; apply Ht; by right | done |].
  pose proof (write_one_in_flight inst w d d1 k id ltac:(intros ? ? ->%list_elem_of_singleton; apply Ht; by left) Ew) as H1'.
  destruct (usage_records d1 !! id) as [row1|].
  - destruct Hd1 as [Hin1 E1]. destruct (H1' Hin1) as [Hw Hd]. split.
    + intros w' f [->|?]%elem_of_cons; eauto.
    + destruct (usage_records d !! id) as [row|]; [destruct Hd; split; [done | congruence] |].
      destruct Hd as (r & ? & ?). exists w, r. split; [by left | done].
  - destruct H1' as [-> Hw]. split; [intros w' f [->|?]%elem_of_cons; eauto |].
    destruct Hd1 as (w' & r & ? & ? & ?). exists w', r. split; [by right | done].
Qed.

(** *** Time *)

(** Where the clock can be, stage by stage. *)
Definition timed (p : Process) : Prop :=
  let bound := grace server + drain_bound server in
  match signalled p with
  | None => stage p = Serving ∧ drain_expired p = false ∧ detached_expired p = false ∧ shutting_down (task p) = false
  | Some s =>
      s ≤ now p
      ∧ (drain_expired p = true → s + bound ≤ now p)
      ∧ match stage p with
        | Serving => False
        | Unready => now p ≤ s + grace server ∧ drain_expired p = false
        | Draining since => since = s + grace server ∧ now p ≤ since + drain_bound server ∧ drain_expired p = false
        | Detaching since => since ≤ s + bound ∧ now p ≤ since + DETACHED_DRAIN_TIMEOUT + DETACHED_POLL
        | _ => True
        end
  end.

Lemma iterate_handle tick t : shutting_down (iterate config tick t) = shutting_down t.
Proof.
  unfold iterate. destruct (receive _ t) as [[ch b] c]. destruct (drain_closed _ ch b c) as [ch' b']. by destruct (_ && _).
Qed.

Lemma timed_same p p' :
  timed p → now p' = now p → stage p' = stage p → signalled p' = signalled p → drain_expired p' = drain_expired p →
  detached_expired p' = detached_expired p → shutting_down (task p') = shutting_down (task p) → timed p'.
Proof. unfold timed. intros Ht -> -> -> -> -> ->. exact Ht. Qed.

Lemma grace_nonneg : 0 ≤ ServerConfig.shutdown_grace_secs server → 0 ≤ grace server.
Proof. unfold grace. destruct (ServerConfig.graceful_shutdown server); lia. Qed.

Lemma step_keeps_timed p p' :
  0 ≤ ServerConfig.shutdown_grace_secs server → timed p → step config server p p' → timed p'.
Proof.
  intros Hg%grace_nonneg Ht Hs. assert (0 < drain_bound server) as Hb by (unfold drain_bound, MIN_DRAIN_BOUND; lia).
  destruct Hs as [p dt Hdt Hdl | p tick ? | p r ? ? ? ? | p r n ? ? ? ? | p r ? ? | p r e ? ? | p r f d ? ?
    | p r f d ? ? | p r f d e ? ? | p r f d n ? ? ? ? | p r f d ? ? | p r f d e ? ? | p r g ? ? ? | p r g n ? ? ? ?
    | p Hst | p s Hst Hsig Hdue | p since Hst Hnone | p since Hst Hdue
    | p since Hst Hnone | p since Hst Hdue | p Hst Hex | p Hst | p Hst];
    try (by eapply timed_same; [exact Ht | ..]); try (eapply timed_same; [exact Ht | ..]; try done; apply iterate_handle);
    unfold timed, deadline in *; cbn in *.
  - destruct (signalled p) as [s|]; [| done]. destruct Ht as (H1' & H2' & H3').
    split; [lia |]. split; [intros ?%H2'; lia |].
    destruct (stage p); try done; specialize (Hdl _ eq_refl); intuition lia.
  - destruct (signalled p) as [s|]; [destruct Ht as (_ & _ & Ht); by rewrite Hst in Ht |].
    destruct Ht as (_ & -> & _). split_and!; [lia | done | lia | done].
  - rewrite Hsig in Ht |- *. rewrite Hst in Ht. destruct Ht as (? & ? & ? & ?). split_and!; try done; lia.
  - destruct (signalled p) as [s|]; rewrite Hst in Ht; [| by destruct Ht]. destruct Ht as (? & ? & -> & ? & ?).
    split_and!; try done; unfold DETACHED_DRAIN_TIMEOUT, DETACHED_POLL; lia.
  - destruct (signalled p) as [s|]; rewrite Hst in Ht; [| by destruct Ht]. destruct Ht as (? & ? & -> & ? & ?).
    split_and!; try done; unfold DETACHED_DRAIN_TIMEOUT, DETACHED_POLL; try lia.
  - destruct (signalled p) as [s|]; rewrite Hst in Ht; [| by destruct Ht]. destruct Ht as (? & ? & _). by split_and!.
  - destruct (signalled p) as [s|]; rewrite Hst in Ht; [| by destruct Ht]. destruct Ht as (? & ? & _). by split_and!.
  - destruct (signalled p) as [s|]; rewrite Hst in Ht; [| by destruct Ht]. destruct Ht as (? & ? & _). by split_and!.
  - destruct (signalled p) as [s|]; rewrite Hst in Ht; [| by destruct Ht]. destruct Ht as (? & ? & _). by split_and!.
  - destruct (signalled p) as [s|]; rewrite Hst in Ht; [| by destruct Ht]. destruct Ht as (? & ? & _). by split_and!.
Qed.

(** C34. The drain is bounded and never starts by itself. Until a signal comes
    the process serves and abandons nothing. From the signal on it is not
    ready, and however slow its clients are, the writer is closed within the
    grace period, the drain bound and the wait for detached finalizes; the
    requests that are left are given up only after the first two. *)
Theorem drain_is_bounded (p : Process)
    (Hgrace : 0 ≤ ServerConfig.shutdown_grace_secs server) (Hreach : reaches config server db p) :
  match signalled p with
  | None => stage p = Serving ∧ drain_expired p = false ∧ (fst (readyz false (task p)) = 200 ↔ is_ready (task p) = true)
  | Some s =>
      fst (readyz true (task p)) = 503
      ∧ (drain_expired p = true → s + grace server + drain_bound server ≤ now p)
      ∧ ((rank (stage p) < 4)%nat →
           now p ≤ s + grace server + drain_bound server + DETACHED_DRAIN_TIMEOUT + DETACHED_POLL)
  end.
Proof.
  assert (timed p) as Ht.
  { unfold reaches in Hreach. assert (timed (start db)) as Ht by done. revert Ht. induction Hreach; eauto using step_keeps_timed. }
  unfold timed in Ht. destruct (signalled p) as [s|].
  - destruct Ht as (Hs & Hx & Hst). split; [done |]. split; [intros ?%Hx; lia |].
    apply grace_nonneg in Hgrace. unfold DETACHED_DRAIN_TIMEOUT, DETACHED_POLL in *.
    assert (0 < drain_bound server) by (unfold drain_bound, MIN_DRAIN_BOUND; lia).
    destruct (stage p); cbn; lia.
  - destruct Ht as (? & ? & _). split_and!; [done | done |]. unfold readyz. cbn. by destruct (is_ready (task p)).
Qed.

(** *** The end *)

Lemma sent_finals p : inv p → ∀ w f, w ∈ sent p → is_finalize w f → ∃ r g, in_progress p r g ∧ resolves r f.
Proof.
  intros Hi w f Hw Hf. destruct (i_sent p Hi w Hw) as (r & g & Hp & [->|(f' & -> & Hres)]); [by destruct Hf |].
  destruct Hf as [_ [= <-]]. eauto.
Qed.

Lemma sent_record p w r' :
  inv p → w ∈ sent p → PendingWrite.record w = Some r' → ∃ r g, in_progress p r g ∧ RequestRecord.request_id r = RequestRecord.request_id r'.
Proof.
  intros Hi Hw E. destruct (i_sent p Hi w Hw) as (r & g & Hp & [->|(f & -> & Hres)]); injection E as <-; [eauto |].
  exists r, g. split; [done | by rewrite (res_id _ _ Hres)].
Qed.

Lemma sent_coherent p : inv p → coherent (sent p).
Proof.
  intros Hi. split.
  - intros w a Hw [Ho Ea]. destruct (i_sent p Hi w Hw) as (r & g & Hp & [->|(f & -> & _)]); [| done].
    injection Ea as <-. by destruct (i_requests p Hi _ _ _ Hp) as (_ & [_ ?] & _).
  - intros w v a f Hw Hv [Ho Ea] Hf E. destruct (i_sent p Hi w Hw) as (r & g & Hp & [->|(f' & -> & _)]); [| done].
    injection Ea as <-. destruct (sent_finals p Hi v f Hv Hf) as (r' & g' & Hp' & Hres).
    unfold in_progress in *. rewrite E, (res_id _ _ Hres), Hp' in Hp. injection Hp as <- <-. apply (res_same _ _ Hres).
Qed.

Lemma acknowledged_elem (w : PendingWrite.t) l : (w, Ok ()) ∈ l → w ∈ acknowledged l.
Proof.
  intros Hw. unfold acknowledged. apply list_elem_of_fmap. exists (w, Ok ()). split; [done |].
  by apply list_elem_of_filter.
Qed.

Lemma acknowledged_sent (l : list (PendingWrite.t * result unit WriteError)) : acknowledged l ⊆ l.*1.
Proof. intros w. unfold acknowledged. rewrite !list_elem_of_fmap. intros (x & -> & [_ ?]%list_elem_of_filter). eauto. Qed.

(** C5. A graceful end leaves nothing to recover. When nobody was given up on,
    the instance is released only after every request is over and every write
    that was ever queued is answered; and while the writer never failed, the
    rows of this instance that are still in flight are those of requests their
    own clients abandoned. *)
Theorem graceful_end_leaves_nothing (p : Process) (i : string)
    (Hreach : reaches config server db p) (Hend : stage p = Released ∨ stage p = Ended)
    (Hpatient : drain_expired p = false ∧ detached_expired p = false)
    (Hself : LedgerWriterConfig.instance_id config = Some i)
    (Hnew : ∀ id row, usage_records db !! id = Some row → Row.instance_id row ≠ Some i) :
  (∀ id r g, requests p !! id = Some (r, g) → over g = true)
  ∧ (acks (task p)).*1 = sent p
  ∧ (healthy (task p) = true → ∀ id row, usage_records (ledger (task p)) !! id = Some row →
       in_flight row = true → Row.instance_id row = Some i → ∃ r, requests p !! id = Some (r, Abandoned)).
Proof.
  pose proof (reaches_inv p Hreach) as Hi. destruct Hpatient as [Hd Hx].
  assert (∀ id r g, requests p !! id = Some (r, g) → over g = true) as Hover.
  { intros id r g E. unfold over.
    rewrite (i_connected p Hi ltac:(destruct Hend as [-> | ->]; cbn; lia) Hd id _ E : connected g = false).
    by rewrite (i_detached p Hi ltac:(destruct Hend as [-> | ->]; cbn; lia) Hd Hx id _ E : is_detached g = false). }
  destruct (reachable_inv config db _ _ (i_reach p Hi)) as [Hfifo _ _ _ Hexit _ Hlog].
  specialize (Hlog (sent_coherent p Hi)).
  destruct (Hexit (i_exited p Hi ltac:(destruct Hend as [-> | ->]; cbn; lia))) as (Eb & Ec & _).
  rewrite Eb, Ec, !app_nil_r in Hfifo. split_and!; [done | done |].
  intros Hh id row Hrow Hfl Hown.
  assert (finals_terminal (acknowledged (acks (task p)))) as Hterm.
  { intros w f Hw%acknowledged_sent Hf. rewrite <- Hfifo in Hw.
    destruct (sent_finals p Hi w f Hw Hf) as (? & ? & _ & Hres). by apply (res_terminal _ _ Hres). }
  destruct (replay_in_flight _ _ _ _ _ Hterm Hlog Hrow Hfl) as [Hno Hfrom].
  destruct (usage_records db !! id) as [row0|] eqn:E0.
  { destruct Hfrom as [_ E]. exfalso. apply (Hnew id row0 E0). by rewrite E. }
  destruct Hfrom as (w & r' & Hw%acknowledged_sent & Er & <-). rewrite <- Hfifo in Hw.
  destruct (sent_record p w r' Hi Hw Er) as (r & g & Hp & E). unfold in_progress in Hp. rewrite E in Hp. exists r. rewrite Hp.
  specialize (Hover _ _ _ Hp). destruct (i_requests p Hi _ _ _ Hp) as (_ & _ & Hg).
  destruct g; cbn in Hover, Hg; try (by destruct detached); try congruence; try done.
  exfalso. destruct Hg as (f & Hres & Ha%acknowledged_elem). apply (Hno _ f Ha); [done |]. by rewrite (res_id _ _ Hres), E.
Qed.
End Invariant.

(** ** One request across a shutdown *)

Definition server_1 : ServerConfig.t := ServerConfig.default 1000.
Definition config_1 : LedgerWriterConfig.t := LedgerWriterConfig.mk 8 4 10 (Some "i-1"%string).
Definition calm : Tick := mkTick true (λ _, mkAttempt None None) (λ _, mkAttempt None None).

Lemma finished_1_resolves : resolves request_1 finished_1.
Proof.
  split; [reflexivity | reflexivity | by repeat split | | |]; unfold clock.
  - intros z [[= <-]|[[= <-]|[= <-]]]; unfold is_u64; ranges; lia.
  - intros z [= <-]. ranges. lia.
  - change (RequestRecord.duration_ms finished_1) with 350. ranges. lia.
Qed.

Lemma request_1_arrival : arrival request_1.
Proof. split; [done |]. exact (proj1 batch_1_coherent accept_1 request_1 ltac:(by left) (conj eq_refl eq_refl)). Qed.

(** The request is answered when the signal comes; its stream's finalize is
    detached, and reaches the ledger while the process drains. *)
Definition life_0 : Process := start ledger_0.
Definition life_1 : Process := at_progress (with_task life_0 (cloned (task life_0))) request_1 AcceptSending.
Definition life_2 : Process :=
  at_progress (with_sent (with_task life_1 (queued (task life_1) (accept_write request_1) 0)) (accept_write request_1)) request_1 AcceptWaiting.
Definition life_3 : Process := with_task life_2 (iterate config_1 calm (task life_2)).
Definition life_4 : Process := at_progress (at_progress life_3 request_1 Open) request_1 (FinalReady finished_1 true).
Definition life_5 : Process :=
  mkProcess (now life_4) Unready (Some (now life_4)) (drain_expired life_4) (detached_expired life_4) (sent life_4) (task life_4) (requests life_4).
Definition life_6 : Process := at_progress (with_task life_5 (cloned (task life_5))) request_1 (FinalSending finished_1 true).
Definition life_7 : Process :=
  at_progress (with_sent (with_task life_6 (queued (task life_6) (final_write finished_1) 0)) (final_write finished_1)) request_1 (FinalWaiting finished_1 true).
Definition life_8 : Process :=
  mkProcess (now life_7 + 5000) (stage life_7) (signalled life_7) (drain_expired life_7) (detached_expired life_7) (sent life_7) (task life_7) (requests life_7).
Definition life_9 : Process := with_stage life_8 (Draining (now life_8)).
Definition life_10 : Process := with_stage life_9 (Detaching (now life_9)).
Definition life_flushed : Process := with_task life_10 (iterate config_1 calm (task life_10)).
Definition life_11 : Process := at_progress life_flushed request_1 Done.
Definition life_12 : Process := with_stage (with_task life_11 (with_handle (task life_11) true false)) Closed.
Definition life_13 : Process := with_task life_12 (iterate config_1 calm (task life_12)).
Definition life_14 : Process := with_stage (with_stage life_13 Drained) Released.

Lemma only_request_1 f (g : Progress) p : requests p = {[ "req-1"%string := (request_1, g) ]} → f g = false → none_is f p.
Proof. intros E Hf id x. rewrite E, lookup_singleton_Some. by intros [_ <-]. Qed.

Lemma acks_3 : acks (task life_3) = [(accept_write request_1, Ok ())].
Proof. reflexivity. Qed.

Lemma acks_flushed : acks (task life_flushed) = [(accept_write request_1, Ok ()); (final_write finished_1, Ok ())].
Proof. reflexivity. Qed.

Lemma life_serving : rtc (step config_1 server_1) life_0 life_4.
Proof.
  eapply rtc_l; [apply (step_arrive _ _ life_0 request_1); [by left | reflexivity | exact request_1_arrival | reflexivity] |].
  eapply rtc_l; [apply (step_accept_sent _ _ life_1 request_1 0); [reflexivity | reflexivity | cbn; lia | reflexivity] |].
  eapply rtc_l; [apply (step_task _ _ life_2 calm); reflexivity |].
  eapply rtc_l; [apply (step_accepted _ _ life_3 request_1); [reflexivity | rewrite acks_3; by left] |].
  eapply rtc_l; [apply (step_finish _ _ (at_progress life_3 request_1 Open) request_1 finished_1 true); [reflexivity | exact finished_1_resolves] |].
  apply rtc_refl.
Qed.

Lemma life_ending : rtc (step config_1 server_1) life_4 life_10.
Proof.
  eapply rtc_l; [apply (step_signal _ _ life_4); reflexivity |].
  eapply rtc_l; [apply (step_finalize _ _ life_5 request_1 finished_1 true); reflexivity |].
  eapply rtc_l; [apply (step_final_sent _ _ life_6 request_1 finished_1 true 0); [reflexivity | reflexivity | cbn; lia | reflexivity] |].
  eapply rtc_l; [apply (step_tick _ _ life_7 5000); [lia | by intros d [= <-]] |].
  eapply rtc_l; [eapply (step_close_listener _ _ life_8); [reflexivity | reflexivity | done] |].
  eapply rtc_l; [eapply (step_served _ _ life_9); [reflexivity |] |].
  { eapply (only_request_1 _ (FinalWaiting finished_1 true)); reflexivity. }
  apply rtc_refl.
Qed.

Lemma life_over : rtc (step config_1 server_1) life_10 life_14.
Proof.
  eapply rtc_l; [apply (step_task _ _ life_10 calm); reflexivity |].
  eapply rtc_l; [apply (step_finalized _ _ life_flushed request_1 finished_1 true); [reflexivity | rewrite acks_flushed; by right; left] |].
  eapply rtc_l; [eapply (step_close _ _ life_11); [reflexivity |] |].
  { eapply (only_request_1 _ Done); reflexivity. }
  eapply rtc_l; [apply (step_task _ _ life_12 calm); reflexivity |].
  eapply rtc_l; [apply (step_joined _ _ life_13); reflexivity |].
  eapply rtc_l; [apply (step_release _ _ (with_stage life_13 Drained)); reflexivity |].
  apply rtc_refl.
Qed.

Lemma life_reached : reaches config_1 server_1 ledger_0 life_10 ∧ reaches config_1 server_1 ledger_0 life_14.
Proof.
  unfold reaches. change (start ledger_0) with life_0.
  split; [| etrans; [| exact life_over]]; (etrans; [exact life_serving | exact life_ending]).
Qed.

Lemma drain_is_bounded_witness :
  reaches config_1 server_1 ledger_0 life_10 ∧ (0 ≤ ServerConfig.shutdown_grace_secs server_1)
  ∧ fst (readyz true (task life_10)) = 503 ∧ now life_10 ≤ 0 + 5000 + 30000 + 10000 + 2.
Proof.
  assert (0 ≤ ServerConfig.shutdown_grace_secs server_1) as Hg by (cbn; lia). split_and!; [apply life_reached | done | |];
    destruct (drain_is_bounded config_1 server_1 ledger_0 life_10 Hg (proj1 life_reached)) as (X & _ & Y); [exact X |].
  apply Y. cbn. lia.
Defined.

Lemma ledger_0_new id row : usage_records ledger_0 !! id = Some row → Row.instance_id row ≠ Some "i-1"%string.
Proof. intros E. exfalso. exact (lookup_empty_Some (M:=gmap string) id row E). Qed.

Lemma graceful_end_leaves_nothing_witness :
  reaches config_1 server_1 ledger_0 life_14
  ∧ (acks (task life_14)).*1 = [accept_write request_1; final_write finished_1].
Proof.
  split; [apply life_reached |].
  exact (proj1 (proj2 (graceful_end_leaves_nothing config_1 server_1 ledger_0 life_14 "i-1"
    (proj2 life_reached) (or_introl eq_refl) (conj eq_refl eq_refl) eq_refl ledger_0_new))).
Defined.

(** The stage a deadline is for: a drain that is not given up on at its bound
    would go on for as long as a client likes. *)
Example deadlines :
  grace server_1 = 5000 ∧ drain_bound server_1 = 30000
  ∧ drain_bound (ServerConfig.mk true 45 0 [] 0 0) = 45000 ∧ grace (ServerConfig.mk false 45 0 [] 0 0) = 0
  ∧ deadline server_1 life_8 = Some 5000 ∧ deadline server_1 life_9 = Some 35000 ∧ deadline server_1 life_4 = None.
Proof. by vm_compute. Qed.
