(* ===== verification/Statements.v ===== *)
(** * A day of usage as a statement ([src/src/billing/statements.rs], and the
    aggregate query of [src/src/billing/store.rs])

    Which days may be closed, which rows a statement covers, which of them are
    charged and which are only counted. *)

From stdpp Require Import base strings list gmap numbers sorting fin_maps.
From Stdlib Require Import ZArith Lia.
From S2P Require Import Prelude TimeLib Calendar Timefmt Pricing Period Status Partner LedgerTypes Sql Rollup.

Local Open Scope Z_scope.

(** ** Data *)

(** [None] in [prices] is a group metered with no complete price. *)
Module UsageGroup.
Record t : Type := mk {
  model : string;
  prices : option PricingSnapshot.t;
  request_count : Z;
  input_tokens : option Z;
  cached_tokens : option Z;
  output_tokens : option Z;
  incomplete_count : Z }.
End UsageGroup.

Module StatementLineDraft.
Record t : Type := mk {
  model : string;
  prices : PricingSnapshot.t;
  request_count : Z;
  input_tokens : Z;
  cached_input_tokens : Z;
  output_tokens : Z;
  cost : LineCost.t }.
End StatementLineDraft.

Inductive BillingError : Type :=
  | Database (e : SqlError)
  | PartnerNotFound (consumer_id : string)
  | PartnerExists (consumer_id : string)
  | StatementNotPayable (id : Z) (billing_mode : string)
  | Invalid (message : string).

Module StatementDraft.
Record t `{TimeCrate} : Type := mk {
  consumer_id : string;
  billing_date : BillingDay.t;
  billing_mode : BillingMode.t;
  period_start : string;
  period_end : string;
  billing_cutoff_at : string;
  due_at : option OffsetDateTime;
  incomplete_usage_count : Z;
  lines : list StatementLineDraft.t }.
Arguments mk {_} _ _ _ _ _ _ _ _ _.

Fixpoint add_lines (total : MicroUsd.t) (l : list StatementLineDraft.t) : result MicroUsd.t BillingError :=
  match l with
  | [] => Ok total
  | line :: l' =>
      let? total' := ok_or (MicroUsd.checked_add total (LineCost.total (StatementLineDraft.cost line)))
                       (Invalid "a statement total overflowed micro-dollars") in
      add_lines total' l'
  end.

Definition total `{TimeCrate} (self : t) : result MicroUsd.t BillingError :=
  add_lines (MicroUsd.from_i64 0) (lines self).
End StatementDraft.

(** ** The aggregate query *)

(** [GROUP BY] key: the model and the three price columns. *)
Definition GroupKey : Type := string * option Z * option Z * option Z.

Definition group_key (r : Row.t) : GroupKey :=
  (Row.model r, Row.input_price_snapshot r, Row.cached_input_price_snapshot r, Row.output_price_snapshot r).

(** The [billable] column. A comparison with [NULL] is [NULL], which [AND]
    carries to the outer [COALESCE(.., 0)]. *)
Definition row_billable (r : Row.t) : bool :=
  match Row.input_tokens r, Row.output_tokens r with
  | Some i, Some o =>
      (0 <=? i) && (0 <=? o)
      && is_Some_b (Row.input_price_snapshot r) && is_Some_b (Row.cached_input_price_snapshot r)
      && is_Some_b (Row.output_price_snapshot r)
      && (bool_decide (Row.cached_input_price_snapshot r = Row.input_price_snapshot r)
          || is_Some_b (Row.cached_tokens r))
      && (0 <=? default 0 (Row.cached_tokens r)) && (default 0 (Row.cached_tokens r) <=? i)
  | _, _ => false
  end.

(** [SUM] of a column over non-negative integers: [NULL] when there is no value,
    an "integer overflow" error when the sum leaves 64 bits. *)
Definition sql_sum (values : list (option Z)) : result (option Z) SqlError :=
  match omap id values with
  | [] => Ok None
  | vs => if in_range i64_min i64_max (foldr Z.add 0 vs) then Ok (Some (foldr Z.add 0 vs)) else Err OtherFailure
  end.

Definition usage_group (rows : list Row.t) (key : GroupKey) : result UsageGroup.t SqlError :=
  let '(model, i, c, o) := key in
  let group := filter (λ r, group_key r = key) rows in
  let summed := filter (λ r, row_billable r = true) group in
  let? input := sql_sum (Row.input_tokens <$> summed) in
  let? cached := sql_sum (Row.cached_tokens <$> summed) in
  let? output := sql_sum (Row.output_tokens <$> summed) in
  Ok (UsageGroup.mk model
        (match PricingSnapshot.from_columns i c o with Ok p => Some p | Err _ => None end)
        (Z.of_nat (length summed)) input cached output
        (Z.of_nat (length (filter (λ r, row_billable r = false) group)))).

(** [ORDER BY model, prices], [NULL] first. *)
Definition null_le (a b : option Z) : bool :=
  match a, b with None, _ => true | Some _, None => false | Some x, Some y => x <=? y end.
Definition key_leb (a b : GroupKey) : bool :=
  let '(am, ai, ac, ao) := a in
  let '(bm, bi, bc, bo) := b in
  str_ltb am bm ||
  (String.eqb am bm &&
   ((negb (null_le bi ai)) || (bool_decide (ai = bi) &&
    ((negb (null_le bc ac)) || (bool_decide (ac = bc) && null_le ao bo))))).
Definition group_key_le (a b : GroupKey) : Prop := key_leb a b = true.
#[global] Instance group_key_le_dec a b : Decision (group_key_le a b).
Proof. unfold group_key_le. apply _. Defined.

Fixpoint map_result {A B E} (f : A → result B E) (l : list A) : result (list B) E :=
  match l with
  | [] => Ok []
  | x :: l' => let? y := f x in let? ys := map_result f l' in Ok (y :: ys)
  end.

(** The rows of the period. *)
Definition in_period (consumer_id period_start period_end : string) (r : Row.t) : bool :=
  String.eqb (Row.consumer_id r) consumer_id && str_leb period_start (Row.created_at r)
  && str_ltb (Row.created_at r) period_end.

Definition period_rows (records : Records) (consumer_id period_start period_end : string) : list Row.t :=
  filter (λ r, in_period consumer_id period_start period_end r = true) (map_to_list records).*2.

Definition usage_groups (records : Records) (consumer_id period_start period_end : string)
    : result (list UsageGroup.t) SqlError :=
  let rows := period_rows records consumer_id period_start period_end in
  map_result (usage_group rows) (merge_sort group_key_le (remove_dups (group_key <$> rows))).

(** ** Pricing a group *)

Inductive IncompleteReason : Type :=
  | UsageMissing | CachedCountMissing | MissingPriceSnapshot | CachedMoreThanInput | CostOverflow.

Definition reason_of (error : PriceError) : IncompleteReason :=
  match error with
  | NoPriceSnapshot _ => MissingPriceSnapshot
  | IncompleteUsage => UsageMissing
  | CachedExceedsInput _ _ => CachedMoreThanInput
  | Overflow _ => CostOverflow
  | NotANumber _ | OutOfRange _ => MissingPriceSnapshot
  end.

Definition token_count (value : option Z) : option Z := value ≫= u64_checked.

Definition line_for (group : UsageGroup.t) : result StatementLineDraft.t IncompleteReason :=
  match UsageGroup.prices group with
  | None => Err MissingPriceSnapshot
  | Some prices =>
      if needs_cached_count prices && negb (is_Some_b (UsageGroup.cached_tokens group)) then Err CachedCountMissing
      else
        match billable (token_count (UsageGroup.input_tokens group))
                       (token_count (UsageGroup.output_tokens group))
                       (token_count (UsageGroup.cached_tokens group)) with
        | Err e => Err (reason_of e)
        | Ok (input, output, cached) =>
            match price_line input cached output prices with
            | Err e => Err (reason_of e)
            | Ok cost =>
                Ok (StatementLineDraft.mk (UsageGroup.model group) prices (UsageGroup.request_count group)
                      (i64_wrap input) (i64_wrap cached) (i64_wrap output) cost)
            end
        end
  end.

(** ** The generator *)

Definition MAX_CATCHUP_DAYS : Z := 31.

Module Generator.
Section Generator.
Context `{TimeCrate}.

Record t : Type := mk { timezone : BillingTimezone.t; close_delay_minutes : Z }.

Definition new (timezone : BillingTimezone.t) (close_delay_minutes : Z) : t :=
  mk timezone (Z.max close_delay_minutes 0).

Definition cutoff_for (self : t) (day : BillingDay.t) : OffsetDateTime :=
  odt_add (BillingDay.end_exclusive_utc day (timezone self)) (close_delay_minutes self * NS_PER_MINUTE).

Definition closable_through (self : t) (now : OffsetDateTime) : option BillingDay.t :=
  let today := BillingDay.of_instant now (timezone self) in
  let yesterday := BillingDay.previous today in
  if odt_le (cutoff_for self yesterday) now then Some yesterday
  else
    let day_before := BillingDay.previous yesterday in
    if odt_le (cutoff_for self day_before) now then Some day_before else None.

Definition oldest_closeable (through : BillingDay.t) : BillingDay.t :=
  BillingDay.previous_n through (MAX_CATCHUP_DAYS - 1).

Definition parse_day (last_closed : option string) : option BillingDay.t := last_closed ≫= BillingDay.parse.

(** [while day <= through]; [None] when the fuel runs out first. *)
Fixpoint days_from (fuel : nat) (day through : BillingDay.t) : option (list BillingDay.t) :=
  if BillingDay.leb day through then
    match fuel with
    | O => None
    | S fuel' =>
        match days_from fuel' (BillingDay.next day) through with
        | Some days => Some (day :: days)
        | None => None
        end
    end
  else Some [].

Definition start_day (last_closed : option string) (through : BillingDay.t) : BillingDay.t :=
  let floor := oldest_closeable through in
  let day := match parse_day last_closed with Some last => BillingDay.next last | None => floor end in
  if BillingDay.ltb day floor then floor else day.

Definition days_to_close (last_closed : option string) (through : BillingDay.t) : option (list BillingDay.t) :=
  days_from (Z.to_nat MAX_CATCHUP_DAYS) (start_day last_closed through) through.

Definition catchup_truncated (last_closed : option string) (through : BillingDay.t) : bool :=
  match parse_day last_closed with
  | Some last => BillingDay.ltb (BillingDay.next last) (oldest_closeable through)
  | None => true
  end.

(** The loop over the groups: the lines so far and the incomplete count. *)
Fixpoint add_groups (groups : list UsageGroup.t) (lines : list StatementLineDraft.t) (incomplete : Z)
    : list StatementLineDraft.t * Z :=
  match groups with
  | [] => (lines, incomplete)
  | group :: groups' =>
      let incomplete := i64_wrap (incomplete + UsageGroup.incomplete_count group) in
      if UsageGroup.request_count group =? 0 then add_groups groups' lines incomplete
      else
        match line_for group with
        | Ok line => add_groups groups' (lines ++ [line]) incomplete
        | Err _ => add_groups groups' lines (i64_wrap (incomplete + UsageGroup.request_count group))
        end
  end.

Definition statement_for_day (self : t) (records : Records) (partner : Partner.t) (day : BillingDay.t)
    (cutoff : OffsetDateTime) : result StatementDraft.t BillingError :=
  let period := BillingPeriod.for_day day (timezone self) in
  let '(start, end_) := BillingPeriod.to_bounds period in
  match usage_groups records (Partner.consumer_id partner) start end_ with
  | Err e => Err (Database e)
  | Ok groups =>
      let '(lines, incomplete) := add_groups groups [] 0 in
      Ok (StatementDraft.mk (Partner.consumer_id partner) day (Partner.billing_mode partner) start end_
            (format_ts cutoff) (Partner.due_at_for partner (BillingPeriod.end_ period)) incomplete lines)
  end.
End Generator.
End Generator.

(** ** Which days are closed *)
Section Days.
Context `{TimeCrate, !TimeLaws}.

Definition generator_ok (g : Generator.t) : Prop :=
  BillingTimezone.valid (Generator.timezone g) ∧ 0 ≤ Generator.close_delay_minutes g ≤ 100 * 1440.

Lemma leb_num a b : BillingDay.leb a b = (BillingDay.num a <=? BillingDay.num b).
Proof. done. Qed.

Lemma next_num_bounds d :
  MIN_JULIAN ≤ BillingDay.num d + 1 ≤ MAX_JULIAN → BillingDay.num (BillingDay.next d) = BillingDay.num d + 1.
Proof. intros. unfold BillingDay.num. cbn. by rewrite date_add_julian. Qed.

(** The walk visits consecutive days. *)
Lemma days_from_spec fuel day through :
  MIN_JULIAN ≤ BillingDay.num day → day_ok through →
  BillingDay.num through - BillingDay.num day < Z.of_nat fuel →
  ∃ days, Generator.days_from fuel day through = Some days
    ∧ BillingDay.num <$> days
        = seqZ (BillingDay.num day) (BillingDay.num through + 1 - BillingDay.num day).
Proof.
  revert day. induction fuel as [|fuel IH]; intros day Hd Ht Hf; cbn [Generator.days_from]; rewrite leb_num.
  - destruct (Z.leb_spec (BillingDay.num day) (BillingDay.num through)); [lia |].
    exists []. split; [done |]. rewrite seqZ_nil by lia. done.
  - destruct (Z.leb_spec (BillingDay.num day) (BillingDay.num through)).
    + unfold day_ok in Ht. pose proof (next_num_bounds day ltac:(lia)) as En.
      destruct (IH (BillingDay.next day)) as (days & -> & Ed); [lia | done | lia |].
      exists (day :: days). split; [done |]. rewrite fmap_cons, Ed, En.
      rewrite (seqZ_cons (BillingDay.num day)) by lia. f_equal. f_equal; lia.
    + exists []. split; [done |]. rewrite seqZ_nil by lia. done.
Qed.

Lemma walk_spec (last_closed : option string) (through : BillingDay.t)
    (Hthrough : day_ok through)
    (Hlast : ∀ d, Generator.parse_day last_closed = Some d → day_ok d) :
  let floor := BillingDay.num through - 30 in
  let first := match Generator.parse_day last_closed with
               | Some d => Z.max floor (BillingDay.num d + 1)
               | None => floor end in
  ∃ days, Generator.days_to_close last_closed through = Some days
    ∧ BillingDay.num <$> days = seqZ first (BillingDay.num through + 1 - first)
    ∧ (length days ≤ 31)%nat
    ∧ Generator.catchup_truncated last_closed through
        = match Generator.parse_day last_closed with Some d => BillingDay.num d + 1 <? floor | None => true end.
Proof.
  intros floor first.
  assert (BillingDay.num (Generator.oldest_closeable through) = floor) as Efloor.
  { unfold Generator.oldest_closeable. rewrite day_previous_n_num; [done | done |]. unfold MAX_CATCHUP_DAYS. lia. }
  assert (∀ d, Generator.parse_day last_closed = Some d → BillingDay.num (BillingDay.next d) = BillingDay.num d + 1) as Hnext.
  { intros d Hd. apply day_next_num, Hlast, Hd. }
  assert (BillingDay.num (Generator.start_day last_closed through) = first) as Efirst.
  { unfold Generator.start_day, first. change (BillingDay.ltb ?a ?b) with (BillingDay.num a <? BillingDay.num b).
    destruct (Generator.parse_day last_closed) as [d|] eqn:Ed.
    - rewrite Efloor, (Hnext d eq_refl). destruct (Z.ltb_spec (BillingDay.num d + 1) floor); [lia |].
      rewrite (Hnext d eq_refl). lia.
    - rewrite Efloor, Z.ltb_irrefl. done. }
  unfold Generator.days_to_close. unfold day_ok in Hthrough.
  assert (floor ≤ first) by (unfold first; destruct (Generator.parse_day last_closed); lia).
  destruct (days_from_spec (Z.to_nat MAX_CATCHUP_DAYS) (Generator.start_day last_closed through) through)
    as (days & E & En).
  { rewrite Efirst. lia. }
  { done. }
  { rewrite Efirst. unfold MAX_CATCHUP_DAYS. lia. }
  exists days. rewrite Efirst in En. split_and!; [done | done | |].
  - rewrite <- (length_fmap BillingDay.num), En, length_seqZ. lia.
  - unfold Generator.catchup_truncated. destruct (Generator.parse_day last_closed) as [d|] eqn:Ed; [| done].
    change (BillingDay.ltb ?a ?b) with (BillingDay.num a <? BillingDay.num b). by rewrite Efloor, (Hnext d eq_refl).
Qed.

(** The catch-up walk always ends and visits exactly the days owed: every
    day after the last closed one up to the newest closable day, oldest first,
    each once, and never more than thirty-one; a partner behind by more starts
    at the bound, which is reported. *)
Theorem days_to_close_spec (last_closed : option string) (through : BillingDay.t)
    (Hthrough : day_ok through)
    (Hlast : ∀ d, Generator.parse_day last_closed = Some d → day_ok d) :
  let floor := BillingDay.num through - 30 in
  let first := match Generator.parse_day last_closed with
               | Some d => Z.max floor (BillingDay.num d + 1)
               | None => floor end in
  ∃ days, Generator.days_to_close last_closed through = Some days
    ∧ BillingDay.num <$> days = seqZ first (BillingDay.num through + 1 - first)
    ∧ (length days ≤ 31)%nat
    ∧ Generator.catchup_truncated last_closed through
        = match Generator.parse_day last_closed with Some d => BillingDay.num d + 1 <? floor | None => true end.
Proof. by apply walk_spec. Qed.

(** The cutoff of a day, against an instant. *)
Lemma cutoff_le g d now :
  generator_ok g → MIN_JULIAN + 300 ≤ BillingDay.num d ≤ MAX_JULIAN - 300 →
  odt_le (Generator.cutoff_for g d) now =
    ((BillingDay.num d + 1 - UNIX_EPOCH_JULIAN) * NS_PER_DAY + Generator.close_delay_minutes g * NS_PER_MINUTE
      <=? unix_timestamp_nanos now + BillingTimezone.offset_minutes (Generator.timezone g) * NS_PER_MINUTE).
Proof.
  intros [Htz Hdelay] Hd. unfold odt_le, Generator.cutoff_for.
  assert (day_ok d) as Hday by (unfold day_ok; lia).
  destruct (valid_offset _ Htz) as (_ & _ & Hoff).
  rewrite odt_add_nanos; rewrite end_utc_nanos by done.
  - destruct (Z.leb_spec ((BillingDay.num d + 1 - UNIX_EPOCH_JULIAN) * NS_PER_DAY + Generator.close_delay_minutes g * NS_PER_MINUTE)
      (unix_timestamp_nanos now + BillingTimezone.offset_minutes (Generator.timezone g) * NS_PER_MINUTE)); apply Z.leb_le || apply Z.leb_gt; lia.
  - unfold local_julian. time_consts. 
    set (x := (BillingDay.num d + 1 - 2440588) * (86400 * 1000000000) - BillingTimezone.offset_minutes (Generator.timezone g) * (60 * 1000000000)
       + Generator.close_delay_minutes g * (60 * 1000000000) + 0 * 1000000000).
    assert ((BillingDay.num d - 2440588) * (86400 * 1000000000) ≤ x ≤ (BillingDay.num d + 103 - 2440588) * (86400 * 1000000000)) as Hx by (unfold x; lia).
    pose proof (Z.div_le_mono ((BillingDay.num d - 2440588) * (86400 * 1000000000)) x (86400 * 1000000000) ltac:(lia) ltac:(lia)) as L1.
    pose proof (Z.div_le_mono x ((BillingDay.num d + 103 - 2440588) * (86400 * 1000000000)) (86400 * 1000000000) ltac:(lia) ltac:(lia)) as L2.
    rewrite Z.div_mul in L1, L2 by lia. lia.
Qed.

(** Instants with a year of calendar on either side. *)
Definition instant_mid (now : OffsetDateTime) : Prop :=
  MIN_JULIAN + 500 ≤ local_julian (unix_timestamp_nanos now) 0 ≤ MAX_JULIAN - 500.

(** The local time of [now], as whole days and the rest. *)
Lemma today_num g now :
  generator_ok g → instant_mid now →
  let today := BillingDay.of_instant now (Generator.timezone g) in
  let local := unix_timestamp_nanos now + BillingTimezone.offset_minutes (Generator.timezone g) * NS_PER_MINUTE in
  (BillingDay.num today - UNIX_EPOCH_JULIAN) * NS_PER_DAY ≤ local
    < (BillingDay.num today + 1 - UNIX_EPOCH_JULIAN) * NS_PER_DAY
  ∧ MIN_JULIAN + 498 ≤ BillingDay.num today ≤ MAX_JULIAN - 498.
Proof.
  intros [Htz _] Hmid today local. destruct (valid_offset _ Htz) as (_ & _ & Hoff).
  assert (instant_ok now) as Hok by (unfold instant_mid, instant_ok in *; lia).
  assert (BillingDay.num today = local / NS_PER_DAY + UNIX_EPOCH_JULIAN) as E by (by apply of_instant_num).
  pose proof (Z.div_mod local NS_PER_DAY ltac:(done)) as Hdm.
  pose proof (Z.mod_pos_bound local NS_PER_DAY ltac:(done)) as Hm.
  split; [rewrite E; time_consts; lia |].
  unfold instant_mid, local_julian in Hmid. rewrite Z.mul_0_l, Z.add_0_r in Hmid.
  pose proof (Z.div_mod (unix_timestamp_nanos now) NS_PER_DAY ltac:(done)) as Hdm'.
  pose proof (Z.mod_pos_bound (unix_timestamp_nanos now) NS_PER_DAY ltac:(done)) as Hm'.
  rewrite E. unfold local in *. time_consts. nia.
Qed.

(** With a close delay of at most a day there is always a day to close,
    it is the newest one whose period has ended and whose delay has passed,
    and it is never today: no day is closed while it can still receive
    requests and none is held back longer than its delay. *)
Theorem closable_through_latest (g : Generator.t) (now : OffsetDateTime)
    (Hg : generator_ok g) (Hnow : instant_mid now)
    (Hdelay : Generator.close_delay_minutes g ≤ 1440) :
  ∃ d, Generator.closable_through g now = Some d
    ∧ odt_le (Generator.cutoff_for g d) now = true
    ∧ BillingDay.num d < BillingDay.num (BillingDay.of_instant now (Generator.timezone g))
    ∧ ∀ d', MIN_JULIAN + 300 ≤ BillingDay.num d' ≤ MAX_JULIAN - 300 →
        BillingDay.num d < BillingDay.num d' → odt_le (Generator.cutoff_for g d') now = false.
Proof.
  destruct (today_num g now Hg Hnow) as [Hlocal Hrange]. pose proof Hg as [_ Hdel]. unfold Generator.closable_through.
  set (today := BillingDay.of_instant now (Generator.timezone g)) in *.
  assert (day_ok today) as Hd0 by (unfold day_ok; lia).
  pose proof (day_previous_num today Hd0) as E1.
  assert (day_ok (BillingDay.previous today)) as Hd1 by (unfold day_ok; lia).
  pose proof (day_previous_num _ Hd1) as E2.
  destruct (odt_le (Generator.cutoff_for g (BillingDay.previous today)) now) eqn:L1.
  - exists (BillingDay.previous today). split_and!; [done | done | lia |]. intros d' Hd' Hlt.
    rewrite cutoff_le by done. apply Z.leb_gt. time_consts. nia.
  - rewrite cutoff_le in L1 by (done || lia). apply Z.leb_gt in L1.
    assert (odt_le (Generator.cutoff_for g (BillingDay.previous (BillingDay.previous today))) now = true) as L2.
    { rewrite cutoff_le by (done || lia). apply Z.leb_le. time_consts. nia. }
    rewrite L2. exists (BillingDay.previous (BillingDay.previous today)). split_and!; [done | done | lia |].
    intros d' Hd' Hlt. rewrite cutoff_le by done. apply Z.leb_gt. time_consts. nia.
Qed.

(** With a close delay of two days or more no day is ever closable, so no
    statement is ever written, although the day before yesterday's
    predecessors have long been settled. *)
Theorem closable_through_stalls (g : Generator.t) (now : OffsetDateTime)
    (Hg : generator_ok g) (Hnow : instant_mid now)
    (Hdelay : 2880 ≤ Generator.close_delay_minutes g) :
  Generator.closable_through g now = None
  ∧ ∃ d, odt_le (Generator.cutoff_for g d) now = true.
Proof.
  destruct (today_num g now Hg Hnow) as [Hlocal Hrange]. pose proof Hg as [_ Hdel]. unfold Generator.closable_through.
  set (today := BillingDay.of_instant now (Generator.timezone g)) in *.
  assert (day_ok today) as Hd0 by (unfold day_ok; lia).
  pose proof (day_previous_num today Hd0) as E1.
  assert (day_ok (BillingDay.previous today)) as Hd1 by (unfold day_ok; lia).
  pose proof (day_previous_num _ Hd1) as E2. split.
  - assert (odt_le (Generator.cutoff_for g (BillingDay.previous today)) now = false) as ->.
    { rewrite cutoff_le by (done || lia). apply Z.leb_gt. time_consts. nia. }
    assert (odt_le (Generator.cutoff_for g (BillingDay.previous (BillingDay.previous today))) now = false) as ->; [| done].
    rewrite cutoff_le by (done || lia). apply Z.leb_gt. time_consts. nia.
  - exists (BillingDay.previous_n (BillingDay.previous_n today 51) 51).
    assert (BillingDay.num (BillingDay.previous_n today 51) = BillingDay.num today - 51) as F1 by (by rewrite day_previous_n_num).
    assert (day_ok (BillingDay.previous_n today 51)) as F2 by (unfold day_ok; lia).
    pose proof (day_previous_n_num _ 51 F2 ltac:(lia)) as F3.
    rewrite cutoff_le by (done || lia). apply Z.leb_le. time_consts. nia.
Qed.
End Days.

(** ** What a statement covers *)
Section Coverage.
Context `{TimeCrate}.

Lemma map_result_Ok {A B E} (f : A → result B E) l ys :
  map_result f l = Ok ys → Forall2 (λ x y, f x = Ok y) l ys.
Proof.
  revert ys. induction l as [|x l IH]; intros ys; cbn [map_result]; [by intros [= <-] |].
  destruct (f x) as [y|] eqn:Ex; [| done]. destruct (map_result f l) as [zs|]; [| done].
  intros [= <-]. constructor; [done | by apply IH].
Qed.

(** A group holds the rows of its key, split by whether they can be billed. *)
Definition rows_of (rows : list Row.t) (key : GroupKey) : list Row.t := filter (λ r, group_key r = key) rows.
Definition billed_rows (rows : list Row.t) (key : GroupKey) : list Row.t :=
  filter (λ r, row_billable r = true) (rows_of rows key).

Lemma usage_group_Ok rows key g :
  usage_group rows key = Ok g →
  UsageGroup.request_count g = Z.of_nat (length (billed_rows rows key))
  ∧ UsageGroup.request_count g + UsageGroup.incomplete_count g = Z.of_nat (length (rows_of rows key))
  ∧ 0 ≤ UsageGroup.incomplete_count g
  ∧ UsageGroup.model g = key.1.1.1
  ∧ sql_sum (Row.input_tokens <$> billed_rows rows key) = Ok (UsageGroup.input_tokens g)
  ∧ sql_sum (Row.cached_tokens <$> billed_rows rows key) = Ok (UsageGroup.cached_tokens g)
  ∧ sql_sum (Row.output_tokens <$> billed_rows rows key) = Ok (UsageGroup.output_tokens g)
  ∧ UsageGroup.prices g = match PricingSnapshot.from_columns key.1.1.2 key.1.2 key.2 with Ok p => Some p | Err _ => None end.
Proof.
  destruct key as [[[m i] c] o]. unfold usage_group, billed_rows, rows_of.
  destruct (sql_sum (Row.input_tokens <$> _)) as [si|] eqn:Ei; [| done].
  destruct (sql_sum (Row.cached_tokens <$> _)) as [sc|] eqn:Ec; [| done].
  destruct (sql_sum (Row.output_tokens <$> _)) as [so|] eqn:Eo; [| done].
  intros [= <-]. cbn. split_and!; try done; [| lia].
  by rewrite (length_filter_split row_billable (filter (λ r, group_key r = (m, i, c, o)) rows)).
Qed.

(** The group keys of a read: every row's, each once. *)
Definition keys_of (rows : list Row.t) : list GroupKey :=
  merge_sort group_key_le (remove_dups (group_key <$> rows)).

Lemma keys_of_NoDup rows : NoDup (keys_of rows).
Proof. unfold keys_of. rewrite merge_sort_Permutation. apply NoDup_remove_dups. Qed.

Lemma keys_of_in rows r : r ∈ rows → group_key r ∈ keys_of rows.
Proof.
  intros Hr. unfold keys_of. rewrite merge_sort_Permutation. apply elem_of_remove_dups, list_elem_of_fmap. eauto.
Qed.

Definition group_requests (g : UsageGroup.t) : Z := UsageGroup.request_count g + UsageGroup.incomplete_count g.

Lemma usage_groups_count records consumer start end_ groups :
  usage_groups records consumer start end_ = Ok groups →
  zsum (group_requests <$> groups) = Z.of_nat (length (period_rows records consumer start end_)).
Proof.
  unfold usage_groups. set (rows := period_rows _ _ _ _). intros Hg%map_result_Ok.
  rewrite <- (zsum_by_key group_key (keys_of rows) rows); [| apply keys_of_NoDup | apply keys_of_in].
  fold (keys_of rows) in Hg. f_equal. induction Hg as [|k g ks gs Hk _ IH]; [done |].
  rewrite !fmap_cons, IH. f_equal. apply usage_group_Ok in Hk as (_ & Hk & _). exact Hk.
Qed.

Definition line_requests (l : StatementLineDraft.t) : Z := StatementLineDraft.request_count l.

Lemma line_for_requests g line :
  line_for g = Ok line → line_requests line = UsageGroup.request_count g.
Proof.
  unfold line_for. destruct (UsageGroup.prices g); [| done]. destruct (_ && _); [done |].
  destruct (billable _ _ _) as [[[? ?] ?]|]; [| done]. destruct (price_line _ _ _ _); [| done]. by intros [= <-].
Qed.

Lemma add_groups_bounds groups lines n ls m :
  - 2 ^ 63 ≤ n < 2 ^ 63 → Generator.add_groups groups lines n = (ls, m) → - 2 ^ 63 ≤ m < 2 ^ 63.
Proof.
  assert (∀ x, - 2 ^ 63 ≤ i64_wrap x < 2 ^ 63) as Hb.
  { intros x. unfold i64_wrap, wrap_signed. pose proof (Z.mod_pos_bound (x + 2 ^ (64 - 1)) (2 ^ 64) ltac:(lia)). lia. }
  revert lines n. induction groups as [|g groups IH]; intros lines n Hn; cbn [Generator.add_groups].
  { by intros [= <- <-]. }
  destruct (_ =? 0); [by apply IH |]. destruct (line_for g); by apply IH.
Qed.

(** The wrapped counter is the wrapped exact count. *)
Lemma add_groups_count groups lines n ls m :
  Forall (λ g, 0 ≤ UsageGroup.request_count g ∧ 0 ≤ UsageGroup.incomplete_count g) groups →
  Generator.add_groups groups lines n = (ls, m) →
  ∃ fresh skipped, ls = lines ++ fresh ∧ i64_wrap m = i64_wrap (n + skipped) ∧ 0 ≤ skipped
    ∧ zsum (line_requests <$> fresh) + skipped = zsum (group_requests <$> groups)
    ∧ 0 ≤ zsum (line_requests <$> fresh).
Proof.
  intros Hg. revert lines n. induction Hg as [|g groups [Hr Hi] _ IH]; intros lines n; cbn [Generator.add_groups].
  { intros [= <- <-]. exists [], 0. split_and!; try done; [by rewrite app_nil_r | f_equal; lia]. }
  intros E.
  assert (∀ x y, i64_wrap (i64_wrap x + y) = i64_wrap (x + y)) as Hw by (intros; apply wrap_signed_add).
  destruct (Z.eqb_spec (UsageGroup.request_count g) 0) as [Hz|Hz].
  - apply IH in E as (fresh & sk & -> & Hm & Hn & Hs & Hp). exists fresh, (UsageGroup.incomplete_count g + sk).
    split_and!; [done | rewrite Hm, Hw; f_equal; lia | lia | | done].
    rewrite fmap_cons. unfold group_requests at 1. unfold zsum in *. cbn. lia.
  - destruct (line_for g) as [line|e] eqn:El.
    + apply IH in E as (fresh & sk & -> & Hm & Hn & Hs & Hp). exists (line :: fresh), (UsageGroup.incomplete_count g + sk).
      apply line_for_requests in El.
      rewrite !fmap_cons. unfold zsum, group_requests in *. cbn [foldr].
      split_and!; [by rewrite <- app_assoc | rewrite Hm, Hw; f_equal; lia | lia | lia | lia].
    + apply IH in E as (fresh & sk & -> & Hm & Hn & Hs & Hp).
      exists fresh, (UsageGroup.incomplete_count g + UsageGroup.request_count g + sk).
      split_and!; [done | rewrite Hm, Hw, <- Z.add_assoc, Hw; f_equal; lia | lia | | done].
      rewrite fmap_cons. unfold group_requests at 1. unfold zsum in *. cbn. lia.
Qed.

Lemma statement_for_day_Ok g records partner day cutoff draft :
  Generator.statement_for_day g records partner day cutoff = Ok draft →
  let rows := period_rows records (Partner.consumer_id partner)
                (BillingPeriod.to_bounds (BillingPeriod.for_day day (Generator.timezone g))).1
                (BillingPeriod.to_bounds (BillingPeriod.for_day day (Generator.timezone g))).2 in
  ∃ groups, map_result (usage_group rows) (keys_of rows) = Ok groups
    ∧ Generator.add_groups groups [] 0 = (StatementDraft.lines draft, StatementDraft.incomplete_usage_count draft).
Proof.
  unfold Generator.statement_for_day, BillingPeriod.to_bounds. cbn [fst snd]. unfold usage_groups.
  set (rows := period_rows _ _ _ _). fold (keys_of rows).
  destruct (map_result (usage_group rows) (keys_of rows)) as [groups|]; [| done].
  destruct (Generator.add_groups groups [] 0) as [lines n] eqn:E. intros [= <-]. by exists groups.
Qed.

Lemma groups_nonneg rows ks groups :
  map_result (usage_group rows) ks = Ok groups →
  Forall (λ g, 0 ≤ UsageGroup.request_count g ∧ 0 ≤ UsageGroup.incomplete_count g) groups.
Proof.
  intros Hg%map_result_Ok. induction Hg as [|k g ks gs Hk _ IH]; [done |]. constructor; [| done].
  apply usage_group_Ok in Hk as (-> & _ & ? & _). lia.
Qed.

(** C12. No request is dropped from a statement and none is counted twice: the
    requests on its lines and the requests counted as incomplete add up to
    exactly the partner's rows of the period. *)
Theorem statement_counts_every_request (g : Generator.t) (records : Records) (partner : Partner.t)
    (day : BillingDay.t) (cutoff : OffsetDateTime) (draft : StatementDraft.t)
    (Hdraft : Generator.statement_for_day g records partner day cutoff = Ok draft) :
  let bounds := BillingPeriod.to_bounds (BillingPeriod.for_day day (Generator.timezone g)) in
  let rows := period_rows records (Partner.consumer_id partner) bounds.1 bounds.2 in
  Z.of_nat (length rows) ≤ i64_max →
  zsum (line_requests <$> StatementDraft.lines draft) + StatementDraft.incomplete_usage_count draft
    = Z.of_nat (length rows)
  ∧ 0 ≤ StatementDraft.incomplete_usage_count draft.
Proof.
  intros bounds rows Hlen. destruct (statement_for_day_Ok _ _ _ _ _ _ Hdraft) as (groups & Hg & Hadd).
  fold bounds in Hg. fold rows in Hg.
  assert (zsum (group_requests <$> groups) = Z.of_nat (length rows)) as Hsum by (by eapply usage_groups_count).
  destruct (add_groups_count _ _ _ _ _ (groups_nonneg _ _ _ Hg) Hadd) as (fresh & sk & El & Em & Hsk & Hs & Hpos).
  cbn in El. subst fresh.
  pose proof (add_groups_bounds groups [] 0 _ _ ltac:(lia) Hadd) as Hb.
  assert (∀ x, - 2 ^ 63 ≤ x < 2 ^ 63 → i64_wrap x = x) as Hid by (intros; by apply wrap_signed_id).
  assert (0 + sk ≤ i64_max) by lia.
  rewrite !Hid in Em by (done || (ranges; lia)). lia.
Qed.

(** A line restates its group's rows: their number, their token sums and the
    cost of those sums at their one price list. *)
Definition line_of (rows : list Row.t) (line : StatementLineDraft.t) : Prop :=
  let '(i, c, o) := PricingSnapshot.as_tuple (StatementLineDraft.prices line) in
  let billed := billed_rows rows (StatementLineDraft.model line, Some i, Some c, Some o) in
  StatementLineDraft.request_count line = Z.of_nat (length billed)
  ∧ StatementLineDraft.input_tokens line = zsum ((λ r, default 0 (Row.input_tokens r)) <$> billed)
  ∧ StatementLineDraft.cached_input_tokens line = zsum ((λ r, default 0 (Row.cached_tokens r)) <$> billed)
  ∧ StatementLineDraft.output_tokens line = zsum ((λ r, default 0 (Row.output_tokens r)) <$> billed)
  ∧ price_line (StatementLineDraft.input_tokens line) (StatementLineDraft.cached_input_tokens line)
      (StatementLineDraft.output_tokens line) (StatementLineDraft.prices line) = Ok (StatementLineDraft.cost line).

Lemma sql_sum_Ok values v :
  sql_sum values = Ok v →
  default 0 v = zsum (default 0 <$> values) ∧ is_i64 (zsum (default 0 <$> values)) ∧ (v = None ↔ omap id values = []).
Proof.
  assert (zsum (default 0 <$> values) = foldr Z.add 0 (omap id values)) as ->.
  { unfold zsum. induction values as [|[x|] values IH]; csimpl; [done | by rewrite IH | by rewrite IH]. }
  unfold sql_sum. destruct (omap id values) as [|x l]; [intros [= <-]; split_and!; [done | ranges; cbn; lia | done..] |].
  unfold in_range. destruct (Z.leb_spec i64_min (foldr Z.add 0 (x :: l))); [| done].
  destruct (Z.leb_spec (foldr Z.add 0 (x :: l)) i64_max); [| done]. cbn [andb]. intros [= <-].
  split_and!; [done | done | done..].
Qed.

Lemma token_count_sum v n : token_count v = Some n → v = Some n ∧ is_u64 n.
Proof.
  destruct v as [x|]; cbn; [| done]. intros E. apply checked_Some in E as [-> ?]. done.
Qed.

Lemma row_billable_true r :
  row_billable r = true →
  ∃ x y i c o, Row.input_tokens r = Some x ∧ Row.output_tokens r = Some y ∧ 0 ≤ x ∧ 0 ≤ y
    ∧ Row.input_price_snapshot r = Some i ∧ Row.cached_input_price_snapshot r = Some c
    ∧ Row.output_price_snapshot r = Some o ∧ (c = i ∨ is_Some (Row.cached_tokens r))
    ∧ 0 ≤ default 0 (Row.cached_tokens r) ≤ x.
Proof.
  unfold row_billable. destruct (Row.input_tokens r) as [x|]; [| done]. destruct (Row.output_tokens r) as [y|]; [| done].
  rewrite !andb_true_iff, orb_true_iff, bool_decide_eq_true, !Z.leb_le.
  destruct (Row.input_price_snapshot r) as [i|], (Row.cached_input_price_snapshot r) as [c|],
    (Row.output_price_snapshot r) as [o|]; cbn; try (intros (((((((? & ?) & ?) & ?) & ?) & ?) & ?) & ?); done).
  intros (((((((? & ?) & _) & _) & _) & Hor) & ?) & ?). exists x, y, i, c, o. split_and!; try done.
  destruct Hor as [[= ->]|Hor]; [by left | right]. by destruct (Row.cached_tokens r).
Qed.

(** A non-empty sum of reported values is a value. *)
Lemma sql_sum_Some {A} (f : A → option Z) l v :
  sql_sum (f <$> l) = Ok v → (∃ x, x ∈ l ∧ is_Some (f x)) →
  v = Some (zsum ((λ x, default 0 (f x)) <$> l)) ∧ is_i64 (zsum ((λ x, default 0 (f x)) <$> l)).
Proof.
  intros Hv (x & Hx & Hs). destruct (sql_sum_Ok _ _ Hv) as (E & Hi & Hn).
  rewrite <- list_fmap_compose in E, Hi. split; [| exact Hi].
  destruct v as [w|]; cbn in E; [by f_equal |]. exfalso.
  assert (∃ y, y ∈ omap id (f <$> l)) as [y Hy].
  { destruct Hs as [y Ey]. exists y. apply list_elem_of_omap. exists (f x). split; [| exact Ey].
    apply list_elem_of_fmap. eauto. }
  rewrite (proj1 Hn eq_refl) in Hy. by apply elem_of_nil in Hy.
Qed.

Lemma price_at (o : option Z) : 0 ≤ default 0 o ∧ default 0 o ≤ i64_max → ∀ z, o = Some z → 0 ≤ z ≤ i64_max.
Proof. intros Ho z ->. exact Ho. Qed.

(** Prices a stored row can carry. *)
Definition row_prices_ok (r : Row.t) : Prop :=
  ∀ z, z ∈ [Row.input_price_snapshot r; Row.cached_input_price_snapshot r; Row.output_price_snapshot r] →
    0 ≤ default 0 z ≤ i64_max.

Lemma group_line rows key g :
  usage_group rows key = Ok g → 0 < UsageGroup.request_count g → Forall row_prices_ok rows →
  match line_for g with
  | Ok line => line_of rows line
      ∧ key = (StatementLineDraft.model line,
               Some (PricePerMillion.as_i64 (PricingSnapshot.input (StatementLineDraft.prices line))),
               Some (PricePerMillion.as_i64 (PricingSnapshot.cached_input (StatementLineDraft.prices line))),
               Some (PricePerMillion.as_i64 (PricingSnapshot.output (StatementLineDraft.prices line))))
  | Err reason => reason = CostOverflow
  end.
Proof.
  intros Hg Hpos Hprices. destruct (usage_group_Ok rows key g Hg) as (Ecount & _ & _ & Em & Ei & Ec & Eo & Ep).
  set (billed := billed_rows rows key) in *.
  assert (∀ r, r ∈ billed → group_key r = key ∧ row_billable r = true ∧ r ∈ rows) as Hb.
  { intros r. unfold billed, billed_rows, rows_of. rewrite !list_elem_of_filter. tauto. }
  destruct billed as [|r0 l0] eqn:Ebilled; [cbn in Ecount; lia |]. rewrite <- Ebilled in *.
  assert (r0 ∈ billed) as Hr0 by (rewrite Ebilled; by left).
  destruct (Hb r0 Hr0) as (Ek & Hbill & Hin0).
  destruct (row_billable_true r0 Hbill) as (x0 & y0 & i & c & o & Hx0 & Hy0 & _ & _ & Hpi & Hpc & Hpo & _ & _).
  assert (row_prices_ok r0) as Hp0 by (by eapply Forall_forall in Hprices).
  unfold group_key in Ek. rewrite Hpi, Hpc, Hpo in Ek. subst key. cbn [fst snd] in *. cbn in Ep, Em.
  assert (prices_ok (PricingSnapshot.new (PricePerMillion.new i) (PricePerMillion.new c) (PricePerMillion.new o))) as Hpok.
  { unfold row_prices_ok in Hp0. rewrite Hpi, Hpc, Hpo in Hp0. cbn.
    split_and!; [apply (Hp0 (Some i)) | apply (Hp0 (Some i)) | apply (Hp0 (Some c)) | apply (Hp0 (Some c))
      | apply (Hp0 (Some o)) | apply (Hp0 (Some o))]; set_solver. }
  set (p := PricingSnapshot.new _ _ _) in *.
  destruct (sql_sum_Some _ _ _ Ei) as [Ei' Hi64]; [exists r0; split; [done | rewrite Hx0; by eexists] |].
  destruct (sql_sum_Some _ _ _ Eo) as [Eo' Ho64]; [exists r0; split; [done | rewrite Hy0; by eexists] |].
  destruct (sql_sum_Ok _ _ Ec) as (Ec' & Hc64 & Hcn). rewrite <- list_fmap_compose in Ec', Hc64.
  set (si := zsum _) in Ei', Hi64. set (so := zsum _) in Eo', Ho64.
  change (default 0 ∘ Row.cached_tokens) with (λ r, default 0 (Row.cached_tokens r)) in *.
  set (sc := zsum _) in Ec', Hc64.
  assert (0 ≤ so ∧ 0 ≤ sc ≤ si) as (Hso & Hsc & Hle).
  { unfold so, sc, si. split_and!.
    - apply zsum_nonneg, Forall_fmap, Forall_forall. intros r Hr. destruct (Hb r Hr) as (_ & Hr' & _).
      destruct (row_billable_true r Hr') as (? & ? & ? & ? & ? & _ & Ey & _ & ? & _). cbn. by rewrite Ey.
    - apply zsum_nonneg, Forall_fmap, Forall_forall. intros r Hr. destruct (Hb r Hr) as (_ & Hr' & _).
      destruct (row_billable_true r Hr') as (? & ? & ? & ? & ? & _ & _ & _ & _ & _ & _ & _ & _ & ? & _). done.
    - apply zsum_map_le, Forall_forall. intros r Hr. destruct (Hb r Hr) as (_ & Hr' & _).
      destruct (row_billable_true r Hr') as (? & ? & ? & ? & ? & Ex & _ & _ & _ & _ & _ & _ & _ & _ & ?). by rewrite Ex. }
  unfold line_for. rewrite Ep.
  assert (needs_cached_count p && negb (is_Some_b (UsageGroup.cached_tokens g)) = false) as ->.
  { unfold needs_cached_count. destruct (bool_decide_reflect (PricingSnapshot.cached_input p ≠ PricingSnapshot.input p)) as [Hne|]; [| done].
    destruct (row_billable_true r0 Hbill) as (? & ? & i' & c' & ? & _ & _ & _ & _ & Hpi' & Hpc' & _ & Hor & _).
    rewrite Hpi in Hpi'. rewrite Hpc in Hpc'. injection Hpi' as <-. injection Hpc' as <-.
    destruct Hor as [->|Hs]; [by destruct Hne |].
    destruct (sql_sum_Some _ _ _ Ec) as [-> _]; [by exists r0 | done]. }
  assert (is_u64 si ∧ is_u64 so ∧ is_u64 sc) as (Hsi & Hso' & Hsc') by (ranges; lia).
  rewrite Ei', Eo'. cbn [token_count mbind option_bind]. unfold u64_checked.
  rewrite !checked_in by done. cbn [billable].
  assert (default 0 (token_count (UsageGroup.cached_tokens g)) = sc) as ->.
  { rewrite <- Ec'. destruct (UsageGroup.cached_tokens g) as [w|]; cbn in *; [| done].
    unfold u64_checked. rewrite checked_in; [done | by rewrite Ec']. }
  pose proof (price_line_eq si sc so p Hsi Hsc' Hso' Hpok) as Hpl. cbv zeta in Hpl.
  destruct (Z.ltb_spec si sc); [lia |].
  destruct (price_line si sc so p) as [cost|e] eqn:Epl.
  - unfold line_of. cbn [StatementLineDraft.model StatementLineDraft.prices StatementLineDraft.request_count
      StatementLineDraft.input_tokens StatementLineDraft.cached_input_tokens StatementLineDraft.output_tokens StatementLineDraft.cost].
    rewrite Em. split; [| done]. cbn [PricingSnapshot.as_tuple p PricingSnapshot.input PricingSnapshot.cached_input PricingSnapshot.output PricePerMillion.as_i64].
    fold billed. fold p. unfold i64_wrap.
    assert (∀ z, is_i64 z → wrap_signed 64 z = z) as Hid by (intros z Hz; apply wrap_signed_id; [lia | ranges; change (2 ^ (64 - 1)) with 9223372036854775808; lia]).
    rewrite !Hid by done. by split_and!.
  - destruct (_ || _) in Hpl; [by injection Hpl as -> |]. destruct (_ <? _) in Hpl; [by injection Hpl as -> | done].
Qed.

(** The group key a line was made from. *)
Definition line_key (line : StatementLineDraft.t) : GroupKey :=
  (StatementLineDraft.model line,
   Some (PricePerMillion.as_i64 (PricingSnapshot.input (StatementLineDraft.prices line))),
   Some (PricePerMillion.as_i64 (PricingSnapshot.cached_input (StatementLineDraft.prices line))),
   Some (PricePerMillion.as_i64 (PricingSnapshot.output (StatementLineDraft.prices line)))).

Definition priced (g : UsageGroup.t) : option StatementLineDraft.t :=
  if UsageGroup.request_count g =? 0 then None else match line_for g with Ok l => Some l | Err _ => None end.

Lemma add_groups_lines groups lines n :
  (Generator.add_groups groups lines n).1 = lines ++ omap priced groups.
Proof.
  revert lines n. induction groups as [|g groups IH]; intros lines n; cbn [Generator.add_groups omap list_omap];
    [by rewrite app_nil_r |].
  unfold priced at 1. destruct (_ =? 0); [by rewrite IH |]. destruct (line_for g); rewrite IH; [by rewrite <- app_assoc | done].
Qed.

Lemma priced_line rows key g line :
  usage_group rows key = Ok g → Forall row_prices_ok rows → priced g = Some line →
  line_of rows line ∧ line_key line = key.
Proof.
  intros Hg Hp. unfold priced. destruct (Z.eqb_spec (UsageGroup.request_count g) 0); [done |].
  pose proof (usage_group_Ok _ _ _ Hg) as (Hc & _).
  pose proof (group_line rows key g Hg ltac:(lia) Hp) as Hl. destruct (line_for g); [| done].
  intros [= <-]. destruct Hl as [? ->]. done.
Qed.

Lemma priced_lines rows ks groups :
  Forall2 (λ k g, usage_group rows k = Ok g) ks groups → Forall row_prices_ok rows →
  Forall (line_of rows) (omap priced groups) ∧ (line_key <$> omap priced groups) `sublist_of` ks.
Proof.
  intros Hg Hp. induction Hg as [|k g ks gs Hk _ [IH1 IH2]]; [done |]. cbn [omap list_omap].
  destruct (priced g) as [line|] eqn:E.
  - destruct (priced_line rows k g line Hk Hp E) as [Hl <-]. split; [by constructor |].
    rewrite fmap_cons. by apply sublist_skip.
  - split; [done | by apply sublist_cons].
Qed.

Lemma lines_exact (g : Generator.t) (records : Records) (partner : Partner.t)
    (day : BillingDay.t) (cutoff : OffsetDateTime) (draft : StatementDraft.t)
    (Hdraft : Generator.statement_for_day g records partner day cutoff = Ok draft) :
  let bounds := BillingPeriod.to_bounds (BillingPeriod.for_day day (Generator.timezone g)) in
  let rows := period_rows records (Partner.consumer_id partner) bounds.1 bounds.2 in
  Forall row_prices_ok rows →
  Forall (line_of rows) (StatementDraft.lines draft)
  ∧ NoDup (line_key <$> StatementDraft.lines draft)
  ∧ ∀ r, r ∈ rows → row_billable r = true →
      (∃ line, line ∈ StatementDraft.lines draft ∧ line_key line = group_key r)
      ∨ (∃ group, usage_group rows (group_key r) = Ok group ∧ line_for group = Err CostOverflow).
Proof.
  intros bounds rows Hp. destruct (statement_for_day_Ok _ _ _ _ _ _ Hdraft) as (groups & Hg & Hadd).
  fold bounds in Hg. fold rows in Hg. apply map_result_Ok in Hg.
  pose proof (add_groups_lines groups [] 0) as El. rewrite Hadd in El. cbn [fst app] in El. rewrite El.
  destruct (priced_lines rows _ _ Hg Hp) as [Hl Hsub]. split_and!; [done | |].
  { eapply sublist_NoDup; [apply (keys_of_NoDup rows) | exact Hsub]. }
  intros r Hr Hb. apply keys_of_in in Hr as Hk. apply list_elem_of_lookup in Hk as [j Hj].
  destruct (Forall2_lookup_l _ _ _ _ _ Hg Hj) as (group & Hgj & Hgroup).
  assert (0 < UsageGroup.request_count group) as Hpos.
  { destruct (usage_group_Ok _ _ _ Hgroup) as (-> & _).
    assert (r ∈ billed_rows rows (group_key r)) as Hin by (unfold billed_rows, rows_of; by rewrite !list_elem_of_filter).
    destruct (billed_rows rows (group_key r)); [by apply elem_of_nil in Hin | cbn; lia]. }
  pose proof (group_line rows _ group Hgroup Hpos Hp) as Hline.
  destruct (line_for group) as [line|reason] eqn:Eline; [left | right; exists group; by subst].
  exists line. split; [| symmetry; apply Hline].
  apply list_elem_of_omap. exists group. split; [by eapply list_elem_of_lookup_2 |].
  unfold priced. destruct (Z.eqb_spec (UsageGroup.request_count group) 0); [lia |]. by rewrite Eline.
Qed.

(** C11. A statement's lines are exact. Each line holds all billable requests
    of one model at one price list and nothing else, its token counts are the
    sums of theirs, its cost is the price of those sums, no two lines share
    a model and price list, and a group of billable requests is left off only
    when its cost does not fit in micro-dollars. *)
Theorem statement_lines_exact (g : Generator.t) (records : Records) (partner : Partner.t)
    (day : BillingDay.t) (cutoff : OffsetDateTime) (draft : StatementDraft.t)
    (Hdraft : Generator.statement_for_day g records partner day cutoff = Ok draft) :
  let bounds := BillingPeriod.to_bounds (BillingPeriod.for_day day (Generator.timezone g)) in
  let rows := period_rows records (Partner.consumer_id partner) bounds.1 bounds.2 in
  Forall row_prices_ok rows →
  Forall (line_of rows) (StatementDraft.lines draft)
  ∧ NoDup (line_key <$> StatementDraft.lines draft)
  ∧ ∀ r, r ∈ rows → row_billable r = true →
      (∃ line, line ∈ StatementDraft.lines draft ∧ line_key line = group_key r)
      ∨ (∃ group, usage_group rows (group_key r) = Ok group ∧ line_for group = Err CostOverflow).
Proof. exact (lines_exact g records partner day cutoff draft Hdraft). Qed.

(** The rows of a statement are those of its local day: a request stored
    with its accept time is in the statement's range exactly when that instant
    falls on the statement's day in the billing timezone. *)
Theorem period_rows_are_the_days (r : Row.t) (t : OffsetDateTime) (day : BillingDay.t)
    (tz : BillingTimezone.t) (consumer_id : string) `{!TimeLaws}
    (Hr : Row.created_at r = format_ts t) (Ht : ledger_instant t)
    (Hday : day_ok day) (Htz : BillingTimezone.valid tz)
    (Hs : ledger_instant (BillingDay.start_utc day tz)) (He : ledger_instant (BillingDay.end_exclusive_utc day tz)) :
  in_period consumer_id (BillingPeriod.to_bounds (BillingPeriod.for_day day tz)).1
    (BillingPeriod.to_bounds (BillingPeriod.for_day day tz)).2 r = true
  ↔ Row.consumer_id r = consumer_id ∧ BillingDay.of_instant t tz = day.
Proof.
  unfold in_period, BillingPeriod.to_bounds. cbn [fst snd BillingPeriod.for_day BillingPeriod.start BillingPeriod.end_].
  rewrite Hr, !andb_true_iff, String.eqb_eq. unfold str_leb. rewrite negb_true_iff, <- not_true_iff_false.
  rewrite !format_ts_lt by done.
  rewrite <- (proj1 (period_partitions t day tz (proj1 Ht) Hday Htz)).
  unfold BillingPeriod.contains, odt_le, odt_lt. cbn [BillingPeriod.for_day BillingPeriod.start BillingPeriod.end_].
  rewrite andb_true_iff, Z.leb_le, Z.ltb_lt. intuition lia.
Qed.
End Coverage.

(** ** At a concrete day *)
Definition generator_1 : Generator.t := Generator.new tz_plus7 30.
Definition acme : Partner.t :=
  Partner.mk "acme" "Acme" "billing@acme.test" BillingMode.Invoice 720
    "2026-01-01T00:00:00.000000000Z" "2026-01-01T00:00:00.000000000Z".
Definition day_2026_09_24 : BillingDay.t := BillingDay.of_instant t1 tz_plus7.
Definition usage_row (input cached output : option Z) : Row.t :=
  Row.mk (format_ts t1) "acme" "gpt-4o" "chat_completions" 1 (Some 200) "completed" None input output cached
    (Some 120) 350 "available" None None (Some 95000) (Some 47500) (Some 475000).
(** Two billable requests and one the provider did not measure. *)
Definition day_records : Records :=
  <["req-1"%string := usage_row (Some 1000) (Some 400) (Some 20)]>
    (<["req-2"%string := usage_row (Some 500) (Some 0) (Some 10)]>
       (<["req-3"%string := usage_row (Some 500) None (Some 10)]> ∅)).
Definition cutoff_1 : OffsetDateTime := Generator.cutoff_for generator_1 day_2026_09_24.
Definition empty_draft : StatementDraft.t :=
  StatementDraft.mk "" day_2026_09_24 BillingMode.Invoice "" "" "" None 0 [].
Definition draft_1 : StatementDraft.t :=
  unwrap_or (Generator.statement_for_day generator_1 day_records acme day_2026_09_24 cutoff_1) empty_draft.

Lemma draft_1_Ok : Generator.statement_for_day generator_1 day_records acme day_2026_09_24 cutoff_1 = Ok draft_1.
Proof. apply is_ok_unwrap_or. vm_compute. reflexivity. Qed.

(** One line: 1500 prompt tokens, 400 of them cached, for 138 micro-dollars. *)
Example draft_1_shape :
  (λ l, (StatementLineDraft.request_count l, StatementLineDraft.input_tokens l,
         StatementLineDraft.cached_input_tokens l, LineCost.total (StatementLineDraft.cost l)))
    <$> StatementDraft.lines draft_1 = [(2, 1500, 400, MicroUsd.from_i64 138)]
  ∧ StatementDraft.incomplete_usage_count draft_1 = 1.
Proof. vm_compute. split; reflexivity. Qed.

Lemma statement_counts_every_request_witness :
  zsum (line_requests <$> StatementDraft.lines draft_1) + StatementDraft.incomplete_usage_count draft_1 = 3.
Proof.
  pose proof (statement_counts_every_request generator_1 day_records acme day_2026_09_24 cutoff_1 draft_1 draft_1_Ok)
    as E.
  cbv zeta in E. rewrite (proj1 (E ltac:(vm_compute; discriminate))). vm_compute. reflexivity.
Defined.

Lemma period_rows_Forall P records consumer start end_ :
  map_Forall (λ _ r, P r) records → Forall P (period_rows records consumer start end_).
Proof.
  intros Hr. apply Forall_forall. intros r. unfold period_rows.
  intros [_ ([i r'] & -> & Hi)%list_elem_of_fmap]%list_elem_of_filter.
  apply elem_of_map_to_list in Hi. by apply (Hr i).
Qed.

Lemma usage_row_prices_ok a b c : row_prices_ok (usage_row a b c).
Proof.
  intros z Hz. repeat (apply elem_of_cons in Hz as [->|Hz]; [cbn; ranges; lia |]). by apply elem_of_nil in Hz.
Qed.

Lemma day_records_prices_ok consumer start end_ : Forall row_prices_ok (period_rows day_records consumer start end_).
Proof.
  apply period_rows_Forall. unfold day_records.
  repeat (apply map_Forall_insert_2; [apply usage_row_prices_ok |]). apply map_Forall_empty.
Qed.

Lemma statement_lines_exact_witness :
  Forall (line_of (period_rows day_records "acme"
       (BillingPeriod.to_bounds (BillingPeriod.for_day day_2026_09_24 tz_plus7)).1
       (BillingPeriod.to_bounds (BillingPeriod.for_day day_2026_09_24 tz_plus7)).2)) (StatementDraft.lines draft_1).
Proof.
  pose proof (statement_lines_exact generator_1 day_records acme day_2026_09_24 cutoff_1 draft_1 draft_1_Ok) as E.
  cbv zeta in E. exact (proj1 (E (day_records_prices_ok _ _ _))).
Defined.

Lemma period_rows_are_the_days_witness :
  in_period "acme" (BillingPeriod.to_bounds (BillingPeriod.for_day day_2026_09_24 tz_plus7)).1
    (BillingPeriod.to_bounds (BillingPeriod.for_day day_2026_09_24 tz_plus7)).2 (usage_row None None None) = true.
Proof.
  refine (proj2 (period_rows_are_the_days (usage_row None None None) t1 day_2026_09_24 tz_plus7 "acme"
    eq_refl ledger_instant_t1 _ eq_refl _ _) (conj eq_refl eq_refl)); concrete.
Defined.

Lemma days_to_close_spec_witness :
  day_ok day_2026_09_24 ∧ (∀ d, Generator.parse_day (Some "2026-09-20"%string) = Some d → day_ok d)
  ∧ ∃ days, Generator.days_to_close (Some "2026-09-20"%string) day_2026_09_24 = Some days
      ∧ BillingDay.num <$> days = [2461305; 2461306; 2461307; 2461308].
Proof.
  assert (day_ok day_2026_09_24) as Hd by concrete.
  assert (∀ d, Generator.parse_day (Some "2026-09-20"%string) = Some d → day_ok d) as Hl.
  { intros d E. assert (BillingDay.num <$> Generator.parse_day (Some "2026-09-20"%string) = Some 2461304) as En by reflexivity.
    rewrite E in En. change (Some (BillingDay.num d) = Some 2461304) in En.
    assert (BillingDay.num d = 2461304) as En' by congruence. unfold day_ok. rewrite En'. time_consts. lia. }
  split; [exact Hd |]. split; [exact Hl |].
  destruct (days_to_close_spec (Some "2026-09-20"%string) day_2026_09_24 Hd Hl) as (days & E & En & _).
  exists days. split; [exact E |]. rewrite En. vm_compute. reflexivity.
Defined.

Definition generator_3_days : Generator.t := Generator.new tz_plus7 4320.

Lemma closable_through_latest_witness :
  generator_ok generator_1 ∧ instant_mid t1
  ∧ ∃ d, Generator.closable_through generator_1 t1 = Some d
      ∧ odt_le (Generator.cutoff_for generator_1 d) t1 = true.
Proof.
  assert (generator_ok generator_1) as Hg by concrete. assert (instant_mid t1) as Ht by concrete.
  split; [exact Hg |]. split; [exact Ht |].
  destruct (closable_through_latest generator_1 t1 Hg Ht ltac:(concrete)) as (d & E & L & _).
  exists d. split; [exact E | exact L].
Defined.

Lemma closable_through_stalls_witness :
  generator_ok generator_3_days ∧ instant_mid t1 ∧ Generator.closable_through generator_3_days t1 = None.
Proof.
  assert (generator_ok generator_3_days) as Hg by concrete. assert (instant_mid t1) as Ht by concrete.
  split; [exact Hg |]. split; [exact Ht |].
  exact (proj1 (closable_through_stalls generator_3_days t1 Hg Ht ltac:(concrete))).
Defined.
