(* ===== verification/BillingStore.v ===== *)
(** * The billing tables ([src/src/billing/store.rs])

    Statements and their lines, payments, the email lease and its bookkeeping.
    A statement is written at most once per partner and day, is never rewritten,
    and its amount is the sum of its lines. *)

From stdpp Require Import base strings list gmap numbers sorting fin_maps.
From Stdlib Require Import Ascii ZArith Lia.
From S2P Require Import Prelude Utf8 TimeLib Calendar Timefmt Pricing Period Status Partner LedgerTypes Sql Rollup Statements.

Local Open Scope Z_scope.

Definition CURRENCY : string := "USD".
Definition EMAIL_RETRY_BASE_MINUTES : Z := 15.
Definition EMAIL_RETRY_MAX_MINUTES : Z := 24 * 60.
Definition EMAIL_CLAIM_TTL_MINUTES : Z := 15.

(** ** Data *)

(** A row of [daily_statements] but its [id], which keys the table, with the
    two lease columns the struct does not read. *)
Module Statement.
Record t : Type := mk {
  consumer_id : string;
  billing_date : string;
  billing_mode : string;
  currency : string;
  period_start : string;
  period_end : string;
  billing_cutoff_at : string;
  total_amount_micro_usd : Z;
  incomplete_usage_count : Z;
  due_at : option string;
  paid_at : option string;
  paid_by : option string;
  payment_reference : option string;
  payment_note : option string;
  email_sent_at : option string;
  email_attempts : Z;
  email_last_error : option string;
  email_next_retry_at : option string;
  email_claim_instance : option string;
  email_claimed_until : option string;
  created_at : string;
  updated_at : string }.

Definition billing_mode_value (self : t) : option BillingMode.t := BillingMode.parse (billing_mode self).

Definition is_paid (self : t) : bool := is_Some_b (paid_at self).

Definition is_outstanding (self : t) : bool :=
  match billing_mode_value self with Some m => BillingMode.owes_payment m | None => false end
  && negb (is_paid self).

Definition total (self : t) : MicroUsd.t := MicroUsd.from_i64 (total_amount_micro_usd self).

Definition has_incomplete_usage (self : t) : bool := 0 <? incomplete_usage_count self.

Definition to_overdue_row (id : Z) (self : t) : OverdueRow.t :=
  OverdueRow.mk (billing_mode self) id (billing_date self) (default ""%string (due_at self))
    (total_amount_micro_usd self) (incomplete_usage_count self).

Definition can_suspend (self : t) : bool :=
  is_outstanding self && negb (has_incomplete_usage self)
  && (0 <? total_amount_micro_usd self) && is_Some_b (due_at self).

(** The CHECK constraints of [daily_statements]. *)
Definition check (self : t) : bool :=
  bool_decide (billing_mode self ∈ ["invoice"; "reconciliation"]%string)
  && (0 <=? total_amount_micro_usd self) && (0 <=? incomplete_usage_count self) && (0 <=? email_attempts self)
  && (String.eqb (billing_mode self) "invoice" || (negb (is_Some_b (due_at self)) && negb (is_Some_b (paid_at self))))
  && bool_decide (is_Some_b (paid_at self) = is_Some_b (paid_by self)).
End Statement.

Module StatementLine.
Record t : Type := mk {
  statement_id : Z;
  model : string;
  prices : PricingSnapshot.t;
  request_count : Z;
  input_tokens : Z;
  cached_input_tokens : Z;
  uncached_input_tokens : Z;
  output_tokens : Z;
  input_cost_micro_usd : Z;
  cached_input_cost_micro_usd : Z;
  output_cost_micro_usd : Z;
  total_cost_micro_usd : Z }.

(** The CHECK constraints of [statement_lines]. *)
Definition check (self : t) : bool :=
  let '(i, c, o) := PricingSnapshot.as_tuple (prices self) in
  (0 <=? request_count self) && (0 <=? input_tokens self) && (0 <=? cached_input_tokens self)
  && (0 <=? output_tokens self)
  && (uncached_input_tokens self =? input_tokens self - cached_input_tokens self)
  && (0 <=? uncached_input_tokens self) && (0 <=? input_cost_micro_usd self)
  && (0 <=? cached_input_cost_micro_usd self) && (0 <=? output_cost_micro_usd self)
  && (0 <=? total_cost_micro_usd self) && (0 <=? i) && (0 <=? c) && (0 <=? o).

(** The columns of the UNIQUE constraint. *)
Definition unique_key (self : t) : Z * string * (Z * Z * Z) :=
  (statement_id self, model self, PricingSnapshot.as_tuple (prices self)).
End StatementLine.

(** The tables. [next_statement_id] is SQLite's AUTOINCREMENT sequence. *)
Record BillingDb : Type := mkBillingDb {
  partners : gmap string Partner.t;
  daily_statements : gmap Z Statement.t;
  statement_lines : list StatementLine.t;
  next_statement_id : Z }.

Inductive StatementOutcome : Type :=
  | Created (id : Z) (s : Statement.t)
  | Existed (id : Z) (s : Statement.t).

Definition outcome_statement (o : StatementOutcome) : Z * Statement.t :=
  match o with Created i s | Existed i s => (i, s) end.
Definition was_created (o : StatementOutcome) : bool := match o with Created _ _ => true | Existed _ _ => false end.

Inductive StatementRejected : Type :=
  | InconsistentLine (model : string) | MissingDueDate | UnexpectedDueDate.

(** [Display], through [BillingError::Invalid]; [{model:?}] is [Debug]. *)
Definition rejected (e : StatementRejected) : BillingError :=
  Invalid (match e with
           | InconsistentLine model => ("line for " +:+ debug_str model +:+ " bills more cached tokens than the prompt had")%string
           | MissingDueDate => "an invoice statement must carry a due date"%string
           | UnexpectedDueDate => "a reconciliation statement must not carry a due date"%string
           end).

(** ** Writing a statement *)
Section Write.
Context `{TimeCrate}.

Definition line_consistent (line : StatementLineDraft.t) : bool :=
  (i64_wrap (LineCost.uncached_input_tokens (StatementLineDraft.cost line))
     =? i64_wrap (StatementLineDraft.input_tokens line - StatementLineDraft.cached_input_tokens line))
  && (StatementLineDraft.cached_input_tokens line <=? StatementLineDraft.input_tokens line).

Definition validate_draft (draft : StatementDraft.t) : result unit StatementRejected :=
  match BillingMode.owes_payment (StatementDraft.billing_mode draft), StatementDraft.due_at draft with
  | true, None => Err MissingDueDate
  | false, Some _ => Err UnexpectedDueDate
  | _, _ =>
      match find (λ l, negb (line_consistent l)) (StatementDraft.lines draft) with
      | Some l => Err (InconsistentLine (StatementLineDraft.model l))
      | None => Ok ()
      end
  end.

(** The inserted row; [now] is the clock's text. *)
Definition statement_row (draft : StatementDraft.t) (total : MicroUsd.t) (now : string) : Statement.t :=
  Statement.mk (StatementDraft.consumer_id draft) (BillingDay.display (StatementDraft.billing_date draft))
    (BillingMode.as_str (StatementDraft.billing_mode draft)) CURRENCY
    (StatementDraft.period_start draft) (StatementDraft.period_end draft) (StatementDraft.billing_cutoff_at draft)
    (MicroUsd.as_i64 total) (StatementDraft.incomplete_usage_count draft)
    (format_ts <$> StatementDraft.due_at draft) None None None None None 0 None None None None now now.

Definition line_row (statement_id : Z) (line : StatementLineDraft.t) : StatementLine.t :=
  let cost := StatementLineDraft.cost line in
  StatementLine.mk statement_id (StatementLineDraft.model line) (StatementLineDraft.prices line)
    (StatementLineDraft.request_count line) (StatementLineDraft.input_tokens line)
    (StatementLineDraft.cached_input_tokens line) (i64_wrap (LineCost.uncached_input_tokens cost))
    (StatementLineDraft.output_tokens line) (MicroUsd.as_i64 (LineCost.input_cost cost))
    (MicroUsd.as_i64 (LineCost.cached_input_cost cost)) (MicroUsd.as_i64 (LineCost.output_cost cost))
    (MicroUsd.as_i64 (LineCost.total cost)).

(** [INSERT INTO statement_lines]: CHECKs, then the UNIQUE constraint. *)
Fixpoint insert_lines (lines : list StatementLine.t) (new : list StatementLine.t) : result (list StatementLine.t) SqlError :=
  match new with
  | [] => Ok lines
  | line :: new' =>
      if StatementLine.check line
         && negb (bool_decide (StatementLine.unique_key line ∈ StatementLine.unique_key <$> lines))
      then insert_lines (lines ++ [line]) new'
      else Err ConstraintViolation
  end.

Definition same_day (consumer_id billing_date : string) (s : Statement.t) : bool :=
  String.eqb (Statement.consumer_id s) consumer_id && String.eqb (Statement.billing_date s) billing_date.

(** [WHERE consumer_id = ?1 AND billing_date = ?2]. *)
Definition get_statement (db : BillingDb) (consumer_id billing_date : string) : option (Z * Statement.t) :=
  find (λ p, same_day consumer_id billing_date p.2) (map_to_list (daily_statements db)).

(** The transaction: [true] when the statement was inserted. The CHECKs come
    before [ON CONFLICT DO NOTHING], the foreign key after it. *)
Definition insert_statement (db : BillingDb) (row : Statement.t) (lines : list StatementLineDraft.t)
    : result (BillingDb * bool) SqlError :=
  if negb (Statement.check row) then Err ConstraintViolation
  else if is_Some_b (get_statement db (Statement.consumer_id row) (Statement.billing_date row)) then Ok (db, false)
  else if negb (is_Some_b (partners db !! Statement.consumer_id row)) then Err ConstraintViolation
  else
    let id := next_statement_id db in
    let? lines' := insert_lines (statement_lines db) (line_row id <$> lines) in
    Ok (mkBillingDb (partners db) (<[id := row]> (daily_statements db)) lines' (id + 1), true).

Definition write_statement (db : BillingDb) (draft : StatementDraft.t) (now : string)
    : result (BillingDb * StatementOutcome) BillingError :=
  match validate_draft draft with
  | Err e => Err (rejected e)
  | Ok _ =>
      let? total := StatementDraft.total draft in
      let row := statement_row draft total now in
      match insert_statement db row (StatementDraft.lines draft) with
      | Err e => Err (Database e)
      | Ok (db', inserted) =>
          match get_statement db' (Statement.consumer_id row) (Statement.billing_date row) with
          | None => Err (PartnerNotFound (StatementDraft.consumer_id draft))
          | Some (id, s) => Ok (db', if inserted then Created id s else Existed id s)
          end
      end
  end.
End Write.

(** ** Payment, overdue statements, email *)

Definition with_statements (db : BillingDb) (s : gmap Z Statement.t) : BillingDb :=
  mkBillingDb (partners db) s (statement_lines db) (next_statement_id db).

(** [UPDATE ... SET paid_at, paid_by, payment_reference, payment_note, updated_at]. *)
Definition paid_row (now paid_by : string) (reference note : option string) (s : Statement.t) : Statement.t :=
  Statement.mk (Statement.consumer_id s) (Statement.billing_date s) (Statement.billing_mode s) (Statement.currency s)
    (Statement.period_start s) (Statement.period_end s) (Statement.billing_cutoff_at s)
    (Statement.total_amount_micro_usd s) (Statement.incomplete_usage_count s) (Statement.due_at s)
    (Some now) (Some paid_by) reference note (Statement.email_sent_at s) (Statement.email_attempts s)
    (Statement.email_last_error s) (Statement.email_next_retry_at s) (Statement.email_claim_instance s)
    (Statement.email_claimed_until s) (Statement.created_at s) now.

Definition payable (s : Statement.t) : bool :=
  String.eqb (Statement.billing_mode s) "invoice" && negb (is_Some_b (Statement.paid_at s)).

Definition mark_paid (db : BillingDb) (id : Z) (paid_by : string)
    (reference note : option string) (now : string) : BillingDb * result Statement.t BillingError :=
  if str_is_empty (trim paid_by) then (db, Err (Invalid "a payment must name who recorded it"))
  else
    let db' := match daily_statements db !! id with
               | Some s => if payable s
                           then with_statements db (<[id := paid_row now paid_by reference note s]> (daily_statements db))
                           else db
               | None => db
               end in
    (db', match daily_statements db' !! id with
          | None => Err (PartnerNotFound ("statement " +:+ signed_dec_string id))
          | Some s => if negb (Statement.is_paid s) then Err (StatementNotPayable id (Statement.billing_mode s)) else Ok s
          end).

(** The WHERE of [overdue_statements], at the clock's text. *)
Definition overdue (now : string) (consumer_id : option string) (s : Statement.t) : bool :=
  String.eqb (Statement.billing_mode s) "invoice" && negb (is_Some_b (Statement.paid_at s))
  && match Statement.due_at s with Some due => str_leb due now | None => false end
  && match consumer_id with Some c => String.eqb (Statement.consumer_id s) c | None => true end.

(** [ORDER BY due_at, id]; [NULL] first. *)
Definition text_lt (a b : option string) : bool :=
  match a, b with None, None => false | None, Some _ => true | Some _, None => false | Some x, Some y => str_ltb x y end.
Definition due_le (a b : Z * Statement.t) : Prop :=
  text_lt (Statement.due_at a.2) (Statement.due_at b.2) = true
  ∨ (text_lt (Statement.due_at b.2) (Statement.due_at a.2) = false ∧ a.1 ≤ b.1).
#[global] Instance due_le_dec a b : Decision (due_le a b).
Proof. unfold due_le. apply _. Defined.

Definition overdue_statements (db : BillingDb) (now : string) (consumer_id : option string) : list (Z * Statement.t) :=
  merge_sort due_le (filter (λ p, overdue now consumer_id p.2 = true) (map_to_list (daily_statements db))).

(** [MAX(billing_date)]. *)
Definition text_max (a : option string) (b : string) : option string :=
  match a with None => Some b | Some x => if str_ltb x b then Some b else Some x end.

Definition last_statement_date_for (db : BillingDb) (consumer_id : string) : option string :=
  foldl text_max None
    (Statement.billing_date <$>
       filter (λ s, Statement.consumer_id s = consumer_id) (map_to_list (daily_statements db)).*2).

Inductive EmailOutcome `{TimeCrate} : Type :=
  | Sent
  | Failed (error : string) (retry_at : OffsetDateTime).

(** The email columns of a statement. *)
Definition email_row (sent_at : option string) (attempts : Z) (last_error next_retry claim until : option string)
    (updated : string) (s : Statement.t) : Statement.t :=
  Statement.mk (Statement.consumer_id s) (Statement.billing_date s) (Statement.billing_mode s) (Statement.currency s)
    (Statement.period_start s) (Statement.period_end s) (Statement.billing_cutoff_at s)
    (Statement.total_amount_micro_usd s) (Statement.incomplete_usage_count s) (Statement.due_at s)
    (Statement.paid_at s) (Statement.paid_by s) (Statement.payment_reference s) (Statement.payment_note s)
    sent_at attempts last_error next_retry claim until (Statement.created_at s) updated.

Section Email.
Context `{TimeCrate}.

Definition record_email_attempt (db : BillingDb) (id : Z) (outcome : EmailOutcome) (now : string) : BillingDb :=
  match daily_statements db !! id with
  | None => db
  | Some s =>
      let s' := match outcome with
                | Sent => email_row (match Statement.email_sent_at s with Some t => Some t | None => Some now end)
                            (Statement.email_attempts s + 1) None None None None now s
                | Failed error retry_at =>
                    email_row (Statement.email_sent_at s) (Statement.email_attempts s + 1) (Some error)
                      (Some (format_ts retry_at)) None None now s
                end in
      with_statements db (<[id := s']> (daily_statements db))
  end.

(** SQL's [TRIM], which removes spaces only. *)
Fixpoint sql_ltrim (s : string) : string :=
  match s with String " " s' => sql_ltrim s' | _ => s end.
Definition sql_trim_is_empty (s : string) : bool := str_is_empty (sql_ltrim s).

Definition has_address (db : BillingDb) (s : Statement.t) : bool :=
  match partners db !! Statement.consumer_id s with
  | Some p => negb (sql_trim_is_empty (Partner.billing_email p))
  | None => false
  end.

Definition lapsed (until : option string) (now : string) : bool :=
  match until with None => true | Some t => str_leb t now end.

(** The WHERE of [claim_emails]. *)
Definition claimable (db : BillingDb) (now : string) (s : Statement.t) : bool :=
  negb (is_Some_b (Statement.email_sent_at s))
  && String.eqb (Statement.billing_mode s) "invoice"
  && negb (is_Some_b (Statement.paid_at s))
  && ((0 <? Statement.total_amount_micro_usd s) || (0 <? Statement.incomplete_usage_count s))
  && has_address db s
  && lapsed (Statement.email_next_retry_at s) now
  && lapsed (Statement.email_claimed_until s) now.

Definition claimed_row (instance_id claim_until : string) (s : Statement.t) : Statement.t :=
  email_row (Statement.email_sent_at s) (Statement.email_attempts s) (Statement.email_last_error s)
    (Statement.email_next_retry_at s) (Some instance_id) (Some claim_until) (Statement.updated_at s) s.

Definition claim_ids (db : BillingDb) (now : string) (limit : nat) : list Z :=
  (take limit (merge_sort due_le (filter (λ p, claimable db now p.2 = true) (map_to_list (daily_statements db))))).*1.

(** [UPDATE ... WHERE id IN (...) RETURNING]: the claimed rows, as updated. *)
Definition claim_emails (db : BillingDb) (now : OffsetDateTime) (instance_id : string) (limit : nat)
    (claim_ttl_minutes : Z) : BillingDb * list (Z * Statement.t) :=
  let now_text := format_ts now in
  let claim_until := format_ts (odt_add now (claim_ttl_minutes * NS_PER_MINUTE)) in
  let ids := claim_ids db now_text limit in
  let statements' := map_imap (λ id s, Some (if decide (id ∈ ids) then claimed_row instance_id claim_until s else s))
                       (daily_statements db) in
  (with_statements db statements', filter (λ p, p.1 ∈ ids) (map_to_list statements')).
End Email.

(** ** The invariant of the tables *)

(** The lines of a statement add up to [total]. *)
Definition lines_total (lines : list StatementLine.t) (id : Z) : Z :=
  zsum (StatementLine.total_cost_micro_usd <$> filter (λ l, StatementLine.statement_id l = id) lines).

Record store_ok (db : BillingDb) : Prop := {
  ok_unique i j s s' : daily_statements db !! i = Some s → daily_statements db !! j = Some s' →
    Statement.consumer_id s = Statement.consumer_id s' → Statement.billing_date s = Statement.billing_date s' → i = j;
  ok_ids i : is_Some (daily_statements db !! i) → i < next_statement_id db;
  ok_lines l : l ∈ statement_lines db → is_Some (daily_statements db !! StatementLine.statement_id l);
  ok_amounts i s : daily_statements db !! i = Some s →
    Statement.total_amount_micro_usd s = lines_total (statement_lines db) i }.

Section Once.
Context `{TimeCrate}.

Lemma same_day_spec c d s : same_day c d s = true ↔ Statement.consumer_id s = c ∧ Statement.billing_date s = d.
Proof. unfold same_day. by rewrite andb_true_iff, !String.eqb_eq. Qed.

Lemma get_statement_Some db c d i s :
  get_statement db c d = Some (i, s) → daily_statements db !! i = Some s ∧ same_day c d s = true.
Proof.
  unfold get_statement. intros E. apply find_some in E as [Hin Hs].
  split; [| done]. apply elem_of_map_to_list. by apply list_elem_of_In.
Qed.

Lemma get_statement_None db c d i s :
  get_statement db c d = None → daily_statements db !! i = Some s → same_day c d s = false.
Proof.
  unfold get_statement. intros Hn Hs. apply (find_none _ _ Hn (i, s)), list_elem_of_In, elem_of_map_to_list, Hs.
Qed.

Lemma get_statement_unique db c d i s :
  store_ok db → daily_statements db !! i = Some s → same_day c d s = true → get_statement db c d = Some (i, s).
Proof.
  intros Hok Hs Hd. destruct (get_statement db c d) as [[j s']|] eqn:E.
  - apply get_statement_Some in E as [Hj Hd']. apply same_day_spec in Hd as [<- <-], Hd' as [? ?].
    assert (i = j) as <- by (by eapply ok_unique). congruence.
  - rewrite (get_statement_None _ _ _ _ _ E Hs) in Hd. done.
Qed.

Lemma insert_lines_Ok lines new lines' : insert_lines lines new = Ok lines' → lines' = lines ++ new.
Proof.
  revert lines. induction new as [|l new IH]; intros lines; cbn [insert_lines]; [by intros [= <-]; rewrite app_nil_r |].
  destruct (_ && _); [| done]. intros E%IH. by rewrite <- app_assoc in E.
Qed.

Lemma lines_total_app l1 l2 id : lines_total (l1 ++ l2) id = lines_total l1 id + lines_total l2 id.
Proof. unfold lines_total. by rewrite list.filter_app, fmap_app, zsum_app. Qed.

Lemma lines_total_absent lines id : (∀ l, l ∈ lines → StatementLine.statement_id l ≠ id) → lines_total lines id = 0.
Proof.
  intros Hn. unfold lines_total. induction lines as [|l lines IH]; [done |].
  rewrite filter_cons_False by (apply Hn; by left). apply IH. intros k Hk. apply Hn. by right.
Qed.

Lemma lines_total_own id lines :
  lines_total (line_row id <$> lines) id =
    zsum ((λ l, MicroUsd.as_i64 (LineCost.total (StatementLineDraft.cost l))) <$> lines).
Proof.
  unfold lines_total. induction lines as [|l lines IH]; [done |].
  rewrite fmap_cons, filter_cons_True by done. rewrite !fmap_cons. unfold zsum in *. cbn [foldr]. by rewrite IH.
Qed.

(** The total of a draft is the exact sum of its lines. *)
Lemma add_lines_Ok t lines t' :
  StatementDraft.add_lines t lines = Ok t' →
  MicroUsd.as_i64 t' = MicroUsd.as_i64 t
    + zsum ((λ l, MicroUsd.as_i64 (LineCost.total (StatementLineDraft.cost l))) <$> lines).
Proof.
  revert t. induction lines as [|l lines IH]; intros t; cbn [StatementDraft.add_lines].
  - intros [= <-]. unfold zsum. cbn. lia.
  - destruct (MicroUsd.checked_add t _) as [t1|] eqn:E; [| done]. cbn. intros Ht%IH.
    apply checked_add_Some in E as [-> _]. unfold zsum in *. cbn in *. lia.
Qed.

(** [INSERT ... ON CONFLICT DO NOTHING] on a sound store. *)
Lemma insert_statement_ok db row lines db' inserted :
  store_ok db →
  Statement.total_amount_micro_usd row
    = zsum ((λ l, MicroUsd.as_i64 (LineCost.total (StatementLineDraft.cost l))) <$> lines) →
  insert_statement db row lines = Ok (db', inserted) →
  store_ok db' ∧
  if inserted
  then get_statement db (Statement.consumer_id row) (Statement.billing_date row) = None
       ∧ daily_statements db' = <[next_statement_id db := row]> (daily_statements db)
       ∧ statement_lines db' = statement_lines db ++ (line_row (next_statement_id db) <$> lines)
  else db' = db ∧ is_Some (get_statement db (Statement.consumer_id row) (Statement.billing_date row)).
Proof.
  intros Hok Htotal. unfold insert_statement. destruct (negb (Statement.check row)); [done |].
  destruct (get_statement db _ _) as [p|] eqn:Eg; cbn [is_Some_b].
  { intros [= <- <-]. split; [done | eauto]. }
  destruct (negb _); [done |]. destruct (insert_lines _ _) as [lines'|] eqn:El; [| done].
  intros [= <- <-]. apply insert_lines_Ok in El as ->. set (n := next_statement_id db).
  assert (daily_statements db !! n = None) as Hn.
  { destruct (daily_statements db !! n) eqn:E; [| done]. pose proof (ok_ids db Hok n ltac:(eauto)). subst n. lia. }
  split; [| done]. split; cbn [daily_statements statement_lines next_statement_id].
  - assert (∀ j s, daily_statements db !! j = Some s → Statement.consumer_id row = Statement.consumer_id s →
              Statement.billing_date row = Statement.billing_date s → False) as Hnew.
    { intros j s Hj Ec Ed. pose proof (get_statement_None _ _ _ _ _ Eg Hj) as Hf.
      assert (same_day (Statement.consumer_id row) (Statement.billing_date row) s = true) by (by apply same_day_spec).
      congruence. }
    intros i j s s'. rewrite !lookup_insert_Some. intros [[<- <-]|[_ Hi]] [[<- <-]|[_ Hj]] Ec Ed; [done | | |].
    + by destruct (Hnew j s').
    + by destruct (Hnew i s).
    + by eapply ok_unique.
  - intros i. rewrite lookup_insert_is_Some'. intros [<-|Hi]; [subst n; lia |]. pose proof (ok_ids db Hok i Hi). lia.
  - intros l [Hl|Hl]%elem_of_app.
    + rewrite lookup_insert_is_Some'. right. by apply ok_lines.
    + apply list_elem_of_fmap in Hl as (d & -> & _). cbn. rewrite lookup_insert_is_Some'. by left.
  - intros i s. rewrite lookup_insert_Some, lines_total_app. intros [[<- <-]|[Hne Hi]].
    + rewrite lines_total_own, lines_total_absent; [lia |].
      intros l Hl E. pose proof (ok_lines db Hok l Hl) as [? Hs]. rewrite E in Hs. congruence.
    + rewrite (lines_total_absent (line_row n <$> lines)); [rewrite Z.add_0_r; by apply ok_amounts |].
      intros l (d & -> & _)%list_elem_of_fmap. exact Hne.
Qed.

(** C20. A day is billed once. Whatever the tables hold, a successful write
    leaves exactly one statement for the partner and day, whose amount is the
    sum of its lines; when one was there already it, its lines and every other
    row stay exactly as they were, and a new one is added with its lines only
    when there was none. *)
Theorem write_statement_once (db db' : BillingDb) (draft : StatementDraft.t) (now : string)
    (outcome : StatementOutcome) (Hok : store_ok db)
    (Hwrite : write_statement db draft now = Ok (db', outcome)) :
  let '(id, s) := outcome_statement outcome in
  let date := BillingDay.display (StatementDraft.billing_date draft) in
  store_ok db'
  ∧ (∀ i x, daily_statements db' !! i = Some x ∧ same_day (StatementDraft.consumer_id draft) date x = true
            ↔ i = id ∧ x = s)
  ∧ Statement.total_amount_micro_usd s = lines_total (statement_lines db') id
  ∧ (if was_created outcome
     then (∀ i x, daily_statements db !! i = Some x → same_day (StatementDraft.consumer_id draft) date x = false)
          ∧ daily_statements db' = <[id := s]> (daily_statements db) ∧ daily_statements db !! id = None
          ∧ statement_lines db' = statement_lines db ++ (line_row id <$> StatementDraft.lines draft)
     else db' = db).
Proof.
  unfold write_statement in Hwrite. destruct (validate_draft draft); [| done].
  destruct (StatementDraft.total draft) as [total|] eqn:Et; [| done].
  set (row := statement_row draft total now) in *.
  destruct (insert_statement db row (StatementDraft.lines draft)) as [[db1 inserted]|] eqn:Ei; [| done].
  destruct (get_statement db1 _ _) as [[id s]|] eqn:Eg; [| done].
  destruct (insert_statement_ok db row (StatementDraft.lines draft) db1 inserted Hok) as [Hok' Hins]; [| exact Ei |].
  { unfold row. cbn. apply add_lines_Ok in Et. exact Et. }
  assert (outcome_statement outcome = (id, s) ∧ was_created outcome = inserted ∧ db1 = db') as (-> & -> & <-).
  { destruct inserted; by injection Hwrite as <- <-. }
  destruct (get_statement_Some _ _ _ _ _ Eg) as [Hid Hday].
  change (Statement.consumer_id row) with (StatementDraft.consumer_id draft) in *.
  change (Statement.billing_date row) with (BillingDay.display (StatementDraft.billing_date draft)) in *.
  split_and!; [done | | by apply ok_amounts |].
  - intros i x. split; [| by intros [-> ->]]. intros [Hi Hx].
    pose proof (get_statement_unique _ _ _ _ _ Hok' Hi Hx) as E. rewrite Eg in E. by injection E as -> ->.
  - destruct inserted; [| apply Hins]. destruct Hins as (Hnone & Ed & El).
    assert (id = next_statement_id db ∧ s = row) as [-> ->].
    { rewrite Ed in Hid. apply lookup_insert_Some in Hid as [[<- <-]|[_ Hold]]; [done |].
      rewrite (get_statement_None _ _ _ _ _ Hnone Hold) in Hday. done. }
    split_and!; [| done | | done].
    + intros i x Hi. by eapply get_statement_None.
    + destruct (daily_statements db !! next_statement_id db) eqn:E; [| done].
      pose proof (ok_ids db Hok _ ltac:(eauto)). lia.
Qed.
End Once.

(** ** Payment and the email lease *)
Section Lifecycle.
Context `{TimeCrate}.

(** [mark_paid] by cases. *)
Lemma mark_paid_cases db id paid_by reference note now :
  str_is_empty (trim paid_by) = false →
  mark_paid db id paid_by reference note now =
    match daily_statements db !! id with
    | None => (db, Err (PartnerNotFound ("statement " +:+ signed_dec_string id)))
    | Some s =>
        if Statement.is_paid s then (db, Ok s)
        else if String.eqb (Statement.billing_mode s) "invoice"
        then (with_statements db (<[id := paid_row now paid_by reference note s]> (daily_statements db)),
              Ok (paid_row now paid_by reference note s))
        else (db, Err (StatementNotPayable id (Statement.billing_mode s)))
    end.
Proof.
  intros Hby. unfold mark_paid. rewrite Hby. destruct (daily_statements db !! id) as [s|] eqn:Es; [| by rewrite Es].
  unfold payable. change (is_Some_b (Statement.paid_at s)) with (Statement.is_paid s).
  destruct (Statement.is_paid s) eqn:Ep; cbn [negb].
  - rewrite andb_false_r, Es. by rewrite Ep.
  - rewrite andb_true_r. destruct (String.eqb _ _); [| by rewrite Es, Ep].
    cbn [with_statements daily_statements]. by rewrite lookup_insert_eq.
Qed.

(** Recording a payment happens once: an unpaid invoice takes the payment
    given; a statement already paid is returned as it stands, its first payment
    untouched; a reconciliation statement is refused; and in every case no
    other statement, line or partner changes and repeating the call changes
    nothing more. *)
Theorem mark_paid_once (db : BillingDb) (id : Z) (paid_by : string) (reference note : option string) (now : string)
    (Hby : str_is_empty (trim paid_by) = false) :
  let '(db', res) := mark_paid db id paid_by reference note now in
  (∀ j, j ≠ id → daily_statements db' !! j = daily_statements db !! j)
  ∧ statement_lines db' = statement_lines db ∧ partners db' = partners db
  ∧ match daily_statements db !! id with
    | None => db' = db ∧ is_ok res = false
    | Some s =>
        if Statement.is_paid s then db' = db ∧ res = Ok s
        else if String.eqb (Statement.billing_mode s) "invoice"
        then res = Ok (paid_row now paid_by reference note s)
             ∧ daily_statements db' !! id = Some (paid_row now paid_by reference note s)
        else db' = db ∧ res = Err (StatementNotPayable id (Statement.billing_mode s))
    end
  ∧ ∀ by2 reference2 note2 now2, str_is_empty (trim by2) = false →
      mark_paid db' id by2 reference2 note2 now2 = (db', res).
Proof.
  rewrite mark_paid_cases by done. destruct (daily_statements db !! id) as [s|] eqn:Es.
  2:{ split_and!; try done. intros by2 r2 n2 now2 H2. by rewrite mark_paid_cases, Es. }
  destruct (Statement.is_paid s) eqn:Ep.
  { split_and!; try done. intros by2 r2 n2 now2 H2. by rewrite mark_paid_cases, Es, Ep. }
  destruct (String.eqb (Statement.billing_mode s) "invoice") eqn:Em.
  - cbn [with_statements daily_statements statement_lines partners]. rewrite lookup_insert_eq.
    split_and!; try done; [intros j Hj; by rewrite lookup_insert_ne |].
    intros by2 r2 n2 now2 H2. rewrite mark_paid_cases by done. cbn [with_statements daily_statements].
    by rewrite lookup_insert_eq.
  - split_and!; try done. intros by2 r2 n2 now2 H2. by rewrite mark_paid_cases, Es, Ep, Em.
Qed.

Lemma claim_ids_claimable db now limit id :
  id ∈ claim_ids db now limit → ∃ s, daily_statements db !! id = Some s ∧ claimable db now s = true.
Proof.
  unfold claim_ids. intros ([j s] & -> & Hin)%list_elem_of_fmap. exists s.
  apply (subseteq_take limit) in Hin. rewrite merge_sort_Permutation in Hin.
  apply list_elem_of_filter in Hin as [Hc Hin]. by apply elem_of_map_to_list in Hin.
Qed.

Lemma claim_ids_length db now limit : (length (claim_ids db now limit) ≤ limit)%nat.
Proof. unfold claim_ids. rewrite length_fmap, length_take. lia. Qed.

Lemma claim_ids_NoDup db now limit : NoDup (claim_ids db now limit).
Proof.
  unfold claim_ids. eapply sublist_NoDup; [| apply fmap_sublist, sublist_take].
  rewrite merge_sort_Permutation. eapply sublist_NoDup; [apply (NoDup_fst_map_to_list (daily_statements db)) |].
  apply fmap_sublist, sublist_filter.
Qed.

Lemma claim_emails_lookup db now inst limit ttl id :
  daily_statements (claim_emails db now inst limit ttl).1 !! id =
    (λ s, if decide (id ∈ claim_ids db (format_ts now) limit)
          then claimed_row inst (format_ts (odt_add now (ttl * NS_PER_MINUTE))) s else s)
      <$> daily_statements db !! id.
Proof. unfold claim_emails. cbn. rewrite map_lookup_imap. by destruct (daily_statements db !! id). Qed.

Lemma claim_emails_claimed db now inst limit ttl id s :
  (id, s) ∈ (claim_emails db now inst limit ttl).2 ↔
  id ∈ claim_ids db (format_ts now) limit ∧ daily_statements (claim_emails db now inst limit ttl).1 !! id = Some s.
Proof.
  unfold claim_emails. cbn [snd fst with_statements daily_statements].
  rewrite list_elem_of_filter, elem_of_map_to_list. done.
Qed.

(** The send lease is exclusive. A claim takes at most [limit]
    statements, each an unsent, unpaid invoice that is due for an attempt and
    has an address, and leaves every other statement alone; until the lease
    lapses no claim by anyone returns any of them again. *)
Theorem email_lease_exclusive `{!TimeLaws} (db : BillingDb) (now now2 : OffsetDateTime)
    (instance_id instance2 : string) (limit limit2 : nat) (ttl ttl2 : Z)
    (Hnow2 : ledger_instant now2) (Hend : ledger_instant (odt_add now (ttl * NS_PER_MINUTE)))
    (Hlease : unix_timestamp_nanos now2 < unix_timestamp_nanos (odt_add now (ttl * NS_PER_MINUTE))) :
  let '(db1, claimed) := claim_emails db now instance_id limit ttl in
  (length claimed ≤ limit)%nat
  ∧ (∀ id s, (id, s) ∈ claimed →
       ∃ s0, daily_statements db !! id = Some s0 ∧ claimable db (format_ts now) s0 = true
             ∧ daily_statements db1 !! id = Some s)
  ∧ (∀ id, id ∉ claimed.*1 → daily_statements db1 !! id = daily_statements db !! id)
  ∧ ∀ id, id ∈ claimed.*1 → id ∉ (claim_emails db1 now2 instance2 limit2 ttl2).2.*1.
Proof.
  pose proof (claim_emails_lookup db now instance_id limit ttl) as Hl.
  pose proof (claim_emails_claimed db now instance_id limit ttl) as Hc.
  destruct (claim_emails db now instance_id limit ttl) as [db1 claimed] eqn:E. cbn [fst snd] in *.
  assert (∀ id, id ∈ claimed.*1 ↔ id ∈ claim_ids db (format_ts now) limit) as Hids.
  { intros id. rewrite list_elem_of_fmap. split.
    - intros ([j s] & -> & Hin). by apply Hc in Hin as [? _].
    - intros Hin. destruct (claim_ids_claimable _ _ _ _ Hin) as (s & Hs & _).
      specialize (Hl id). rewrite Hs in Hl. cbn in Hl. eexists (id, _). split; [done |]. apply Hc. by split. }
  split_and!.
  - rewrite <- (length_fmap fst). etrans; [| apply (claim_ids_length db (format_ts now) limit)].
    apply submseteq_length, NoDup_submseteq; [| by intros id ?%Hids].
    unfold claim_emails in E. injection E as <- <-.
    eapply sublist_NoDup; [| apply fmap_sublist, sublist_filter]; apply NoDup_fst_map_to_list.
  - intros id s [Hin Hs]%Hc. destruct (claim_ids_claimable _ _ _ _ Hin) as (s0 & ? & ?). by exists s0.
  - intros id Hni. rewrite Hl. rewrite Hids in Hni. destruct (daily_statements db !! id); cbn; [| done].
    by rewrite decide_False.
  - intros id Hin. apply Hids in Hin. intros ([j s] & -> & [Hj _]%claim_emails_claimed)%list_elem_of_fmap. cbn in Hin.
    destruct (claim_ids_claimable _ _ _ _ Hj) as (s1 & Hs1 & Hclaim).
    specialize (Hl j). rewrite Hs1 in Hl. destruct (claim_ids_claimable _ _ _ _ Hin) as (s0 & Hs0 & _).
    rewrite Hs0 in Hl. cbn in Hl. rewrite decide_True in Hl by done. injection Hl as ->.
    unfold claimable in Hclaim. rewrite !andb_true_iff in Hclaim. destruct Hclaim as [_ Hlapsed].
    cbn in Hlapsed. unfold str_leb in Hlapsed. apply negb_true_iff in Hlapsed.
    assert (str_ltb (format_ts now2) (format_ts (odt_add now (ttl * NS_PER_MINUTE))) = true) by (by apply format_ts_lt).
    congruence.
Qed.

(** *** Statements as history *)

(** The operations that change the tables. *)
Inductive store_step : BillingDb → BillingDb → Prop :=
  | step_write db draft now db' o :
      write_statement db draft now = Ok (db', o) → store_step db db'
  | step_pay db id by_ reference note now :
      store_step db (mark_paid db id by_ reference note now).1
  | step_record db id outcome now : store_step db (record_email_attempt db id outcome now)
  | step_claim db now instance_id limit ttl : store_step db (claim_emails db now instance_id limit ttl).1.

(** What no operation may change about a statement, and what is final once set. *)
Definition carries_on (s s' : Statement.t) : Prop :=
  Statement.consumer_id s' = Statement.consumer_id s ∧ Statement.billing_date s' = Statement.billing_date s
  ∧ Statement.billing_mode s' = Statement.billing_mode s
  ∧ Statement.total_amount_micro_usd s' = Statement.total_amount_micro_usd s
  ∧ Statement.incomplete_usage_count s' = Statement.incomplete_usage_count s
  ∧ Statement.due_at s' = Statement.due_at s
  ∧ (is_Some (Statement.paid_at s) →
       (Statement.paid_at s', Statement.paid_by s', Statement.payment_reference s', Statement.payment_note s')
       = (Statement.paid_at s, Statement.paid_by s, Statement.payment_reference s, Statement.payment_note s))
  ∧ (is_Some (Statement.email_sent_at s) → Statement.email_sent_at s' = Statement.email_sent_at s)
  ∧ Statement.email_attempts s ≤ Statement.email_attempts s'.

#[global] Instance carries_on_refl : Reflexive carries_on.
Proof. intros s. unfold carries_on. split_and!; done || lia. Qed.

#[global] Instance carries_on_trans : Transitive carries_on.
Proof.
  intros a b c (?&?&?&?&?&?&Hp&Hm&?) (?&?&?&?&?&?&Hp'&Hm'&?). unfold carries_on.
  split_and!; try congruence; [| | lia].
  - intros Hs. pose proof (Hp Hs) as E. injection E as E1 E2 E3 E4. rewrite Hp' by (by rewrite E1). congruence.
  - intros Hs. rewrite Hm' by (by rewrite Hm). auto.
Qed.

(** Rewriting rows in place, without touching what is final. *)
Lemma rewrite_rows_ok db m :
  store_ok db → (∀ i, option_Forall2 carries_on (daily_statements db !! i) (m !! i)) → store_ok (with_statements db m).
Proof.
  intros Hok Hm.
  assert (∀ i s', m !! i = Some s' → ∃ s, daily_statements db !! i = Some s ∧ carries_on s s') as Hback.
  { intros i s' E. specialize (Hm i). rewrite E in Hm. inversion Hm as [s ? ? Hs|]; subst. eauto. }
  split; cbn [with_statements daily_statements statement_lines next_statement_id].
  - intros i j s s' Hi Hj Ec Ed. destruct (Hback i s Hi) as (x & Hx & Cx), (Hback j s' Hj) as (y & Hy & Cy).
    apply (ok_unique db Hok i j x y Hx Hy); unfold carries_on in *; intuition congruence.
  - intros i [s Hs]. destruct (Hback i s Hs) as (x & Hx & _). apply ok_ids; eauto.
  - intros l Hl. destruct (ok_lines db Hok l Hl) as [s Hs]. specialize (Hm (StatementLine.statement_id l)).
    rewrite Hs in Hm. inversion Hm; subst; eauto.
  - intros i s' Hs'. destruct (Hback i s' Hs') as (x & Hx & C). rewrite <- (ok_amounts db Hok i x Hx).
    unfold carries_on in C. tauto.
Qed.

Lemma insert_carries_on (m : gmap Z Statement.t) id s s' :
  m !! id = Some s → carries_on s s' → ∀ i, option_Forall2 carries_on (m !! i) (<[id := s']> m !! i).
Proof.
  intros Hs C i. destruct (decide (id = i)) as [<-|].
  - rewrite Hs, lookup_insert_eq. by constructor.
  - rewrite lookup_insert_ne by done. destruct (m !! i); by constructor.
Qed.

Lemma same_rows (m : gmap Z Statement.t) i : option_Forall2 carries_on (m !! i) (m !! i).
Proof. destruct (m !! i); by constructor. Qed.

Lemma paid_row_carries_on now by_ r n s :
  Statement.is_paid s = false → carries_on s (paid_row now by_ r n s).
Proof.
  intros Hp. unfold carries_on, Statement.is_paid in *. split_and!; try done; cbn; try lia.
  destruct (Statement.paid_at s); [done | by intros [? [=]]].
Qed.

Lemma line_rows_of_other n i lines :
  n ≠ i → filter (λ l, StatementLine.statement_id l = i) (line_row n <$> lines) = [].
Proof. intros Hne. induction lines as [|l lines IH]; [done |]. by rewrite fmap_cons, filter_cons_False. Qed.

Lemma step_rows db db' :
  store_ok db → store_step db db' →
  store_ok db' ∧ (∀ i s, daily_statements db !! i = Some s →
    ∃ s', daily_statements db' !! i = Some s' ∧ carries_on s s')
  ∧ ∀ i, is_Some (daily_statements db !! i) →
      filter (λ l, StatementLine.statement_id l = i) (statement_lines db')
      = filter (λ l, StatementLine.statement_id l = i) (statement_lines db).
Proof.
  intros Hok Hstep.
  assert (store_ok db ∧ (∀ i s, daily_statements db !! i = Some s →
      ∃ s', daily_statements db !! i = Some s' ∧ carries_on s s')
    ∧ ∀ i, is_Some (daily_statements db !! i) →
      filter (λ l, StatementLine.statement_id l = i) (statement_lines db)
      = filter (λ l, StatementLine.statement_id l = i) (statement_lines db)) as Hsame.
  { split_and!; [done | intros i s Hi; by exists s | done]. }
  assert (∀ m, (∀ i, option_Forall2 carries_on (daily_statements db !! i) (m !! i)) → 
    store_ok (with_statements db m) ∧ (∀ i s, daily_statements db !! i = Some s →
    ∃ s', daily_statements (with_statements db m) !! i = Some s' ∧ carries_on s s')
    ∧ ∀ i, is_Some (daily_statements db !! i) →
      filter (λ l, StatementLine.statement_id l = i) (statement_lines (with_statements db m))
      = filter (λ l, StatementLine.statement_id l = i) (statement_lines db)) as Hrewrite.
  { intros m Hm. split_and!; [by apply rewrite_rows_ok | | done]. intros i s Hi. cbn. specialize (Hm i).
    rewrite Hi in Hm. inversion Hm; subst. eauto. }
  destruct Hstep as [db draft now db' o Hw | db id by_ r n now | db id o now | db now inst limit ttl].
  - unfold write_statement in Hw. destruct (validate_draft draft); [| done].
    destruct (StatementDraft.total draft) as [total|] eqn:Et; [| done].
    destruct (insert_statement db _ _) as [[db1 inserted]|] eqn:Ei; [| done].
    destruct (get_statement db1 _ _) as [[? ?]|]; [| done]. injection Hw as <- _.
    destruct (insert_statement_ok db (statement_row draft total now) (StatementDraft.lines draft) db1 inserted Hok)
      as [Hok' Hins]; [apply add_lines_Ok in Et; exact Et | exact Ei |].
    split; [done |]. destruct inserted; [| destruct Hins as [-> _]; apply Hsame].
    destruct Hins as (_ & Ed & El). rewrite Ed, El.
    assert (∀ i s, daily_statements db !! i = Some s → next_statement_id db ≠ i) as Hne.
    { intros i s Hi <-. pose proof (ok_ids db Hok _ ltac:(eauto)). lia. }
    split.
    + intros i s Hi. exists s. by rewrite lookup_insert_ne by (by eapply Hne).
    + intros i [s Hi]. rewrite list.filter_app. 
      rewrite line_rows_of_other by (by eapply Hne). by rewrite app_nil_r.
  - destruct (str_is_empty (trim by_)) eqn:Eb; [unfold mark_paid; by rewrite Eb |].
    rewrite mark_paid_cases by done. destruct (daily_statements db !! id) as [s|] eqn:Es; [| done].
    destruct (Statement.is_paid s) eqn:Ep; [done |]. destruct (String.eqb _ _); [| done].
    cbn [fst]. apply Hrewrite. apply insert_carries_on with s; [done | by apply paid_row_carries_on].
  - unfold record_email_attempt. destruct (daily_statements db !! id) as [s|] eqn:Es; [| done].
    apply Hrewrite. apply insert_carries_on with s; [done |].
    destruct o; unfold carries_on; split_and!; try done; cbn; try lia.
    destruct (Statement.email_sent_at s); [done | by intros [? [=]]].
  - unfold claim_emails. cbn [fst]. apply Hrewrite. intros i. rewrite map_lookup_imap.
    destruct (daily_statements db !! i) as [s|]; cbn; [| by constructor]. constructor.
    destruct (decide _); [| done]. unfold carries_on; split_and!; done || (cbn; lia).
Qed.

(** C19. A statement is financial history. Whatever sequence of writes,
    payments, email attempts and claims follows, it is still there with the
    same partner, day, mode, amount, incomplete count, deadline and lines; a
    recorded payment and a recorded send are never altered or undone; and the
    tables keep one statement per partner and day, each worth its lines. *)
Theorem statement_is_history (db db' : BillingDb) (id : Z) (s : Statement.t)
    (Hok : store_ok db) (Hsteps : rtc store_step db db')
    (Hs : daily_statements db !! id = Some s) :
  store_ok db'
  ∧ filter (λ l, StatementLine.statement_id l = id) (statement_lines db')
    = filter (λ l, StatementLine.statement_id l = id) (statement_lines db)
  ∧ ∃ s', daily_statements db' !! id = Some s' ∧ carries_on s s'.
Proof.
  revert s Hs. induction Hsteps as [db|db db1 db2 Hstep _ IH]; intros s Hs.
  - split_and!; [done | done |]. by exists s.
  - destruct (step_rows db db1 Hok Hstep) as (Hok1 & Hrows & Hlines).
    destruct (Hrows id s Hs) as (s1 & Hs1 & C1). destruct (IH Hok1 s1 Hs1) as (Hok2 & El & s2 & Hs2 & C2).
    split_and!; [done | rewrite El; apply Hlines; eauto |]. exists s2. split; [done | by etrans].
Qed.
End Lifecycle.

(** ** At a concrete store *)
Definition store_0 : BillingDb := mkBillingDb {[ "acme"%string := acme ]} ∅ [] 1.

Lemma store_0_ok : store_ok store_0.
Proof.
  split; cbn; [intros i j s s' E; by rewrite lookup_empty in E | intros i [s E]; by rewrite lookup_empty in E
    | by intros l ?%elem_of_nil | intros i s E; by rewrite lookup_empty in E].
Qed.

Definition noon : string := "2026-09-25T12:00:00.000000000Z".
Definition statement_1 : Statement.t :=
  Statement.mk "acme" "2026-09-24" "invoice" CURRENCY "2026-09-23T17:00:00.000000000Z"
    "2026-09-24T17:00:00.000000000Z" "2026-09-24T17:30:00.000000000Z" 0 1
    (Some "2026-09-25T05:00:00.000000000Z"%string) None None None None None 0 None None None None noon noon.
Definition written_1 : BillingDb * StatementOutcome :=
  unwrap_or (write_statement store_0 draft_1 noon) (store_0, Existed 0 statement_1).

Lemma written_1_Ok : write_statement store_0 draft_1 noon = Ok (written_1.1, written_1.2).
Proof.
  rewrite <- surjective_pairing. apply is_ok_unwrap_or. vm_compute. reflexivity.
Qed.

Lemma write_statement_once_witness :
  store_ok store_0 ∧ store_ok written_1.1 ∧ was_created written_1.2 = true
  ∧ Statement.total_amount_micro_usd (outcome_statement written_1.2).2 = 138.
Proof.
  pose proof (write_statement_once store_0 written_1.1 draft_1 noon written_1.2 store_0_ok written_1_Ok) as T.
  destruct (outcome_statement written_1.2) as [id s] eqn:E. destruct T as (Hok & _).
  split; [exact store_0_ok |]. split; [exact Hok |]. split; [vm_compute; reflexivity |].
  change s with (id, s).2. rewrite <- E. vm_compute. reflexivity.
Defined.

(** A statement of an empty day, already in the table. *)
Definition store_1 : BillingDb := mkBillingDb {[ "acme"%string := acme ]} {[ 1 := statement_1 ]} [] 2.

Lemma store_1_ok : store_ok store_1.
Proof.
  split; cbn.
  - intros i j s s' [<- _]%lookup_singleton_Some [<- _]%lookup_singleton_Some. done.
  - intros i [s [<- _]%lookup_singleton_Some]. lia.
  - by intros l ?%elem_of_nil.
  - intros i s [<- <-]%lookup_singleton_Some. done.
Qed.

Lemma mark_paid_once_witness :
  str_is_empty (trim "ops@portal") = false
  ∧ (mark_paid store_1 1 "ops@portal" (Some "wire-17"%string) None noon).2
      = Ok (paid_row noon "ops@portal" (Some "wire-17"%string) None statement_1).
Proof.
  assert (str_is_empty (trim "ops@portal") = false) as Hby by reflexivity. split; [exact Hby |].
  pose proof (mark_paid_once store_1 1 "ops@portal" (Some "wire-17"%string) None noon Hby) as T.
  assert (daily_statements store_1 !! 1 = Some statement_1) as Es by reflexivity.
  destruct (mark_paid store_1 1 "ops@portal" (Some "wire-17"%string) None noon) as [db' res].
  destruct T as (_ & _ & _ & T & _). rewrite Es in T. exact (proj1 T).
Defined.

Lemma email_lease_exclusive_witness :
  (claim_emails store_1 t1 "i-1" 50 EMAIL_CLAIM_TTL_MINUTES).2.*1 = [1] ∧ ∀ id, id ∈ (claim_emails store_1 t1 "i-1" 50 EMAIL_CLAIM_TTL_MINUTES).2.*1 →
    id ∉ (claim_emails (claim_emails store_1 t1 "i-1" 50 EMAIL_CLAIM_TTL_MINUTES).1 t2 "i-2" 50 EMAIL_CLAIM_TTL_MINUTES).2.*1.
Proof.
  assert (ledger_instant (odt_add t1 (EMAIL_CLAIM_TTL_MINUTES * NS_PER_MINUTE))) as Hend by concrete.
  assert (unix_timestamp_nanos t2 < unix_timestamp_nanos (odt_add t1 (EMAIL_CLAIM_TTL_MINUTES * NS_PER_MINUTE))) as Hlt by concrete.
  pose proof (email_lease_exclusive store_1 t1 t2 "i-1" "i-2" 50 50 EMAIL_CLAIM_TTL_MINUTES EMAIL_CLAIM_TTL_MINUTES
    ledger_instant_t2 Hend Hlt) as T.
  assert ((claim_emails store_1 t1 "i-1" 50 EMAIL_CLAIM_TTL_MINUTES).2.*1 = [1]) as Hone by (vm_compute; reflexivity).
  split; [exact Hone |].
  destruct (claim_emails store_1 t1 "i-1" 50 EMAIL_CLAIM_TTL_MINUTES) as [db1 claimed].
  exact (proj2 (proj2 (proj2 T))).
Defined.

Lemma statement_is_history_witness :
  store_ok store_1 ∧ ∃ s', daily_statements (mark_paid store_1 1 "ops" None None noon).1 !! 1 = Some s' ∧ carries_on statement_1 s'.
Proof.
  split; [exact store_1_ok |].
  assert (daily_statements store_1 !! 1 = Some statement_1) as Es by reflexivity.
  assert (rtc store_step store_1 (mark_paid store_1 1 "ops" None None noon).1) as Hsteps by apply rtc_once, step_pay.
  exact (proj2 (proj2 (statement_is_history store_1 (mark_paid store_1 1 "ops" None None noon).1 1 statement_1
    store_1_ok Hsteps Es))).
Defined.
