(* ===== verification/Email.v ===== *)
(** * The statement email ([src/src/billing/email.rs], the message)

    The message a partner is sent: its text, built from the statement row and
    its lines, its headers, and the bytes of the [DATA] phase. *)

From stdpp Require Import base strings list gmap numbers.
From Stdlib Require Import Ascii ZArith Lia.
From S2P Require Import Prelude Utf8 Redaction Http Crypto TimeLib Calendar Timefmt Pricing Period Status Partner Config LedgerTypes Sql Statements BillingStore.

Local Open Scope Z_scope.

Definition CR : ascii := ascii_of_nat 13.
Definition LF : ascii := ascii_of_nat 10.
Definition CRLF : string := String CR (String LF EmptyString).
Definition NL : string := String LF EmptyString.

(** ** Where and how to send *)
Module Settings.
Record t : Type := mk {
  host : string;
  port : Z;
  from_address : string;
  credentials : option SmtpCredentials.t }.

Definition from_config (email : EmailConfig.t) (credentials : option SmtpCredentials.t) : t :=
  mk (trim (EmailConfig.smtp_host email)) (EmailConfig.smtp_port email) (trim (EmailConfig.from_address email)) credentials.

Definition is_complete (self : t) : bool := negb (str_is_empty (host self)) && negb (str_is_empty (from_address self)).
End Settings.

Inductive SendError : Type :=
  | Connect (e : string)
  | InvalidHeader (field reason : string)
  | CredentialsWithoutTls
  | NoTlsInBuild
  | Refused (command : string) (code : Z) (text : string)
  | Protocol (e : string)
  | IoError (e : string).

#[global] Instance SendError_eq_dec : EqDecision SendError.
Proof. solve_decision. Defined.

(** [Display]. *)
Definition send_error_display (self : SendError) : string :=
  match self with
  | Connect e => "could not reach the mail relay: " +:+ e
  | InvalidHeader field reason => field +:+ " is not a usable header: " +:+ reason
  | CredentialsWithoutTls =>
      "the relay does not offer STARTTLS, so the SMTP credential was not sent; enable encryption on the relay, or unset PARTNER_PORTAL_SMTP_USERNAME and PARTNER_PORTAL_SMTP_PASSWORD"
  | NoTlsInBuild =>
      "SMTP credentials are configured but this build has no TLS; build with --features hyper-rustls, or run the relay without a credential"
  | Refused command code text => "the relay refused " +:+ command +:+ ": " +:+ dec_string code +:+ " " +:+ text
  | Protocol e => "unexpected SMTP conversation: " +:+ e
  | IoError e => "the mail relay connection failed: " +:+ e
  end%string.

(** ** The message *)

Definition has_char (c : ascii) (s : string) : bool := negb (avoids c s).

Definition check_header (field value : string) : result unit SendError :=
  if str_is_empty value then Err (InvalidHeader field "it is empty")
  else if has_char CR value || has_char LF value then Err (InvalidHeader field "it carries a line break")
  else if existsb is_control (chars value) then Err (InvalidHeader field "it carries a control character")
  else Ok tt.

(** [str::replace] of one byte by another. *)
Fixpoint char_map (f : ascii → ascii) (s : string) : string :=
  match s with EmptyString => EmptyString | String c s' => String (f c) (char_map f s') end.

(** [body.replace(CRLF, LF).replace(CR, LF).split(LF)]. *)
Definition normalised_lines (body : string) : list string :=
  split_char LF (char_map (λ c, if Ascii.eqb c CR then LF else c) (str_replace CRLF NL body)).

(** The dot-stuffing loop. *)
Fixpoint stuff_from (at_line_start : bool) (bytes : string) : string :=
  match bytes with
  | EmptyString => EmptyString
  | String byte rest =>
      let out := String byte (stuff_from (Ascii.eqb byte LF) rest) in
      if at_line_start && Ascii.eqb byte "." then String "." out else out
  end.
Definition stuffed (bytes : string) : string := stuff_from true bytes.

Definition DAYS : list string := ["Mon"; "Tue"; "Wed"; "Thu"; "Fri"; "Sat"; "Sun"].
Definition MONTHS : list string :=
  ["Jan"; "Feb"; "Mar"; "Apr"; "May"; "Jun"; "Jul"; "Aug"; "Sep"; "Oct"; "Nov"; "Dec"].

(** [{:04}] of an [i32]: the sign counts towards the width. *)
Definition year_04 (y : Z) : string :=
  if y <? 0 then String "-" (pad_left0 3 (dec_string (- y))) else pad_left0 4 (dec_string y).

Section Date.
Context `{TimeCrate}.

(** [rfc5322_date] of an instant in UTC; a Julian day that 7 divides is a
    Monday. *)
Definition rfc5322_date (now : OffsetDateTime) : string :=
  let f := utc_fields now in
  let weekday := to_julian_day (odt_date (to_offset now 0)) mod 7 in
  (default "Mon" (DAYS !! Z.to_nat weekday) +:+ ", " +:+ pad_num 2 (f_day f) +:+ " "
   +:+ default "Jan" (MONTHS !! Z.to_nat (f_month f - 1)) +:+ " " +:+ year_04 (f_year f) +:+ " "
   +:+ pad_num 2 (f_hour f) +:+ ":" +:+ pad_num 2 (f_minute f) +:+ ":" +:+ pad_num 2 (f_second f) +:+ " +0000")%string.
End Date.

Module Message.
Record t : Type := mk { from : string; to : string; subject : string; body : string }.

#[global] Instance eq_dec : EqDecision t.
Proof. solve_decision. Defined.

Definition check_address (field value : string) : result unit SendError :=
  if has_char "@" value then Ok tt else Err (InvalidHeader field "the address has no @ in it").

Definition new (from to subject body : string) : result t SendError :=
  let? _ := check_header "from" from in
  let? _ := check_header "to" to in
  let? _ := check_header "subject" subject in
  let? _ := check_address "to" to in
  let? _ := check_address "from" from in
  Ok (mk from to subject body).

(** The headers written, in order; [date] is [rfc5322_date] of the clock. *)
Definition headers (self : t) (date : string) : list (string * string) :=
  [("From", from self); ("To", to self); ("Subject", subject self); ("Date", date); ("MIME-Version", "1.0");
   ("Content-Type", "text/plain; charset=utf-8"); ("Content-Transfer-Encoding", "8bit");
   ("Auto-Submitted", "auto-generated")]%string.

Definition header_line (p : string * string) : string := (p.1 +:+ ": " +:+ p.2)%string.

Definition crlf_lines (lines : list string) : string := foldr (λ l out, (l +:+ CRLF +:+ out)%string) EmptyString lines.

Definition wire_bytes (self : t) (date : string) : string :=
  (crlf_lines (header_line <$> headers self date) +:+ CRLF +:+ crlf_lines (normalised_lines (body self)))%string.
End Message.

(** ** The text of a statement *)

(** [s.split_once(c)] and the two renderings of an instant. *)
Definition short_instant (stored : string) : string :=
  match split_once "T" stored with
  | Some (date, rest) =>
      match split_once "." rest with
      | Some (time, _) => (date +:+ " " +:+ time +:+ " UTC")%string
      | None => (date +:+ " " +:+ rest)%string
      end
  | None => stored
  end.
Definition readable_instant (stored : string) : string := short_instant stored.

(** The loop over the digits; [len] is their number, [i] the index. *)
Fixpoint group_from (len i : nat) (digits : string) : string :=
  match digits with
  | EmptyString => EmptyString
  | String c rest =>
      let out := String c (group_from len (S i) rest) in
      if (0 <? i)%nat && ((len - i) mod 3 =? 0)%nat then String "," out else out
  end.

(** [grouped]; [unsigned_abs] is defined for every [i64]. *)
Definition grouped (n : Z) : string :=
  let digits := dec_string (Z.abs n) in
  let out := group_from (String.length digits) 0 digits in
  if n <? 0 then String "-" out else out.

(** [{:<w}] and [{:>w}] of a text: the width counts characters. *)
Definition pad_end (w : nat) (s : string) : string := (s +:+ str_repeat " " (w - length (chars s)))%string.
Definition pad_start (w : nat) (s : string) : string := (str_repeat " " (w - length (chars s)) +:+ s)%string.

(** One row of the table: [{:<32} {:>10} {:>10} {:>12} {:>14}] where the last
    cell is a text, and where it is an amount, whose [Display] does not pad. *)
Definition row4 (model input cached output : string) : string :=
  (pad_end 32 model +:+ " " +:+ pad_start 10 input +:+ " " +:+ pad_start 10 cached +:+ " "
   +:+ pad_start 12 output +:+ " ")%string.
Definition amount_row (model : string) (input cached output amount : Z) : string :=
  (row4 model (grouped input) (grouped cached) (grouped output) +:+ MicroUsd.display (MicroUsd.from_i64 amount))%string.

(** The release-mode sum of a column. *)
Definition column_sum (f : StatementLine.t → Z) (lines : list StatementLine.t) : Z :=
  foldl (λ s l, i64_wrap (s + f l)) 0 lines.

Definition line_row (line : StatementLine.t) : string :=
  amount_row (StatementLine.model line) (StatementLine.input_tokens line) (StatementLine.cached_input_tokens line)
    (StatementLine.output_tokens line) (StatementLine.total_cost_micro_usd line).

Definition is_reconciliation (statement : Statement.t) : bool :=
  match Statement.billing_mode_value statement with Some m => negb (BillingMode.owes_payment m) | None => false end.

Definition statement_subject (statement : Statement.t) : string :=
  let date := Statement.billing_date statement in
  let total := MicroUsd.display (Statement.total statement) in
  if is_reconciliation statement then ("Settlement statement for " +:+ date +:+ ": " +:+ total)%string
  else match Statement.due_at statement with
       | Some due => ("Statement for " +:+ date +:+ ": " +:+ total +:+ " due " +:+ short_instant due)%string
       | None => ("Statement for " +:+ date +:+ ": " +:+ total)%string
       end.

Definition nl (s : string) : string := (s +:+ NL)%string.
Definition para (s : string) : string := (s +:+ NL +:+ NL)%string.

Definition statement_table (statement : Statement.t) (lines : list StatementLine.t) : string :=
  match lines with
  | [] => para "No billable usage was recorded for this day."
  | _ =>
      (nl (row4 "model" "input" "cached" "output" +:+ pad_start 14 "amount")
       +:+ concat_str ((λ l, nl (line_row l)) <$> lines)
       +:+ NL +:+ para (row4 "total" (grouped (column_sum StatementLine.input_tokens lines))
                          (grouped (column_sum StatementLine.cached_input_tokens lines))
                          (grouped (column_sum StatementLine.output_tokens lines))
                        +:+ MicroUsd.display (Statement.total statement)))%string
  end.

Definition incomplete_note (statement : Statement.t) : string :=
  if 0 <? Statement.incomplete_usage_count statement then
    para (dec_string (Statement.incomplete_usage_count statement)
      +:+ " request(s) that day could not be measured in full — the provider did not report their usage, or no complete price was configured for the model — and are therefore not charged. They are counted here so the total above is not read as complete when it is not. No suspension follows from that count.")
  else EmptyString.

Definition payment_note_text (statement : Statement.t) : string :=
  if is_reconciliation statement then
    para "This is a reconciliation statement, for the settlement record. There is no payment due on it and no deadline attached to it."
  else match Statement.due_at statement with
       | Some due =>
           para ("Payment of " +:+ MicroUsd.display (Statement.total statement) +:+ " is due by " +:+ readable_instant due
             +:+ ". If it is not recorded by then, this account's API key is suspended until it is, and requests are refused with a billing error in the meantime.")
       | None => para "Payment is due. The deadline for this statement is set when it is issued."
       end.

Definition statement_body (id : Z) (statement : Statement.t) (lines : list StatementLine.t) (partner_name : string) : string :=
  (para ("Hello " +:+ partner_name +:+ ",")
   +:+ para ("Here is your usage statement for " +:+ Statement.billing_date statement +:+ ", covering "
        +:+ short_instant (Statement.period_start statement) +:+ " to " +:+ short_instant (Statement.period_end statement) +:+ ".")
   +:+ statement_table statement lines
   +:+ incomplete_note statement
   +:+ payment_note_text statement
   +:+ para ("Statement reference: " +:+ dec_string id)
   +:+ nl "This message was generated automatically. If a figure here looks wrong, reply to it before paying — a statement is the record, and it is not adjusted after it is sent.")%string.

Definition statement_message (id : Z) (statement : Statement.t) (lines : list StatementLine.t)
    (partner_name from_address recipient : string) : result Message.t SendError :=
  Message.new from_address recipient (statement_subject statement) (statement_body id statement lines partner_name).

(** The comment's rendering leaves the seconds out; the code keeps them. *)
Example short_instant_keeps_seconds :
  short_instant "2026-09-27T00:00:00.000000000Z" = "2026-09-27 00:00:00 UTC"%string
  ∧ grouped 1234567 = "1,234,567"%string ∧ grouped (-123) = "-123"%string ∧ grouped 0 = "0"%string
  ∧ amount_row "m" 1 2 3 1500000 = "m                                         1          2            3 $1.500000"%string
  ∧ stuffed (".a" +:+ CRLF +:+ "b." +:+ CRLF +:+ "." +:+ CRLF) = ("..a" +:+ CRLF +:+ "b." +:+ CRLF +:+ ".." +:+ CRLF)%string
  ∧ normalised_lines ("a" +:+ CRLF +:+ "b" +:+ String CR "c" +:+ NL) = ["a"; "b"; "c"; ""]%string.
Proof. vm_compute. auto 10. Qed.

(** ** Lines *)

Definition line_ok (l : string) : bool := avoids CR l && avoids LF l.

Lemma avoids_app c a b : avoids c (a +:+ b) = avoids c a && avoids c b.
Proof. apply str_all_app. Qed.

Lemma split_char_avoids c s : Forall (λ l, avoids c l = true) (split_char c s).
Proof.
  induction s as [|d s IH]; cbn [split_char]; [by repeat constructor |].
  destruct (Ascii.eqb d c) eqn:E; [by constructor |].
  destruct (split_char c s) as [|w ws].
  - constructor; [| done]. rewrite avoids_cons, E. done.
  - apply Forall_cons_iff in IH as [Hw Hws]. constructor; [| done]. by rewrite avoids_cons, E.
Qed.

Lemma split_char_all f c s : str_all f s = true → Forall (λ l, str_all f l = true) (split_char c s).
Proof.
  induction s as [|d s IH]; cbn [split_char str_all]; [by repeat constructor |].
  rewrite andb_true_iff. intros [Hd Hs]. specialize (IH Hs). destruct (Ascii.eqb d c); [by constructor |].
  destruct (split_char c s) as [|w ws]; [constructor; [cbn; by rewrite Hd | done] |].
  apply Forall_cons_iff in IH as [Hw Hws]. constructor; [| done]. cbn. by rewrite Hd, Hw.
Qed.

(** No line of a body holds a line break of either kind. *)
Lemma normalised_lines_ok body : Forall (λ l, line_ok l = true) (normalised_lines body).
Proof.
  unfold normalised_lines. set (s := char_map _ _).
  assert (avoids CR s = true) as Hc.
  { unfold s. generalize (str_replace CRLF NL body). intros b. induction b as [|c b IH]; [done |].
    cbn [char_map]. rewrite avoids_cons, IH, andb_true_r. apply negb_true_iff.
    destruct (Ascii.eqb_spec c CR) as [->|Hn]; [done | by apply Ascii.eqb_neq]. }
  pose proof (split_char_avoids LF s) as H1. pose proof (split_char_all _ LF s Hc) as H2.
  rewrite !Forall_forall in *. intros l Hl. unfold line_ok. rewrite (H1 l Hl). unfold avoids. by rewrite (H2 l Hl).
Qed.

Lemma line_ok_app a b : line_ok (a +:+ b) = line_ok a && line_ok b.
Proof. unfold line_ok. rewrite !avoids_app. by destruct (avoids CR a), (avoids CR b), (avoids LF a), (avoids LF b). Qed.

Lemma line_ok_digits s : all_digits s = true → line_ok s = true.
Proof.
  intros Hs. unfold line_ok. apply andb_true_iff. split.
  all: induction s as [|c s IH]; [done |]; cbn in Hs; apply andb_true_iff in Hs as [Hc Hs];
    rewrite avoids_cons, (IH Hs), andb_true_r; by destruct c as [[] [] [] [] [] [] [] []].
Qed.

Lemma dec_go_all_digits fuel n acc : all_digits acc = true → all_digits (dec_go fuel n acc) = true.
Proof.
  revert n acc. induction fuel as [|fuel IH]; intros n acc Ha; [done |]. cbn [dec_go].
  assert (all_digits (String (digit_char (n mod 10)) acc) = true) as H1.
  { pose proof (Z.mod_pos_bound n 10 ltac:(lia)). unfold all_digits in *. cbn [str_all]. rewrite is_ascii_digit_char by lia. done. }
  destruct (n <? 10); [done | by apply IH].
Qed.

Lemma pad_num_line_ok w n : line_ok (pad_num w n) = true.
Proof. apply line_ok_digits. unfold pad_num. apply pad_left0_digits. by apply dec_go_all_digits. Qed.

Lemma default_lookup_line_ok d l i : line_ok d = true → forallb line_ok l = true → line_ok (default d (l !! i)) = true.
Proof.
  intros Hd Hl. rewrite forallb_forall in Hl. destruct (l !! i) as [x|] eqn:E; [| done].
  apply Hl, list_elem_of_In. by eapply list_elem_of_lookup_2.
Qed.

Lemma rfc5322_date_line_ok `{TimeCrate} now : line_ok (rfc5322_date now) = true.
Proof.
  unfold rfc5322_date, year_04. rewrite !line_ok_app, !pad_num_line_ok, !default_lookup_line_ok by done.
  assert (∀ w n, line_ok (pad_left0 w (dec_string n)) = true) as Hp by apply pad_num_line_ok.
  destruct (f_year (utc_fields now) <? 0); [| by rewrite Hp].
  change (String "-" (pad_left0 3 (dec_string (- f_year (utc_fields now)))))
    with ("-" +:+ pad_left0 3 (dec_string (- f_year (utc_fields now))))%string.
  by rewrite line_ok_app, Hp.
Qed.

(** ** Dot stuffing *)

Definition stuff_line (l : string) : string := match l with String "." _ => String "." l | _ => l end.
Definition unstuff_line (l : string) : string := match l with String "." l' => l' | _ => l end.

Lemma unstuff_stuff l : unstuff_line (stuff_line l) = l.
Proof. destruct l as [|c l]; [done |]. by destruct c as [[] [] [] [] [] [] [] []]. Qed.

Lemma stuff_line_ok l : line_ok l = true → line_ok (stuff_line l) = true.
Proof.
  intros Hl. destruct l as [|c l]; [done |].
  destruct (decide (c = "."%char)) as [->|Hn].
  - change (stuff_line (String "." l)) with ("." +:+ String "." l)%string. by rewrite line_ok_app, Hl.
  - destruct c as [[] [] [] [] [] [] [] []]; done.
Qed.

Lemma stuff_line_not_dot l : stuff_line l ≠ "."%string.
Proof. destruct l as [|c [|d l]]; [done | |]; destruct c as [[] [] [] [] [] [] [] []]; done. Qed.

Lemma stuff_from_line l s : line_ok l = true → stuff_from false (l +:+ CRLF +:+ s) = (l +:+ CRLF +:+ stuffed s)%string.
Proof.
  induction l as [|c l IH]; [done |]. intros Hl. unfold line_ok in *. rewrite !avoids_cons, !andb_true_iff in *.
  destruct Hl as [[H1 H2] [H3 H4]]. apply negb_true_iff in H3. cbn [String.append stuff_from andb]. rewrite H3. f_equal.
  apply IH. auto.
Qed.

Lemma stuffed_line l s : line_ok l = true → stuffed (l +:+ CRLF +:+ s) = (stuff_line l +:+ CRLF +:+ stuffed s)%string.
Proof.
  intros Hl. destruct l as [|c l]; [done |]. pose proof (stuff_from_line (String c l) s Hl) as Hf.
  cbn [String.append stuff_from andb] in Hf. unfold stuffed at 1. cbn [String.append stuff_from andb]. rewrite Hf.
  destruct (Ascii.eqb_spec c ".") as [->|Hn]; [done |].
  destruct c as [[] [] [] [] [] [] [] []]; done.
Qed.

Lemma stuffed_lines lines :
  Forall (λ l, line_ok l = true) lines → stuffed (Message.crlf_lines lines) = Message.crlf_lines (stuff_line <$> lines).
Proof.
  induction 1 as [|l lines Hl _ IH]; [done |]. cbn [Message.crlf_lines foldr fmap list_fmap].
  change (foldr _ EmptyString lines) with (Message.crlf_lines lines). rewrite stuffed_line, IH by done. done.
Qed.

(** ** What a relay reads

    The receiving side of RFC 5321: lines up to one that is a single dot, the
    first dot of the others removed. [next_line] is how the relay finds the end
    of a line. *)
Fixpoint receive (next_line : string → option (string * string)) (fuel : nat) (wire : string)
    : option (list string * string) :=
  match fuel with
  | O => None
  | S fuel' =>
      match next_line wire with
      | None => None
      | Some (l, rest) =>
          if String.eqb l "." then Some ([], rest)
          else match receive next_line fuel' rest with
               | Some (ls, rest') => Some (unstuff_line l :: ls, rest')
               | None => None
               end
      end
  end.

(** By the letter, lines end in CR LF; there are relays that take a bare LF. *)
Definition strict_line (s : string) : option (string * string) := split_at_text CRLF s.
Definition lenient_line (s : string) : option (string * string) :=
  match split_once LF s with
  | Some (l, rest) => Some (default l (strip_suffix_char CR l), rest)
  | None => None
  end.

(** RFC 5322: header fields up to the first empty line. *)
Fixpoint read_message (lines : list string) : option (list (string * string) * list string) :=
  match lines with
  | [] => None
  | l :: ls =>
      if str_is_empty l then Some ([], ls)
      else match split_at_text ": " l, read_message ls with
           | Some field, Some (fields, body) => Some (field :: fields, body)
           | _, _ => None
           end
  end.

Definition reads_lines (next_line : string → option (string * string)) : Prop :=
  ∀ l rest, line_ok l = true → next_line (l +:+ CRLF +:+ rest)%string = Some (l, rest).

Lemma strict_reads_lines : reads_lines strict_line.
Proof.
  intros l rest Hl. unfold strict_line. apply andb_true_iff in Hl as [Hc _].
  by apply (split_at_text_avoids CR (String LF EmptyString)).
Qed.

Lemma lenient_reads_lines : reads_lines lenient_line.
Proof.
  intros l rest Hl. unfold lenient_line. apply andb_true_iff in Hl as [_ Hl].
  replace (l +:+ CRLF +:+ rest)%string with ((l +:+ String CR EmptyString) +:+ String LF rest)%string
    by (rewrite !str_app_assoc; done).
  rewrite split_once_avoids by (by rewrite avoids_app, Hl). by rewrite strip_suffix_char_app.
Qed.

Lemma receive_lines next_line lines tail :
  reads_lines next_line → Forall (λ l, line_ok l = true) lines →
  receive next_line (S (length lines)) (Message.crlf_lines (stuff_line <$> lines) +:+ "." +:+ CRLF +:+ tail)
    = Some (lines, tail).
Proof.
  intros Hn. induction 1 as [|l lines Hl _ IH]; [cbn [receive length fmap list_fmap Message.crlf_lines foldr String.append] |].
  { pose proof (Hn "."%string tail eq_refl) as E. cbn [String.append] in E. by rewrite E. }
  cbn [length]. remember (S (length lines)) as n. cbn [receive fmap list_fmap Message.crlf_lines foldr].
  change (foldr _ EmptyString (stuff_line <$> lines)) with (Message.crlf_lines (stuff_line <$> lines)).
  rewrite !str_app_assoc, Hn by (by apply stuff_line_ok).
  pose proof (stuff_line_not_dot l) as Hd. apply String.eqb_neq in Hd. by rewrite Hd, IH, unstuff_stuff.
Qed.

Lemma check_header_Ok field value : check_header field value = Ok tt ↔
  value ≠ EmptyString ∧ line_ok value = true ∧ Forall (λ c, is_control c = false) (chars value).
Proof.
  unfold check_header, line_ok, has_char. destruct value as [|c v]; cbn [str_is_empty]; [naive_solver |].
  set (w := String c v). destruct (avoids CR w), (avoids LF w); cbn [negb orb andb]; try naive_solver.
  destruct (existsb is_control (chars w)) eqn:E.
  - split; [done |]. intros (_ & _ & Hf). rewrite <- not_false_iff_true in E. destruct E.
    apply not_true_iff_false. intros (ch & Hin & Hc)%existsb_exists.
    rewrite Forall_forall in Hf. specialize (Hf ch Hin). congruence.
  - split; [| done]. intros _. split_and!; [done | done |]. apply Forall_forall. intros ch Hin.
    apply not_true_iff_false. intros Hc. rewrite <- not_true_iff_false in E. apply E. apply existsb_exists.
    by exists ch.
Qed.

Lemma message_new_Ok from to subject body m :
  Message.new from to subject body = Ok m ↔
  m = Message.mk from to subject body
  ∧ check_header "from" from = Ok tt ∧ check_header "to" to = Ok tt ∧ check_header "subject" subject = Ok tt
  ∧ has_char "@" to = true ∧ has_char "@" from = true.
Proof.
  unfold Message.new, Message.check_address.
  destruct (check_header "from" from) as [[]|]; [| naive_solver].
  destruct (check_header "to" to) as [[]|]; [| naive_solver].
  destruct (check_header "subject" subject) as [[]|]; [| naive_solver].
  destruct (has_char "@" to); [| naive_solver]. destruct (has_char "@" from); naive_solver.
Qed.

Lemma receive_mono next_line n m wire r :
  receive next_line n wire = Some r → (n ≤ m)%nat → receive next_line m wire = Some r.
Proof.
  revert m wire r. induction n as [|n IH]; intros [|m] wire r; cbn [receive]; try done; [lia |].
  destruct (next_line wire) as [[l rest]|]; [| done]. destruct (String.eqb l "."); [done |].
  destruct (receive next_line n rest) as [[ls rest']|] eqn:E; [| done]. intros Hr Hle.
  by rewrite (IH m rest _ E) by lia.
Qed.

Lemma crlf_lines_length lines : (length lines ≤ String.length (Message.crlf_lines lines))%nat.
Proof.
  induction lines as [|l lines IH]; [done |]. cbn [Message.crlf_lines foldr length].
  change (foldr _ EmptyString lines) with (Message.crlf_lines lines). rewrite !str_length_app. cbn [CRLF String.length]. lia.
Qed.

Lemma crlf_lines_app a b : Message.crlf_lines (a ++ b) = (Message.crlf_lines a +:+ Message.crlf_lines b)%string.
Proof.
  induction a as [|l a IH]; [done |]. cbn [app Message.crlf_lines foldr].
  change (foldr _ EmptyString (a ++ b)) with (Message.crlf_lines (a ++ b)).
  change (foldr _ EmptyString a) with (Message.crlf_lines a). by rewrite IH, !str_app_assoc.
Qed.

(** The lines of the message, in order. *)
Definition wire_lines (m : Message.t) (date : string) : list string :=
  (Message.header_line <$> Message.headers m date) ++ [EmptyString] ++ normalised_lines (Message.body m).

Lemma wire_bytes_lines m date : Message.wire_bytes m date = Message.crlf_lines (wire_lines m date).
Proof. unfold Message.wire_bytes, wire_lines. by rewrite !crlf_lines_app. Qed.

Lemma header_line_ok n v : line_ok n = true → line_ok v = true → line_ok (Message.header_line (n, v)) = true.
Proof. intros Hn Hv. unfold Message.header_line. cbn [fst snd]. by rewrite !line_ok_app, Hn, Hv. Qed.

Lemma wire_lines_ok from to subject body m date :
  Message.new from to subject body = Ok m → line_ok date = true →
  Forall (λ l, line_ok l = true) (wire_lines m date).
Proof.
  intros (-> & (_ & Hf & _)%check_header_Ok & (_ & Ht & _)%check_header_Ok & (_ & Hs & _)%check_header_Ok & _)%message_new_Ok Hd.
  unfold wire_lines. apply Forall_app. split; [| apply Forall_app; split; [by repeat constructor | apply normalised_lines_ok]].
  cbn [Message.headers fmap list_fmap Message.from Message.to Message.subject]. repeat constructor; by apply header_line_ok.
Qed.

Lemma read_header_lines hs body :
  Forall (λ h, h.1 ≠ EmptyString ∧ avoids ":" h.1 = true) hs →
  read_message ((Message.header_line <$> hs) ++ [EmptyString] ++ body) = Some (hs, body).
Proof.
  induction 1 as [|[n v] hs [Hn Hc] _ IH]; [done |]. cbn [fmap list_fmap app read_message]. cbn [fst] in *.
  change (Message.header_line (n, v)) with (n +:+ ": " +:+ v)%string. rewrite (split_at_text_avoids ":" " ") by done.
  destruct n as [|c n]; [done |]. cbn [String.append str_is_empty]. cbn [app] in IH.
  by rewrite IH.
Qed.

Lemma read_wire_lines m date :
  read_message (wire_lines m date) = Some (Message.headers m date, normalised_lines (Message.body m)).
Proof. apply read_header_lines. unfold Message.headers. by repeat constructor. Qed.

(** Any relay that takes CR LF for a line end reads exactly the eight headers
    and the lines of the body, and what follows the final dot is still there. *)
Lemma message_arrives_whole `{TimeCrate} (next_line : string → option (string * string))
    (from to subject body tail : string) (m : Message.t) (now : OffsetDateTime)
    (Hrelay : reads_lines next_line) (Hnew : Message.new from to subject body = Ok m) :
  let date := rfc5322_date now in
  let wire := (stuffed (Message.wire_bytes m date) +:+ "." +:+ CRLF +:+ tail)%string in
  ∃ lines, receive next_line (String.length wire) wire = Some (lines, tail)
    ∧ read_message lines
      = Some ([("From", from); ("To", to); ("Subject", subject); ("Date", date); ("MIME-Version", "1.0");
               ("Content-Type", "text/plain; charset=utf-8"); ("Content-Transfer-Encoding", "8bit");
               ("Auto-Submitted", "auto-generated")]%string, normalised_lines body).
Proof.
  cbn zeta. pose proof (wire_lines_ok _ _ _ _ _ _ Hnew (rfc5322_date_line_ok now)) as Hok.
  pose proof (read_wire_lines m (rfc5322_date now)) as Hread.
  exists (wire_lines m (rfc5322_date now)). rewrite wire_bytes_lines, stuffed_lines by done. split.
  - eapply receive_mono; [by apply receive_lines |].
    pose proof (crlf_lines_length (stuff_line <$> wire_lines m (rfc5322_date now))) as Hl.
    rewrite length_fmap in Hl. rewrite str_length_app. cbn [String.append String.length CRLF]. lia.
  - apply message_new_Ok in Hnew as (-> & _). exact Hread.
Qed.
