(* ===== verification/Smtp.v ===== *)
(** * The mail conversation ([src/src/billing/email.rs], the SMTP client)

    [Session] and [send], over a relay that may answer anything. The relay and
    the TLS library are interfaces; the wire remembers what was written to it
    and whether that was encrypted. *)

From stdpp Require Import base strings list gmap numbers.
From Stdlib Require Import Ascii ZArith Lia.
From S2P Require Import Prelude Utf8 Redaction Http Crypto TimeLib Calendar Timefmt Pricing Period Config Email.

Local Open Scope Z_scope.

Definition MAX_REPLY_BYTES : Z := 8 * 1024.
Definition MAX_ERROR_CHARS : nat := 500.
Definition READ_CHUNK : nat := 1024.

(** ** Base64 with padding *)

Definition ALPHABET : string := "ABCDEFGHIJKLMNOPQRSTUVWXYZabcdefghijklmnopqrstuvwxyz0123456789+/".
Definition alphabet_std (i : Z) : ascii := default "A"%char (String.get (Z.to_nat i) ALPHABET).

(** The loop over the four shifts. *)
Definition four_chars (triple : Z) : list ascii :=
  (λ shift, alphabet_std (Z.land (Z.shiftr triple shift) 63)) <$> [18; 12; 6; 0].

(** One turn of the loop over [chunks(3)]: four characters, cut back to those
    that carry input and filled up with [=]. *)
Definition base64_chunk (chunk : list Z) : string :=
  let b0 := default 0 (chunk !! 0%nat) in
  let b1 := default 0 (chunk !! 1%nat) in
  let b2 := default 0 (chunk !! 2%nat) in
  let triple := Z.lor (Z.lor (Z.shiftl b0 16) (Z.shiftl b1 8)) b2 in
  let four := four_chars triple in
  let kept := match length chunk with 1%nat => take 2 four | 2%nat => take 3 four | _ => four end in
  (String.string_of_list_ascii kept +:+ str_repeat "=" (3 - length chunk))%string.

Definition base64 (input : list Z) : string :=
  foldr (λ chunk out, (base64_chunk chunk +:+ out)%string) EmptyString (chunks3 input).

Example base64_rfc4648 :
  base64 [] = ""%string ∧ base64 (as_bytes "f") = "Zg=="%string ∧ base64 (as_bytes "fo") = "Zm8="%string
  ∧ base64 (as_bytes "foo") = "Zm9v"%string ∧ base64 (as_bytes "foobar") = "Zm9vYmFy"%string.
Proof. vm_compute. auto. Qed.

(** ** Pieces of a reply *)

(** [bounded]. *)
Definition bounded (text : string) : string :=
  let c := chars text in
  if (length c <=? MAX_ERROR_CHARS)%nat then text else (concat_str (take MAX_ERROR_CHARS c) +:+ "…")%string.

(** [str::lines]. *)
Fixpoint lines_of (pieces : list string) : list string :=
  match pieces with
  | [] => []
  | [last] => if str_is_empty last then [] else [last]
  | l :: rest => default l (strip_suffix_char CR l) :: lines_of rest
  end.
Definition str_lines (s : string) : list string := lines_of (split_char LF s).

(** [split_whitespace().next()]. *)
Definition starts_white (s : string) : bool := existsb (λ w, starts_with w s) white_space.
Fixpoint until_white (s : string) : string :=
  match s with
  | EmptyString => EmptyString
  | String c s' => if starts_white s then EmptyString else String c (until_white s')
  end.
Definition first_word (s : string) : option string :=
  let w := until_white (trim_start s) in if str_is_empty w then None else Some w.

(** The capability list of an [EHLO] reply: the greeting line is skipped. *)
Definition capabilities_of (text : string) : list string := omap first_word (drop 1 (str_lines text)).

Fixpoint trim_end_any (s : string) : string :=
  match s with
  | EmptyString => EmptyString
  | String c s' =>
      let t := trim_end_any s' in
      if str_is_empty t && (Ascii.eqb c CR || Ascii.eqb c LF) then EmptyString else String c t
  end.

(** [s.get(n..)]. *)
Definition get_from (n : nat) (s : string) : option string :=
  if (n <=? String.length s)%nat && is_char_boundary s n
  then Some (String.substring n (String.length s - n) s) else None.

(** [str::parse::<u16>] on digits. *)
Definition parse_u16 (s : string) : option Z :=
  if negb (str_is_empty s) && all_digits s && (dec_value s <=? 65535) then Some (dec_value s) else None.

(** The name given to the relay. *)
Definition ehlo_domain (from_address : string) : string :=
  match rsplit_once "@" from_address with
  | Some (_, d) => if str_is_empty d then "localhost" else d
  | None => "localhost"
  end.

Module Reply.
Record t : Type := mk { code : Z; text : string }.
End Reply.

(** ** The wire *)

(** A peer that reads what is written and may answer anything; the flag says
    whether the bytes go through TLS. An error carries its text. *)
Class Relay : Type := {
  Peer : Type;
  peer_read : bool → Peer → result (list ascii) string * Peer;
  peer_write : bool → string → Peer → result unit string * Peer;
  (** [to_socket_addrs] and [connect_timeout]. *)
  connect : string → result Peer string }.

(** The build's TLS: compiled in or not, and whether a session can be set up
    for a host, with the error's text. The handshake itself happens on the
    first read or write. *)
Class Tls : Type := {
  hyper_rustls : bool;
  client_connection : string → result unit string }.

Module Wire.
Record t `{Relay} : Type := mk { peer : Peer; tls : bool }.
Arguments mk {_} _ _.
End Wire.

(** [written] is no field of the code's: it remembers every write, and whether
    it was encrypted. *)
Module Session.
Record t `{Relay} : Type := mk {
  wire : option Wire.t;
  buffer : list ascii;
  consumed : nat;
  capabilities : list string;
  encrypted : bool;
  written : list (bool * string) }.
Arguments mk {_} _ _ _ _ _ _.

Definition new `{Relay} (wire : Wire.t) : t := mk (Some wire) [] 0 [] false [].
End Session.

(** A step of the conversation: [None] when the fuel of a loop ran out. *)
Definition M `{Relay} (A : Type) : Type := Session.t → option (result A SendError * Session.t).

Definition ret `{Relay} {A} (a : A) : M A := λ s, Some (Ok a, s).
Definition fail `{Relay} {A} (e : SendError) : M A := λ s, Some (Err e, s).
Definition bind `{Relay} {A B} (m : M A) (k : A → M B) : M B := λ s,
  match m s with
  | None => None
  | Some (Err e, s') => Some (Err e, s')
  | Some (Ok a, s') => k a s'
  end.
Definition get `{Relay} : M Session.t := λ s, Some (Ok s, s).
Definition put `{Relay} (s : Session.t) : M unit := λ _, Some (Ok tt, s).
(** [let _ = ..]: the outcome is not looked at. *)
Definition ignore `{Relay} {A} (m : M A) : M unit := λ s,
  match m s with None => None | Some (_, s') => Some (Ok tt, s') end.
(** Both outcomes of a step as a value. *)
Definition outcome `{Relay} {A} (m : M A) : M (result A SendError) := λ s,
  match m s with None => None | Some (r, s') => Some (Ok r, s') end.

Notation "'do' x <- m ; k" := (bind m (λ x, k)) (at level 10, x pattern, m at level 100, k at level 200) : rust_scope.
Notation "'do_' m ; k" := (bind m (λ _, k)) (at level 10, m at level 100, k at level 200) : rust_scope.

Section Client.
Context `{Relay, Tls}.

Definition LOST : SendError := Protocol "the session lost its connection".

Definition with_wire (s : Session.t) (w : Wire.t) (written : list (bool * string)) : Session.t :=
  Session.mk (Some w) (Session.buffer s) (Session.consumed s) (Session.capabilities s) (Session.encrypted s) written.
Definition with_buffer (s : Session.t) (buffer : list ascii) (consumed : nat) : Session.t :=
  Session.mk (Session.wire s) buffer consumed (Session.capabilities s) (Session.encrypted s) (Session.written s).
Definition with_capabilities (s : Session.t) (capabilities : list string) : Session.t :=
  Session.mk (Session.wire s) (Session.buffer s) (Session.consumed s) capabilities (Session.encrypted s) (Session.written s).

(** The wire's own read. *)
Definition wire_read : M (list ascii) := λ s,
  match Session.wire s with
  | None => Some (Err LOST, s)
  | Some w =>
      let '(r, peer') := peer_read (Wire.tls w) (Wire.peer w) in
      let s' := with_wire s (Wire.mk peer' (Wire.tls w)) (Session.written s) in
      match r with Ok chunk => Some (Ok chunk, s') | Err e => Some (Err (IoError e), s') end
  end.

(** [write_all] with its flush; a write is remembered whether or not it
    succeeds, since a part of it may have gone out. *)
Definition write_all (bytes : string) : M unit := λ s,
  match Session.wire s with
  | None => Some (Err LOST, s)
  | Some w =>
      let '(r, peer') := peer_write (Wire.tls w) bytes (Wire.peer w) in
      let s' := with_wire s (Wire.mk peer' (Wire.tls w)) (Session.written s ++ [(Wire.tls w, bytes)]) in
      match r with Ok _ => Some (Ok tt, s') | Err e => Some (Err (IoError e), s') end
  end.

(** [iter().position(|b| *b == b'\n')]. *)
Definition newline_position (l : list ascii) : option nat :=
  match list_find (λ c, c = LF) l with Some (i, _) => Some i | None => None end.

(** [read_line]: one turn of the loop per read. *)
Fixpoint read_line (fuel : nat) : M string :=
  match fuel with
  | O => λ _, None
  | S fuel' =>
      do s <- get;
      match newline_position (drop (Session.consumed s) (Session.buffer s)) with
      | Some offset =>
          let line := from_utf8_lossy (take (offset + 1) (drop (Session.consumed s) (Session.buffer s))) in
          do_ put (with_buffer s (Session.buffer s) (Session.consumed s + offset + 1));
          ret line
      | None =>
          let rest := drop (Session.consumed s) (Session.buffer s) in
          do_ put (with_buffer s rest 0);
          if MAX_REPLY_BYTES <? Z.of_nat (length rest)
          then fail (Protocol ("the relay sent more than 8192 bytes without ending a line"))
          else
            do chunk <- wire_read;
            match chunk with
            | [] => fail (Protocol "the relay closed the connection mid-reply")
            | _ =>
                do s <- get;
                do_ put (with_buffer s (Session.buffer s ++ chunk) (Session.consumed s));
                read_line fuel'
            end
      end
  end.

(** The loop of [read_reply]: one turn per line; [lines] is the fuel of this
    loop, [fuel] that of each line. *)
Fixpoint read_reply_loop (lines fuel : nat) (code_text text : string) : M Reply.t :=
  match lines with
  | O => λ _, None
  | S lines' =>
      do line <- read_line fuel;
      let trimmed := trim_end_any line in
      let code := String.substring 0 3 trimmed in
      if (String.length trimmed <? 3)%nat || negb (all_digits code)
      then fail (Protocol ("the relay sent a line that is not a reply: " +:+ debug_str trimmed))
      else if negb (str_is_empty code_text) && negb (String.eqb code code_text)
      then fail (Protocol ("the reply changed code mid-message: " +:+ debug_str trimmed))
      else
        let text := (text +:+ default EmptyString (get_from 4 trimmed))%string in
        match String.get 3 trimmed with
        | Some "-"%char => read_reply_loop lines' fuel code (text +:+ NL)
        | Some " "%char =>
            match parse_u16 code with
            | Some n => ret (Reply.mk n (bounded text))
            | None => fail (Protocol ("reply code " +:+ debug_str code +:+ " is not a number"))
            end
        | _ => fail (Protocol ("the relay sent an unseparated reply line: " +:+ debug_str trimmed))
        end
  end.

Definition read_reply (fuel : nat) : M Reply.t := read_reply_loop fuel fuel EmptyString EmptyString.

Definition expect (fuel : nat) (expect_code : Z) (command : string) : M Reply.t :=
  do reply <- read_reply fuel;
  if (Reply.code reply =? expect_code) || ((expect_code =? 250) && (Reply.code reply =? 251))
  then ret reply
  else fail (Refused command (Reply.code reply) (Reply.text reply)).

Definition command (fuel : nat) (expect_code : Z) (command line : string) : M Reply.t :=
  do_ write_all (line +:+ CRLF)%string;
  expect fuel expect_code command.

Definition hello (fuel : nat) (from_address : string) : M unit :=
  do reply <- command fuel 250 "EHLO" ("EHLO " +:+ ehlo_domain from_address);
  do s <- get;
  put (with_capabilities s (capabilities_of (Reply.text reply))).

Definition supports (s : Session.t) (capability : string) : bool :=
  existsb (λ c, eq_ignore_ascii_case c capability) (Session.capabilities s).

(** [upgrade]. *)
Definition upgrade (wire : Wire.t) (host : string) : result Wire.t SendError :=
  if hyper_rustls then
    match client_connection host with
    | Ok _ => Ok (Wire.mk (Wire.peer wire) true)
    | Err e => Err (Protocol e)
    end
  else Err NoTlsInBuild.

Definition starttls (fuel : nat) (host : string) : M unit :=
  do_ command fuel 220 "STARTTLS" "STARTTLS";
  do s <- get;
  if negb (length (Session.buffer s) =? Session.consumed s)%nat
  then fail (Protocol "the relay sent data after its STARTTLS reply, before the handshake")
  else
    match Session.wire s with
    | None => fail LOST
    | Some w =>
        do_ put (Session.mk None [] 0 (Session.capabilities s) (Session.encrypted s) (Session.written s));
        match upgrade w host with
        | Err e => fail e
        | Ok w' =>
            do_ put (Session.mk (Some w') [] 0 [] true (Session.written s));
            do reply <- command fuel 250 "EHLO" "EHLO";
            do s <- get;
            put (with_capabilities s (capabilities_of (Reply.text reply)))
        end
    end.

Definition auth_plain (credentials : SmtpCredentials.t) : list Z :=
  0 :: as_bytes (SmtpCredentials.username credentials) ++ 0 :: as_bytes (SmtpCredentials.password credentials).

Definition authenticate (fuel : nat) (credentials : SmtpCredentials.t) : M unit :=
  let encoded := base64 (auth_plain credentials) in
  do reply <- outcome (command fuel 235 "AUTH" ("AUTH PLAIN " +:+ encoded));
  match reply with
  | Ok _ => ret tt
  | Err (Refused c code text) =>
      if code =? 334 then do_ command fuel 235 "AUTH" encoded; ret tt else fail (Refused c code text)
  | Err e => fail e
  end.

(** The envelope, the message and the farewell. *)
Definition deliver (fuel : nat) (settings : Settings.t) (message : Message.t) (date : string) : M unit :=
  do_ command fuel 250 "MAIL FROM" ("MAIL FROM:<" +:+ Settings.from_address settings +:+ ">");
  do_ command fuel 250 "RCPT TO" ("RCPT TO:<" +:+ Message.to message +:+ ">");
  do_ command fuel 354 "DATA" "DATA";
  do_ write_all (stuffed (Message.wire_bytes message date));
  do_ write_all ("." +:+ CRLF);
  do_ expect fuel 250 "end of DATA";
  ignore (command fuel 221 "QUIT" "QUIT").

(** [send], once connected; [date] is [rfc5322_date] of the clock. *)
Definition conversation (fuel : nat) (settings : Settings.t) (message : Message.t) (date : string) : M unit :=
  do_ expect fuel 220 "greeting";
  do_ hello fuel (Settings.from_address settings);
  do s <- get;
  do encrypted <- (if supports s "STARTTLS" then do_ starttls fuel (Settings.host settings); ret true else ret false);
  do_ (match Settings.credentials settings with
      | Some credentials => if negb encrypted then fail CredentialsWithoutTls else authenticate fuel credentials
      | None => ret tt
      end);
  deliver fuel settings message date.

(** The outcome, and what was written. *)
Definition send (fuel : nat) (settings : Settings.t) (message : Message.t) (date : string)
    : option (result unit SendError * list (bool * string)) :=
  if negb (Settings.is_complete settings)
  then Some (Err (Protocol "no relay is configured (billing.email.smtp_host and from_address are required)"), [])
  else
    match connect (Settings.host settings +:+ ":" +:+ dec_string (Settings.port settings)) with
    | Err e => Some (Err (Connect e), [])
    | Ok peer =>
        match conversation fuel settings message date (Session.new (Wire.mk peer false)) with
        | None => None
        | Some (r, s) => Some (r, Session.written s)
        end
    end.
End Client.

(** ** A scripted relay, on which the examples run

    Each read gives the next chunk of the script; every write is accepted. *)
Definition script_relay (script : list string) : Relay :=
  {| Peer := list string;
     peer_read := λ _ p, match p with [] => (Ok [], []) | c :: p' => (Ok (String.list_ascii_of_string c), p') end;
     peer_write := λ _ _ p, (Ok tt, p);
     connect := λ _, Ok script |}.
#[global] Instance tls_build : Tls := {| hyper_rustls := true; client_connection := λ _, Ok tt |}.

Definition reply_line (s : string) : string := (s +:+ CRLF)%string.

Definition acme_settings (credentials : option SmtpCredentials.t) : Settings.t :=
  Settings.mk "mail.acme.test" 587 "billing@acme.test" credentials.
Definition acme_message : Message.t := Message.mk "billing@acme.test" "ops@partner.test" "Statement" ("." +:+ NL).
Definition acme_credentials : SmtpCredentials.t := SmtpCredentials.new "portal" "hunter2".

Definition plain_script : list string :=
  reply_line <$> ["220 hi"; "250 ok"; "250 ok"; "250 ok"; "354 go"; "250 queued"; "221 bye"]%string.
Definition tls_script : list string :=
  reply_line <$> ["220 hi"; "250-mail" +:+ CRLF +:+ "250 starttls"; "220 go"; "250 ok"; "235 ok"; "250 ok"; "250 ok"; "354 go";
                  "250 queued"; "221 bye"]%string.

Definition run_script (script : list string) (credentials : option SmtpCredentials.t) :=
  let _ := script_relay script in send 20 (acme_settings credentials) acme_message "D".

Example send_plain :
  fst <$> run_script plain_script None = Some (Ok tt)
  ∧ snd <$> run_script plain_script (Some acme_credentials) = Some [(false, "EHLO acme.test" +:+ CRLF)]%string
  ∧ fst <$> run_script plain_script (Some acme_credentials) = Some (Err CredentialsWithoutTls)
  ∧ fst <$> run_script tls_script (Some acme_credentials) = Some (Ok tt)
  ∧ (λ l, take 4 l.2) <$> run_script tls_script (Some acme_credentials)
    = Some [(false, "EHLO acme.test" +:+ CRLF); (false, "STARTTLS" +:+ CRLF); (true, "EHLO" +:+ CRLF);
            (true, "AUTH PLAIN AHBvcnRhbABodW50ZXIy" +:+ CRLF)]%string.
Proof. vm_compute. auto 10. Qed.

(** ** What a conversation writes *)
Section Transcript.
Context `{Relay, Tls}.

Definition channel (s : Session.t) : option bool := Wire.tls <$> Session.wire s.

(** From [s], with the wire there, the step writes [ws] in order: all of it
    when it succeeds, and some first part of it in any case. *)
Definition emits_at {A} (ws : list string) (m : M A) (s : Session.t) : Prop :=
  ∀ b r s', channel s = Some b → m s = Some (r, s') →
    channel s' = Some b ∧ ∃ ws', ws' `prefix_of` ws
      ∧ Session.written s' = Session.written s ++ (pair b <$> ws') ∧ (is_ok r = true → ws' = ws).
Definition emits {A} (ws : list string) (m : M A) : Prop := ∀ s, emits_at ws m s.

Definition same (s s1 : Session.t) : Prop := channel s1 = channel s ∧ Session.written s1 = Session.written s.

Lemma emits_nil_ok {A} (m : M A) s :
  (∀ r s', m s = Some (r, s') → same s s') → emits_at [] m s.
Proof.
  intros Hm b r s' Hc E. destruct (Hm r s' E) as [-> Hw]. split; [done |]. exists []. rewrite app_nil_r. split_and!; done.
Qed.

Lemma emits_ret {A} (a : A) : emits [] (ret a).
Proof. intros s. apply emits_nil_ok. by intros r s' [= <- <-]. Qed.

Lemma emits_fail {A} ws e : emits ws (@fail _ A e).
Proof.
  intros s b r s' Hc [= <- <-]. split; [done |]. exists []. rewrite app_nil_r. split_and!; [apply prefix_nil | done | done].
Qed.

Lemma emits_at_bind {A B} ws ws' (m : M A) (k : A → M B) s :
  emits_at ws m s → (∀ a, emits ws' (k a)) → emits_at (ws ++ ws') (bind m k) s.
Proof.
  intros Hm Hk b r s' Hc E. unfold bind in E. destruct (m s) as [[[a|e] s1]|] eqn:Em; [| | done].
  - destruct (Hm b _ _ Hc Em) as (Hc1 & w & Hw & W & Hok). specialize (Hok eq_refl) as ->.
    destruct (Hk a s1 b _ _ Hc1 E) as (Hc2 & w2 & Hw2 & W2 & Hok2). split; [done |]. exists (ws ++ w2).
    split_and!; [by apply prefix_app | by rewrite W2, W, fmap_app, app_assoc | intros Hr; by rewrite Hok2].
  - injection E as <- <-. destruct (Hm b _ _ Hc Em) as (Hc1 & w & Hw & W & _). split; [done |]. exists w.
    split_and!; [by apply prefix_app_r | done | done].
Qed.

Lemma emits_bind {A B} ws ws' (m : M A) (k : A → M B) :
  emits ws m → (∀ a, emits ws' (k a)) → emits (ws ++ ws') (bind m k).
Proof. intros Hm Hk s. by apply emits_at_bind. Qed.

Lemma emits_bind_quiet {A B} ws (m : M A) (k : A → M B) : emits [] m → (∀ a, emits ws (k a)) → emits ws (bind m k).
Proof. apply (emits_bind []). Qed.

Lemma emits_get {A} ws (k : Session.t → M A) : (∀ s, emits_at ws (k s) s) → emits ws (bind get k).
Proof. intros Hk s b r s' Hc E. by apply (Hk s b r s' Hc). Qed.

Lemma emits_at_put {A} ws s1 (k : unit → M A) s : same s s1 → emits_at ws (k tt) s1 → emits_at ws (bind (put s1) k) s.
Proof.
  intros [Hc1 Hw1] Hk b r s' Hc E. unfold bind, put in E. rewrite <- Hc1 in Hc.
  destruct (Hk b r s' Hc E) as (? & w & ? & W & ?). split; [done |]. exists w. by rewrite W, Hw1.
Qed.

Lemma emits_write x : emits [x] (write_all x).
Proof.
  intros s b r s' Hc E. unfold write_all, channel in *. destruct (Session.wire s) as [w|]; [| done].
  cbn in Hc. injection Hc as <-. destruct (peer_write (Wire.tls w) x (Wire.peer w)) as [[|] p']; injection E as <- <-.
  all: split; [done |]; exists [x]; split_and!; done.
Qed.

Lemma emits_wire_read : emits [] wire_read.
Proof.
  intros s. apply emits_nil_ok. intros r s' E. unfold wire_read, same, channel in *.
  destruct (Session.wire s) as [w|] eqn:Ew.
  - destruct (peer_read (Wire.tls w) (Wire.peer w)) as [[|] p']; injection E as <- <-; cbn; done.
  - injection E as <- <-. by rewrite Ew.
Qed.

Lemma same_buffer s buffer consumed : same s (with_buffer s buffer consumed).
Proof. done. Qed.
Lemma same_capabilities s l : same s (with_capabilities s l).
Proof. done. Qed.

Lemma emits_read_line fuel : emits [] (read_line fuel).
Proof.
  induction fuel as [|fuel IH]; [by intros s b r s' _ E |]. cbn [read_line].
  apply emits_get. intros s. destruct (newline_position _) as [offset|].
  - apply emits_at_put; [done | apply emits_ret].
  - apply emits_at_put; [done |]. set (s1 := with_buffer _ _ _). clearbody s1. revert s1.
    change (emits [] (if MAX_REPLY_BYTES <? Z.of_nat (length (drop (Session.consumed s) (Session.buffer s)))
      then fail (Protocol ("the relay sent more than 8192 bytes without ending a line"))
      else bind wire_read (λ chunk, match chunk with
            | [] => fail (Protocol "the relay closed the connection mid-reply")
            | _ => bind get (λ s, bind (put (with_buffer s (Session.buffer s ++ chunk) (Session.consumed s))) (λ _, read_line fuel))
            end))).
    destruct (MAX_REPLY_BYTES <? _); [apply emits_fail |].
    apply emits_bind_quiet; [apply emits_wire_read |]. intros [|c chunk]; [apply emits_fail |].
    apply emits_get. intros s2. apply emits_at_put; [done | apply IH].
Qed.

Lemma emits_read_reply_loop lines fuel code_text text : emits [] (read_reply_loop lines fuel code_text text).
Proof.
  revert code_text text. induction lines as [|lines IH]; intros code_text text; [by intros s b r s' _ E |].
  cbn [read_reply_loop]. apply emits_bind_quiet; [apply emits_read_line |]. intros line. cbn zeta.
  destruct (_ || _); [apply emits_fail |]. destruct (_ && _); [apply emits_fail |].
  destruct (String.get 3 _) as [c|]; [| apply emits_fail].
  repeat first [apply emits_fail | apply IH | case_match]; apply emits_ret.
Qed.

Lemma emits_expect fuel code cmd : emits [] (expect fuel code cmd).
Proof.
  apply emits_bind_quiet; [apply emits_read_reply_loop |]. intros reply. destruct (_ || _); [apply emits_ret | apply emits_fail].
Qed.

(** A command is written whole, whatever comes back. *)
Lemma command_writes fuel code cmd line s b r s' :
  channel s = Some b → command fuel code cmd line s = Some (r, s') →
  channel s' = Some b ∧ Session.written s' = Session.written s ++ [(b, line +:+ CRLF)%string].
Proof.
  intros Hc Ec. unfold command, bind, write_all in Ec. unfold channel in Hc.
  destruct (Session.wire s) as [w|]; [| done]. cbn in Hc. injection Hc as Eb. rewrite Eb in Ec.
  destruct (peer_write b (line +:+ CRLF)%string (Wire.peer w)) as [[u|e] p'].
  - set (s2 := with_wire _ _ _) in *. assert (channel s2 = Some b) as Hc2 by done.
    destruct (emits_expect fuel code cmd s2 b r s' Hc2 Ec) as (Hc1 & w' & Hw' & W & _).
    apply prefix_nil_inv in Hw' as ->. rewrite app_nil_r in W. by rewrite W.
  - by injection Ec as <- <-.
Qed.

Lemma emits_written {A} x (m : M A) :
  (∀ s b r s', channel s = Some b → m s = Some (r, s') →
    channel s' = Some b ∧ Session.written s' = Session.written s ++ [(b, x)]) → emits [x] m.
Proof. intros Hm s b r s' Hc E. destruct (Hm s b r s' Hc E) as [? ->]. split; [done |]. by exists [x]. Qed.

Lemma emits_command fuel code cmd line : emits [line +:+ CRLF]%string (command fuel code cmd line).
Proof. apply emits_written. apply command_writes. Qed.

Lemma emits_hello fuel from : emits ["EHLO " +:+ ehlo_domain from +:+ CRLF]%string (hello fuel from).
Proof.
  replace ("EHLO " +:+ ehlo_domain from +:+ CRLF)%string with (("EHLO " +:+ ehlo_domain from) +:+ CRLF)%string
    by (by rewrite str_app_assoc).
  apply (emits_bind [_] []); [apply emits_command |]. intros reply. apply emits_get. intros s.
  intros b r s' Hc [= <- <-]. split; [done |]. exists []. rewrite app_nil_r. split_and!; done.
Qed.

Definition mail_writes (settings : Settings.t) (message : Message.t) (date : string) : list string :=
  ["MAIL FROM:<" +:+ Settings.from_address settings +:+ ">" +:+ CRLF;
   "RCPT TO:<" +:+ Message.to message +:+ ">" +:+ CRLF; "DATA" +:+ CRLF;
   stuffed (Message.wire_bytes message date); "." +:+ CRLF; "QUIT" +:+ CRLF]%string.

Definition auth_writes (credentials : SmtpCredentials.t) (again : bool) : list string :=
  let encoded := base64 (auth_plain credentials) in
  ("AUTH PLAIN " +:+ encoded +:+ CRLF)%string :: if again then [(encoded +:+ CRLF)%string] else [].

Lemma emits_ignore_command fuel code cmd line : emits [line +:+ CRLF]%string (ignore (command fuel code cmd line)).
Proof.
  apply emits_written. intros s b r s' Hc E. unfold ignore in E.
  destruct (command fuel code cmd line s) as [[r1 s1]|] eqn:Ec; [| done].
  injection E as <- <-. by eapply command_writes.
Qed.

Lemma emits_deliver fuel settings message date : emits (mail_writes settings message date) (deliver fuel settings message date).
Proof.
  apply (emits_bind [_] _).
  { replace ("MAIL FROM:<" +:+ Settings.from_address settings +:+ ">" +:+ CRLF)%string
      with (("MAIL FROM:<" +:+ Settings.from_address settings +:+ ">") +:+ CRLF)%string by (by rewrite !str_app_assoc).
    apply emits_command. }
  intros _. apply (emits_bind [_] _).
  { replace ("RCPT TO:<" +:+ Message.to message +:+ ">" +:+ CRLF)%string
      with (("RCPT TO:<" +:+ Message.to message +:+ ">") +:+ CRLF)%string by (by rewrite !str_app_assoc).
    apply emits_command. }
  intros _. apply (emits_bind [_] _); [apply emits_command |].
  intros _. apply (emits_bind [_] _); [apply emits_write |].
  intros _. apply (emits_bind [_] _); [apply emits_write |].
  intros _. apply emits_bind_quiet; [apply emits_expect |]. intros _. apply emits_ignore_command.
Qed.

Lemma bind_Some {A B} (m : M A) (k : A → M B) s r s' :
  bind m k s = Some (r, s') →
  (∃ a s1, m s = Some (Ok a, s1) ∧ k a s1 = Some (r, s')) ∨ (∃ e, m s = Some (Err e, s') ∧ r = Err e).
Proof. unfold bind. destruct (m s) as [[[a|e] s1]|]; naive_solver. Qed.

(** [authenticate] writes the credential once, or once more when asked. *)
Lemma authenticate_writes fuel credentials s b r s' :
  channel s = Some b → authenticate fuel credentials s = Some (r, s') →
  channel s' = Some b ∧ ∃ again, Session.written s' = Session.written s ++ (pair b <$> auth_writes credentials again).
Proof.
  intros Hc E. unfold authenticate in E. set (encoded := base64 (auth_plain credentials)) in *.
  unfold bind at 1, outcome in E. destruct (command fuel 235 "AUTH" ("AUTH PLAIN " +:+ encoded) s) as [[r1 s1]|] eqn:E1; [| done].
  destruct (command_writes _ _ _ _ _ _ _ _ Hc E1) as [Hc1 W1]. rewrite str_app_assoc in W1.
  assert (s' = s1 → channel s' = Some b
    ∧ ∃ again, Session.written s' = Session.written s ++ (pair b <$> auth_writes credentials again)) as Hstop.
  { intros ->. split; [done |]. by exists false. }
  destruct r1 as [reply|[]]; try (injection E as <- <-; by apply Hstop).
  destruct (code =? 334); [| injection E as <- <-; by apply Hstop].
  unfold bind at 1 in E. destruct (command fuel 235 "AUTH" encoded s1) as [[r2 s2]|] eqn:E2; [| done].
  destruct (command_writes _ _ _ _ _ _ _ _ Hc1 E2) as [Hc2 W2].
  assert (s2 = s') as -> by (destruct r2; by injection E).
  split; [done |]. exists true. rewrite W2, W1, <- app_assoc. done.
Qed.

Definition starttls_writes : list (bool * string) := [(false, "STARTTLS" +:+ CRLF); (true, "EHLO" +:+ CRLF)]%string.

Lemma starttls_spec fuel host s r s' :
  channel s = Some false → starttls fuel host s = Some (r, s') →
  ∃ ws, ws `prefix_of` starttls_writes ∧ Session.written s' = Session.written s ++ ws
    ∧ (is_ok r = true → ws = starttls_writes ∧ channel s' = Some true).
Proof.
  intros Hc E. unfold starttls in E. apply bind_Some in E as [(a & s1 & E1 & E)|(e & E1 & ->)].
  2: { destruct (command_writes _ _ _ _ _ _ _ _ Hc E1) as [_ W]. exists (take 1 starttls_writes). rewrite W. split_and!; try done.
       by exists [(true, "EHLO" +:+ CRLF)%string]. }
  destruct (command_writes _ _ _ _ _ _ _ _ Hc E1) as [Hc1 W1].
  unfold bind at 1, get in E. destruct (negb _).
  { injection E as <- <-. exists (take 1 starttls_writes). rewrite W1. split_and!; try done.
    by exists [(true, "EHLO" +:+ CRLF)%string]. }
  unfold channel in Hc1. destruct (Session.wire s1) as [w|]; [| done].
  unfold bind at 1, put in E. destruct (upgrade w host) as [w'|e] eqn:Eu.
  2: { injection E as <- <-. exists (take 1 starttls_writes). cbn. rewrite W1. split_and!; try done.
       by exists [(true, "EHLO" +:+ CRLF)%string]. }
  assert (Wire.tls w' = true) as Ht.
  { unfold upgrade in Eu. destruct hyper_rustls; [| done]. destruct (client_connection host); [| done]. by injection Eu as <-. }
  unfold bind at 1 in E. set (s2 := Session.mk _ _ _ _ _ _) in E.
  assert (channel s2 = Some true) as Hc2 by (cbn; by rewrite Ht).
  apply bind_Some in E as [(reply & s3 & E3 & E)|(e & E3 & ->)].
  all: destruct (command_writes _ _ _ _ _ _ _ _ Hc2 E3) as [Hc3 W3]; exists starttls_writes.
  - injection E as <- <-. cbn. rewrite W3. cbn. rewrite W1, <- app_assoc. done.
  - rewrite W3. cbn. rewrite W1, <- app_assoc. split_and!; done.
Qed.

Definition ehlo_write (settings : Settings.t) : bool * string :=
  (false, "EHLO " +:+ ehlo_domain (Settings.from_address settings) +:+ CRLF)%string.

(** Everything a conversation that succeeds writes: in the clear and without a
    credential, or through TLS, with it when one is configured, the response
    [again] when the relay asks for it separately. *)
Definition transcript (settings : Settings.t) (message : Message.t) (date : string) (encrypted again : bool)
    : list (bool * string) :=
  ehlo_write settings ::
  if encrypted then
    starttls_writes ++ (pair true <$>
      (match Settings.credentials settings with Some c => auth_writes c again | None => [] end
       ++ mail_writes settings message date))
  else match Settings.credentials settings with
       | Some _ => []
       | None => pair false <$> mail_writes settings message date
       end.

Lemma fmap_prefix {A B} (f : A → B) (a b : list A) : a `prefix_of` b → f <$> a `prefix_of` f <$> b.
Proof. intros [k ->]. exists (f <$> k). apply fmap_app. Qed.

(** The part of a conversation after the capabilities are known. *)
Lemma deliver_writes fuel settings message date b s r s' :
  channel s = Some b → deliver fuel settings message date s = Some (r, s') →
  ∃ ws, ws `prefix_of` mail_writes settings message date
    ∧ Session.written s' = Session.written s ++ (pair b <$> ws)
    ∧ (is_ok r = true → ws = mail_writes settings message date).
Proof. intros Hc E. destruct (emits_deliver fuel settings message date s b r s' Hc E) as (_ & H3). exact H3. Qed.

Lemma after_upgrade_writes fuel settings message date s r s' :
  channel s = Some true →
  (do_ (match Settings.credentials settings with
        | Some credentials => if negb true then fail CredentialsWithoutTls else authenticate fuel credentials
        | None => ret tt
        end); deliver fuel settings message date) s = Some (r, s') →
  ∃ again ws,
    let all := match Settings.credentials settings with Some c => auth_writes c again | None => [] end
               ++ mail_writes settings message date in
    ws `prefix_of` all ∧ Session.written s' = Session.written s ++ (pair true <$> ws) ∧ (is_ok r = true → ws = all).
Proof.
  intros Hc E. destruct (Settings.credentials settings) as [c|]; cbn [negb] in E.
  - apply bind_Some in E as [([] & s1 & E1 & E)|(e & E1 & ->)].
    + destruct (authenticate_writes _ _ _ _ _ _ Hc E1) as (Hc1 & again & W1).
      destruct (deliver_writes _ _ _ _ _ _ _ _ Hc1 E) as (ws & Hws & W & Hok). exists again, (auth_writes c again ++ ws).
      cbn zeta. split_and!; [by apply prefix_app | by rewrite W, W1, fmap_app, app_assoc | intros Hr; by rewrite Hok].
    + destruct (authenticate_writes _ _ _ _ _ _ Hc E1) as (_ & again & W1). exists again, (auth_writes c again).
      cbn zeta. split_and!; [by apply prefix_app_r | done | done].
  - apply bind_Some in E as [([] & s1 & [= <-] & E)|(e & [=] & _)].
    destruct (deliver_writes _ _ _ _ _ _ _ _ Hc E) as (ws & Hws & W & Hok). by exists false, ws.
Qed.

Lemma conversation_writes fuel settings message date s r s' :
  channel s = Some false → Session.written s = [] → conversation fuel settings message date s = Some (r, s') →
  ∃ encrypted again, Session.written s' `prefix_of` transcript settings message date encrypted again
    ∧ (is_ok r = true → Session.written s' = transcript settings message date encrypted again
       ∧ (is_Some (Settings.credentials settings) → encrypted = true)).
Proof.
  intros Hc Hw E. unfold conversation in E. apply bind_Some in E as [(a & s1 & E1 & E)|(e & E1 & ->)].
  2: { destruct (emits_expect _ _ _ s _ _ _ Hc E1) as (_ & ws & Hws%prefix_nil_inv & W & _).
       subst ws. rewrite Hw in W. cbn in W. exists false, false. rewrite W. split; [apply prefix_nil | done]. }
  destruct (emits_expect _ _ _ s _ _ _ Hc E1) as (Hc1 & ws & Hws%prefix_nil_inv & W1 & _).
  subst ws. rewrite Hw in W1. cbn in W1. clear E1 a.
  assert (∀ encrypted again ws, ws `prefix_of` [ehlo_write settings] →
    ws `prefix_of` transcript settings message date encrypted again) as Hone.
  { intros enc again ws Hws. etrans; [exact Hws |]. unfold transcript. by eexists. }
  apply bind_Some in E as [([] & s2 & E2 & E)|(e & E2 & ->)].
  all: destruct (emits_hello _ _ s1 _ _ _ Hc1 E2) as (Hc2 & ws & Hws & W2 & Hok2); rewrite W1 in W2; cbn [app] in W2.
  2: { exists false, false. split; [| done]. apply Hone. rewrite W2. by apply (fmap_prefix (pair false)) in Hws. }
  rewrite Hok2 in W2 by done. cbn [fmap list_fmap] in W2. fold (ehlo_write settings) in W2. clear ws Hws Hok2 E2.
  unfold bind at 1, get in E. destruct (supports s2 "STARTTLS").
  - apply bind_Some in E as [(enc & s3 & E3 & E)|(e & E3 & ->)].
    all: apply bind_Some in E3 as [([] & s3' & E3 & Er)|(e' & E3 & Er)]; try done.
    + injection Er as <- <-. destruct (starttls_spec _ _ _ _ _ Hc2 E3) as (ws & _ & W3 & Hok3).
      destruct (Hok3 eq_refl) as [-> Hc3]. destruct (after_upgrade_writes _ _ _ _ _ _ _ Hc3 E) as (again & ws & Hws & W & Hok).
      cbn zeta in *. exists true, again. rewrite W, W3, W2. unfold transcript. rewrite <- app_assoc. cbn [app]. split.
      * apply prefix_cons, prefix_app. by apply fmap_prefix.
      * intros Hr. by rewrite Hok.
    + destruct (starttls_spec _ _ _ _ _ Hc2 E3) as (ws & Hws & W3 & _). exists true, false. split; [| done].
      rewrite W3, W2. unfold transcript. apply prefix_cons. by apply prefix_app_r.
  - apply bind_Some in E as [(enc & s3 & [= <- <-] & E)|(e & [=] & _)].
    destruct (Settings.credentials settings) as [c|] eqn:Ecred; cbn [negb] in E.
    + apply bind_Some in E as [(? & ? & [=] & _)|(e & [= <- <-] & ->)]. exists false, false. rewrite W2. split; [by apply Hone | done].
    + apply bind_Some in E as [([] & s4 & [= <-] & E)|(e & [=] & _)].
      destruct (deliver_writes _ _ _ _ _ _ _ _ Hc2 E) as (ws & Hws & W & Hok). exists false, false. rewrite W, W2.
      unfold transcript. rewrite Ecred. cbn [app]. split; [apply prefix_cons; by apply fmap_prefix |].
      intros Hr. rewrite Hok by done. split; [done |]. intros [? [=]].
Qed.
End Transcript.

Section Delivery.
Context `{Relay, Tls}.

Lemma send_writes fuel settings message date r log :
  send fuel settings message date = Some (r, log) →
  ∃ encrypted again, log `prefix_of` transcript settings message date encrypted again
    ∧ (is_ok r = true → log = transcript settings message date encrypted again
       ∧ (is_Some (Settings.credentials settings) → encrypted = true)).
Proof.
  unfold send. destruct (negb (Settings.is_complete settings)).
  { intros [= <- <-]. exists false, false. split; [apply prefix_nil | done]. }
  destruct (connect _) as [peer|e].
  2: { intros [= <- <-]. exists false, false. split; [apply prefix_nil | done]. }
  destruct (conversation _ _ _ _ _) as [[r' s']|] eqn:E; [| done]. intros [= <- <-].
  by eapply conversation_writes; [| | exact E].
Qed.

(** C14. The relay's credential never goes down an unencrypted wire: with one
    configured, whatever the relay answers and wherever the conversation stops,
    the only bytes written in the clear are the [EHLO] and the [STARTTLS], and a
    relay that does not upgrade is sent no message either. *)
Theorem credential_never_in_clear (fuel : nat) (settings : Settings.t) (credentials : SmtpCredentials.t)
    (message : Message.t) (date : string) (r : result unit SendError) (log : list (bool * string))
    (Hcredentials : Settings.credentials settings = Some credentials)
    (Hsend : send fuel settings message date = Some (r, log)) :
  (∀ bytes, (false, bytes) ∈ log →
     bytes = ("EHLO " +:+ ehlo_domain (Settings.from_address settings) +:+ CRLF)%string
     ∨ bytes = ("STARTTLS" +:+ CRLF)%string)
  ∧ (r = Ok tt → ∃ again, (true, ("AUTH PLAIN " +:+ base64 (auth_plain credentials) +:+ CRLF)%string) ∈ log
       ∧ log = transcript settings message date true again).
Proof.
  destruct (send_writes _ _ _ _ _ _ Hsend) as (encrypted & again & Hpre & Hok). split.
  - intros bytes Hin. apply (elem_of_prefix _ _ _ Hin) in Hpre. unfold transcript in Hpre. rewrite Hcredentials in Hpre.
    apply elem_of_cons in Hpre as [[= ->]|Hpre]; [by left |].
    destruct encrypted; [| by apply elem_of_nil in Hpre].
    apply elem_of_app in Hpre as [Hpre|(x & [=] & _)%list_elem_of_fmap].
    apply elem_of_cons in Hpre as [[= ->]|[[=]|Hn%elem_of_nil]%elem_of_cons]; [by right | done].
  - intros ->. destruct (Hok eq_refl) as [-> He]. rewrite (He ltac:(by eexists)). exists again. split; [| done].
    unfold transcript. rewrite Hcredentials. right. apply elem_of_app. right. apply list_elem_of_fmap.
    eexists. split; [done |]. apply elem_of_app. left. by left.
Qed.

(** C15. A send that reports success has handed the relay the whole message: the
    recipient was named to it, and what it reads after [DATA], up to the lone
    dot, is exactly the headers and the lines that were built, encrypted when
    a credential is configured; nothing of the message is left to be read as
    commands. *)
Theorem sent_message_arrives `{TimeCrate} (fuel : nat) (settings : Settings.t) (from to subject body : string)
    (message : Message.t) (now : OffsetDateTime) (log : list (bool * string))
    (next_line : string → option (string * string))
    (Hrelay : reads_lines next_line) (Hnew : Message.new from to subject body = Ok message)
    (Hsend : send fuel settings message (rfc5322_date now) = Some (Ok tt, log)) :
  ∃ encrypted before payload lines,
    log = before ++ (encrypted, "DATA" +:+ CRLF)%string :: (pair encrypted <$> payload)
    ∧ (encrypted, ("RCPT TO:<" +:+ to +:+ ">" +:+ CRLF)%string) ∈ before
    ∧ receive next_line (String.length (concat_str payload)) (concat_str payload) = Some (lines, "QUIT" +:+ CRLF)%string
    ∧ read_message lines
      = Some ([("From", from); ("To", to); ("Subject", subject); ("Date", rfc5322_date now); ("MIME-Version", "1.0");
               ("Content-Type", "text/plain; charset=utf-8"); ("Content-Transfer-Encoding", "8bit");
               ("Auto-Submitted", "auto-generated")]%string, normalised_lines body)
    ∧ (is_Some (Settings.credentials settings) → encrypted = true).
Proof.
  destruct (message_arrives_whole next_line from to subject body ("QUIT" +:+ CRLF) message now Hrelay Hnew) as (lines & Hr & Hm).
  destruct (send_writes _ _ _ _ _ _ Hsend) as (encrypted & again & _ & Hok). destruct (Hok eq_refl) as [-> He].
  apply message_new_Ok in Hnew as (-> & _).
  set (message := Message.mk from to subject body) in *.
  set (payload := [stuffed (Message.wire_bytes message (rfc5322_date now)); "." +:+ CRLF; "QUIT" +:+ CRLF]%string).
  set (envelope := ["MAIL FROM:<" +:+ Settings.from_address settings +:+ ">" +:+ CRLF; "RCPT TO:<" +:+ to +:+ ">" +:+ CRLF]%string).
  assert (mail_writes settings message (rfc5322_date now) = envelope ++ ("DATA" +:+ CRLF)%string :: payload) as Ew by done.
  assert (concat_str payload = stuffed (Message.wire_bytes message (rfc5322_date now)) +:+ "." +:+ CRLF +:+ "QUIT" +:+ CRLF)%string as Ep
    by (unfold payload; cbn [concat_str]; by rewrite str_app_nil_r).
  assert (∃ before, transcript settings message (rfc5322_date now) encrypted again
            = (before ++ (pair encrypted <$> envelope)) ++ (encrypted, "DATA" +:+ CRLF)%string :: (pair encrypted <$> payload)) as [before Eb].
  { unfold transcript. rewrite Ew. destruct encrypted.
    - exists (ehlo_write settings :: starttls_writes
        ++ (pair true <$> match Settings.credentials settings with Some c => auth_writes c again | None => [] end)).
      rewrite !fmap_app. cbn [app]. by rewrite <- !app_assoc.
    - destruct (Settings.credentials settings) as [c|]; [by specialize (He ltac:(by eexists)) |].
      exists [ehlo_write settings]. rewrite fmap_app. cbn [app]. done. }
  exists encrypted, (before ++ (pair encrypted <$> envelope)), payload, lines. rewrite Ep. split_and!; try done.
  apply elem_of_app. right. apply list_elem_of_fmap. eexists. split; [done |]. right. by left.
Qed.
End Delivery.

(** ** When a conversation ends *)
Section Ends.
Context `{Relay, Tls}.

(** A relay that has a finite number of bytes left to say. *)
Variable budget : Peer → nat.
Hypothesis read_budget : ∀ tls p chunk p', peer_read tls p = (Ok chunk, p') → (budget p' + length chunk ≤ budget p)%nat.
Hypothesis failed_read_budget : ∀ tls p e p', peer_read tls p = (Err e, p') → (budget p' ≤ budget p)%nat.
Hypothesis write_budget : ∀ tls bytes p, (budget (peer_write tls bytes p).2 ≤ budget p)%nat.

(** What is still to come: said but not consumed, or not said yet. *)
Definition unsaid (s : Session.t) : nat :=
  match Session.wire s with Some w => budget (Wire.peer w) | None => 0 end.
Definition to_come (s : Session.t) : nat := (unsaid s + length (drop (Session.consumed s) (Session.buffer s)))%nat.

(** The step ends when at most [n] bytes are to come, and adds none. *)
Definition ends {A} (n : nat) (m : M A) : Prop :=
  ∀ s, (to_come s ≤ n)%nat → ∃ r s', m s = Some (r, s') ∧ (to_come s' ≤ to_come s)%nat.

Lemma ends_ret {A} n (a : A) : ends n (ret a).
Proof. intros s _. by exists (Ok a), s. Qed.

Lemma ends_fail {A} n e : ends n (@fail _ A e).
Proof. intros s _. by exists (Err e), s. Qed.

Lemma ends_bind {A B} n (m : M A) (k : A → M B) : ends n m → (∀ a, ends n (k a)) → ends n (bind m k).
Proof.
  intros Hm Hk s Hs. unfold bind. destruct (Hm s Hs) as ([a|e] & s1 & -> & H1); [| by exists (Err e), s1].
  destruct (Hk a s1 ltac:(lia)) as (r & s2 & -> & H2). exists r, s2. split; [done | lia].
Qed.

Lemma ends_get {A} n (k : Session.t → M A) :
  (∀ s, (to_come s ≤ n)%nat → ∃ r s', k s s = Some (r, s') ∧ (to_come s' ≤ to_come s)%nat) → ends n (bind get k).
Proof. intros Hk s Hs. by apply Hk. Qed.

Lemma ends_write n bytes : ends n (write_all bytes).
Proof.
  intros s _. unfold write_all. destruct (Session.wire s) as [w|] eqn:Ew; [| by exists (Err LOST), s].
  pose proof (write_budget (Wire.tls w) bytes (Wire.peer w)) as Hb.
  destruct (peer_write (Wire.tls w) bytes (Wire.peer w)) as [[u|e] p']; cbn in Hb; do 2 eexists; (split; [done |]);
    unfold to_come, unsaid; cbn; rewrite Ew; lia.
Qed.

Lemma newline_position_lt l i : newline_position l = Some i → (i < length l)%nat.
Proof.
  unfold newline_position. destruct (list_find _ l) as [[j c]|] eqn:E; [| done]. intros [= <-].
  apply list_find_Some in E as (Hl & _). by apply lookup_lt_Some in Hl.
Qed.

(** A line that was read is a byte less to come at least. *)
Lemma read_line_ends fuel s :
  (unsaid s < fuel)%nat →
  ∃ r s', read_line fuel s = Some (r, s') ∧ (to_come s' ≤ to_come s)%nat ∧ (is_ok r = true → (to_come s' < to_come s)%nat).
Proof.
  revert s. induction fuel as [|fuel IH]; intros s Hs; [lia |]. cbn [read_line]. unfold bind at 1, get.
  destruct (newline_position (drop (Session.consumed s) (Session.buffer s))) as [offset|] eqn:Eo.
  - unfold bind, put, ret. do 2 eexists. split; [done |].
    apply newline_position_lt in Eo. rewrite length_drop in Eo.
    unfold to_come, unsaid. cbn. rewrite !length_drop. split; [| intros _]; lia.
  - unfold bind at 1, put. set (rest := drop _ _). set (s1 := with_buffer s rest 0).
    assert (to_come s1 = to_come s) as E1 by done.
    destruct (MAX_REPLY_BYTES <? Z.of_nat (length rest)); [do 2 eexists; split; [done |]; split; [lia | done] |].
    unfold bind at 1, wire_read. change (Session.wire s1) with (Session.wire s).
    destruct (Session.wire s) as [w|] eqn:Ew; [| do 2 eexists; split; [done |]; split; [lia | done]].
    assert (unsaid s = budget (Wire.peer w)) as Eu by (unfold unsaid; by rewrite Ew).
    assert (to_come s = (budget (Wire.peer w) + length rest)%nat) as Es by (unfold to_come; by rewrite Eu).
    destruct (peer_read (Wire.tls w) (Wire.peer w)) as [[chunk|e] p'] eqn:Er.
    2: { apply failed_read_budget in Er. do 2 eexists. split; [done |]. split; [| done].
         change (budget p' + length rest ≤ to_come s)%nat. lia. }
    apply read_budget in Er. destruct chunk as [|c chunk].
    { do 2 eexists. split; [done |]. split; [| done]. change (budget p' + length rest ≤ to_come s)%nat. cbn in Er. lia. }
    unfold bind at 1, bind at 1. set (s2 := with_buffer _ _ _).
    assert (to_come s2 = (budget p' + (length rest + length (c :: chunk)))%nat) as E2
      by (rewrite <- length_app; done).
    cbn [length] in *. assert (unsaid s2 = budget p') as Eu2 by done.
    destruct (IH s2 ltac:(lia)) as (r & s' & -> & H1 & H2).
    do 2 eexists. split; [done |]. split; [lia | intros Hr; specialize (H2 Hr); lia].
Qed.

Lemma read_reply_ends lines fuel code_text text s :
  (to_come s < lines)%nat → (to_come s < fuel)%nat →
  ∃ r s', read_reply_loop lines fuel code_text text s = Some (r, s') ∧ (to_come s' ≤ to_come s)%nat.
Proof.
  revert code_text text s. induction lines as [|lines IH]; intros code_text text s Hl Hf; [lia |].
  cbn [read_reply_loop]. unfold bind at 1.
  destruct (read_line_ends fuel s ltac:(unfold to_come in Hf; lia)) as ([line|e] & s1 & -> & H1 & H2); [| by exists (Err e), s1].
  specialize (H2 eq_refl). cbn zeta.
  repeat match goal with
  | |- ∃ r s', fail _ _ = _ ∧ _ => do 2 eexists; split; [done | lia]
  | |- ∃ r s', ret _ _ = _ ∧ _ => do 2 eexists; split; [done | lia]
  | |- ∃ r s', read_reply_loop _ _ ?c ?t _ = _ ∧ _ =>
      destruct (IH c t s1 ltac:(lia) ltac:(lia)) as (r & s' & -> & H3); exists r, s'; split; [done | lia]
  | |- context [if ?b then _ else _] => destruct b
  | |- context [match parse_u16 ?x with _ => _ end] => destruct (parse_u16 x)
  | |- context [match String.get 3 ?x with _ => _ end] => destruct (String.get 3 x) as [c|]
  | c : ascii |- _ => destruct c as [[] [] [] [] [] [] [] []]
  end.
Qed.

(** From here on the fuel exceeds what is to come. *)
Lemma ends_expect n fuel code cmd : (n < fuel)%nat → ends n (expect fuel code cmd).
Proof.
  intros Hf. apply ends_bind.
  - intros s Hs. apply read_reply_ends; lia.
  - intros reply. destruct (_ || _); [apply ends_ret | apply ends_fail].
Qed.

Lemma ends_command n fuel code cmd line : (n < fuel)%nat → ends n (command fuel code cmd line).
Proof. intros Hf. apply ends_bind; [apply ends_write | intros _; by apply ends_expect]. Qed.

Lemma ends_set_capabilities n l : ends n (bind get (λ s, put (with_capabilities s l))).
Proof. apply ends_get. intros s _. by do 2 eexists. Qed.

Lemma ends_starttls n fuel host : (n < fuel)%nat → ends n (starttls fuel host).
Proof.
  intros Hf. apply ends_bind; [by apply ends_command |]. intros _. apply ends_get. intros s Hs.
  destruct (negb _); [by do 2 eexists |].
  destruct (Session.wire s) as [w|] eqn:Ew; [| by do 2 eexists].
  unfold bind at 1, put. destruct (upgrade w host) as [w'|e] eqn:Eu.
  2: { do 2 eexists. split; [done |]. unfold to_come at 1, unsaid. cbn. lia. }
  unfold bind at 1. set (s2 := Session.mk _ _ _ _ _ _).
  assert (to_come s2 ≤ to_come s)%nat as H2.
  { unfold to_come, unsaid, s2. cbn. rewrite Ew. unfold upgrade in Eu. destruct hyper_rustls; [| done].
    destruct (client_connection host); [| done]. injection Eu as <-. cbn. lia. }
  destruct (ends_bind n _ (λ reply, bind get (λ s, put (with_capabilities s (capabilities_of (Reply.text reply)))))
    (ends_command n fuel 250 "EHLO" "EHLO" Hf) (λ _, ends_set_capabilities n _) s2 ltac:(lia)) as (r & s' & E & H3).
  exists r, s'. split; [exact E | lia].
Qed.

Lemma ends_authenticate n fuel c : (n < fuel)%nat → ends n (authenticate fuel c).
Proof.
  intros Hf. apply ends_bind.
  - intros s Hs. unfold outcome. destruct (ends_command n fuel 235 "AUTH" ("AUTH PLAIN " +:+ base64 (auth_plain c)) Hf s Hs)
      as (r & s' & -> & Hle). by do 2 eexists.
  - intros [reply|[]]; try apply ends_fail; [apply ends_ret |]. destruct (code =? 334); [| apply ends_fail].
    apply ends_bind; [by apply ends_command | intros _; apply ends_ret].
Qed.

Lemma ends_deliver n fuel settings message date : (n < fuel)%nat → ends n (deliver fuel settings message date).
Proof.
  intros Hf. unfold deliver.
  do 3 (apply ends_bind; [by apply ends_command | intros _]). do 2 (apply ends_bind; [apply ends_write | intros _]).
  apply ends_bind; [by apply ends_expect |]. intros _ s Hs. unfold ignore.
  destruct (ends_command n fuel 221 "QUIT" "QUIT" Hf s Hs) as (r & s' & -> & Hle). by do 2 eexists.
Qed.

Lemma ends_conversation n fuel settings message date : (n < fuel)%nat → ends n (conversation fuel settings message date).
Proof.
  intros Hf. apply ends_bind; [by apply ends_expect | intros _]. apply ends_bind.
  { apply ends_bind; [by apply ends_command |]. intros reply. apply ends_set_capabilities. }
  intros _. apply ends_get. intros s0 Hs0.
  assert (ends n (do encrypted <- (if supports s0 "STARTTLS" then do_ starttls fuel (Settings.host settings); ret true else ret false);
    do_ (match Settings.credentials settings with
         | Some credentials => if negb encrypted then fail CredentialsWithoutTls else authenticate fuel credentials
         | None => ret tt
         end);
    deliver fuel settings message date)) as Hm; [| by apply Hm].
  apply ends_bind.
  - destruct (supports s0 "STARTTLS"); [| apply ends_ret].
    apply ends_bind; [by apply ends_starttls | intros _; apply ends_ret].
  - intros encrypted. apply ends_bind; [| intros _; by apply ends_deliver].
    destruct (Settings.credentials settings) as [c|]; [| apply ends_ret].
    destruct (negb encrypted); [apply ends_fail | by apply ends_authenticate].
Qed.

(** A send comes to an end with every relay that stops talking: as many turns
    of each loop as the relay has bytes left to say are enough. *)
Theorem send_terminates (fuel : nat) (settings : Settings.t) (message : Message.t) (date : string)
    (Hfuel : ∀ addr peer, connect addr = Ok peer → (budget peer < fuel)%nat) :
  is_Some (send fuel settings message date).
Proof.
  unfold send. destruct (negb _); [done |]. destruct (connect _) as [peer|e] eqn:Ec; [| done].
  destruct (ends_conversation (budget peer) fuel settings message date (Hfuel _ _ Ec) (Session.new (Wire.mk peer false)))
    as (r & s' & -> & _); [| done].
  unfold to_come, unsaid. cbn. lia.
Qed.
End Ends.

(** ** Limits *)

Definition chunk_of (s : string) : list ascii := String.list_ascii_of_string s.
Definition CONTINUED : string := "220-x" +:+ CRLF.

Section Continuations.
Context `{Relay, Tls}.

(** Nothing is buffered and the peer is [p]. *)
Definition drained (s : Session.t) (tls : bool) (p : Peer) : Prop :=
  Session.wire s = Some (Wire.mk p tls) ∧ drop (Session.consumed s) (Session.buffer s) = [].

Lemma read_line_fresh fuel s tls p p' chunk n :
  drained s tls p → peer_read tls p = (Ok chunk, p') → newline_position chunk = Some n → length chunk = S n →
  ∃ s', drained s' tls p' ∧ read_line (S (S fuel)) s = Some (Ok (from_utf8_lossy chunk), s').
Proof.
  intros [Hw Hb] Hr Hn Hl. cbn [read_line]. unfold bind at 1, get. rewrite Hb.
  change (newline_position []) with (@None nat). cbn iota beta. unfold bind at 1, put.
  change (MAX_REPLY_BYTES <? Z.of_nat (length [])) with false. cbn iota.
  unfold bind at 1, wire_read. change (Session.wire (with_buffer s [] 0)) with (Session.wire s). rewrite Hw.
  cbn [Wire.tls Wire.peer]. rewrite Hr. cbn iota. destruct chunk as [|c chunk]; [done |].
  unfold bind at 1, bind at 1. set (s2 := with_buffer _ _ _).
  assert (drop (Session.consumed s2) (Session.buffer s2) = c :: chunk) as E2 by done.
  unfold bind at 1. rewrite E2, Hn. unfold bind, ret. eexists. split; [| by rewrite firstn_all2 by (rewrite Hl; lia)].
  split; [done |]. change (drop (0 + n + 1) (c :: chunk) = []). apply drop_ge. rewrite Hl. lia.
Qed.

Lemma continuation_step lines fuel code_text text s tls p p' :
  drained s tls p → peer_read tls p = (Ok (chunk_of CONTINUED), p') → (code_text = "" ∨ code_text = "220")%string →
  ∃ s', drained s' tls p' ∧
    read_reply_loop (S lines) (S (S fuel)) code_text text s
      = read_reply_loop lines (S (S fuel)) "220" ((text +:+ "x") +:+ NL) s'.
Proof.
  intros Hd Hr Hc. destruct (read_line_fresh fuel s tls p p' _ 6 Hd Hr eq_refl eq_refl) as (s' & Hd' & E).
  exists s'. split; [done |]. remember (S (S fuel)) as fuel2. cbn [read_reply_loop]. unfold bind at 1. rewrite E.
  change (from_utf8_lossy (chunk_of CONTINUED)) with CONTINUED. by destruct Hc as [-> | ->].
Qed.

(** A relay that always has another line of the same reply keeps the client
    reading: no number of turns is enough. *)
Lemma continued_forever lines fuel code_text text s tls p :
  drained s tls p → peer_read tls p = (Ok (chunk_of CONTINUED), p) → (code_text = "" ∨ code_text = "220")%string →
  read_reply_loop lines fuel code_text text s = None.
Proof.
  intros Hd Hr. destruct fuel as [|[|fuel]].
  - intros _. by destruct lines.
  - intros _. destruct lines as [|lines]; [done |]. destruct Hd as [Hw Hb]. cbn [read_reply_loop]. unfold bind at 1.
    cbn [read_line]. unfold bind at 1, get. rewrite Hb. change (newline_position []) with (@None nat). cbn iota beta.
    unfold bind at 1, put. change (MAX_REPLY_BYTES <? Z.of_nat (length [])) with false. cbn iota.
    unfold bind at 1, wire_read. change (Session.wire (with_buffer s [] 0)) with (Session.wire s). rewrite Hw.
    cbn [Wire.tls Wire.peer]. by rewrite Hr.
  - revert code_text text s Hd. induction lines as [|lines IH]; intros code_text text s Hd Hc; [done |].
    destruct (continuation_step lines fuel code_text text s tls p p Hd Hr Hc) as (s' & Hd' & ->).
    apply IH; [done | by right].
Qed.
End Continuations.

Definition endless_relay : Relay :=
  {| Peer := unit; peer_read := λ _ p, (Ok (chunk_of CONTINUED), p); peer_write := λ _ _ p, (Ok tt, p);
     connect := λ _, Ok tt |}.

(** The cap on a reply is a cap on a line: a relay whose greeting goes on line
    after line is read for as long as it talks, every line being kept, and the
    send never returns. *)
Theorem endless_reply_never_ends `{Tls} (fuel : nat) (settings : Settings.t) (message : Message.t) (date : string)
    (Hcomplete : Settings.is_complete settings = true) :
  let _ := endless_relay in send fuel settings message date = None.
Proof.
  cbn zeta. unfold send. rewrite Hcomplete. cbn [negb connect endless_relay].
  unfold conversation, bind at 1, expect, bind at 1, read_reply.
  rewrite (@continued_forever endless_relay fuel fuel "" "" _ false tt); [done | by split | done | by left].
Qed.

(** A reply of many times the cap is accepted when it does end. *)
Example long_reply_is_accepted :
  let script := replicate 2000 CONTINUED ++ (reply_line <$> ["220 ok"; "250 ok"; "250 ok"; "250 ok"; "354 go"; "250 ok"])%string in
  let _ := script_relay script in
  (fst <$> send 2001 (acme_settings None) acme_message "D") = Some (Ok tt)
  ∧ MAX_REPLY_BYTES < Z.of_nat (String.length (concat_str (replicate 2000 CONTINUED))).
Proof. vm_compute. auto. Qed.

(** The capability list is read off a reply that was cut at 500 characters for
    the error message: a relay that offers [STARTTLS] later in its list is
    taken not to offer it. The message then goes out in the clear, and with a
    credential configured it does not go out at all. *)
Definition late_starttls_script : list string :=
  [reply_line "220 hi";
   (concat_str ((λ _, reply_line "250-X-CAPABILITY-NUMBER") <$> seq 0 30) +:+ reply_line "250 STARTTLS")%string]
  ++ (reply_line <$> ["250 ok"; "250 ok"; "354 go"; "250 ok"; "221 bye"]%string).

Lemma late_starttls_is_not_seen :
  (let _ := script_relay late_starttls_script in
   ∃ log, send 40 (acme_settings None) acme_message "D" = Some (Ok tt, log)
     ∧ forallb (λ w, negb w.1) log = true ∧ length log = 7%nat)
  ∧ (let _ := script_relay late_starttls_script in
     fst <$> send 40 (acme_settings (Some acme_credentials)) acme_message "D" = Some (Err CredentialsWithoutTls)).
Proof. vm_compute. split; [eexists; split; [reflexivity | auto] | reflexivity]. Qed.

(** A bare code, which the grammar of RFC 5321 allows, is not taken for a reply. *)
Example bare_code_is_refused :
  run_script [reply_line "220"] None
  = Some (Err (Protocol ("the relay sent an unseparated reply line: " +:+ debug_str "220")), []).
Proof. vm_compute. reflexivity. Qed.

(** ** The credential on the wire *)

Definition url_char (c : ascii) : ascii :=
  if Ascii.eqb c "+" then "-"%char else if Ascii.eqb c "/" then "_"%char else c.
Definition base64_decode (text : string) : option (list Z) :=
  base64url_decode (char_map url_char (trim_end_matches "=" text)).

Lemma lor_shift_add a b k : 0 ≤ k → 0 ≤ b < 2 ^ k → Z.lor (Z.shiftl a k) b = a * 2 ^ k + b.
Proof.
  intros Hk Hb. rewrite <- Z.shiftl_mul_pow2 by done.
  assert (Z.land (Z.shiftl a k) b = 0) as Hl.
  { apply Z.bits_inj'. intros n Hn. rewrite Z.land_spec, Z.bits_0.
    destruct (Z.lt_ge_cases n k) as [Hlt|Hge]; [by rewrite Z.shiftl_spec_low |].
    rewrite <- (Z.mod_small b (2 ^ k)) by done. rewrite Z.mod_pow2_bits_high by lia. apply andb_false_r. }
  rewrite <- Z.lxor_lor by done. symmetry. by apply Z.add_nocarry_lxor.
Qed.

Lemma triple_value a b c :
  0 ≤ b < 256 → 0 ≤ c < 256 → Z.lor (Z.lor (Z.shiftl a 16) (Z.shiftl b 8)) c = a * 65536 + b * 256 + c.
Proof.
  intros Hb Hc. replace (Z.lor (Z.shiftl a 16) (Z.shiftl b 8)) with (Z.shiftl (Z.lor (Z.shiftl a 8) b) 8)
    by (rewrite Z.shiftl_lor, Z.shiftl_shiftl by lia; done).
  rewrite (lor_shift_add _ c 8), (lor_shift_add a b 8) by lia. lia.
Qed.

Lemma url_alphabet v : 0 ≤ v < 64 → url_char (alphabet_std v) = alphabet_char v ∧ Ascii.eqb (alphabet_std v) "=" = false.
Proof.
  intros Hv.
  assert (forallb (λ i, Ascii.eqb (url_char (alphabet_std (Z.of_nat i))) (alphabet_char (Z.of_nat i))
    && negb (Ascii.eqb (alphabet_std (Z.of_nat i)) "=")) (seq 0 64) = true) as Hall by (vm_compute; reflexivity).
  rewrite forallb_forall in Hall. specialize (Hall (Z.to_nat v) ltac:(apply in_seq; lia)).
  rewrite Z2Nat.id, andb_true_iff, negb_true_iff in Hall by lia. destruct Hall as [H1%Ascii.eqb_eq H2]. done.
Qed.

Lemma base64_chunk_sextets a b c :
  0 ≤ a < 256 → 0 ≤ b < 256 → 0 ≤ c < 256 →
  let four := [alphabet_std (a / 4); alphabet_std (a mod 4 * 16 + b / 16); alphabet_std (b mod 16 * 4 + c / 64);
               alphabet_std (c mod 64)] in
  base64_chunk [a; b; c] = String.string_of_list_ascii four
  ∧ (c = 0 → base64_chunk [a; b] = (String.string_of_list_ascii (take 3 four) +:+ "=")%string)
  ∧ (b = 0 → c = 0 → base64_chunk [a] = (String.string_of_list_ascii (take 2 four) +:+ "==")%string).
Proof.
  intros Ha Hb Hc.
  assert (four_chars (Z.lor (Z.lor (Z.shiftl a 16) (Z.shiftl b 8)) c)
    = [alphabet_std (a / 4); alphabet_std (a mod 4 * 16 + b / 16); alphabet_std (b mod 16 * 4 + c / 64);
               alphabet_std (c mod 64)]) as E.
  { rewrite triple_value by done. unfold four_chars. cbn [fmap list_fmap]. rewrite !(sextet_split _ _ 1) by lia.
    change (2 ^ 18) with 262144; change (2 ^ 12) with 4096; change (2 ^ 6) with 64; change (2 ^ 0) with 1.
    repeat (apply f_equal2; [apply (f_equal alphabet_std); byte_arith |]). done. }
  cbn zeta. rewrite <- E. split_and!.
  - unfold base64_chunk. by rewrite str_app_nil_r.
  - by intros ->.
  - by intros -> ->.
Qed.

(** What [base64] writes is decoded back: the relay receives the username and
    the password that were configured. *)
Lemma base64_decodes l : bytes_ok l → base64_decode (base64 l) = Some l.
Proof.
  intros Hl. unfold base64_decode.
  assert (char_map url_char (trim_end_matches "=" (base64 l)) = base64url_encode l) as ->.
  2: { rewrite base64url_decode_spec. by apply decode_spec_encode. }
  remember (length l) as n eqn:En. revert l En Hl.
  induction (lt_wf n) as [n _ IH]; intros [|a [|b [|c l]]] -> Hl; [done | ..];
    unfold bytes_ok in *; rewrite ?Forall_cons_iff in Hl; destruct_and? Hl;
    unfold base64, base64url_encode; cbn [chunks3 foldr]; rewrite ?str_app_nil_r.
  - destruct (base64_chunk_sextets a 0 0) as (_ & _ & HC); [lia.. |]. rewrite (HC eq_refl eq_refl), encode_chunk_1 by done.
    change (0 / 16) with 0. rewrite Z.add_0_r. cbn [take String.string_of_list_ascii String.append].
    destruct (url_alphabet (a / 4)) as [E1 _]; [byte_arith |].
    destruct (url_alphabet (a mod 4 * 16)) as [E2 N2]; [byte_arith |].
    pose proof (trim_end_app "=" (String (alphabet_std (a / 4)) EmptyString) (alphabet_std (a mod 4 * 16)) "==") as T.
    cbn [String.append] in T. rewrite T by done.
    cbn -[Z.div Z.modulo Z.mul alphabet_std alphabet_char url_char]. by rewrite E1, E2.
  - destruct (base64_chunk_sextets a b 0) as (_ & HC & _); [lia.. |]. rewrite (HC eq_refl), encode_chunk_2 by done.
    change (0 / 64) with 0. rewrite Z.add_0_r. cbn [take String.string_of_list_ascii String.append].
    destruct (url_alphabet (a / 4)) as [E1 _]; [byte_arith |].
    destruct (url_alphabet (a mod 4 * 16 + b / 16)) as [E2 _]; [byte_arith |].
    destruct (url_alphabet (b mod 16 * 4)) as [E3 N3]; [byte_arith |].
    pose proof (trim_end_app "=" (String (alphabet_std (a / 4)) (String (alphabet_std (a mod 4 * 16 + b / 16)) EmptyString))
      (alphabet_std (b mod 16 * 4)) "=") as T.
    cbn [String.append] in T. rewrite T by done.
    cbn -[Z.div Z.modulo Z.mul Z.add alphabet_std alphabet_char url_char]. by rewrite E1, E2, E3.
  - destruct (base64_chunk_sextets a b c) as (HC & _ & _); [lia.. |]. cbn zeta in HC. rewrite HC, encode_chunk_3 by done.
    cbn [String.string_of_list_ascii String.append].
    destruct (url_alphabet (a / 4)) as [E1 _]; [byte_arith |].
    destruct (url_alphabet (a mod 4 * 16 + b / 16)) as [E2 _]; [byte_arith |].
    destruct (url_alphabet (b mod 16 * 4 + c / 64)) as [E3 _]; [byte_arith |].
    destruct (url_alphabet (c mod 64)) as [E4 N4]; [byte_arith |].
    set (rest := foldr _ EmptyString (chunks3 l)).
    assert (char_map url_char (trim_end_matches "=" rest)
      = foldr (λ chunk out, (encode_chunk chunk +:+ out)%string) EmptyString (chunks3 l)) as IHl
      by (apply (IH (length l)); [cbn; lia | done | done]).
    pose proof (trim_end_app "=" (String (alphabet_std (a / 4)) (String (alphabet_std (a mod 4 * 16 + b / 16))
      (String (alphabet_std (b mod 16 * 4 + c / 64)) EmptyString))) (alphabet_std (c mod 64)) rest) as T.
    cbn [String.append] in T. rewrite T by done.
    cbn [String.append char_map]. by rewrite E1, E2, E3, E4, IHl.
Qed.

(** ** At a scripted relay *)

Definition date_1 : string := rfc5322_date t1.
(** The outcome of a run that succeeds, read off it. *)
Definition delivered (o : option (result unit SendError * list (bool * string))) : bool :=
  match o with Some (Ok _, _) => true | _ => false end.
Definition log_of (o : option (result unit SendError * list (bool * string))) : list (bool * string) :=
  match o with Some (_, log) => log | None => [] end.

Lemma delivered_log o : delivered o = true → o = Some (Ok tt, log_of o).
Proof. by destruct o as [[[[]|e] log]|]. Qed.

Definition log_1 : list (bool * string) :=
  log_of (@send (script_relay tls_script) tls_build 20 (acme_settings (Some acme_credentials)) acme_message date_1).

Lemma mail_log_ok :
  @send (script_relay tls_script) tls_build 20 (acme_settings (Some acme_credentials)) acme_message date_1 = Some (Ok tt, log_1).
Proof. apply delivered_log. vm_compute. reflexivity. Qed.

Lemma credential_never_in_clear_witness :
  Settings.credentials (acme_settings (Some acme_credentials)) = Some acme_credentials
  ∧ ehlo_domain (Settings.from_address (acme_settings (Some acme_credentials))) = "acme.test"%string
  ∧ (∀ bytes, (false, bytes) ∈ log_1 →
       bytes = ("EHLO " +:+ ehlo_domain (Settings.from_address (acme_settings (Some acme_credentials))) +:+ CRLF)%string
       ∨ bytes = ("STARTTLS" +:+ CRLF)%string).
Proof.
  split; [reflexivity |]. split; [reflexivity |].
  exact (proj1 (@credential_never_in_clear (script_relay tls_script) tls_build 20 (acme_settings (Some acme_credentials))
    acme_credentials acme_message date_1 (Ok tt) log_1 eq_refl mail_log_ok)).
Defined.

Lemma acme_message_new :
  Message.new "billing@acme.test" "ops@partner.test" "Statement" ("." +:+ NL) = Ok acme_message.
Proof. vm_compute. reflexivity. Qed.

Lemma sent_message_arrives_witness :
  reads_lines strict_line
  ∧ ∃ encrypted before payload lines,
      log_1 = before ++ (encrypted, "DATA" +:+ CRLF)%string :: (pair encrypted <$> payload)
      ∧ receive strict_line (String.length (concat_str payload)) (concat_str payload) = Some (lines, "QUIT" +:+ CRLF)%string
      ∧ is_Some (read_message lines) ∧ encrypted = true.
Proof.
  split; [exact strict_reads_lines |].
  destruct (@sent_message_arrives (script_relay tls_script) tls_build _ 20 (acme_settings (Some acme_credentials))
    "billing@acme.test" "ops@partner.test" "Statement" ("." +:+ NL) acme_message t1 log_1 strict_line
    strict_reads_lines acme_message_new mail_log_ok) as (encrypted & before & payload & lines & H1 & _ & H2 & H3 & H4).
  exists encrypted, before, payload, lines. split; [exact H1 |]. split; [exact H2 |]. split; [rewrite H3; by eexists |].
  apply H4. by eexists.
Defined.

(** The bytes a script has left. *)
Definition script_budget (p : list string) : nat := foldr (λ c n, (String.length c + n)%nat) 0%nat p.

Lemma length_chunk s : length (String.list_ascii_of_string s) = String.length s.
Proof. induction s as [|c s IH]; [done | cbn; by rewrite IH]. Qed.

Lemma send_terminates_witness :
  (script_budget tls_script < 200)%nat
  ∧ is_Some (@send (script_relay tls_script) tls_build 200 (acme_settings (Some acme_credentials)) acme_message date_1).
Proof.
  split; [apply Nat.ltb_lt; vm_compute; reflexivity |].
  apply (@send_terminates (script_relay tls_script) tls_build script_budget).
  - intros tls [|c p] chunk p' E; injection E as <- <-; [done |].
    rewrite length_chunk. cbn [script_budget foldr]. fold (script_budget p). lia.
  - intros tls [|c p] e p' E; discriminate E.
  - intros tls bytes p. done.
  - intros addr peer E. injection E as <-. apply Nat.ltb_lt. vm_compute. reflexivity.
Defined.

Lemma endless_reply_never_ends_witness :
  Settings.is_complete (acme_settings None) = true
  ∧ @send endless_relay tls_build 100 (acme_settings None) acme_message date_1 = None.
Proof. split; [reflexivity | exact (endless_reply_never_ends 100 (acme_settings None) acme_message date_1 eq_refl)]. Defined.
