(* ===== verification/Cursor.v ===== *)
(** * Page cursors ([src/src/dashboard/api.rs], [cursor_key] of [src/src/ledger/mod.rs])

    The position a page ended on, signed with a key that lives in the database:
    what is accepted back is exactly what was signed. *)

From stdpp Require Import base strings list gmap numbers.
From Stdlib Require Import Ascii ZArith Lia.
From S2P Require Import Prelude Utf8 Redaction Crypto Sql Config.

Local Open Scope Z_scope.

(** ** The signing key *)

(** SQLite's [hex(blob)], in upper case. *)
Definition sql_hex_digit (n : Z) : ascii := if n <? 10 then digit_char n else ascii_of_nat (Z.to_nat (n + 55)).
Definition sql_hex (blob : list Z) : string :=
  foldr (λ b s, String (sql_hex_digit (b / 16)) (String (sql_hex_digit (b mod 16)) s)) EmptyString blob.

(** The crate [hex]. *)
Class HexDecode : Type := { hex_decode : string → option (list Z) }.
Class HexDecodeLaws `{HexDecode} : Prop := {
  hex_decode_upper blob : bytes_ok blob → hex_decode (sql_hex blob) = Some blob }.

(** The table [ledger_meta]. *)
Abbreviation Meta := (gmap string string).

Section Key.
Context `{HexDecode}.

Definition read_cursor_key (meta : Meta) : option (list Z) :=
  match meta !! "cursor_key"%string ≫= hex_decode with
  | Some [] | None => None
  | Some bytes => Some bytes
  end.

(** [INSERT OR IGNORE]; [blob] is what [randomblob(32)] gave. *)
Definition insert_cursor_key (meta : Meta) (blob : list Z) : Meta :=
  match meta !! "cursor_key"%string with
  | Some _ => meta
  | None => <["cursor_key"%string := sql_hex blob]> meta
  end.

Fixpoint cursor_key_loop (meta : Meta) (blobs : list (list Z)) : Meta * result (list Z) SqlError :=
  match blobs with
  | [] => (meta, Err QueryReturnedNoRows)
  | blob :: blobs' =>
      match read_cursor_key meta with
      | Some key => (meta, Ok key)
      | None => cursor_key_loop (insert_cursor_key meta blob) blobs'
      end
  end.

(** [for _ in 0..3]. *)
Definition cursor_key (meta : Meta) (blob : nat → list Z) : Meta * result (list Z) SqlError :=
  cursor_key_loop meta (blob <$> seq 0 3).
End Key.

(** ** Errors *)

Inductive DashboardError : Type :=
  | BadRequest (msg : string)
  | NotFound (msg : string)
  | Database (e : SqlError)
  | Internal (msg : string).

(** The status and the message of the answer; what is logged is not in it. *)
Definition dashboard_error_response (self : DashboardError) : Z * string :=
  match self with
  | BadRequest msg => (400, msg)
  | NotFound msg => (404, msg)
  | Database _ => (500, "database error"%string)
  | Internal _ => (500, "internal error"%string)
  end.

Definition malformed_cursor : DashboardError := BadRequest "malformed cursor".

Section Cursors.
Context `{HexDecode, Digests}.

(** [db_text] is the text of a database error. *)
Definition signing_key (db_text : SqlError → string) (meta : Meta) (blob : nat → list Z)
    : Meta * result (list Z) DashboardError :=
  match cursor_key meta blob with
  | (meta', Ok key) => (meta', Ok key)
  | (meta', Err e) => (meta', Err (Internal ("cursor signing key unavailable: " +:+ db_text e)))
  end.

(** ** Signing *)
Definition CURSOR_SEPARATOR : ascii := ".".
Definition PAYLOAD_SEPARATOR : ascii := "|".

Definition sign_cursor (key : list Z) (created_at : string) (id : Z) : string :=
  let payload := (created_at +:+ String PAYLOAD_SEPARATOR (signed_dec_string id))%string in
  let signature := hmac_sha256 key (as_bytes payload) in
  (base64url_encode signature +:+ String CURSOR_SEPARATOR (base64url_encode (as_bytes payload)))%string.

(** [String::from_utf8]. *)
Definition string_of_bytes (bytes : list Z) : string :=
  foldr (λ b s, String (ascii_of_nat (Z.to_nat b)) s) EmptyString bytes.
Definition from_utf8 (bytes : list Z) : option string :=
  if utf8_valid (string_of_bytes bytes) then Some (string_of_bytes bytes) else None.

Definition verify_cursor (key : list Z) (raw : string) : result (string * Z) DashboardError :=
  let? (signature_b64, payload_b64) := ok_or (split_once CURSOR_SEPARATOR raw) malformed_cursor in
  let? signature := ok_or (base64url_decode signature_b64) malformed_cursor in
  let? payload := ok_or (base64url_decode payload_b64) malformed_cursor in
  let expected := hmac_sha256 key payload in
  if negb (constant_time_eq signature expected) then Err (BadRequest "cursor signature does not verify")
  else
    let? payload := ok_or (from_utf8 payload) malformed_cursor in
    let? (created_at, id) := ok_or (rsplit_once PAYLOAD_SEPARATOR payload) malformed_cursor in
    let? id := ok_or (parse_i64 id) malformed_cursor in
    if str_is_empty created_at then Err malformed_cursor else Ok (created_at, id).
End Cursors.

(** ** Bytes and text *)

Lemma string_of_as_bytes s : string_of_bytes (as_bytes s) = s.
Proof.
  unfold string_of_bytes in *. induction s as [|c s IH]; [done |]. cbn [as_bytes foldr]. rewrite IH. f_equal.
  unfold byte_value. rewrite Nat2Z.id. apply ascii_nat_embedding.
Qed.

Lemma as_bytes_of_string l : bytes_ok l → as_bytes (string_of_bytes l) = l.
Proof.
  unfold string_of_bytes in *. induction l as [|b l IH]; [done |]. intros [Hb Hl]%Forall_cons_iff.
  cbn [foldr as_bytes]. rewrite IH by done. f_equal.
  unfold byte_value. rewrite nat_ascii_embedding; lia.
Qed.

Lemma as_bytes_ok s : bytes_ok (as_bytes s).
Proof.
  induction s as [|c s IH]; constructor; [| done]. unfold byte_value.
  pose proof (nat_ascii_bounded c). lia.
Qed.

(** The base64 alphabet has no full stop. *)
Lemma alphabet_char_not_stop v : 0 ≤ v < 64 → Ascii.eqb (alphabet_char v) "." = false.
Proof.
  intros Hv. apply not_true_iff_false. intros E%Ascii.eqb_eq.
  pose proof (position_char v Hv) as Hp. rewrite E in Hp. vm_compute in Hp. discriminate Hp.
Qed.

Lemma encode_chunk_avoids chunk : avoids "." (encode_chunk chunk) = true.
Proof.
  unfold encode_chunk. set (n := chunk_value chunk). generalize (imap pair [18; 12; 6; 0]).
  induction l as [|p l IH]; [done |]. cbn [foldr]. destruct (p.1 <? _)%nat; [| exact IH].
  unfold avoids in *. cbn [str_all]. rewrite IH, andb_true_r, alphabet_char_not_stop; [done |].
  rewrite (Z.land_ones _ 6) by lia. apply Z.mod_pos_bound. lia.
Qed.

Lemma base64url_encode_avoids l : avoids "." (base64url_encode l) = true.
Proof.
  unfold base64url_encode. induction (chunks3 l) as [|c cs IH]; [done |]. cbn [foldr].
  unfold avoids in *. rewrite str_all_app. by setoid_rewrite encode_chunk_avoids.
Qed.

Lemma parse_i64_avoids s id : parse_i64 s = Some id → avoids PAYLOAD_SEPARATOR s = true.
Proof.
  intros Hp%parse_int_chars. unfold avoids. induction s as [|c s IH]; [done |]. cbn [str_all] in *.
  apply andb_true_iff in Hp as [Hc Hs]. rewrite (IH Hs), andb_true_r.
  apply negb_true_iff, not_true_iff_false. intros ->%Ascii.eqb_eq. done.
Qed.

Lemma rsplit_once_Some c s a b : rsplit_once c s = Some (a, b) → s = (a +:+ String c b)%string.
Proof.
  revert a. induction s as [|d s IH]; intros a; [done |]. cbn [rsplit_once].
  destruct (rsplit_once c s) as [[x y]|] eqn:E.
  - intros [= <- <-]. cbn. f_equal. by apply IH.
  - destruct (Ascii.eqb_spec d c) as [->|]; [| done]. by intros [= <- <-].
Qed.

Lemma signed_dec_string_ascii z : str_all (λ c, byte_value c <? 128) (signed_dec_string z) = true.
Proof.
  assert (∀ n, 0 ≤ n → str_all (λ c, byte_value c <? 128) (dec_string n) = true) as Hd.
  { intros n Hn. pose proof (dec_string_digits n Hn) as Hs. unfold all_digits in Hs. revert Hs.
    induction (dec_string n) as [|c s IH]; [done |]. cbn [str_all]. intros [Hc%is_ascii_digit_range Hs]%andb_true_iff.
    rewrite (IH Hs), andb_true_r. apply Z.ltb_lt. rewrite digit_value_byte in Hc. lia. }
  unfold signed_dec_string. destruct (Z.ltb_spec z 0); [cbn [str_all]; by rewrite Hd by lia | by apply Hd].
Qed.

(** ** What a cursor is *)
Section Cursor.
Context `{DigestLaws}.

(** A payload with its signature. *)
Definition seal (key : list Z) (payload : string) : string :=
  (base64url_encode (hmac_sha256 key (as_bytes payload)) +:+ String CURSOR_SEPARATOR (base64url_encode (as_bytes payload)))%string.

Lemma verify_cursor_seal (key : list Z) (payload : string) :
  verify_cursor key (seal key payload) =
    let? payload := ok_or (if utf8_valid payload then Some payload else None) malformed_cursor in
    let? (created_at, id) := ok_or (rsplit_once PAYLOAD_SEPARATOR payload) malformed_cursor in
    let? id := ok_or (parse_i64 id) malformed_cursor in
    if str_is_empty created_at then Err malformed_cursor else Ok (created_at, id).
Proof.
  unfold verify_cursor, seal. rewrite split_once_avoids by apply base64url_encode_avoids. cbn [ok_or].
  rewrite !(proj2 (base64url_decode_exact _ _) (conj (hmac_sha256_bytes _ _) eq_refl)).
  rewrite !(proj2 (base64url_decode_exact _ _) (conj (as_bytes_ok _) eq_refl)). cbn [ok_or].
  rewrite (proj2 (constant_time_eq_spec _ _) eq_refl). cbn [negb].
  unfold from_utf8. by rewrite string_of_as_bytes.
Qed.

(** What is accepted was sealed with this key. *)
Lemma verify_cursor_sealed (key : list Z) (raw : string) (c : string * Z) :
  verify_cursor key raw = Ok c → ∃ payload, raw = seal key payload.
Proof.
  unfold verify_cursor. destruct (split_once _ raw) as [[s p]|] eqn:Es; cbn [ok_or]; [| done].
  apply split_once_Some in Es as ->.
  destruct (base64url_decode s) as [sig|] eqn:E1; cbn [ok_or]; [| done].
  destruct (base64url_decode p) as [pay|] eqn:E2; cbn [ok_or]; [| done].
  apply base64url_decode_exact in E1 as [_ ->], E2 as [Hpay ->].
  destruct (constant_time_eq sig (hmac_sha256 key pay)) eqn:E3; cbn [negb]; [| done].
  apply constant_time_eq_spec in E3 as ->. intros _. exists (string_of_bytes pay).
  unfold seal. by rewrite as_bytes_of_string.
Qed.

Lemma verify_cursor_Ok (key : list Z) (raw created_at : string) (id : Z) :
  verify_cursor key raw = Ok (created_at, id) ↔
  ∃ digits, raw = seal key (created_at +:+ String PAYLOAD_SEPARATOR digits)
  ∧ parse_i64 digits = Some id ∧ created_at ≠ ""%string
  ∧ utf8_valid (created_at +:+ String PAYLOAD_SEPARATOR digits) = true.
Proof.
  split.
  - intros Hv. destruct (verify_cursor_sealed _ _ _ Hv) as [payload ->]. rewrite verify_cursor_seal in Hv.
    destruct (utf8_valid payload) eqn:Eu; cbn [ok_or] in Hv; [| done].
    destruct (rsplit_once _ payload) as [[a b]|] eqn:Er; cbn [ok_or] in Hv; [| done].
    destruct (parse_i64 b) as [n|] eqn:Ep; cbn [ok_or] in Hv; [| done].
    destruct (str_is_empty a) eqn:Ea; [done |]. injection Hv as -> ->. apply rsplit_once_Some in Er as ->.
    exists b. split_and!; try done. intros ->. done.
  - intros (digits & -> & Hp & Hne & Hu). rewrite verify_cursor_seal, Hu. cbn [ok_or].
    rewrite rsplit_once_last by (by eapply parse_i64_avoids). cbn [ok_or]. rewrite Hp. cbn [ok_or].
    destruct (str_is_empty created_at) eqn:E; [by apply str_is_empty_spec in E | done].
Qed.

Lemma verify_sign_cursor (key : list Z) (created_at : string) (id : Z) :
  is_i64 id → created_at ≠ ""%string → utf8_valid created_at = true →
  verify_cursor key (sign_cursor key created_at id) = Ok (created_at, id).
Proof.
  intros Hid Hne Hu. apply verify_cursor_Ok. exists (signed_dec_string id).
  split_and!; [done | by apply parse_i64_to_string | done |].
  rewrite utf8_valid_app by done. apply (utf8_valid_ascii (String PAYLOAD_SEPARATOR _)). cbn [str_all].
  by rewrite signed_dec_string_ascii.
Qed.

(** The key only signs. The half behind the separator is the position as plain
    base64, so whoever holds a cursor reads the row's id from it. *)
Lemma cursor_position_is_legible (key : list Z) (created_at : string) (id : Z) :
  ∃ signature payload, split_once CURSOR_SEPARATOR (sign_cursor key created_at id) = Some (signature, payload)
  ∧ base64url_decode payload = Some (as_bytes (created_at +:+ String PAYLOAD_SEPARATOR (signed_dec_string id))).
Proof.
  eexists _, _. split; [apply split_once_avoids, base64url_encode_avoids |].
  apply base64url_decode_exact. split; [apply as_bytes_ok | done].
Qed.
End Cursor.

(** ** The key *)
Section SigningKey.
Context `{HexDecodeLaws}.

Lemma read_cursor_key_insert (meta : Meta) (blob : list Z) :
  bytes_ok blob → blob ≠ [] →
  read_cursor_key (<["cursor_key"%string := sql_hex blob]> meta) = Some blob.
Proof.
  intros Hb Hne. unfold read_cursor_key. rewrite lookup_insert_eq. cbn [mbind option_bind].
  rewrite hex_decode_upper by done. by destruct blob.
Qed.

(** A value that does not decode stays, and stays unreadable. *)
Lemma cursor_key_loop_stuck (meta : Meta) (blobs : list (list Z)) :
  is_Some (meta !! "cursor_key"%string) → read_cursor_key meta = None →
  cursor_key_loop meta blobs = (meta, Err QueryReturnedNoRows).
Proof.
  intros [v Hv] Hr. induction blobs as [|blob blobs IH]; cbn [cursor_key_loop]; [done |].
  rewrite Hr. unfold insert_cursor_key. by rewrite Hv.
Qed.

(** The key is made once and then only read: the first request on a database
    without one stores it, and from then on every instance signs with the
    stored one. A stored value that does not decode is never replaced, and no
    request for a page succeeds while it is there. *)
Lemma cursor_key_exact (meta : Meta) (blob : nat → list Z)
    (Hblob : bytes_ok (blob 0%nat)) (Hne : blob 0%nat ≠ []) :
  cursor_key meta blob =
    match meta !! "cursor_key"%string, read_cursor_key meta with
    | None, _ => (<["cursor_key"%string := sql_hex (blob 0%nat)]> meta, Ok (blob 0%nat))
    | Some _, Some key => (meta, Ok key)
    | Some _, None => (meta, Err QueryReturnedNoRows)
    end.
Proof.
  unfold cursor_key. change (blob <$> seq 0 3) with [blob 0%nat; blob 1%nat; blob 2%nat].
  destruct (meta !! "cursor_key"%string) as [v|] eqn:E.
  - destruct (read_cursor_key meta) eqn:Er; [cbn [cursor_key_loop]; by rewrite Er |].
    by apply cursor_key_loop_stuck.
  - assert (read_cursor_key meta = None) as Er by (unfold read_cursor_key; by rewrite E).
    assert (insert_cursor_key meta (blob 0%nat) = <["cursor_key"%string := sql_hex (blob 0%nat)]> meta) as Ei
      by (unfold insert_cursor_key; by rewrite E).
    cbn [cursor_key_loop]. by rewrite Er, Ei, read_cursor_key_insert.
Qed.

Lemma cursor_key_stable (meta : Meta) (blob blob' : nat → list Z) (meta' : Meta) (key : list Z) :
  bytes_ok (blob 0%nat) → blob 0%nat ≠ [] → bytes_ok (blob' 0%nat) → blob' 0%nat ≠ [] →
  cursor_key meta blob = (meta', Ok key) → cursor_key meta' blob' = (meta', Ok key).
Proof.
  intros Hb Hn Hb' Hn' E. rewrite cursor_key_exact in E by done. rewrite cursor_key_exact by done.
  destruct (meta !! "cursor_key"%string) as [v|] eqn:Em.
  - destruct (read_cursor_key meta) eqn:Er; [| done]. injection E as <- <-. by rewrite Em, Er.
  - injection E as <- <-. by rewrite read_cursor_key_insert, lookup_insert_eq.
Qed.
End SigningKey.

(** ** Issued and presented *)
Section Issued.
Context `{HexDecodeLaws, DigestLaws}.

(** The bytes a position is signed as. *)
Definition position_bytes (p : string * Z) : list Z := as_bytes (p.1 +:+ String "|" (signed_dec_string p.2)).

(** What the keyed digest is relied on for: whoever presents [raw] has the digest
    of no other payloads than those the server signed. *)
Definition unforged (key : list Z) (issued : list (string * Z)) (raw : string) : Prop :=
  ∀ payload, bytes_ok payload →
    raw = (base64url_encode (hmac_sha256 key payload) +:+ String "." (base64url_encode payload))%string →
    ∃ p, p ∈ issued ∧ payload = position_bytes p.

Lemma signing_key_stable db_text (meta meta1 meta2 : Meta) (blob blob2 : nat → list Z) (key : list Z) :
  bytes_ok (blob 0%nat) → blob 0%nat ≠ [] → bytes_ok (blob2 0%nat) → blob2 0%nat ≠ [] →
  signing_key db_text meta blob = (meta1, Ok key) → meta2 !! "cursor_key"%string = meta1 !! "cursor_key"%string →
  signing_key db_text meta2 blob2 = (meta2, Ok key).
Proof.
  intros Hb Hn Hb2 Hn2. unfold signing_key. rewrite !cursor_key_exact by done. unfold read_cursor_key. intros E Hsame.
  assert (is_Some (meta1 !! "cursor_key"%string) ∧ (meta1 !! "cursor_key"%string ≫= hex_decode) = Some key ∧ key ≠ []) as (Hs & Ek & Hne).
  { destruct (meta !! "cursor_key"%string) as [v|] eqn:Em.
    - cbn [mbind option_bind] in E. destruct (hex_decode v) as [[|z l]|] eqn:Ev; [done | | done].
      injection E as <- <-. rewrite Em. cbn. rewrite Ev. by split_and!.
    - injection E as <- <-. rewrite lookup_insert_eq. cbn. rewrite hex_decode_upper by done. by split_and!. }
  rewrite Hsame, Ek. destruct Hs as [v ->]. by destruct key.
Qed.

Lemma accepted_was_issued (key : list Z) (issued : list (string * Z)) (raw created_at : string) (id : Z) :
  Forall (λ p, is_i64 p.2) issued → unforged key issued raw → verify_cursor key raw = Ok (created_at, id) →
  (created_at, id) ∈ issued ∧ raw = sign_cursor key created_at id.
Proof.
  intros Hi Hu Hv. apply verify_cursor_Ok in Hv as (digits & -> & Hp & _ & _).
  destruct (Hu (as_bytes (created_at +:+ String PAYLOAD_SEPARATOR digits)) (as_bytes_ok _) eq_refl) as ([c n] & Hin & E).
  rewrite Forall_forall in Hi. pose proof (Hi _ (proj1 (list_elem_of_In _ _) Hin)) as Hn. cbn in Hn.
  apply (f_equal string_of_bytes) in E. unfold position_bytes in E. rewrite !string_of_as_bytes in E. cbn [fst snd] in E.
  pose proof (parse_i64_to_string n Hn) as Hpn.
  assert (rsplit_once PAYLOAD_SEPARATOR (created_at +:+ String PAYLOAD_SEPARATOR digits) = Some (created_at, digits)) as E1
    by (apply rsplit_once_last; by eapply parse_i64_avoids).
  assert (rsplit_once PAYLOAD_SEPARATOR (c +:+ String "|" (signed_dec_string n)) = Some (c, signed_dec_string n)) as E2
    by (apply (rsplit_once_last PAYLOAD_SEPARATOR); by eapply parse_i64_avoids).
  rewrite E, E2 in E1. injection E1 as -> <-. rewrite Hpn in Hp. injection Hp as <-. done.
Qed.

(** A text the server signed is no forgery. *)
Lemma issued_unforged (key : list Z) (created_at : string) (id : Z) :
  unforged key [(created_at, id)] (sign_cursor key created_at id).
Proof.
  intros payload Hpay E. exists (created_at, id). split; [by left |].
  unfold sign_cursor in E. apply (f_equal (split_once ".")) in E.
  rewrite !split_once_avoids in E by apply base64url_encode_avoids. injection E as _ E.
  apply (f_equal base64url_decode) in E.
  rewrite (proj2 (base64url_decode_exact _ payload) (conj Hpay eq_refl)) in E.
  rewrite (proj2 (base64url_decode_exact _ _) (conj (as_bytes_ok _) eq_refl)) in E. injection E as E. by rewrite <- E.
Qed.

(** C36. A page cursor under the database's key. The key the first page of a
    database made, or found there, is the key every later page reads, whoever
    serves it, as long as the stored value stays. A position that was signed with
    it comes back as that position. A text is accepted, as a position, exactly
    when it is a payload with its digest under that key, the payload being a text
    that is not empty and a number: so the number's spelling is not checked, and
    a payload such as [t|+5] would pass if it were ever signed. But only a holder
    of the key can make the digest of a payload that was not issued, and when
    nobody else does, whatever is accepted is, character for character, a cursor
    that was issued, and any other text is refused. *)
Theorem cursor_is_signed_position (db_text : SqlError → string) (meta meta1 meta2 : Meta) (blob blob2 : nat → list Z)
    (key : list Z) (raw created_at : string) (id : Z)
    (Hblob : bytes_ok (blob 0%nat) ∧ blob 0%nat ≠ []) (Hblob2 : bytes_ok (blob2 0%nat) ∧ blob2 0%nat ≠ [])
    (Hkey : signing_key db_text meta blob = (meta1, Ok key))
    (Hstored : meta2 !! "cursor_key"%string = meta1 !! "cursor_key"%string) :
  signing_key db_text meta2 blob2 = (meta2, Ok key)
  ∧ (is_i64 id → created_at ≠ ""%string → utf8_valid created_at = true →
       verify_cursor key (sign_cursor key created_at id) = Ok (created_at, id))
  ∧ (verify_cursor key raw = Ok (created_at, id) ↔
     ∃ digits, let payload := (created_at +:+ String "|" digits)%string in
       raw = (base64url_encode (hmac_sha256 key (as_bytes payload)) +:+ String "." (base64url_encode (as_bytes payload)))%string
       ∧ parse_i64 digits = Some id ∧ created_at ≠ ""%string ∧ utf8_valid payload = true)
  ∧ (∀ issued, Forall (λ p, is_i64 p.2) issued → unforged key issued raw →
       verify_cursor key raw = Ok (created_at, id) → (created_at, id) ∈ issued ∧ raw = sign_cursor key created_at id).
Proof.
  split_and!.
  - apply (signing_key_stable db_text meta meta1 meta2 blob blob2); [apply Hblob | apply Hblob | apply Hblob2 | apply Hblob2 | done..].
  - apply verify_sign_cursor.
  - apply verify_cursor_Ok.
  - intros issued. apply accepted_was_issued.
Qed.
End Issued.

(** ** An instance of the decoder *)
Definition hex_value (c : ascii) : option Z :=
  let b := byte_value c in
  if in_range 48 57 b then Some (b - 48) else if in_range 65 70 b then Some (b - 55)
  else if in_range 97 102 b then Some (b - 87) else None.

Fixpoint hex_pairs (s : string) : option (list Z) :=
  match s with
  | EmptyString => Some []
  | String a (String b s') =>
      match hex_value a, hex_value b, hex_pairs s' with
      | Some x, Some y, Some l => Some (16 * x + y :: l)
      | _, _, _ => None
      end
  | String _ EmptyString => None
  end.

#[global] Instance HexPairs : HexDecode := {| hex_decode := hex_pairs |}.

#[global] Instance HexPairsLaws : HexDecodeLaws.
Proof.
  split. cbn. unfold sql_hex.
  assert (∀ n, 0 ≤ n < 16 → hex_value (sql_hex_digit n) = Some n) as Hd.
  { intros n Hn.
    assert (forallb (λ i, bool_decide (hex_value (sql_hex_digit (Z.of_nat i)) = Some (Z.of_nat i))) (seq 0 16) = true)
      as Hall by (vm_compute; reflexivity).
    rewrite forallb_forall in Hall. specialize (Hall (Z.to_nat n) ltac:(apply in_seq; lia)).
    rewrite Z2Nat.id, bool_decide_eq_true in Hall by lia. exact Hall. }
  induction blob as [|b l IH]; [done |]. intros [Hb Hl]%Forall_cons_iff. cbn [foldr hex_pairs].
  rewrite !Hd by byte_arith. rewrite IH by done. do 2 f_equal. byte_arith.
Qed.

Example cursor_examples :
  let key := as_bytes "cursor-test-key" in
  verify_cursor key (sign_cursor key "2026-09-24T00:00:00.000000000Z" 42) = Ok ("2026-09-24T00:00:00.000000000Z"%string, 42)
  ∧ verify_cursor (as_bytes "another-database-key") (sign_cursor key "2026-09-24T00:00:00.000000000Z" 42)
    = Err (BadRequest "cursor signature does not verify")
  ∧ verify_cursor key "MjAyNi0wNy0yOHw0Mg" = Err malformed_cursor
  ∧ verify_cursor key (seal key "|5") = Err malformed_cursor.
Proof. vm_compute. auto 10. Qed.

Definition blob_1 : nat → list Z := λ _, [7; 130].
Definition meta_1 : Meta := <["cursor_key"%string := "0782"%string]> (∅ : Meta).
Definition cursor_1 : string := sign_cursor [7; 130] "2026-09-24T00:00:00.000000000Z" 42.

Lemma signing_key_1 : signing_key (λ _, ""%string) ∅ blob_1 = (meta_1, Ok [7; 130]).
Proof. vm_compute. reflexivity. Qed.

(** The first request makes the key; on the second the cursor is accepted, and it
    was issued. *)
Lemma cursor_is_signed_position_witness :
  signing_key (λ _, ""%string) meta_1 (λ _, [1]) = (meta_1, Ok [7; 130])
  ∧ verify_cursor [7; 130] cursor_1 = Ok ("2026-09-24T00:00:00.000000000Z"%string, 42)
  ∧ unforged [7; 130] [("2026-09-24T00:00:00.000000000Z"%string, 42)] cursor_1.
Proof.
  assert (is_i64 42) as H by (ranges; lia).
  assert (∀ z, in_range 0 255 z = true → bytes_ok [z]) as Hb.
  { intros z [Hz1%Z.leb_le Hz2%Z.leb_le]%andb_true_iff. constructor; [lia | constructor]. }
  assert (bytes_ok [7; 130]) as H1 by (constructor; [lia | by apply Hb]).
  assert (bytes_ok [1]) as H2 by (by apply Hb).
  assert (bytes_ok (blob_1 0%nat) ∧ blob_1 0%nat ≠ []) as Hb1 by (split; [exact H1 | discriminate]).
  assert (bytes_ok ((λ _ : nat, [1]) 0%nat) ∧ (λ _ : nat, [1]) 0%nat ≠ []) as Hb2 by (split; [exact H2 | discriminate]).
  assert (meta_1 !! "cursor_key"%string = meta_1 !! "cursor_key"%string) as Hm by reflexivity.
  pose proof (cursor_is_signed_position (λ _, ""%string) ∅ meta_1 meta_1 blob_1 (λ _, [1]) [7; 130]
    cursor_1 "2026-09-24T00:00:00.000000000Z" 42 Hb1 Hb2 signing_key_1 Hm) as T.
  destruct T as (T1 & T2 & _).
  split; [exact T1 |]. split; [apply T2; [exact H | discriminate | vm_compute; reflexivity] |].
  apply issued_unforged.
Defined.
