(* ===== verification/PartnerStore.v ===== *)
(** * Partners, price lists and scoped reads ([src/src/billing/store.rs])

    The writes an operator makes to a partner and to the models it may call,
    and the reads of statements a credential's scope restricts. *)

From stdpp Require Import base strings list gmap numbers sorting fin_maps.
From Stdlib Require Import Ascii ZArith Lia.
From S2P Require Import Prelude Utf8 TimeLib Calendar Timefmt Pricing Period Status Partner Context LedgerTypes Sql Rollup Statements BillingStore.

Local Open Scope Z_scope.

(** ** Data *)

Module NewPartner.
Record t : Type := mk {
  consumer_id : string;
  name : string;
  billing_email : string;
  billing_mode : BillingMode.t;
  payment_terms_minutes : Z }.

Definition validated (self : t) : result t BillingError :=
  let self := mk (trim (consumer_id self)) (trim (name self)) (trim (billing_email self))
                (billing_mode self) (payment_terms_minutes self) in
  if str_is_empty (consumer_id self) then Err (Invalid "consumer_id must not be blank")
  else if str_is_empty (name self) then Err (Invalid "name must not be blank")
  else if payment_terms_minutes self <? 0 then Err (Invalid "payment_terms_minutes must not be negative")
  else Ok self.
End NewPartner.

Module PartnerPatch.
Record t : Type := mk {
  name : option string;
  billing_email : option string;
  billing_mode : option BillingMode.t;
  payment_terms_minutes : option Z }.

#[global] Instance eq_dec : EqDecision t.
Proof. solve_decision. Defined.

Definition default : t := mk None None None None.
End PartnerPatch.

(** A row of [partner_models] but its key [(consumer_id, model)]. *)
Module ModelRow.
Record t : Type := mk {
  prices : PricingSnapshot.t;
  created_at : string;
  updated_at : string }.
End ModelRow.

Record StoreDb : Type := mkStoreDb {
  billing : BillingDb;
  partner_models : gmap (string * string) ModelRow.t }.

Definition with_partners (db : StoreDb) (p : gmap string Partner.t) : StoreDb :=
  mkStoreDb (mkBillingDb p (daily_statements (billing db)) (statement_lines (billing db)) (next_statement_id (billing db)))
    (partner_models db).

Definition partner_rows (db : StoreDb) : gmap string Partner.t := partners (billing db).

(** [Display for BillingError]; [db_text] is the text of a database error. *)
Definition billing_error_display (db_text : SqlError → string) (self : BillingError) : string :=
  (match self with
   | Database e => "billing database error: " +:+ db_text e
   | PartnerNotFound id => "no partner with consumer_id " +:+ id
   | PartnerExists id => "partner " +:+ id +:+ " already exists"
   | StatementNotPayable id billing_mode =>
       "statement " +:+ signed_dec_string id +:+ " is a " +:+ billing_mode +:+ " statement and carries no payment obligation"
   | Invalid msg => "invalid billing configuration: " +:+ msg
   end)%string.

(** ** Partners *)

Definition is_uniqueness_violation (error : SqlError) : bool :=
  match error with
  | SqliteFailure code => (code =? SQLITE_CONSTRAINT_UNIQUE) || (code =? SQLITE_CONSTRAINT_PRIMARYKEY)
  | _ => false
  end.

(** [INSERT INTO partners]: the CHECK, then the primary key. *)
Definition insert_partner (db : StoreDb) (row : Partner.t) : result StoreDb SqlError :=
  if Partner.payment_terms_minutes row <? 0 then Err (SqliteFailure SQLITE_CONSTRAINT_CHECK)
  else match partner_rows db !! Partner.consumer_id row with
       | Some _ => Err (SqliteFailure SQLITE_CONSTRAINT_PRIMARYKEY)
       | None => Ok (with_partners db (<[Partner.consumer_id row := row]> (partner_rows db)))
       end.

Definition get_partner (db : StoreDb) (consumer_id : string) : option Partner.t := partner_rows db !! consumer_id.

Definition create_partner (db : StoreDb) (new : NewPartner.t) (now : string)
    : StoreDb * result Partner.t BillingError :=
  match NewPartner.validated new with
  | Err e => (db, Err e)
  | Ok new =>
      match insert_partner db
              (Partner.mk (NewPartner.consumer_id new) (NewPartner.name new) (NewPartner.billing_email new)
                 (NewPartner.billing_mode new) (NewPartner.payment_terms_minutes new) now now) with
      | Ok db' => (db', ok_or (get_partner db' (NewPartner.consumer_id new)) (PartnerNotFound (NewPartner.consumer_id new)))
      | Err e => (db, Err (if is_uniqueness_violation e then PartnerExists (NewPartner.consumer_id new) else Database e))
      end
  end.

(** [ORDER BY] a text column, byte order. *)
Definition row_key_le {A} (a b : string * A) : Prop := key_le a.1 b.1.
#[global] Instance row_key_le_dec {A} (a b : string * A) : Decision (row_key_le a b).
Proof. unfold row_key_le. apply _. Defined.

(** [SET name = COALESCE(?2, name), ...]. *)
Definition patched (patch : PartnerPatch.t) (now : string) (p : Partner.t) : Partner.t :=
  Partner.mk (Partner.consumer_id p)
    (default (Partner.name p) (PartnerPatch.name patch))
    (default (Partner.billing_email p) (PartnerPatch.billing_email patch))
    (default (Partner.billing_mode p) (PartnerPatch.billing_mode patch))
    (default (Partner.payment_terms_minutes p) (PartnerPatch.payment_terms_minutes patch))
    (Partner.created_at p) now.

Definition update_partner (db : StoreDb) (consumer_id : string) (patch : PartnerPatch.t) (now : string)
    : StoreDb * result Partner.t BillingError :=
  if match PartnerPatch.payment_terms_minutes patch with Some terms => terms <? 0 | None => false end
  then (db, Err (Invalid "payment_terms_minutes must not be negative"))
  else if match PartnerPatch.name patch with Some name => str_is_empty (trim name) | None => false end
  then (db, Err (Invalid "name must not be blank"))
  else if bool_decide (patch = PartnerPatch.default)
  then (db, ok_or (get_partner db consumer_id) (PartnerNotFound consumer_id))
  else match partner_rows db !! consumer_id with
       | None => (db, Err (PartnerNotFound consumer_id))
       | Some p =>
           let db' := with_partners db (<[consumer_id := patched patch now p]> (partner_rows db)) in
           (db', ok_or (get_partner db' consumer_id) (PartnerNotFound consumer_id))
       end.

(** [DELETE FROM partners]: refused while a statement refers to the row,
    otherwise its prices go with it. *)
Definition has_statements (db : StoreDb) (consumer_id : string) : bool :=
  existsb (λ p, String.eqb (Statement.consumer_id p.2) consumer_id) (map_to_list (daily_statements (billing db))).

Definition delete_partner_row (db : StoreDb) (consumer_id : string) : result (StoreDb * nat) SqlError :=
  match partner_rows db !! consumer_id with
  | None => Ok (db, 0%nat)
  | Some _ =>
      if has_statements db consumer_id then Err (SqliteFailure SQLITE_CONSTRAINT_FOREIGNKEY)
      else Ok (mkStoreDb (billing (with_partners db (delete consumer_id (partner_rows db))))
                 (filter (λ kv, kv.1.1 ≠ consumer_id) (partner_models db)), 1%nat)
  end.

Definition delete_partner (db : StoreDb) (consumer_id : string) : StoreDb * result unit BillingError :=
  match delete_partner_row db consumer_id with
  | Err e => (db, Err (Database e))
  | Ok (db', deleted) => (db', if (deleted =? 0)%nat then Err (PartnerNotFound consumer_id) else Ok ())
  end.

(** ** Models and prices *)

Definition models_of (db : StoreDb) (consumer_id : string) : list (string * PricingSnapshot.t) :=
  (λ kv, (kv.1.2, ModelRow.prices kv.2)) <$> filter (λ kv, kv.1.1 = consumer_id) (map_to_list (partner_models db)).

Definition models (db : StoreDb) (consumer_id : string) : list ModelPrice.t :=
  (λ kv, ModelPrice.mk kv.1 kv.2) <$> merge_sort row_key_le (models_of db consumer_id).

(** The first loop of [replace_models], over the names as trimmed. *)
Fixpoint check_names (seen : list string) (models : list ModelPrice.t) : result unit BillingError :=
  match models with
  | [] => Ok ()
  | entry :: models' =>
      let model := trim (ModelPrice.model entry) in
      if str_is_empty model then Err (Invalid "a model name must not be blank")
      else if bool_decide (model ∈ seen)
      then Err (Invalid (debug_str model +:+ " is listed twice; a model has one price"))
      else check_names (model :: seen) models'
  end.

(** The CHECKs of [partner_models]. *)
Definition model_check (model : string) (prices : PricingSnapshot.t) : bool :=
  let '(i, c, o) := PricingSnapshot.as_tuple prices in
  (0 <=? i) && (0 <=? c) && (0 <=? o) && negb (sql_trim_is_empty model).

#[global] Arguments model_check : simpl never.

(** [INSERT INTO partner_models]: CHECKs, UNIQUE, then the foreign key. *)
Definition insert_model (db : StoreDb) (consumer model : string) (prices : PricingSnapshot.t) (now : string)
    : result StoreDb SqlError :=
  if negb (model_check model prices) then Err (SqliteFailure SQLITE_CONSTRAINT_CHECK)
  else if is_Some_b (partner_models db !! (consumer, model)) then Err (SqliteFailure SQLITE_CONSTRAINT_UNIQUE)
  else if negb (is_Some_b (partner_rows db !! consumer)) then Err (SqliteFailure SQLITE_CONSTRAINT_FOREIGNKEY)
  else Ok (mkStoreDb (billing db) (<[(consumer, model) := ModelRow.mk prices now now]> (partner_models db))).

Fixpoint insert_models (db : StoreDb) (consumer : string) (models : list ModelPrice.t) (now : string)
    : result StoreDb SqlError :=
  match models with
  | [] => Ok db
  | entry :: models' =>
      let? db' := insert_model db consumer (ModelPrice.model entry) (ModelPrice.prices entry) now in
      insert_models db' consumer models' now
  end.

Definition touch_partner (db : StoreDb) (consumer now : string) : StoreDb :=
  with_partners db (alter (λ p, Partner.mk (Partner.consumer_id p) (Partner.name p) (Partner.billing_email p)
    (Partner.billing_mode p) (Partner.payment_terms_minutes p) (Partner.created_at p) now) consumer (partner_rows db)).

(** The transaction: delete, insert each, touch the partner. *)
Definition replace_rows (db : StoreDb) (consumer : string) (models : list ModelPrice.t) (now : string)
    : result StoreDb SqlError :=
  let? db' := insert_models (mkStoreDb (billing db) (filter (λ kv, kv.1.1 ≠ consumer) (partner_models db)))
                consumer models now in
  Ok (touch_partner db' consumer now).

Definition replace_models (db : StoreDb) (consumer_id : string) (models : list ModelPrice.t) (now : string)
    : StoreDb * result unit BillingError :=
  match check_names [] models with
  | Err e => (db, Err e)
  | Ok _ =>
      match replace_rows db consumer_id models now with
      | Ok db' => (db', Ok ())
      | Err (SqliteFailure code) =>
          (db, Err (if code =? SQLITE_CONSTRAINT_FOREIGNKEY then PartnerNotFound consumer_id else Database (SqliteFailure code)))
      | Err e => (db, Err (Database e))
      end
  end.

Definition statement_recipient (db : StoreDb) (consumer_id : string) : option string :=
  Partner.billing_email <$> partner_rows db !! consumer_id.

(** ** Scoped reads *)

Definition statement_rows (db : StoreDb) : list (Z * Statement.t) := map_to_list (daily_statements (billing db)).

(** [WHERE {scope_sql}]. *)
Definition in_scope (scope : Scope.t) (s : Statement.t) : bool :=
  default false (eval_fragment (scope_clause scope) (Statement.consumer_id s)).

Definition get_statement_by_id (db : StoreDb) (id : Z) (scope : Scope.t) : option Statement.t :=
  match daily_statements (billing db) !! id with
  | Some s => if in_scope scope s then Some s else None
  | None => None
  end.

Definition statement_by_id (db : StoreDb) (id : Z) : option Statement.t := daily_statements (billing db) !! id.

(** [LIMIT ? OFFSET ?]: a negative limit is none, a negative offset is zero. *)
Definition sql_page {A} (limit offset : Z) (l : list A) : list A :=
  let rest := drop (Z.to_nat offset) l in
  if limit <? 0 then rest else take (Z.to_nat limit) rest.

(** [ORDER BY billing_date DESC, id DESC]. *)
Definition newest_le (a b : Z * Statement.t) : Prop :=
  str_ltb (Statement.billing_date b.2) (Statement.billing_date a.2) = true
  ∨ (Statement.billing_date a.2 = Statement.billing_date b.2 ∧ b.1 ≤ a.1).
#[global] Instance newest_le_dec a b : Decision (newest_le a b).
Proof. unfold newest_le. apply _. Defined.

(** [ORDER BY due_at, consumer_id, id]. *)
Definition unpaid_le (a b : Z * Statement.t) : Prop :=
  text_lt (Statement.due_at a.2) (Statement.due_at b.2) = true
  ∨ (Statement.due_at a.2 = Statement.due_at b.2
     ∧ (str_ltb (Statement.consumer_id a.2) (Statement.consumer_id b.2) = true
        ∨ (Statement.consumer_id a.2 = Statement.consumer_id b.2 ∧ a.1 ≤ b.1))).
#[global] Instance unpaid_le_dec a b : Decision (unpaid_le a b).
Proof. unfold unpaid_le. apply _. Defined.

Definition unpaid_invoice (s : Statement.t) : bool :=
  negb (is_Some_b (Statement.paid_at s)) && String.eqb (Statement.billing_mode s) "invoice".

Definition list_statements (db : StoreDb) (scope : Scope.t) (limit offset : Z) (only_unpaid : bool)
    : list (Z * Statement.t) :=
  sql_page limit offset
    (if only_unpaid
     then merge_sort unpaid_le (filter (λ p, in_scope scope p.2 && unpaid_invoice p.2 = true) (statement_rows db))
     else merge_sort newest_le (filter (λ p, in_scope scope p.2 = true) (statement_rows db))).

Definition outstanding_totals (db : StoreDb) (scope : Scope.t) : result (Z * MicroUsd.t) BillingError :=
  let rows := filter (λ p, in_scope scope p.2 && unpaid_invoice p.2 = true) (statement_rows db) in
  match sql_sum ((λ p, Some (Statement.total_amount_micro_usd p.2)) <$> rows) with
  | Ok sum => Ok (Z.of_nat (length rows), MicroUsd.from_i64 (default 0 sum))
  | Err e => Err (Database e)
  end.

Definition count_statements (db : StoreDb) (scope : Scope.t) : Z :=
  Z.of_nat (length (filter (λ p, in_scope scope p.2 = true) (statement_rows db))).

(** [ORDER BY l.model, prices, l.id]; a line's [id] is its position. *)
Definition line_leb (a b : nat * StatementLine.t) : bool :=
  let '(ai, ac, ao) := PricingSnapshot.as_tuple (StatementLine.prices a.2) in
  let '(bi, bc, bo) := PricingSnapshot.as_tuple (StatementLine.prices b.2) in
  str_ltb (StatementLine.model a.2) (StatementLine.model b.2)
  || (String.eqb (StatementLine.model a.2) (StatementLine.model b.2)
      && ((ai <? bi) || ((ai =? bi)
      && ((ac <? bc) || ((ac =? bc)
      && ((ao <? bo) || ((ao =? bo) && (a.1 <=? b.1)%nat))))))).
Definition line_le (a b : nat * StatementLine.t) : Prop := line_leb a b = true.
#[global] Instance line_le_dec a b : Decision (line_le a b).
Proof. unfold line_le. apply _. Defined.

(** [JOIN daily_statements s ON s.id = l.statement_id WHERE {scope_sql} AND l.statement_id = ?]. *)
Definition scoped_line (db : StoreDb) (statement_id : Z) (scope : Scope.t) (l : StatementLine.t) : bool :=
  (StatementLine.statement_id l =? statement_id)
  && match daily_statements (billing db) !! StatementLine.statement_id l with
     | Some s => in_scope scope s
     | None => false
     end.

Definition statement_lines_for (db : StoreDb) (statement_id : Z) (scope : Scope.t) : list (nat * StatementLine.t) :=
  merge_sort line_le
    (filter (λ p, scoped_line db statement_id scope p.2 = true) (imap pair (statement_lines (billing db)))).

Definition total_billed (db : StoreDb) (consumer_id : string) : result MicroUsd.t BillingError :=
  match sql_sum ((λ p, Some (Statement.total_amount_micro_usd p.2)) <$>
                   filter (λ p, Statement.consumer_id p.2 = consumer_id) (statement_rows db)) with
  | Ok sum => Ok (MicroUsd.from_i64 (default 0 sum))
  | Err e => Err (Database e)
  end.

(** ** The tables stay well formed *)

(** What the keys and CHECKs of the tables mean together. *)
Record store_wf (db : StoreDb) : Prop := {
  wf_partner c p : partner_rows db !! c = Some p → Partner.consumer_id p = c ∧ 0 ≤ Partner.payment_terms_minutes p;
  wf_model c m r : partner_models db !! (c, m) = Some r →
    is_Some (partner_rows db !! c) ∧ model_check m (ModelRow.prices r) = true;
  wf_statement i s : daily_statements (billing db) !! i = Some s →
    is_Some (partner_rows db !! Statement.consumer_id s);
  wf_billing : store_ok (billing db) }.

Section Wf.
Context `{TimeCrate}.

(** One operation on the tables: an operator's write, or one of the billing
    engine's ([store_step]). *)
Inductive portal_step : StoreDb → StoreDb → Prop :=
  | portal_create db new now : portal_step db (create_partner db new now).1
  | portal_update db consumer_id patch now : portal_step db (update_partner db consumer_id patch now).1
  | portal_delete db consumer_id : portal_step db (delete_partner db consumer_id).1
  | portal_models db consumer_id models now : portal_step db (replace_models db consumer_id models now).1
  | portal_billing db b : store_step (billing db) b → portal_step db (mkStoreDb b (partner_models db)).

Lemma store_ok_partners b p :
  store_ok b → store_ok (mkBillingDb p (daily_statements b) (statement_lines b) (next_statement_id b)).
Proof. intros Hok. split; cbn; apply Hok. Qed.

(** Replacing the partner rows keeps the tables well formed when no row that
    prices or statements refer to is lost. *)
Lemma with_partners_wf db rows :
  store_wf db →
  (∀ c p, rows !! c = Some p → Partner.consumer_id p = c ∧ 0 ≤ Partner.payment_terms_minutes p) →
  (∀ c, is_Some (partner_rows db !! c) → is_Some (rows !! c)) →
  store_wf (with_partners db rows).
Proof.
  intros Hwf Hrows Hkeep. split; cbn.
  - apply Hrows.
  - intros c m r E. destruct (wf_model db Hwf c m r E). auto.
  - intros i s E. apply Hkeep. by eapply wf_statement.
  - apply store_ok_partners, Hwf.
Qed.

Lemma has_statements_false db c i s :
  has_statements db c = false → daily_statements (billing db) !! i = Some s → Statement.consumer_id s ≠ c.
Proof.
  unfold has_statements. intros Hn Hs <-. apply not_true_iff_false in Hn. apply Hn, existsb_exists.
  exists (i, s). rewrite String.eqb_eq. split; [| done]. by apply list_elem_of_In, elem_of_map_to_list.
Qed.

Lemma has_statements_true db i s :
  daily_statements (billing db) !! i = Some s → has_statements db (Statement.consumer_id s) = true.
Proof.
  intros Hs. apply not_false_iff_true. intros Hn. by apply (has_statements_false _ _ _ _ Hn Hs).
Qed.

Lemma create_partner_wf db new now : store_wf db → store_wf (create_partner db new now).1.
Proof.
  intros Hwf. unfold create_partner. destruct (NewPartner.validated new) as [n|e]; [| done].
  unfold insert_partner. cbn. destruct (Z.ltb_spec (NewPartner.payment_terms_minutes n) 0); [done |].
  destruct (partner_rows db !! _) eqn:E; [done |]. cbn [fst].
  apply with_partners_wf; [done | |].
  - intros c p [[<- <-]|[_ Hp]]%lookup_insert_Some; [done | by eapply wf_partner].
  - intros c Hc. destruct (decide (NewPartner.consumer_id n = c)) as [<-|];
      [rewrite lookup_insert_eq; eauto | by rewrite lookup_insert_ne].
Qed.

Lemma update_partner_wf db c patch now : store_wf db → store_wf (update_partner db c patch now).1.
Proof.
  intros Hwf. unfold update_partner.
  destruct (match PartnerPatch.payment_terms_minutes patch with Some terms => terms <? 0 | None => false end) eqn:Et; [done |].
  destruct (match PartnerPatch.name patch with Some _ => _ | None => _ end); [done |].
  case_bool_decide; [done |]. destruct (partner_rows db !! c) as [p|] eqn:E; [| done]. cbn [fst].
  destruct (wf_partner db Hwf c p E) as [Hc Hterms].
  apply with_partners_wf; [done | |].
  - intros c' p' [[<- <-]|[_ Hp]]%lookup_insert_Some; [| by eapply wf_partner]. cbn. split; [done |].
    destruct (PartnerPatch.payment_terms_minutes patch) as [t|]; cbn; [apply Z.ltb_ge in Et; lia | done].
  - intros c' Hc'. destruct (decide (c = c')) as [<-|]; [rewrite lookup_insert_eq; eauto | by rewrite lookup_insert_ne].
Qed.

Lemma delete_partner_wf db c : store_wf db → store_wf (delete_partner db c).1.
Proof.
  intros Hwf. unfold delete_partner, delete_partner_row. destruct (partner_rows db !! c) as [p|] eqn:E; [| done].
  destruct (has_statements db c) eqn:Es; [done |]. cbn. split; cbn.
  - intros c' p' [_ Hp]%lookup_delete_Some. by eapply wf_partner.
  - intros c' m r [Hr Hne]%map_lookup_filter_Some. cbn in Hne. destruct (wf_model db Hwf c' m r Hr).
    by rewrite lookup_delete_ne.
  - intros i s Hs. pose proof (has_statements_false _ _ _ _ Es Hs). rewrite lookup_delete_ne by done.
    by eapply wf_statement.
  - apply store_ok_partners, Hwf.
Qed.

Lemma insert_models_wf db c ms now db' : store_wf db → insert_models db c ms now = Ok db' → store_wf db'.
Proof.
  revert db. induction ms as [|m ms IH]; intros db Hwf; cbn [insert_models]; [by intros [= <-] |].
  unfold insert_model. destruct (model_check (ModelPrice.model m) (ModelPrice.prices m)) eqn:Ec; [| done]. cbn [negb].
  destruct (is_Some_b (partner_models db !! _)); [done |].
  destruct (partner_rows db !! c) as [p|] eqn:Ep; [| done]. cbn [is_Some_b negb].
  apply IH. split; cbn.
  - apply Hwf.
  - intros c' m' r' [[[= <- <-] <-]|[_ Hr]]%lookup_insert_Some; [| exact (wf_model db Hwf _ _ _ Hr)].
    split; [unfold partner_rows in *; cbn; eauto | done].
  - apply Hwf.
  - apply Hwf.
Qed.

Lemma replace_models_wf db c ms now : store_wf db → store_wf (replace_models db c ms now).1.
Proof.
  intros Hwf. unfold replace_models. destruct (check_names [] ms); [| done].
  unfold replace_rows. destruct (insert_models _ c ms now) as [db1|e] eqn:Ei; [| by destruct e]. cbn [fst].
  assert (store_wf db1) as Hwf1.
  { eapply insert_models_wf; [| exact Ei]. split; cbn; [apply Hwf | | apply Hwf | apply Hwf].
    intros c' m r [Hr _]%map_lookup_filter_Some. exact (wf_model db Hwf _ _ _ Hr). }
  unfold touch_partner. apply with_partners_wf; [done | |].
  - intros c' p' Hp'. destruct (decide (c = c')) as [<-|].
    + rewrite lookup_alter_eq in Hp'. destruct (partner_rows db1 !! c) as [p|] eqn:Ep; [| done]. injection Hp' as <-.
      exact (wf_partner db1 Hwf1 _ _ Ep).
    + rewrite lookup_alter_ne in Hp' by done. by eapply wf_partner.
  - intros c' Hc'. destruct (decide (c = c')) as [<-|]; [rewrite lookup_alter_eq | by rewrite lookup_alter_ne].
    destruct Hc' as [p ->]. eauto.
Qed.

(** The billing engine leaves the partners alone and bills only those there are. *)
Lemma store_step_partners b b' :
  store_step b b' → store_ok b →
  (∀ i s, daily_statements b !! i = Some s → is_Some (partners b !! Statement.consumer_id s)) →
  partners b' = partners b
  ∧ ∀ i s, daily_statements b' !! i = Some s → is_Some (partners b !! Statement.consumer_id s).
Proof.
  intros Hstep Hok Hfk. destruct Hstep as [b draft now b' o Hw | b id by_ r n now | b id o now | b now inst limit ttl].
  - unfold write_statement in Hw. destruct (validate_draft draft); [| done].
    destruct (StatementDraft.total draft) as [total|] eqn:Et; [| done].
    destruct (insert_statement b _ _) as [[b1 inserted]|] eqn:Ei; [| done].
    destruct (get_statement b1 _ _) as [[? ?]|]; [| done]. injection Hw as <- _.
    unfold insert_statement in Ei. destruct (Statement.check _); [| done]. cbn [negb] in Ei.
    destruct (is_Some_b (get_statement b _ _)); [by injection Ei as <- <- |].
    destruct (partners b !! Statement.consumer_id (statement_row draft total now)) eqn:Ep; [| done]. cbn [is_Some_b negb] in Ei.
    destruct (insert_lines _ _) as [ls|]; [| done]. injection Ei as <- <-. cbn. split; [done |].
    intros i s [[<- <-]|[_ Hs]]%lookup_insert_Some; [eauto | by eapply Hfk].
  - destruct (str_is_empty (trim by_)) eqn:Eb; [unfold mark_paid; by rewrite Eb |].
    rewrite mark_paid_cases by done. destruct (daily_statements b !! id) as [s|] eqn:Es; [| done].
    destruct (Statement.is_paid s); [done |]. destruct (String.eqb _ _); [| done]. cbn. split; [done |].
    intros i s' [[<- <-]|[_ Hs]]%lookup_insert_Some; [cbn; by eapply Hfk | by eapply Hfk].
  - unfold record_email_attempt. destruct (daily_statements b !! id) as [s|] eqn:Es; [| done]. cbn. split; [done |].
    intros i s' [[<- <-]|[_ Hs]]%lookup_insert_Some; [destruct o; cbn; by eapply Hfk | by eapply Hfk].
  - unfold claim_emails. cbn. split; [done |]. intros i s'. rewrite map_lookup_imap.
    destruct (daily_statements b !! i) as [s|] eqn:Es; cbn; [| done]. intros [= <-].
    case_decide; cbn; by eapply Hfk.
Qed.

Lemma portal_step_wf db db' : store_wf db → portal_step db db' → store_wf db'.
Proof.
  intros Hwf Hstep. destruct Hstep as [db new now | db c patch now | db c | db c ms now | db b Hb].
  - by apply create_partner_wf.
  - by apply update_partner_wf.
  - by apply delete_partner_wf.
  - by apply replace_models_wf.
  - destruct (store_step_partners _ _ Hb (wf_billing _ Hwf) (wf_statement _ Hwf)) as [Ep Hs].
    split; cbn; unfold partner_rows in *; cbn in *; rewrite ?Ep; try apply Hwf; try done.
    apply (step_rows _ _ (wf_billing _ Hwf) Hb).
Qed.

Lemma insert_models_billing d c ms now d' : insert_models d c ms now = Ok d' → billing d' = billing d.
Proof.
  revert d. induction ms as [|m ms IH]; intros d; cbn; [by intros [= <-] |].
  destruct (insert_model d _ _ _ _) as [d1|] eqn:Em; [| done]. intros E%IH. rewrite E.
  unfold insert_model in Em. repeat (case_match; try done). by injection Em as <-.
Qed.

Lemma portal_step_history db db' id s :
  store_wf db → portal_step db db' → daily_statements (billing db) !! id = Some s →
  ∃ s', daily_statements (billing db') !! id = Some s' ∧ carries_on s s'.
Proof.
  intros Hwf Hstep Hs. destruct Hstep as [db new now | db c patch now | db c | db c ms now | db b Hb].
  - exists s. split; [| done]. unfold create_partner, insert_partner.
    destruct (NewPartner.validated new); [| done]. cbn. destruct (_ <? 0); [done |]. by destruct (partner_rows db !! _).
  - exists s. split; [| done]. unfold update_partner. repeat (case_match; try done).
  - exists s. split; [| done]. unfold delete_partner, delete_partner_row. repeat (case_match; simplify_eq/=; try done).
  - exists s. split; [| done]. unfold replace_models. destruct (check_names [] ms); [| done].
    unfold replace_rows. destruct (insert_models _ c ms now) as [db1|[]] eqn:Ei; try done.
    cbn. by rewrite (insert_models_billing _ _ _ _ _ Ei).
  - destruct (step_rows _ _ (wf_billing _ Hwf) Hb) as (_ & Hr & _). auto.
Qed.

(** Whatever operators and the billing engine do, in any order: the tables stay
    well formed (every price and every statement belongs to a partner that
    exists, prices and payment terms are not negative, one statement per
    partner and day, each worth its lines), and no statement is ever lost, so a
    partner that was billed cannot be deleted. *)
Theorem portal_tables_well_formed (db db' : StoreDb) (Hwf : store_wf db) (Hsteps : rtc portal_step db db') :
  store_wf db'
  ∧ ∀ id s, daily_statements (billing db) !! id = Some s →
      is_Some (partner_rows db' !! Statement.consumer_id s)
      ∧ ∃ s', daily_statements (billing db') !! id = Some s' ∧ carries_on s s'.
Proof.
  induction Hsteps as [db|db db1 db2 Hstep _ IH].
  - split; [done |]. intros id s Hs. split; [by eapply wf_statement | by exists s].
  - destruct (IH (portal_step_wf _ _ Hwf Hstep)) as [Hwf2 Hkeep]. split; [done |].
    intros id s Hs. destruct (portal_step_history _ _ _ _ Hwf Hstep Hs) as (s1 & Hs1 & C1).
    destruct (Hkeep id s1 Hs1) as [Hp (s2 & Hs2 & C2)].
    assert (Statement.consumer_id s1 = Statement.consumer_id s) as E by apply C1. rewrite E in Hp.
    split; [done |]. exists s2. split; [done | by etrans].
Qed.
End Wf.

(** ** Replacing a price list *)

Lemma check_names_Ok seen ms :
  is_ok (check_names seen ms) = true ↔
  NoDup ((λ e, trim (ModelPrice.model e)) <$> ms)
  ∧ Forall (λ e, trim (ModelPrice.model e) ≠ ""%string ∧ trim (ModelPrice.model e) ∉ seen) ms.
Proof.
  revert seen. induction ms as [|m ms IH]; intros seen; cbn [check_names].
  { split; [by repeat constructor | done]. }
  destruct (str_is_empty (trim (ModelPrice.model m))) eqn:Ee.
  { apply str_is_empty_spec in Ee. split; [done |]. intros [_ [[? _] _]%Forall_cons_iff]. done. }
  case_bool_decide as Hin; cbn [is_ok].
  { split; [done |]. intros [_ [[_ ?] _]%Forall_cons_iff]. done. }
  rewrite IH, fmap_cons, NoDup_cons, Forall_cons_iff, list_elem_of_fmap.
  assert (trim (ModelPrice.model m) ≠ ""%string) as Hne by (rewrite <- str_is_empty_spec, Ee; done).
  rewrite !Forall_forall. split.
  - intros [Hnd Hall]. split; [split; [| done] |].
    + intros (e & E & He). destruct (Hall e He) as [_ Hn]. apply Hn. rewrite E. by left.
    + split; [done |]. intros e He. destruct (Hall e He) as [? Hn%not_elem_of_cons]. naive_solver.
  - intros ([Hn Hnd] & _ & Hall). split; [done |]. intros e He. destruct (Hall e He) as [? ?].
    split; [done |]. apply not_elem_of_cons. split; [| done]. intros E. apply Hn. by exists e.
Qed.

Lemma sql_blank_trim s : sql_trim_is_empty s = true → trim s = ""%string.
Proof.
  unfold sql_trim_is_empty, trim. rewrite str_is_empty_spec. intros Hb.
  assert (trim_start s = ""%string) as ->; [| done]. unfold trim_start.
  remember (String.length s) as n eqn:En. revert s Hb En.
  induction n as [|n IH]; intros [|c s] Hb En; try done. injection En as En.
  destruct (Ascii.eqb_spec c " ") as [->|Hc].
  - change (strip_all white_space n s = ""%string). by apply IH.
  - exfalso. clear -Hb Hc. revert Hb Hc. destruct c as [[] [] [] [] [] [] [] []]; cbn; intros; congruence.
Qed.

Definition prices_ok (p : PricingSnapshot.t) : Prop :=
  let '(i, c, o) := PricingSnapshot.as_tuple p in 0 ≤ i ∧ 0 ≤ c ∧ 0 ≤ o.

Lemma model_check_true model p :
  trim model ≠ ""%string → model_check model p = true ↔ prices_ok p.
Proof.
  intros Hne. unfold model_check, prices_ok. destruct (PricingSnapshot.as_tuple p) as [[i c] o].
  rewrite !andb_true_iff, !Z.leb_le, negb_true_iff.
  assert (sql_trim_is_empty model = false) as ->; [| tauto].
  apply not_true_is_false. intros ?%sql_blank_trim. done.
Qed.

(** The rows written are those given, beside the rows that were there. *)
Lemma insert_models_spec d c ms now :
  Forall (λ e, trim (ModelPrice.model e) ≠ ""%string) ms → NoDup (ModelPrice.model <$> ms) →
  (∀ e, e ∈ ms → partner_models d !! (c, ModelPrice.model e) = None) →
  (is_ok (insert_models d c ms now) = true ↔
     Forall (λ e, prices_ok (ModelPrice.prices e)) ms ∧ (ms = [] ∨ is_Some (partner_rows d !! c)))
  ∧ ∀ d', insert_models d c ms now = Ok d' →
      ∀ k r, partner_models d' !! k = Some r ↔
        partner_models d !! k = Some r
        ∨ ∃ e, e ∈ ms ∧ k = (c, ModelPrice.model e) ∧ r = ModelRow.mk (ModelPrice.prices e) now now.
Proof.
  revert d. induction ms as [|m ms IH]; intros d Hne Hnd Hfresh; cbn [insert_models].
  { split; [split; [by split; [constructor | left] | done] |]. intros d' [= <-] k r. split; [by left |].
    intros [?|(? & ?%elem_of_nil & _)]; done. }
  apply Forall_cons_iff in Hne as [Hm Hne]. rewrite fmap_cons in Hnd. apply NoDup_cons in Hnd as [Hnin Hnd].
  unfold insert_model. pose proof (model_check_true (ModelPrice.model m) (ModelPrice.prices m) Hm) as Hck.
  destruct (model_check _ _); cbn [negb].
  2:{ split; [| done]. rewrite Forall_cons_iff. split; [done |]. intros [[? _] _]. by apply Hck. }
  rewrite Hfresh by (by left). cbn [is_Some_b].
  destruct (partner_rows d !! c) as [p|] eqn:Ep; cbn [is_Some_b negb].
  2:{ split; [| done]. split; [done |]. by intros [_ [?|[? ?]]]. }
  set (d1 := mkStoreDb _ _). destruct (IH d1 Hne Hnd) as [IHok IHrows].
  { intros e He. unfold d1. cbn. rewrite lookup_insert_ne; [apply Hfresh; by right |].
    intros [= E]. apply Hnin. rewrite E. by apply list_elem_of_fmap_2. }
  split.
  - rewrite IHok, Forall_cons_iff. unfold partner_rows in *. cbn in *. rewrite Ep.
    assert (prices_ok (ModelPrice.prices m)) by (by apply Hck). naive_solver.
  - intros d' Ed k r. rewrite (IHrows d' Ed). unfold d1. cbn. rewrite lookup_insert_Some. split.
    + intros [[[<- <-]|[_ Hr]]|(e & He & -> & ->)]; [right | by left | right].
      * exists m. split_and!; [by left | done | done].
      * exists e. split_and!; [by right | done | done].
    + intros [Hr|(e & [->|He]%elem_of_cons & -> & ->)]; [left; right | left; by left | right; by exists e].
      split; [| done]. intros <-. rewrite Hfresh in Hr by (by left). done.
Qed.

Lemma NoDup_trimmed (ms : list ModelPrice.t) :
  NoDup ((λ e, trim (ModelPrice.model e)) <$> ms) → NoDup (ModelPrice.model <$> ms).
Proof.
  intros Hnd. apply (NoDup_fmap_1 trim). by rewrite <- list_fmap_compose.
Qed.

(** Replacing a price list is all or nothing. It succeeds exactly when the
    names, trimmed, are distinct and not blank, no price is negative and the
    partner exists (an empty list asks for no partner); then the partner may
    call precisely the models given, at the prices given, the names stored as
    typed; every other partner's list and every statement is as before. When
    it fails nothing has changed. *)
Theorem replace_models_exact (db : StoreDb) (c : string) (ms : list ModelPrice.t) (now : string) :
  let '(db', res) := replace_models db c ms now in
  (is_ok res = true ↔
     NoDup ((λ e, trim (ModelPrice.model e)) <$> ms)
     ∧ Forall (λ e, trim (ModelPrice.model e) ≠ ""%string ∧ prices_ok (ModelPrice.prices e)) ms
     ∧ (ms = [] ∨ is_Some (partner_rows db !! c)))
  ∧ (if is_ok res
     then (∀ m r, partner_models db' !! (c, m) = Some r ↔
             ∃ e, e ∈ ms ∧ m = ModelPrice.model e ∧ r = ModelRow.mk (ModelPrice.prices e) now now)
          ∧ (∀ c' m, c' ≠ c → partner_models db' !! (c', m) = partner_models db !! (c', m))
          ∧ daily_statements (billing db') = daily_statements (billing db)
     else db' = db).
Proof.
  unfold replace_models. pose proof (check_names_Ok [] ms) as Hnames.
  destruct (check_names [] ms) as [[]|e]; cbn [is_ok] in *.
  2:{ split; [| done]. split; [done |]. intros (Hnd & Hall & _). apply Hnames. split; [done |].
      eapply Forall_impl; [exact Hall |]. cbn. intros x [? _]. split; [done | set_solver]. }
  destruct (proj1 Hnames eq_refl) as [Hnd Hne].
  assert (Forall (λ e, trim (ModelPrice.model e) ≠ ""%string) ms) as Hne' by (eapply Forall_impl; [exact Hne |]; by intros ? [? _]).
  unfold replace_rows. set (d := mkStoreDb (billing db) _).
  destruct (insert_models_spec d c ms now Hne' (NoDup_trimmed _ Hnd)) as [Hok Hrows].
  { intros e _. unfold d. cbn. apply map_lookup_filter_None. right. intros r _ Hc. by apply Hc. }
  change (partner_rows d) with (partner_rows db) in Hok.
  assert (is_ok (insert_models d c ms now) = true ↔
     NoDup ((λ e, trim (ModelPrice.model e)) <$> ms)
     ∧ Forall (λ e, trim (ModelPrice.model e) ≠ ""%string ∧ prices_ok (ModelPrice.prices e)) ms
     ∧ (ms = [] ∨ is_Some (partner_rows db !! c))) as Hok' by (rewrite Hok, Forall_and; tauto).
  destruct (insert_models d c ms now) as [d1|e] eqn:Ei; cbn [is_ok] in *.
  2:{ destruct e; (split; [exact Hok' | done]). }
  split; [exact Hok' |]. cbn [touch_partner with_partners partner_models billing daily_statements].
  specialize (Hrows d1 eq_refl). split_and!.
  - intros m r. rewrite Hrows. unfold d. cbn. rewrite map_lookup_filter_Some. cbn. naive_solver.
  - intros c' m Hc. apply option_eq. intros r. rewrite Hrows. unfold d. cbn. rewrite map_lookup_filter_Some. cbn. naive_solver.
  - by rewrite (insert_models_billing _ _ _ _ _ Ei).
Qed.

(** ** Scoped reads *)

Lemma in_scope_admits sc s : in_scope sc s = Scope.admits sc (Statement.consumer_id s).
Proof. unfold in_scope. by rewrite eval_scope_clause. Qed.

Lemma statement_rows_elem db p : p ∈ statement_rows db ↔ daily_statements (billing db) !! p.1 = Some p.2.
Proof. destruct p. apply elem_of_map_to_list. Qed.

Lemma sql_page_elem {A} limit offset (l : list A) x : x ∈ sql_page limit offset l → x ∈ l.
Proof.
  unfold sql_page. destruct (limit <? 0).
  - apply subseteq_drop.
  - intros Hin. apply (subseteq_drop (Z.to_nat offset)). by apply (subseteq_take (Z.to_nat limit)).
Qed.

(** The rows a page is cut from. *)
Definition listed (db : StoreDb) (sc : Scope.t) (only_unpaid : bool) (s : Statement.t) : bool :=
  in_scope sc s && (negb only_unpaid || unpaid_invoice s).

Lemma list_statements_elem db sc limit offset only_unpaid p :
  p ∈ list_statements db sc limit offset only_unpaid →
  daily_statements (billing db) !! p.1 = Some p.2 ∧ listed db sc only_unpaid p.2 = true.
Proof.
  unfold list_statements, listed. intros Hp%sql_page_elem. destruct only_unpaid; cbn.
  all: rewrite merge_sort_Permutation, list_elem_of_filter, statement_rows_elem in Hp.
  - tauto.
  - rewrite andb_true_r. tauto.
Qed.

(** No read made for a credential shows another partner's bill: a statement is
    found by its id exactly when it exists within the scope, a page holds only
    such statements, a line is shown only with the statement it belongs to, and
    the lines of any other statement are none. *)
Theorem scoped_reads_isolated (db : StoreDb) (sc : Scope.t) (id limit offset : Z) (only_unpaid : bool) :
  (∀ s, get_statement_by_id db id sc = Some s ↔
     daily_statements (billing db) !! id = Some s ∧ Scope.admits sc (Statement.consumer_id s) = true)
  ∧ (∀ p, p ∈ list_statements db sc limit offset only_unpaid → get_statement_by_id db p.1 sc = Some p.2)
  ∧ (∀ l, l ∈ statement_lines_for db id sc →
       StatementLine.statement_id l.2 = id ∧ is_Some (get_statement_by_id db id sc))
  ∧ (get_statement_by_id db id sc = None → statement_lines_for db id sc = []).
Proof.
  assert (∀ i s, get_statement_by_id db i sc = Some s ↔
     daily_statements (billing db) !! i = Some s ∧ Scope.admits sc (Statement.consumer_id s) = true) as Hget.
  { intros i s. unfold get_statement_by_id. destruct (_ !! i) as [x|]; [| naive_solver].
    rewrite in_scope_admits. destruct (Scope.admits sc _) eqn:E; naive_solver congruence. }
  assert (∀ l, l ∈ statement_lines_for db id sc →
       StatementLine.statement_id l.2 = id ∧ is_Some (get_statement_by_id db id sc)) as Hlines.
  { intros l. unfold statement_lines_for, scoped_line, get_statement_by_id.
    rewrite merge_sort_Permutation, list_elem_of_filter, andb_true_iff, Z.eqb_eq. intros [[-> Hs] _]. split; [done |].
    destruct (_ !! id) as [s|]; [| done]. rewrite Hs. eauto. }
  split_and!; [apply Hget | | done |].
  - intros p [Hp Hl]%list_statements_elem. apply Hget. split; [done |]. rewrite <- in_scope_admits.
    unfold listed in Hl. by apply andb_true_iff in Hl as [? _].
  - intros Hnone. destruct (statement_lines_for db id sc) as [|l ls]; [done |].
    destruct (Hlines l) as [_ [s Hs]]; [by left |]. congruence.
Qed.

(** The pages of a list join up: nothing is shown twice and nothing skipped,
    and together they are the scope's statements, as many as the count says. *)
Theorem pages_join (db : StoreDb) (sc : Scope.t) (only_unpaid : bool) (n m : Z) (Hn : 0 ≤ n) (Hm : 0 ≤ m) :
  list_statements db sc n 0 only_unpaid ++ list_statements db sc m n only_unpaid
    = list_statements db sc (n + m) 0 only_unpaid
  ∧ list_statements db sc (-1) 0 only_unpaid
    ≡ₚ filter (λ p, listed db sc only_unpaid p.2 = true) (statement_rows db)
  ∧ (Z.of_nat (length (statement_rows db)) ≤ n →
       list_statements db sc n 0 only_unpaid = list_statements db sc (-1) 0 only_unpaid)
  ∧ (only_unpaid = false → Z.of_nat (length (list_statements db sc (-1) 0 only_unpaid)) = count_statements db sc).
Proof.
  unfold list_statements. set (l := if only_unpaid then _ else _).
  assert (l ≡ₚ filter (λ p, listed db sc only_unpaid p.2 = true) (statement_rows db)) as Hl.
  { unfold l, listed. destruct only_unpaid; rewrite merge_sort_Permutation; cbn; [done |].
    apply reflexive_eq, list_filter_iff. intros p. by rewrite andb_true_r. }
  assert (length l ≤ length (statement_rows db))%nat as Hlen.
  { rewrite Hl. apply length_filter. }
  unfold sql_page. cbn -[Z.ltb]. replace (n <? 0) with false by (symmetry; apply Z.ltb_ge; lia).
  replace (m <? 0) with false by (symmetry; apply Z.ltb_ge; lia).
  replace (n + m <? 0) with false by (symmetry; apply Z.ltb_ge; lia).
  change (-1 <? 0) with true. cbv iota. change (drop (Z.to_nat 0) l) with (drop 0 l). rewrite drop_0. split_and!.
  - rewrite Z2Nat.inj_add by lia. by rewrite take_take_drop.
  - done.
  - intros Hle. rewrite take_ge; [done |]. lia.
  - intros ->. rewrite Hl. unfold count_statements, listed. do 2 f_equal. apply list_filter_iff.
    intros p. by rewrite andb_true_r.
Qed.

(** ** What refuses a partner *)

(** Opening an account never touches one that exists; it succeeds exactly when
    the identity and name are not blank, the terms are not negative and the
    (trimmed) identity is free. *)
Lemma create_partner_exact (db : StoreDb) (new : NewPartner.t) (now : string) :
  let '(db', res) := create_partner db new now in
  (is_ok res = true ↔
     trim (NewPartner.consumer_id new) ≠ ""%string ∧ trim (NewPartner.name new) ≠ ""%string
     ∧ 0 ≤ NewPartner.payment_terms_minutes new ∧ get_partner db (trim (NewPartner.consumer_id new)) = None)
  ∧ (∀ p, res = Ok p → get_partner db' (trim (NewPartner.consumer_id new)) = Some p ∧ Partner.created_at p = now)
  ∧ (∀ c p, get_partner db c = Some p → get_partner db' c = Some p).
Proof.
  unfold create_partner, NewPartner.validated, insert_partner, get_partner. cbn -[trim].
  pose proof (str_is_empty_spec (trim (NewPartner.consumer_id new))).
  pose proof (str_is_empty_spec (trim (NewPartner.name new))).
  destruct (str_is_empty (trim (NewPartner.consumer_id new))); [split_and!; naive_solver |].
  destruct (str_is_empty (trim (NewPartner.name new))); [split_and!; naive_solver |].
  destruct (Z.ltb_spec (NewPartner.payment_terms_minutes new) 0); [split_and!; naive_solver lia |].
  cbn -[trim]. destruct (Z.ltb_spec (NewPartner.payment_terms_minutes new) 0); [lia |].
  destruct (partner_rows db !! _) as [q|] eqn:E; cbn -[trim]; [split_and!; naive_solver |].
  rewrite lookup_insert_eq. cbn -[trim]. split_and!; [naive_solver | | ].
  - by intros p [= <-].
  - intros c p Hp. rewrite lookup_insert_ne; [done | congruence].
Qed.

(** Deleting a partner that was billed is refused as a database error, not as
    the rule of the product the comment promises. *)
Theorem delete_billed_partner_is_database_error (db : StoreDb) (i : Z) (s : Statement.t)
    (Hwf : store_wf db) (Hs : daily_statements (billing db) !! i = Some s) :
  delete_partner db (Statement.consumer_id s) = (db, Err (Database (SqliteFailure SQLITE_CONSTRAINT_FOREIGNKEY))).
Proof.
  unfold delete_partner, delete_partner_row. destruct (wf_statement db Hwf i s Hs) as [p ->].
  by rewrite (has_statements_true db i s Hs).
Qed.

(** ** At a concrete store *)
Definition portal_1 : StoreDb := mkStoreDb store_1 ∅.

Lemma portal_1_wf : store_wf portal_1.
Proof.
  split.
  - unfold partner_rows; cbn. intros c p [<- <-]%lookup_singleton_Some. split; [done |]. vm_compute. congruence.
  - cbn. intros c m r E. by rewrite lookup_empty in E.
  - cbn. intros i s [<- <-]%lookup_singleton_Some. unfold is_Some. exists acme. reflexivity.
  - exact store_1_ok.
Qed.

Lemma portal_1_statement : daily_statements (billing portal_1) !! 1 = Some statement_1.
Proof. reflexivity. Qed.

Lemma portal_tables_well_formed_witness :
  store_wf portal_1 ∧ store_wf (delete_partner portal_1 "acme").1
  ∧ is_Some (partner_rows (delete_partner portal_1 "acme").1 !! "acme"%string).
Proof.
  split; [exact portal_1_wf |].
  assert (rtc portal_step portal_1 (delete_partner portal_1 "acme").1) as Hsteps by apply rtc_once, portal_delete.
  destruct (portal_tables_well_formed portal_1 _ portal_1_wf Hsteps) as [Hwf Hkeep]. split; [exact Hwf |].
  exact (proj1 (Hkeep 1 statement_1 portal_1_statement)).
Defined.

Lemma pages_join_witness :
  0 ≤ 1 ∧ list_statements portal_1 Scope.All 1 0 false ++ list_statements portal_1 Scope.All 1 1 false
          = list_statements portal_1 Scope.All (1 + 1) 0 false.
Proof.
  split; [lia |].
  exact (proj1 (pages_join portal_1 Scope.All false 1 1 ltac:(lia) ltac:(lia))).
Defined.

Lemma delete_billed_partner_is_database_error_witness :
  store_wf portal_1
  ∧ delete_partner portal_1 "acme" = (portal_1, Err (Database (SqliteFailure SQLITE_CONSTRAINT_FOREIGNKEY))).
Proof.
  split; [exact portal_1_wf |].
  exact (delete_billed_partner_is_database_error portal_1 1 statement_1 portal_1_wf portal_1_statement).
Defined.
