(* ===== verification/Web.v ===== *)
(** * The embedded dashboard ([src/build.rs], [src/src/web/mod.rs])

    The build bakes the files of [dashboard/dist] into a table; the server
    answers a path that no route takes from that table, or with the entry
    document for the browser's router to resolve. *)

From stdpp Require Import base strings list sorting.
From Stdlib Require Import Ascii ZArith Lia.
From S2P Require Import Prelude Utf8 Redaction Pricing Trim Status Partner Context PartnerStore.

Local Open Scope Z_scope.

(** ** The build script *)

(** A file with its bytes, or a directory as it is listed: what cannot be read
    is not listed. *)
Inductive Entry : Type := File (bytes : list ascii) | Dir (listing : list (string * Entry)).

(** [to_string_lossy] of a path component. *)
Definition component (name : string) : string := from_utf8_lossy (String.list_ascii_of_string name).

(** [collect], from the components of the directory reached so far. *)
Fixpoint collect (at_ : list string) (e : Entry) : list (string * list ascii) :=
  match e with
  | File bytes => [(join "/" at_, bytes)]
  | Dir listing =>
      (fix each (l : list (string * Entry)) : list (string * list ascii) :=
         match l with
         | [] => []
         | (name, entry) :: l' => collect (at_ ++ [component name]) entry ++ each l'
         end) listing
  end.

Definition extension (path : string) : string := default EmptyString (last (split_char "." path)).

Definition content_type (path : string) : string :=
  let ext e := String.eqb (extension path) e in
  (if ext "html" then "text/html; charset=utf-8"
   else if ext "js" || ext "mjs" then "text/javascript; charset=utf-8"
   else if ext "css" then "text/css; charset=utf-8"
   else if ext "json" || ext "map" then "application/json; charset=utf-8"
   else if ext "svg" then "image/svg+xml"
   else if ext "png" then "image/png"
   else if ext "jpg" || ext "jpeg" then "image/jpeg"
   else if ext "webp" then "image/webp"
   else if ext "ico" then "image/x-icon"
   else if ext "woff" then "font/woff"
   else if ext "woff2" then "font/woff2"
   else if ext "txt" then "text/plain; charset=utf-8"
   else "application/octet-stream")%string.

Definition starts_with (p s : string) : bool := is_Some_b (strip_prefix p s).

Definition is_immutable (path : string) : bool := starts_with "assets/" path.

Module EmbeddedAsset.
Record t : Type := mk { path : string; content_type : string; bytes : list ascii; immutable : bool }.
End EmbeddedAsset.

Definition embed (file : string * list ascii) : EmbeddedAsset.t :=
  EmbeddedAsset.mk file.1 (content_type file.1) file.2 (is_immutable file.1).

(** The generated table; [dist] is [None] when there is no such directory. *)
Definition ASSETS (dist : option Entry) : list EmbeddedAsset.t :=
  embed <$> merge_sort row_key_le
    (match dist with Some (Dir listing) => collect [] (Dir listing) | _ => [] end).

(** ** Serving *)

Inductive Content : Type :=
  | Bytes (b : list ascii)
  | Text (s : string)
  | NotBuiltPage
  | ErrorJson (message type_ code : string).

Record Response : Type := mkResponse { status : Z; headers : list (string * string); body : Content }.

Section Serve.
Variable assets : list EmbeddedAsset.t.

Definition find_asset (key : string) : option EmbeddedAsset.t :=
  find (λ a, String.eqb (EmbeddedAsset.path a) key) assets.

(** Whether a path asks for a file. *)
Definition looks_like_asset (path : string) : bool :=
  negb (avoids "." (default EmptyString (last (split_char "/" path)))).

Definition refused_segment (seg : string) : bool :=
  String.eqb seg ".." || String.eqb seg "." || str_is_empty seg.

Definition lookup (path : string) : option EmbeddedAsset.t :=
  match strip_prefix "/" path with
  | None => None
  | Some key =>
      let key := if str_is_empty key then "index.html"%string else key in
      if existsb refused_segment (split_char "/" key) then None
      else match find_asset key with
           | Some a => Some a
           | None => if looks_like_asset key then None else find_asset "index.html"
           end
  end.

Definition CSP : string :=
  "default-src 'self'; script-src 'self'; style-src 'self' 'unsafe-inline'; img-src 'self' data:; connect-src 'self'; font-src 'self'; object-src 'none'; base-uri 'none'; frame-ancestors 'none'".

(** Every header value is a constant of the build, so the builder never refuses. *)
Definition asset_response (a : EmbeddedAsset.t) : Response :=
  mkResponse 200
    [("content-type", EmbeddedAsset.content_type a);
     ("cache-control", if EmbeddedAsset.immutable a then "public, max-age=31536000, immutable" else "no-cache");
     ("x-content-type-options", "nosniff"); ("referrer-policy", "same-origin");
     ("content-security-policy", CSP)]%string
    (Bytes (EmbeddedAsset.bytes a)).

Definition text_type : string * string := ("content-type", "text/plain; charset=utf-8")%string.
Definition not_found : Response := mkResponse 404 [text_type] (Text "Not Found").
Definition not_built : Response :=
  mkResponse 503 [("content-type", "text/html; charset=utf-8"); ("cache-control", "no-store")]%string NotBuiltPage.

Definition serve (path : string) : Response :=
  match lookup path with
  | Some a => asset_response a
  | None =>
      if looks_like_asset path then not_found
      else match lookup "index.html" with Some index => asset_response index | None => not_built end
  end.

Definition json_not_found (path : string) : Response :=
  mkResponse 404 [("content-type", "application/json")]%string
    (ErrorJson ("Unknown endpoint: " +:+ path)%string "invalid_request_error" "not_found").

Definition fallback (path : string) : Response :=
  if starts_with "/api/" path || starts_with "/v1/" path then json_not_found path else serve path.
End Serve.

(** ** The table *)

Lemma entry_ind_nested (P : Entry → Prop) (Hfile : ∀ b, P (File b))
    (Hdir : ∀ l, Forall (λ ne, P ne.2) l → P (Dir l)) : ∀ e, P e.
Proof.
  fix IH 1. intros [b|l]; [apply Hfile | apply Hdir]. revert l. fix IHl 1.
  intros [|[n e] l]; constructor; [apply IH | apply IHl].
Qed.

(** A name a directory can list, that is UTF-8. *)
Definition name_ok (n : string) : bool :=
  negb (refused_segment n) && avoids "/" n && String.eqb (component n) n.

(** Every name is one, and no directory lists a name twice. *)
Fixpoint tree_ok (e : Entry) : bool :=
  match e with
  | File _ => true
  | Dir listing =>
      bool_decide (NoDup listing.*1)
      && (fix each (l : list (string * Entry)) : bool :=
            match l with [] => true | (n, e') :: l' => name_ok n && tree_ok e' && each l' end) listing
  end.

(** The file that is found by following [path] from [e]. *)
Fixpoint file_at (e : Entry) (path : list string) : option (list ascii) :=
  match e, path with
  | File b, [] => Some b
  | Dir listing, n :: path' =>
      (fix each (l : list (string * Entry)) : option (list ascii) :=
         match l with
         | [] => None
         | (m, e') :: l' => if String.eqb m n then file_at e' path' else each l'
         end) listing
  | _, _ => None
  end.

Lemma split_join_words c (l : list string) :
  l ≠ [] → Forall (λ w, avoids c w = true) l → split_char c (join (String c "") l) = l.
Proof.
  intros Hne Hl. induction Hl as [|w l Hw Hl IH]; [done |]. destruct l as [|v l]; [by apply split_char_avoid |].
  transitivity (split_char c (w +:+ String c (join (String c "") (v :: l)))%string); [done |].
  rewrite split_char_sep by exact Hw. by rewrite IH.
Qed.

Lemma collect_dir at_ l :
  collect at_ (Dir l) = mjoin ((λ ne, collect (at_ ++ [component ne.1]) ne.2) <$> l).
Proof. induction l as [|[n e] l IH]; [done |]. cbn in *. by rewrite IH. Qed.

Lemma tree_ok_dir l :
  tree_ok (Dir l) = true ↔ NoDup l.*1 ∧ Forall (λ ne, name_ok ne.1 = true ∧ tree_ok ne.2 = true) l.
Proof.
  cbn [tree_ok]. rewrite andb_true_iff, bool_decide_eq_true. f_equiv.
  induction l as [|[n e] l IH]; [by split |]. rewrite !andb_true_iff, IH, Forall_cons. cbn. tauto.
Qed.

Lemma file_at_dir l n path :
  file_at (Dir l) (n :: path) = match find (λ ne, String.eqb ne.1 n) l with Some ne => file_at ne.2 path | None => None end.
Proof. induction l as [|[m e] l IH]; [done |]. cbn in *. by destruct (String.eqb m n). Qed.

Lemma find_unique {A} (key : A → string) (l : list A) (x : A) :
  NoDup (key <$> l) → x ∈ l → find (λ y, String.eqb (key y) (key x)) l = Some x.
Proof.
  induction l as [|y l IH]; [by intros _ ?%elem_of_nil |]. cbn. rewrite NoDup_cons, elem_of_cons. intros [Hy Hl] Hx.
  destruct (String.eqb_spec (key y) (key x)) as [E|E].
  - destruct Hx as [->|Hx]; [done |]. exfalso. apply Hy. rewrite E. by apply list_elem_of_fmap_2.
  - destruct Hx as [->|Hx]; [done | by apply IH].
Qed.

(** What is collected are the files of the tree, by their path. *)
Lemma collect_spec e at_ key b :
  tree_ok e = true →
  (key, b) ∈ collect at_ e ↔ ∃ path, file_at e path = Some b ∧ key = join "/" (at_ ++ path)
     ∧ Forall (λ n, name_ok n = true) path.
Proof.
  revert at_. induction e as [c|l IH] using entry_ind_nested; intros at_ Hok.
  - cbn [collect]. rewrite list_elem_of_singleton. split.
    + intros [= -> ->]. exists []. by rewrite app_nil_r.
    + intros ([|] & [= ->] & -> & _). by rewrite app_nil_r.
  - rewrite collect_dir, list_elem_of_join. apply tree_ok_dir in Hok as [Hnd Hall]. rewrite Forall_forall in IH, Hall. split.
    + intros (files & Hin & (ne & -> & Hne)%list_elem_of_fmap). destruct (Hall ne Hne) as [Hn Ht].
      apply (IH ne Hne) in Hin as (path & Hf & -> & Hp); [| done]. exists (ne.1 :: path). split_and!.
      * rewrite file_at_dir, find_unique; done.
      * rewrite <- (assoc_L (++)). unfold name_ok in Hn. rewrite !andb_true_iff, String.eqb_eq in Hn. destruct Hn as [_ ->]. done.
      * by constructor.
    + intros (path & Hf & -> & Hp). destruct path as [|n path]; [done |]. rewrite file_at_dir in Hf.
      destruct (find _ l) as [ne|] eqn:Ef; [| done]. apply find_some in Ef as [Hne En].
      apply list_elem_of_In in Hne. apply String.eqb_eq in En as <-. destruct (Hall ne Hne) as [Hn Ht].
      eexists. split; [| by apply list_elem_of_fmap_2]. apply IH; [done | done |]. exists path.
      apply Forall_cons in Hp as [_ Hp]. split_and!; [done | | done].
      rewrite <- (assoc_L (++)). unfold name_ok in Hn. rewrite !andb_true_iff, String.eqb_eq in Hn. destruct Hn as [_ ->]. done.
Qed.

Lemma name_avoids n : name_ok n = true → avoids "/" n = true.
Proof. unfold name_ok. rewrite !andb_true_iff. tauto. Qed.

Lemma names_avoid path : Forall (λ n, name_ok n = true) path → Forall (λ n, avoids "/" n = true) path.
Proof. intros Hp. eapply Forall_impl; [exact Hp | exact name_avoids]. Qed.

(** A path of words is one of its keys only. *)
Lemma join_inj p q :
  p ≠ [] → q ≠ [] → Forall (λ n, avoids "/" n = true) p → Forall (λ n, avoids "/" n = true) q →
  join "/" p = join "/" q → p = q.
Proof. intros Hp Hq Hpn Hqn E. rewrite <- (split_join_words "/" p), <- (split_join_words "/" q) by done. by rewrite E. Qed.

Lemma file_at_names e path b : tree_ok e = true → file_at e path = Some b → Forall (λ n, name_ok n = true) path.
Proof.
  revert path. induction e as [c|l IH] using entry_ind_nested; intros [|n path] Hok Hf; try done.
  rewrite file_at_dir in Hf. destruct (find _ l) as [ne|] eqn:Ef; [| done]. apply find_some in Ef as [Hne En].
  apply list_elem_of_In in Hne. apply String.eqb_eq in En as <-. apply tree_ok_dir in Hok as [_ Hall].
  rewrite Forall_forall in IH, Hall. destruct (Hall ne Hne) as [Hn Ht]. constructor; [done | by apply (IH ne Hne)].
Qed.

(** ** What a path is answered with *)
Section Dist.
Variable listing : list (string * Entry).
Hypothesis Hok : tree_ok (Dir listing) = true.

Let dist := Dir listing.
Let table := ASSETS (Some dist).
Let at_path (p : list string) : option EmbeddedAsset.t := (λ b, embed (join "/" p, b)) <$> file_at dist p.

(** A segment of a path that names something. *)
Definition segment_ok (n : string) : bool := negb (refused_segment n) && avoids "/" n.

Lemma in_table a : a ∈ table ↔ ∃ p, p ≠ [] ∧ at_path p = Some a ∧ Forall (λ n, name_ok n = true) p.
Proof.
  unfold table, ASSETS, at_path. rewrite list_elem_of_fmap. setoid_rewrite merge_sort_Permutation. split.
  - intros ([k b] & -> & Hin). apply (collect_spec dist []) in Hin as (p & Hf & -> & Hp); [| exact Hok]. exists p.
    split_and!; [by intros -> | by rewrite Hf | done].
  - intros (p & _ & (b & Hf & ->)%fmap_Some & Hp). exists (join "/" p, b). split; [done |].
    apply (collect_spec dist []); [exact Hok | by exists p].
Qed.

Lemma segment_of_name n : name_ok n = true → segment_ok n = true.
Proof. unfold name_ok, segment_ok. rewrite !andb_true_iff. tauto. Qed.

Lemma segments_avoid p : Forall (λ n, segment_ok n = true) p → Forall (λ n, avoids "/" n = true) p.
Proof. intros Hp. eapply Forall_impl; [exact Hp |]. intros n. unfold segment_ok. rewrite andb_true_iff. tauto. Qed.

Lemma find_asset_at p :
  p ≠ [] → Forall (λ n, avoids "/" n = true) p → find_asset table (join "/" p) = at_path p.
Proof.
  intros Hne Hp. unfold find_asset. destruct (find _ table) as [a|] eqn:Ef.
  - apply find_some in Ef as [Hin Ea]. apply list_elem_of_In in Hin. apply String.eqb_eq in Ea.
    apply in_table in Hin as (q & Hq & Hat & Hqn). rewrite <- Hat. f_equal.
    apply fmap_Some in Hat as (b & _ & ->). cbn in Ea.
    by apply join_inj; [.. | by apply names_avoid | | done].
  - destruct (at_path p) as [a|] eqn:Ea; [| done]. exfalso.
    assert (a ∈ table) as Hin.
    { apply in_table. exists p. split_and!; [done | done |]. apply fmap_Some in Ea as (b & Hf & _). by eapply file_at_names. }
    apply list_elem_of_In in Hin. apply (find_none _ _ Ef) in Hin.
    apply fmap_Some in Ea as (b & _ & ->). cbn in Hin. by rewrite String.eqb_refl in Hin.
Qed.

Lemma join_nonempty p : p ≠ [] → Forall (λ n, segment_ok n = true) p → str_is_empty (join "/" p) = false.
Proof.
  intros Hne Hp. destruct Hp as [|n p Hn _]; [done |]. destruct n as [|c n]; [done |]. by destruct p.
Qed.

Definition url (p : list string) : string := ("/" +:+ join "/" p)%string.
Definition has_extension (p : list string) : bool := negb (avoids "." (default EmptyString (last p))).

Lemma lookup_url p :
  p ≠ [] → Forall (λ n, segment_ok n = true) p →
  lookup table (url p)
  = match at_path p with
    | Some a => Some a
    | None => if has_extension p then None else at_path ["index.html"]
    end.
Proof.
  intros Hne Hp. unfold lookup, url. rewrite strip_prefix_app, join_nonempty by done.
  rewrite split_join_words by auto using segments_avoid.
  assert (existsb refused_segment p = false) as ->.
  { apply not_true_is_false. rewrite existsb_exists. intros (n & Hin & Hr). apply list_elem_of_In in Hin.
    rewrite Forall_forall in Hp. specialize (Hp n Hin). unfold segment_ok in Hp. by rewrite Hr in Hp. }
  rewrite find_asset_at by auto using segments_avoid. destruct (at_path p); [done |].
  unfold looks_like_asset, has_extension. rewrite split_join_words by auto using segments_avoid.
  destruct (negb _); [done |]. apply (find_asset_at ["index.html"%string]); [done | by repeat constructor].
Qed.

Lemma split_char_last c s : default EmptyString (last (split_char c (String c s))) = default EmptyString (last (split_char c s)).
Proof.
  assert (split_char c (String c s) = EmptyString :: split_char c s) as -> by (cbn; by rewrite Ascii.eqb_refl).
  rewrite last_cons. by destruct (last (split_char c s)).
Qed.

Lemma looks_like_asset_slash key : looks_like_asset (String "/" key) = looks_like_asset key.
Proof. unfold looks_like_asset. by rewrite split_char_last. Qed.

Lemma looks_like_asset_url p :
  p ≠ [] → Forall (λ n, segment_ok n = true) p → looks_like_asset (url p) = has_extension p.
Proof.
  intros Hne Hp. unfold url. change ("/" +:+ join "/" p)%string with (String "/" (join "/" p)).
  rewrite looks_like_asset_slash. unfold looks_like_asset, has_extension. by rewrite split_join_words by auto using segments_avoid.
Qed.

Lemma lookup_root : lookup table "/" = at_path ["index.html"%string].
Proof.
  unfold lookup. rewrite <- (find_asset_at ["index.html"%string]); [| done | by repeat constructor].
  cbn [strip_prefix Ascii.eqb Bool.eqb str_is_empty join]. change (existsb refused_segment _) with false.
  by destruct (find_asset table "index.html").
Qed.

Lemma lookup_sound path a :
  lookup table path = Some a →
  a ∈ table ∧ (path = ("/" +:+ EmbeddedAsset.path a)%string
    ∨ EmbeddedAsset.path a = "index.html"%string ∧ looks_like_asset path = false).
Proof.
  assert (∀ k, find_asset table k = Some a → a ∈ table ∧ EmbeddedAsset.path a = k) as Hfind.
  { intros k [Hin E]%find_some. apply list_elem_of_In in Hin. by apply String.eqb_eq in E. }
  unfold lookup. destruct path as [|c key]; [done |]. cbn [strip_prefix]. destruct (Ascii.eqb_spec "/" c) as [<-|]; [| done].
  destruct (str_is_empty key) eqn:Ek.
  { apply str_is_empty_spec in Ek as ->. destruct (existsb _ _); [done |].
    destruct (find_asset table "index.html") eqn:Ef; [intros [= ->] |]; [apply Hfind in Ef as [? ?]; auto | done]. }
  destruct (existsb _ _); [done |]. destruct (find_asset table key) eqn:Ef.
  - intros [= ->]. apply Hfind in Ef as [? <-]. auto.
  - destruct (looks_like_asset key) eqn:El; [done |]. intros [? ?]%Hfind. split; [done |]. right. split; [done |].
    by rewrite looks_like_asset_slash.
Qed.

(** The dashboard is served as it was built. Every file of the build is
    answered at its path with its own bytes, and every answer that carries bytes
    carries those of a file of the build, at that file's path or as the entry
    document of a path that asks for no file: a path that asks for a missing
    file is a 404, never a page, and a path of the browser's router is answered
    as the root is. What is under the API is an error document. *)
Theorem dashboard_is_served_as_built :
  (∀ p b, file_at dist p = Some b → serve table (url p) = asset_response (embed (join "/" p, b)))
  ∧ (∀ path b, body (serve table path) = Bytes b →
       ∃ p, file_at dist p = Some b ∧ (path = url p ∨ p = ["index.html"%string] ∧ looks_like_asset path = false))
  ∧ (∀ p, p ≠ [] → Forall (λ n, segment_ok n = true) p → file_at dist p = None →
       serve table (url p) = if has_extension p then not_found else serve table "/")
  ∧ (∀ path, fallback table path = json_not_found path
       ∨ (starts_with "/api/" path = false ∧ starts_with "/v1/" path = false ∧ fallback table path = serve table path)).
Proof.
  split_and!.
  - intros p b Hf. assert (p ≠ []) as Hne by (by intros ->). pose proof (file_at_names dist p b Hok Hf) as Hn.
    unfold serve. rewrite lookup_url; [| done | eapply Forall_impl; [exact Hn | exact segment_of_name]].
    unfold at_path. by rewrite Hf.
  - intros path b. unfold serve. destruct (lookup table path) as [a|] eqn:El.
    + intros [= <-]. apply lookup_sound in El as [Hin Hp]. apply in_table in Hin as (p & _ & Hat & Hn).
      apply fmap_Some in Hat as (b & Hf & ->). cbn in *. exists p. split; [done |].
      destruct Hp as [->|[Hi ?]]; [by left |]. right. split; [| done].
      eapply join_inj; [by intros -> | done | by apply names_avoid | by repeat constructor | done].
    + by destruct (looks_like_asset path).
  - intros p Hne Hp Hf. unfold serve at 1. rewrite lookup_url by done. unfold at_path at 1. rewrite Hf. cbn [fmap option_fmap option_map].
    unfold serve. rewrite lookup_root, looks_like_asset_url by done. destruct (has_extension p); [done |].
    by destruct (at_path ["index.html"%string]).
  - intros path. unfold fallback. destruct (starts_with "/api/" path) eqn:Ea, (starts_with "/v1/" path) eqn:Ev; auto.
Qed.
End Dist.

(** ** A build *)
Section Example_web.
Definition ascii_bytes (s : string) : list ascii := String.list_ascii_of_string s.

Definition dist_1 : list (string * Entry) :=
  [("index.html", File (ascii_bytes "<!doctype html>"));
   ("favicon.svg", File (ascii_bytes "<svg/>"));
   ("assets", Dir [("index-abc123.js", File (ascii_bytes "run()"))])]%string.
Definition table_1 : list EmbeddedAsset.t := ASSETS (Some (Dir dist_1)).
End Example_web.

Lemma dashboard_is_served_as_built_witness :
  tree_ok (Dir dist_1) = true
  ∧ serve (ASSETS (Some (Dir dist_1))) (url ["assets"; "index-abc123.js"])
    = asset_response (embed (join "/" ["assets"; "index-abc123.js"]%string, ascii_bytes "run()"))
  ∧ serve (ASSETS (Some (Dir dist_1))) (url ["manager"; "billing"])
    = if has_extension ["manager"; "billing"] then not_found else serve (ASSETS (Some (Dir dist_1))) "/".
Proof.
  assert (tree_ok (Dir dist_1) = true) as Hok by (vm_compute; reflexivity). split; [exact Hok |].
  destruct (dashboard_is_served_as_built dist_1 Hok) as (X & _ & Y & _). split.
  - apply X. vm_compute. reflexivity.
  - apply Y; [discriminate | repeat constructor | vm_compute; reflexivity].
Defined.

(** The last resort of [serve] looks up a path without its slash, which names
    nothing: a page asked for with a slash at its end, or with two in its
    middle, is answered with the page that says no dashboard was built. *)
Example trailing_slash_says_not_built :
  serve table_1 "/" = asset_response (embed ("index.html"%string, ascii_bytes "<!doctype html>"))
  ∧ serve table_1 "/manager/billing/" = not_built ∧ serve table_1 "//" = not_built ∧ serve table_1 "/a//b" = not_built.
Proof. vm_compute. auto. Qed.

Example web_examples :
  serve table_1 "/assets/../../secret" = not_built ∧ serve table_1 "/assets/missing.js" = not_found
  ∧ fallback table_1 "/v1/embeddings" = json_not_found "/v1/embeddings"
  ∧ serve (ASSETS None) "/" = not_built
  ∧ content_type "a.min.css" = "text/css; charset=utf-8"%string ∧ content_type "LICENSE" = "application/octet-stream"%string
  ∧ is_immutable "assets/a.js" = true ∧ is_immutable "index.html" = false.
Proof. vm_compute. auto 10. Qed.
