(* ===== verification/ApiKeys.v ===== *)
(** * API keys ([src/src/apikeys/mod.rs], [src/src/apikeys/store.rs])

    The key table and its lifecycle, the snapshot that requests authenticate
    against, and the refresh that rebuilds it from the database. *)

From stdpp Require Import base strings list gmap numbers sorting fin_maps.
From Stdlib Require Import Ascii ZArith Lia.
From S2P Require Import Prelude Utf8 Crypto TimeLib Calendar Timefmt Pricing Period Status Partner LedgerTypes Sql Rollup Statements BillingStore PartnerStore.

Local Open Scope Z_scope.

(** ** The secret and the plaintext *)
Definition MIN_SECRET_LEN : nat := 32.
Definition KEY_PREFIX : string := "pp_".
Definition KEY_PREFIX_LEN : nat := 12.
Definition KEY_ENTROPY_BYTES : nat := 32.

Inductive SecretError : Type := Missing | TooShort (len : nat).

(** [value] is the environment's: [None] when the variable is unset. *)
Definition load_secret (value : option string) : result (list Z) SecretError :=
  let value := default EmptyString value in
  if str_is_empty value then Err Missing
  else
    let bytes := as_bytes value in
    if (length bytes <? MIN_SECRET_LEN)%nat then Err (TooShort (length bytes)) else Ok bytes.

Definition SECRET_ENV : string := "PARTNER_PORTAL_API_KEY_SECRET".

(** [Display for SecretError]: the variable and the length, never the value. *)
Definition secret_error_display (self : SecretError) : string :=
  (match self with
   | Missing => SECRET_ENV +:+ " is not set. It keys the hash of every partner API key and must be supplied by the deployment; without it no key can be issued or verified"
   | TooShort len => SECRET_ENV +:+ " is " +:+ dec_string (Z.of_nat len) +:+ " bytes; at least "
                       +:+ dec_string (Z.of_nat MIN_SECRET_LEN) +:+ " are required"
   end)%string.

(** [plaintext.chars().take(KEY_PREFIX_LEN)]. *)
Definition key_prefix_of (plaintext : string) : string := take_chars KEY_PREFIX_LEN plaintext.

(** [entropy] is what reading [/dev/urandom] gave: the bytes, or the error's text. *)
Definition generate_plaintext (entropy : result (list Z) string) : result string string :=
  let? bytes := entropy in Ok (KEY_PREFIX +:+ base64url_encode bytes)%string.

(** ** Data *)
Module KeyStatus.
Inductive t : Type := Active | Revoked.

#[global] Instance eq_dec : EqDecision t.
Proof. solve_decision. Defined.

Definition parse (s : string) : option t :=
  if String.eqb s "active" then Some Active else if String.eqb s "revoked" then Some Revoked else None.
End KeyStatus.

(** A row of [api_keys] but its [id], which keys the table. *)
Module KeyRow.
Record t : Type := mk {
  name : string;
  consumer_id : string;
  key_prefix : string;
  key_hash : string;
  status : string;
  created_at : string;
  updated_at : string;
  expires_at : option string;
  revoked_at : option string }.
End KeyRow.

(** What an operator sees of it: no hash. *)
Module ApiKeyRow.
Record t : Type := mk {
  id : Z;
  name : string;
  consumer_id : string;
  key_prefix : string;
  status : KeyStatus.t;
  created_at : string;
  updated_at : string;
  expires_at : option string;
  revoked_at : option string }.
End ApiKeyRow.

(** The database: the keys with their AUTOINCREMENT sequence, and the partner
    and billing tables beside them. *)
Record KeyDb : Type := mkKeyDb {
  api_keys : gmap Z KeyRow.t;
  next_key_id : Z;
  portal : StoreDb }.

Inductive ApiKeyError : Type :=
  | DatabaseError (e : SqlError)
  | NotFound (id : Z)
  | NotActive (id : Z)
  | AlreadyActive (consumer_id : string)
  | InvalidKey (msg : string).

(** [Display for PartnerKeyExists] and [Display for ApiKeyError]; [db_text] is
    the text of a database error. *)
Definition partner_key_exists_display (consumer_id : string) : string :=
  ("consumer " +:+ debug_str consumer_id
   +:+ " already has an active api key; rotate it instead of creating a second one")%string.

Definition api_key_error_display (db_text : SqlError → string) (self : ApiKeyError) : string :=
  (match self with
   | DatabaseError e => "api key database error: " +:+ db_text e
   | NotFound id => "no api key with id " +:+ signed_dec_string id
   | NotActive id => "api key " +:+ signed_dec_string id +:+ " is revoked and cannot be changed"
   | AlreadyActive conflict => partner_key_exists_display conflict
   | InvalidKey msg => "invalid api key: " +:+ msg
   end)%string.

Inductive Mutation : Type := Sqlite (e : SqlError) | Domain (e : ApiKeyError).

Inductive Outcome (T : Type) : Type := Done (value : T) | Absent | Unchanged (value : T).
Arguments Done {_} _.
Arguments Absent {_}.
Arguments Unchanged {_} _.

Definition outcome_result {T} (self : Outcome T) (id : Z) (check : T → result unit ApiKeyError) : result T ApiKeyError :=
  match self with
  | Done value | Unchanged value => let? _ := check value in Ok value
  | Absent => Err (NotFound id)
  end.

Definition done_or_missing {T} (self : Outcome T) : result T ApiKeyError :=
  match self with Done value | Unchanged value => Ok value | Absent => Err (NotFound 0) end.

Definition require_active (row : ApiKeyRow.t) : result unit ApiKeyError :=
  if bool_decide (ApiKeyRow.status row = KeyStatus.Active) then Ok () else Err (NotActive (ApiKeyRow.id row)).

Definition require_text (field value : string) : result string ApiKeyError :=
  let trimmed := trim value in
  if str_is_empty trimmed then Err (InvalidKey (field +:+ " must not be empty")) else Ok trimmed.

(** ** Rows *)
Definition unique_violation (error : SqlError) : bool :=
  match error with SqliteFailure code => code =? SQLITE_CONSTRAINT_UNIQUE | _ => false end.

Definition is_active_row (k : KeyRow.t) : bool := String.eqb (KeyRow.status k) "active".

Definition key_rows (db : KeyDb) : list (Z * KeyRow.t) := map_to_list (api_keys db).

(** [SELECT 1 FROM api_keys WHERE consumer_id = ?1 AND status = 'active' LIMIT 1]. *)
Definition active_key_exists (db : KeyDb) (consumer_id : string) : bool :=
  existsb (λ p, String.eqb (KeyRow.consumer_id p.2) consumer_id && is_active_row p.2) (key_rows db).

Module NewKey.
Record t : Type := mk {
  name : string;
  consumer_id : string;
  prefix : string;
  hash : string;
  now : string;
  expires_at : option string }.
End NewKey.

(** [UNIQUE (key_hash)] and [idx_api_keys_one_active_per_consumer]. *)
Definition key_conflict (db : KeyDb) (key : NewKey.t) : bool :=
  existsb (λ p, String.eqb (KeyRow.key_hash p.2) (NewKey.hash key)) (key_rows db)
  || active_key_exists db (NewKey.consumer_id key).

Definition new_row (key : NewKey.t) : KeyRow.t :=
  KeyRow.mk (NewKey.name key) (NewKey.consumer_id key) (NewKey.prefix key) (NewKey.hash key) "active"
    (NewKey.now key) (NewKey.now key) (NewKey.expires_at key) None.

(** The row's [id] is the sequence's next value. *)
Definition insert_key (db : KeyDb) (key : NewKey.t) : result KeyDb SqlError :=
  if key_conflict db key then Err (SqliteFailure SQLITE_CONSTRAINT_UNIQUE)
  else Ok (mkKeyDb (<[next_key_id db := new_row key]> (api_keys db)) (next_key_id db + 1) (portal db)).

Definition row_to_api_key (id : Z) (row : KeyRow.t) : result ApiKeyRow.t SqlError :=
  match KeyStatus.parse (KeyRow.status row) with
  | None => Err InvalidColumnType
  | Some status =>
      Ok (ApiKeyRow.mk id (KeyRow.name row) (KeyRow.consumer_id row) (KeyRow.key_prefix row) status
            (KeyRow.created_at row) (KeyRow.updated_at row) (KeyRow.expires_at row) (KeyRow.revoked_at row))
  end.

Definition fetch_row (db : KeyDb) (id : Z) : result (option ApiKeyRow.t) SqlError :=
  match api_keys db !! id with
  | None => Ok None
  | Some row => let? r := row_to_api_key id row in Ok (Some r)
  end.

Definition fetch_written_row (db : KeyDb) (id : Z) : result ApiKeyRow.t SqlError :=
  let? row := fetch_row db id in ok_or row QueryReturnedNoRows.

Definition with_key (db : KeyDb) (id : Z) (f : KeyRow.t → KeyRow.t) : KeyDb :=
  mkKeyDb (alter f id (api_keys db)) (next_key_id db) (portal db).

(** [SET name = ?2, updated_at = ?3]. *)
Definition renamed_row (name now : string) (k : KeyRow.t) : KeyRow.t :=
  KeyRow.mk name (KeyRow.consumer_id k) (KeyRow.key_prefix k) (KeyRow.key_hash k) (KeyRow.status k)
    (KeyRow.created_at k) now (KeyRow.expires_at k) (KeyRow.revoked_at k).

(** [SET status = 'revoked', revoked_at = ?2, updated_at = ?2]. *)
Definition revoked_row (now : string) (k : KeyRow.t) : KeyRow.t :=
  KeyRow.mk (KeyRow.name k) (KeyRow.consumer_id k) (KeyRow.key_prefix k) (KeyRow.key_hash k) "revoked"
    (KeyRow.created_at k) now (KeyRow.expires_at k) (Some now).

(** ** Transaction bodies: what each closure does to the tables *)

Definition create_body (key : NewKey.t) (db : KeyDb) : result (KeyDb * Outcome ApiKeyRow.t) Mutation :=
  match insert_key db key with
  | Err e =>
      if unique_violation e && active_key_exists db (NewKey.consumer_id key)
      then Err (Domain (AlreadyActive (NewKey.consumer_id key)))
      else Err (Sqlite e)
  | Ok db' =>
      match fetch_written_row db' (next_key_id db) with
      | Err e => Err (Sqlite e)
      | Ok row => Ok (db', Done row)
      end
  end.

Definition update_body (id : Z) (name : option string) (now : string) (db : KeyDb)
    : result (KeyDb * Outcome ApiKeyRow.t) SqlError :=
  let? found := fetch_row db id in
  match found with
  | None => Ok (db, Absent)
  | Some current =>
      if negb (bool_decide (ApiKeyRow.status current = KeyStatus.Active)) then Ok (db, Unchanged current)
      else
        let new_name := default (ApiKeyRow.name current) name in
        let db' := with_key db id (renamed_row new_name now) in
        let? row := fetch_written_row db' id in
        Ok (db', Done row)
  end.

Definition revoke_body (id : Z) (now : string) (db : KeyDb) : result (KeyDb * Outcome ApiKeyRow.t) SqlError :=
  let? found := fetch_row db id in
  match found with
  | None => Ok (db, Absent)
  | Some current =>
      if bool_decide (ApiKeyRow.status current = KeyStatus.Active) then
        let db' := with_key db id (revoked_row now) in
        let? row := fetch_written_row db' id in
        Ok (db', Done row)
      else Ok (db, Unchanged current)
  end.

Definition rotate_body (id : Z) (hash prefix now : string) (db : KeyDb)
    : result (KeyDb * Outcome (ApiKeyRow.t * option ApiKeyRow.t)) SqlError :=
  let? found := fetch_row db id in
  match found with
  | None => Ok (db, Absent)
  | Some current =>
      if negb (bool_decide (ApiKeyRow.status current = KeyStatus.Active)) then Ok (db, Unchanged (current, None))
      else
        let db1 := with_key db id (revoked_row now) in
        let? db2 := insert_key db1 (NewKey.mk (ApiKeyRow.name current) (ApiKeyRow.consumer_id current) prefix hash now
                                      (ApiKeyRow.expires_at current)) in
        let? created := fetch_written_row db2 (next_key_id db1) in
        Ok (db2, Done (current, Some created))
  end.

(** ** Rebuilding the snapshot *)
Section Load.
Context `{TimeCrate}.

(** [models.entry(consumer_id).or_default().insert(model, prices)] per row. *)
Definition models_map (rows : list (string * string * ModelRow.t)) : gmap string (gmap string PricingSnapshot.t) :=
  foldl (λ models row,
      let '(consumer_id, model, r) := row in
      <[consumer_id := <[model := ModelRow.prices r]> (default ∅ (models !! consumer_id))]> models)
    ∅ rows.

(** The WHERE of the subquery: what suspends [consumer_id] at [now]. *)
Definition overdue_invoice (consumer_id now : string) (s : Statement.t) : bool :=
  String.eqb (Statement.consumer_id s) consumer_id && String.eqb (Statement.billing_mode s) "invoice"
  && negb (is_Some_b (Statement.paid_at s)) && (Statement.incomplete_usage_count s =? 0)
  && (0 <? Statement.total_amount_micro_usd s)
  && match Statement.due_at s with Some due => str_leb due now | None => false end.

(** [ORDER BY d.due_at, d.id LIMIT 1]. *)
Definition oldest_overdue (db : StoreDb) (consumer_id now : string) : option (Z * Statement.t) :=
  head (merge_sort due_le (filter (λ p, overdue_invoice consumer_id now p.2 = true) (statement_rows db))).

(** [COALESCE(p.billing_mode, 'invoice')] and [COALESCE(p.billing_email, '')]. *)
Definition mode_text (db : StoreDb) (consumer_id : string) : string :=
  match partner_rows db !! consumer_id with
  | Some p => BillingMode.as_str (Partner.billing_mode p)
  | None => "invoice"
  end.
Definition email_text (db : StoreDb) (consumer_id : string) : string :=
  match partner_rows db !! consumer_id with Some p => Partner.billing_email p | None => "" end.

Definition overdue_row (p : Z * Statement.t) : OverdueRow.t :=
  OverdueRow.mk (BillingMode.as_str BillingMode.Invoice) p.1 (Statement.billing_date p.2)
    (default EmptyString (Statement.due_at p.2)) (Statement.total_amount_micro_usd p.2)
    (Statement.incomplete_usage_count p.2).

(** The configuration of one key's partner, with the models taken for it. *)
Definition config_row (db : StoreDb) (now : OffsetDateTime) (k : KeyRow.t) (models : gmap string PricingSnapshot.t)
    : PartnerRuntimeConfig.t :=
  let consumer_id := KeyRow.consumer_id k in
  let mode := mode_text db consumer_id in
  let overdue := option_list (overdue_row <$> oldest_overdue db consumer_id (format_ts now)) in
  PartnerRuntimeConfig.new consumer_id (KeyRow.name k) (default BillingMode.Invoice (BillingMode.parse mode))
    (email_text db consumer_id) (status_for mode now overdue) models.

(** The WHERE over the keys. *)
Definition usable (now : string) (k : KeyRow.t) : bool :=
  is_active_row k && match KeyRow.expires_at k with None => true | Some t => str_ltb now t end.

#[global] Arguments usable : simpl never.

(** [ORDER BY k.consumer_id]. *)
Definition consumer_le (a b : Z * KeyRow.t) : Prop := key_le (KeyRow.consumer_id a.2) (KeyRow.consumer_id b.2).
#[global] Instance consumer_le_dec a b : Decision (consumer_le a b).
Proof. unfold consumer_le. apply _. Defined.

(** The row closure, run over the rows in order: it takes the models out of the map. *)
Fixpoint load_rows (db : StoreDb) (now : OffsetDateTime) (models : gmap string (gmap string PricingSnapshot.t))
    (rows : list (Z * KeyRow.t)) : list (string * PartnerRuntimeConfig.t) :=
  match rows with
  | [] => []
  | row :: rows' =>
      let consumer_id := KeyRow.consumer_id row.2 in
      (KeyRow.key_hash row.2, config_row db now row.2 (default ∅ (models !! consumer_id)))
        :: load_rows db now (delete consumer_id models) rows'
  end.

Definition load_active (db : KeyDb) (now : OffsetDateTime) : list (string * PartnerRuntimeConfig.t) :=
  load_rows (portal db) now (models_map (map_to_list (partner_models (portal db))))
    (merge_sort consumer_le (filter (λ p, usable (format_ts now) p.2 = true) (key_rows db))).

(** The lines [log_service_transitions] writes: the consumer, and whether it
    was suspended or resumed. *)
Definition transition (previous : PartnerSnapshot.t) (entry : string * PartnerRuntimeConfig.t) : option (string * bool) :=
  let config := entry.2 in
  match PartnerSnapshot.get previous entry.1 with
  | Some old =>
      if Bool.eqb (PartnerRuntimeConfig.suspended old) (PartnerRuntimeConfig.suspended config) then None
      else match PartnerRuntimeConfig.service_status config, PartnerRuntimeConfig.suspended old with
           | Suspended _, false => Some (PartnerRuntimeConfig.consumer_id config, true)
           | Active, true => Some (PartnerRuntimeConfig.consumer_id config, false)
           | _, _ => None
           end
  | None =>
      match PartnerRuntimeConfig.service_status config with
      | Suspended _ => Some (PartnerRuntimeConfig.consumer_id config, true)
      | Active => None
      end
  end.

Definition log_service_transitions (previous next : PartnerSnapshot.t) : list (string * bool) :=
  omap (transition previous) (PartnerSnapshot.entries next).
End Load.

(** ** The store *)
Module ApiKeyStore.
Section Store.
Context `{TimeCrate, Digests}.

(** [db] is shared with the other processes; the snapshot is this one's. *)
Record t : Type := mk {
  db : KeyDb;
  secret : list Z;
  snapshot : PartnerSnapshot.t }.

Definition new (db : KeyDb) (secret : list Z) : t := mk db secret (PartnerSnapshot.mk ∅).

Definition authenticate (self : t) (plaintext : string) : option PartnerRuntimeConfig.t :=
  PartnerSnapshot.get (snapshot self) (derive_key_hash (secret self) plaintext).

Definition active_count (self : t) : nat := PartnerSnapshot.len (snapshot self).

(** What the database does to one call: the error of the read, of [BEGIN], of
    [COMMIT], and the clock of the refresh. *)
Record Io : Type := mkIo {
  read : option SqlError;
  begin : option SqlError;
  commit : option SqlError;
  refresh_now : OffsetDateTime }.

(** The new store, the count, and the transitions logged on the way. *)
Definition refresh (self : t) (io : Io) : t * result nat ApiKeyError * list (string * bool) :=
  match read io with
  | Some e => (self, Err (DatabaseError e), [])
  | None =>
      let rows := load_active (db self) (refresh_now io) in
      let next := PartnerSnapshot.from_rows rows in
      (mk (db self) (secret self) next, Ok (length rows), log_service_transitions (snapshot self) next)
  end.

Definition mutate_domain {T} (self : t) (io : Io) (f : KeyDb → result (KeyDb * Outcome T) Mutation)
    : t * result (Outcome T) ApiKeyError :=
  match begin io with
  | Some e => (self, Err (DatabaseError e))
  | None =>
      match f (db self) with
      | Err (Sqlite e) => (self, Err (DatabaseError e))
      | Err (Domain domain) => (self, Err domain)
      | Ok (db', out) =>
          match commit io with
          | Some e => (self, Err (DatabaseError e))
          | None => ((refresh (mk db' (secret self) (snapshot self)) io).1.1, Ok out)
          end
      end
  end.

Definition mutate {T} (self : t) (io : Io) (f : KeyDb → result (KeyDb * Outcome T) SqlError)
    : t * result (Outcome T) ApiKeyError :=
  mutate_domain self io (λ db, match f db with Ok r => Ok r | Err e => Err (Sqlite e) end).

Definition create_with_plaintext (self : t) (name consumer_id : string) (expires_at : option OffsetDateTime)
    (plaintext : string) (now : OffsetDateTime) (io : Io) : t * result ApiKeyRow.t ApiKeyError :=
  match require_text "name" name with
  | Err e => (self, Err e)
  | Ok name =>
      match require_text "consumer_id" consumer_id with
      | Err e => (self, Err e)
      | Ok consumer_id =>
          if str_is_empty (trim plaintext) then (self, Err (InvalidKey "plaintext must not be empty"))
          else
            let '(self', r) := mutate_domain self io (create_body
              (NewKey.mk name consumer_id (key_prefix_of plaintext) (derive_key_hash (secret self) plaintext)
                 (format_ts now) (format_ts <$> expires_at))) in
            (self', let? out := r in done_or_missing out)
      end
  end.

Definition entropy_error (e : string) : ApiKeyError := InvalidKey ("could not read system entropy: " +:+ e).

Definition create (self : t) (name consumer_id : string) (expires_at : option OffsetDateTime)
    (entropy : result (list Z) string) (now : OffsetDateTime) (io : Io) : t * result (ApiKeyRow.t * string) ApiKeyError :=
  match generate_plaintext entropy with
  | Err e => (self, Err (entropy_error e))
  | Ok plaintext =>
      let '(self', r) := create_with_plaintext self name consumer_id expires_at plaintext now io in
      (self', let? row := r in Ok (row, plaintext))
  end.

Definition get (self : t) (id : Z) (io : Io) : result (option ApiKeyRow.t) ApiKeyError :=
  match read io with
  | Some e => Err (DatabaseError e)
  | None => match fetch_row (db self) id with Ok row => Ok row | Err e => Err (DatabaseError e) end
  end.

(** [ORDER BY id DESC]. *)
Definition id_ge (a b : Z * KeyRow.t) : Prop := b.1 ≤ a.1.
#[global] Instance id_ge_dec a b : Decision (id_ge a b).
Proof. unfold id_ge. apply _. Defined.

Definition list_keys (self : t) (io : Io) : result (list ApiKeyRow.t) ApiKeyError :=
  match read io with
  | Some e => Err (DatabaseError e)
  | None =>
      match map_result (λ p, row_to_api_key p.1 p.2) (merge_sort id_ge (key_rows (db self))) with
      | Ok rows => Ok rows
      | Err e => Err (DatabaseError e)
      end
  end.

Definition update (self : t) (id : Z) (name : option string) (now : OffsetDateTime) (io : Io)
    : t * result ApiKeyRow.t ApiKeyError :=
  match match name with Some name => require_text "name" name | None => Ok EmptyString end with
  | Err e => (self, Err e)
  | Ok _ =>
      let '(self', r) := mutate self io (update_body id name (format_ts now)) in
      (self', let? out := r in outcome_result out id require_active)
  end.

Definition revoke (self : t) (id : Z) (now : OffsetDateTime) (io : Io) : t * result ApiKeyRow.t ApiKeyError :=
  let '(self', r) := mutate self io (revoke_body id (format_ts now)) in
  (self', let? out := r in outcome_result out id (λ _, Ok ())).

Definition rotate (self : t) (id : Z) (entropy : result (list Z) string) (now : OffsetDateTime) (io : Io)
    : t * result (ApiKeyRow.t * string) ApiKeyError :=
  match generate_plaintext entropy with
  | Err e => (self, Err (entropy_error e))
  | Ok plaintext =>
      let '(self', r) := mutate self io (rotate_body id (derive_key_hash (secret self) plaintext)
                                           (key_prefix_of plaintext) (format_ts now)) in
      (self',
       let? out := r in
       let? found := outcome_result out id (λ p, require_active p.1) in
       let? replacement := ok_or found.2 (NotActive id) in
       Ok (replacement, plaintext))
  end.
End Store.
Arguments t {_}.
Arguments Io {_}.
End ApiKeyStore.

(** ** The key table *)

Record keys_wf (db : KeyDb) : Prop := {
  kw_active i j k k' : api_keys db !! i = Some k → api_keys db !! j = Some k' →
    is_active_row k = true → is_active_row k' = true → KeyRow.consumer_id k = KeyRow.consumer_id k' → i = j;
  kw_hash i j k k' : api_keys db !! i = Some k → api_keys db !! j = Some k' →
    KeyRow.key_hash k = KeyRow.key_hash k' → i = j;
  kw_ids i : is_Some (api_keys db !! i) → i < next_key_id db;
  kw_status i k : api_keys db !! i = Some k →
    (KeyRow.status k = "active"%string ∧ KeyRow.revoked_at k = None)
    ∨ (KeyRow.status k = "revoked"%string ∧ is_Some (KeyRow.revoked_at k));
  kw_portal : store_wf (portal db) }.

Lemma is_active_row_spec k : is_active_row k = true ↔ KeyRow.status k = "active"%string.
Proof. apply String.eqb_eq. Qed.

Lemma key_rows_elem db p : p ∈ key_rows db ↔ api_keys db !! p.1 = Some p.2.
Proof. destruct p. apply elem_of_map_to_list. Qed.

Lemma existsb_rows db (f : Z * KeyRow.t → bool) :
  existsb f (key_rows db) = true ↔ ∃ i k, api_keys db !! i = Some k ∧ f (i, k) = true.
Proof.
  rewrite existsb_exists. split.
  - intros ([i k] & Hin & Hf). exists i, k. split; [| done]. by apply list_elem_of_In, key_rows_elem in Hin.
  - intros (i & k & Hi & Hf). exists (i, k). split; [| done]. by apply list_elem_of_In, key_rows_elem.
Qed.

Lemma active_key_exists_spec db c :
  active_key_exists db c = true ↔
  ∃ i k, api_keys db !! i = Some k ∧ KeyRow.consumer_id k = c ∧ is_active_row k = true.
Proof.
  unfold active_key_exists. rewrite existsb_rows. cbn. setoid_rewrite andb_true_iff. setoid_rewrite String.eqb_eq. done.
Qed.

Lemma key_conflict_spec db key :
  key_conflict db key = true ↔
  (∃ i k, api_keys db !! i = Some k ∧ KeyRow.key_hash k = NewKey.hash key)
  ∨ active_key_exists db (NewKey.consumer_id key) = true.
Proof.
  unfold key_conflict. rewrite orb_true_iff, existsb_rows. cbn. by setoid_rewrite String.eqb_eq.
Qed.

(** The operator's view of a row whose status is one of the two. *)
Definition view (id : Z) (k : KeyRow.t) : ApiKeyRow.t :=
  ApiKeyRow.mk id (KeyRow.name k) (KeyRow.consumer_id k) (KeyRow.key_prefix k)
    (if is_active_row k then KeyStatus.Active else KeyStatus.Revoked)
    (KeyRow.created_at k) (KeyRow.updated_at k) (KeyRow.expires_at k) (KeyRow.revoked_at k).

Definition status_ok (k : KeyRow.t) : Prop := KeyRow.status k = "active"%string ∨ KeyRow.status k = "revoked"%string.

Lemma row_to_api_key_view id k : status_ok k → row_to_api_key id k = Ok (view id k).
Proof. unfold row_to_api_key, view, is_active_row. by intros [-> | ->]. Qed.

Lemma kw_status_ok db i k : keys_wf db → api_keys db !! i = Some k → status_ok k.
Proof. intros Hwf Hk. destruct (kw_status db Hwf i k Hk) as [[? _]|[? _]]; [by left | by right]. Qed.

Lemma fetch_row_wf db id : keys_wf db → fetch_row db id = Ok (view id <$> api_keys db !! id).
Proof.
  intros Hwf. unfold fetch_row. destruct (api_keys db !! id) as [k|] eqn:E; [| done].
  by rewrite row_to_api_key_view by (by eapply kw_status_ok).
Qed.

Lemma view_status id k : bool_decide (ApiKeyRow.status (view id k) = KeyStatus.Active) = is_active_row k.
Proof. unfold view. cbn. by destruct (is_active_row k). Qed.

(** *** Rewriting one row *)
Lemma with_key_wf db id f :
  keys_wf db →
  (∀ k, KeyRow.consumer_id (f k) = KeyRow.consumer_id k ∧ KeyRow.key_hash (f k) = KeyRow.key_hash k) →
  (∀ k, api_keys db !! id = Some k →
     (is_active_row (f k) = true → is_active_row k = true)
     ∧ ((KeyRow.status (f k) = "active"%string ∧ KeyRow.revoked_at (f k) = None)
        ∨ (KeyRow.status (f k) = "revoked"%string ∧ is_Some (KeyRow.revoked_at (f k))))) →
  keys_wf (with_key db id f).
Proof.
  intros Hwf Hsame Hf.
  assert (∀ i k', alter f id (api_keys db) !! i = Some k' → ∃ k, api_keys db !! i = Some k
    ∧ KeyRow.consumer_id k' = KeyRow.consumer_id k ∧ KeyRow.key_hash k' = KeyRow.key_hash k
    ∧ (is_active_row k' = true → is_active_row k = true)
    ∧ ((KeyRow.status k' = "active"%string ∧ KeyRow.revoked_at k' = None)
        ∨ (KeyRow.status k' = "revoked"%string ∧ is_Some (KeyRow.revoked_at k')))) as Hback.
  { intros i k' E. destruct (decide (id = i)) as [<-|].
    - rewrite lookup_alter_eq in E. destruct (api_keys db !! id) as [k|] eqn:Ek; [| done]. injection E as <-.
      exists k. destruct (Hsame k), (Hf k eq_refl). auto.
    - rewrite lookup_alter_ne in E by done. exists k'. split_and!; try done. by eapply kw_status. }
  split; cbn.
  - intros i j k k' (x & Hx & Ex & _ & Ax & _)%Hback (y & Hy & Ey & _ & Ay & _)%Hback Ak Ak' E.
    apply (kw_active db Hwf i j x y Hx Hy); auto; congruence.
  - intros i j k k' (x & Hx & _ & Ex & _)%Hback (y & Hy & _ & Ey & _)%Hback E.
    apply (kw_hash db Hwf i j x y Hx Hy). congruence.
  - intros i [k' (x & Hx & _)%Hback]. apply kw_ids; eauto.
  - intros i k (x & _ & _ & _ & _ & Hs)%Hback. exact Hs.
  - apply Hwf.
Qed.

Lemma insert_key_Ok db key db' :
  keys_wf db → insert_key db key = Ok db' →
  keys_wf db' ∧ db' = mkKeyDb (<[next_key_id db := new_row key]> (api_keys db)) (next_key_id db + 1) (portal db)
  ∧ api_keys db !! next_key_id db = None
  ∧ (∀ i k, api_keys db !! i = Some k → KeyRow.key_hash k ≠ NewKey.hash key)
  ∧ active_key_exists db (NewKey.consumer_id key) = false.
Proof.
  intros Hwf. unfold insert_key. pose proof (key_conflict_spec db key) as Hc.
  destruct (key_conflict db key); [done |]. intros [= <-].
  assert (∀ i k, api_keys db !! i = Some k → KeyRow.key_hash k ≠ NewKey.hash key) as Hh.
  { intros i k Hi E. enough (false = true) by done. apply Hc. left. eauto. }
  assert (active_key_exists db (NewKey.consumer_id key) = false) as Ha.
  { apply not_true_is_false. intros E. enough (false = true) by done. apply Hc. by right. }
  assert (∀ i k, api_keys db !! i = Some k → is_active_row k = true → KeyRow.consumer_id k ≠ NewKey.consumer_id key) as Hna.
  { intros i k Hi Ak E. apply not_true_iff_false in Ha. apply Ha, active_key_exists_spec. eauto. }
  assert (api_keys db !! next_key_id db = None) as Hfresh.
  { destruct (api_keys db !! next_key_id db) eqn:E; [| done]. pose proof (kw_ids db Hwf _ ltac:(eauto)). lia. }
  split_and!; try done. split; cbn.
  - intros i j k k' [[<- <-]|[_ Hi]]%lookup_insert_Some [[<- <-]|[_ Hj]]%lookup_insert_Some Ak Ak' E; try done.
    + exfalso. by apply (Hna j k' Hj Ak').
    + exfalso. by apply (Hna i k Hi Ak).
    + by eapply (kw_active db Hwf).
  - intros i j k k' [[<- <-]|[_ Hi]]%lookup_insert_Some [[<- <-]|[_ Hj]]%lookup_insert_Some E; try done.
    + exfalso. by apply (Hh j k' Hj).
    + exfalso. by apply (Hh i k Hi).
    + by eapply (kw_hash db Hwf).
  - intros i [k [[<- _]|[_ Hi]]%lookup_insert_Some]; [lia |]. pose proof (kw_ids db Hwf i ltac:(eauto)). lia.
  - intros i k [[<- <-]|[_ Hi]]%lookup_insert_Some; [by left | by eapply kw_status].
  - apply Hwf.
Qed.

Lemma fetch_written_new db key db' :
  keys_wf db → insert_key db key = Ok db' →
  fetch_written_row db' (next_key_id db) = Ok (view (next_key_id db) (new_row key)).
Proof.
  intros Hwf Hi. destruct (insert_key_Ok db key db' Hwf Hi) as (Hwf' & Ed & _).
  unfold fetch_written_row. rewrite fetch_row_wf by done. rewrite Ed. cbn. by rewrite lookup_insert_eq.
Qed.

Lemma insert_key_refused db key e : insert_key db key = Err e → e = SqliteFailure SQLITE_CONSTRAINT_UNIQUE ∧ key_conflict db key = true.
Proof. unfold insert_key. by destruct (key_conflict db key); [intros [= <-] |]. Qed.

(** *** The transactions by cases *)

Lemma create_body_cases db key :
  keys_wf db →
  create_body key db =
    match insert_key db key with
    | Ok db' => Ok (db', Done (view (next_key_id db) (new_row key)))
    | Err e =>
        if active_key_exists db (NewKey.consumer_id key)
        then Err (Domain (AlreadyActive (NewKey.consumer_id key)))
        else Err (Sqlite (SqliteFailure SQLITE_CONSTRAINT_UNIQUE))
    end.
Proof.
  intros Hwf. unfold create_body. destruct (insert_key db key) as [db'|e] eqn:Ei.
  - by rewrite (fetch_written_new db key db' Hwf Ei).
  - destruct (insert_key_refused db key e Ei) as [-> _]. cbn. done.
Qed.

Lemma with_key_lookup db id f k : api_keys db !! id = Some k → api_keys (with_key db id f) !! id = Some (f k).
Proof. intros Hk. unfold with_key. cbn. by rewrite lookup_alter_eq, Hk. Qed.

Lemma renamed_wf db id name now : keys_wf db → keys_wf (with_key db id (renamed_row name now)).
Proof.
  intros Hwf. apply with_key_wf; [done | done |]. intros k Hk. split; [done |].
  change (KeyRow.status (renamed_row name now k)) with (KeyRow.status k).
  change (KeyRow.revoked_at (renamed_row name now k)) with (KeyRow.revoked_at k). by eapply kw_status.
Qed.

Lemma revoked_wf db id now : keys_wf db → keys_wf (with_key db id (revoked_row now)).
Proof.
  intros Hwf. apply with_key_wf; [done | done |]. intros k Hk. split; [done |]. right. cbn. eauto.
Qed.

Lemma update_body_cases db id name now :
  keys_wf db →
  update_body id name now db =
    match api_keys db !! id with
    | None => Ok (db, Absent)
    | Some k =>
        if is_active_row k
        then Ok (with_key db id (renamed_row (default (KeyRow.name k) name) now),
                 Done (view id (renamed_row (default (KeyRow.name k) name) now k)))
        else Ok (db, Unchanged (view id k))
    end.
Proof.
  intros Hwf. unfold update_body. rewrite fetch_row_wf by done.
  destruct (api_keys db !! id) as [k|] eqn:E; [| done]. cbn [fmap option_fmap option_map]. rewrite view_status.
  destruct (is_active_row k); [| done]. cbn [negb].
  unfold fetch_written_row. rewrite fetch_row_wf by (by apply renamed_wf). rewrite (with_key_lookup _ _ _ k) by done. done.
Qed.

Lemma revoke_body_cases db id now :
  keys_wf db →
  revoke_body id now db =
    match api_keys db !! id with
    | None => Ok (db, Absent)
    | Some k =>
        if is_active_row k then Ok (with_key db id (revoked_row now), Done (view id (revoked_row now k)))
        else Ok (db, Unchanged (view id k))
    end.
Proof.
  intros Hwf. unfold revoke_body. rewrite fetch_row_wf by done.
  destruct (api_keys db !! id) as [k|] eqn:E; [| done]. cbn [fmap option_fmap option_map]. rewrite view_status.
  destruct (is_active_row k); [| done].
  unfold fetch_written_row. rewrite fetch_row_wf by (by apply revoked_wf). rewrite (with_key_lookup _ _ _ k) by done. done.
Qed.

(** The row a rotation writes. *)
Definition successor (k : KeyRow.t) (hash prefix now : string) : NewKey.t :=
  NewKey.mk (KeyRow.name k) (KeyRow.consumer_id k) prefix hash now (KeyRow.expires_at k).

(** With its predecessor revoked, only a repeated hash can refuse it. *)
Lemma rotate_body_cases db id hash prefix now :
  keys_wf db →
  match api_keys db !! id with
  | None => rotate_body id hash prefix now db = Ok (db, Absent)
  | Some k =>
      if is_active_row k then
        let key := successor k hash prefix now in
        let db' := mkKeyDb (<[next_key_id db := new_row key]> (<[id := revoked_row now k]> (api_keys db)))
                     (next_key_id db + 1) (portal db) in
        ((∃ i x, api_keys db !! i = Some x ∧ KeyRow.key_hash x = hash)
         ∧ rotate_body id hash prefix now db = Err (SqliteFailure SQLITE_CONSTRAINT_UNIQUE))
        ∨ ((∀ i x, api_keys db !! i = Some x → KeyRow.key_hash x ≠ hash)
           ∧ rotate_body id hash prefix now db =
               Ok (db', Done (view id k, Some (view (next_key_id db) (new_row key))))
           ∧ keys_wf db')
      else rotate_body id hash prefix now db = Ok (db, Unchanged (view id k, None))
  end.
Proof.
  intros Hwf. unfold rotate_body. rewrite fetch_row_wf by done.
  destruct (api_keys db !! id) as [k|] eqn:E; [| done]. cbn [fmap option_fmap option_map]. rewrite view_status.
  destruct (is_active_row k) eqn:Ak; [| done]. cbn [negb].
  assert (with_key db id (revoked_row now) =
    mkKeyDb (<[id := revoked_row now k]> (api_keys db)) (next_key_id db) (portal db)) as Ew.
  { unfold with_key. f_equal. apply map_eq. intros i. destruct (decide (id = i)) as [<-|];
      [by rewrite lookup_alter_eq, E, lookup_insert_eq | by rewrite lookup_alter_ne, lookup_insert_ne]. }
  change (NewKey.mk (ApiKeyRow.name (view id k)) (ApiKeyRow.consumer_id (view id k)) prefix hash now
            (ApiKeyRow.expires_at (view id k))) with (successor k hash prefix now).
  pose proof (revoked_wf db id now Hwf) as Hwf1. set (db1 := with_key db id (revoked_row now)) in *.
  change (next_key_id db1) with (next_key_id db).
  destruct (insert_key db1 (successor k hash prefix now)) as [db2|e] eqn:Ei.
  - right. destruct (insert_key_Ok _ _ _ Hwf1 Ei) as (Hwf2 & E2 & _ & Hfresh & _).
    pose proof (fetch_written_new _ _ _ Hwf1 Ei) as Ef. change (next_key_id db1) with (next_key_id db) in *.
    rewrite Ef. rewrite E2, Ew in Hwf2 |- *. cbn in *. split_and!; try done.
    intros i x Hx. destruct (decide (id = i)) as [<-|Hne].
    + rewrite E in Hx. injection Hx as <-. apply (Hfresh id (revoked_row now k)). by rewrite lookup_alter_eq, E.
    + apply (Hfresh i x). by rewrite lookup_alter_ne.
  - left. destruct (insert_key_refused _ _ _ Ei) as [-> Hc]. split; [| done].
    apply key_conflict_spec in Hc as [(i & x & Hx & Ex)|Hc].
    + rewrite Ew in Hx. cbn in Hx. apply lookup_insert_Some in Hx as [[<- <-]|[_ Hx]]; eauto.
    + exfalso. apply active_key_exists_spec in Hc as (i & x & Hx & Ec & Ax).
      rewrite Ew in Hx. cbn in Hx. apply lookup_insert_Some in Hx as [[<- <-]|[Hne Hx]]; [done |].
      apply Hne. by apply (kw_active db Hwf id i k x E Hx Ak Ax).
Qed.

(** ** One live key per partner *)
Section Lifecycle.
Context `{TimeCrate}.

(** One committed transaction on the database, by this process or another. *)
Inductive key_step : KeyDb → KeyDb → Prop :=
  | key_create db key db' out : create_body key db = Ok (db', out) → key_step db db'
  | key_update db id name now db' out : update_body id name now db = Ok (db', out) → key_step db db'
  | key_revoke db id now db' out : revoke_body id now db = Ok (db', out) → key_step db db'
  | key_rotate db id hash prefix now db' out : rotate_body id hash prefix now db = Ok (db', out) → key_step db db'
  | key_portal db p : portal_step (portal db) p → key_step db (mkKeyDb (api_keys db) (next_key_id db) p).

(** What no transaction changes about a key. *)
Definition key_carries_on (k k' : KeyRow.t) : Prop :=
  KeyRow.consumer_id k' = KeyRow.consumer_id k ∧ KeyRow.key_hash k' = KeyRow.key_hash k
  ∧ KeyRow.key_prefix k' = KeyRow.key_prefix k ∧ KeyRow.expires_at k' = KeyRow.expires_at k
  ∧ KeyRow.created_at k' = KeyRow.created_at k
  ∧ (is_active_row k = false → k' = k).

#[global] Instance key_carries_on_refl : Reflexive key_carries_on.
Proof. intros k. unfold key_carries_on. by split_and!. Qed.

#[global] Instance key_carries_on_trans : Transitive key_carries_on.
Proof.
  intros a b c (?&?&?&?&?&Ha) (?&?&?&?&?&Hb). unfold key_carries_on. split_and!; try congruence.
  intros Hf. specialize (Ha Hf). subst b. auto.
Qed.

Lemma with_key_carries db id f k0 :
  api_keys db !! id = Some k0 → key_carries_on k0 (f k0) →
  ∀ i k, api_keys db !! i = Some k → ∃ k', api_keys (with_key db id f) !! i = Some k' ∧ key_carries_on k k'.
Proof.
  intros H0 Hc i k Hk. destruct (decide (id = i)) as [<-|].
  - rewrite Hk in H0. injection H0 as <-. exists (f k). split; [by apply with_key_lookup | done].
  - exists k. split; [| done]. unfold with_key. cbn. by rewrite lookup_alter_ne.
Qed.

Lemma key_step_ok db db' :
  keys_wf db → key_step db db' →
  keys_wf db' ∧ ∀ i k, api_keys db !! i = Some k → ∃ k', api_keys db' !! i = Some k' ∧ key_carries_on k k'.
Proof.
  intros Hwf Hstep.
  assert (∀ i k, api_keys db !! i = Some k → ∃ k', api_keys db !! i = Some k' ∧ key_carries_on k k') as Hsame
    by (intros i k Hk; by exists k).
  destruct Hstep as [db key db' out E|db id name now db' out E|db id now db' out E|db id hash prefix now db' out E|db p Hp].
  - rewrite create_body_cases in E by done. destruct (insert_key db key) as [d|] eqn:Ei; [| by destruct (active_key_exists _ _)].
    injection E as <- _. destruct (insert_key_Ok _ _ _ Hwf Ei) as (Hwf' & Ed & Hn & _). split; [done |].
    intros i k Hk. exists k. split; [| done]. rewrite Ed. cbn. rewrite lookup_insert_ne by congruence. done.
  - rewrite update_body_cases in E by done. destruct (api_keys db !! id) as [k0|] eqn:E0; [| by injection E as <- _].
    destruct (is_active_row k0) eqn:A0; [| by injection E as <- _]. injection E as <- _.
    split; [by apply renamed_wf |]. apply (with_key_carries db id _ k0 E0).
    unfold key_carries_on. split_and!; try done. congruence.
  - rewrite revoke_body_cases in E by done. destruct (api_keys db !! id) as [k0|] eqn:E0; [| by injection E as <- _].
    destruct (is_active_row k0) eqn:A0; [| by injection E as <- _]. injection E as <- _.
    split; [by apply revoked_wf |]. apply (with_key_carries db id _ k0 E0).
    unfold key_carries_on. split_and!; try done. congruence.
  - pose proof (rotate_body_cases db id hash prefix now Hwf) as Hc.
    destruct (api_keys db !! id) as [k0|] eqn:E0; [| rewrite Hc in E; by injection E as <- _].
    destruct (is_active_row k0) eqn:A0; [| rewrite Hc in E; by injection E as <- _].
    destruct Hc as [[_ Hc]|(_ & Hc & Hwf')]; rewrite Hc in E; [done |]. injection E as <- _. split; [done |].
    intros i k Hk. cbn. assert (next_key_id db ≠ i) by (pose proof (kw_ids db Hwf i ltac:(eauto)); lia).
    rewrite lookup_insert_ne by done. destruct (decide (id = i)) as [<-|].
    + rewrite lookup_insert_eq. assert (k = k0) as -> by congruence. eexists. split; [done |].
      unfold key_carries_on. split_and!; try done. congruence.
    + rewrite lookup_insert_ne by done. by exists k.
  - split; [| done]. destruct Hwf as [W1 W2 W3 W4 W5]. split; try done. cbn. by eapply portal_step_wf.
Qed.

(** Whatever the processes that share the database do, in any order: a partner
    never has two live keys, no two keys share a hash, a live key carries no
    revocation and a revoked one says when it was revoked; a key's owner, hash
    and expiry never change, and a revoked key is never touched again. *)
Theorem one_live_key_per_partner (db db' : KeyDb) (Hwf : keys_wf db) (Hsteps : rtc key_step db db') :
  keys_wf db' ∧ ∀ i k, api_keys db !! i = Some k → ∃ k', api_keys db' !! i = Some k' ∧ key_carries_on k k'.
Proof.
  induction Hsteps as [db|db db1 db2 Hstep _ IH]; [split; [done |]; intros i k Hk; by exists k |].
  destruct (key_step_ok db db1 Hwf Hstep) as [Hwf1 H1]. destruct (IH Hwf1) as [Hwf2 H2]. split; [done |].
  intros i k Hk. destruct (H1 i k Hk) as (k1 & Hk1 & C1). destruct (H2 i k1 Hk1) as (k2 & Hk2 & C2).
  exists k2. split; [done | by etrans].
Qed.
End Lifecycle.

(** ** The snapshot is the database *)

Lemma foldl_insert_Some {A} (rows : list (string * A)) (m : gmap string A) h c :
  NoDup rows.*1 →
  (foldl (λ m row, <[row.1 := row.2]> m) m rows) !! h = Some c ↔
  (h, c) ∈ rows ∨ (h ∉ rows.*1 ∧ m !! h = Some c).
Proof.
  revert m. induction rows as [|[h0 c0] rows IH]; intros m Hnd; cbn.
  { split; [right; split; [apply not_elem_of_nil | done] | by intros [?%elem_of_nil|[_ ?]]]. }
  apply NoDup_cons in Hnd as [Hn Hnd]. rewrite (IH _ Hnd), lookup_insert_Some, elem_of_cons, not_elem_of_cons. split.
  - intros [Hin|[Hnin [[<- <-]|[Hne Hm]]]]; [by left; right | by left; left | right].
    split; [split; [congruence | done] | done].
  - intros [[[= <- <-]|Hin]|[[Hne Hnin] Hm]]; [right; split; [done | by left] | by left | right].
    split; [done | right]. split; congruence.
Qed.

Section Snapshot.
Context `{TimeCrate}.

Lemma from_rows_get rows h cfg :
  NoDup rows.*1 → PartnerSnapshot.get (PartnerSnapshot.from_rows rows) h = Some cfg ↔ (h, cfg) ∈ rows.
Proof.
  intros Hnd. unfold PartnerSnapshot.get, PartnerSnapshot.from_rows. cbn. rewrite foldl_insert_Some by done.
  rewrite lookup_empty. split; [by intros [?|[_ ?]] | by left].
Qed.

(** Taking each partner's models out of the map finds them there, since no two
    rows are of one partner. *)
Lemma load_rows_map db now models rows :
  NoDup ((λ p, KeyRow.consumer_id p.2) <$> rows) →
  load_rows db now models rows =
    (λ p, (KeyRow.key_hash p.2, config_row db now p.2 (default ∅ (models !! KeyRow.consumer_id p.2)))) <$> rows.
Proof.
  revert models. induction rows as [|row rows IH]; intros models Hnd; [done |].
  rewrite fmap_cons in Hnd. apply NoDup_cons in Hnd as [Hn Hnd]. cbn [load_rows]. rewrite fmap_cons, (IH _ Hnd). f_equal.
  apply list_fmap_ext. intros i p Hp. rewrite lookup_delete_ne; [done |].
  intros E. apply Hn. rewrite E. apply (list_elem_of_fmap_2 (λ p, KeyRow.consumer_id p.2)). by eapply list_elem_of_lookup_2.
Qed.

Lemma models_map_app rows row :
  models_map (rows ++ [row]) =
    (let '(c, m, r) := row in
     <[c := <[m := ModelRow.prices r]> (default ∅ (models_map rows !! c))]> (models_map rows)).
Proof. unfold models_map. by rewrite foldl_app. Qed.

Lemma models_map_lookup (rows : list (string * string * ModelRow.t)) c m p :
  NoDup rows.*1 →
  default ∅ (models_map rows !! c) !! m = Some p ↔ ∃ r, ((c, m), r) ∈ rows ∧ ModelRow.prices r = p.
Proof.
  induction rows as [|[[c0 m0] r0] rows IH] using rev_ind; intros Hnd.
  { unfold models_map. cbn. rewrite lookup_empty. cbn. rewrite lookup_empty. split; [done |].
    by intros (r & ?%elem_of_nil & _). }
  rewrite fmap_app in Hnd. apply NoDup_app in Hnd as (Hnd & Hn & _). specialize (IH Hnd).
  assert ((c0, m0) ∉ rows.*1) as Hfresh by (intros Hin; apply (Hn _ Hin); by left).
  rewrite models_map_app. setoid_rewrite elem_of_app. setoid_rewrite list_elem_of_singleton.
  destruct (decide (c0 = c)) as [->|Hc]; [rewrite lookup_insert_eq; cbn; destruct (decide (m0 = m)) as [->|Hm]
    | rewrite lookup_insert_ne by done].
  - rewrite lookup_insert_eq. split; [intros [= <-]; eauto |].
    intros (r & [Hin|[= <-]] & <-); [| done]. exfalso. apply Hfresh. apply (list_elem_of_fmap_2 fst _ _ Hin).
  - rewrite lookup_insert_ne, IH by done. naive_solver.
  - rewrite IH. naive_solver.
Qed.

Lemma models_of_partner (pm : gmap (string * string) ModelRow.t) c m :
  default ∅ (models_map (map_to_list pm) !! c) !! m = ModelRow.prices <$> pm !! (c, m).
Proof.
  apply option_eq. intros p. rewrite models_map_lookup by apply NoDup_fst_map_to_list.
  setoid_rewrite elem_of_map_to_list. rewrite fmap_Some. naive_solver.
Qed.

(** What a published configuration says about a key's partner. *)
Record describes (db : StoreDb) (now : OffsetDateTime) (k : KeyRow.t) (cfg : PartnerRuntimeConfig.t) : Prop := {
  de_consumer : PartnerRuntimeConfig.consumer_id cfg = KeyRow.consumer_id k;
  de_key_name : PartnerRuntimeConfig.key_name cfg = KeyRow.name k;
  de_mode : PartnerRuntimeConfig.billing_mode cfg =
    match partner_rows db !! KeyRow.consumer_id k with Some p => Partner.billing_mode p | None => BillingMode.Invoice end;
  de_email : PartnerRuntimeConfig.billing_email cfg =
    match partner_rows db !! KeyRow.consumer_id k with Some p => Partner.billing_email p | None => "" end;
  de_models m : PartnerRuntimeConfig.pricing_for cfg m =
    (ModelRow.prices <$> partner_models db !! (KeyRow.consumer_id k, m));
  de_status : PartnerRuntimeConfig.service_status cfg =
    status_for (mode_text db (KeyRow.consumer_id k)) now
      (option_list (overdue_row <$> oldest_overdue db (KeyRow.consumer_id k) (format_ts now))) }.

Lemma describes_unique db now k cfg cfg' : describes db now k cfg → describes db now k cfg' → cfg = cfg'.
Proof.
  destruct cfg as [c n m e s ms], cfg' as [c' n' m' e' s' ms']. intros [A1 A2 A3 A4 A5 A6] [B1 B2 B3 B4 B5 B6]. cbn in *.
  assert (ms = ms') as <-; [| congruence]. apply map_eq. intros i.
  specialize (A5 i). specialize (B5 i). unfold PartnerRuntimeConfig.pricing_for in *. cbn in *. congruence.
Qed.

Lemma config_row_describes db now k :
  describes db now k (config_row db now k (default ∅ (models_map (map_to_list (partner_models db)) !! KeyRow.consumer_id k))).
Proof.
  split; try done.
  - unfold config_row, mode_text. cbn. destruct (partner_rows db !! _) as [p|]; [| done].
    by rewrite billing_mode_parse_as_str.
  - intros m. apply models_of_partner.
Qed.

Lemma usable_consumers_NoDup db now :
  keys_wf db → NoDup ((λ p, KeyRow.consumer_id p.2) <$> filter (λ p, usable now p.2 = true) (key_rows db)).
Proof.
  intros Hwf. apply NoDup_fmap_2_strong.
  - intros [i k] [j k'] [Hu Hi]%list_elem_of_filter [Hu' Hj]%list_elem_of_filter E. cbn in *.
    apply key_rows_elem in Hi, Hj. cbn in *. apply andb_true_iff in Hu as [Hu _], Hu' as [Hu' _].
    assert (i = j) as <- by (by eapply (kw_active db Hwf)). congruence.
  - eapply sublist_NoDup; [apply NoDup_map_to_list | apply sublist_filter].
Qed.

Lemma usable_hashes_NoDup db now :
  keys_wf db → NoDup ((λ p, KeyRow.key_hash p.2) <$> filter (λ p, usable now p.2 = true) (key_rows db)).
Proof.
  intros Hwf. apply NoDup_fmap_2_strong.
  - intros [i k] [j k'] [_ Hi]%list_elem_of_filter [_ Hj]%list_elem_of_filter E. cbn in *.
    apply key_rows_elem in Hi, Hj. cbn in *. assert (i = j) as <- by (by eapply (kw_hash db Hwf)). congruence.
  - eapply sublist_NoDup; [apply NoDup_map_to_list | apply sublist_filter].
Qed.

(** What the four queries collect is one entry per usable key, each describing
    that key's partner. *)
Lemma load_active_spec db now h cfg :
  keys_wf db →
  (h, cfg) ∈ load_active db now ↔
  ∃ id k, api_keys db !! id = Some k ∧ KeyRow.key_hash k = h ∧ usable (format_ts now) k = true
          ∧ describes (portal db) now k cfg.
Proof.
  intros Hwf. unfold load_active. rewrite load_rows_map.
  2:{ rewrite merge_sort_Permutation. by apply usable_consumers_NoDup. }
  rewrite merge_sort_Permutation, list_elem_of_fmap. split.
  - intros ([i k] & [= -> ->] & [Hu Hi]%list_elem_of_filter). apply key_rows_elem in Hi. cbn in *.
    exists i, k. split_and!; try done. apply config_row_describes.
  - intros (i & k & Hi & <- & Hu & Hd). exists (i, k). split.
    + cbn. f_equal. eapply describes_unique; [exact Hd | apply config_row_describes].
    + apply list_elem_of_filter. split; [done |]. by apply key_rows_elem.
Qed.

Lemma load_active_hashes_NoDup db now : keys_wf db → NoDup (load_active db now).*1.
Proof.
  intros Hwf. unfold load_active. rewrite load_rows_map.
  2:{ rewrite merge_sort_Permutation. by apply usable_consumers_NoDup. }
  rewrite <- list_fmap_compose. cbn. rewrite merge_sort_Permutation. by apply usable_hashes_NoDup.
Qed.

Lemma snapshot_get db now h cfg :
  keys_wf db →
  PartnerSnapshot.get (PartnerSnapshot.from_rows (load_active db now)) h = Some cfg ↔
  ∃ id k, api_keys db !! id = Some k ∧ KeyRow.key_hash k = h ∧ usable (format_ts now) k = true
          ∧ describes (portal db) now k cfg.
Proof.
  intros Hwf. rewrite from_rows_get by (by apply load_active_hashes_NoDup). by apply load_active_spec.
Qed.
End Snapshot.
