(* ===== verification/KeyLifecycle.v ===== *)
(** * What the key store promises ([src/src/apikeys/store.rs], [src/src/apikeys/refresher.rs])

    Authentication answers from the database as of the last refresh; issuing,
    rotating and revoking a key are all or nothing and take effect at once;
    suspension is what the statements say. Then the poller, whose refresh is two
    steps that others may interleave with. *)

From stdpp Require Import base strings list gmap numbers sorting fin_maps.
From Stdlib Require Import Ascii ZArith Lia.
From S2P Require Import Prelude Utf8 Crypto TimeLib Calendar Timefmt Pricing Period Status Partner LedgerTypes Sql Rollup Statements BillingStore PartnerStore ApiKeys.

Local Open Scope Z_scope.

(** ** Suspension in the snapshot *)
Section Suspension.
Context `{TimeLaws}.

(** Deadlines are stored in the ledger's fixed-width form. *)
Definition deadlines_stored (db : StoreDb) : Prop :=
  ∀ i s due, daily_statements (billing db) !! i = Some s → Statement.due_at s = Some due →
    ∃ t, ledger_instant t ∧ due = format_ts t.

(** A statement that justifies suspending [consumer] at [now]. *)
Definition unpaid_past_due (consumer : string) (now : OffsetDateTime) (s : Statement.t) : Prop :=
  Statement.consumer_id s = consumer ∧ Statement.billing_mode s = "invoice"%string ∧ Statement.paid_at s = None
  ∧ Statement.incomplete_usage_count s = 0 ∧ 0 < Statement.total_amount_micro_usd s
  ∧ ∃ due, Statement.due_at s = Some (format_ts due) ∧ ledger_instant due
           ∧ unix_timestamp_nanos due ≤ unix_timestamp_nanos now.

Lemma str_leb_format_ts a b : ledger_instant a → ledger_instant b →
  str_leb (format_ts a) (format_ts b) = true ↔ unix_timestamp_nanos a ≤ unix_timestamp_nanos b.
Proof.
  intros Ha Hb. unfold str_leb. rewrite negb_true_iff, <- not_true_iff_false, format_ts_lt by done. lia.
Qed.

Lemma is_Some_b_false {A} (o : option A) : negb (is_Some_b o) = true ↔ o = None.
Proof. by destruct o. Qed.

Lemma overdue_invoice_spec db now consumer i s :
  deadlines_stored db → ledger_instant now → daily_statements (billing db) !! i = Some s →
  overdue_invoice consumer (format_ts now) s = true ↔ unpaid_past_due consumer now s.
Proof.
  intros Hdl Hnow Hs. unfold overdue_invoice, unpaid_past_due.
  rewrite !andb_true_iff, !String.eqb_eq, Z.eqb_eq, Z.ltb_lt, is_Some_b_false.
  destruct (Statement.due_at s) as [d|] eqn:Ed; [| naive_solver].
  destruct (Hdl i s d Hs Ed) as (t & Ht & ->). rewrite str_leb_format_ts by done. split.
  - intros [[[[[? ?] ?] ?] ?] ?]. split_and!; try done. by exists t.
  - intros (?&?&?&?&?& due & [= E] & Hdue & Hle). split_and!; try done.
    rewrite <- str_leb_format_ts by done. rewrite E. by apply str_leb_format_ts.
Qed.

Lemma oldest_overdue_None db c now :
  oldest_overdue db c now = None ↔
  ∀ i s, daily_statements (billing db) !! i = Some s → overdue_invoice c now s = false.
Proof.
  unfold oldest_overdue. set (l := filter _ _).
  assert (merge_sort due_le l = [] ↔ l = []) as Hnil.
  { split; intros E; [| by rewrite E]. apply Permutation_nil. by rewrite <- E, merge_sort_Permutation. }
  assert (l = [] ↔ ∀ i s, daily_statements (billing db) !! i = Some s → overdue_invoice c now s = false) as <-.
  { unfold l. split.
    - intros E i s Hs. apply not_true_is_false. intros Ho.
      apply (not_elem_of_nil (i, s)). rewrite <- E. apply list_elem_of_filter. by rewrite statement_rows_elem.
    - intros Hall. destruct (filter _ _) as [|[i s] l'] eqn:E; [done |]. exfalso.
      assert ((i, s) ∈ filter (λ p, overdue_invoice c now p.2 = true) (statement_rows db)) as Hin by (rewrite E; by left).
      apply list_elem_of_filter in Hin as [Ho Hin%statement_rows_elem]. cbn in *. by rewrite (Hall i s Hin) in Ho. }
  rewrite <- Hnil. by destruct (merge_sort due_le l).
Qed.

Lemma oldest_overdue_Some db c now i s :
  oldest_overdue db c now = Some (i, s) →
  daily_statements (billing db) !! i = Some s ∧ overdue_invoice c now s = true.
Proof.
  unfold oldest_overdue. intros E%head_Some_elem_of. rewrite merge_sort_Permutation in E.
  by apply list_elem_of_filter in E as [? ?%statement_rows_elem].
Qed.

(** The one row the query hands over decides as the whole table would. *)
Lemma suspended_spec db now k cfg :
  deadlines_stored db → ledger_instant now → describes db now k cfg →
  PartnerRuntimeConfig.suspended cfg = true ↔
  mode_text db (KeyRow.consumer_id k) = "invoice"%string
  ∧ ∃ i s, daily_statements (billing db) !! i = Some s ∧ unpaid_past_due (KeyRow.consumer_id k) now s.
Proof.
  intros Hdl Hnow Hd. unfold PartnerRuntimeConfig.suspended. rewrite (de_status _ _ _ _ Hd). unfold status_for.
  destruct (String.eqb_spec (mode_text db (KeyRow.consumer_id k)) "invoice") as [->|Hm]; cbn [negb].
  2:{ split; [done | by intros [? _]]. }
  destruct (oldest_overdue db _ _) as [[i s]|] eqn:Eo.
  - apply oldest_overdue_Some in Eo as [Hs Ho].
    apply (overdue_invoice_spec db now _ i s Hdl Hnow Hs) in Ho as Hu. split; [intros _; eauto |]. intros _.
    destruct Hu as (_ & _ & _ & Hi & Ht & due & Hdue & Hld & Hle).
    change (option_list (overdue_row <$> Some (i, s))) with [overdue_row (i, s)]. rewrite filter_cons_True by done. cbn.
    unfold suspends. cbn. rewrite Hdue. cbn. destruct (parse_ts_stored due Hld) as (t' & -> & Et).
    unfold odt_lt. rewrite Et. destruct (Z.ltb_spec (unix_timestamp_nanos now) (unix_timestamp_nanos due)); [lia | done].
  - cbn. split; [done |]. intros [_ (i & s & Hs & Hu)].
    apply (overdue_invoice_spec db now _ i s Hdl Hnow Hs) in Hu.
    by rewrite (proj1 (oldest_overdue_None _ _ _) Eo i s Hs) in Hu.
Qed.
End Suspension.

(** ** The store *)
Section Store.
Context `{TimeLaws, Digests}.

(** A call the database serves: no error at [BEGIN], [COMMIT] or the reload. *)
Definition served (io : ApiKeyStore.Io) : Prop :=
  ApiKeyStore.begin io = None ∧ ApiKeyStore.commit io = None ∧ ApiKeyStore.read io = None.

(** The snapshot is the database as of [now]. *)
Definition fresh (self : ApiKeyStore.t) (now : OffsetDateTime) : Prop :=
  ApiKeyStore.snapshot self = PartnerSnapshot.from_rows (load_active (ApiKeyStore.db self) now).

Lemma refresh_fresh self io :
  ApiKeyStore.read io = None →
  fresh (ApiKeyStore.refresh self io).1.1 (ApiKeyStore.refresh_now io)
  ∧ ApiKeyStore.db (ApiKeyStore.refresh self io).1.1 = ApiKeyStore.db self
  ∧ ApiKeyStore.secret (ApiKeyStore.refresh self io).1.1 = ApiKeyStore.secret self.
Proof. unfold ApiKeyStore.refresh. by intros ->. Qed.

Lemma refresh_db self io :
  ApiKeyStore.db (ApiKeyStore.refresh self io).1.1 = ApiKeyStore.db self
  ∧ ApiKeyStore.secret (ApiKeyStore.refresh self io).1.1 = ApiKeyStore.secret self.
Proof. unfold ApiKeyStore.refresh. by destruct (ApiKeyStore.read io). Qed.

Lemma authenticate_fresh self now pt cfg :
  keys_wf (ApiKeyStore.db self) → fresh self now →
  ApiKeyStore.authenticate self pt = Some cfg ↔
  ∃ id k, api_keys (ApiKeyStore.db self) !! id = Some k
    ∧ KeyRow.key_hash k = derive_key_hash (ApiKeyStore.secret self) pt
    ∧ usable (format_ts now) k = true ∧ describes (portal (ApiKeyStore.db self)) now k cfg.
Proof. intros Hwf Hf. unfold ApiKeyStore.authenticate. rewrite Hf. by apply snapshot_get. Qed.

Lemma authenticate_row self now pt id k :
  keys_wf (ApiKeyStore.db self) → fresh self now →
  api_keys (ApiKeyStore.db self) !! id = Some k →
  KeyRow.key_hash k = derive_key_hash (ApiKeyStore.secret self) pt →
  if usable (format_ts now) k
  then ∃ cfg, ApiKeyStore.authenticate self pt = Some cfg ∧ describes (portal (ApiKeyStore.db self)) now k cfg
  else ApiKeyStore.authenticate self pt = None.
Proof.
  intros Hwf Hf Hk Hh. destruct (usable (format_ts now) k) eqn:Hu.
  - eexists. split; [apply (authenticate_fresh self now); [done..|] | apply config_row_describes].
    exists id, k. split_and!; try done. apply config_row_describes.
  - destruct (ApiKeyStore.authenticate self pt) as [cfg|] eqn:Ea; [| done].
    apply (authenticate_fresh self now) in Ea as (j & k' & Hk' & Eh & Hu' & _); [| done..].
    assert (id = j) as <- by (apply (kw_hash _ Hwf id j k k' Hk Hk'); congruence). congruence.
Qed.

(** The mode a consumer is billed in: its row's, and by invoice without one. *)
Definition billed_by_invoice (db : StoreDb) (consumer : string) : Prop :=
  match partner_rows db !! consumer with Some p => Partner.billing_mode p = BillingMode.Invoice | None => True end.

Lemma mode_text_invoice db consumer : mode_text db consumer = "invoice"%string ↔ billed_by_invoice db consumer.
Proof.
  unfold mode_text, billed_by_invoice. destruct (partner_rows db !! consumer) as [p|]; [| done].
  by destruct (Partner.billing_mode p).
Qed.

Lemma usable_spec now k :
  usable now k = true ↔
  KeyRow.status k = "active"%string ∧ ∀ expiry, KeyRow.expires_at k = Some expiry → str_ltb now expiry = true.
Proof.
  unfold usable. rewrite andb_true_iff, is_active_row_spec.
  destruct (KeyRow.expires_at k); [| naive_solver]. split; [intros [? ?]; split; [done | by intros ? [= <-]] | naive_solver].
Qed.

(** C22. After a reload, a plaintext authenticates exactly when it hashes to a key
    whose status is [active] and whose expiry, if it has one, is later than the
    reload: in the text order of the ledger's timestamps, which on stored
    instants is the order of the instants. It then authenticates as the partner
    that key belongs to, with its models at their prices, its mode and address;
    and the partner is suspended exactly when it is billed by invoice and has a
    complete, unpaid invoice of more than nothing whose deadline has passed. *)
Theorem authentication_exact (self : ApiKeyStore.t) (io : ApiKeyStore.Io) (pt : string) (cfg : PartnerRuntimeConfig.t)
    (Hwf : keys_wf (ApiKeyStore.db self)) (Hread : ApiKeyStore.read io = None) :
  let now := ApiKeyStore.refresh_now io in
  let db := ApiKeyStore.db self in
  ApiKeyStore.authenticate (ApiKeyStore.refresh self io).1.1 pt = Some cfg ↔
  ∃ id k, api_keys db !! id = Some k ∧ KeyRow.key_hash k = derive_key_hash (ApiKeyStore.secret self) pt
    ∧ KeyRow.status k = "active"%string
    ∧ (∀ expiry, KeyRow.expires_at k = Some expiry → str_ltb (format_ts now) expiry = true)
    ∧ (∀ expiry, KeyRow.expires_at k = Some (format_ts expiry) → ledger_instant now → ledger_instant expiry →
        unix_timestamp_nanos now < unix_timestamp_nanos expiry)
    ∧ describes (portal db) now k cfg
    ∧ (deadlines_stored (portal db) → ledger_instant now →
        PartnerRuntimeConfig.suspended cfg = true ↔
        billed_by_invoice (portal db) (KeyRow.consumer_id k)
        ∧ ∃ i s, daily_statements (billing (portal db)) !! i = Some s ∧ unpaid_past_due (KeyRow.consumer_id k) now s).
Proof.
  destruct (refresh_fresh self io Hread) as (Hf & Hdb & Hsec).
  cbv zeta. rewrite (authenticate_fresh _ _ _ _ ltac:(by rewrite Hdb) Hf), Hdb, Hsec. split.
  - intros (id & k & Hk & Hh & [Ha He]%usable_spec & Hd). exists id, k. split_and!; try done.
    + intros e Ee Hn Hl. apply format_ts_lt; [done.. |]. by apply He.
    + intros. rewrite <- mode_text_invoice. by apply suspended_spec.
  - intros (id & k & Hk & Hh & Ha & He & _ & Hd & _). exists id, k. by rewrite usable_spec.
Qed.

(** *** One write *)
Lemma mutate_domain_cases {T} self io (f : KeyDb → result (KeyDb * Outcome T) Mutation) :
  let '(self', res) := ApiKeyStore.mutate_domain self io f in
  match res with
  | Err _ => self' = self
  | Ok out => ∃ db', f (ApiKeyStore.db self) = Ok (db', out) ∧ ApiKeyStore.db self' = db'
      ∧ ApiKeyStore.secret self' = ApiKeyStore.secret self
      ∧ (ApiKeyStore.read io = None → fresh self' (ApiKeyStore.refresh_now io))
  end.
Proof.
  unfold ApiKeyStore.mutate_domain. destruct (ApiKeyStore.begin io); [done |].
  destruct (f (ApiKeyStore.db self)) as [[db' out]|[]]; [| done | done].
  destruct (ApiKeyStore.commit io); [done |].
  set (s1 := ApiKeyStore.mk db' (ApiKeyStore.secret self) (ApiKeyStore.snapshot self)).
  destruct (refresh_db s1 io) as [E1 E2]. exists db'. split_and!; try done.
  intros Hr. apply (refresh_fresh s1 io Hr).
Qed.

Lemma mutate_domain_served {T} self io (f : KeyDb → result (KeyDb * Outcome T) Mutation) :
  served io →
  (ApiKeyStore.mutate_domain self io f).2 =
    match f (ApiKeyStore.db self) with
    | Ok (_, out) => Ok out
    | Err (Sqlite e) => Err (DatabaseError e)
    | Err (Domain e) => Err e
    end.
Proof.
  intros (Hb & Hc & _). unfold ApiKeyStore.mutate_domain. rewrite Hb, Hc.
  by destruct (f (ApiKeyStore.db self)) as [[db' out]|[]].
Qed.

Lemma require_text_Ok field value t : require_text field value = Ok t ↔ t = trim value ∧ t ≠ ""%string.
Proof.
  unfold require_text. pose proof (str_is_empty_spec (trim value)).
  destruct (str_is_empty (trim value)); split; try done; [naive_solver | | naive_solver].
  intros [= <-]. split; [done |]. intros E. apply H2 in E. done.
Qed.

(** The row a create writes. *)
Definition issued (self : ApiKeyStore.t) (name consumer_id : string) (expires_at : option OffsetDateTime)
    (plaintext : string) (now : OffsetDateTime) : NewKey.t :=
  NewKey.mk (trim name) (trim consumer_id) (key_prefix_of plaintext)
    (derive_key_hash (ApiKeyStore.secret self) plaintext) (format_ts now) (format_ts <$> expires_at).

(** Issuing a key is all or nothing. On a database that serves the call it
    succeeds exactly when the three texts are not blank, the partner has no
    live key and the hash is new; a live key is reported as such and nothing
    else is; on success the table gains exactly the new live row and the
    plaintext, stored nowhere and not trimmed, authenticates at once unless its
    expiry has already passed. *)
Theorem create_key_exact (self : ApiKeyStore.t) (name consumer_id : string) (expires_at : option OffsetDateTime)
    (plaintext : string) (now : OffsetDateTime) (io : ApiKeyStore.Io)
    (Hwf : keys_wf (ApiKeyStore.db self)) (Hio : served io) :
  let '(self', res) := ApiKeyStore.create_with_plaintext self name consumer_id expires_at plaintext now io in
  let db := ApiKeyStore.db self in
  let key := issued self name consumer_id expires_at plaintext now in
  let valid := trim name ≠ ""%string ∧ trim consumer_id ≠ ""%string ∧ trim plaintext ≠ ""%string in
  (is_ok res = true ↔
     valid ∧ active_key_exists db (trim consumer_id) = false
     ∧ ∀ i k, api_keys db !! i = Some k → KeyRow.key_hash k ≠ NewKey.hash key)
  ∧ (∀ c, res = Err (AlreadyActive c) ↔ valid ∧ c = trim consumer_id ∧ active_key_exists db c = true)
  ∧ (if is_ok res
     then api_keys (ApiKeyStore.db self') = <[next_key_id db := new_row key]> (api_keys db)
          ∧ keys_wf (ApiKeyStore.db self')
          ∧ if usable (format_ts (ApiKeyStore.refresh_now io)) (new_row key)
            then ∃ cfg, ApiKeyStore.authenticate self' plaintext = Some cfg
                        ∧ describes (portal db) (ApiKeyStore.refresh_now io) (new_row key) cfg
            else ApiKeyStore.authenticate self' plaintext = None
     else self' = self).
Proof.
  unfold ApiKeyStore.create_with_plaintext.
  destruct (require_text "name" name) as [n|e] eqn:En.
  2:{ assert (trim name = ""%string) as Hn.
      { unfold require_text in En. destruct (str_is_empty (trim name)) eqn:E; [| done]. by apply str_is_empty_spec. }
      unfold require_text in En. rewrite Hn in En. injection En as <-. split_and!; naive_solver. }
  apply require_text_Ok in En as [-> Hn].
  destruct (require_text "consumer_id" consumer_id) as [c|e] eqn:Ec.
  2:{ assert (trim consumer_id = ""%string) as Hc.
      { unfold require_text in Ec. destruct (str_is_empty (trim consumer_id)) eqn:E; [| done]. by apply str_is_empty_spec. }
      unfold require_text in Ec. rewrite Hc in Ec. injection Ec as <-. split_and!; naive_solver. }
  apply require_text_Ok in Ec as [-> Hc].
  pose proof (str_is_empty_spec (trim plaintext)) as Hp. destruct (str_is_empty (trim plaintext)); [split_and!; naive_solver |].
  assert (trim plaintext ≠ ""%string) as Hp' by (intros E; by apply Hp in E).
  fold (issued self name consumer_id expires_at plaintext now). set (key := issued _ _ _ _ _ _).
  pose proof (mutate_domain_cases self io (create_body key)) as Hcases.
  pose proof (mutate_domain_served self io (create_body key) Hio) as Hres.
  destruct (ApiKeyStore.mutate_domain self io (create_body key)) as [self' r]. cbn [snd] in Hres.
  rewrite (create_body_cases _ _ Hwf) in Hres, Hcases. cbv zeta.
  change (NewKey.consumer_id key) with (trim consumer_id) in *.
  destruct (insert_key (ApiKeyStore.db self) key) as [db'|e] eqn:Ei.
  - subst r. destruct Hcases as (db1 & [= <-] & Hdb & Hsec & Hfresh).
    destruct (insert_key_Ok _ _ _ Hwf Ei) as (Hwf' & Ed & Hnone & Hh & Ha).
    split_and!; [done | | ].
    + intros c. split; [done |]. intros (_ & -> & E). unfold key, issued in Ha. cbn in Ha. congruence.
    + cbn [is_ok]. split_and!; [by rewrite Hdb, Ed | by rewrite Hdb |].
      destruct Hio as (_ & _ & Hr). specialize (Hfresh Hr).
      pose proof (authenticate_row self' _ plaintext (next_key_id (ApiKeyStore.db self)) (new_row key)
        ltac:(by rewrite Hdb) Hfresh) as Hauth.
      rewrite Hdb, Hsec, Ed in Hauth. cbn in Hauth. apply Hauth; [by rewrite lookup_insert_eq | done].
  - destruct (insert_key_refused _ _ _ Ei) as [-> Hconf%key_conflict_spec].
    change (NewKey.consumer_id key) with (trim consumer_id) in *.
    destruct (active_key_exists (ApiKeyStore.db self) (trim consumer_id)) eqn:Ea; subst r; cbn [is_ok].
    + split_and!; [split; [done | by intros (_ & ? & _)] | | done]. intros c. split; [by intros [= <-] | by intros (_ & -> & _)].
    + split_and!; [split; [done |] | | done].
      * intros (_ & _ & Hh). destruct Hconf as [(i & k & Hk & E)|]; [| done]. exfalso. by apply (Hh i k Hk).
      * intros c. split; [done |]. intros (_ & -> & ?). congruence.
Qed.

Lemma mutate_cases {T} self io (f : KeyDb → result (KeyDb * Outcome T) SqlError) :
  let '(self', res) := ApiKeyStore.mutate self io f in
  match res with
  | Err _ => self' = self
  | Ok out => ∃ db', f (ApiKeyStore.db self) = Ok (db', out) ∧ ApiKeyStore.db self' = db'
      ∧ ApiKeyStore.secret self' = ApiKeyStore.secret self
      ∧ (ApiKeyStore.read io = None → fresh self' (ApiKeyStore.refresh_now io))
  end.
Proof.
  unfold ApiKeyStore.mutate.
  pose proof (mutate_domain_cases self io (λ db, match f db with Ok r => Ok r | Err e => Err (Sqlite e) end)) as H'.
  destruct (ApiKeyStore.mutate_domain self io _) as [self' [out|e]]; [| done].
  destruct H' as (db' & E & H'). exists db'. split; [| done]. destruct (f (ApiKeyStore.db self)); [by injection E as -> | done].
Qed.

Lemma mutate_served {T} self io (f : KeyDb → result (KeyDb * Outcome T) SqlError) :
  served io →
  (ApiKeyStore.mutate self io f).2 =
    match f (ApiKeyStore.db self) with Ok (_, out) => Ok out | Err e => Err (DatabaseError e) end.
Proof.
  intros Hio. unfold ApiKeyStore.mutate. rewrite mutate_domain_served by done. by destruct (f _) as [[]|].
Qed.

(** A plaintext whose key is not live does not authenticate after a reload. *)
Lemma authenticate_dead self now pt id k :
  keys_wf (ApiKeyStore.db self) → fresh self now →
  api_keys (ApiKeyStore.db self) !! id = Some k →
  KeyRow.key_hash k = derive_key_hash (ApiKeyStore.secret self) pt →
  is_active_row k = false → ApiKeyStore.authenticate self pt = None.
Proof.
  intros Hwf Hf Hk Hh Ha. pose proof (authenticate_row self now pt id k Hwf Hf Hk Hh) as Hr.
  unfold usable in Hr. by rewrite Ha in Hr.
Qed.

Lemma rotate_exact (self : ApiKeyStore.t) (id : Z) (entropy : result (list Z) string) (now : OffsetDateTime)
    (io : ApiKeyStore.Io) (Hwf : keys_wf (ApiKeyStore.db self)) :
  let '(self', res) := ApiKeyStore.rotate self id entropy now io in
  let db := ApiKeyStore.db self in
  match res with
  | Err _ => ApiKeyStore.db self' = db
  | Ok (row, pt) =>
      ∃ k, api_keys db !! id = Some k ∧ is_active_row k = true
      ∧ generate_plaintext entropy = Ok pt
      ∧ let key := successor k (derive_key_hash (ApiKeyStore.secret self) pt) (key_prefix_of pt) (format_ts now) in
        row = view (next_key_id db) (new_row key)
      ∧ api_keys (ApiKeyStore.db self') =
          <[next_key_id db := new_row key]> (<[id := revoked_row (format_ts now) k]> (api_keys db))
      ∧ keys_wf (ApiKeyStore.db self')
      ∧ (∀ j x, api_keys (ApiKeyStore.db self') !! j = Some x → is_active_row x = true →
           KeyRow.consumer_id x = KeyRow.consumer_id k → j = next_key_id db)
      ∧ (ApiKeyStore.read io = None →
           (ApiKeyStore.authenticate self' pt = None ↔ usable (format_ts (ApiKeyStore.refresh_now io)) (new_row key) = false)
           ∧ ∀ old, derive_key_hash (ApiKeyStore.secret self) old = KeyRow.key_hash k →
               ApiKeyStore.authenticate self' old = None)
  end.
Proof.
  unfold ApiKeyStore.rotate. destruct (generate_plaintext entropy) as [pt|e]; [| done].
  set (hash := derive_key_hash (ApiKeyStore.secret self) pt).
  pose proof (mutate_cases self io (rotate_body id hash (key_prefix_of pt) (format_ts now))) as Hm.
  destruct (ApiKeyStore.mutate self io _) as [self' [out|e]]; cbv zeta; [| by rewrite Hm].
  destruct Hm as (db' & Eb & Hdb & Hsec & Hfresh).
  pose proof (rotate_body_cases (ApiKeyStore.db self) id hash (key_prefix_of pt) (format_ts now) Hwf) as Hc.
  destruct (api_keys (ApiKeyStore.db self) !! id) as [k|] eqn:Ek.
  2:{ rewrite Hc in Eb. injection Eb as <- <-. cbn. done. }
  destruct (is_active_row k) eqn:Ak.
  2:{ rewrite Hc in Eb. injection Eb as <- <-. cbn. unfold require_active. rewrite view_status, Ak. done. }
  destruct Hc as [[_ Hc]|(Hh & Hc & Hwf')]; rewrite Hc in Eb; [done |]. injection Eb as <- <-. cbn.
  unfold require_active. rewrite view_status, Ak. cbn. exists k.
  assert (next_key_id (ApiKeyStore.db self) ≠ id) as Hne by (pose proof (kw_ids _ Hwf id ltac:(eauto)); lia).
  rewrite Hdb. cbn. split_and!; try done.
  - intros j x Hx Ax Ec. apply lookup_insert_Some in Hx as [[<- _]|[_ Hx]]; [done |].
    apply lookup_insert_Some in Hx as [[<- <-]|[Hj Hx]]; [done |].
    exfalso. apply Hj. by apply (kw_active _ Hwf id j k x Ek Hx Ak Ax).
  - intros Hr. specialize (Hfresh Hr). split.
    + pose proof (authenticate_row self' _ pt (next_key_id (ApiKeyStore.db self)) 
        (new_row (successor k hash (key_prefix_of pt) (format_ts now))) ltac:(by rewrite Hdb) Hfresh) as Hauth.
      rewrite Hdb, Hsec in Hauth. specialize (Hauth (lookup_insert_eq _ _ _) eq_refl).
      destruct (usable (format_ts (ApiKeyStore.refresh_now io)) _); [destruct Hauth as (cfg & -> & _); done | done].
    + intros old Ho. apply (authenticate_dead self' _ old id (revoked_row (format_ts now) k) ltac:(by rewrite Hdb) Hfresh).
      * rewrite Hdb. cbn. by rewrite lookup_insert_ne, lookup_insert_eq.
      * rewrite Hsec. cbn. done.
      * done.
Qed.

(** Rotation leaves a partner with exactly one live key. Either nothing changed
    in the table, or the old key is revoked and its successor, with the same
    name, owner and expiry, is the partner's only live one; then the new
    plaintext authenticates at once (unless the expiry it inherits has passed)
    and the old one no longer does. *)
Theorem rotation_keeps_one_live_key (self : ApiKeyStore.t) (id : Z) (entropy : result (list Z) string)
    (now : OffsetDateTime) (io : ApiKeyStore.Io) (Hwf : keys_wf (ApiKeyStore.db self)) :
  let '(self', res) := ApiKeyStore.rotate self id entropy now io in
  let db := ApiKeyStore.db self in
  match res with
  | Err _ => ApiKeyStore.db self' = db
  | Ok (row, pt) =>
      ∃ k, api_keys db !! id = Some k ∧ is_active_row k = true
      ∧ generate_plaintext entropy = Ok pt
      ∧ let key := successor k (derive_key_hash (ApiKeyStore.secret self) pt) (key_prefix_of pt) (format_ts now) in
        row = view (next_key_id db) (new_row key)
      ∧ api_keys (ApiKeyStore.db self') =
          <[next_key_id db := new_row key]> (<[id := revoked_row (format_ts now) k]> (api_keys db))
      ∧ keys_wf (ApiKeyStore.db self')
      ∧ (∀ j x, api_keys (ApiKeyStore.db self') !! j = Some x → is_active_row x = true →
           KeyRow.consumer_id x = KeyRow.consumer_id k → j = next_key_id db)
      ∧ (ApiKeyStore.read io = None →
           (ApiKeyStore.authenticate self' pt = None ↔ usable (format_ts (ApiKeyStore.refresh_now io)) (new_row key) = false)
           ∧ ∀ old, derive_key_hash (ApiKeyStore.secret self) old = KeyRow.key_hash k →
               ApiKeyStore.authenticate self' old = None)
  end.
Proof. by apply rotate_exact. Qed.

(** Revoking takes effect at once and is idempotent: the row says so, no
    plaintext of the key authenticates after the reload, and revoking again
    returns the same row and changes nothing. *)
Theorem revocation_takes_effect (self : ApiKeyStore.t) (id : Z) (now now2 : OffsetDateTime) (io io2 : ApiKeyStore.Io)
    (Hwf : keys_wf (ApiKeyStore.db self)) (Hio : served io) (Hio2 : served io2) :
  let '(self', res) := ApiKeyStore.revoke self id now io in
  match api_keys (ApiKeyStore.db self) !! id with
  | None => res = Err (NotFound id) ∧ ApiKeyStore.db self' = ApiKeyStore.db self
  | Some k =>
      let k' := if is_active_row k then revoked_row (format_ts now) k else k in
      res = Ok (view id k') ∧ ApiKeyRow.status (view id k') = KeyStatus.Revoked
      ∧ api_keys (ApiKeyStore.db self') = <[id := k']> (api_keys (ApiKeyStore.db self))
      ∧ (∀ pt, derive_key_hash (ApiKeyStore.secret self) pt = KeyRow.key_hash k → ApiKeyStore.authenticate self' pt = None)
      ∧ (ApiKeyStore.revoke self' id now2 io2).2 = res
      ∧ ApiKeyStore.db (ApiKeyStore.revoke self' id now2 io2).1 = ApiKeyStore.db self'
  end.
Proof.
  assert (∀ s n o, served o → keys_wf (ApiKeyStore.db s) → api_keys (ApiKeyStore.db s) !! id = None →
    let '(s', r) := ApiKeyStore.revoke s id n o in r = Err (NotFound id) ∧ ApiKeyStore.db s' = ApiKeyStore.db s) as Hmissing.
  { intros s n o Ho Hs Hn. unfold ApiKeyStore.revoke.
    pose proof (mutate_cases s o (revoke_body id (format_ts n))) as Hm.
    pose proof (mutate_served s o (revoke_body id (format_ts n)) Ho) as Hr.
    destruct (ApiKeyStore.mutate s o _) as [s' r]. cbn [snd] in Hr. rewrite (revoke_body_cases _ _ _ Hs), Hn in Hr, Hm.
    subst r. destruct Hm as (d & [= <-] & -> & _). done. }
  assert (∀ s n o k, served o → keys_wf (ApiKeyStore.db s) → api_keys (ApiKeyStore.db s) !! id = Some k →
    let '(s', r) := ApiKeyStore.revoke s id n o in
    let k' := if is_active_row k then revoked_row (format_ts n) k else k in
    r = Ok (view id k') ∧ api_keys (ApiKeyStore.db s') = <[id := k']> (api_keys (ApiKeyStore.db s))
    ∧ keys_wf (ApiKeyStore.db s') ∧ fresh s' (ApiKeyStore.refresh_now o) ∧ ApiKeyStore.secret s' = ApiKeyStore.secret s
    ∧ (is_active_row k = false → ApiKeyStore.db s' = ApiKeyStore.db s)) as Hsome.
  { intros s n o k Ho Hs Hk. unfold ApiKeyStore.revoke.
    pose proof (mutate_cases s o (revoke_body id (format_ts n))) as Hm.
    pose proof (mutate_served s o (revoke_body id (format_ts n)) Ho) as Hr.
    destruct (ApiKeyStore.mutate s o _) as [s' r]. cbn [snd] in Hr. rewrite (revoke_body_cases _ _ _ Hs), Hk in Hr, Hm.
    destruct Ho as (_ & _ & Hread).
    destruct (is_active_row k); subst r; destruct Hm as (d & [= <-] & Hdb & Hsec & Hf); cbn zeta;
      (split_and!; [done | | | by apply Hf | done | done]).
    - rewrite Hdb. apply map_eq. intros i. destruct (decide (id = i)) as [<-|].
      + by rewrite (with_key_lookup _ _ _ k), lookup_insert_eq.
      + unfold with_key. cbn. by rewrite lookup_alter_ne, lookup_insert_ne.
    - rewrite Hdb. by apply revoked_wf.
    - rewrite Hdb. by rewrite insert_id.
    - by rewrite Hdb. }
  destruct (api_keys (ApiKeyStore.db self) !! id) as [k|] eqn:Ek; [| by apply Hmissing].
  specialize (Hsome self now io k Hio Hwf Ek) as Hfirst.
  destruct (ApiKeyStore.revoke self id now io) as [self' res]. cbn zeta in *.
  set (k' := if is_active_row k then _ else k) in *.
  assert (is_active_row k' = false ∧ KeyRow.key_hash k' = KeyRow.key_hash k) as [Ha Hh]
    by (unfold k'; destruct (is_active_row k) eqn:E; [done | split; [exact E | done]]).
  destruct Hfirst as (-> & Ekeys & Hwf' & Hf & Hsec & _).
  assert (api_keys (ApiKeyStore.db self') !! id = Some k') as Ek' by (rewrite Ekeys; apply lookup_insert_eq).
  specialize (Hsome self' now2 io2 k' Hio2 Hwf' Ek'). destruct (ApiKeyStore.revoke self' id now2 io2) as [self'' res2].
  cbn zeta in Hsome. rewrite Ha in Hsome. destruct Hsome as (-> & _ & _ & _ & _ & Hsame).
  split_and!; try done; [unfold view; cbn; by rewrite Ha | | by apply Hsame].
  intros pt Hpt. apply (authenticate_dead self' _ pt id k' Hwf' Hf Ek'); [congruence | done].
Qed.

(** A key past its expiry is still the partner's live key: a new one is refused
    with the advice to rotate it, and a rotation hands out a plaintext that
    does not authenticate either, because it keeps the expiry. *)
Theorem expired_key_locks_out (self : ApiKeyStore.t) (id : Z) (k : KeyRow.t) (expiry name pt : string)
    (expires_at : option OffsetDateTime) (entropy : result (list Z) string) (now : OffsetDateTime) (io : ApiKeyStore.Io)
    (Hwf : keys_wf (ApiKeyStore.db self)) (Hio : served io)
    (Hk : api_keys (ApiKeyStore.db self) !! id = Some k) (Hactive : is_active_row k = true)
    (Hexpiry : KeyRow.expires_at k = Some expiry)
    (Hpassed : str_ltb (format_ts (ApiKeyStore.refresh_now io)) expiry = false)
    (Hname : trim name ≠ ""%string) (Hpt : trim pt ≠ ""%string)
    (Hc : trim (KeyRow.consumer_id k) = KeyRow.consumer_id k) (Hc' : KeyRow.consumer_id k ≠ ""%string) :
  (ApiKeyStore.create_with_plaintext self name (KeyRow.consumer_id k) expires_at pt now io).2
    = Err (AlreadyActive (KeyRow.consumer_id k))
  ∧ ∀ row pt', (ApiKeyStore.rotate self id entropy now io).2 = Ok (row, pt') →
      ApiKeyStore.authenticate (ApiKeyStore.rotate self id entropy now io).1 pt' = None.
Proof.
  split.
  - assert (active_key_exists (ApiKeyStore.db self) (KeyRow.consumer_id k) = true) as Ha by (apply active_key_exists_spec; eauto).
    unfold ApiKeyStore.create_with_plaintext.
    rewrite (proj2 (require_text_Ok "name" name (trim name))) by done.
    rewrite (proj2 (require_text_Ok "consumer_id" (KeyRow.consumer_id k) (KeyRow.consumer_id k))) by done.
    destruct (str_is_empty (trim pt)) eqn:E; [by apply str_is_empty_spec in E |].
    set (key := NewKey.mk _ _ _ _ _ _).
    pose proof (mutate_domain_served self io (create_body key) Hio) as Hr.
    destruct (ApiKeyStore.mutate_domain self io (create_body key)) as [self' r]. cbn [snd] in *.
    rewrite (create_body_cases _ _ Hwf) in Hr. destruct (insert_key (ApiKeyStore.db self) key) as [db'|e] eqn:Ei.
    + destruct (insert_key_Ok _ _ _ Hwf Ei) as (_ & _ & _ & _ & Hn). change (NewKey.consumer_id key) with (KeyRow.consumer_id k) in Hn. congruence.
    + change (NewKey.consumer_id key) with (KeyRow.consumer_id k) in Hr. rewrite Ha in Hr. by subst r.
  - intros row pt'. pose proof (rotate_exact self id entropy now io Hwf) as Hrot.
    destruct (ApiKeyStore.rotate self id entropy now io) as [self' res]. cbn [fst snd]. intros ->.
    destruct Hrot as (k' & Hk' & _ & _ & _ & _ & _ & _ & Hauth). assert (k' = k) as -> by congruence.
    destruct Hio as (_ & _ & Hread). apply (proj1 (Hauth Hread)). unfold usable. cbn. by rewrite Hexpiry.
Qed.
End Store.

(** ** The poller ([refresher.rs])

    A reload reads the database and then swaps the snapshot in; nothing holds
    the two together, so calls and other reloads fall in between. *)
Definition MIN_REFRESH_INTERVAL_MS : Z := 1.
Definition DEFAULT_REFRESH_INTERVAL_MS : Z := 1000.

Module ApiKeyRefresher.
Section Refresher.
Context `{TimeCrate, Digests}.

Record t : Type := mk {
  store : ApiKeyStore.t;
  interval_ms : Z;
  initial_keys : nat }.

(** [StartupError::KeySet], without the path. *)
Definition new (store : ApiKeyStore.t) (interval_ms : Z) (io : ApiKeyStore.Io) : result t ApiKeyError :=
  match ApiKeyStore.refresh store io with
  | (store', Ok count, _) => Ok (mk store' (Z.max interval_ms MIN_REFRESH_INTERVAL_MS) count)
  | (_, Err source, _) => Err source
  end.

(** [reload]: a failed one keeps the last good key set. *)
Definition reload (self : t) (io : ApiKeyStore.Io) : t :=
  mk (ApiKeyStore.refresh (store self) io).1.1 (interval_ms self) (initial_keys self).
End Refresher.
End ApiKeyRefresher.

Section Poller.
Context `{TimeLaws, Digests}.

(** A process: its store, and the reloads that have read but not yet swapped. *)
Record Node : Type := mkNode {
  store : ApiKeyStore.t;
  pending : list (list (string * PartnerRuntimeConfig.t)) }.

Definition publish (self : ApiKeyStore.t) (rows : list (string * PartnerRuntimeConfig.t)) : ApiKeyStore.t :=
  ApiKeyStore.mk (ApiKeyStore.db self) (ApiKeyStore.secret self) (PartnerSnapshot.from_rows rows).

Definition with_db (self : ApiKeyStore.t) (db : KeyDb) : ApiKeyStore.t :=
  ApiKeyStore.mk db (ApiKeyStore.secret self) (ApiKeyStore.snapshot self).

(** A refresh is a read and a swap. *)
Lemma refresh_is_load_publish self io :
  ApiKeyStore.read io = None →
  (ApiKeyStore.refresh self io).1.1 = publish self (load_active (ApiKeyStore.db self) (ApiKeyStore.refresh_now io)).
Proof. unfold ApiKeyStore.refresh. by intros ->. Qed.

Inductive node_step : Node → Node → Prop :=
  | node_commit s p db : key_step (ApiKeyStore.db s) db → node_step (mkNode s p) (mkNode (with_db s db) p)
  | node_load s p now : node_step (mkNode s p) (mkNode s (p ++ [load_active (ApiKeyStore.db s) now]))
  | node_publish s p1 rows p2 : node_step (mkNode s (p1 ++ rows :: p2)) (mkNode (publish s rows) (p1 ++ p2)).

(** Entries that are of keys in the table. *)
Definition of_keys (db : KeyDb) (rows : list (string * PartnerRuntimeConfig.t)) : Prop :=
  ∀ h cfg, (h, cfg) ∈ rows →
    ∃ id k, api_keys db !! id = Some k ∧ KeyRow.key_hash k = h
            ∧ KeyRow.consumer_id k = PartnerRuntimeConfig.consumer_id cfg.

Lemma of_keys_step db db' rows : keys_wf db → key_step db db' → of_keys db rows → of_keys db' rows.
Proof.
  intros Hwf Hstep Hrows h cfg Hin. destruct (Hrows h cfg Hin) as (id & k & Hk & Eh & Ec).
  destruct (key_step_ok _ _ Hwf Hstep) as [_ Hcarry]. destruct (Hcarry id k Hk) as (k' & Hk' & C1 & C2 & _).
  exists id, k'. split_and!; congruence.
Qed.

Record node_ok (n : Node) : Prop := {
  no_wf : keys_wf (ApiKeyStore.db (store n));
  no_snapshot : of_keys (ApiKeyStore.db (store n)) (PartnerSnapshot.entries (ApiKeyStore.snapshot (store n)));
  no_pending : Forall (of_keys (ApiKeyStore.db (store n))) (pending n) }.

Lemma entries_from_rows rows h cfg :
  (h, cfg) ∈ PartnerSnapshot.entries (PartnerSnapshot.from_rows rows) → (h, cfg) ∈ rows.
Proof.
  unfold PartnerSnapshot.entries, PartnerSnapshot.from_rows. cbn. rewrite elem_of_map_to_list.
  assert (∀ m : gmap string PartnerRuntimeConfig.t,
    foldl (λ m row, <[row.1:=row.2]> m) m rows !! h = Some cfg → (h, cfg) ∈ rows ∨ m !! h = Some cfg) as Hfold.
  { induction rows as [|[h0 c0] rows IH]; intros m; cbn; [by right |]. intros [Hin|Hin]%IH; [left; by right |].
    apply lookup_insert_Some in Hin as [[<- <-]|[_ Hin]]; [left; by left | by right]. }
  intros [Hin|Hin]%Hfold; [done | by rewrite lookup_empty in Hin].
Qed.

Lemma node_step_ok n n' : node_ok n → node_step n n' → node_ok n'.
Proof.
  intros Hok Hstep. destruct Hstep as [s p db Hdb|s p now|s p1 rows p2]; destruct Hok as [Hwf Hsnap Hpend]; cbn in *.
  - destruct (key_step_ok _ _ Hwf Hdb) as [Hwf' _]. split; cbn; [done | exact (of_keys_step _ _ _ Hwf Hdb Hsnap) |].
    eapply Forall_impl; [exact Hpend |]. intros rows. by eapply of_keys_step.
  - split; cbn; [done | done |]. apply Forall_app. split; [done |]. constructor; [| constructor].
    intros h cfg Hin. apply load_active_spec in Hin as (id & k & Hk & Eh & _ & Hd); [| done].
    exists id, k. split_and!; try done. by rewrite (de_consumer _ _ _ _ Hd).
  - apply Forall_app in Hpend as [Hp1 [Hrows Hp2]%Forall_cons_iff]. split; cbn; [done | | by apply Forall_app].
    intros h cfg Hin%entries_from_rows. by apply Hrows.
Qed.

(** However commits of this and other processes and the two halves of reloads
    interleave, what authenticates is a key that was issued, as its owner: the
    plaintext hashes to a row of the table, and the context is that row's
    consumer. *)
Theorem authenticated_key_was_issued (db : KeyDb) (secret : list Z) (n : Node) (pt : string) (cfg : PartnerRuntimeConfig.t)
    (Hwf : keys_wf db) (Hsteps : rtc node_step (mkNode (ApiKeyStore.new db secret) []) n)
    (Hauth : ApiKeyStore.authenticate (store n) pt = Some cfg) :
  ∃ id k, api_keys (ApiKeyStore.db (store n)) !! id = Some k
    ∧ KeyRow.key_hash k = derive_key_hash (ApiKeyStore.secret (store n)) pt
    ∧ KeyRow.consumer_id k = PartnerRuntimeConfig.consumer_id cfg.
Proof.
  assert (node_ok (mkNode (ApiKeyStore.new db secret) [])) as Hinit.
  { split; cbn; [done | | constructor]. intros h c. unfold PartnerSnapshot.entries. cbn.
    rewrite map_to_list_empty. by intros ?%elem_of_nil. }
  assert (node_ok n) as [_ Hsnap _].
  { clear Hauth. induction Hsteps as [|a b c Hstep _ IH]; [done |]. apply IH. by eapply node_step_ok. }
  destruct (Hsnap (derive_key_hash (ApiKeyStore.secret (store n)) pt) cfg) as (id & k & Hk & Eh & Ec).
  { unfold PartnerSnapshot.entries. by apply elem_of_map_to_list. }
  exists id, k. by split_and!.
Qed.

(** Revoking can be undone until the next reload: a reload that read the table
    before the revocation and swaps its snapshot in after it brings the revoked
    key back. *)
Theorem pending_reload_revives_revoked_key (s : ApiKeyStore.t) (id : Z) (k : KeyRow.t) (pt : string)
    (t0 now : OffsetDateTime) (io : ApiKeyStore.Io)
    (Hwf : keys_wf (ApiKeyStore.db s)) (Hio : served io)
    (Hk : api_keys (ApiKeyStore.db s) !! id = Some k)
    (Hh : KeyRow.key_hash k = derive_key_hash (ApiKeyStore.secret s) pt)
    (Husable : usable (format_ts t0) k = true) :
  let rows := load_active (ApiKeyStore.db s) t0 in
  let revoked := (ApiKeyStore.revoke s id now io).1 in
  rtc node_step (mkNode s []) (mkNode revoked [rows])
  ∧ ApiKeyStore.authenticate revoked pt = None
  ∧ node_step (mkNode revoked [rows]) (mkNode (publish revoked rows) [])
  ∧ is_Some (ApiKeyStore.authenticate (publish revoked rows) pt).
Proof.
  cbv zeta.
  assert (is_active_row k = true) as Ha by (unfold usable in Husable; by apply andb_true_iff in Husable as [? _]).
  unfold ApiKeyStore.revoke. pose proof (mutate_cases s io (revoke_body id (format_ts now))) as Hm.
  pose proof (mutate_served s io (revoke_body id (format_ts now)) Hio) as Hr.
  destruct (ApiKeyStore.mutate s io _) as [s' r]. cbn [fst snd] in *.
  pose proof (revoke_body_cases (ApiKeyStore.db s) id (format_ts now) Hwf) as Hbody. rewrite Hk, Ha in Hbody.
  rewrite Hbody in Hr. subst r. destruct Hm as (db' & Eb & Hdb & Hsec & Hf).
  rewrite Hbody in Eb. injection Eb as <-. destruct Hio as (_ & _ & Hread). specialize (Hf Hread). split_and!.
  - eapply rtc_l; [apply (node_load s [] t0) |]. eapply rtc_l.
    + apply node_commit. eapply key_revoke. exact Hbody.
    + eapply rtc_l; [apply (node_load _ _ (ApiKeyStore.refresh_now io)) |]. apply rtc_once.
      cbn [app]. destruct s' as [db' sec' snap']. unfold fresh in Hf. cbn in Hdb, Hsec, Hf. subst db' sec' snap'.
      apply (node_publish (with_db s _) [load_active (ApiKeyStore.db s) t0] _ []).
  - apply (authenticate_dead s' (ApiKeyStore.refresh_now io) pt id (revoked_row (format_ts now) k)); [rewrite Hdb; by apply revoked_wf | exact Hf | | | done].
    + rewrite Hdb. by apply with_key_lookup.
    + rewrite Hsec. exact Hh.
  - apply (node_publish s' [] _ []).
  - unfold ApiKeyStore.authenticate, publish. cbn. rewrite Hsec, <- Hh. eexists. apply snapshot_get; [done |].
    exists id, k. split_and!; try done. apply config_row_describes.
Qed.
End Poller.

(** ** At a concrete store: one partner, one key *)
Definition secret_1 : list Z := as_bytes "0123456789abcdef0123456789abcdef".
Definition key_1 (expires_at : option string) : KeyRow.t :=
  new_row (NewKey.mk "laptop" "acme" "dev-key" (derive_key_hash secret_1 "dev-key") noon expires_at).
Definition keys_0 : KeyDb := mkKeyDb ∅ 1 portal_1.
Definition keys_1 (expires_at : option string) : KeyDb := mkKeyDb {[ 1 := key_1 expires_at ]} 2 portal_1.
Definition io_1 : ApiKeyStore.Io := ApiKeyStore.mkIo None None None t1.
Definition store_of (db : KeyDb) : ApiKeyStore.t := ApiKeyStore.new db secret_1.

Lemma keys_0_wf : keys_wf keys_0.
Proof. split; try exact portal_1_wf; cbn; intros i; [| | intros [k E] |]; try intros j k k' E; try intros k E; by rewrite lookup_empty in E. Qed.

Lemma keys_1_wf e : keys_wf (keys_1 e).
Proof.
  split; try exact portal_1_wf; unfold keys_1; cbn.
  - by intros i j k k' [<- _]%lookup_singleton_Some [<- _]%lookup_singleton_Some.
  - by intros i j k k' [<- _]%lookup_singleton_Some [<- _]%lookup_singleton_Some.
  - intros i [k [<- _]%lookup_singleton_Some]. lia.
  - intros i k [_ <-]%lookup_singleton_Some. by left.
Qed.

Lemma served_1 : served io_1.
Proof. done. Qed.

Lemma keys_1_lookup e : api_keys (keys_1 e) !! 1 = Some (key_1 e).
Proof. reflexivity. Qed.

Lemma one_live_key_per_partner_witness :
  keys_wf (keys_1 None) ∧ keys_wf (with_key (keys_1 None) 1 (revoked_row noon)).
Proof.
  split; [exact (keys_1_wf None) |].
  assert (rtc key_step (keys_1 None) (with_key (keys_1 None) 1 (revoked_row noon))) as Hsteps.
  { apply rtc_once. eapply (key_revoke _ 1 noon). rewrite revoke_body_cases by apply keys_1_wf.
    rewrite keys_1_lookup. reflexivity. }
  exact (proj1 (one_live_key_per_partner _ _ (keys_1_wf None) Hsteps)).
Defined.

Lemma authentication_exact_witness :
  keys_wf (keys_1 None)
  ∧ ∃ cfg, ApiKeyStore.authenticate (ApiKeyStore.refresh (store_of (keys_1 None)) io_1).1.1 "dev-key" = Some cfg
           ∧ PartnerRuntimeConfig.consumer_id cfg = "acme"%string.
Proof.
  split; [exact (keys_1_wf None) |]. 
  pose proof (config_row_describes portal_1 t1 (key_1 None)) as Hd.
  exists (config_row portal_1 t1 (key_1 None)
            (default ∅ (models_map (map_to_list (partner_models portal_1)) !! KeyRow.consumer_id (key_1 None)))).
  split; [| reflexivity]. apply (authentication_exact (store_of (keys_1 None)) io_1 "dev-key" _ (keys_1_wf None) eq_refl).
  exists 1, (key_1 None). split; [exact (keys_1_lookup None) |]. split; [reflexivity |]. split; [reflexivity |].
  split; [done |]. split; [done |]. split; [exact Hd |].
  intros Hdl Hnow. rewrite <- mode_text_invoice. exact (suspended_spec portal_1 t1 (key_1 None) _ Hdl Hnow Hd).
Defined.

Lemma create_key_exact_witness :
  keys_wf keys_0 ∧ is_ok (ApiKeyStore.create_with_plaintext (store_of keys_0) " laptop " "acme" None "dev-key" t1 io_1).2 = true.
Proof.
  split; [exact keys_0_wf |].
  pose proof (create_key_exact (store_of keys_0) " laptop " "acme" None "dev-key" t1 io_1 keys_0_wf served_1) as T.
  destruct (ApiKeyStore.create_with_plaintext (store_of keys_0) " laptop " "acme" None "dev-key" t1 io_1) as [self' res].
  destruct T as [[_ T] _]. apply T. split; [vm_compute; split_and!; congruence |]. split; [reflexivity |].
  intros i k E. cbn in E. by rewrite lookup_empty in E.
Defined.

Lemma rotation_keeps_one_live_key_witness :
  keys_wf (keys_1 None)
  ∧ ApiKeyStore.db (ApiKeyStore.rotate (store_of (keys_1 None)) 7 (Ok [1; 2; 3]) t1 io_1).1 = keys_1 None
  ∧ is_ok (ApiKeyStore.rotate (store_of (keys_1 None)) 1 (Ok [1; 2; 3]) t1 io_1).2 = true
  ∧ ApiKeyStore.authenticate (ApiKeyStore.rotate (store_of (keys_1 None)) 1 (Ok [1; 2; 3]) t1 io_1).1 "dev-key" = None.
Proof.
  split; [exact (keys_1_wf None) |].
  assert (is_ok (ApiKeyStore.rotate (store_of (keys_1 None)) 1 (Ok [1; 2; 3]) t1 io_1).2 = true) as Hok by (vm_compute; reflexivity).
  assert (is_ok (ApiKeyStore.rotate (store_of (keys_1 None)) 7 (Ok [1; 2; 3]) t1 io_1).2 = false) as Hno by (vm_compute; reflexivity).
  split; [| split; [exact Hok |]].
  - pose proof (rotation_keeps_one_live_key (store_of (keys_1 None)) 7 (Ok [1; 2; 3]) t1 io_1 (keys_1_wf None)) as T.
    destruct (ApiKeyStore.rotate (store_of (keys_1 None)) 7 (Ok [1; 2; 3]) t1 io_1) as [self' [[row pt]|e]]; [done | exact T].
  - pose proof (rotation_keeps_one_live_key (store_of (keys_1 None)) 1 (Ok [1; 2; 3]) t1 io_1 (keys_1_wf None)) as T.
    destruct (ApiKeyStore.rotate (store_of (keys_1 None)) 1 (Ok [1; 2; 3]) t1 io_1) as [self' [[row pt]|e]]; [| done].
    destruct T as (k & Hk & _ & _ & _ & _ & _ & _ & T). assert (k = key_1 None) as -> by (change (Some (key_1 None) = Some k) in Hk; congruence).
    exact (proj2 (T eq_refl) "dev-key"%string eq_refl).
Defined.

Lemma revocation_takes_effect_witness :
  keys_wf (keys_1 None) ∧ served io_1
  ∧ ApiKeyStore.authenticate (ApiKeyStore.revoke (store_of (keys_1 None)) 1 t1 io_1).1 "dev-key" = None.
Proof.
  split; [exact (keys_1_wf None) |]. split; [exact served_1 |].
  pose proof (revocation_takes_effect (store_of (keys_1 None)) 1 t1 t2 io_1 io_1 (keys_1_wf None) served_1 served_1) as T.
  destruct (ApiKeyStore.revoke (store_of (keys_1 None)) 1 t1 io_1) as [self' res].
  change (api_keys (ApiKeyStore.db (store_of (keys_1 None))) !! 1) with (Some (key_1 None)) in T.
  destruct T as (_ & _ & _ & T & _). exact (T "dev-key"%string eq_refl).
Defined.

Definition past : option string := Some "2026-09-01T00:00:00.000000000Z"%string.

Lemma expired_key_locks_out_witness :
  keys_wf (keys_1 past)
  ∧ (ApiKeyStore.create_with_plaintext (store_of (keys_1 past)) "laptop" "acme" None "other" t1 io_1).2 = Err (AlreadyActive "acme").
Proof.
  split; [exact (keys_1_wf past) |].
  assert (str_ltb (format_ts t1) "2026-09-01T00:00:00.000000000Z" = false) as Hpassed by (vm_compute; reflexivity).
  assert (trim "laptop" ≠ ""%string) as Hn by (vm_compute; congruence).
  assert (trim "other" ≠ ""%string) as Hp by (vm_compute; congruence).
  exact (proj1 (expired_key_locks_out (store_of (keys_1 past)) 1 (key_1 past) "2026-09-01T00:00:00.000000000Z" "laptop" "other" None
    (Ok [1]) t1 io_1 (keys_1_wf past) served_1 (keys_1_lookup past) eq_refl eq_refl Hpassed Hn Hp eq_refl ltac:(done))).
Defined.

Lemma authenticated_key_was_issued_witness :
  keys_wf (keys_1 None) ∧ ∃ id k, api_keys (keys_1 None) !! id = Some k
    ∧ KeyRow.key_hash k = derive_key_hash secret_1 "dev-key".
Proof.
  split; [exact (keys_1_wf None) |].
  pose (n := mkNode (publish (store_of (keys_1 None)) (load_active (keys_1 None) t1)) []).
  assert (rtc node_step (mkNode (store_of (keys_1 None)) []) n) as Hsteps.
  { eapply rtc_l; [apply (node_load _ _ t1) |]. apply rtc_once. apply (node_publish (store_of (keys_1 None)) [] _ []). }
  assert (∃ cfg, ApiKeyStore.authenticate (store n) "dev-key" = Some cfg) as [cfg Ha].
  { eexists. apply snapshot_get; [exact (keys_1_wf None) |]. exists 1, (key_1 None).
    split; [exact (keys_1_lookup None) |]. split; [reflexivity |]. split; [reflexivity |]. apply config_row_describes. }
  destruct (authenticated_key_was_issued (keys_1 None) secret_1 n "dev-key" cfg (keys_1_wf None) Hsteps Ha)
    as (id & k & Hk & Hh & _).
  exists id, k. split; [exact Hk | exact Hh].
Defined.

Lemma pending_reload_revives_revoked_key_witness :
  served io_1
  ∧ is_Some (ApiKeyStore.authenticate (publish (ApiKeyStore.revoke (store_of (keys_1 None)) 1 t1 io_1).1 (load_active (keys_1 None) t1)) "dev-key").
Proof.
  split; [exact served_1 |].
  exact (proj2 (proj2 (proj2 (pending_reload_revives_revoked_key (store_of (keys_1 None)) 1 (key_1 None) "dev-key" t1 t1 io_1
    (keys_1_wf None) served_1 (keys_1_lookup None) eq_refl eq_refl)))).
Defined.
