(* ===== verification/Worker.v ===== *)
(** * The billing scheduler ([src/src/billing/worker.rs])

    The walk that closes every day a partner owes a statement for, and the
    observation of status changes. Statement mail is in [Mailer]. *)

From stdpp Require Import base strings list gmap numbers sorting fin_maps.
From Stdlib Require Import Ascii ZArith Lia.
From S2P Require Import Prelude Utf8 TimeLib Calendar Timefmt Pricing Period Status Partner LedgerTypes Sql Rollup.
From S2P Require Import Statements BillingStore.

Local Open Scope Z_scope.

Module Tick.
Record t : Type := mk {
  days : Z;
  statements_created : Z;
  statements_existing : Z;
  statements_incomplete : Z;
  emails_sent : Z;
  emails_failed : Z;
  emails_skipped : Z;
  failures : Z }.

Definition default_tick : t := mk 0 0 0 0 0 0 0 0.

Definition did_anything (self : t) : bool :=
  (0 <? statements_created self) || (0 <? emails_sent self) || (0 <? emails_failed self).

Definition add_day (self : t) : t :=
  mk (days self + 1) (statements_created self) (statements_existing self) (statements_incomplete self)
    (emails_sent self) (emails_failed self) (emails_skipped self) (failures self).
Definition add_failure (self : t) : t :=
  mk (days self) (statements_created self) (statements_existing self) (statements_incomplete self)
    (emails_sent self) (emails_failed self) (emails_skipped self) (failures self + 1).
Definition add_created (self : t) (incomplete : bool) : t :=
  mk (days self) (statements_created self + 1) (statements_existing self)
    (statements_incomplete self + Z.b2z incomplete)
    (emails_sent self) (emails_failed self) (emails_skipped self) (failures self).
Definition add_existing (self : t) : t :=
  mk (days self) (statements_created self) (statements_existing self + 1) (statements_incomplete self)
    (emails_sent self) (emails_failed self) (emails_skipped self) (failures self).
End Tick.

Section Worker.
Context `{TimeCrate}.

(** [anchor_for]: the last statement's day, else the day before the partner
    was created, else the catch-up bound. *)
Definition anchor_for (generator : Generator.t) (db : BillingDb) (partner : Partner.t) (through : BillingDay.t)
    : BillingDay.t :=
  match last_statement_date_for db (Partner.consumer_id partner) ≫= BillingDay.parse with
  | Some day => day
  | None =>
      match parse_ts (Partner.created_at partner) with
      | Some created => BillingDay.previous (BillingDay.of_instant created (Generator.timezone generator))
      | None => Generator.oldest_closeable through
      end
  end.

(** [close_day]; [clock] is the text of the store's own clock reading. *)
Definition close_day (generator : Generator.t) (records : Records) (clock : string) (partner : Partner.t)
    (day : BillingDay.t) (db : BillingDb) (tick : Tick.t) : BillingDb * Tick.t :=
  let cutoff := Generator.cutoff_for generator day in
  match Generator.statement_for_day generator records partner day cutoff with
  | Err _ => (db, Tick.add_failure tick)
  | Ok draft =>
      match write_statement db draft clock with
      | Err _ => (db, Tick.add_failure tick)
      | Ok (db', outcome) =>
          (db', if was_created outcome
                then Tick.add_created tick (Statement.has_incomplete_usage (outcome_statement outcome).2)
                else Tick.add_existing tick)
      end
  end.

(** The usage rows and the clock are read afresh for each day. *)
Fixpoint close_each_day (generator : Generator.t) (records : BillingDay.t → Records) (clock : BillingDay.t → string)
    (partner : Partner.t)
    (days : list BillingDay.t) (db : BillingDb) (tick : Tick.t) : BillingDb * Tick.t :=
  match days with
  | [] => (db, tick)
  | day :: days' =>
      let '(db', tick') := close_day generator (records day) (clock day) partner day db (Tick.add_day tick) in
      close_each_day generator records clock partner days' db' tick'
  end.

(** The days one partner's walk visits. *)
Definition walk (generator : Generator.t) (db : BillingDb) (partner : Partner.t) (through : BillingDay.t)
    : list BillingDay.t :=
  default [] (Generator.days_to_close (Some (BillingDay.display (anchor_for generator db partner through))) through).

Fixpoint close_each_partner (generator : Generator.t) (records : string → BillingDay.t → Records)
    (clock : string → BillingDay.t → string) (through : BillingDay.t) (list_partners : list Partner.t) (db : BillingDb) (tick : Tick.t) : BillingDb * Tick.t :=
  match list_partners with
  | [] => (db, tick)
  | partner :: rest =>
      let '(db', tick') :=
        close_each_day generator (records (Partner.consumer_id partner)) (clock (Partner.consumer_id partner)) partner
          (walk generator db partner through) db tick in
      close_each_partner generator records clock through rest db' tick'
  end.

(** [list_partners]: [ORDER BY consumer_id]. *)
Definition list_partners (db : BillingDb) : list Partner.t :=
  omap (λ id, partners db !! id) (merge_sort key_le (map_to_list (partners db)).*1).

Definition close_days (generator : Generator.t) (records : string → BillingDay.t → Records) (now : OffsetDateTime)
    (clock : string → BillingDay.t → string) (db : BillingDb) (tick : Tick.t) : BillingDb * Tick.t :=
  match Generator.closable_through generator now with
  | None => (db, tick)
  | Some through => close_each_partner generator records clock through (list_partners db) db tick
  end.

(** The status of one partner, as [observe_status] reads it; [clock] is the
    reading [overdue_statements] takes for itself. *)
Definition suspended_now (now : OffsetDateTime) (clock : string → string) (db : BillingDb) (partner : Partner.t) : bool :=
  let consumer := Partner.consumer_id partner in
  let rows := overdue_statements db (clock consumer) (Some consumer) in
  let overdue := (λ p, Statement.to_overdue_row p.1 p.2) <$> rows in
  is_suspended (status_for (BillingMode.as_str (Partner.billing_mode partner)) now overdue).

(** [observe_status]: the last observation per consumer, and the transitions to
    log ([true]: suspended). *)
Definition observe_partner (now : OffsetDateTime) (clock : string → string) (db : BillingDb)
    (acc : gmap string bool * list (string * bool)) (partner : Partner.t) : gmap string bool * list (string * bool) :=
  let '(observed, log) := acc in
  let consumer := Partner.consumer_id partner in
  let suspended := suspended_now now clock db partner in
  (<[consumer := suspended]> observed,
   match observed !! consumer with
   | None => log
   | Some previous =>
       match previous, suspended with
       | false, true => log ++ [(consumer, true)]
       | true, false => log ++ [(consumer, false)]
       | _, _ => log
       end
   end).

Definition observe_status (now : OffsetDateTime) (clock : string → string) (db : BillingDb) (observed : gmap string bool)
    : gmap string bool * list (string * bool) :=
  foldl (observe_partner now clock db) (observed, []) (list_partners db).

(** [i64::saturating_mul] on non-negative operands. *)
Definition saturating_mul (a b : Z) : Z := Z.max i64_min (Z.min i64_max (a * b)).

(** [retry_delay], in minutes. *)
Definition retry_delay (attempts : Z) : Z :=
  let exponent := Z.max 0 (Z.min 16 attempts) in
  Z.min (saturating_mul EMAIL_RETRY_BASE_MINUTES (Z.shiftl 1 exponent)) EMAIL_RETRY_MAX_MINUTES.
End Worker.

(** ** Retries *)

Lemma retry_delay_value a :
  retry_delay a = Z.min (15 * 2 ^ Z.max 0 (Z.min 16 a)) 1440.
Proof.
  unfold retry_delay, saturating_mul, EMAIL_RETRY_BASE_MINUTES, EMAIL_RETRY_MAX_MINUTES.
  rewrite Z.shiftl_mul_pow2 by lia. rewrite Z.mul_1_l. set (e := Z.max 0 (Z.min 16 a)).
  pose proof (Z.pow_le_mono_r 2 e 16 ltac:(lia) ltac:(lia)) as Hle. change (2 ^ 16) with 65536 in Hle.
  pose proof (Z.pow_pos_nonneg 2 e ltac:(lia) ltac:(lia)). ranges. lia.
Qed.

(** The email retry delay doubles from fifteen minutes and stops at a
    day: it is never shorter or longer, never shrinks as attempts accumulate,
    and no attempt count overflows it. *)
Theorem retry_delay_spec (a b : Z) :
  15 ≤ retry_delay a ≤ 1440
  ∧ (0 ≤ a ≤ 6 → retry_delay a = 15 * 2 ^ a)
  ∧ (7 ≤ a → retry_delay a = 1440)
  ∧ (a ≤ b → retry_delay a ≤ retry_delay b).
Proof.
  rewrite !retry_delay_value.
  assert (∀ e, 0 ≤ e → 1 ≤ 2 ^ e) as Hpos by (intros e He; pose proof (Z.pow_pos_nonneg 2 e ltac:(lia) He); lia).
  split_and!.
  - specialize (Hpos (Z.max 0 (Z.min 16 a)) ltac:(lia)). lia.
  - specialize (Hpos (Z.max 0 (Z.min 16 a)) ltac:(lia)). lia.
  - intros Ha. replace (Z.max 0 (Z.min 16 a)) with a by lia.
    pose proof (Z.pow_le_mono_r 2 a 6 ltac:(lia) ltac:(lia)) as Hle. change (2 ^ 6) with 64 in Hle. lia.
  - intros Ha. pose proof (Z.pow_le_mono_r 2 7 (Z.max 0 (Z.min 16 a)) ltac:(lia) ltac:(lia)) as Hle.
    change (2 ^ 7) with 128 in Hle. lia.
  - intros Hab. pose proof (Z.pow_le_mono_r 2 (Z.max 0 (Z.min 16 a)) (Z.max 0 (Z.min 16 b)) ltac:(lia) ltac:(lia)). lia.
Qed.

(** ** The walk *)
Section Walk.
Context `{TimeCrate, !TimeLaws}.

(** Every statement is dated by the name of a day of the calendar. *)
Definition dates_ok (db : BillingDb) : Prop :=
  map_Forall (λ _ s, ∃ d, Statement.billing_date s = BillingDay.display d ∧ day_named d ∧ day_ok d) (daily_statements db).

(** [MAX] over a list of texts. *)
Lemma text_max_spec l a :
  match foldl text_max a l with
  | None => a = None ∧ l = []
  | Some m => (a = Some m ∨ m ∈ l) ∧ (∀ x, a = Some x ∨ x ∈ l → str_ltb m x = false)
  end.
Proof.
  revert a. induction l as [|y l IH]; intros a; cbn [foldl].
  - destruct a as [m|]; [| done]. split; [by left |]. intros x [[= <-]|?%elem_of_nil]; [apply str_ltb_irrefl | done].
  - specialize (IH (text_max a y)). destruct (foldl text_max (text_max a y) l) as [m|].
    + destruct IH as [Hin Hmax]. split.
      * destruct Hin as [E|Hin]; [| right; by right]. unfold text_max in E.
        destruct a as [x|]; [destruct (str_ltb x y) |]; injection E as <-; [right; by left | by left | right; by left].
      * intros x Hx. unfold text_max in Hmax.
        destruct a as [z|].
        -- destruct (str_ltb z y) eqn:Ezy.
           ++ destruct Hx as [[= <-]|[->|Hx]%elem_of_cons]; [| apply Hmax; by left | apply Hmax; by right].
              apply not_true_iff_false. intros Hlt. pose proof (Hmax y ltac:(by left)) as Hy.
              rewrite (str_ltb_trans _ _ _ Hlt Ezy) in Hy. done.
           ++ destruct Hx as [[= <-]|[->|Hx]%elem_of_cons]; [apply Hmax; by left | | apply Hmax; by right].
              pose proof (Hmax z ltac:(by left)) as Hz. apply not_true_iff_false. intros Hlt.
              destruct (str_ltb y z) eqn:Eyz.
              ** rewrite (str_ltb_trans _ _ _ Hlt Eyz) in Hz. done.
              ** rewrite (str_ltb_total _ _ Ezy Eyz) in Hz. congruence.
        -- destruct Hx as [[=]|[->|Hx]%elem_of_cons]; [apply Hmax; by left | apply Hmax; by right].
    + destruct IH as [E _]. unfold text_max in E. destruct a as [x|]; [destruct (str_ltb x y) |]; done.
Qed.

(** The partner has a statement dated [x]. *)
Definition has_date (db : BillingDb) (consumer x : string) : Prop :=
  ∃ j y, daily_statements db !! j = Some y ∧ Statement.consumer_id y = consumer ∧ x = Statement.billing_date y.

(** The latest billing date of a partner with a statement. *)
Lemma last_statement_day db consumer i s :
  dates_ok db → daily_statements db !! i = Some s → Statement.consumer_id s = consumer →
  ∃ d, last_statement_date_for db consumer = Some (BillingDay.display d) ∧ day_named d ∧ day_ok d
    ∧ has_date db consumer (BillingDay.display d)
    ∧ ∀ j x dx, daily_statements db !! j = Some x → Statement.consumer_id x = consumer →
        Statement.billing_date x = BillingDay.display dx → day_named dx → BillingDay.num dx ≤ BillingDay.num d.
Proof.
  intros Hd Hi Hc. unfold last_statement_date_for.
  set (l := Statement.billing_date <$> _).
  assert (∀ x, x ∈ l ↔ ∃ j y, daily_statements db !! j = Some y ∧ Statement.consumer_id y = consumer ∧ x = Statement.billing_date y) as Hl.
  { intros x. unfold l. rewrite list_elem_of_fmap. split.
    - intros (y & -> & [Hy ([j y'] & -> & Hin)%list_elem_of_fmap]%list_elem_of_filter).
      apply elem_of_map_to_list in Hin. eauto.
    - intros (j & y & Hj & Hy & ->). exists y. split; [done |]. apply list_elem_of_filter. split; [done |].
      apply list_elem_of_fmap. exists (j, y). split; [done |]. by apply elem_of_map_to_list. }
  pose proof (text_max_spec l None) as Hm. destruct (foldl text_max None l) as [m|].
  - destruct Hm as [[[=]|Hin] Hmax]. apply Hl in Hin as (j & y & Hj & Hy & ->).
    destruct (Hd j y Hj) as (d & Ed & Hn & Hok). exists d. rewrite Ed in *.
    split_and!; [done | done | done | by exists j, y |].
    intros k x dx Hk Hx Edx Hdx. specialize (Hmax (Statement.billing_date x) ltac:(right; apply Hl; eauto)).
    rewrite Edx in Hmax. apply not_true_iff_false in Hmax. rewrite display_lt in Hmax by done. lia.
  - destruct Hm as [_ E]. assert (Statement.billing_date s ∈ l) as Hin by (apply Hl; eauto).
    rewrite E in Hin. by apply elem_of_nil in Hin.
Qed.

(** What the walk visits, once the partner has a statement. *)
Lemma walk_after_last generator db partner through i s :
  dates_ok db → day_ok through → daily_statements db !! i = Some s →
  Statement.consumer_id s = Partner.consumer_id partner →
  ∃ d, day_named d ∧ has_date db (Partner.consumer_id partner) (BillingDay.display d)
    ∧ (∀ j x dx, daily_statements db !! j = Some x → Statement.consumer_id x = Partner.consumer_id partner →
        Statement.billing_date x = BillingDay.display dx → day_named dx → BillingDay.num dx ≤ BillingDay.num d)
    ∧ BillingDay.num <$> walk generator db partner through =
        seqZ (Z.max (BillingDay.num through - 30) (BillingDay.num d + 1))
          (BillingDay.num through + 1 - Z.max (BillingDay.num through - 30) (BillingDay.num d + 1)).
Proof.
  intros Hd Ht Hi Hc. destruct (last_statement_day db _ i s Hd Hi Hc) as (d & El & Hn & Hok & Hhas & Hmax).
  exists d. split_and!; [done | done | done |]. unfold walk, anchor_for. rewrite El. cbn [mbind option_bind].
  rewrite parse_display by done.
  assert (Generator.parse_day (Some (BillingDay.display d)) = Some d) as Ep by (cbn; by apply parse_display).
  destruct (walk_spec (Some (BillingDay.display d)) through Ht) as (days & -> & En & _).
  { intros d' Hd'. rewrite Ep in Hd'. by injection Hd' as <-. }
  rewrite Ep in En. exact En.
Qed.

(** A day whose statement fails is lost once a later day succeeds: with a
    statement in the table for any day, no walk ever again visits that day
    or one before it, whatever failed there. *)
Theorem failed_day_is_never_retried (generator : Generator.t) (db : BillingDb) (partner : Partner.t)
    (through failed later : BillingDay.t) (i : Z) (s : Statement.t)
    (Hdates : dates_ok db) (Hthrough : day_ok through)
    (Hs : daily_statements db !! i = Some s) (Hc : Statement.consumer_id s = Partner.consumer_id partner)
    (Hdate : Statement.billing_date s = BillingDay.display later) (Hlater : day_named later)
    (Hfailed : BillingDay.num failed ≤ BillingDay.num later) :
  failed ∉ walk generator db partner through.
Proof.
  destruct (walk_after_last generator db partner through i s Hdates Hthrough Hs Hc) as (d & _ & _ & Hmax & En).
  intros Hin. apply (list_elem_of_fmap_2 BillingDay.num) in Hin. rewrite En in Hin. apply elem_of_seqZ in Hin.
  specialize (Hmax i s later Hs Hc Hdate Hlater). lia.
Qed.

(** *** A pass without failures *)

Lemma has_date_step db db' consumer x :
  store_ok db → rtc store_step db db' → has_date db consumer x → has_date db' consumer x.
Proof.
  intros Hok Hsteps (j & y & Hj & Hc & ->). revert y Hj Hc Hok.
  induction Hsteps as [db|db db1 db2 Hstep _ IH]; intros y Hj Hc Hok; [by exists j, y |].
  destruct (step_rows db db1 Hok Hstep) as (Hok1 & Hrows & _). destruct (Hrows j y Hj) as (y1 & Hj1 & Ec & Ed & _).
  rewrite <- Ed. apply IH; congruence.
Qed.

Lemma last_statement_same db db' consumer :
  (∀ x, has_date db consumer x ↔ has_date db' consumer x) →
  last_statement_date_for db consumer = last_statement_date_for db' consumer.
Proof.
  intros Hsame. unfold last_statement_date_for.
  assert (∀ d x, x ∈ Statement.billing_date <$>
       filter (λ s, Statement.consumer_id s = consumer) (map_to_list (daily_statements d)).*2 ↔ has_date d consumer x) as Hl.
  { intros d x. rewrite list_elem_of_fmap. split.
    - intros (y & -> & [Hy ([j y'] & -> & Hin)%list_elem_of_fmap]%list_elem_of_filter).
      apply elem_of_map_to_list in Hin. by exists j, y'.
    - intros (j & y & Hj & Hy & ->). exists y. split; [done |]. apply list_elem_of_filter. split; [done |].
      apply list_elem_of_fmap. exists (j, y). split; [done |]. by apply elem_of_map_to_list. }
  pose proof (Hl db) as L1. pose proof (Hl db') as L2. clear Hl.
  set (l1 := _ <$> _) in *. set (l2 := Statement.billing_date <$> filter _ (map_to_list (daily_statements db')).*2) in *.
  pose proof (text_max_spec l1 None) as M1. pose proof (text_max_spec l2 None) as M2.
  assert (∀ x, x ∈ l1 ↔ x ∈ l2) as Hx by (intros x; by rewrite L1, L2).
  destruct (foldl text_max None l1) as [m1|], (foldl text_max None l2) as [m2|].
  - destruct M1 as [[[=]|I1] H1], M2 as [[[=]|I2] H2]. f_equal. apply str_ltb_total.
    + apply H1. right. by apply Hx.
    + apply H2. right. by apply Hx.
  - destruct M1 as [[[=]|I1] _], M2 as [_ E]. apply Hx in I1. rewrite E in I1. by apply elem_of_nil in I1.
  - destruct M2 as [[[=]|I2] _], M1 as [_ E]. apply Hx in I2. rewrite E in I2. by apply elem_of_nil in I2.
  - done.
Qed.

Lemma walk_same generator db db' partner through :
  (∀ x, has_date db (Partner.consumer_id partner) x ↔ has_date db' (Partner.consumer_id partner) x) →
  walk generator db partner through = walk generator db' partner through.
Proof. intros Hsame. unfold walk, anchor_for. by rewrite (last_statement_same db db'). Qed.

Lemma statement_for_day_names g records partner day cutoff draft :
  Generator.statement_for_day g records partner day cutoff = Ok draft →
  StatementDraft.consumer_id draft = Partner.consumer_id partner ∧ StatementDraft.billing_date draft = day.
Proof.
  unfold Generator.statement_for_day. destruct (BillingPeriod.to_bounds _) as [start end_].
  destruct (usage_groups _ _ _ _); [| done]. destruct (Generator.add_groups _ _ _). by intros [= <-].
Qed.

(** One day: only its partner gains a statement, and without a failure it has one. *)
Lemma close_day_spec g records clock partner day db tick :
  store_ok db →
  let '(db', tick') := close_day g records clock partner day db tick in
  rtc store_step db db' ∧ store_ok db' ∧ Tick.failures tick ≤ Tick.failures tick'
  ∧ (Tick.failures tick' = Tick.failures tick → has_date db' (Partner.consumer_id partner) (BillingDay.display day))
  ∧ (∀ q x, q ≠ Partner.consumer_id partner → has_date db q x ↔ has_date db' q x)
  ∧ ∀ q x, has_date db' q x → has_date db q x ∨ (q = Partner.consumer_id partner ∧ x = BillingDay.display day).
Proof.
  intros Hok. unfold close_day. destruct (Generator.statement_for_day _ _ _ _ _) as [draft|] eqn:Ed.
  2:{ split_and!; [done | done | cbn; lia | cbn; lia | done | by left]. }
  apply statement_for_day_names in Ed as [Ec Eday].
  destruct (write_statement db draft clock) as [[db' o]|] eqn:Ew.
  2:{ split_and!; [done | done | cbn; lia | cbn; lia | done | by left]. }
  assert (store_step db db') as Hstep by (by eapply step_write).
  unfold write_statement in Ew. destruct (validate_draft draft); [| done].
  destruct (StatementDraft.total draft) as [total|] eqn:Et; [| done].
  destruct (insert_statement db _ _) as [[db1 inserted]|] eqn:Ei; [| done].
  destruct (get_statement db1 _ _) as [[id s]|] eqn:Eg; [| done]. injection Ew as <- Eo.
  destruct (insert_statement_ok db (statement_row draft total clock) (StatementDraft.lines draft) db1 inserted Hok)
    as [Hok' Hins]; [apply add_lines_Ok in Et; exact Et | exact Ei |].
  destruct (get_statement_Some _ _ _ _ _ Eg) as [Hid Hday]. apply same_day_spec in Hday as [Hc Hd]. cbn in Hc, Hd.
  split_and!; [by apply rtc_once | done | by destruct (was_created o); cbn; lia | | |].
  - intros _. exists id, s. rewrite <- Ec, <- Eday. done.
  - intros q x Hq. destruct inserted; [| by destruct Hins as [-> _]]. destruct Hins as (_ & El & _).
    split; intros (j & y & Hj & Hy & ->).
    + exists j, y. rewrite El, lookup_insert_ne; [done |]. intros <-. pose proof (ok_ids db Hok _ ltac:(eauto)). lia.
    + rewrite El in Hj. apply lookup_insert_Some in Hj as [[_ <-]|[_ Hj]]; [| by exists j, y].
      cbn in Hy. congruence.
  - intros q x Hx. destruct inserted; [| destruct Hins as [-> _]; by left]. destruct Hins as (_ & El & _).
    destruct Hx as (j & y & Hj & Hy & ->). rewrite El in Hj.
    apply lookup_insert_Some in Hj as [[_ <-]|[_ Hj]]; [| left; by exists j, y].
    right. cbn in Hy |- *. split; congruence.
Qed.

Lemma close_each_day_spec g records clock partner days db tick :
  store_ok db →
  let '(db', tick') := close_each_day g records clock partner days db tick in
  rtc store_step db db' ∧ store_ok db' ∧ Tick.failures tick ≤ Tick.failures tick'
  ∧ (Tick.failures tick' = Tick.failures tick →
       ∀ day, day ∈ days → has_date db' (Partner.consumer_id partner) (BillingDay.display day))
  ∧ (∀ q x, q ≠ Partner.consumer_id partner → has_date db q x ↔ has_date db' q x)
  ∧ ∀ q x, has_date db' q x →
      has_date db q x ∨ ∃ day, day ∈ days ∧ q = Partner.consumer_id partner ∧ x = BillingDay.display day.
Proof.
  revert db tick. induction days as [|day days IH]; intros db tick Hok; cbn [close_each_day].
  { split_and!; [done | done | lia | by intros _ ? ?%elem_of_nil | done | by left]. }
  pose proof (close_day_spec g (records day) (clock day) partner day db (Tick.add_day tick) Hok) as H1.
  destruct (close_day g (records day) (clock day) partner day db (Tick.add_day tick)) as [db1 tick1].
  destruct H1 as (S1 & Hok1 & F1 & D1 & Q1 & N1). specialize (IH db1 tick1 Hok1).
  destruct (close_each_day g records clock partner days db1 tick1) as [db2 tick2].
  destruct IH as (S2 & Hok2 & F2 & D2 & Q2 & N2). cbn in F1, D1.
  split_and!; [by etrans | done | lia | | |].
  - intros Ef d [->|Hd]%elem_of_cons; [| apply D2; [lia | done]].
    eapply has_date_step; [exact Hok1 | exact S2 | apply D1; lia].
  - intros q x Hq. rewrite Q1 by done. by apply Q2.
  - intros q x [Hx|(d & Hd & Hq)]%N2; [| right; exists d; split; [by right | done]].
    apply N1 in Hx as [?|?]; [by left | right; exists day; split; [by left | done]].
Qed.

Lemma close_each_partner_spec g records clock through l db tick :
  store_ok db → NoDup (Partner.consumer_id <$> l) →
  let '(db', tick') := close_each_partner g records clock through l db tick in
  rtc store_step db db' ∧ store_ok db' ∧ Tick.failures tick ≤ Tick.failures tick'
  ∧ (Tick.failures tick' = Tick.failures tick →
       ∀ p day, p ∈ l → day ∈ walk g db p through → has_date db' (Partner.consumer_id p) (BillingDay.display day))
  ∧ ∀ q x, has_date db' q x → has_date db q x
      ∨ ∃ p day, p ∈ l ∧ day ∈ walk g db p through ∧ q = Partner.consumer_id p ∧ x = BillingDay.display day.
Proof.
  revert db tick. induction l as [|p l IH]; intros db tick Hok Hnd; cbn [close_each_partner].
  { split_and!; [done | done | lia | by intros _ ? ? ?%elem_of_nil | by left]. }
  apply NoDup_cons in Hnd as [Hni Hnd].
  pose proof (close_each_day_spec g (records (Partner.consumer_id p)) (clock (Partner.consumer_id p)) p
    (walk g db p through) db tick Hok) as H1.
  destruct (close_each_day g _ _ p (walk g db p through) db tick) as [db1 tick1].
  destruct H1 as (S1 & Hok1 & F1 & D1 & Q1 & N1). specialize (IH db1 tick1 Hok1 Hnd).
  destruct (close_each_partner g records clock through l db1 tick1) as [db2 tick2].
  destruct IH as (S2 & Hok2 & F2 & D2 & N2).
  assert (∀ q, q ∈ l → walk g db1 q through = walk g db q through) as Hwalk.
  { intros q Hq. symmetry. apply walk_same. intros x. apply Q1. intros E. apply Hni. rewrite <- E. by apply list_elem_of_fmap_2. }
  split_and!; [by etrans | done | lia | |].
  - intros Ef q day [->|Hq]%elem_of_cons Hday.
    + eapply has_date_step; [exact Hok1 | exact S2 | apply D1; [lia | done]].
    + apply D2; [lia | done |]. by rewrite Hwalk.
  - intros q x [Hx|(q' & d & Hq & Hd & E)]%N2.
    + apply N1 in Hx as [?|(d & Hd & E)]; [by left |]. right. exists p, d. split_and!; [by left | done | apply E | apply E].
    + right. exists q', d. rewrite Hwalk in Hd by done. split_and!; [by right | done | apply E | apply E].
Qed.

(** Each partner is stored under its own id. *)
Definition partners_keyed (db : BillingDb) : Prop := map_Forall (λ id p, Partner.consumer_id p = id) (partners db).

Lemma list_partners_spec db :
  partners_keyed db →
  NoDup (Partner.consumer_id <$> list_partners db) ∧ ∀ id p, partners db !! id = Some p → p ∈ list_partners db.
Proof.
  intros Hk. unfold list_partners.
  assert (NoDup (merge_sort key_le (map_to_list (partners db)).*1)) as Hnd.
  { rewrite merge_sort_Permutation. apply NoDup_fst_map_to_list. }
  split.
  - induction Hnd as [|id l Hni _ IH]; cbn; [constructor |]. destruct (partners db !! id) as [p|] eqn:E; cbn; [| done].
    constructor; [| done]. intros (q & Eq & Hq)%list_elem_of_fmap. apply list_elem_of_omap in Hq as (j & Hj & Ej).
    apply Hni. rewrite <- (Hk id p E), Eq, (Hk j q Ej). done.
  - intros id p Hp. apply list_elem_of_omap. exists id. split; [| done]. rewrite merge_sort_Permutation.
    apply list_elem_of_fmap. exists (id, p). split; [done |]. by apply elem_of_map_to_list.
Qed.

(** The day, in the billing timezone, a partner came to be on; none when the
    column cannot be read. *)
Definition created_on (generator : Generator.t) (partner : Partner.t) : option BillingDay.t :=
  (λ created, BillingDay.of_instant created (Generator.timezone generator)) <$> parse_ts (Partner.created_at partner).

(** A day a statement is owed for: of the last thirty-one through [through], later
    than every day the partner has a statement for and, when it has none, not
    before it was created (or not the very first of them, when nobody can tell). *)
Definition day_owed (generator : Generator.t) (db : BillingDb) (partner : Partner.t) (through day : BillingDay.t) : Prop :=
  BillingDay.num through - 30 ≤ BillingDay.num day ≤ BillingDay.num through
  ∧ (∀ last, has_date db (Partner.consumer_id partner) (BillingDay.display last) → day_named last →
       BillingDay.num last < BillingDay.num day)
  ∧ ((∃ x, has_date db (Partner.consumer_id partner) x)
     ∨ match created_on generator partner with
       | Some created => BillingDay.num created ≤ BillingDay.num day
       | None => BillingDay.num through - 30 < BillingDay.num day
       end).

(** What is needed of a creation date to walk from it: a day inside the years that
    four digits name. *)
Definition creation_ok (generator : Generator.t) (partner : Partner.t) : Prop :=
  ∀ created, created_on generator partner = Some created →
    day_ok created ∧ day_ok (BillingDay.previous created) ∧ day_named (BillingDay.previous created).

Lemma no_statement_date db consumer :
  (¬ ∃ x, has_date db consumer x) → last_statement_date_for db consumer = None.
Proof.
  intros Hno. unfold last_statement_date_for.
  destruct (filter _ _) as [|y l] eqn:E; [done |]. exfalso. apply Hno.
  assert (y ∈ filter (λ s, Statement.consumer_id s = consumer) (map_to_list (daily_statements db)).*2) as Hy
    by (rewrite E; by left).
  apply list_elem_of_filter in Hy as [Hc ([j y'] & -> & Hin)%list_elem_of_fmap].
  apply elem_of_map_to_list in Hin. by exists (Statement.billing_date y'), j, y'.
Qed.

(** The walk of a partner without a statement. *)
Lemma walk_first generator db partner through :
  day_ok through → day_ok (Generator.oldest_closeable through) → day_named (Generator.oldest_closeable through) →
  creation_ok generator partner →
  last_statement_date_for db (Partner.consumer_id partner) = None →
  let first := match created_on generator partner with
               | Some created => Z.max (BillingDay.num through - 30) (BillingDay.num created)
               | None => BillingDay.num through - 29 end in
  BillingDay.num <$> walk generator db partner through = seqZ first (BillingDay.num through + 1 - first).
Proof.
  intros Ht Hfo Hfn Hcr El first. unfold walk, anchor_for. rewrite El. cbn [mbind option_bind].
  unfold creation_ok, created_on in Hcr. unfold first, created_on.
  assert (∀ a, day_ok a → day_named a →
    BillingDay.num <$> default [] (Generator.days_to_close (Some (BillingDay.display a)) through)
    = seqZ (Z.max (BillingDay.num through - 30) (BillingDay.num a + 1))
        (BillingDay.num through + 1 - Z.max (BillingDay.num through - 30) (BillingDay.num a + 1))) as Hwalk.
  { intros a Ha Hn.
    assert (Generator.parse_day (Some (BillingDay.display a)) = Some a) as Ep by (cbn; by apply parse_display).
    destruct (walk_spec (Some (BillingDay.display a)) through Ht) as (days & -> & En & _).
    { intros d' Hd'. rewrite Ep in Hd'. by injection Hd' as <-. }
    by rewrite Ep in En. }
  destruct (parse_ts (Partner.created_at partner)) as [t|]; cbn in Hcr |- *.
  - destruct (Hcr _ eq_refl) as (Hc & Hp & Hn). rewrite Hwalk by done. rewrite day_previous_num by done.
    f_equal; [lia |]. lia.
  - rewrite Hwalk by done. unfold Generator.oldest_closeable. rewrite day_previous_n_num; [| done | unfold MAX_CATCHUP_DAYS; lia].
    unfold MAX_CATCHUP_DAYS. f_equal; lia.
Qed.

(** The walk visits the days owed and no others. *)
Lemma walk_owed generator db partner through day :
  dates_ok db → day_ok through → day_ok (Generator.oldest_closeable through) →
  day_named (Generator.oldest_closeable through) → creation_ok generator partner →
  day ∈ walk generator db partner through ↔ day_owed generator db partner through day.
Proof.
  intros Hd Ht Hfo Hfn Hcr.
  assert (day ∈ walk generator db partner through ↔ BillingDay.num day ∈ BillingDay.num <$> walk generator db partner through) as ->.
  { split; [apply list_elem_of_fmap_2 |]. by intros (d & ->%day_num_inj & Hin)%list_elem_of_fmap. }
  unfold day_owed. destruct (last_statement_date_for db (Partner.consumer_id partner)) as [m|] eqn:El.
  - assert (∃ x, has_date db (Partner.consumer_id partner) x) as Hex.
    { destruct (decide (map_Forall (λ _ s, Statement.consumer_id s ≠ Partner.consumer_id partner) (daily_statements db))) as [Hn|Hn].
      - exfalso. rewrite no_statement_date in El; [done |]. intros (x & j & y & Hj & Hy & _). by apply (Hn j y).
      - apply map_not_Forall in Hn as (j & y & Hj & Hy); [| apply _]. exists (Statement.billing_date y), j, y.
        split_and!; [done | by apply dec_stable | done]. }
    destruct Hex as (x & j & y & Hj & Hy & Ex).
    destruct (walk_after_last generator db partner through j y Hd Ht Hj Hy) as (d & Hn & Hhas & Hmax & ->).
    rewrite elem_of_seqZ. split.
    + intros Hr. split_and!; [lia | lia | | left; by exists x, j, y].
      intros last (i & z & Hi & Hz & Ez) Hl. specialize (Hmax i z last Hi Hz (eq_sym Ez) Hl). lia.
    + intros (Hr & Hlast & _). specialize (Hlast d Hhas Hn). lia.
  - rewrite walk_first by done. rewrite elem_of_seqZ.
    assert (¬ ∃ x, has_date db (Partner.consumer_id partner) x) as Hno.
    { intros (x & j & y & Hj & Hy & _). destruct (last_statement_day db _ j y Hd Hj Hy) as (d & E & _). congruence. }
    destruct (created_on generator partner); split; intros H'; split_and?; try lia;
      try (intros; exfalso; apply Hno; by eexists); naive_solver lia.
Qed.

(** C39. A tick catches everybody up. When no write or read of the tick failed,
    every partner has a statement for every day it is owed one: every day of the
    last thirty-one through the newest day that is closable, that is later than
    its latest statement and, when it has none, not before its creation, however
    many partners and days there are. Failures or not, no other statement is
    added, and the tables change only by statement writes, so nothing already
    billed is touched. *)
Theorem close_days_catches_up (generator : Generator.t) (records : string → BillingDay.t → Records)
    (now : OffsetDateTime) (clock : string → BillingDay.t → string) (db : BillingDb) (tick : Tick.t) (through : BillingDay.t)
    (Hok : store_ok db) (Hkeyed : partners_keyed db) (Hdates : dates_ok db)
    (Hcreated : map_Forall (λ _ p, creation_ok generator p) (partners db))
    (Hthrough : Generator.closable_through generator now = Some through)
    (Hday : day_ok through) (Hfloor : day_ok (BillingDay.previous_n through 30) ∧ day_named (BillingDay.previous_n through 30)) :
  let '(db', tick') := close_days generator records now clock db tick in
  store_ok db' ∧ rtc store_step db db'
  ∧ (Tick.failures tick' = Tick.failures tick →
       ∀ id p day, partners db !! id = Some p → day_owed generator db p through day →
         ∃ s, get_statement db' id (BillingDay.display day) = Some s)
  ∧ (∀ id x, has_date db' id x → has_date db id x
       ∨ ∃ p day, partners db !! id = Some p ∧ day_owed generator db p through day ∧ x = BillingDay.display day).
Proof.
  destruct (list_partners_spec db Hkeyed) as [Hnd Hin]. unfold close_days. rewrite Hthrough.
  pose proof (close_each_partner_spec generator records clock through (list_partners db) db tick Hok Hnd) as Hs.
  destruct (close_each_partner _ _ _ _ _ _ _) as [db' tick']. destruct Hs as (S & Hok' & _ & D & N).
  destruct Hfloor as [Hfo Hfn]. split_and!; [done | done | |].
  - intros Ef id p day Hp Hd. apply walk_owed in Hd; [| done.. | by apply (Hcreated id)].
    destruct (D Ef p day (Hin id p Hp) Hd) as (j & y & Hj & Hy & Ed).
    exists (j, y). apply get_statement_unique; [done | done |]. apply same_day_spec. split; [| done].
    rewrite Hy. by apply (Hkeyed id).
  - intros id x [?|(p & day & Hp & Hd & -> & ->)]%N; [by left |]. right. exists p, day.
    unfold list_partners in Hp. apply list_elem_of_omap in Hp as (j & _ & Hj).
    rewrite (Hkeyed j p Hj). split_and!; [done | | done]. apply walk_owed; [done.. | by apply (Hcreated j) | done].
Qed.
End Walk.

(** ** Suspension *)
Section Suspension.
Context `{TimeCrate, !TimeLaws}.

(** What the table's CHECKs and the one writer of [due_at] guarantee. *)
Definition statement_stored (s : Statement.t) : Prop :=
  Statement.check s = true
  ∧ ∀ due, Statement.due_at s = Some due → ∃ t, ledger_instant t ∧ due = format_ts t.

Lemma can_suspend_spec s :
  Statement.check s = true →
  Statement.can_suspend s = true ↔
    Statement.billing_mode s = "invoice"%string ∧ Statement.paid_at s = None
    ∧ Statement.incomplete_usage_count s = 0 ∧ 0 < Statement.total_amount_micro_usd s
    ∧ is_Some (Statement.due_at s).
Proof.
  unfold Statement.check, Statement.can_suspend, Statement.is_outstanding, Statement.is_paid,
    Statement.has_incomplete_usage, Statement.billing_mode_value.
  rewrite !andb_true_iff, bool_decide_eq_true, !Z.leb_le. intros [[[[[Hm _] Hi] _] _] _].
  rewrite (negb_true_iff (0 <? _)), Z.ltb_ge, Z.ltb_lt, is_Some_b_spec.
  apply elem_of_cons in Hm as [->|Hm%list_elem_of_singleton].
  - destruct (Statement.paid_at s); cbn; [naive_solver |]. intuition lia.
  - rewrite Hm. cbn. naive_solver.
Qed.

Lemma overdue_statements_spec db now c id s :
  (id, s) ∈ overdue_statements db now (Some c) ↔
  daily_statements db !! id = Some s ∧ Statement.billing_mode s = "invoice"%string ∧ Statement.paid_at s = None
  ∧ Statement.consumer_id s = c ∧ ∃ due, Statement.due_at s = Some due ∧ str_leb due now = true.
Proof.
  unfold overdue_statements. rewrite merge_sort_Permutation, list_elem_of_filter, elem_of_map_to_list. cbn [snd].
  unfold overdue. rewrite !andb_true_iff, !String.eqb_eq, negb_true_iff.
  destruct (Statement.paid_at s), (Statement.due_at s); cbn; naive_solver.
Qed.

Lemma suspension_justified (db : BillingDb) (mode : BillingMode.t) (consumer : string) (now : OffsetDateTime)
    (Hstored : map_Forall (λ _ s, statement_stored s) (daily_statements db)) (Hnow : ledger_instant now) :
  is_suspended (status_for (BillingMode.as_str mode) now
    ((λ p, Statement.to_overdue_row p.1 p.2) <$> overdue_statements db (format_ts now) (Some consumer))) = true
  ↔ mode = BillingMode.Invoice
    ∧ ∃ id s due, daily_statements db !! id = Some s ∧ Statement.consumer_id s = consumer
        ∧ Statement.can_suspend s = true ∧ Statement.due_at s = Some (format_ts due) ∧ ledger_instant due
        ∧ unix_timestamp_nanos due ≤ unix_timestamp_nanos now.
Proof.
  rewrite suspended_iff, Exists_exists.
  assert (BillingMode.as_str mode = "invoice"%string ↔ mode = BillingMode.Invoice) as -> by (by destruct mode).
  assert (∀ t, ledger_instant t →
    str_leb (format_ts t) (format_ts now) = true ↔ unix_timestamp_nanos t ≤ unix_timestamp_nanos now) as Hle.
  { intros t Ht. unfold str_leb. rewrite negb_true_iff, <- not_true_iff_false, format_ts_lt by done. lia. }
  apply and_iff_compat_l. split.
  - intros (row & ([id s] & -> & Hin)%list_elem_of_fmap & Hi & Ht & _).
    apply overdue_statements_spec in Hin as (Hs & Hm & Hp & Hc & due & Ed & Hl).
    destruct (Hstored id s Hs) as [Hk Hd]. destruct (Hd due Ed) as (t & Htl & ->).
    exists id, s, t. split_and!; [done | done | | done | done | by apply Hle].
    apply can_suspend_spec; [done |]. split_and!; eauto.
  - intros (id & s & due & Hs & Hc & Hcan & Ed & Hdl & Hn).
    destruct (Hstored id s Hs) as [Hk _]. apply can_suspend_spec in Hcan as (Hm & Hp & Hi & Ht & _); [| done].
    exists (Statement.to_overdue_row id s). split.
    + apply list_elem_of_fmap. exists (id, s). split; [done |]. apply overdue_statements_spec.
      split_and!; [done.. |]. exists (format_ts due). split; [done | by apply Hle].
    + unfold enforceable. cbn. rewrite Ed. cbn. split_and!; [done | done |].
      destruct (parse_ts_stored due Hdl) as (t & -> & Et). exists t. split; [done | by rewrite Et].
Qed.

(** The suspension a partner sees is the one their statements justify: with
    the stored deadlines of the table, the overdue query and [status_for]
    together suspend a partner exactly when the partner's mode is [invoice]
    and one of their statements can suspend and is due by [now]; comparing
    deadlines as text in the query and as instants afterwards loses nothing. *)
Theorem suspension_is_justified (db : BillingDb) (mode : BillingMode.t) (consumer : string) (now : OffsetDateTime)
    (Hstored : map_Forall (λ _ s, statement_stored s) (daily_statements db)) (Hnow : ledger_instant now) :
  is_suspended (status_for (BillingMode.as_str mode) now
    ((λ p, Statement.to_overdue_row p.1 p.2) <$> overdue_statements db (format_ts now) (Some consumer))) = true
  ↔ mode = BillingMode.Invoice
    ∧ ∃ id s due, daily_statements db !! id = Some s ∧ Statement.consumer_id s = consumer
        ∧ Statement.can_suspend s = true ∧ Statement.due_at s = Some (format_ts due) ∧ ledger_instant due
        ∧ unix_timestamp_nanos due ≤ unix_timestamp_nanos now.
Proof. by apply suspension_justified. Qed.
End Suspension.

(** ** Observations *)
Section Observations.
Context `{TimeCrate, !TimeLaws}.

Lemma observe_each_spec now clock db l observed log :
  NoDup (Partner.consumer_id <$> l) →
  let '(observed', log') := foldl (observe_partner now clock db) (observed, log) l in
  (∀ p, p ∈ l → observed' !! Partner.consumer_id p = Some (suspended_now now clock db p))
  ∧ (∀ c, c ∉ Partner.consumer_id <$> l → observed' !! c = observed !! c)
  ∧ (∀ c b, (c, b) ∈ log' ↔ (c, b) ∈ log ∨ ∃ p, p ∈ l ∧ Partner.consumer_id p = c
       ∧ observed !! c = Some (negb b) ∧ suspended_now now clock db p = b).
Proof.
  revert observed log. induction l as [|p l IH]; intros observed log Hnd; cbn [foldl].
  { split_and!; [by intros p ?%elem_of_nil | done |]. intros c b. split; [by left |].
    intros [?|(p & ?%elem_of_nil & _)]; done. }
  apply NoDup_cons in Hnd as [Hni Hnd].
  destruct (observe_partner now clock db (observed, log) p) as [o1 l1] eqn:E. specialize (IH o1 l1 Hnd).
  destruct (foldl _ _ _) as [o2 l2]. destruct IH as (I1 & I2 & I3). cbn in E. injection E as <- El.
  split_and!.
  - intros q [->|Hq]%elem_of_cons; [| by apply I1]. rewrite I2 by done. by rewrite lookup_insert_eq.
  - intros c [Hc Hc']%not_elem_of_cons. rewrite I2 by done. by rewrite lookup_insert_ne.
  - intros c b. rewrite I3. assert ((c, b) ∈ l1 ↔ (c, b) ∈ log ∨ c = Partner.consumer_id p
      ∧ observed !! c = Some (negb b) ∧ suspended_now now clock db p = b) as ->.
    { rewrite <- El. destruct (observed !! Partner.consumer_id p) as [v|] eqn:Eo; [| naive_solver congruence].
      destruct v, (suspended_now now clock db p) eqn:Es; rewrite ?elem_of_app, ?list_elem_of_singleton;
        destruct b; naive_solver congruence. }
    split.
    + intros [[?|(-> & Ho & Hs)]|(q & Hq & <- & Ho & Hs)]; [by left | right | right].
      * exists p. split; [by left | done].
      * exists q. rewrite lookup_insert_ne in Ho; [split; [by right | done] |].
        intros Eq. apply Hni. rewrite Eq. by apply list_elem_of_fmap_2.
    + intros [?|(q & [->|Hq]%elem_of_cons & <- & Ho & Hs)]; [by left; left | by left; right |]. right.
      exists q. split_and!; [done | done | | done]. rewrite lookup_insert_ne; [done |].
      intros Eq. apply Hni. rewrite Eq. by apply list_elem_of_fmap_2.
Qed.

(** An observation logs transitions and nothing else: afterwards the
    remembered status of every partner is the one just derived and everyone
    else's is untouched, and a line is logged for a partner exactly when the
    previous observation exists and differs, with the new status; a first
    observation logs nothing. *)
Theorem observe_status_transitions (now : OffsetDateTime) (clock : string → string) (db : BillingDb)
    (observed : gmap string bool) (Hkeyed : partners_keyed db) :
  let '(observed', log) := observe_status now clock db observed in
  (∀ c, observed' !! c = match partners db !! c with
                         | Some p => Some (suspended_now now clock db p)
                         | None => observed !! c
                         end)
  ∧ ∀ c b, (c, b) ∈ log ↔
      observed !! c = Some (negb b) ∧ ∃ p, partners db !! c = Some p ∧ suspended_now now clock db p = b.
Proof.
  destruct (list_partners_spec db Hkeyed) as [Hnd Hin]. unfold observe_status.
  pose proof (observe_each_spec now clock db (list_partners db) observed [] Hnd) as Hs.
  destruct (foldl _ _ _) as [observed' log]. destruct Hs as (H1 & H2 & H3).
  assert (∀ p, p ∈ list_partners db → partners db !! Partner.consumer_id p = Some p) as Hback.
  { intros p (id & _ & Hp)%list_elem_of_omap. by rewrite (Hkeyed id p Hp). }
  split.
  - intros c. destruct (partners db !! c) as [p|] eqn:Ep.
    + rewrite <- (Hkeyed c p Ep). apply H1. by eapply Hin.
    + apply H2. intros (p & -> & Hp)%list_elem_of_fmap. rewrite Hback in Ep by done. done.
  - intros c b. rewrite H3. split.
    + intros [?%elem_of_nil|(p & Hp & <- & Ho & Hsus)]; [done |]. split; [done |]. exists p. auto.
    + intros (Ho & p & Hp & Hsus). right. exists p. split_and!; [by eapply Hin | by apply (Hkeyed c) | done..].
Qed.
End Observations.

(** ** At concrete inputs *)
Lemma retry_delay_spec_witness : retry_delay 2 = 60 ∧ retry_delay 9 = 1440 ∧ retry_delay 2 ≤ retry_delay 9.
Proof.
  destruct (retry_delay_spec 2 9) as (_ & A & _ & C). destruct (retry_delay_spec 9 9) as (_ & _ & B & _).
  assert (0 ≤ 2 ≤ 6) as H2 by lia. assert (7 ≤ 9) as H9 by lia. assert (2 ≤ 9) as H29 by lia.
  split; [exact (A H2) |]. split; [exact (B H9) | exact (C H29)].
Defined.

Lemma store_1_dates : dates_ok store_1.
Proof.
  unfold dates_ok. cbn. intros i s [_ <-]%lookup_singleton_Some. exists day_2026_09_24. split; [reflexivity |]. split; concrete.
Qed.

Lemma failed_day_is_never_retried_witness :
  BillingDay.previous day_2026_09_24 ∉ walk generator_1 store_1 acme day_2026_09_24.
Proof.
  assert (day_ok day_2026_09_24) as Hd by concrete. assert (day_named day_2026_09_24) as Hn by concrete.
  assert (BillingDay.num (BillingDay.previous day_2026_09_24) ≤ BillingDay.num day_2026_09_24) as Hle by concrete.
  exact (failed_day_is_never_retried generator_1 store_1 acme day_2026_09_24 (BillingDay.previous day_2026_09_24)
    day_2026_09_24 1 statement_1 store_1_dates Hd eq_refl eq_refl eq_refl Hn Hle).
Defined.

(** A tick two days later, over a store where nothing is billed yet. *)
Definition tick_time : OffsetDateTime := odt_add t1 (2 * NS_PER_DAY).
Definition through_1 : BillingDay.t := default day_2026_09_24 (Generator.closable_through generator_1 tick_time).
Lemma is_Some_default {A} (o : option A) (d : A) : is_Some_b o = true → o = Some (default d o).
Proof. by destruct o. Qed.

Definition created_1 : option BillingDay.t := created_on generator_1 acme.
Definition created_1_day : BillingDay.t := default day_2026_09_24 created_1.

Lemma created_1_some : created_1 = Some created_1_day.
Proof. apply is_Some_default. vm_compute. reflexivity. Qed.

Lemma created_1_ok : creation_ok generator_1 acme.
Proof.
  intros d E. assert (Some created_1_day = Some d) as [= <-] by by rewrite <- created_1_some.
  split_and!; concrete.
Qed.

Definition closed_1 : BillingDb * Tick.t :=
  close_days generator_1 (λ _ _, day_records) tick_time (λ _ _, noon) store_0 Tick.default_tick.

Lemma closed_1_clean : Tick.failures closed_1.2 = 0.
Proof. vm_compute. reflexivity. Qed.

Lemma owed_1 : day_owed generator_1 store_0 acme through_1 day_2026_09_24.
Proof.
  split; [split; concrete |]. split.
  - intros last (j & y & Hj & _). cbn in Hj. by rewrite lookup_empty in Hj.
  - right. change (created_on generator_1 acme) with created_1. rewrite created_1_some. concrete.
Qed.

Lemma close_days_catches_up_witness :
  store_ok store_0 ∧ ∃ s, get_statement closed_1.1 "acme" "2026-09-24" = Some s.
Proof.
  assert (partners_keyed store_0) as Hk by (unfold partners_keyed; cbn; intros i p [<- <-]%lookup_singleton_Some; reflexivity).
  assert (dates_ok store_0) as Hd by (intros i s Hs; cbn in Hs; by rewrite lookup_empty in Hs).
  assert (map_Forall (λ _ p, creation_ok generator_1 p) (partners store_0)) as Hcr
    by (cbn; intros i p [_ <-]%lookup_singleton_Some; exact created_1_ok).
  assert (Generator.closable_through generator_1 tick_time = Some through_1) as Ht.
  { apply is_Some_default. vm_compute. reflexivity. }
  assert (day_ok through_1) as Hday by concrete.
  assert (day_ok (BillingDay.previous_n through_1 30) ∧ day_named (BillingDay.previous_n through_1 30)) as Hfloor
    by (split; concrete).
  pose proof (close_days_catches_up generator_1 (λ _ _, day_records) tick_time (λ _ _, noon) store_0
    Tick.default_tick through_1 store_0_ok Hk Hd Hcr Ht Hday Hfloor) as T.
  pose proof closed_1_clean as Hc. unfold closed_1 in *.
  destruct (close_days generator_1 (λ _ _, day_records) tick_time (λ _ _, noon) store_0 Tick.default_tick) as [db' tick'].
  destruct T as (_ & _ & T & _). split; [exact store_0_ok |].
  exact (T Hc "acme"%string acme day_2026_09_24 eq_refl owed_1).
Defined.

Definition statement_owed : Statement.t :=
  Statement.mk "acme" "2026-09-24" "invoice" CURRENCY "2026-09-23T17:00:00.000000000Z"
    "2026-09-24T17:00:00.000000000Z" "2026-09-24T17:30:00.000000000Z" 138 0
    (Some (format_ts t1)) None None None None None 0 None None None None noon noon.
Definition store_owed : BillingDb := mkBillingDb {[ "acme"%string := acme ]} {[ 1 := statement_owed ]} [] 2.

Lemma suspension_is_justified_witness :
  ledger_instant t2
  ∧ is_suspended (status_for (BillingMode.as_str BillingMode.Invoice) t2
      ((λ p, Statement.to_overdue_row p.1 p.2) <$> overdue_statements store_owed (format_ts t2) (Some "acme"%string))) = true.
Proof.
  split; [exact ledger_instant_t2 |].
  assert (map_Forall (λ _ s, statement_stored s) (daily_statements store_owed)) as Hs.
  { unfold store_owed. cbn [daily_statements]. apply map_Forall_singleton. split; [vm_compute; reflexivity |].
    cbn [statement_owed Statement.due_at]. intros due E. apply (inj Some) in E. rewrite <- E. exists t1. split; [exact ledger_instant_t1 | reflexivity]. }
  refine (proj2 (suspension_is_justified store_owed BillingMode.Invoice "acme" t2 Hs ledger_instant_t2) _).
  split; [reflexivity |]. exists 1, statement_owed, t1.
  split; [reflexivity |]. split; [reflexivity |]. split; [vm_compute; reflexivity |]. split; [reflexivity |].
  split; [exact ledger_instant_t1 | concrete].
Defined.

Lemma observe_status_transitions_witness :
  partners_keyed store_owed
  ∧ ("acme"%string, true) ∈ (observe_status t2 (λ _, format_ts t2) store_owed {[ "acme"%string := false ]}).2.
Proof.
  assert (partners_keyed store_owed) as Hk by (unfold partners_keyed; cbn; intros i p [<- <-]%lookup_singleton_Some; reflexivity).
  split; [exact Hk |].
  pose proof (observe_status_transitions t2 (λ _, format_ts t2) store_owed {[ "acme"%string := false ]} Hk) as T.
  destruct (observe_status t2 (λ _, format_ts t2) store_owed {[ "acme"%string := false ]}) as [observed' log].
  refine (proj2 (proj2 T "acme"%string true) _). split; [reflexivity |].
  exists acme. split; [reflexivity | vm_compute; reflexivity].
Defined.
