(* ===== verification/Mailer.v ===== *)
(** * A tick of the scheduler, mail included ([src/src/billing/worker.rs])

    [Worker::new], [send_emails] and [run_once]: what the statement mail does to
    the statements, over [Smtp.send]. *)

From stdpp Require Import base strings list gmap numbers sorting fin_maps.
From Stdlib Require Import Ascii ZArith Lia.
From S2P Require Import Prelude Utf8 Redaction Http Crypto TimeLib Calendar Timefmt Pricing Period Config Status Partner Context LedgerTypes Sql Rollup Statements BillingStore PartnerStore Email Smtp Worker.

Local Open Scope Z_scope.

Definition EMAIL_BATCH : nat := 50.
Definition MIN_INTERVAL_SECS : Z := 1.

Module BillingWorker.
Record t : Type := mk {
  generator : Generator.t;
  email : option Settings.t;
  interval : Z;
  instance_id : string;
  observed : gmap string bool }.

Definition new (billing : BillingConfig.t) (credentials : option SmtpCredentials.t) (instance_id : string)
    : result t BillingTimezone.TimezoneError :=
  let? timezone := BillingTimezone.from_offset_minutes (BillingConfig.timezone_offset_minutes billing) in
  let settings := Settings.from_config (BillingConfig.email billing) credentials in
  let email := if EmailConfig.enabled (BillingConfig.email billing) && Settings.is_complete settings
               then Some settings else None in
  Ok (mk (Generator.new timezone (BillingConfig.close_delay_minutes billing)) email
        (Z.max (BillingConfig.scheduler_interval_secs billing) MIN_INTERVAL_SECS) instance_id ∅).

Definition sends_email (self : t) : bool := match email self with Some _ => true | None => false end.
End BillingWorker.

Definition add_sent (self : Tick.t) : Tick.t :=
  Tick.mk (Tick.days self) (Tick.statements_created self) (Tick.statements_existing self)
    (Tick.statements_incomplete self) (Tick.emails_sent self + 1) (Tick.emails_failed self) (Tick.emails_skipped self)
    (Tick.failures self).
Definition add_email_failed (self : Tick.t) : Tick.t :=
  Tick.mk (Tick.days self) (Tick.statements_created self) (Tick.statements_existing self)
    (Tick.statements_incomplete self) (Tick.emails_sent self) (Tick.emails_failed self + 1) (Tick.emails_skipped self)
    (Tick.failures self).
Definition add_skipped (self : Tick.t) : Tick.t :=
  Tick.mk (Tick.days self) (Tick.statements_created self) (Tick.statements_existing self)
    (Tick.statements_incomplete self) (Tick.emails_sent self) (Tick.emails_failed self) (Tick.emails_skipped self + 1)
    (Tick.failures self).

Definition with_billing_db (db : StoreDb) (b : BillingDb) : StoreDb := mkStoreDb b (partner_models db).

(** What the outside does with each message: its relay, how long it is listened
    to, and the date of the message; and which calls of the database fail around
    it. *)
Record Mail : Type := mkMail {
  relay_of : Z → Relay;
  fuel_of : Z → nat;
  date_of : Z → string;
  claim_fails : bool;
  partner_read_fails : Z → bool;
  lines_read_fails : Z → bool;
  record_fails : Z → bool }.

Section SendEmails.
Context `{TimeCrate, Tls}.

(** [email::send]; [None] when the relay keeps the conversation open. *)
Definition mail_send (mail : Mail) (settings : Settings.t) (id : Z) (message : Message.t) : option (result unit SendError) :=
  fst <$> @send (relay_of mail id) _ (fuel_of mail id) settings message (date_of mail id).

Definition NO_PARTNER : string := "no partner row for this statement".

(** What one claimed statement comes to: a row that cannot be read, no partner
    row, or the outcome of building and sending its message. *)
Inductive Attempt : Type :=
  | Unread
  | Skipped
  | Attempted (outcome : result unit SendError).

Definition attempt (mail : Mail) (settings : Settings.t) (db : StoreDb) (id : Z) (statement : Statement.t) : option Attempt :=
  if partner_read_fails mail id then Some Unread
  else
    match get_partner db (Statement.consumer_id statement) with
    | None => Some Skipped
    | Some partner =>
        if lines_read_fails mail id then Some Unread
        else
          let lines := (statement_lines_for db id Scope.All).*2 in
          match statement_message id statement lines (Partner.name partner) (Settings.from_address settings)
                  (Partner.billing_email partner) with
          | Err e => Some (Attempted (Err e))
          | Ok message => Attempted <$> mail_send mail settings id message
          end
    end.

Definition minutes_after (now : OffsetDateTime) (minutes : Z) : OffsetDateTime := odt_add now (minutes * NS_PER_MINUTE).

(** What is recorded of it, if anything, and counted. *)
Definition attempt_outcome (now : OffsetDateTime) (statement : Statement.t) (a : Attempt) : option EmailOutcome :=
  match a with
  | Unread => None
  | Skipped => Some (Failed NO_PARTNER (minutes_after now EMAIL_RETRY_MAX_MINUTES))
  | Attempted (Ok _) => Some Sent
  | Attempted (Err e) =>
      Some (Failed (send_error_display e) (minutes_after now (retry_delay (Statement.email_attempts statement))))
  end.
Definition count_attempt (tick : Tick.t) (a : Attempt) : Tick.t :=
  match a with
  | Unread => tick
  | Skipped => add_skipped tick
  | Attempted (Ok _) => add_sent tick
  | Attempted (Err _) => add_email_failed tick
  end.

(** [record_email_attempt], whose failure is only logged. *)
Definition record_attempt (mail : Mail) (db : StoreDb) (id : Z) (outcome : option EmailOutcome) (clock : string) : StoreDb :=
  match outcome with
  | None => db
  | Some outcome =>
      if record_fails mail id then db
      else with_billing_db db (record_email_attempt (billing db) id outcome clock)
  end.

(** The loop over the claimed statements; [clock] is the reading that
    [record_email_attempt] takes for itself. *)
Fixpoint send_claimed (mail : Mail) (settings : Settings.t) (now : OffsetDateTime) (clock : Z → string)
    (claimed : list (Z * Statement.t)) (db : StoreDb) (tick : Tick.t) : option (StoreDb * Tick.t) :=
  match claimed with
  | [] => Some (db, tick)
  | (id, statement) :: rest =>
      match attempt mail settings db id statement with
      | None => None
      | Some a =>
          send_claimed mail settings now clock rest
            (record_attempt mail db id (attempt_outcome now statement a) (clock id))
            (count_attempt tick a)
      end
  end.

Definition send_emails (mail : Mail) (self : BillingWorker.t) (now : OffsetDateTime) (clock : Z → string)
    (db : StoreDb) (tick : Tick.t) : option (StoreDb * Tick.t) :=
  match BillingWorker.email self with
  | None => Some (db, tick)
  | Some settings =>
      if claim_fails mail then Some (db, tick) else
      let '(b, claimed) := claim_emails (billing db) now (BillingWorker.instance_id self) EMAIL_BATCH EMAIL_CLAIM_TTL_MINUTES in
      send_claimed mail settings now clock claimed (with_billing_db db b) tick
  end.

(** [run_once]: the database afterwards, the tally, the worker with its
    observations, and the transitions it logs. *)
Definition run_once (mail : Mail) (self : BillingWorker.t) (records : string → BillingDay.t → Records)
    (now : OffsetDateTime) (close_clock : string → BillingDay.t → string) (mail_clock : Z → string)
    (status_clock : string → string) (db : StoreDb)
    : option (StoreDb * Tick.t * BillingWorker.t * list (string * bool)) :=
  let '(b, tick) := close_days (BillingWorker.generator self) records now close_clock (billing db) Tick.default_tick in
  match send_emails mail self now mail_clock (with_billing_db db b) tick with
  | None => None
  | Some (db', tick') =>
      let '(observed, log) := observe_status now status_clock (billing db') (BillingWorker.observed self) in
      Some (db', tick',
            BillingWorker.mk (BillingWorker.generator self) (BillingWorker.email self) (BillingWorker.interval self)
              (BillingWorker.instance_id self) observed, log)
  end.
End SendEmails.

(** ** What the mail does to the statements *)
Section Recorded.
Context `{TimeCrate, Tls}.

(** A statement after its attempt. *)
Definition recorded (mail : Mail) (now : OffsetDateTime) (clock : string) (id : Z) (s : Statement.t) (a : Attempt) : Statement.t :=
  match attempt_outcome now s a with
  | None => s
  | Some outcome =>
      if record_fails mail id then s
      else match outcome with
      | Sent => email_row (match Statement.email_sent_at s with Some t => Some t | None => Some clock end)
                  (Statement.email_attempts s + 1) None None None None clock s
      | Failed error retry_at =>
          email_row (Statement.email_sent_at s) (Statement.email_attempts s + 1) (Some error)
            (Some (format_ts retry_at)) None None clock s
      end
  end.

Lemma record_lookup mail db id s now a clock :
  daily_statements (billing db) !! id = Some s →
  record_attempt mail db id (attempt_outcome now s a) clock
    = with_billing_db db (with_statements (billing db) (<[id := recorded mail now clock id s a]> (daily_statements (billing db)))).
Proof.
  intros Hs. unfold record_attempt, recorded.
  assert (db = with_billing_db db (with_statements (billing db) (<[id := s]> (daily_statements (billing db))))) as Hsame.
  { rewrite insert_id by done. by destruct db as [[]]. }
  destruct (attempt_outcome now s a) as [o|]; [| done]. destruct (record_fails mail id); [done |].
  unfold record_email_attempt. rewrite Hs. by destruct o.
Qed.

(** Recording an outcome changes nothing the next message is built from. *)
Lemma attempt_same mail settings db m id s :
  is_Some (daily_statements (billing db) !! id) → is_Some (m !! id) →
  attempt mail settings (with_billing_db db (with_statements (billing db) m)) id s = attempt mail settings db id s.
Proof.
  intros [x Hx] [y Hy]. unfold attempt.
  assert (statement_lines_for (with_billing_db db (with_statements (billing db) m)) id Scope.All
          = statement_lines_for db id Scope.All) as ->; [| done].
  unfold statement_lines_for. f_equal. cbn. apply list_filter_iff. intros p. unfold scoped_line. cbn.
  destruct (Z.eqb_spec (StatementLine.statement_id p.2) id) as [->|]; [| done]. by rewrite Hx, Hy.
Qed.

Definition is_sent (a : option Attempt) : bool := match a with Some (Attempted (Ok _)) => true | _ => false end.

Lemma send_claimed_spec mail settings now clock claimed db tick db' tick' :
  NoDup claimed.*1 → (∀ id s, (id, s) ∈ claimed → daily_statements (billing db) !! id = Some s) →
  send_claimed mail settings now clock claimed db tick = Some (db', tick') →
  (∃ m, db' = with_billing_db db (with_statements (billing db) m))
  ∧ (∀ id, id ∉ claimed.*1 → daily_statements (billing db') !! id = daily_statements (billing db) !! id)
  ∧ (∀ id s, (id, s) ∈ claimed → ∃ a, attempt mail settings db id s = Some a
       ∧ daily_statements (billing db') !! id = Some (recorded mail now (clock id) id s a))
  ∧ Tick.emails_sent tick'
    = Tick.emails_sent tick + zsum ((λ p, Z.b2z (is_sent (attempt mail settings db p.1 p.2))) <$> claimed).
Proof.
  revert db tick. induction claimed as [|[id s] claimed IH]; intros db tick Hnd Hin E; cbn [send_claimed] in E.
  { injection E as <- <-. split_and!; [| done | by intros id s ?%elem_of_nil | cbn; lia].
    exists (daily_statements (billing db)). by destruct db as [[]]. }
  destruct (attempt mail settings db id s) as [a|] eqn:Ea; [| done].
  pose proof (Hin id s ltac:(by left)) as Hs. rewrite (record_lookup _ _ _ s) in E by done.
  set (m1 := <[id := _]> _) in E. apply NoDup_cons in Hnd as [Hni Hnd].
  destruct (IH (with_billing_db db (with_statements (billing db) m1)) (count_attempt tick a) Hnd) as ([m Em] & H1 & H2 & H3); [| done |].
  { intros j x Hj. cbn. unfold m1. rewrite lookup_insert_ne; [apply Hin; by right |].
    intros ->. apply Hni. apply list_elem_of_fmap. by exists (j, x). }
  assert (∀ j x, j ∈ claimed.*1 →
    attempt mail settings (with_billing_db db (with_statements (billing db) m1)) j x = attempt mail settings db j x) as Hsame.
  { intros j x ([j' y] & -> & Hj)%list_elem_of_fmap. cbn. specialize (Hin j' y ltac:(by right)). apply attempt_same; [by eexists |].
    unfold m1. destruct (decide (id = j')) as [->|]; [rewrite lookup_insert_eq; by eexists | rewrite lookup_insert_ne by done; by eexists]. }
  split_and!.
  - exists m. by rewrite Em.
  - intros j Hj. rewrite H1 by (intros ?; apply Hj; by right). cbn. unfold m1.
    rewrite lookup_insert_ne; [done |]. intros ->. apply Hj. by left.
  - intros j x [[= -> ->]|Hj]%elem_of_cons.
    + exists a. split; [done |]. rewrite H1 by done. cbn. unfold m1. by rewrite lookup_insert_eq.
    + destruct (H2 j x Hj) as (a' & Ha' & Hr). exists a'. split; [| done]. rewrite <- Ha'. symmetry.
      apply Hsame. by apply (list_elem_of_fmap_2 fst) in Hj.
  - rewrite H3. cbn [fmap list_fmap zsum foldr fst snd]. rewrite Ea.
    change (foldr Z.add 0 ?l) with (zsum l). unfold zsum.
    assert (Tick.emails_sent (count_attempt tick a) = Tick.emails_sent tick + Z.b2z (is_sent (Some a))) as ->
      by (destruct a as [| |[]]; cbn; lia).
    rewrite (list_fmap_ext _ (λ p, Z.b2z (is_sent (attempt mail settings db p.1 p.2))) claimed); [lia |].
    intros i [j x] Hl. cbn. rewrite Hsame; [done |]. apply list_elem_of_fmap. exists (j, x). split; [done |].
    by eapply list_elem_of_lookup_2.
Qed.

Lemma claimed_nodup db now inst limit ttl : NoDup (claim_emails db now inst limit ttl).2.*1.
Proof.
  unfold claim_emails. cbn [snd]. eapply sublist_NoDup; [| apply fmap_sublist, sublist_filter]. apply NoDup_fst_map_to_list.
Qed.

(** A claimed row is the row it was, with the lease on it. *)
Lemma claimed_from db now inst limit ttl id s :
  (id, s) ∈ (claim_emails db now inst limit ttl).2 →
  daily_statements (claim_emails db now inst limit ttl).1 !! id = Some s
  ∧ ∃ s0, daily_statements db !! id = Some s0 ∧ claimable db (format_ts now) s0 = true
      ∧ s = claimed_row inst (format_ts (odt_add now (ttl * NS_PER_MINUTE))) s0.
Proof.
  intros [Hid Hs]%claim_emails_claimed. split; [done |].
  destruct (claim_ids_claimable _ _ _ _ Hid) as (s0 & Hs0 & Hc). exists s0. split_and!; [done | done |].
  rewrite claim_emails_lookup, Hs0 in Hs. cbn in Hs. rewrite decide_True in Hs by done. by injection Hs.
Qed.

Lemma unclaimed_same db now inst limit ttl id :
  id ∉ (claim_emails db now inst limit ttl).2.*1 →
  daily_statements (claim_emails db now inst limit ttl).1 !! id = daily_statements db !! id.
Proof.
  intros Hni. rewrite claim_emails_lookup. destruct (daily_statements db !! id) as [s|] eqn:Es; [| done]. cbn.
  rewrite decide_False; [done |]. intros Hin. apply Hni. apply list_elem_of_fmap.
  eexists (id, _). split; [done |]. apply claim_emails_claimed. split; [done |].
  rewrite claim_emails_lookup, Es. done.
Qed.

Lemma claim_emails_tables db now inst limit ttl :
  ∃ m, (claim_emails db now inst limit ttl).1 = with_statements db m ∧ (∀ id, is_Some (m !! id) ↔ is_Some (daily_statements db !! id)).
Proof.
  eexists. split; [done |]. intros id. rewrite map_lookup_imap. destruct (daily_statements db !! id); cbn; split; intros [? ?]; done || by eexists.
Qed.

(** The rows of a statement's message could be read. *)
Definition readable (mail : Mail) (db : StoreDb) (id : Z) (s : Statement.t) : Prop :=
  partner_read_fails mail id = false
  ∧ (is_Some (get_partner db (Statement.consumer_id s)) → lines_read_fails mail id = false).

(** The relay of a statement took the message over: the one made of the statement,
    its own stored lines and the partner's address. *)
Definition accepted_by_relay (mail : Mail) (settings : Settings.t) (db : StoreDb) (id : Z) (s : Statement.t) : Prop :=
  ∃ partner message log,
    get_partner db (Statement.consumer_id s) = Some partner
    ∧ statement_message id s (statement_lines_for db id Scope.All).*2 (Partner.name partner) (Settings.from_address settings)
        (Partner.billing_email partner) = Ok message
    ∧ Message.to message = Partner.billing_email partner
    ∧ @send (relay_of mail id) _ (fuel_of mail id) settings message (date_of mail id) = Some (Ok tt, log).

Lemma dec_stable_readable mail db id s : ¬ ¬ readable mail db id s → readable mail db id s.
Proof.
  unfold readable. intros H'. destruct (partner_read_fails mail id); [exfalso; apply H'; by intros [] |].
  split; [done |]. intros Hp. destruct (lines_read_fails mail id); [| done].
  exfalso. apply H'. intros [_ Hl]. by specialize (Hl Hp).
Qed.

Lemma own_lines db id s :
  daily_statements (billing db) !! id = Some s →
  (statement_lines_for db id Scope.All).*2 ≡ₚ filter (λ l, StatementLine.statement_id l = id) (statement_lines (billing db)).
Proof.
  intros Hs. unfold statement_lines_for. rewrite merge_sort_Permutation.
  assert (∀ (l : list StatementLine.t) n, (filter (λ p, scoped_line db id Scope.All p.2 = true) (imap (λ i, pair (n + i)%nat) l)).*2
    = filter (λ x, StatementLine.statement_id x = id) l) as E; [| by rewrite (E _ O)].
  induction l as [|x l IH]; intros n; [done |]. cbn [imap]. rewrite !filter_cons. cbn [snd].
  rewrite <- (IH (S n)). rewrite (imap_ext _ (λ i, pair (S n + i)%nat)) by (intros; unfold compose; f_equal; lia).
  assert (scoped_line db id Scope.All x = true ↔ StatementLine.statement_id x = id) as Hx.
  { unfold scoped_line. rewrite andb_true_iff, Z.eqb_eq. split; [by intros [? _] |]. intros E. by rewrite E, Hs. }
  destruct (decide (StatementLine.statement_id x = id)) as [E|E];
    [rewrite decide_True by (by apply Hx) | rewrite decide_False by (by rewrite Hx)]; done.
Qed.

(** What the attempt of a claimed row was, told by what the relay did. *)
Lemma attempt_accepted mail settings db id s inst until a :
  attempt mail settings db id (claimed_row inst until s) = Some a →
  (a = Unread ↔ ¬ readable mail db id s)
  ∧ (is_sent (Some a) = true → accepted_by_relay mail settings db id s)
  ∧ (readable mail db id s → accepted_by_relay mail settings db id s → is_sent (Some a) = true).
Proof.
  unfold attempt, readable, accepted_by_relay. cbn [claimed_row email_row Statement.consumer_id].
  assert (∀ lines name from to, statement_message id (claimed_row inst until s) lines name from to
    = statement_message id s lines name from to) as Hmsg by done.
  destruct (partner_read_fails mail id); [intros [= <-]; split_and!; [naive_solver | done | by intros [? _]] |].
  destruct (get_partner db (Statement.consumer_id s)) as [partner|] eqn:Ep.
  2:{ intros [= <-]. split_and!; [split; [done | intros []; split; [done | by intros [? ?]]] | done | by intros _ (? & ? & ? & ? & _)]. }
  destruct (lines_read_fails mail id).
  { intros [= <-]. split_and!; [| done | intros [_ Hl]; by specialize (Hl ltac:(by eexists))].
    split; [| done]. intros _ [_ Hl]. by specialize (Hl ltac:(by eexists)). }
  rewrite Hmsg. destruct (statement_message _ _ _ _ _ _) as [message|e] eqn:Em.
  2:{ intros [= <-]. split_and!; [split; [done | by intros []] | done | intros _ (q & m & l & [= <-] & Em' & _); congruence]. }
  unfold mail_send. destruct (send _ _ _ _) as [[r log]|] eqn:Es; [| done]. intros [= <-]. split_and!.
  - split; [done | by intros []].
  - destruct r as [[]|]; [| done]. intros _. exists partner, message, log. split_and!; try done.
    by apply message_new_Ok in Em as (-> & _).
  - intros _ (q & m & l & [= <-] & Em' & _ & Es'). rewrite Em in Em'. injection Em' as <-. rewrite Es in Es'. by injection Es' as ->.
Qed.

Lemma recorded_claimed mail settings db id s inst until now clock a :
  attempt mail settings db id (claimed_row inst until s) = Some a → Statement.email_sent_at s = None →
  let noted := readable mail db id s ∧ record_fails mail id = false in
  let s' := recorded mail now clock id (claimed_row inst until s) a in
  Statement.email_sent_at s = None
  ∧ Statement.total_amount_micro_usd s' = Statement.total_amount_micro_usd s
  ∧ (is_Some (Statement.email_sent_at s') ↔ noted ∧ accepted_by_relay mail settings db id s)
  ∧ (¬ noted → s' = claimed_row inst until s)
  ∧ (noted →
     Statement.email_attempts s' = Statement.email_attempts s + 1
     ∧ Statement.email_claimed_until s' = None
     ∧ (accepted_by_relay mail settings db id s →
          Statement.email_sent_at s' = Some clock ∧ Statement.email_last_error s' = None)
     ∧ (¬ accepted_by_relay mail settings db id s →
          is_Some (Statement.email_last_error s')
          ∧ ∃ delay, 15 ≤ delay ≤ 1440 ∧ Statement.email_next_retry_at s' = Some (format_ts (minutes_after now delay)))).
Proof.
  intros Ha Hsent noted s'. destruct (attempt_accepted _ _ _ _ _ _ _ _ Ha) as (Hun & Hyes & Hconv).
  assert (15 ≤ retry_delay (Statement.email_attempts s) ≤ 1440) as Hdelay.
  { rewrite retry_delay_value.
    pose proof (Z.pow_pos_nonneg 2 (Z.max 0 (Z.min 16 (Statement.email_attempts s))) ltac:(lia) ltac:(lia)). lia. }
  split; [done |]. subst s' noted. unfold recorded, attempt_outcome.
  destruct (record_fails mail id) eqn:Er.
  { destruct a as [| |[[]|e]]; cbn; rewrite Hsent; (split_and!; [done | split; [by intros [] | by intros [[] _]] | done | by intros []]). }
  destruct a as [| |[[]|e]]; cbn; rewrite Hsent.
  - assert (¬ readable mail db id s) as Hr by (by apply Hun).
    split_and!; [done | split; [by intros [] | by intros [[] _]] | done | by intros []].
  - assert (readable mail db id s) as Hr by (apply dec_stable_readable; intros Hr; by apply Hun in Hr).
    assert (¬ accepted_by_relay mail settings db id s) as Hno by (intros Hacc; by specialize (Hconv Hr Hacc)).
    split_and!; [done | split; [by intros [] | by intros [_ ?]] | by intros [] |].
    intros _. split_and!; [done | done | done |]. intros _. split; [by eexists |]. exists EMAIL_RETRY_MAX_MINUTES. done.
  - assert (readable mail db id s) as Hr by (apply dec_stable_readable; intros Hr; by apply Hun in Hr).
    specialize (Hyes eq_refl). split_and!; [done | split; [done | by eexists] | by intros [] |].
    intros _. split_and!; done.
  - assert (readable mail db id s) as Hr by (apply dec_stable_readable; intros Hr; by apply Hun in Hr).
    assert (¬ accepted_by_relay mail settings db id s) as Hno by (intros Hacc; by specialize (Hconv Hr Hacc)).
    split_and!; [done | split; [by intros [] | by intros [_ ?]] | by intros [] |].
    intros _. split_and!; [done | done | done |]. intros _. split; [by eexists |]. by eexists.
Qed.

(** C16. A statement is marked as sent exactly when its relay accepted the message
    and the database took the note of it. A tick's mail leaves every statement
    alone that it did not claim. The message of a claimed one is made of the
    statement, its own stored lines and the partner's address. When the tick's
    reads and the note succeed, the lease is given back and the attempt counted,
    and the time of sending is recorded when the relay accepted the message, the
    reason and the time of the next attempt when it did not. When one of them
    fails, the row keeps its lease and counts no attempt, even if the relay has
    accepted the message, which is then sent again once the lease has lapsed. The
    amount stays what it was, and so do the other tables. *)
Theorem statement_mail_is_truthful (mail : Mail) (worker : BillingWorker.t) (settings : Settings.t) (now : OffsetDateTime)
    (clock : Z → string) (db db' : StoreDb) (tick tick' : Tick.t) (id : Z) (s : Statement.t)
    (Hsettings : BillingWorker.email worker = Some settings)
    (Hsend : send_emails mail worker now clock db tick = Some (db', tick'))
    (Hs : daily_statements (billing db) !! id = Some s) :
  let claimed := if claim_fails mail then []
    else (claim_emails (billing db) now (BillingWorker.instance_id worker) EMAIL_BATCH EMAIL_CLAIM_TTL_MINUTES).2.*1 in
  let noted := readable mail db id s ∧ record_fails mail id = false in
  let lease_end := format_ts (minutes_after now EMAIL_CLAIM_TTL_MINUTES) in
  (statement_lines_for db id Scope.All).*2 ≡ₚ filter (λ l, StatementLine.statement_id l = id) (statement_lines (billing db))
  ∧ ∃ s', daily_statements (billing db') !! id = Some s'
    ∧ (id ∉ claimed → s' = s)
    ∧ (id ∈ claimed →
       Statement.email_sent_at s = None
       ∧ Statement.total_amount_micro_usd s' = Statement.total_amount_micro_usd s
       ∧ (is_Some (Statement.email_sent_at s') ↔ noted ∧ accepted_by_relay mail settings db id s)
       ∧ (¬ noted → s' = claimed_row (BillingWorker.instance_id worker) lease_end s)
       ∧ (noted →
          Statement.email_attempts s' = Statement.email_attempts s + 1
          ∧ Statement.email_claimed_until s' = None
          ∧ (accepted_by_relay mail settings db id s →
               Statement.email_sent_at s' = Some (clock id) ∧ Statement.email_last_error s' = None)
          ∧ (¬ accepted_by_relay mail settings db id s →
               is_Some (Statement.email_last_error s')
               ∧ ∃ delay, 15 ≤ delay ≤ 1440 ∧ Statement.email_next_retry_at s' = Some (format_ts (minutes_after now delay)))))
    ∧ partners (billing db') = partners (billing db) ∧ statement_lines (billing db') = statement_lines (billing db)
    ∧ partner_models db' = partner_models db.
Proof.
  unfold send_emails in Hsend. rewrite Hsettings in Hsend. cbn zeta. split; [by eapply own_lines |].
  destruct (claim_fails mail).
  { injection Hsend as <- <-. exists s. split_and!; try done. by intros ?%elem_of_nil. }
  set (inst := BillingWorker.instance_id worker) in *.
  pose proof (claimed_nodup (billing db) now inst EMAIL_BATCH EMAIL_CLAIM_TTL_MINUTES) as Hnd.
  pose proof (λ id s, claimed_from (billing db) now inst EMAIL_BATCH EMAIL_CLAIM_TTL_MINUTES id s) as Hfrom.
  pose proof (λ id, unclaimed_same (billing db) now inst EMAIL_BATCH EMAIL_CLAIM_TTL_MINUTES id) as Hun.
  destruct (claim_emails_tables (billing db) now inst EMAIL_BATCH EMAIL_CLAIM_TTL_MINUTES) as (m1 & Em1 & Hdom).
  destruct (claim_emails (billing db) now inst EMAIL_BATCH EMAIL_CLAIM_TTL_MINUTES) as [b claimed]. cbn [fst snd] in *. subst b.
  destruct (send_claimed_spec mail settings now clock claimed (with_billing_db db (with_statements (billing db) m1)) tick db' tick' Hnd)
    as ([m ->] & Hother & Hrec & _); [intros j x Hj; by apply Hfrom in Hj as [? _] | exact Hsend |].
  assert (is_Some (m !! id)) as [s' Hs'].
  { destruct (decide (id ∈ claimed.*1)) as [([j x] & -> & Hj)%list_elem_of_fmap|Hni].
    - destruct (Hrec j x Hj) as (a & _ & E). cbn in E |- *. rewrite E. by eexists.
    - specialize (Hother id Hni). cbn in Hother. rewrite Hother. apply Hdom. by eexists. }
  exists s'. split; [done |]. split.
  { intros Hni. specialize (Hother id Hni). cbn in Hother. specialize (Hun id Hni). cbn in Hun. congruence. }
  split; [| done]. intros ([j x] & -> & Hj)%list_elem_of_fmap. cbn [fst] in *.
  destruct (Hfrom j x Hj) as (_ & s0 & Hs0 & Hclaim & ->). rewrite Hs in Hs0. injection Hs0 as <-.
  destruct (Hrec j _ Hj) as (a & Ha & E). cbn in E. rewrite Hs' in E. injection E as ->.
  rewrite attempt_same in Ha; [| by eexists | by apply Hdom; eexists].
  apply (recorded_claimed mail settings db j s inst _ now (clock j) a Ha).
  unfold claimable in Hclaim. by destruct (Statement.email_sent_at s).
Qed.

(** A tick whose conversations end comes to an end itself. *)
Lemma send_emails_ends mail worker now clock db tick :
  (∀ id settings message, is_Some (@send (relay_of mail id) _ (fuel_of mail id) settings message (date_of mail id))) →
  is_Some (send_emails mail worker now clock db tick).
Proof.
  intros Hends. unfold send_emails. destruct (BillingWorker.email worker) as [settings|]; [| done].
  destruct (claim_fails mail); [done |].
  destruct (claim_emails _ _ _ _ _) as [b claimed]. generalize (with_billing_db db b). revert tick.
  induction claimed as [|[id s] claimed IH]; intros tick d; [done |]. cbn [send_claimed].
  assert (is_Some (attempt mail settings d id s)) as [a ->]; [| apply IH].
  unfold attempt. destruct (partner_read_fails mail id); [done |]. destruct (get_partner _ _) as [partner|]; [| done].
  destruct (lines_read_fails mail id); [done |]. destruct (statement_message _ _ _ _ _ _) as [message|]; [| done].
  unfold mail_send. destruct (Hends id settings message) as [[r log] ->]. done.
Qed.

(** One lease covers a whole batch, and the batch is sent one message after the
    other: when the lease lapses while the batch is under way, every statement
    of it that was not reached yet can be claimed by another instance, although
    this one goes on and sends it as well. *)
Theorem batch_outlives_its_lease `{!TimeLaws} (mail : Mail) (settings : Settings.t) (now now2 : OffsetDateTime)
    (instance_id : string) (clock : Z → string) (db db2 : StoreDb) (tick tick2 : Tick.t)
    (reached unreached : list (Z * Statement.t)) (id : Z) (s : Statement.t)
    (Hbatch : (claim_emails (billing db) now instance_id EMAIL_BATCH EMAIL_CLAIM_TTL_MINUTES).2 = reached ++ (id, s) :: unreached)
    (Hreached : send_claimed mail settings now clock reached
       (with_billing_db db (claim_emails (billing db) now instance_id EMAIL_BATCH EMAIL_CLAIM_TTL_MINUTES).1) tick
       = Some (db2, tick2))
    (Hnow : ledger_instant now) (Hnow2 : ledger_instant now2)
    (Hend : ledger_instant (odt_add now (EMAIL_CLAIM_TTL_MINUTES * NS_PER_MINUTE)))
    (Hafter : unix_timestamp_nanos now ≤ unix_timestamp_nanos now2)
    (Hlapsed : unix_timestamp_nanos (odt_add now (EMAIL_CLAIM_TTL_MINUTES * NS_PER_MINUTE)) ≤ unix_timestamp_nanos now2) :
  daily_statements (billing db2) !! id = Some s ∧ claimable (billing db2) (format_ts now2) s = true.
Proof.
  assert (∀ a b, ledger_instant a → ledger_instant b → unix_timestamp_nanos a ≤ unix_timestamp_nanos b →
    str_ltb (format_ts b) (format_ts a) = false) as Hle.
  { intros a b Ha Hb Hab. apply not_true_iff_false. intros Hlt. apply format_ts_lt in Hlt; [lia | done | done]. }
  pose proof (claimed_nodup (billing db) now instance_id EMAIL_BATCH EMAIL_CLAIM_TTL_MINUTES) as Hnd.
  pose proof (λ id s, claimed_from (billing db) now instance_id EMAIL_BATCH EMAIL_CLAIM_TTL_MINUTES id s) as Hfrom.
  destruct (claim_emails_tables (billing db) now instance_id EMAIL_BATCH EMAIL_CLAIM_TTL_MINUTES) as (m1 & Em1 & Hdom).
  destruct (claim_emails (billing db) now instance_id EMAIL_BATCH EMAIL_CLAIM_TTL_MINUTES) as [b claimed].
  cbn [fst snd] in *. subst b claimed. rewrite fmap_app in Hnd. apply NoDup_app in Hnd as (Hnd & Hdisj & _).
  destruct (send_claimed_spec mail settings now clock reached (with_billing_db db (with_statements (billing db) m1)) tick db2 tick2 Hnd)
    as ([m ->] & Hother & _); [intros j x Hj; apply Hfrom; apply elem_of_app; by left | exact Hreached |].
  destruct (Hfrom id s ltac:(apply elem_of_app; right; by left)) as (Hrow & s0 & Hs0 & Hclaim & ->).
  rewrite Hother by (intros Hin; apply (Hdisj _ Hin); by left). split; [exact Hrow |].
  unfold claimable in *. cbn -[format_ts]. rewrite !andb_true_iff in *.
  destruct Hclaim as [[[[[[C1 C2] C3] C4] C5] Hretry] _]. split_and!; try assumption.
  - destruct (Statement.email_next_retry_at s0) as [t|]; [| done]. cbn in *. unfold str_leb in *.
    apply negb_true_iff in Hretry. apply negb_true_iff, not_true_iff_false. intros Hlt.
    specialize (Hle now now2 Hnow Hnow2 Hafter).
    destruct (str_ltb (format_ts now) (format_ts now2)) eqn:E.
    + rewrite (str_ltb_trans _ _ _ E Hlt) in Hretry. done.
    + rewrite (str_ltb_total _ _ E Hle) in Hretry. congruence.
  - unfold str_leb. rewrite Hle by done. done.
Qed.
End Recorded.

(** ** Starting *)

(** The worker and the configuration agree on when statements are mailed, and
    a configuration that was accepted always starts: its timezone is usable, its
    close delay is not clamped and it never spins. *)
Theorem valid_config_starts `{TimeCrate, Http, !ConfigFormats} (config : Config.t) (credentials : option SmtpCredentials.t)
    (instance_id : string) (Hvalid : validate config = Ok tt) :
  ∃ worker, BillingWorker.new (Config.billing config) credentials instance_id = Ok worker
    ∧ BillingWorker.sends_email worker = Config.sends_statement_email config
    ∧ BillingTimezone.offset_minutes (Generator.timezone (BillingWorker.generator worker))
        = BillingConfig.timezone_offset_minutes (Config.billing config)
    ∧ Generator.close_delay_minutes (BillingWorker.generator worker) = BillingConfig.close_delay_minutes (Config.billing config)
    ∧ 1 ≤ BillingWorker.interval worker.
Proof.
  apply validate_exact in Hvalid as (_ & _ & _ & _ & _ & Htz & Hdelay & _).
  unfold BillingWorker.new, BillingTimezone.from_offset_minutes.
  assert (in_range BillingTimezone.MIN_OFFSET_MINUTES BillingTimezone.MAX_OFFSET_MINUTES
            (BillingConfig.timezone_offset_minutes (Config.billing config)) = true) as -> by (unfold in_range; lia).
  cbn [negb]. eexists. split; [done |]. cbn. split_and!; [| done | lia | unfold MIN_INTERVAL_SECS; lia].
  unfold BillingWorker.sends_email, Config.sends_statement_email, Settings.is_complete, Settings.from_config. cbn -[trim].
  destruct (EmailConfig.enabled _), (str_is_empty (trim (EmailConfig.smtp_host _))),
    (str_is_empty (trim (EmailConfig.from_address _))); done.
Qed.

(** ** At a concrete store and a scripted relay *)

Definition mail_1 : Mail := mkMail (λ _, script_relay plain_script) (λ _, 20%nat) (λ _, date_1) false (λ _, false) (λ _, false) (λ _, false).
Definition worker_1 : BillingWorker.t := BillingWorker.mk generator_1 (Some (acme_settings None)) 30 "i-1" ∅.
Definition mailed_1 : option (StoreDb * Tick.t) :=
  @send_emails _ tls_build mail_1 worker_1 t1 (λ _, format_ts t1) portal_1 Tick.default_tick.

Lemma some_default {A} (o : option A) (d : A) : is_Some_b o = true → o = Some (default d o).
Proof. by destruct o. Qed.

Definition after_mail_1 : StoreDb * Tick.t := default (portal_1, Tick.default_tick) mailed_1.
Lemma mailed_1_ok : mailed_1 = Some after_mail_1.
Proof. apply some_default. vm_compute. reflexivity. Qed.

Lemma mailed_1_counts : Tick.emails_sent after_mail_1.2 = 1.
Proof. vm_compute. reflexivity. Qed.

Lemma mailed_1_sent : is_Some_b (daily_statements (billing after_mail_1.1) !! 1 ≫= Statement.email_sent_at) = true.
Proof. vm_compute. reflexivity. Qed.

(** The scripted relay accepts the statement's message, and so it is marked. *)
Lemma statement_mail_is_truthful_witness :
  BillingWorker.email worker_1 = Some (acme_settings None)
  ∧ @accepted_by_relay tls_build mail_1 (acme_settings None) portal_1 1 statement_1.
Proof.
  split; [reflexivity |].
  assert (mailed_1 = Some (after_mail_1.1, after_mail_1.2)) as E by (rewrite mailed_1_ok; by destruct after_mail_1).
  destruct (@statement_mail_is_truthful _ tls_build mail_1 worker_1 (acme_settings None) t1 (λ _, format_ts t1) portal_1
    after_mail_1.1 Tick.default_tick after_mail_1.2 1 statement_1 eq_refl E portal_1_statement) as (_ & s' & H1 & _ & H3 & _).
  assert (1 ∈ (claim_emails (billing portal_1) t1 (BillingWorker.instance_id worker_1) EMAIL_BATCH EMAIL_CLAIM_TTL_MINUTES).2.*1)
    as Hin by (apply (bool_decide_unpack _); vm_compute; reflexivity).
  destruct (H3 Hin) as (_ & _ & Hiff & _). pose proof mailed_1_sent as Hsent. rewrite H1 in Hsent.
  apply Hiff. cbn [mbind option_bind] in Hsent. destruct (Statement.email_sent_at s'); [by eexists | discriminate Hsent].
Defined.

Lemma valid_config_starts_witness :
  is_ok (validate config_1) = true
  ∧ ∃ worker, BillingWorker.new (Config.billing config_1) None "i-1" = Ok worker ∧ BillingWorker.sends_email worker = false.
Proof.
  split; [vm_compute; reflexivity |].
  assert (validate config_1 = Ok tt) as Hv by (vm_compute; reflexivity).
  destruct (valid_config_starts config_1 None "i-1" Hv) as (worker & H1 & H2 & _). exists worker. split; [exact H1 |].
  rewrite H2. vm_compute. reflexivity.
Defined.

Definition lease_end_1 : OffsetDateTime := odt_add t1 (EMAIL_CLAIM_TTL_MINUTES * NS_PER_MINUTE).
Definition batch_1 : list (Z * Statement.t) := (claim_emails (billing portal_1) t1 "i-1" EMAIL_BATCH EMAIL_CLAIM_TTL_MINUTES).2.
Definition first_1 : Z * Statement.t := default (0, statement_1) (head batch_1).

Lemma batch_1_first : batch_1 = [first_1].
Proof. vm_compute. reflexivity. Qed.

Lemma batch_outlives_its_lease_witness :
  batch_1 = [] ++ (first_1.1, first_1.2) :: []
  ∧ claimable (billing (with_billing_db portal_1 (claim_emails (billing portal_1) t1 "i-1" EMAIL_BATCH EMAIL_CLAIM_TTL_MINUTES).1))
      (format_ts lease_end_1) first_1.2 = true.
Proof.
  assert (batch_1 = [] ++ (first_1.1, first_1.2) :: []) as Hb by (rewrite batch_1_first; by destruct first_1).
  split; [exact Hb |].
  assert (ledger_instant lease_end_1) as Hend by concrete.
  assert (unix_timestamp_nanos t1 ≤ unix_timestamp_nanos lease_end_1) as Hafter by concrete.
  exact (proj2 (@batch_outlives_its_lease _ tls_build _ mail_1 (acme_settings None) t1 lease_end_1 "i-1" (λ _, ""%string) portal_1
    (with_billing_db portal_1 (claim_emails (billing portal_1) t1 "i-1" EMAIL_BATCH EMAIL_CLAIM_TTL_MINUTES).1)
    Tick.default_tick Tick.default_tick [] [] first_1.1 first_1.2 Hb eq_refl ledger_instant_t1 Hend Hend Hafter (Z.le_refl _))).
Defined.
