(* ===== verification/Auth.v ===== *)
(** * Authenticating a request ([src/src/auth/middleware.rs], [find_manager] of [src/src/config/types.rs])

    The bearer token of a request becomes a context: a partner's, looked up in
    the key snapshot, or the manager's. What the context may read follows. *)

From stdpp Require Import base strings list gmap numbers.
From Stdlib Require Import Ascii ZArith Lia.
From S2P Require Import Prelude Utf8 Crypto TimeLib Calendar Timefmt Pricing Period Status Partner Context LedgerTypes Sql Statements BillingStore PartnerStore ApiKeys KeyLifecycle Worker.

Local Open Scope Z_scope.

Inductive AuthError : Type := MissingAuthorization | InvalidFormat | InvalidApiKey.

Definition auth_error_message (self : AuthError) : string :=
  match self with
  | MissingAuthorization => "Missing Authorization header"
  | InvalidFormat => "Invalid Authorization header format; expected 'Bearer <key>'"
  | InvalidApiKey => "Invalid API key"
  end.

(** [header] is the [Authorization] header when there is one that reads as text. *)
Definition extract_bearer_token (header : option string) : result string AuthError :=
  let? header := ok_or header MissingAuthorization in
  let? (scheme, token) := ok_or (split_once " " header) InvalidFormat in
  if negb (eq_ignore_ascii_case scheme "bearer") then Err InvalidFormat
  else
    let token := trim token in
    if str_is_empty token then Err InvalidFormat else Ok token.

(** [manager.password], when the block is configured. *)
Definition find_manager (manager : option string) (token : string) : option string :=
  match manager with
  | Some password =>
      if negb (str_is_empty password) && constant_time_eq (as_bytes password) (as_bytes token)
      then Some password else None
  | None => None
  end.

Section Requests.
Context `{TimeCrate, Digests}.

Definition from_request_parts (header : option string) (api_keys : ApiKeyStore.t) (manager : option string)
    : result ConsumerContext.t AuthError :=
  let? token := extract_bearer_token header in
  match ApiKeyStore.authenticate api_keys token with
  | Some partner => Ok (ConsumerContext.new partner)
  | None =>
      match find_manager manager token with
      | Some _ => Ok ConsumerContext.manager
      | None => Err InvalidApiKey
      end
  end.
End Requests.

(** ** Tokens *)

Lemma as_bytes_inj a b : as_bytes a = as_bytes b → a = b.
Proof.
  revert b. induction a as [|x a IH]; intros [|y b]; cbn; try done.
  intros E. injection E as Ex Ea. f_equal; [by apply byte_value_inj | by apply IH].
Qed.

Lemma find_manager_Some manager token p :
  find_manager manager token = Some p ↔ manager = Some p ∧ p = token ∧ token ≠ ""%string.
Proof.
  unfold find_manager. destruct manager as [q|]; [| naive_solver].
  pose proof (str_is_empty_spec q) as He. destruct (str_is_empty q); cbn [negb andb].
  { split; [done |]. intros ([= <-] & -> & Hne). by destruct Hne; apply He. }
  destruct (constant_time_eq _ _) eqn:E.
  - apply constant_time_eq_spec, as_bytes_inj in E. subst q. split; [intros [= <-] | naive_solver].
    split_and!; try done. intros Ht. by apply He in Ht.
  - split; [done |]. intros ([= <-] & -> & _). exfalso. apply not_true_iff_false in E. apply E. by apply constant_time_eq_spec.
Qed.

Lemma extract_bearer_token_Ok header token :
  extract_bearer_token header = Ok token ↔
  ∃ scheme rest, header = Some (scheme +:+ String " " rest)%string ∧ split_once " " (scheme +:+ String " " rest) = Some (scheme, rest)
    ∧ eq_ignore_ascii_case scheme "bearer" = true ∧ token = trim rest ∧ token ≠ ""%string.
Proof.
  unfold extract_bearer_token. destruct header as [h|]; cbn; [| naive_solver].
  destruct (split_once " " h) as [[scheme rest]|] eqn:Es; cbn.
  - pose proof (split_once_Some _ _ _ _ Es) as Eh.
    destruct (eq_ignore_ascii_case scheme "bearer") eqn:Eb; cbn.
    + pose proof (str_is_empty_spec (trim rest)) as He. destruct (str_is_empty (trim rest)) eqn:Et.
      * split; [done |]. intros (s & r & [= ->] & Es' & _ & -> & Hne). rewrite Es' in Es. injection Es as <- <-. by destruct Hne; apply He.
      * split; [intros [= <-] | intros (s & r & [= ->] & Es' & _ & -> & _); rewrite Es' in Es; by injection Es as <- <-].
        exists scheme, rest. rewrite <- Eh. split_and!; try done. intros E. by apply He in E.
    + split; [done |]. intros (s & r & [= ->] & Es' & Hb & _). rewrite Es' in Es. injection Es as <- <-. congruence.
  - split; [done |]. intros (s & r & [= ->] & Es' & _). congruence.
Qed.

Section Identity.
Context `{TimeLaws, Digests}.

(** A request is let in on a key or on the manager's password and on nothing
    else: an empty token and an empty password never match, a key is tried
    first, and a refusal says only that the key is invalid. *)
Theorem request_authentication_exact (header : option string) (api_keys : ApiKeyStore.t) (manager : option string) :
  let res := from_request_parts header api_keys manager in
  (∀ ctx, res = Ok ctx ↔
     ∃ token, extract_bearer_token header = Ok token ∧ token ≠ ""%string
     ∧ ((∃ partner, ApiKeyStore.authenticate api_keys token = Some partner ∧ ctx = ConsumerContext.new partner)
        ∨ (ApiKeyStore.authenticate api_keys token = None ∧ manager = Some token ∧ ctx = ConsumerContext.manager)))
  ∧ (res = Err MissingAuthorization ↔ header = None)
  ∧ (res = Err InvalidApiKey → is_ok (extract_bearer_token header) = true).
Proof.
  cbv zeta. unfold from_request_parts.
  assert (∀ t, extract_bearer_token header = Ok t → t ≠ ""%string) as Hne
    by (intros t (s & r & _ & _ & _ & -> & Hn)%extract_bearer_token_Ok; done).
  assert (extract_bearer_token header = Err MissingAuthorization ↔ header = None) as Hmiss.
  { unfold extract_bearer_token. destruct header; cbn; [| done]. split; [| done].
    destruct (split_once _ _) as [[? ?]|]; cbn; [| done]. repeat case_match; done. }
  assert (extract_bearer_token header ≠ Err InvalidApiKey) as Hkey.
  { unfold extract_bearer_token. destruct header; cbn; [| done].
    destruct (split_once _ _) as [[? ?]|]; cbn; [| done]. repeat case_match; done. }
  destruct (extract_bearer_token header) as [token|e] eqn:Et.
  - destruct (ApiKeyStore.authenticate api_keys token) as [partner|] eqn:Ea.
    + split_and!; [| naive_solver | done]. intros ctx. split.
      * intros [= <-]. exists token. split_and!; eauto.
      * intros (t & [= <-] & _ & [(p & E & ->)|(E & _)]); congruence.
    + destruct (find_manager manager token) as [p|] eqn:Em.
      * apply find_manager_Some in Em as (-> & -> & Hn). split_and!; [| naive_solver | done]. intros ctx. split.
        -- intros [= <-]. exists token. split_and!; eauto.
        -- intros (t & [= <-] & _ & [(q & E & ->)|(E & _ & ->)]); congruence.
      * split_and!; [| naive_solver | done]. intros ctx. split; [done |].
        intros (t & [= <-] & _ & [(q & E & ->)|(_ & -> & ->)]); [congruence |].
        rewrite (proj2 (find_manager_Some _ _ token)) in Em; [done |]. split_and!; auto.
  - split_and!; [| | naive_solver].
    + intros ctx. split; [done |]. by intros (t & [=] & _).
    + rewrite <- Hmiss. split; congruence.
Qed.

(** The credential fixes what a request reads. A request let in on a key of
    the table queries with a filter that admits the rows of the key's owner
    and no others, whatever it asks for in [consumers]. *)
Theorem credential_fixes_scope (header : option string) (api_keys : ApiKeyStore.t) (manager : option string)
    (now : OffsetDateTime) (token consumers c : string) (ctx : ConsumerContext.t)
    (Hwf : keys_wf (ApiKeyStore.db api_keys)) (Hfresh : fresh api_keys now)
    (Htoken : extract_bearer_token header = Ok token)
    (Hissued : ∃ id k, ApiKeys.api_keys (ApiKeyStore.db api_keys) !! id = Some k
                       ∧ KeyRow.key_hash k = derive_key_hash (ApiKeyStore.secret api_keys) token
                       ∧ usable (format_ts now) k = true)
    (Hctx : from_request_parts header api_keys manager = Ok ctx) :
  ∃ id k, ApiKeys.api_keys (ApiKeyStore.db api_keys) !! id = Some k
    ∧ KeyRow.key_hash k = derive_key_hash (ApiKeyStore.secret api_keys) token
    ∧ ConsumerContext.is_manager ctx = false
    ∧ eval_fragment (scope_clause (resolve_scope ctx consumers)) c = Some (String.eqb c (KeyRow.consumer_id k))
    ∧ ∀ model, ConsumerContext.pricing_for ctx model =
        (ModelRow.prices <$> partner_models (portal (ApiKeyStore.db api_keys)) !! (KeyRow.consumer_id k, model)).
Proof.
  destruct Hissued as (id & k & Hk & Hh & Hu). exists id, k.
  pose proof (authenticate_row api_keys now token id k Hwf Hfresh Hk Hh) as Ha. rewrite Hu in Ha.
  destruct Ha as (cfg & Ea & Hd). unfold from_request_parts in Hctx. rewrite Htoken, Ea in Hctx. injection Hctx as <-.
  split_and!; try done.
  - rewrite eval_scope_clause. unfold resolve_scope. cbn. by rewrite (de_consumer _ _ _ _ Hd).
  - intros model. apply (de_models _ _ _ _ Hd).
Qed.

Lemma suspension_agrees (db : StoreDb) (now : OffsetDateTime) (k : KeyRow.t) (p : Partner.t)
    (cfg : PartnerRuntimeConfig.t)
    (Hstored : map_Forall (λ _ s, statement_stored s) (daily_statements (billing db)))
    (Hnow : ledger_instant now) (Hc : Partner.consumer_id p = KeyRow.consumer_id k)
    (Hpartner : partner_rows db !! KeyRow.consumer_id k = Some p)
    (Hd : describes db now k cfg) :
  PartnerRuntimeConfig.suspended cfg = suspended_now now (λ _, format_ts now) (billing db) p.
Proof.
  assert (deadlines_stored db) as Hdl by (intros i s due Hs Ed; by destruct (Hstored i s Hs) as [_ H']; apply H').
  apply Bool.eq_true_iff_eq. rewrite (suspended_spec db now k cfg) by done.
  unfold suspended_now. rewrite suspension_justified by done. unfold mode_text. rewrite Hpartner, Hc.
  assert (BillingMode.as_str (Partner.billing_mode p) = "invoice"%string ↔ Partner.billing_mode p = BillingMode.Invoice)
    as -> by (by destruct (Partner.billing_mode p)).
  apply and_iff_compat_l. split.
  - intros (i & s & Hs & E & Hm & Hp & Hi & Ht & due & Ed & Hld & Hle). destruct (Hstored i s Hs) as [Hck _].
    exists i, s, due. split_and!; try done. apply can_suspend_spec; [done |]. split_and!; eauto.
  - intros (i & s & due & Hs & E & Hcan & Ed & Hld & Hle). destruct (Hstored i s Hs) as [Hck _].
    apply can_suspend_spec in Hcan as (Hm & Hp & Hi & Ht & _); [| done].
    exists i, s. split; [done |]. unfold unpaid_past_due. split_and!; eauto.
Qed.

(** The request path and the scheduler read suspension through two different
    queries, and agree. A request let in on a key of the table finds its service
    suspended exactly when [observe_status] computes a suspension for the key's
    partner at the same instant; and then, and only then, the proxy has a
    refusal for it. *)
Theorem suspension_agreement (header : option string) (api_keys : ApiKeyStore.t) (manager : option string)
    (now : OffsetDateTime) (token : string) (ctx : ConsumerContext.t) (id : Z) (k : KeyRow.t) (p : Partner.t)
    (Hwf : keys_wf (ApiKeyStore.db api_keys)) (Hfresh : fresh api_keys now) (Hnow : ledger_instant now)
    (Hstored : map_Forall (λ _ s, statement_stored s) (daily_statements (billing (portal (ApiKeyStore.db api_keys)))))
    (Htoken : extract_bearer_token header = Ok token)
    (Hk : ApiKeys.api_keys (ApiKeyStore.db api_keys) !! id = Some k)
    (Hhash : KeyRow.key_hash k = derive_key_hash (ApiKeyStore.secret api_keys) token)
    (Husable : usable (format_ts now) k = true)
    (Hpartner : partner_rows (portal (ApiKeyStore.db api_keys)) !! KeyRow.consumer_id k = Some p)
    (Hctx : from_request_parts header api_keys manager = Ok ctx) :
  is_suspended (ConsumerContext.service_status ctx)
    = suspended_now now (λ _, format_ts now) (billing (portal (ApiKeyStore.db api_keys))) p
  ∧ is_suspended (ConsumerContext.service_status ctx)
    = is_Some_b (suspension_message (ConsumerContext.service_status ctx)).
Proof.
  pose proof (authenticate_row api_keys now token id k Hwf Hfresh Hk Hhash) as Ha. rewrite Husable in Ha.
  destruct Ha as (cfg & Ea & Hd). unfold from_request_parts in Hctx. rewrite Htoken, Ea in Hctx. injection Hctx as <-.
  split; [| by cbn; destruct (PartnerRuntimeConfig.service_status cfg)].
  refine (suspension_agrees _ now k p cfg Hstored Hnow _ Hpartner Hd).
  by apply (wf_partner _ (kw_portal _ Hwf)) in Hpartner as [? _].
Qed.
End Identity.

Example bearer_examples :
  extract_bearer_token (Some "bEaReR  dev-key "%string) = Ok "dev-key"%string
  ∧ extract_bearer_token (Some "Basic abc"%string) = Err InvalidFormat
  ∧ extract_bearer_token (Some "Bearer"%string) = Err InvalidFormat
  ∧ extract_bearer_token (Some "Bearer  "%string) = Err InvalidFormat
  ∧ extract_bearer_token None = Err MissingAuthorization
  ∧ find_manager (Some ""%string) "" = None ∧ find_manager (Some "pw"%string) "pw" = Some "pw"%string.
Proof. vm_compute. auto 10. Qed.

Definition store_fresh : ApiKeyStore.t := (ApiKeyStore.refresh (store_of (keys_1 None)) io_1).1.1.

Lemma credential_fixes_scope_witness :
  extract_bearer_token (Some "Bearer dev-key"%string) = Ok "dev-key"%string
  ∧ ∃ ctx, from_request_parts (Some "Bearer dev-key"%string) store_fresh None = Ok ctx
    ∧ eval_fragment (scope_clause (resolve_scope ctx "globex")) "globex" = Some false.
Proof.
  assert (extract_bearer_token (Some "Bearer dev-key"%string) = Ok "dev-key"%string) as Ht by (vm_compute; reflexivity).
  split; [exact Ht |].
  assert (∃ ctx, from_request_parts (Some "Bearer dev-key"%string) store_fresh None = Ok ctx) as [ctx Hctx].
  { destruct (authenticate_row store_fresh t1 "dev-key" 1 (key_1 None) (keys_1_wf None) eq_refl (keys_1_lookup None) eq_refl)
      as (cfg & Ea & _). eexists. unfold from_request_parts. rewrite Ht, Ea. reflexivity. }
  exists ctx. split; [exact Hctx |].
  destruct (credential_fixes_scope (Some "Bearer dev-key"%string) store_fresh None t1 "dev-key" "globex" "globex" ctx
    (keys_1_wf None) eq_refl Ht (ex_intro _ 1 (ex_intro _ (key_1 None) (conj (keys_1_lookup None) (conj eq_refl eq_refl)))) Hctx)
    as (id & k & Hk & Hh & _ & He & _).
  assert (k = key_1 None) as ->.
  { unfold store_fresh, store_of, keys_1 in Hk. cbn in Hk. apply lookup_singleton_Some in Hk as [_ <-]. reflexivity. }
  exact He.
Defined.

(** The deadline of the stored statement. *)
Definition due_1 : OffsetDateTime := (1790312400000000000, 0).
Lemma due_1_instant : ledger_instant due_1.
Proof. concrete. Qed.

Lemma suspension_agreement_witness :
  ledger_instant t1
  ∧ ∃ ctx, from_request_parts (Some "Bearer dev-key"%string) store_fresh None = Ok ctx
    ∧ is_suspended (ConsumerContext.service_status ctx) = suspended_now t1 (λ _, format_ts t1) (billing portal_1) acme.
Proof.
  split; [exact ledger_instant_t1 |].
  assert (extract_bearer_token (Some "Bearer dev-key"%string) = Ok "dev-key"%string) as Ht by (vm_compute; reflexivity).
  assert (∃ ctx, from_request_parts (Some "Bearer dev-key"%string) store_fresh None = Ok ctx) as [ctx Hctx].
  { destruct (authenticate_row store_fresh t1 "dev-key" 1 (key_1 None) (keys_1_wf None) eq_refl (keys_1_lookup None) eq_refl)
      as (cfg & Ea & _). eexists. unfold from_request_parts. rewrite Ht, Ea. reflexivity. }
  exists ctx. split; [exact Hctx |].
  refine (proj1 (suspension_agreement (Some "Bearer dev-key"%string) store_fresh None t1 "dev-key" ctx 1 (key_1 None) acme
    (keys_1_wf None) eq_refl ledger_instant_t1 _ Ht (keys_1_lookup None) eq_refl eq_refl eq_refl Hctx)).
  intros i s E. unfold store_fresh, store_of, keys_1 in E. cbn in E. apply lookup_singleton_Some in E as [_ <-].
  split; [vm_compute; reflexivity |]. intros due Ed. exists due_1. split; [exact due_1_instant |].
  apply (inj Some) in Ed. rewrite <- Ed. vm_compute. reflexivity.
Defined.
