(* ===== verification/Dashboard.v ===== *)
(** * The dashboard's queries ([src/src/dashboard/api.rs])

    What a credential sees of the ledger: totals and series read from the
    hourly rollup, the request list read page by page from the raw rows. *)

From stdpp Require Import base strings list gmap numbers sorting fin_maps.
From Stdlib Require Import Ascii ZArith Lia.
From S2P Require Import Prelude Utf8 Crypto TimeLib Calendar Timefmt Pricing Status Partner Context LedgerTypes Sql Rollup Cursor.

Local Open Scope Z_scope.

Definition DEFAULT_LIMIT : Z := 50.
Definition MAX_LIMIT : Z := 200.

(** ** Queries *)
Module DashboardQuery.
Record t : Type := mk {
  range : string;
  start : option string;
  end_ : option string;
  model : string;
  status : string;
  cursor : option string;
  limit : Z;
  consumers : string }.

Definition default_query : t := mk "24h" None None "all" "all" None DEFAULT_LIMIT "".
End DashboardQuery.

Module TimeWindow.
Record t : Type := mk {
  start_ts : string;
  end_ts : string;
  start_hour : string;
  end_hour : string }.

Section Resolve.
Context `{TimeCrate}.

Definition NS_PER_HOUR : Z := 3600 * NS_PER_SEC.
Definition days_before (now : OffsetDateTime) (days : Z) : OffsetDateTime := odt_add now (- (days * NS_PER_DAY)).

Definition invalid_timestamp (field raw : string) : DashboardError :=
  BadRequest ("`" +:+ field +:+ "` is not a valid ISO 8601 timestamp: " +:+ debug_str raw).

(** The [match] on [range]; [now] is [timefmt::now()], in UTC. *)
Definition requested (query : DashboardQuery.t) (now : OffsetDateTime)
    : result (OffsetDateTime * OffsetDateTime) DashboardError :=
  let range := DashboardQuery.range query in
  if String.eqb range "today" then Ok (midnight_assume_offset (odt_date (to_offset now 0)) 0, now)
  else if String.eqb range "7d" then Ok (days_before now 7, now)
  else if String.eqb range "14d" then Ok (days_before now 14, now)
  else if String.eqb range "30d" then Ok (days_before now 30, now)
  else if String.eqb range "custom" then
    let? start_raw := ok_or (DashboardQuery.start query) (BadRequest "`start` is required when range=custom") in
    let? end_raw := ok_or (DashboardQuery.end_ query) (BadRequest "`end` is required when range=custom") in
    let? start := ok_or (parse_ts start_raw) (invalid_timestamp "start" start_raw) in
    let? end_ := ok_or (parse_ts end_raw) (invalid_timestamp "end" end_raw) in
    if odt_le end_ start then Err (BadRequest "`start` must be earlier than `end`") else Ok (start, end_)
  else Ok (odt_add now (- (24 * NS_PER_HOUR)), now).

Definition resolve (query : DashboardQuery.t) (retention_days : Z) (now : OffsetDateTime) : result t DashboardError :=
  let? (start, end_) := requested query now in
  let earliest := days_before now (Z.max retention_days 1) in
  if odt_lt start earliest then
    Err (BadRequest ("`start` predates the " +:+ dec_string retention_days +:+ "-day retention window (earliest: "
      +:+ format_ts earliest +:+ ")"))
  else
    let end_ := if odt_le end_ now then end_ else now in
    Ok (mk (format_ts start) (format_ts end_) (format_hour start) (format_hour end_)).
End Resolve.
End TimeWindow.

Definition model_filter (query : DashboardQuery.t) : option string :=
  let m := trim (DashboardQuery.model query) in
  if str_is_empty m || eq_ignore_ascii_case m "all" then None else Some m.

Definition status_filter (query : DashboardQuery.t) : option string :=
  let s := lowercase (trim (DashboardQuery.status query)) in
  if String.eqb s "completed" then Some "completed"%string
  else if String.eqb s "failed" then Some "failed"%string
  else if String.eqb s "interrupted" then Some "interrupted"%string
  else if String.eqb s "in_flight" then Some "in_flight"%string
  else None.

(** ** The tables *)

(** [usage_records] by [request_id], with the surrogate [id] beside the row. *)
Record LedgerDb : Type := mkLedgerDb {
  usage_records : gmap string (Z * Row.t);
  usage_hourly : Hourly;
  ledger_meta : Meta }.

(** The columns the ledger's own components read. *)
Definition raw_rows (db : LedgerDb) : Records := snd <$> usage_records db.

(** [WHERE {scope_sql}], and [(? IS NULL OR column = ?)]. *)
Definition scope_filter (scope : Scope.t) (consumer_id : string) : bool :=
  default false (eval_fragment (scope_clause scope) consumer_id).
Definition null_or_eq (param : option string) (column : string) : bool :=
  match param with None => true | Some p => String.eqb column p end.

(** [low <= x AND x <= high] and [low <= x AND x < high] on text. *)
Definition text_within (low high x : string) : bool := negb (str_ltb x low) && negb (str_ltb high x).
Definition text_before (low high x : string) : bool := negb (str_ltb x low) && str_ltb x high.

(** [SELECT DISTINCT column ... ORDER BY column ASC]. *)
Definition distinct_sorted (column : list string) : list string := merge_sort key_le (remove_dups column).

(** [SUM] of a counter column: [NULL] over no rows, a floating-point number
    once a cell is one, an overflow error when the integers leave 64 bits. *)
Definition cell_int (c : Cell) : option Z := match c with Int z => Some z | Real => None end.
Definition sum_cells (cells : list Cell) : result (option Cell) SqlError :=
  match cells with
  | [] => Ok None
  | _ =>
      match mapM cell_int cells with
      | None => Ok (Some Real)
      | Some zs => if in_range i64_min i64_max (zsum zs) then Ok (Some (Int (zsum zs))) else Err OtherFailure
      end
  end.

(** [row.get::<_, i64>(n)? as u64]. *)
Definition get_i64 (c : Cell) : result Z SqlError := match c with Int z => Ok z | Real => Err InvalidColumnType end.
Definition get_u64 (c : Cell) : result Z SqlError := let? z := get_i64 c in Ok (u64_wrap z).

(** SQLite's [a * 1.0 / b] and [0.0]. *)
Class Floats : Type := { f64 : Type; real_ratio : Cell → Cell → f64; real_zero : f64 }.

(** ** Summary *)
Module SummaryResponse.
Record t `{Floats} : Type := mk {
  total_requests : Z;
  success_count : Z;
  failure_count : Z;
  total_input_tokens : Z;
  total_output_tokens : Z;
  total_cached_tokens : Z;
  avg_latency_ms : option f64;
  avg_ttft_ms : option f64;
  success_rate : f64;
  unavailable_usage_count : Z }.
End SummaryResponse.

Definition bucket_selected (w : TimeWindow.t) (scope : Scope.t) (model : option string) (k : BucketKey.t) : bool :=
  scope_filter scope (BucketKey.consumer_id k)
  && text_within (TimeWindow.start_hour w) (TimeWindow.end_hour w) (BucketKey.hour k)
  && null_or_eq model (BucketKey.model k).

Definition buckets (db : LedgerDb) (selected : BucketKey.t → bool) : list (BucketKey.t * Bucket.t) :=
  filter (λ kb, selected kb.1 = true) (map_to_list (usage_hourly db)).

Definition sum_column (rows : list (BucketKey.t * Bucket.t)) (c : Col) : result (option Cell) SqlError :=
  sum_cells ((λ kb, cell kb.2 c) <$> rows).

Definition coalesce0 (o : option Cell) : Cell := default (Int 0) o.
Definition cell_pos (o : option Cell) : bool := match o with Some c => negb (cell_nonpos c) | None => false end.

Section Summary.
Context `{Floats}.

Definition summary_query (db : LedgerDb) (w : TimeWindow.t) (scope : Scope.t) (model : option string)
    : result SummaryResponse.t SqlError :=
  let rows := buckets db (bucket_selected w scope model) in
  let? requests := sum_column rows Requests in
  let? success := sum_column rows Success in
  let? failure := sum_column rows Failure in
  let? input := sum_column rows InputTokens in
  let? output := sum_column rows OutputTokens in
  let? cached := sum_column rows CachedTokens in
  let? duration := sum_column rows Duration in
  let? ttft_n := sum_column rows TtftCount in
  let? ttft := sum_column rows Ttft in
  let? total_requests := get_u64 (coalesce0 requests) in
  let? success_count := get_u64 (coalesce0 success) in
  let? failure_count := get_u64 (coalesce0 failure) in
  let? total_input := get_u64 (coalesce0 input) in
  let? total_output := get_u64 (coalesce0 output) in
  let? total_cached := get_u64 (coalesce0 cached) in
  Ok (SummaryResponse.mk _ total_requests success_count failure_count total_input total_output total_cached
        (if cell_pos requests then Some (real_ratio (coalesce0 duration) (coalesce0 requests)) else None)
        (if cell_pos ttft_n then Some (real_ratio (coalesce0 ttft) (coalesce0 ttft_n)) else None)
        (if cell_pos requests then real_ratio (coalesce0 success) (coalesce0 requests) else real_zero)
        0).

(** The rows of [usage_records] in the window. *)
Definition row_selected (w : TimeWindow.t) (scope : Scope.t) (model : option string) (r : Row.t) : bool :=
  scope_filter scope (Row.consumer_id r)
  && text_before (TimeWindow.start_ts w) (TimeWindow.end_ts w) (Row.created_at r)
  && null_or_eq model (Row.model r).

Definition unavailable_count (db : LedgerDb) (w : TimeWindow.t) (scope : Scope.t) (model : option string) : Z :=
  Z.of_nat (length (filter (λ kr, row_selected w scope model kr.2 && String.eqb (Row.usage_status kr.2) "unavailable"
    && negb (String.eqb (Row.request_status kr.2) "in_flight") = true) (map_to_list (raw_rows db)))).

Context `{TimeCrate}.

(** Two reads, of the database as each finds it. *)
Definition get_summary (db db' : LedgerDb) (retention_days : Z) (now : OffsetDateTime) (consumer : ConsumerContext.t)
    (query : DashboardQuery.t) : result SummaryResponse.t DashboardError :=
  let? window := TimeWindow.resolve query retention_days now in
  let model := model_filter query in
  let scope := resolve_scope consumer (DashboardQuery.consumers query) in
  match summary_query db window scope model with
  | Err e => Err (Database e)
  | Ok s =>
      Ok (SummaryResponse.mk _ (SummaryResponse.total_requests s) (SummaryResponse.success_count s)
        (SummaryResponse.failure_count s) (SummaryResponse.total_input_tokens s) (SummaryResponse.total_output_tokens s)
        (SummaryResponse.total_cached_tokens s) (SummaryResponse.avg_latency_ms s) (SummaryResponse.avg_ttft_ms s)
        (SummaryResponse.success_rate s) (unavailable_count db' window scope model))
  end.
End Summary.

(** ** Time series *)
Module TimeseriesPoint.
Record t : Type := mk {
  hour : string;
  requests : Z;
  success_count : Z;
  failure_count : Z;
  input_tokens : Z;
  output_tokens : Z;
  cached_tokens : Z;
  total_duration_ms : Z;
  total_ttft_ms : Z;
  ttft_count : Z }.
End TimeseriesPoint.

(** [SUM] of the columns over the group of [hour]. *)
Definition timeseries_point (rows : list (BucketKey.t * Bucket.t)) (hour : string) : result TimeseriesPoint.t SqlError :=
  let group := filter (λ kb, BucketKey.hour kb.1 = hour) rows in
  let col c := match sum_column group c with Ok v => get_u64 (coalesce0 v) | Err e => Err e end in
  let? requests := col Requests in
  let? success := col Success in
  let? failure := col Failure in
  let? input := col InputTokens in
  let? output := col OutputTokens in
  let? cached := col CachedTokens in
  let? duration := col Duration in
  let? ttft := col Ttft in
  let? ttft_n := col TtftCount in
  Ok (TimeseriesPoint.mk hour requests success failure input output cached duration ttft ttft_n).

Fixpoint collect {A E} (l : list (result A E)) : result (list A) E :=
  match l with
  | [] => Ok []
  | r :: l' => let? x := r in let? xs := collect l' in Ok (x :: xs)
  end.

Definition timeseries_query (db : LedgerDb) (w : TimeWindow.t) (scope : Scope.t) (model : option string)
    : result (list TimeseriesPoint.t) SqlError :=
  let rows := buckets db (bucket_selected w scope model) in
  collect (timeseries_point rows <$> distinct_sorted ((λ kb, BucketKey.hour kb.1) <$> rows)).

Definition database {A} (r : result A SqlError) : result A DashboardError :=
  match r with Ok a => Ok a | Err e => Err (Database e) end.

Section Handlers.
Context `{TimeCrate}.

Definition get_timeseries (db : LedgerDb) (retention_days : Z) (now : OffsetDateTime) (consumer : ConsumerContext.t)
    (query : DashboardQuery.t) : result (list TimeseriesPoint.t) DashboardError :=
  let? window := TimeWindow.resolve query retention_days now in
  database (timeseries_query db window (resolve_scope consumer (DashboardQuery.consumers query)) (model_filter query)).

(** ** Models and consumers *)
Definition get_models (db : LedgerDb) (retention_days : Z) (now : OffsetDateTime) (consumer : ConsumerContext.t)
    (query : DashboardQuery.t) : result (list string) DashboardError :=
  let? window := TimeWindow.resolve query retention_days now in
  let scope := resolve_scope consumer (DashboardQuery.consumers query) in
  Ok (distinct_sorted ((λ kb, BucketKey.model kb.1) <$> buckets db (bucket_selected window scope None))).

Definition distinct_consumers (db : LedgerDb) : list string :=
  distinct_sorted ((λ kb, BucketKey.consumer_id kb.1) <$> map_to_list (usage_hourly db)).
End Handlers.

Module MeResponse.
Record t : Type := mk {
  consumer_id : string;
  key_name : string;
  role : string;
  consumers : list string }.
End MeResponse.

Definition get_me `{TimeCrate} (db : LedgerDb) (consumer : ConsumerContext.t) : MeResponse.t :=
  let '(role, consumers) :=
    if ConsumerContext.is_manager consumer then ("manager"%string, distinct_consumers db) else ("consumer"%string, []) in
  MeResponse.mk (ConsumerContext.consumer_id consumer)
    (ConsumerIdentity.key_name (ConsumerContext.identity consumer)) role consumers.

(** ** The request list *)
Module RequestItem.
Record t : Type := mk {
  request_id : string;
  created_at : string;
  consumer_id : string;
  model : string;
  endpoint : string;
  streaming : bool;
  http_status : option Z;
  request_status : string;
  usage_status : string;
  input_tokens : option Z;
  output_tokens : option Z;
  cached_tokens : option Z;
  duration_ms : Z;
  ttft_ms : option Z;
  error_message : option string;
  error_body : option string }.
End RequestItem.

Module RequestsResponse.
Record t : Type := mk { data : list RequestItem.t; next_cursor : option string }.
End RequestsResponse.

(** A selected row: its [request_id], its [id], the other columns. *)
Definition Listed : Type := string * (Z * Row.t).
Definition listed_position (x : Listed) : string * Z := (Row.created_at x.2.2, x.2.1).

Definition u16_wrap (z : Z) : Z := z mod 2 ^ 16.

(** [row.get::<_, i32>(6)?] refuses an integer beyond 32 bits. *)
Definition map_row (x : Listed) : result (Z * RequestItem.t) SqlError :=
  let '(request_id, (id, r)) := x in
  if negb (in_range i32_min i32_max (Row.streaming r)) then Err OtherFailure
  else Ok (id, RequestItem.mk request_id (Row.created_at r) (Row.consumer_id r) (Row.model r) (Row.endpoint r)
    (negb (Row.streaming r =? 0)) (u16_wrap <$> Row.http_status r) (Row.request_status r) (Row.usage_status r)
    (u64_wrap <$> Row.input_tokens r) (u64_wrap <$> Row.output_tokens r) (u64_wrap <$> Row.cached_tokens r)
    (u64_wrap (Row.duration_ms r)) (u64_wrap <$> Row.ttft_ms r) (Row.error_message r) (Row.error_body r)).

(** Row-value comparison [(created_at, id) < (?, ?)]. *)
Definition position_ltb (a b : string * Z) : bool :=
  str_ltb a.1 b.1 || (String.eqb a.1 b.1 && (a.2 <? b.2)).

Definition below (cursor : option (string * Z)) (x : Listed) : bool :=
  match cursor with None => true | Some c => position_ltb (listed_position x) c end.

(** [ORDER BY created_at DESC, id DESC]. *)
Definition newest_first (a b : Listed) : Prop := position_ltb (listed_position a) (listed_position b) = false.
#[global] Instance newest_first_dec a b : Decision (newest_first a b).
Proof. unfold newest_first. apply _. Defined.

Definition listed (w : TimeWindow.t) (scope : Scope.t) (model status : option string) (x : Listed) : bool :=
  row_selected w scope model x.2.2 && null_or_eq status (Row.request_status x.2.2).

(** The query without its [LIMIT]. *)
Definition listed_rows (db : LedgerDb) (w : TimeWindow.t) (scope : Scope.t) (model status : option string)
    (cursor : option (string * Z)) : list Listed :=
  merge_sort newest_first
    (filter (λ x, listed w scope model status x && below cursor x = true) (map_to_list (usage_records db))).

Definition clamp (low high x : Z) : Z := if x <? low then low else if high <? x then high else x.

Section Requests.
Context `{TimeCrate, HexDecode, Digests}.

Definition requests_page (key : list Z) (db : LedgerDb) (w : TimeWindow.t) (scope : Scope.t)
    (model status : option string) (cursor : option (string * Z)) (limit : Z)
    : result RequestsResponse.t SqlError :=
  let? items := collect (map_row <$> take (Z.to_nat (limit + 1)) (listed_rows db w scope model status cursor)) in
  if (Z.to_nat limit <? length items)%nat then
    let items := take (Z.to_nat limit) items in
    Ok (RequestsResponse.mk items.*2
      ((λ p, sign_cursor key (RequestItem.created_at p.2) p.1) <$> last items))
  else Ok (RequestsResponse.mk items.*2 None).

(** [blob] is what SQLite's [randomblob] gives, should the key have to be made. *)
Definition get_requests (db_text : SqlError → string) (blob : nat → list Z) (db : LedgerDb) (retention_days : Z)
    (now : OffsetDateTime) (consumer : ConsumerContext.t) (query : DashboardQuery.t)
    : LedgerDb * result RequestsResponse.t DashboardError :=
  match TimeWindow.resolve query retention_days now with
  | Err e => (db, Err e)
  | Ok window =>
      let limit := clamp 1 MAX_LIMIT (DashboardQuery.limit query) in
      let model := model_filter query in
      let status := status_filter query in
      let scope := resolve_scope consumer (DashboardQuery.consumers query) in
      let '(meta, key) := signing_key db_text (ledger_meta db) blob in
      let db := mkLedgerDb (usage_records db) (usage_hourly db) meta in
      (db,
       let? key := key in
       let? cursor := match DashboardQuery.cursor query with
                      | Some raw => let? c := verify_cursor key raw in Ok (Some c)
                      | None => Ok None
                      end in
       database (requests_page key db window scope model status cursor limit))
  end.
End Requests.

(** ** Positions *)

Lemma position_ltb_spec a b :
  position_ltb a b = true ↔ str_ltb a.1 b.1 = true ∨ (a.1 = b.1 ∧ a.2 < b.2).
Proof. unfold position_ltb. by rewrite orb_true_iff, andb_true_iff, String.eqb_eq, Z.ltb_lt. Qed.

Lemma position_ltb_irrefl a : position_ltb a a = false.
Proof. unfold position_ltb. by rewrite str_ltb_irrefl, Z.ltb_irrefl, andb_false_r. Qed.

Lemma position_ltb_trans a b c : position_ltb a b = true → position_ltb b c = true → position_ltb a c = true.
Proof.
  rewrite !position_ltb_spec. intros [Hab|[E1 Hab]] [Hbc|[E2 Hbc]].
  - left. by eapply str_ltb_trans.
  - left. by rewrite <- E2.
  - left. by rewrite E1.
  - right. split; [congruence | lia].
Qed.

Lemma position_ltb_total a b : position_ltb a b = false → position_ltb b a = false → a = b.
Proof.
  destruct a as [s i], b as [t j]. intros Hab%not_true_iff_false Hba%not_true_iff_false.
  rewrite position_ltb_spec in Hab, Hba. cbn in *.
  assert (s = t) as -> by (apply str_ltb_total; apply not_true_iff_false; naive_solver).
  f_equal. destruct (Z.lt_total i j) as [|[|]]; naive_solver.
Qed.

#[global] Instance newest_first_total : Total newest_first.
Proof.
  intros a b. unfold newest_first. destruct (position_ltb (listed_position a) _) eqn:E; [| by left]. right.
  apply not_true_iff_false. intros E'. pose proof (position_ltb_trans _ _ _ E E') as E''.
  by rewrite position_ltb_irrefl in E''.
Qed.

#[global] Instance newest_first_trans : Transitive newest_first.
Proof.
  intros a b c. unfold newest_first. intros Hab Hbc. apply not_true_iff_false. intros Hac.
  destruct (position_ltb (listed_position b) (listed_position a)) eqn:E.
  - by rewrite (position_ltb_trans _ _ _ E Hac) in Hbc.
  - rewrite (position_ltb_total _ _ Hab E) in Hac. congruence.
Qed.

(** Strictly newer. *)
Definition newer (a b : Listed) : Prop := position_ltb (listed_position b) (listed_position a) = true.

(** ** Pages *)

(** What the store holds: each row has its own [id], and columns the schema
    and the writer give it. *)
Record listing_wf (db : LedgerDb) : Prop := {
  wf_ids rid rid' i r r' :
    usage_records db !! rid = Some (i, r) → usage_records db !! rid' = Some (i, r') → rid = rid';
  wf_row rid i r :
    usage_records db !! rid = Some (i, r) →
    is_i64 i ∧ Row.created_at r ≠ ""%string ∧ utf8_valid (Row.created_at r) = true ∧ 0 ≤ Row.streaming r ≤ 1 }.

(** [map_row] where it succeeds. *)
Definition item_of (x : Listed) : Z * RequestItem.t :=
  let '(request_id, (id, r)) := x in
  (id, RequestItem.mk request_id (Row.created_at r) (Row.consumer_id r) (Row.model r) (Row.endpoint r)
    (negb (Row.streaming r =? 0)) (u16_wrap <$> Row.http_status r) (Row.request_status r) (Row.usage_status r)
    (u64_wrap <$> Row.input_tokens r) (u64_wrap <$> Row.output_tokens r) (u64_wrap <$> Row.cached_tokens r)
    (u64_wrap (Row.duration_ms r)) (u64_wrap <$> Row.ttft_ms r) (Row.error_message r) (Row.error_body r)).

Lemma collect_fmap_Ok {A B E} (f : A → result B E) (g : A → B) l :
  (∀ x, x ∈ l → f x = Ok (g x)) → collect (f <$> l) = Ok (g <$> l).
Proof.
  induction l as [|x l IH]; intros Hf; [done |]. cbn [fmap list_fmap collect].
  rewrite (Hf x) by (by left). fold (f <$> l). rewrite IH; [done |]. intros y Hy. apply Hf. by right.
Qed.

Section Listing.
Context (w : TimeWindow.t) (scope : Scope.t) (model status : option string).

Lemma listed_rows_elem db cursor x :
  x ∈ listed_rows db w scope model status cursor ↔
  usage_records db !! x.1 = Some x.2 ∧ listed w scope model status x = true ∧ below cursor x = true.
Proof.
  unfold listed_rows. rewrite merge_sort_Permutation, list_elem_of_filter, andb_true_iff.
  destruct x as [rid p]. rewrite elem_of_map_to_list. naive_solver.
Qed.

Lemma listed_rows_sorted db cursor : listing_wf db → StronglySorted newer (listed_rows db w scope model status cursor).
Proof.
  intros Hwf. assert (StronglySorted newest_first (listed_rows db w scope model status cursor)) as Hs
    by apply (StronglySorted_merge_sort newest_first).
  assert (NoDup (listed_rows db w scope model status cursor)) as Hnd.
  { unfold listed_rows. rewrite merge_sort_Permutation. apply NoDup_filter, NoDup_map_to_list. }
  pose proof (λ x, proj1 (listed_rows_elem db cursor x)) as Hin.
  induction Hs as [|x l Hs IH Hx]; constructor.
  - apply IH; [by apply NoDup_cons in Hnd as [_ ?] |]. intros y Hy. apply Hin. by right.
  - rewrite Forall_forall in Hx |- *. intros y Hy. specialize (Hx y Hy). unfold newest_first, newer in *.
    destruct (position_ltb (listed_position y) (listed_position x)) eqn:E; [done |].
    pose proof (position_ltb_total _ _ Hx E) as Ep. exfalso. apply NoDup_cons in Hnd as [Hni _]. apply Hni.
    destruct (Hin x (list_elem_of_here _ _)) as [Ex _], (Hin y (list_elem_of_further _ _ _ Hy)) as [Ey _].
    destruct x as [rid [i r]], y as [rid' [i' r']]. unfold listed_position in Ep. cbn in *. injection Ep as _ <-.
    pose proof (wf_ids db Hwf _ _ _ _ _ Ex Ey) as <-. rewrite Ex in Ey. by injection Ey as <-.
Qed.

Lemma map_row_item db cursor x :
  listing_wf db → x ∈ listed_rows db w scope model status cursor → map_row x = Ok (item_of x).
Proof.
  intros Hwf (Hx & _ & _)%listed_rows_elem. destruct x as [rid [i r]]. cbn [fst snd] in Hx. unfold map_row, item_of.
  destruct (wf_row db Hwf _ _ _ Hx) as (_ & _ & _ & Hs).
  assert (in_range i32_min i32_max (Row.streaming r) = true) as ->; [| done].
  unfold in_range. ranges. rewrite andb_true_iff, !Z.leb_le. lia.
Qed.
End Listing.

(** ** Reading every page *)
Section Paging.
Context `{TimeLaws, HexDecode, DigestLaws}.
Context (db_text : SqlError → string) (blob : nat → list Z) (retention_days : Z) (consumer : ConsumerContext.t).

(** The query with the cursor a page gave. *)
Definition with_cursor (q : DashboardQuery.t) (cursor : option string) : DashboardQuery.t :=
  DashboardQuery.mk (DashboardQuery.range q) (DashboardQuery.start q) (DashboardQuery.end_ q) (DashboardQuery.model q)
    (DashboardQuery.status q) cursor (DashboardQuery.limit q) (DashboardQuery.consumers q).

(** A client that follows [next_cursor]: at each turn the clock reads [now]
    and the database is [db]. Says whether the last page was reached. *)
Fixpoint pages (q : DashboardQuery.t) (turns : list (OffsetDateTime * LedgerDb))
    : result (list RequestItem.t * bool) DashboardError :=
  match turns with
  | [] => Ok ([], false)
  | (now, db) :: turns' =>
      let? page := (get_requests db_text blob db retention_days now consumer q).2 in
      match RequestsResponse.next_cursor page with
      | None => Ok (RequestsResponse.data page, true)
      | Some c =>
          let? (rest, finished) := pages (with_cursor q (Some c)) turns' in
          Ok (RequestsResponse.data page ++ rest, finished)
      end
  end.

(** The rows a turn's query selects. *)
Definition selects (q : DashboardQuery.t) (now : OffsetDateTime) (x : Listed) : Prop :=
  ∃ w, TimeWindow.resolve q retention_days now = Ok w
    ∧ listed w (resolve_scope consumer (DashboardQuery.consumers q)) (model_filter q) (status_filter q) x = true.

(** Every turn reads a well-formed ledger signed with [key], and a request is
    the same row in all of them. *)
Record turns_ok (key : list Z) (turns : list (OffsetDateTime * LedgerDb)) : Prop := {
  turn_wf t : t ∈ turns → listing_wf t.2;
  turn_key t : t ∈ turns → read_cursor_key (ledger_meta t.2) = Some key;
  turn_stable t t' rid i r i' r' :
    t ∈ turns → t' ∈ turns → usage_records t.2 !! rid = Some (i, r) → usage_records t'.2 !! rid = Some (i', r') →
    i = i' ∧ Row.created_at r = Row.created_at r' }.

Lemma turns_ok_cons key t turns : turns_ok key (t :: turns) → turns_ok key turns.
Proof.
  intros [Hwf Hkey Hst]. split.
  - intros t' Ht. apply Hwf. by right.
  - intros t' Ht. apply Hkey. by right.
  - intros t1 t2 rid i r i' r' Ht1 Ht2. apply Hst; by right.
Qed.

Lemma signing_key_stored meta key : read_cursor_key meta = Some key → signing_key db_text meta blob = (meta, Ok key).
Proof.
  intros Hk. unfold signing_key, cursor_key. change (blob <$> seq 0 3) with [blob 0%nat; blob 1%nat; blob 2%nat].
  cbn [cursor_key_loop]. by rewrite Hk.
Qed.

(** The rows of one page, and the position the next one starts below. *)
Definition page_limit (q : DashboardQuery.t) : nat := Z.to_nat (clamp 1 MAX_LIMIT (DashboardQuery.limit q)).

Lemma page_limit_pos q : (0 < page_limit q)%nat.
Proof. unfold page_limit, clamp, MAX_LIMIT. zcases; lia. Qed.

Definition turn_rows (q : DashboardQuery.t) (db : LedgerDb) (w : TimeWindow.t) (cursor : option (string * Z)) : list Listed :=
  listed_rows db w (resolve_scope consumer (DashboardQuery.consumers q)) (model_filter q) (status_filter q) cursor.

Lemma requests_page_rows key q db w cursor :
  listing_wf db →
  requests_page key db w (resolve_scope consumer (DashboardQuery.consumers q)) (model_filter q) (status_filter q) cursor
    (clamp 1 MAX_LIMIT (DashboardQuery.limit q)) =
  let rows := turn_rows q db w cursor in
  Ok (RequestsResponse.mk ((λ x, (item_of x).2) <$> take (page_limit q) rows)
        (if (page_limit q <? length rows)%nat
         then (λ x, sign_cursor key (listed_position x).1 (listed_position x).2) <$> last (take (page_limit q) rows)
         else None)).
Proof.
  intros Hwf. unfold requests_page, turn_rows. set (rows := listed_rows _ _ _ _ _ _).
  assert (Z.to_nat (clamp 1 MAX_LIMIT (DashboardQuery.limit q) + 1) = S (page_limit q)) as ->
    by (unfold page_limit, clamp, MAX_LIMIT; zcases; lia).
  fold (page_limit q). set (n := page_limit q).
  rewrite (collect_fmap_Ok map_row item_of).
  2:{ intros x Hx.
      eapply map_row_item; [exact Hwf |]. exact (subseteq_take (S n) rows x Hx). }
  rewrite length_fmap, length_take. destruct (Nat.ltb_spec n (length rows)) as [Hn|Hn].
  - replace (n <? S n `min` length rows)%nat with true by (symmetry; apply Nat.ltb_lt; lia).
    rewrite <- !fmap_take, take_take, Nat.min_l by lia. f_equal. f_equal.
    + by rewrite <- list_fmap_compose.
    + rewrite fmap_last. destruct (last (take n rows)) as [[rid [i r]]|]; done.
  - replace (n <? S n `min` length rows)%nat with false by (symmetry; apply Nat.ltb_ge; lia).
    f_equal. f_equal. rewrite <- list_fmap_compose, !take_ge by lia. done.
Qed.

(** *** The walk over rows

    What [pages] reads, before it is rendered. *)
Fixpoint walk (q : DashboardQuery.t) (turns : list (OffsetDateTime * LedgerDb)) (cursor : option (string * Z))
    : list Listed * bool :=
  match turns with
  | [] => ([], false)
  | (now, db) :: turns' =>
      match TimeWindow.resolve q retention_days now with
      | Err _ => ([], false)
      | Ok w =>
          let rows := turn_rows q db w cursor in
          let page := take (page_limit q) rows in
          if (page_limit q <? length rows)%nat then
            let '(rest, finished) := walk q turns' (listed_position <$> last page) in (page ++ rest, finished)
          else (page, true)
      end
  end.

Definition signed (key : list Z) (cursor : option (string * Z)) : option string :=
  (λ c, sign_cursor key c.1 c.2) <$> cursor.

(** A cursor that a page of a well-formed ledger can end on. *)
Definition position_ok (c : string * Z) : Prop := is_i64 c.2 ∧ c.1 ≠ ""%string ∧ utf8_valid c.1 = true.

Lemma turn_rows_wf q db w cursor x :
  listing_wf db → x ∈ turn_rows q db w cursor → position_ok (listed_position x).
Proof.
  intros Hwf (Hx & _ & _)%listed_rows_elem. destruct x as [rid [i r]]. cbn in Hx.
  destruct (wf_row db Hwf _ _ _ Hx) as (? & ? & ? & _). done.
Qed.

Lemma get_requests_rows key q db now w cursor :
  listing_wf db → read_cursor_key (ledger_meta db) = Some key → TimeWindow.resolve q retention_days now = Ok w →
  (∀ c, cursor = Some c → position_ok c) →
  (get_requests db_text blob db retention_days now consumer (with_cursor q (signed key cursor))).2 =
  let rows := turn_rows q db w cursor in
  Ok (RequestsResponse.mk ((λ x, (item_of x).2) <$> take (page_limit q) rows)
        (if (page_limit q <? length rows)%nat
         then signed key (listed_position <$> last (take (page_limit q) rows))
         else None)).
Proof.
  intros Hwf Hkey Hw Hc. unfold get_requests.
  change (TimeWindow.resolve (with_cursor q (signed key cursor)) retention_days now)
    with (TimeWindow.resolve q retention_days now). rewrite Hw.
  rewrite (signing_key_stored _ _ Hkey). cbn [snd DashboardQuery.cursor with_cursor].
  assert ((match signed key cursor with
           | Some raw => let? c := verify_cursor key raw in Ok (Some c)
           | None => Ok None
           end) = Ok cursor :> result _ DashboardError) as ->.
  { destruct cursor as [[ts id]|]; [| done]. destruct (Hc _ eq_refl) as (Hid & Hne & Hu). unfold signed. cbn [fmap option_fmap option_map fst snd].
    by rewrite (verify_sign_cursor key ts id Hid Hne Hu). }
  set (db' := mkLedgerDb _ _ _). assert (db' = db) as -> by (by destruct db).
  unfold model_filter, status_filter. cbn [with_cursor DashboardQuery.model DashboardQuery.status DashboardQuery.limit DashboardQuery.consumers].
  fold (model_filter q). fold (status_filter q).
  rewrite requests_page_rows by done. cbn [database]. do 2 f_equal.
  destruct (_ <? _)%nat; [| done]. unfold signed. by rewrite <- option_fmap_compose.
Qed.

Lemma last_take {A} n (l : list A) : (0 < n)%nat → (0 < length l)%nat → ∃ x, last (take n l) = Some x ∧ x ∈ take n l.
Proof.
  intros Hn Hl. destruct (last (take n l)) as [x|] eqn:E; [exists x; split; [done | by apply last_Some_elem_of] |].
  apply last_None, (f_equal length) in E. rewrite length_take in E. cbn in E. lia.
Qed.

Lemma pages_walk key turns q cursor :
  turns_ok key turns → (∀ c, cursor = Some c → position_ok c) →
  match pages (with_cursor q (signed key cursor)) turns with
  | Ok res => res = ((λ x, (item_of x).2) <$> (walk q turns cursor).1, (walk q turns cursor).2)
  | Err _ => ∃ t, t ∈ turns ∧ is_ok (TimeWindow.resolve q retention_days t.1) = false
  end.
Proof.
  revert cursor. induction turns as [|[now db] turns IH]; intros cursor Hok Hc; [done |]. cbn [pages walk].
  destruct (TimeWindow.resolve q retention_days now) as [w|e] eqn:Hw.
  2:{ unfold get_requests.
      change (TimeWindow.resolve (with_cursor q (signed key cursor)) retention_days now)
        with (TimeWindow.resolve q retention_days now). rewrite Hw. cbn [snd].
      exists (now, db). split; [by left | cbn [fst]; by rewrite Hw]. }
  pose proof (turn_wf _ _ Hok (now, db) ltac:(by left)) as Hwf. cbn in Hwf.
  rewrite (get_requests_rows key q db now w cursor Hwf (turn_key _ _ Hok (now, db) ltac:(by left)) Hw Hc).
  cbn [RequestsResponse.next_cursor RequestsResponse.data].
  set (rows := turn_rows q db w cursor). destruct (Nat.ltb_spec (page_limit q) (length rows)) as [Hn|Hn]; [| done].
  pose proof (page_limit_pos q) as Hp.
  destruct (last_take (page_limit q) rows Hp ltac:(lia)) as (x & Hx & Hin).
  rewrite Hx. cbn [fmap option_fmap option_map signed].
  specialize (IH (Some (listed_position x)) (turns_ok_cons _ _ _ Hok)).
  lapply IH; [clear IH; intros IH | intros c [= <-]; apply subseteq_take in Hin; by eapply turn_rows_wf].
  change (with_cursor (with_cursor q (signed key cursor)) ?c) with (with_cursor q c).
  unfold signed in IH. cbn [fmap option_fmap option_map] in IH.
  destruct (pages _ turns) as [[rest fin]|e].
  - injection IH as -> ->. destruct (walk q turns _) as [xs b]. cbn [fst snd]. by rewrite fmap_app.
  - destruct IH as (t & Ht & Hr). exists t. split; [by right | done].
Qed.

(** What a walk lists was selected by one of its turns. *)
Definition seen_at (q : DashboardQuery.t) (turns : list (OffsetDateTime * LedgerDb)) (x : Listed) : Prop :=
  ∃ t, t ∈ turns ∧ usage_records t.2 !! x.1 = Some x.2 ∧ selects q t.1 x.

Lemma walk_sound key turns q cursor :
  turns_ok key turns →
  StronglySorted newer (walk q turns cursor).1
  ∧ ∀ x, x ∈ (walk q turns cursor).1 → below cursor x = true ∧ seen_at q turns x.
Proof.
  revert cursor. induction turns as [|[now db] turns IH]; intros cursor Hok; cbn [walk].
  { split; [constructor | intros x Hx; by apply elem_of_nil in Hx]. }
  destruct (TimeWindow.resolve q retention_days now) as [w|e] eqn:Hw.
  2:{ split; [constructor | intros x Hx; by apply elem_of_nil in Hx]. }
  pose proof (turn_wf _ _ Hok (now, db) ltac:(by left)) as Hwf. cbn in Hwf.
  set (rows := turn_rows q db w cursor). set (page := take (page_limit q) rows).
  assert (StronglySorted newer rows) as Hs by by apply listed_rows_sorted.
  assert (StronglySorted newer page) as Hps.
  { unfold page. rewrite <- (take_drop (page_limit q) rows) in Hs. by apply StronglySorted_app_1_l in Hs. }
  assert (∀ x, x ∈ page → below cursor x = true ∧ seen_at q ((now, db) :: turns) x) as Hpage.
  { intros x Hx%subseteq_take. apply listed_rows_elem in Hx as (Hx & Hl & Hb). split; [done |].
    exists (now, db). split; [by left |]. split; [done |]. by exists w. }
  destruct (Nat.ltb_spec (page_limit q) (length rows)) as [Hn|Hn]; [| by split].
  destruct (last_take (page_limit q) rows (page_limit_pos q) ltac:(lia)) as (z & El & Hz).
  fold page in El, Hz. rewrite El. cbn [fmap option_fmap option_map].
  specialize (IH (Some (listed_position z)) (turns_ok_cons _ _ _ Hok)).
  destruct (walk q turns _) as [rest fin]. cbn [fst] in *. destruct IH as [IHs IHx].
  assert (∀ x, x ∈ rest → newer z x) as Hrest by (intros x Hx; by destruct (IHx x Hx)).
  assert (∀ x y, x ∈ page → y ∈ rest → newer x y) as Hxy.
  { intros x y Hx Hy. specialize (Hrest y Hy). apply last_Some in El as [pre El]. rewrite El in Hx, Hps.
    apply elem_of_app in Hx as [Hx| ->%list_elem_of_singleton]; [| done].
    apply (position_ltb_trans _ _ _ Hrest).
    by apply (StronglySorted_app_1_elem_of _ _ _ _ _ Hps Hx), list_elem_of_singleton. }
  split; [by apply StronglySorted_app_2 |].
  intros x [Hx|Hx]%elem_of_app; [by apply Hpage |]. destruct (IHx x Hx) as (_ & t & Ht & Hsel). split.
  - destruct (Hpage z Hz) as [Hbz _]. destruct cursor as [c|]; [| done]. cbn in *.
    apply (position_ltb_trans _ _ _ (Hrest x Hx)), Hbz.
  - exists t. split; [by right | done].
Qed.

(** A request is listed once. *)
Lemma walk_nodup key turns q cursor : turns_ok key turns → NoDup (walk q turns cursor).1.*1.
Proof.
  intros Hok. destruct (walk_sound key turns q cursor Hok) as [Hs Hx].
  assert (∀ x y, x ∈ (walk q turns cursor).1 → y ∈ (walk q turns cursor).1 → x.1 = y.1 → ¬ newer x y) as Hne.
  { intros x y Hx' Hy' E Hn. destruct (Hx x Hx') as (_ & t & Ht & Hrx & _), (Hx y Hy') as (_ & t' & Ht' & Hry & _).
    rewrite <- E in Hry. destruct x as [rid [i r]], y as [rid' [i' r']]. cbn in *.
    destruct (turn_stable _ _ Hok _ _ _ _ _ _ _ Ht Ht' Hrx Hry) as [<- Ec].
    unfold newer, listed_position in Hn. cbn in Hn. by rewrite Ec, position_ltb_irrefl in Hn. }
  clear Hx. induction Hs as [|x l Hs IH Hall]; csimpl; [constructor |].
  constructor; [| apply IH; intros y z Hy Hz; apply Hne; by right].
  rewrite list_elem_of_fmap. intros (y & E & Hy). rewrite Forall_forall in Hall.
  apply (Hne x y (list_elem_of_here _ _) (list_elem_of_further _ _ _ Hy) E), Hall, Hy.
Qed.

(** A request that every turn selects is listed before the walk ends. *)
Lemma walk_complete key turns q cursor rid p :
  turns_ok key turns → (walk q turns cursor).2 = true →
  match cursor with None => true | Some c => position_ltb p c end = true →
  (∀ t, t ∈ turns → ∃ i r, usage_records t.2 !! rid = Some (i, r) ∧ selects q t.1 (rid, (i, r))
                           ∧ listed_position (rid, (i, r)) = p) →
  rid ∈ (walk q turns cursor).1.*1.
Proof.
  revert cursor. induction turns as [|[now db] turns IH]; intros cursor Hok; cbn [walk]; [done |].
  intros Hfin Hp Hrid.
  destruct (Hrid (now, db) ltac:(by left)) as (i & r & Hr & (w & Hw & Hl) & Hpos). cbn [fst snd] in *.
  rewrite Hw in Hfin |- *. set (rows := turn_rows q db w cursor) in *.
  assert ((rid, (i, r)) ∈ rows) as Hin.
  { apply listed_rows_elem. split_and!; [done | done |]. unfold below. rewrite Hpos. by destruct cursor. }
  destruct (Nat.ltb_spec (page_limit q) (length rows)) as [Hn|Hn].
  2:{ cbn [fst]. rewrite take_ge by done. apply list_elem_of_fmap. by exists (rid, (i, r)). }
  destruct (last_take (page_limit q) rows (page_limit_pos q) ltac:(lia)) as (z & El & Hz).
  rewrite El in Hfin |- *. cbn [fmap option_fmap option_map] in Hfin |- *.
  specialize (IH (Some (listed_position z)) (turns_ok_cons _ _ _ Hok)).
  destruct (walk q turns _) as [rest fin]. cbn [fst snd] in *. rewrite fmap_app, elem_of_app.
  rewrite <- (take_drop (page_limit q) rows), elem_of_app in Hin. destruct Hin as [Hin|Hin].
  - left. apply list_elem_of_fmap. by exists (rid, (i, r)).
  - right. apply IH; [done | | intros t Ht; apply Hrid; by right].
    pose proof (turn_wf _ _ Hok (now, db) ltac:(by left)) as Hwf. cbn in Hwf.
    assert (StronglySorted newer rows) as Hs by by apply listed_rows_sorted.
    rewrite <- (take_drop (page_limit q) rows) in Hs.
    pose proof (StronglySorted_app_1_elem_of _ _ _ _ _ Hs Hz Hin) as Hzn. unfold newer in Hzn. by rewrite Hpos in Hzn.
Qed.

Lemma item_request_id x : RequestItem.request_id (item_of x).2 = x.1.
Proof. by destruct x as [rid [i r]]. Qed.

(** C38. Following the cursors reads the ledger without a gap and without a repeat,
    while it is being written: every row shown is one the credential may see,
    selected when its page was read; no request is shown twice; the pages come
    newest first; and once there is no further cursor, every request that was
    there and selected all along has been shown. *)
Theorem paging_is_gapless (key : list Z) (turns : list (OffsetDateTime * LedgerDb)) (q : DashboardQuery.t)
    (items : list RequestItem.t) (finished : bool)
    (Hok : turns_ok key turns) (Hfirst : DashboardQuery.cursor q = None)
    (Hpages : pages q turns = Ok (items, finished)) :
  (∀ it, it ∈ items →
     (∃ x, it = (item_of x).2 ∧ seen_at q turns x)
     ∧ Scope.admits (resolve_scope consumer (DashboardQuery.consumers q)) (RequestItem.consumer_id it) = true)
  ∧ NoDup (RequestItem.request_id <$> items)
  ∧ StronglySorted (λ a b, str_ltb (RequestItem.created_at a) (RequestItem.created_at b) = false) items
  ∧ (finished = true → ∀ rid,
       (∀ t, t ∈ turns → ∃ i r, usage_records t.2 !! rid = Some (i, r) ∧ selects q t.1 (rid, (i, r))) →
       rid ∈ RequestItem.request_id <$> items).
Proof.
  assert (with_cursor q (signed key None) = q) as Hq by (destruct q; cbn in *; by rewrite Hfirst).
  pose proof (pages_walk key turns q None Hok ltac:(done)) as Hw. rewrite Hq, Hpages in Hw. injection Hw as -> ->.
  destruct (walk_sound key turns q None Hok) as [Hs Hx].
  assert (RequestItem.request_id <$> ((λ x, (item_of x).2) <$> (walk q turns None).1) = (walk q turns None).1.*1) as Hids.
  { rewrite <- list_fmap_compose. apply list_fmap_ext. intros i x _. apply item_request_id. }
  split_and!.
  - intros it (x & -> & Hin)%list_elem_of_fmap. destruct (Hx x Hin) as (_ & Hseen). split; [by exists x |].
    destruct Hseen as (t & _ & _ & w & _ & Hl). unfold listed, row_selected, scope_filter in Hl.
    rewrite eval_scope_clause, !andb_true_iff in Hl. destruct x as [rid [i r]]. cbn in *. tauto.
  - rewrite Hids. by eapply walk_nodup.
  - apply (StronglySorted_fmap _ newer); [| done]. intros x y Hxy. unfold newer in Hxy. apply position_ltb_spec in Hxy.
    destruct x as [rid [i r]], y as [rid' [i' r']]. cbn in *. destruct Hxy as [Hxy|[-> _]]; [by apply str_ltb_asym | apply str_ltb_irrefl].
  - intros Hfin rid Hrid. rewrite Hids. destruct turns as [|t turns]; [done |].
    destruct (Hrid t ltac:(by left)) as (i & r & Hr & _).
    apply (walk_complete key _ q None rid (Row.created_at r, i) Hok Hfin eq_refl).
    intros t' Ht'. destruct (Hrid t' Ht') as (i' & r' & Hr' & Hsel). exists i', r'. split_and!; [done | done |].
    destruct (turn_stable _ _ Hok _ _ _ _ _ _ _ (list_elem_of_here _ _) Ht' Hr Hr') as [<- Ec].
    unfold listed_position. cbn. by rewrite Ec.
Qed.

(** *** Paging ends *)

(** The rows a cursor leaves. *)
Definition remaining (db : LedgerDb) (cursor : option (string * Z)) : list Listed :=
  filter (λ x, below cursor x = true) (map_to_list (usage_records db)).

Lemma remaining_shrinks db cursor z :
  usage_records db !! z.1 = Some z.2 → below cursor z = true →
  (length (remaining db (Some (listed_position z))) < length (remaining db cursor))%nat.
Proof.
  intros Hz Hb. unfold remaining. assert (z ∈ map_to_list (usage_records db)) as Hin
    by (destruct z as [rid x]; by apply elem_of_map_to_list).
  assert (∀ l, (length (filter (λ x, below (Some (listed_position z)) x = true) l)
      ≤ length (filter (λ x, below cursor x = true) l))%nat) as Hle.
  { induction l as [|x l IH]; [done |]. rewrite !filter_cons.
    destruct (decide (below (Some (listed_position z)) x = true)) as [Hx|];
      [| destruct (decide (below cursor x = true)); cbn [length]; lia].
    rewrite decide_True; [cbn [length]; lia |]. destruct cursor as [c|]; [| done]. cbn in *.
    by apply (position_ltb_trans _ _ _ Hx). }
  apply list_elem_of_split in Hin as (l1 & l2 & ->). rewrite !filter_app, !length_app, !filter_cons.
  rewrite decide_False by (cbn; by rewrite position_ltb_irrefl). rewrite decide_True by done. cbn [length].
  pose proof (Hle l1). pose proof (Hle l2). lia.
Qed.

Lemma walk_ends key db nows q cursor :
  turns_ok key ((λ now, (now, db)) <$> nows) →
  Forall (λ now, is_ok (TimeWindow.resolve q retention_days now) = true) nows →
  (length (remaining db cursor) < length nows)%nat → (walk q ((λ now, (now, db)) <$> nows) cursor).2 = true.
Proof.
  revert cursor. induction nows as [|now nows IH]; intros cursor Hok Hall Hlen; [cbn in Hlen; lia |].
  apply Forall_cons_iff in Hall as [Hnow Hall]. cbn [fmap list_fmap walk].
  destruct (TimeWindow.resolve q retention_days now) as [w|] eqn:Hw; [| done].
  set (rows := turn_rows q db w cursor). destruct (Nat.ltb_spec (page_limit q) (length rows)) as [Hn|Hn]; [| done].
  destruct (last_take (page_limit q) rows (page_limit_pos q) ltac:(lia)) as (z & El & Hz).
  rewrite El. cbn [fmap option_fmap option_map].
  specialize (IH (Some (listed_position z)) (turns_ok_cons _ _ _ Hok) Hall).
  apply subseteq_take, listed_rows_elem in Hz as (Hz & _ & Hb). pose proof (remaining_shrinks db cursor z Hz Hb).
  cbn [length] in Hlen. lapply IH; [| lia]. intros <-. by destruct (walk q _ _).
Qed.

(** A client that follows the cursors of a ledger at rest is done after as
    many pages as it has rows, and one, however the window moves meanwhile:
    no page fails, and the last one says that it is the last. *)
Theorem paging_ends (key : list Z) (db : LedgerDb) (nows : list OffsetDateTime) (q : DashboardQuery.t)
    (Hok : turns_ok key ((λ now, (now, db)) <$> nows)) (Hfirst : DashboardQuery.cursor q = None)
    (Hwindows : Forall (λ now, is_ok (TimeWindow.resolve q retention_days now) = true) nows)
    (Henough : (size (usage_records db) < length nows)%nat) :
  ∃ items, pages q ((λ now, (now, db)) <$> nows) = Ok (items, true).
Proof.
  assert (with_cursor q (signed key None) = q) as Hq by (destruct q; cbn in *; by rewrite Hfirst).
  pose proof (pages_walk key _ q None Hok ltac:(done)) as Hw. rewrite Hq in Hw.
  destruct (pages q _) as [res|e].
  - exists res.1. rewrite Hw. cbn [fst]. f_equal. f_equal. eapply walk_ends; [done | done |].
    unfold remaining. eapply Nat.le_lt_trans; [apply length_filter |].
    pose proof (length_map_to_list (usage_records db)) as E. rewrite <- E in Henough. exact Henough.
  - destruct Hw as (t & (now & -> & Hin)%list_elem_of_fmap & Hr). rewrite Forall_forall in Hwindows.
    cbn in Hr. by rewrite Hwindows in Hr.
Qed.
End Paging.

(** ** Totals *)
Section Totals.
Context `{TimeCrate}.

(** What the terminal raw rows whose bucket is [selected] add up to. *)
Definition row_amount (selected : BucketKey.t → bool) (r : Row.t) (c : Col) : Z :=
  match StoredRow.contribution (StoredRow.of_row r) with
  | Some ct => if selected (Contribution.key ct) then metric (Contribution.metrics ct) c else 0
  | None => 0
  end.
Definition ledger_sum (records : Records) (selected : BucketKey.t → bool) (c : Col) : Z :=
  map_fold (λ _ r acc, row_amount selected r c + acc) 0 records.

Lemma ledger_sum_insert records i r selected c :
  records !! i = None → ledger_sum (<[i := r]> records) selected c = row_amount selected r c + ledger_sum records selected c.
Proof. intros Hi. unfold ledger_sum. rewrite map_fold_insert_L; [done | intros; lia | done]. Qed.

Lemma zsum_amount (keys : list BucketKey.t) r selected c :
  NoDup keys → Forall (λ k, selected k = true) keys →
  (∀ ct, StoredRow.contribution (StoredRow.of_row r) = Some ct → selected (Contribution.key ct) = true → Contribution.key ct ∈ keys) →
  zsum ((λ k, amount r k c) <$> keys) = row_amount selected r c.
Proof.
  intros Hnd Hsel Hin. unfold amount, row_amount. destruct (StoredRow.contribution _) as [ct|]; [| by apply zsum_zero].
  specialize (Hin ct eq_refl). destruct (selected (Contribution.key ct)) eqn:Es.
  - specialize (Hin eq_refl). clear Hsel. induction Hnd as [|k keys Hk Hnd IH]; [by apply elem_of_nil in Hin |].
    rewrite fmap_cons, zsum_cons. unfold contribution_amount at 1. destruct (decide _) as [<-|Hne].
    + rewrite zsum_zero; [lia |]. intros k' Hk'. unfold contribution_amount. rewrite decide_False; [done |]. intros <-. done.
    + apply elem_of_cons in Hin as [?|Hin]; [done |]. by rewrite IH.
  - apply zsum_zero. intros k Hk. unfold contribution_amount. destruct (decide _) as [<-|]; [| done].
    rewrite Forall_forall in Hsel. by rewrite Hsel in Es.
Qed.

Lemma zsum_total records keys selected c :
  NoDup keys → Forall (λ k, selected k = true) keys →
  (∀ i r ct, records !! i = Some r → StoredRow.contribution (StoredRow.of_row r) = Some ct →
     selected (Contribution.key ct) = true → Contribution.key ct ∈ keys) →
  zsum ((λ k, total records k c) <$> keys) = ledger_sum records selected c.
Proof.
  intros Hnd Hsel. induction records as [|i r records Hi IH] using map_ind; intros Hin.
  - unfold ledger_sum. rewrite map_fold_empty. apply zsum_zero. intros k _. apply total_empty.
  - rewrite ledger_sum_insert by done.
    assert ((λ k, total (<[i := r]> records) k c) <$> keys = (λ k, amount r k c + total records k c) <$> keys) as ->
      by (apply list_fmap_ext; intros j k _; by apply total_insert).
    rewrite zsum_map_add, IH.
    + f_equal. apply zsum_amount; [done | done |]. intros ct. apply (Hin i r), lookup_insert_eq.
    + intros j r' ct Hj. apply (Hin j r'). rewrite lookup_insert_ne; [done | congruence].
Qed.

Lemma bucket_keys_nodup db selected : NoDup (buckets db selected).*1.
Proof.
  unfold buckets. assert (NoDup (map_to_list (usage_hourly db)).*1) as Hnd by apply NoDup_fst_map_to_list.
  induction (map_to_list (usage_hourly db)) as [|x l IH]; [done |]. rewrite filter_cons.
  apply NoDup_cons in Hnd as [Hx Hnd]. destruct (decide _); [| by apply IH]. csimpl. constructor; [| by apply IH].
  intros Hin. apply Hx. apply list_elem_of_fmap in Hin as (y & -> & Hy). apply list_elem_of_filter in Hy as [_ Hy].
  apply list_elem_of_fmap. by exists y.
Qed.

Lemma buckets_elem db selected k b :
  (k, b) ∈ buckets db selected ↔ selected k = true ∧ usage_hourly db !! k = Some b.
Proof. unfold buckets. by rewrite list_elem_of_filter, elem_of_map_to_list. Qed.

(** Every bucket of a row is there. *)
Lemma agree_has_bucket records hourly i r ct :
  rows_ok records → agree records hourly → records !! i = Some r →
  StoredRow.contribution (StoredRow.of_row r) = Some ct → is_Some (hourly !! Contribution.key ct).
Proof.
  intros Hok Ha Hr Hct. specialize (Ha (Contribution.key ct)). destruct (hourly !! _); [done |]. exfalso.
  rewrite (total_delete _ _ _ _ _ Hr) in Ha. pose proof (total_nonneg (delete i records) (Contribution.key ct) Requests (rows_ok_delete _ i Hok)).
  rewrite (contribution_key_amount _ _ _ _ Hct) in Ha. unfold contribution_amount in Ha. rewrite decide_True in Ha by done. cbn in Ha. lia.
Qed.

(** The cells of the selected buckets are integers that sum to what the raw
    rows say. *)
Lemma bucket_cells db selected c :
  consistent (raw_rows db) (usage_hourly db) →
  ∃ zs, ((λ kb, cell kb.2 c) <$> buckets db selected) = Int <$> zs ∧ Forall (λ z, 0 ≤ z) zs
    ∧ zsum zs = ledger_sum (raw_rows db) selected c.
Proof.
  intros (Hok & _ & Ha). exists ((λ k, total (raw_rows db) k c) <$> (buckets db selected).*1). split_and!.
  - rewrite <- !list_fmap_compose. apply list_fmap_ext. intros j [k b] Hj%list_elem_of_lookup_2. cbn.
    apply buckets_elem in Hj as [_ Hb]. specialize (Ha k). rewrite Hb in Ha. apply Ha.
  - apply Forall_fmap, Forall_true. intros k. by apply total_nonneg.
  - apply zsum_total; [apply bucket_keys_nodup | |].
    + apply Forall_fmap, Forall_forall. intros [k b] [Hk _]%buckets_elem. exact Hk.
    + intros i r ct Hr Hct Hsel. destruct (agree_has_bucket _ _ _ _ _ Hok Ha Hr Hct) as [b Hb].
      apply list_elem_of_fmap. exists (Contribution.key ct, b). split; [done |]. by apply buckets_elem.
Qed.

Lemma mapM_cell_int zs : mapM cell_int (Int <$> zs) = Some zs.
Proof. apply mapM_Some. induction zs; by constructor. Qed.

(** [COALESCE(SUM(column), 0)] is the raw sum, or an overflow error. *)
Lemma sum_column_raw db selected c :
  consistent (raw_rows db) (usage_hourly db) →
  let s := ledger_sum (raw_rows db) selected c in
  0 ≤ s ∧
  match sum_column (buckets db selected) c with
  | Ok v => coalesce0 v = Int s ∧ s ≤ i64_max ∧ cell_pos v = (0 <? s)
  | Err _ => i64_max < s
  end.
Proof.
  intros Hc. destruct (bucket_cells db selected c Hc) as (zs & Ezs & Hpos & Es). cbv zeta. rewrite <- Es.
  pose proof (zsum_nonneg zs Hpos) as H0. split; [done |]. unfold sum_column. rewrite Ezs.
  destruct zs as [|z zs]; [cbn; split_and!; [done | ranges; lia | done] |].
  unfold sum_cells. change (Int <$> z :: zs) with (Int z :: (Int <$> zs)). cbv iota.
  change (Int z :: (Int <$> zs)) with (Int <$> z :: zs). rewrite mapM_cell_int.
  unfold in_range. destruct (Z.leb_spec i64_min (zsum (z :: zs))); [| ranges; lia].
  destruct (Z.leb_spec (zsum (z :: zs)) i64_max); cbn [andb]; [| done].
  split_and!; [done | done |]. cbn [cell_pos cell_nonpos]. by rewrite Z.leb_antisym, negb_involutive.
Qed.

Lemma get_u64_raw v z : coalesce0 v = Int z → 0 ≤ z → z ≤ i64_max → get_u64 (coalesce0 v) = Ok z.
Proof.
  intros -> H0 H1. cbn. unfold u64_wrap. rewrite Z.mod_small; [done |]. ranges. lia.
Qed.

(** A terminal request either succeeded or failed. *)
Lemma ledger_sum_outcomes records selected :
  ledger_sum records selected Success + ledger_sum records selected Failure = ledger_sum records selected Requests.
Proof.
  induction records as [|i r records Hi IH] using map_ind; [done |]. rewrite !ledger_sum_insert by done.
  assert (row_amount selected r Success + row_amount selected r Failure = row_amount selected r Requests); [| lia].
  unfold row_amount, StoredRow.contribution, StoredRow.of_row. cbn [StoredRow.status StoredRow.metrics StoredRow.key].
  destruct (RequestStatus.from_str_lossy (Row.request_status r)); [done | | |]; cbn; by destruct (selected _).
Qed.

(** Read one [SUM] column of a consistent ledger. *)
Ltac sum_step c :=
  match goal with
  | Hc : consistent (raw_rows ?db) _ |- context [sum_column (buckets ?db ?sel) c] =>
      let Hn := fresh "Hn" in let Hs := fresh "Hs" in let v := fresh "v" in
      destruct (sum_column_raw db sel c Hc) as [Hn Hs];
      destruct (sum_column (buckets db sel) c) as [v|]; [destruct Hs as (? & ? & ?) | by exists c]
  end.

(** The rows a question asks about: finished requests of the consumers of the scope,
    whose hour is one of the window's, and of the model when one is named. *)
Definition asked (w : TimeWindow.t) (scope : Scope.t) (model : option string) (r : Row.t) : Prop :=
  match scope with
  | Scope.One id => Row.consumer_id r = id
  | Scope.List ids => Row.consumer_id r ∈ ids
  | Scope.All => True
  end
  ∧ str_ltb (format_hour_str (Row.created_at r)) (TimeWindow.start_hour w) = false
  ∧ str_ltb (TimeWindow.end_hour w) (format_hour_str (Row.created_at r)) = false
  ∧ match model with Some m => Row.model r = m | None => True end
  ∧ Row.request_status r ≠ "in_flight"%string.

#[global] Instance asked_dec w scope model r : Decision (asked w scope model r).
Proof. unfold asked. destruct scope, model; apply _. Defined.

(** What a row counts for under each figure. *)
Definition figure (r : Row.t) (c : Col) : Z :=
  match c with
  | Requests => 1
  | InputTokens => default 0 (Row.input_tokens r)
  | OutputTokens => default 0 (Row.output_tokens r)
  | CachedTokens => default 0 (Row.cached_tokens r)
  | Duration => Row.duration_ms r
  | Ttft => default 0 (Row.ttft_ms r)
  | TtftCount => match Row.ttft_ms r with Some _ => 1 | None => 0 end
  | Success => if String.eqb (Row.request_status r) "completed" then 1 else 0
  | Failure => if String.eqb (Row.request_status r) "completed" then 0 else 1
  end.

Definition asked_sum (records : Records) (w : TimeWindow.t) (scope : Scope.t) (model : option string) (c : Col) : Z :=
  zsum ((λ p, figure p.2 c) <$> filter (λ p, asked w scope model p.2) (map_to_list records)).

Lemma row_amount_asked w scope model r c :
  row_amount (bucket_selected w scope model) r c = if decide (asked w scope model r) then figure r c else 0.
Proof.
  unfold row_amount, StoredRow.contribution, StoredRow.of_row. cbn [StoredRow.status StoredRow.key StoredRow.metrics].
  assert (bucket_selected w scope model (BucketKey.mk (format_hour_str (Row.created_at r)) (Row.consumer_id r) (Row.model r)
      (Row.endpoint r) (Row.streaming r)) = true ∧ Row.request_status r ≠ "in_flight"%string ↔ asked w scope model r) as Hsel.
  { unfold bucket_selected, scope_filter, text_within, asked. cbn. rewrite eval_scope_clause, !andb_true_iff, !negb_true_iff.
    assert (null_or_eq model (Row.model r) = true ↔ match model with Some m => Row.model r = m | None => True end) as ->
      by (destruct model; [apply String.eqb_eq | done]).
    assert (default false (Some (Scope.admits scope (Row.consumer_id r))) = true ↔
      match scope with Scope.One id => Row.consumer_id r = id | Scope.List ids => Row.consumer_id r ∈ ids | Scope.All => True end) as ->
      by (destruct scope; [apply String.eqb_eq | apply bool_decide_eq_true | done]).
    tauto. }
  unfold RequestStatus.from_str_lossy. destruct (String.eqb_spec (Row.request_status r) "in_flight") as [E|E].
  { cbn. rewrite decide_False; [done |]. rewrite <- Hsel. tauto. }
  assert (bucket_selected w scope model (BucketKey.mk (format_hour_str (Row.created_at r)) (Row.consumer_id r) (Row.model r)
      (Row.endpoint r) (Row.streaming r)) = if decide (asked w scope model r) then true else false) as Hb.
  { destruct (decide (asked w scope model r)) as [Ha|Ha]; [by apply Hsel in Ha as [? _] | apply not_true_iff_false; tauto]. }
  unfold figure. revert Hb.
  destruct (decide (asked w scope model r)), (String.eqb (Row.request_status r) "completed"), (String.eqb (Row.request_status r) "failed");
    intros Hb; cbn; rewrite Hb; destruct c; try done; by destruct (Row.ttft_ms r).
Qed.

Lemma ledger_sum_asked records w scope model c :
  ledger_sum records (bucket_selected w scope model) c = asked_sum records w scope model c.
Proof.
  induction records as [|i r records Hi IH] using map_ind; [done |].
  rewrite ledger_sum_insert, IH, row_amount_asked by done. unfold asked_sum at 2.
  rewrite (zsum_perm _ ((λ p, figure p.2 c) <$> filter (λ p, asked w scope model p.2) ((i, r) :: map_to_list records)))
    by (by rewrite map_to_list_insert).
  rewrite filter_cons. cbn [snd]. destruct (decide (asked w scope model r)); [by rewrite fmap_cons, zsum_cons | done].
Qed.

(** One column of the summary's query, against the rows. *)
Lemma asked_column db w scope model c :
  consistent (raw_rows db) (usage_hourly db) →
  let s := asked_sum (raw_rows db) w scope model c in
  0 ≤ s ∧
  match sum_column (buckets db (bucket_selected w scope model)) c with
  | Ok v => coalesce0 v = Int s ∧ s ≤ i64_max ∧ cell_pos v = (0 <? s)
  | Err _ => i64_max < s
  end.
Proof. intros Hc. cbv zeta. rewrite <- ledger_sum_asked. by apply sum_column_raw. Qed.

Ltac asked_step c :=
  match goal with
  | Hc : consistent (raw_rows ?db) _ |- context [sum_column (buckets ?db (bucket_selected ?w ?scope ?model)) c] =>
      let Hn := fresh "Hn" in let Hs := fresh "Hs" in let v := fresh "v" in
      destruct (asked_column db w scope model c Hc) as [Hn Hs];
      destruct (sum_column (buckets db (bucket_selected w scope model)) c) as [v|]; [destruct Hs as (? & ? & ?) | by exists c]
  end.

Lemma requests_asked records w scope model :
  asked_sum records w scope model Requests = Z.of_nat (length (filter (λ p, asked w scope model p.2) (map_to_list records))).
Proof. unfold asked_sum. induction (filter _ _) as [|p l IH]; [done |]. rewrite fmap_cons, zsum_cons, IH. cbn. lia. Qed.

(** C40. The totals the dashboard shows, which it reads from the hourly rollup, are
    those of the ledger's rows: each is the sum of a figure of the row over the
    finished requests of the consumers in scope, in the hours of the window, and
    of the model when one is asked for. Successes are the completed ones, and
    successes and failures make up the requests; a mean is the quotient of two
    such sums. The one failure is a sum beyond 64 bits. *)
Theorem summary_is_the_ledger `{Floats} (db : LedgerDb) (w : TimeWindow.t) (scope : Scope.t) (model : option string)
    (Hc : consistent (raw_rows db) (usage_hourly db)) :
  let sum c := asked_sum (raw_rows db) w scope model c in
  match summary_query db w scope model with
  | Ok s =>
      SummaryResponse.total_requests s = Z.of_nat (length (filter (λ p, asked w scope model p.2) (map_to_list (raw_rows db))))
      ∧ SummaryResponse.success_count s = sum Success ∧ SummaryResponse.failure_count s = sum Failure
      ∧ SummaryResponse.success_count s + SummaryResponse.failure_count s = SummaryResponse.total_requests s
      ∧ SummaryResponse.total_input_tokens s = sum InputTokens
      ∧ SummaryResponse.total_output_tokens s = sum OutputTokens
      ∧ SummaryResponse.total_cached_tokens s = sum CachedTokens
      ∧ SummaryResponse.avg_latency_ms s
        = (if 0 <? sum Requests then Some (real_ratio (Int (sum Duration)) (Int (sum Requests))) else None)
      ∧ SummaryResponse.avg_ttft_ms s
        = (if 0 <? sum TtftCount then Some (real_ratio (Int (sum Ttft)) (Int (sum TtftCount))) else None)
      ∧ SummaryResponse.success_rate s
        = (if 0 <? sum Requests then real_ratio (Int (sum Success)) (Int (sum Requests)) else real_zero)
  | Err _ => ∃ c, i64_max < sum c
  end.
Proof.
  cbv zeta. rewrite <- requests_asked.
  unfold summary_query. asked_step Requests. asked_step Success. asked_step Failure. asked_step InputTokens.
  asked_step OutputTokens. asked_step CachedTokens. asked_step Duration. asked_step TtftCount. asked_step Ttft.
  repeat (erewrite get_u64_raw by eassumption; cbv iota).
  cbn. repeat match goal with H : coalesce0 _ = _ |- _ => rewrite H | H : cell_pos _ = _ |- _ => rewrite H end.
  split_and!; try done. rewrite <- !ledger_sum_asked. apply ledger_sum_outcomes.
Qed.

(** *** The series *)

Lemma collect_Ok {A B E} (f : A → result B E) l ys :
  collect (f <$> l) = Ok ys → Forall2 (λ x y, f x = Ok y) l ys.
Proof.
  revert ys. induction l as [|x l IH]; intros ys; [by intros [= <-] |]. rewrite fmap_cons. cbn [collect].
  destruct (f x) eqn:Ef; [| done]. destruct (collect (f <$> l)) eqn:El; [| done]. intros [= <-]. constructor; [done | by apply IH].
Qed.

Lemma collect_Err {A B E} (f : A → result B E) l e : collect (f <$> l) = Err e → ∃ x, x ∈ l ∧ f x = Err e.
Proof.
  induction l as [|x l IH]; [done |]. rewrite fmap_cons. cbn [collect]. destruct (f x) eqn:Ef.
  - destruct (collect (f <$> l)) eqn:El; [done |]. intros [= ->]. destruct (IH eq_refl) as (y & Hy & Hf). exists y. split; [by right | done].
  - intros [= ->]. exists x. split; [by left | done].
Qed.

Lemma distinct_sorted_spec l : NoDup (distinct_sorted l) ∧ (∀ x, x ∈ distinct_sorted l ↔ x ∈ l).
Proof.
  unfold distinct_sorted. split.
  - rewrite merge_sort_Permutation. apply NoDup_remove_dups.
  - intros x. by rewrite merge_sort_Permutation, elem_of_remove_dups.
Qed.

(** The buckets of one hour. *)
Definition in_hour (selected : BucketKey.t → bool) (hour : string) (k : BucketKey.t) : bool :=
  selected k && String.eqb (BucketKey.hour k) hour.

Lemma buckets_of_hour db selected hour :
  filter (λ kb, BucketKey.hour kb.1 = hour) (buckets db selected) = buckets db (in_hour selected hour).
Proof.
  unfold buckets. rewrite list_filter_filter. apply list_filter_iff. intros [k b]. unfold in_hour. cbn.
  rewrite andb_true_iff, String.eqb_eq. tauto.
Qed.

(** Every terminal row of the window is in one hour. *)
Lemma ledger_sum_by_hour records selected c hours :
  NoDup hours →
  (∀ i r ct, records !! i = Some r → StoredRow.contribution (StoredRow.of_row r) = Some ct →
     selected (Contribution.key ct) = true → BucketKey.hour (Contribution.key ct) ∈ hours) →
  zsum ((λ h, ledger_sum records (in_hour selected h) c) <$> hours) = ledger_sum records selected c.
Proof.
  intros Hnd. induction records as [|i r records Hi IH] using map_ind; intros Hin.
  - unfold ledger_sum at 2. rewrite map_fold_empty. apply zsum_zero. intros h _. by unfold ledger_sum; rewrite map_fold_empty.
  - rewrite ledger_sum_insert by done.
    assert ((λ h, ledger_sum (<[i := r]> records) (in_hour selected h) c) <$> hours
      = (λ h, row_amount (in_hour selected h) r c + ledger_sum records (in_hour selected h) c) <$> hours) as ->
      by (apply list_fmap_ext; intros j h _; by apply ledger_sum_insert).
    rewrite zsum_map_add, IH by (intros j r' ct Hj; apply (Hin j r'); rewrite lookup_insert_ne; [done | congruence]).
    f_equal. specialize (Hin i r). rewrite lookup_insert_eq in Hin. specialize (λ ct, Hin ct eq_refl). unfold row_amount, in_hour.
    destruct (StoredRow.contribution _) as [ct|]; [| by apply zsum_zero].
    destruct (selected (Contribution.key ct)) eqn:Es; [| by apply zsum_zero]. specialize (Hin ct eq_refl Es). cbn [andb].
    clear IH. induction Hnd as [|h hours Hh Hnd IH]; [by apply elem_of_nil in Hin |]. rewrite fmap_cons, zsum_cons.
    destruct (String.eqb_spec (BucketKey.hour (Contribution.key ct)) h) as [<-|Hne].
    + rewrite zsum_zero; [lia |]. intros h' Hh'. destruct (String.eqb_spec (BucketKey.hour (Contribution.key ct)) h') as [<-|]; done.
    + apply elem_of_cons in Hin as [?|Hin]; [done |]. by rewrite (IH Hin).
Qed.

(** A point's columns. *)
Definition point_col (p : TimeseriesPoint.t) (c : Col) : Z :=
  match c with
  | Requests => TimeseriesPoint.requests p
  | InputTokens => TimeseriesPoint.input_tokens p
  | OutputTokens => TimeseriesPoint.output_tokens p
  | CachedTokens => TimeseriesPoint.cached_tokens p
  | Duration => TimeseriesPoint.total_duration_ms p
  | Ttft => TimeseriesPoint.total_ttft_ms p
  | TtftCount => TimeseriesPoint.ttft_count p
  | Success => TimeseriesPoint.success_count p
  | Failure => TimeseriesPoint.failure_count p
  end.

Lemma timeseries_point_raw db selected hour :
  consistent (raw_rows db) (usage_hourly db) →
  match timeseries_point (buckets db selected) hour with
  | Ok p => TimeseriesPoint.hour p = hour ∧ ∀ c, point_col p c = ledger_sum (raw_rows db) (in_hour selected hour) c
  | Err _ => ∃ c, i64_max < ledger_sum (raw_rows db) (in_hour selected hour) c
  end.
Proof.
  intros Hc. unfold timeseries_point. rewrite buckets_of_hour.
  sum_step Requests. erewrite get_u64_raw by eassumption. sum_step Success. erewrite get_u64_raw by eassumption.
  sum_step Failure. erewrite get_u64_raw by eassumption. sum_step InputTokens. erewrite get_u64_raw by eassumption.
  sum_step OutputTokens. erewrite get_u64_raw by eassumption. sum_step CachedTokens. erewrite get_u64_raw by eassumption.
  sum_step Duration. erewrite get_u64_raw by eassumption. sum_step Ttft. erewrite get_u64_raw by eassumption.
  sum_step TtftCount. erewrite get_u64_raw by eassumption.
  split; [done |]. by intros [].
Qed.

(** The series splits the summary by hour: one point for each hour that has a
    terminal request of the scope and the model, in order, each the sum over
    that hour's requests; added up, the points are the totals. *)
Theorem series_adds_up (db : LedgerDb) (w : TimeWindow.t) (scope : Scope.t) (model : option string)
    (Hc : consistent (raw_rows db) (usage_hourly db)) :
  let selected := bucket_selected w scope model in
  match timeseries_query db w scope model with
  | Ok points =>
      NoDup (TimeseriesPoint.hour <$> points)
      ∧ StronglySorted key_le (TimeseriesPoint.hour <$> points)
      ∧ (∀ p c, p ∈ points → point_col p c = ledger_sum (raw_rows db) (in_hour selected (TimeseriesPoint.hour p)) c)
      ∧ (∀ c, zsum ((λ p, point_col p c) <$> points) = ledger_sum (raw_rows db) selected c)
  | Err _ => ∃ hour c, i64_max < ledger_sum (raw_rows db) (in_hour selected hour) c
  end.
Proof.
  cbv zeta. set (selected := bucket_selected w scope model). unfold timeseries_query. fold selected.
  set (hours := distinct_sorted _). pose proof (distinct_sorted_spec ((λ kb, BucketKey.hour kb.1) <$> buckets db selected)) as [Hnd Hin].
  fold hours in Hnd, Hin.
  destruct (collect (timeseries_point (buckets db selected) <$> hours)) as [points|e] eqn:E.
  2:{ apply collect_Err in E as (h & _ & E). pose proof (timeseries_point_raw db selected h Hc) as Hp. rewrite E in Hp.
      destruct Hp as [c Hp]. by exists h, c. }
  apply collect_Ok in E.
  assert (TimeseriesPoint.hour <$> points = hours) as Eh.
  { clear Hnd Hin. induction E as [|h p hs ps Hp _ IH]; [done |]. rewrite fmap_cons, IH. f_equal.
    pose proof (timeseries_point_raw db selected h Hc) as H0. rewrite Hp in H0. apply H0. }
  assert (∀ p c, p ∈ points → point_col p c = ledger_sum (raw_rows db) (in_hour selected (TimeseriesPoint.hour p)) c) as Hcol.
  { intros p c Hp. apply list_elem_of_lookup in Hp as [j Hj]. destruct (Forall2_lookup_r _ _ _ _ _ E Hj) as (h & _ & Hp).
    pose proof (timeseries_point_raw db selected h Hc) as H0. rewrite Hp in H0. destruct H0 as [-> H0]. apply H0. }
  rewrite Eh. split_and!; [done | | done |].
  - apply (StronglySorted_merge_sort key_le).
  - intros c. rewrite <- (ledger_sum_by_hour (raw_rows db) selected c hours Hnd).
    + f_equal. rewrite <- Eh, <- list_fmap_compose. apply list_fmap_ext. intros j p Hj. by apply Hcol, (list_elem_of_lookup_2 _ j).
    + intros i r ct Hr Hct Hsel. apply Hin. destruct Hc as (Hok & _ & Ha).
      destruct (agree_has_bucket _ _ _ _ _ Hok Ha Hr Hct) as [b Hb].
      apply list_elem_of_fmap. exists (Contribution.key ct, b). split; [done |]. by apply buckets_elem.
Qed.
End Totals.

(** ** Isolation *)
Section Isolation.
Context `{TimeCrate, Floats, HexDecode, Digests}.

(** Two ledgers that hold the same rows and buckets of one consumer, whatever
    else is in them. *)
Record same_for (c : string) (db db' : LedgerDb) : Prop := {
  same_records rid x : Row.consumer_id x.2 = c → usage_records db !! rid = Some x ↔ usage_records db' !! rid = Some x;
  same_hourly k b : BucketKey.consumer_id k = c → usage_hourly db !! k = Some b ↔ usage_hourly db' !! k = Some b;
  same_meta : ledger_meta db = ledger_meta db' }.

Lemma buckets_same c db db' (selected : BucketKey.t → bool) :
  same_for c db db' → (∀ k, selected k = true → BucketKey.consumer_id k = c) → buckets db selected ≡ₚ buckets db' selected.
Proof.
  intros Hs Hc. apply NoDup_Permutation.
  - apply (NoDup_fmap_1 fst), bucket_keys_nodup.
  - apply (NoDup_fmap_1 fst), bucket_keys_nodup.
  - intros [k b]. rewrite !buckets_elem. split; intros [Hk Hb]; (split; [done |]); by apply (same_hourly _ _ _ Hs k b (Hc k Hk)).
Qed.

Lemma sum_cells_perm l l' : l ≡ₚ l' → sum_cells l = sum_cells l'.
Proof.
  intros Hp. assert (mapM cell_int l = None ↔ mapM cell_int l' = None) as Hn.
  { rewrite !mapM_None, !Exists_exists. by setoid_rewrite Hp. }
  assert (∀ l zs, mapM cell_int l = Some zs → omap cell_int l = zs) as Ho.
  { intros k zs Hk%mapM_Some. induction Hk as [|x z k zs E _ IH]; [done |]. cbn. rewrite E. by f_equal. }
  assert (∀ zs zs', mapM cell_int l = Some zs → mapM cell_int l' = Some zs' → zsum zs = zsum zs') as Hz.
  { intros zs zs' <-%Ho <-%Ho. apply zsum_perm. by rewrite Hp. }
  unfold sum_cells. destruct l as [|x l]; [by apply Permutation_nil_l in Hp as <- |].
  destruct l' as [|x' l']; [by apply Permutation_nil_r in Hp |].
  destruct (mapM cell_int (x :: l)) as [zs|], (mapM cell_int (x' :: l')) as [zs'|]; try naive_solver.
  by rewrite (Hz zs zs').
Qed.

Lemma sum_column_perm rows rows' c : rows ≡ₚ rows' → sum_column rows c = sum_column rows' c.
Proof. intros Hp. unfold sum_column. apply sum_cells_perm. by rewrite Hp. Qed.

Lemma remove_dups_perm (l l' : list string) : l ≡ₚ l' → remove_dups l ≡ₚ remove_dups l'.
Proof.
  intros Hp. apply NoDup_Permutation; [apply NoDup_remove_dups.. |]. intros x. by rewrite !elem_of_remove_dups, Hp.
Qed.

Lemma distinct_sorted_perm l l' : l ≡ₚ l' → distinct_sorted l = distinct_sorted l'.
Proof.
  intros Hp. apply (StronglySorted_unique key_le); [apply (StronglySorted_merge_sort key_le).. |].
  unfold distinct_sorted. by rewrite !merge_sort_Permutation, (remove_dups_perm _ _ Hp).
Qed.

Lemma timeseries_point_perm rows rows' hour : rows ≡ₚ rows' → timeseries_point rows hour = timeseries_point rows' hour.
Proof.
  intros Hp. unfold timeseries_point.
  assert (filter (λ kb, BucketKey.hour kb.1 = hour) rows ≡ₚ filter (λ kb, BucketKey.hour kb.1 = hour) rows') as Hf by by rewrite Hp.
  by rewrite !(λ c, sum_column_perm _ _ c Hf).
Qed.

Lemma listed_rows_same c db db' w scope model status cursor :
  same_for c db db' → listing_wf db → listing_wf db' → (∀ x, Scope.admits scope x = true → x = c) →
  listed_rows db w scope model status cursor = listed_rows db' w scope model status cursor.
Proof.
  intros Hs Hwf Hwf' Hscope. apply (StronglySorted_unique_strong newer).
  - intros x y _ _ Hxy Hyx. unfold newer in *. pose proof (position_ltb_trans _ _ _ Hxy Hyx) as E.
    by rewrite position_ltb_irrefl in E.
  - by apply listed_rows_sorted.
  - by apply listed_rows_sorted.
  - apply NoDup_Permutation; try (unfold listed_rows; rewrite merge_sort_Permutation; apply NoDup_filter, NoDup_map_to_list).
    intros x. rewrite !listed_rows_elem. split; intros (Hx & Hl & Hb); (split_and!; [| done | done]);
      apply (same_records _ _ _ Hs); try done; apply Hscope;
      unfold listed, row_selected, scope_filter in Hl; rewrite eval_scope_clause, !andb_true_iff in Hl; cbn in Hl; tauto.
Qed.

Lemma unavailable_count_same c db db' w scope model :
  same_for c db db' → (∀ x, Scope.admits scope x = true → x = c) →
  unavailable_count db w scope model = unavailable_count db' w scope model.
Proof.
  intros Hs Hscope. unfold unavailable_count. f_equal. apply Permutation_length, NoDup_Permutation;
    [apply NoDup_filter, NoDup_map_to_list.. |].
  intros [rid r]. rewrite !list_elem_of_filter, !elem_of_map_to_list. unfold raw_rows. rewrite !lookup_fmap_Some. cbn [fst snd].
  split; intros [Hsel ([i r'] & E & Hr)]; (split; [done |]); exists (i, r'); (split; [done |]); cbn in E; subst r';
    apply (same_records _ _ _ Hs); try done; apply Hscope; cbn;
    unfold row_selected, scope_filter in Hsel; rewrite eval_scope_clause, !andb_true_iff in Hsel; cbn in Hsel; tauto.
Qed.

(** C26. No answer to a partner depends on another partner's traffic: on two
    ledgers that hold the same rows of this partner, whatever else they hold,
    every endpoint gives the same answer to every query, cursors and errors
    included. *)
Theorem consumers_are_isolated (db_text : SqlError → string) (blob : nat → list Z) (retention_days : Z)
    (now : OffsetDateTime) (ctx : ConsumerContext.t) (query : DashboardQuery.t) (db db' : LedgerDb)
    (Hpartner : ConsumerContext.is_manager ctx = false) (Hwf : listing_wf db) (Hwf' : listing_wf db')
    (Hsame : same_for (ConsumerContext.consumer_id ctx) db db') :
  get_summary db db retention_days now ctx query = get_summary db' db' retention_days now ctx query
  ∧ get_timeseries db retention_days now ctx query = get_timeseries db' retention_days now ctx query
  ∧ get_models db retention_days now ctx query = get_models db' retention_days now ctx query
  ∧ (get_requests db_text blob db retention_days now ctx query).2
    = (get_requests db_text blob db' retention_days now ctx query).2
  ∧ get_me db ctx = get_me db' ctx.
Proof.
  set (scope := resolve_scope ctx (DashboardQuery.consumers query)).
  assert (∀ x, Scope.admits scope x = true → x = ConsumerContext.consumer_id ctx) as Hscope.
  { intros x Hx%resolve_scope_admits. by rewrite Hpartner in Hx. }
  assert (∀ w model, buckets db (bucket_selected w scope model) ≡ₚ buckets db' (bucket_selected w scope model)) as Hb.
  { intros w model. eapply buckets_same; [done |]. intros k Hk. apply Hscope. unfold bucket_selected, scope_filter in Hk.
    rewrite eval_scope_clause, !andb_true_iff in Hk. cbn in Hk. tauto. }
  split_and!.
  - unfold get_summary. destruct (TimeWindow.resolve _ _ _) as [w|]; [| done]. fold scope.
    rewrite (unavailable_count_same _ db db' w scope (model_filter query) Hsame Hscope). unfold summary_query.
    by rewrite !(λ c, sum_column_perm _ _ c (Hb w (model_filter query))).
  - unfold get_timeseries. destruct (TimeWindow.resolve _ _ _) as [w|]; [| done]. fold scope. f_equal. unfold timeseries_query.
    specialize (Hb w (model_filter query)).
    rewrite (distinct_sorted_perm _ ((λ kb, BucketKey.hour kb.1) <$> buckets db' (bucket_selected w scope (model_filter query))))
      by (by rewrite Hb).
    f_equal. apply list_fmap_ext. intros i h _. by apply timeseries_point_perm.
  - unfold get_models. destruct (TimeWindow.resolve _ _ _) as [w|]; [| done]. fold scope. f_equal. apply distinct_sorted_perm.
    by rewrite Hb.
  - unfold get_requests. destruct (TimeWindow.resolve _ _ _) as [w|]; [| done]. rewrite (same_meta _ _ _ Hsame).
    destruct (signing_key _ _ _) as [meta [key|e]]; [| done]. cbn [snd].
    destruct (match DashboardQuery.cursor query with Some _ => _ | None => _ end) as [cursor|]; [| done].
    fold scope. f_equal. unfold requests_page.
    set (d := mkLedgerDb _ _ _). set (d' := mkLedgerDb _ _ _).
    change (listed_rows d) with (listed_rows db). change (listed_rows d') with (listed_rows db').
    by rewrite (listed_rows_same _ db db' w scope _ _ cursor Hsame Hwf Hwf' Hscope).
  - unfold get_me. by rewrite Hpartner.
Qed.
End Isolation.

(** ** Windows *)

(** A window that is granted lies inside the retention period and not in the
    future, whatever was asked for. *)
Lemma window_within_retention `{TimeLaws} (query : DashboardQuery.t) (retention_days : Z) (now : OffsetDateTime) (w : TimeWindow.t)
    (Hcalendar : MIN_JULIAN + 1 ≤ local_julian (unix_timestamp_nanos now - Z.max retention_days 1 * NS_PER_DAY) 0
                 ≤ MAX_JULIAN - 1) :
  TimeWindow.resolve query retention_days now = Ok w →
  ∃ start end_, w = TimeWindow.mk (format_ts start) (format_ts end_) (format_hour start) (format_hour end_)
    ∧ unix_timestamp_nanos now - Z.max retention_days 1 * NS_PER_DAY ≤ unix_timestamp_nanos start
    ∧ unix_timestamp_nanos end_ ≤ unix_timestamp_nanos now.
Proof.
  unfold TimeWindow.resolve. destruct (TimeWindow.requested query now) as [[s e]|]; [| done].
  unfold odt_lt, odt_le, TimeWindow.days_before.
  rewrite odt_add_nanos by (replace (unix_timestamp_nanos now + - (Z.max retention_days 1 * NS_PER_DAY))
    with (unix_timestamp_nanos now - Z.max retention_days 1 * NS_PER_DAY) by lia; done).
  destruct (Z.ltb_spec (unix_timestamp_nanos s) (unix_timestamp_nanos now + - (Z.max retention_days 1 * NS_PER_DAY))); [done |].
  intros [= <-]. destruct (Z.leb_spec (unix_timestamp_nanos e) (unix_timestamp_nanos now)).
  - exists s, e. split_and!; [done | lia | done].
  - exists s, now. split_and!; [done | lia | done].
Qed.

(** ** At a concrete ledger *)

(** Real numbers kept as the two cells they are the quotient of. *)
#[global] Instance QuotientFloats : Floats := {| f64 := Cell * Cell; real_ratio := pair; real_zero := (Int 0, Int 1) |}.

Definition dash_now : OffsetDateTime := odt_add t1 (600 * NS_PER_SEC).
Definition dash_row (ts : OffsetDateTime) (consumer : string) : Row.t :=
  Row.mk (format_ts ts) consumer "gpt-4o" "chat_completions" 1 (Some 200) "completed" None (Some 1000) (Some 20)
    (Some 400) (Some 120) 350 "available" None None (Some 95000) (Some 47500) (Some 475000).
Definition dash_key : list Z := as_bytes "cursor-test-key".
Definition dash_meta : Meta := <["cursor_key"%string := sql_hex dash_key]> ∅.

Definition dash_rows : gmap string (Z * Row.t) :=
  list_to_map [("req-1"%string, (1, dash_row t1 "acme")); ("req-2"%string, (2, dash_row t2 "acme"));
               ("req-3"%string, (3, dash_row t2 "globex")); ("req-4"%string, (4, dash_row t2 "acme"))].
Definition dash_3 : LedgerDb := mkLedgerDb dash_rows ∅ dash_meta.

Definition acme_context : ConsumerContext.t :=
  ConsumerContext.new (PartnerRuntimeConfig.empty "acme" "laptop" BillingMode.Invoice Active).
Definition two_a_page : DashboardQuery.t :=
  DashboardQuery.mk "today" None None "all" "all" None 2 "globex".
Definition dash_turns : list (OffsetDateTime * LedgerDb) := (λ now, (now, dash_3)) <$> replicate 5 dash_now.
Definition dash_text (e : SqlError) : string := "".
Definition dash_pages : result (list RequestItem.t * bool) DashboardError :=
  pages dash_text (λ _, dash_key) 14 acme_context two_a_page dash_turns.

Example dash_pages_listed :
  match dash_pages with
  | Ok (items, finished) => (RequestItem.request_id <$> items, finished) = (["req-4"; "req-2"; "req-1"]%string, true)
  | Err _ => False
  end.
Proof. vm_compute. reflexivity. Qed.

(** A checker of [listing_wf]. *)
Definition row_fine (x : Listed) : bool :=
  in_range i64_min i64_max x.2.1 && negb (str_is_empty (Row.created_at x.2.2)) && utf8_valid (Row.created_at x.2.2)
  && in_range 0 1 (Row.streaming x.2.2).

Lemma listing_wf_check db :
  bool_decide (NoDup ((λ x, x.2.1) <$> map_to_list (usage_records db))) = true →
  forallb row_fine (map_to_list (usage_records db)) = true → listing_wf db.
Proof.
  intros Hnd%bool_decide_eq_true Hall. split.
  - intros rid rid' i r r' Hr Hr'. apply elem_of_map_to_list in Hr, Hr'.
    apply list_elem_of_lookup in Hr as [j Hj], Hr' as [j' Hj'].
    assert (j = j') as <-.
    { apply (NoDup_lookup _ j j' i Hnd); by rewrite list_lookup_fmap, ?Hj, ?Hj'. }
    congruence.
  - intros rid i r Hr. apply elem_of_map_to_list in Hr. rewrite forallb_forall in Hall.
    specialize (Hall (rid, (i, r)) ltac:(by apply list_elem_of_In)). unfold row_fine, in_range in Hall. cbn in Hall.
    rewrite !andb_true_iff, !Z.leb_le, negb_true_iff in Hall. destruct Hall as (((? & Hne) & ?) & ?).
    split_and!; try done; try lia. intros E. by rewrite E in Hne.
Qed.

Lemma dash_3_wf : listing_wf dash_3.
Proof. apply listing_wf_check; vm_compute; reflexivity. Qed.

Lemma turns_ok_still key db nows :
  listing_wf db → read_cursor_key (ledger_meta db) = Some key → turns_ok key ((λ now, (now, db)) <$> nows).
Proof.
  intros Hwf Hkey. split.
  - intros t (now & -> & _)%list_elem_of_fmap. done.
  - intros t (now & -> & _)%list_elem_of_fmap. done.
  - intros t t' rid i r i' r' (now & -> & _)%list_elem_of_fmap (now' & -> & _)%list_elem_of_fmap Hr Hr'.
    cbn [snd] in Hr, Hr'. rewrite Hr in Hr'. by injection Hr' as <- <-.
Qed.

Lemma dash_turns_ok : turns_ok dash_key dash_turns.
Proof. apply turns_ok_still; [exact dash_3_wf | vm_compute; reflexivity]. Qed.

Definition dash_window : TimeWindow.t :=
  TimeWindow.mk "2026-09-24T00:00:00.000000000Z" "2026-09-24T08:00:00.000000000Z" "2026-09-24T00" "2026-09-24T08".

Definition dash_items : list RequestItem.t := (unwrap_or dash_pages ([], false)).1.

Lemma dash_pages_Ok : pages dash_text (λ _, dash_key) 14 acme_context two_a_page dash_turns = Ok (dash_items, true).
Proof.
  assert (is_ok dash_pages = true) as Hok by (vm_compute; reflexivity).
  assert ((unwrap_or dash_pages ([], false)).2 = true) as Hfin by (vm_compute; reflexivity).
  change (dash_pages = Ok (dash_items, true)). rewrite (is_ok_unwrap_or dash_pages ([], false) Hok).
  unfold dash_items. revert Hfin. destruct (unwrap_or dash_pages ([], false)) as [items fin]. by intros [= ->].
Qed.

Definition today_window : TimeWindow.t := unwrap_or (TimeWindow.resolve two_a_page 14 dash_now) dash_window.

Lemma req_1_selected t : t ∈ dash_turns →
  ∃ i r, usage_records t.2 !! "req-1"%string = Some (i, r) ∧ selects 14 acme_context two_a_page t.1 ("req-1"%string, (i, r)).
Proof.
  intros (now & -> & Hnow)%list_elem_of_fmap. apply elem_of_replicate_inv in Hnow as ->. cbn [fst snd].
  exists 1, (dash_row t1 "acme"). split; [vm_compute; reflexivity |]. exists today_window. split.
  - apply is_ok_unwrap_or. vm_compute. reflexivity.
  - vm_compute. reflexivity.
Qed.

Lemma paging_is_gapless_witness :
  turns_ok dash_key dash_turns ∧ "req-1"%string ∈ RequestItem.request_id <$> dash_items.
Proof.
  split; [exact dash_turns_ok |].
  destruct (paging_is_gapless dash_text (λ _, dash_key) 14 acme_context dash_key dash_turns two_a_page dash_items true
    dash_turns_ok eq_refl dash_pages_Ok) as (_ & _ & _ & Hall).
  exact (Hall eq_refl "req-1"%string req_1_selected).
Defined.

Lemma paging_ends_witness :
  turns_ok dash_key dash_turns
  ∧ ∃ items, pages dash_text (λ _, dash_key) 14 acme_context two_a_page dash_turns = Ok (items, true).
Proof.
  split; [exact dash_turns_ok |].
  apply (paging_ends dash_text (λ _, dash_key) 14 acme_context dash_key dash_3 (replicate 5 dash_now) two_a_page dash_turns_ok eq_refl).
  - apply Forall_replicate. vm_compute. reflexivity.
  - vm_compute. lia.
Defined.

(** The same three requests of acme beside another's. *)
Definition dash_other : LedgerDb :=
  mkLedgerDb (<["req-3"%string := (9, dash_row t1 "initech")]> dash_rows) ∅ dash_meta.

Lemma dash_other_wf : listing_wf dash_other.
Proof. apply listing_wf_check; vm_compute; reflexivity. Qed.

Lemma dash_same : same_for "acme" dash_3 dash_other.
Proof.
  split; [| done | done]. intros rid x Hx. unfold dash_3, dash_other. cbn [usage_records].
  destruct (decide (rid = "req-3"%string)) as [->|Hne]; [| by rewrite lookup_insert_ne by done].
  rewrite lookup_insert_eq. change (dash_rows !! "req-3"%string) with (Some (3, dash_row t2 "globex")).
  split; intros [= <-]; discriminate Hx.
Qed.

Lemma consumers_are_isolated_witness :
  same_for "acme" dash_3 dash_other
  ∧ get_models dash_3 14 dash_now acme_context two_a_page = get_models dash_other 14 dash_now acme_context two_a_page.
Proof.
  split; [exact dash_same |].
  exact (proj1 (proj2 (proj2 (consumers_are_isolated dash_text (λ _, dash_key) 14 dash_now acme_context two_a_page dash_3 dash_other
    eq_refl dash_3_wf dash_other_wf dash_same)))).
Defined.

(** One finished request, and its bucket. *)
Definition dash_contribution : Contribution.t :=
  Contribution.mk (StoredRow.key (StoredRow.of_row (dash_row t1 "acme")))
    (StoredRow.metrics (StoredRow.of_row (dash_row t1 "acme"))).
Definition dash_1 : LedgerDb :=
  mkLedgerDb (<["req-1"%string := (1, dash_row t1 "acme")]> ∅) (Contribution.add dash_contribution ∅) dash_meta.

Lemma dash_1_consistent : consistent (raw_rows dash_1) (usage_hourly dash_1).
Proof.
  assert (row_ok (dash_row t1 "acme")) as Hr by (intros []; vm_compute; congruence).
  assert (raw_rows dash_1 = <["req-1"%string := dash_row t1 "acme"]> (∅ : Records)) as ->
    by (unfold raw_rows, dash_1; cbn [usage_records]; by rewrite fmap_insert, fmap_empty).
  assert (fits (<["req-1"%string := dash_row t1 "acme"]> (∅ : Records))) as Hf
    by (apply fits_singleton; [done |]; intros []; vm_compute; congruence).
  assert (rows_ok (<["req-1"%string := dash_row t1 "acme"]> (∅ : Records))) as Hok
    by (apply map_Forall_insert_2; [exact Hr | apply map_Forall_empty]).
  split_and!; [done | done |]. apply add_agree; [apply lookup_empty | reflexivity | done | done | apply consistent_empty].
Qed.

Lemma summary_is_the_ledger_witness :
  consistent (raw_rows dash_1) (usage_hourly dash_1)
  ∧ (match summary_query dash_1 dash_window (Scope.One "acme") (Some "gpt-4o"%string) with
     | Ok s => SummaryResponse.total_requests s = 1
     | Err _ => False
     end)
  ∧ match summary_query dash_1 dash_window (Scope.One "acme") (Some "o3"%string) with
    | Ok s => SummaryResponse.total_requests s = 0
    | Err _ => False
    end.
Proof.
  split; [exact dash_1_consistent |]. split.
  - pose proof (summary_is_the_ledger dash_1 dash_window (Scope.One "acme") (Some "gpt-4o"%string) dash_1_consistent) as T.
    assert (is_ok (summary_query dash_1 dash_window (Scope.One "acme") (Some "gpt-4o"%string)) = true) as Hok by (vm_compute; reflexivity).
    destruct (summary_query _ _ _ _) as [s|e]; [| discriminate Hok]. rewrite (proj1 T). vm_compute. reflexivity.
  - pose proof (summary_is_the_ledger dash_1 dash_window (Scope.One "acme") (Some "o3"%string) dash_1_consistent) as T.
    assert (is_ok (summary_query dash_1 dash_window (Scope.One "acme") (Some "o3"%string)) = true) as Hok by (vm_compute; reflexivity).
    destruct (summary_query _ _ _ _) as [s|e]; [| discriminate Hok]. rewrite (proj1 T). vm_compute. reflexivity.
Defined.

Lemma series_adds_up_witness :
  consistent (raw_rows dash_1) (usage_hourly dash_1)
  ∧ match timeseries_query dash_1 dash_window (Scope.One "acme") None with
    | Ok points => zsum ((λ p, point_col p Requests) <$> points)
                   = ledger_sum (raw_rows dash_1) (bucket_selected dash_window (Scope.One "acme") None) Requests
    | Err _ => False
    end.
Proof.
  split; [exact dash_1_consistent |].
  pose proof (series_adds_up dash_1 dash_window (Scope.One "acme") None dash_1_consistent) as T. cbv zeta in T.
  assert (is_ok (timeseries_query dash_1 dash_window (Scope.One "acme") None) = true) as Hok by (vm_compute; reflexivity).
  destruct (timeseries_query _ _ _ _) as [s|e]; [exact (proj2 (proj2 (proj2 T)) Requests) | discriminate Hok].
Defined.

(** A range that lies ahead is granted, and ends before it starts; as the
    hours are those around the clock reading, the totals may still show the
    current hour while the list is empty. *)
Definition ahead : DashboardQuery.t :=
  DashboardQuery.mk "custom" (Some (format_ts (odt_add t1 (1200 * NS_PER_SEC)))) (Some (format_ts (odt_add t1 (1800 * NS_PER_SEC))))
    "all" "all" None 50 "".

Example future_window_is_inverted :
  match TimeWindow.resolve ahead 14 dash_now with
  | Ok w => str_ltb (TimeWindow.end_ts w) (TimeWindow.start_ts w) = true ∧ TimeWindow.start_hour w = TimeWindow.end_hour w
            ∧ match summary_query dash_1 w (Scope.One "acme") None with
              | Ok s => SummaryResponse.total_requests s = 1
              | Err _ => False
              end
            ∧ listed_rows dash_1 w (Scope.One "acme") None None None = []
  | Err _ => False
  end.
Proof. vm_compute. auto. Qed.
