(* ===== verification/Agreement.v ===== *)
(** * The ledger over its whole life ([src/src/ledger/recovery.rs], [writer.rs], [main.rs])

    What every transaction that touches the usage tables does to them, in any
    order and from any number of instances: the writers' batches, whole or
    rolled back, the recovery passes, the registrations. The rollup stays the
    sum of the raw rows, and so the consistency audit, modelled here, finds
    nothing. The retention sweep is not among the transactions: it removes rows
    on purpose, and [Retention.v] says what it leaves. *)

From stdpp Require Import base strings list gmap numbers fin_maps relations.
From Stdlib Require Import Ascii ZArith Lia.
From S2P Require Import Prelude Http TimeLib Calendar Timefmt Pricing LedgerTypes Sql Rollup Retention Json SseScan Dashboard Statements Writer Proxy Metering Recovery Registry.

Local Open Scope Z_scope.

(** ** The audit *)

(** [check_raw_rollup_consistency]: the terminal rows, and the requests in the buckets. *)
Definition check_raw_rollup_consistency (records : Records) (hourly : Hourly) : result (Z * Z) SqlError :=
  let terminal := Z.of_nat (count_rows (λ r, negb (in_flight r)) records) in
  let? v := sum_cells ((λ kb, cell kb.2 Requests) <$> map_to_list hourly) in
  let? rolled := get_i64 (coalesce0 v) in
  Ok (terminal, rolled).

(** The log line of [audit_consistency]. *)
Inductive Audit : Type :=
  | Disagree (terminal rolled drift : Z)
  | Consistent
  | AuditFailed (e : SqlError).

Definition audit_consistency (records : Records) (hourly : Hourly) : Audit :=
  match check_raw_rollup_consistency records hourly with
  | Ok (terminal, rolled) =>
      if negb (terminal =? rolled) then Disagree terminal rolled (terminal - rolled) else Consistent
  | Err e => AuditFailed e
  end.

Section Audited.
Context `{TimeCrate}.

Lemma terminal_row r :
  RequestStatus.is_terminal (RequestStatus.from_str_lossy (Row.request_status r)) = negb (in_flight r).
Proof.
  unfold in_flight, RequestStatus.from_str_lossy.
  destruct (String.eqb _ "in_flight"); [done |]. by repeat destruct (String.eqb _ _).
Qed.

(** Every terminal row is one request of one bucket. *)
Lemma ledger_sum_requests records :
  ledger_sum records (λ _, true) Requests = Z.of_nat (count_rows (λ r, negb (in_flight r)) records).
Proof.
  induction records as [|i r records Hi IH] using map_ind; [done |].
  rewrite ledger_sum_insert, count_rows_insert, IH by done.
  unfold row_amount, StoredRow.contribution. cbn [StoredRow.of_row StoredRow.status].
  rewrite terminal_row. by destruct (in_flight r); cbn [negb Contribution.metrics metric]; lia.
Qed.

(** On tables that agree the audit reads the same number twice. *)
Lemma check_of_consistent records hourly :
  consistent records hourly → let n := Z.of_nat (count_rows (λ r, negb (in_flight r)) records) in
  n ≤ i64_max → check_raw_rollup_consistency records hourly = Ok (n, n).
Proof.
  intros Hc n Hn. unfold check_raw_rollup_consistency. fold n.
  set (db := mkLedgerDb ((λ r, (0, r)) <$> records) hourly ∅).
  assert (raw_rows db = records) as Er.
  { unfold raw_rows, db. cbn [Dashboard.usage_records]. rewrite <- map_fmap_compose. apply map_fmap_id. }
  destruct (bucket_cells db (λ _, true) Requests) as (zs & Ezs & _ & Es); [by rewrite Er |].
  assert (buckets db (λ _, true) = map_to_list hourly) as Eb.
  { unfold buckets. cbn [Dashboard.usage_hourly db]. induction (map_to_list hourly) as [|x l IH]; [done |].
    by rewrite filter_cons_True, IH. }
  rewrite Eb in Ezs. rewrite Ezs. rewrite Er, ledger_sum_requests in Es. fold n in Es.
  assert (sum_cells (Int <$> zs) = Ok (match zs with [] => None | _ => Some (Int n) end)) as ->.
  { unfold sum_cells. destruct zs as [|z zs]; [done |].
    change (Int <$> z :: zs) with (Int z :: (Int <$> zs)). cbv iota.
    change (Int z :: (Int <$> zs)) with (Int <$> z :: zs). rewrite mapM_cell_int, Es.
    unfold in_range. ranges. zcases; done || lia. }
  destruct zs as [|z zs]; [cbn in *; by rewrite <- Es | done].
Qed.
End Audited.

(** ** Every transaction on the usage tables *)

Definition with_tables (d : Database) (t : Ledger) : Database := mkDatabase t (ledger_instances d) (ledger_meta d).

Section Commits.
Context `{TimeCrate, SerdeDocs, Memchr, Http, Rusqlite}.

(** The requests of all instances, and how each is acknowledged. *)
Variables (xs : list Exchange) (acks : Exchange → nat).

(** A writer's batch: what the requests queue, and barriers. *)
Definition queued (batch : list PendingWrite.t) : Prop :=
  ∀ p, p ∈ batch → PendingWrite.op p = WriteOp.Barrier ∨ p ∈ xs ≫= λ x, writes (acks x) x.

(** No bucket leaves SQLite's integers while a batch is written. *)
Definition batch_fits (inst : option string) (batch : list PendingWrite.t) (t : Ledger) : Prop :=
  ∀ k t' n, write_all (finalized_ids batch) inst (take k batch) t 0 = Ok (t', n) → fits (usage_records t').

(** A batch of the instance [i], which may be rolled back; a recovery pass of
    any instance; a registration and its removal. *)
Inductive commit : Database → Database → Prop :=
  | commit_batch d i attempts committed batch : queued batch → batch_fits (Some i) batch (tables d) →
      commit d (with_tables d (fl_ledger (flush_with_retry attempts (tables d) batch committed (Some i))))
  | commit_recover d ctx : fits (usage_records (tables (recover_in_flight ctx d).1)) →
      commit d (recover_in_flight ctx d).1
  | commit_register d i : commit d (register d i)
  | commit_unregister d i : commit d (unregister d i).
End Commits.

(** What a transaction may do to a row: finish it. *)
Definition progresses (t t' : Ledger) : Prop :=
  ∀ id r, usage_records t !! id = Some r →
    ∃ r', usage_records t' !! id = Some r' ∧ (r' = r ∨ in_flight r' = false).

#[global] Instance progresses_preorder : PreOrder progresses.
Proof.
  split; [intros t id r E; exists r; auto |]. intros t u v Htu Huv id r E.
  destruct (Htu id r E) as (r1 & E1 & [->|T1]), (Huv id _ E1) as (r2 & E2 & [->|T2]); eauto.
Qed.

Section Throughout.
Context `{TimeCrate, !TimeLaws, SerdeDocs, !SerdeJsonLaws, Memchr, !MemchrLaws, Http, RusqliteLaws}.

(** The row of a request that was let in: its caller's and its model's, of the
    moment it arrived, at its prices. *)
Definition row_of_request (a : RequestRecord.t) (r : Row.t) : Prop :=
  Row.created_at r = format_timestamp (RequestRecord.created_at a)
  ∧ Row.consumer_id r = RequestRecord.consumer_id a
  ∧ Row.model r = RequestRecord.model a
  ∧ Row.endpoint r = Endpoint.as_str (RequestRecord.endpoint a)
  ∧ price_row r = price_columns (RequestRecord.pricing a).

Lemma row_of_request_bucket a f r :
  ledger_instant (RequestRecord.created_at a) → same_request a f → row_of_request a r → same_bucket f r.
Proof.
  intros Hi (E1 & E2 & E3 & E4 & _) (R1 & R2 & R3 & R4 & _). unfold same_bucket.
  rewrite R1, R2, R3, R4, <- E1, E2, E3, E4. split_and!; try done. unfold format_timestamp. by apply format_hour_of_stored.
Qed.

Lemma accept_row_of_request a inst : row_of_request a (accept_row a inst).
Proof. unfold row_of_request, accept_row, price_row. by destruct (price_columns _) as [[? ?] ?]. Qed.

(** A finish leaves the request its moment, its caller and its prices. *)
Lemma final_row_of_request a f records b inst :
  same_request a f → (∀ r, records !! RequestRecord.request_id f = Some r → row_of_request a r) →
  row_of_request a (final_row records f b inst).
Proof.
  intros (E1 & E2 & E3 & E4 & E5) Hr. unfold final_row. destruct (records !! _) as [r|] eqn:Er.
  - destruct (Hr r eq_refl) as (R1 & R2 & R3 & R4 & R5). unfold row_of_request, price_row, updated_row in *.
    rewrite E5 in *. destruct (price_columns _) as [[[?|] [?|]] [?|]]; cbn; injection R5 as ? ? ?; split_and!; congruence.
  - unfold row_of_request, price_row, inserted_row. rewrite E1, E2, E3, E4, E5. by destruct (price_columns _) as [[? ?] ?].
Qed.

(** Agreement, no figures before the finish, and prices the schema stores. *)
Record ledger_sound (t : Ledger) : Prop := {
  ls_consistent : ledger_consistent t;
  ls_blank : in_flight_blank (usage_records t);
  ls_prices : map_Forall (λ _ r, row_prices_ok r) (usage_records t) }.

Lemma row_of_request_prices a r : priced_ok a → row_of_request a r → row_prices_ok r.
Proof.
  intros Hp (_ & _ & _ & _ & E) z Hz. unfold price_row in E.
  assert (∀ o, o ∈ [Row.input_price_snapshot r; Row.cached_input_price_snapshot r; Row.output_price_snapshot r] →
    0 ≤ default 0 o ≤ i64_max) as Hall; [| by apply Hall].
  unfold priced_ok, price_columns in *. destruct (RequestRecord.pricing a) as [s|].
  - specialize (Hp s eq_refl). unfold prices_ok in Hp. destruct (PricingSnapshot.as_tuple s) as [[? ?] ?].
    injection E as -> -> ->. intros o Ho. repeat (apply elem_of_cons in Ho as [->|Ho]; [cbn; lia |]). by apply elem_of_nil in Ho.
  - injection E as -> -> ->. intros o Ho. repeat (apply elem_of_cons in Ho as [->|Ho]; [cbn; ranges; lia |]). by apply elem_of_nil in Ho.
Qed.

Lemma final_row_not_in_flight records f b inst :
  RequestRecord.is_terminal f = true → in_flight (final_row records f b inst) = false.
Proof.
  intros Ht. rewrite <- negb_true_iff, <- terminal_row. unfold final_row, updated_row, inserted_row.
  destruct (records !! _); destruct (price_columns _) as [[? ?] ?]; cbn [Row.request_status]; by rewrite from_str_lossy_as_str.
Qed.

Context (xs : list Exchange) (acks : Exchange → nat).
Context (Hids : ∀ x y, x ∈ xs → y ∈ xs → request_id (env x) = request_id (env y) → x = y).

(** Prices the schema accepts and clocks in range. *)
Definition exchange_ok (x : Exchange) : Prop :=
  ledger_instant (Proxy.now (env x)) ∧ exchange_clock x ∧ ∀ e m prices, exchange_gate x = Some (e, m, prices) → prices_ok prices.

Context (Hxs : ∀ x, x ∈ xs → exchange_ok x).

Record ledger_ok (t : Ledger) : Prop := {
  lo_sound : ledger_sound t;
  lo_rows x g r : x ∈ xs → exchange_gate x = Some g → usage_records t !! request_id (env x) = Some r →
    row_of_request (accepted x g) r }.

Lemma accepted_id x g : RequestRecord.request_id (accepted x g) = request_id (env x).
Proof. by destruct g as [[? ?] ?]. Qed.

Lemma accepted_instant x g : RequestRecord.created_at (accepted x g) = Proxy.now (env x).
Proof. by destruct g as [[? ?] ?]. Qed.

Lemma accepted_priced x g : x ∈ xs → exchange_gate x = Some g → priced_ok (accepted x g).
Proof.
  destruct g as [[e m] prices]. intros Hx Hg s [= <-]. destruct (Hxs x Hx) as (_ & _ & Hp). by eapply Hp.
Qed.

Lemma accept_ledger_ok t t' x g inst :
  x ∈ xs → exchange_gate x = Some g → ledger_ok t → insert_accept t (accepted x g) inst = Ok t' →
  ledger_ok t' ∧ progresses t t'.
Proof.
  intros Hx Hg [[Hc Hb Hpr] Hr] Hacc. pose proof (accepted_priced x g Hx Hg) as Hp.
  pose proof (accept_row_of_request (accepted x g) inst) as Hrow. rewrite insert_accept_Ok in Hacc by done.
  destruct (usage_records t !! _) as [r0|] eqn:E; injection Hacc as <-; [by split |].
  rewrite accepted_id in *. split; [split; [split|]; cbn [usage_records usage_hourly] |].
  - apply idle_insert_consistent; [done | done | apply accept_row_ok | apply accept_row_idle].
  - apply map_Forall_insert_2; [| done]. intros _. unfold accept_row. by destruct (price_columns _) as [[? ?] ?].
  - apply map_Forall_insert_2; [| done]. by apply (row_of_request_prices (accepted x g)).
  - intros y gy r Hy Hgy [[Eid <-]|[_ Er]]%lookup_insert_Some; [| by apply (Hr y gy r)].
    assert (x = y) as <- by (by apply Hids). by assert (g = gy) as <- by congruence.
  - intros id r Eid. exists r. split; [| by left]. cbn [usage_records]. rewrite lookup_insert_ne; [done | congruence].
Qed.

Lemma finalize_ledger_ok t t' x g f inst :
  x ∈ xs → exchange_gate x = Some g → resolves (accepted x g) f → ledger_ok t →
  finalize_record t f inst = Ok t' → fits (usage_records t') → ledger_ok t' ∧ progresses t t'.
Proof.
  intros Hx Hg Hres [[Hc Hb Hpr] Hr] Hfin Hfits. destruct (Hxs x Hx) as (Hi & _ & _).
  pose proof (res_same _ _ Hres) as Hs.
  assert (RequestRecord.request_id f = request_id (env x)) as Eid by (by rewrite (res_id _ _ Hres), accepted_id).
  assert (record_ok f) as Hf by (apply (resolves_record_ok (accepted x g)); [by rewrite accepted_instant | done]).
  assert (∀ r, usage_records t !! RequestRecord.request_id f = Some r → row_of_request (accepted x g) r) as Hrow.
  { intros r Er. apply (Hr x g r Hx Hg). by rewrite <- Eid. }
  assert (ledger_consistent t') as Hc'.
  { apply (finalize_consistent t f inst t'); [done | done | | done | done]. intros r Er.
    apply (row_of_request_bucket (accepted x g)); [by rewrite accepted_instant | done | by apply Hrow]. }
  apply finalize_record_Ok in Hfin as (b & Hbind & _ & Er & _).
  pose proof (final_row_not_in_flight (usage_records t) f b inst (res_terminal _ _ Hres)) as Ht.
  pose proof (final_row_of_request (accepted x g) f (usage_records t) b inst Hs Hrow) as Hfr.
  split; [split; [split; [done | |] |] |].
  - rewrite Er. apply map_Forall_insert_2; [| done]. by rewrite Ht.
  - rewrite Er. apply map_Forall_insert_2; [| done]. by apply (row_of_request_prices (accepted x g)); [apply accepted_priced |].
  - intros y gy r Hy Hgy. rewrite Er, Eid. intros [[Ey <-]|[_ Ey]]%lookup_insert_Some; [| by apply (Hr y gy r)].
    assert (x = y) as <- by (by apply Hids). by assert (g = gy) as <- by congruence.
  - intros id r Ei. rewrite Er. destruct (decide (RequestRecord.request_id f = id)) as [<-|Hne].
    + rewrite lookup_insert_eq. eauto.
    + rewrite lookup_insert_ne by done. eauto.
Qed.

(** *** Batches *)
Lemma write_one_ok finalized inst p t t' n :
  (PendingWrite.op p = WriteOp.Barrier ∨ p ∈ xs ≫= λ x, writes (acks x) x) → ledger_ok t →
  write_one finalized inst p t = Ok (t', n) → fits (usage_records t') → ledger_ok t' ∧ progresses t t'.
Proof.
  intros Hp Hok Hw Hfits. unfold write_one in Hw. destruct Hp as [Hbar|Hp].
  { rewrite Hbar in Hw. by destruct (PendingWrite.record p); injection Hw as <- _. }
  apply list_elem_of_bind in Hp as (x & Hp & Hx). destruct (Hxs x Hx) as (_ & Hc & _).
  destruct (writes_cases _ _ _ Hc Hp) as (g & Hg & [[Hop Hrec]|(f & [Hop Hrec] & Hres)]); rewrite Hop, Hrec in Hw.
  - destruct (decide _); [by injection Hw as <- _ |].
    destruct (insert_accept t (accepted x g) inst) as [t1|] eqn:E; [| done]. injection Hw as <- _.
    by apply (accept_ledger_ok t t1 x g inst).
  - destruct (finalize_record t f inst) as [t1|] eqn:E; [| done]. injection Hw as <- _.
    by apply (finalize_ledger_ok t t1 x g f inst).
Qed.

Lemma write_all_ok finalized inst batch t n t' m :
  queued xs acks batch → (∀ k u l, write_all finalized inst (take k batch) t n = Ok (u, l) → fits (usage_records u)) →
  ledger_ok t → write_all finalized inst batch t n = Ok (t', m) → ledger_ok t' ∧ progresses t t'.
Proof.
  revert t n. induction batch as [|p batch IH]; intros t n Hq Hfits Hok Hw; cbn [write_all] in Hw; [by injection Hw as <- _ |].
  destruct (write_one finalized inst p t) as [[t1 n1]|] eqn:E; [| done].
  destruct (write_one_ok finalized inst p t t1 n1) as [Hok1 Hp1]; [apply Hq; by left | done | done | |].
  { apply (Hfits 1%nat t1 (n + n1)). rewrite firstn_cons, take_0. cbn [write_all]. by rewrite E. }
  destruct (IH t1 (n + n1)) as [Hok2 Hp2]; [| | done | done |].
  - intros q Hin. apply Hq. by right.
  - intros k u l Hu. apply (Hfits (S k) u l). rewrite firstn_cons. cbn [write_all]. by rewrite E.
  - split; [done | by transitivity t1].
Qed.

Lemma flush_ok inst attempts committed batch t :
  queued xs acks batch → batch_fits inst batch t → ledger_ok t →
  let t' := fl_ledger (flush_with_retry attempts t batch committed inst) in ledger_ok t' ∧ progresses t t'.
Proof.
  intros Hq Hfits Hok. unfold flush_with_retry. destruct batch as [|p batch]; [by split |].
  destruct (flush_attempts_spec attempts BUSY_RETRIES 0 t (p :: batch) committed inst) as (k & _ & _ & Hor); [intros j Hj; lia |].
  destruct Hor as [(t1 & n & Ht & ->)|(e & _ & _ & ->)]; [| by split]. cbn [fl_ledger]. unfold try_flush in Ht.
  destruct (unless (begin_error _)); [| done].
  destruct (write_all _ _ _ _ _) as [[t2 m]|] eqn:E; [| done]. destruct (unless (commit_error _)); [| done].
  injection Ht as <- _. by eapply write_all_ok.
Qed.

(** *** Recovery passes *)
Lemma interrupt_row_of_request a r : row_of_request a r → row_of_request a (interrupt_row r).
Proof. done. Qed.

Lemma recover_progresses ctx d : progresses (tables d) (tables (recover_in_flight ctx d).1).
Proof.
  intros id r Er. eexists. split; [by apply recover_resolves |]. destruct (in_flight r && _); [by right | by left].
Qed.

Lemma recover_ok ctx d :
  ledger_ok (tables d) → fits (usage_records (tables (recover_in_flight ctx d).1)) →
  ledger_ok (tables (recover_in_flight ctx d).1) ∧ progresses (tables d) (tables (recover_in_flight ctx d).1).
Proof.
  intros [[Hc Hb Hpr] Hr] Hfits. split; [| apply recover_progresses]. set (d' := (recover_in_flight ctx d).1) in *.
  assert (∀ id r', usage_records (tables d') !! id = Some r' → ∃ r, usage_records (tables d) !! id = Some r
    ∧ (r' = r ∨ r' = interrupt_row r)) as Hback.
  { intros id r' E. destruct (usage_records (tables d) !! id) as [r|] eqn:Er.
    - exists r. split; [done |]. unfold d' in E. rewrite (recover_resolves ctx d id r Er) in E. injection E as <-.
      destruct (_ && _); auto.
    - unfold d' in E. pose proof (proj1 (recover_tables ctx d)) as Et. cbv zeta in Et. rewrite Et in E.
      cbn [usage_records] in E. by rewrite lookup_fmap, Er in E. }
  split; [split |].
  - by apply recover_keeps_agreement.
  - intros id r' E Hfl. destruct (Hback id r' E) as (r & Er & [->| ->]); [by apply (Hb id r) | done].
  - intros id r' E. destruct (Hback id r' E) as (r & Er & [->| ->]); exact (Hpr id r Er).
  - intros x g r' Hx Hg E. destruct (Hback _ r' E) as (r & Er & [->| ->]); [| apply interrupt_row_of_request]; by apply (Hr x g r).
Qed.

(** *** Any number of transactions *)
Lemma commit_ok d d' :
  ledger_ok (tables d) → commit xs acks d d' → ledger_ok (tables d') ∧ progresses (tables d) (tables d').
Proof.
  intros Hok Hd. destruct Hd as [d i attempts committed batch Hq Hfits|d ctx Hfits|d i|d i].
  - by apply flush_ok.
  - by apply recover_ok.
  - by split.
  - by split.
Qed.

Lemma commits_ok d d' :
  ledger_ok (tables d) → rtc (commit xs acks) d d' → ledger_ok (tables d') ∧ progresses (tables d) (tables d').
Proof.
  intros Hok Hs. induction Hs as [d|d d1 d2 Hd _ IH]; [by split |].
  destruct (commit_ok d d1 Hok Hd) as [Hok1 Hp1]. destruct (IH Hok1) as [Hok2 Hp2].
  split; [done | by transitivity (tables d1)].
Qed.

Lemma ledger_ok_start t :
  ledger_sound t → (∀ x, x ∈ xs → usage_records t !! request_id (env x) = None) → ledger_ok t.
Proof. intros Hs Hnew. split; [done |]. intros x g r Hx _. by rewrite Hnew. Qed.
End Throughout.

Section Property.
Context `{TimeCrate, !TimeLaws, SerdeDocs, !SerdeJsonLaws, Memchr, !MemchrLaws, Http, RusqliteLaws}.

(** C2. The ledger at every moment of its life. Whatever batches any number of
    instances write, commit and roll back, whatever crashed and was recovered in
    between, in any order: the rollup is the grouped sum of the terminal raw
    rows, so the consistency audit reads the same number on both sides; no row
    is lost, altered while in flight or reopened once terminal; and the row of a request is its
    caller's and its model's, of the moment it arrived, at the prices of the check
    that let it in. *)
Theorem ledger_agrees_throughout (xs : list Exchange) (acks : Exchange → nat) (d d' : Database)
    (Hids : ∀ x y, x ∈ xs → y ∈ xs → request_id (env x) = request_id (env y) → x = y)
    (Hxs : ∀ x, x ∈ xs → exchange_ok x)
    (Hstart : ledger_sound (tables d))
    (Hnew : ∀ x, x ∈ xs → usage_records (tables d) !! request_id (env x) = None)
    (Hcommits : rtc (commit xs acks) d d') :
  let records := usage_records (tables d') in
  let n := Z.of_nat (count_rows (λ r, negb (in_flight r)) records) in
  ledger_sound (tables d')
  ∧ (n ≤ i64_max → audit_consistency records (usage_hourly (tables d')) = Consistent)
  ∧ progresses (tables d) (tables d')
  ∧ ∀ x g r, x ∈ xs → exchange_gate x = Some g → records !! request_id (env x) = Some r →
      row_of_request (accepted x g) r.
Proof.
  intros records n.
  destruct (commits_ok xs acks Hids Hxs d d') as [[Hs Hr] Hp]; [by apply ledger_ok_start | done |].
  split_and!; [done | | done | exact Hr]. destruct Hs as [Hc _ _]. intros Hn. unfold audit_consistency.
  rewrite check_of_consistent by done. fold records. cbn iota beta. by rewrite Z.eqb_refl.
Qed.
End Property.

(** ** An instance that dies with a request in flight *)
Definition commits_at : nat → Attempt := λ _, mkAttempt None None.
Definition life_0 : Database := mkDatabase ledger_0 ∅ ∅.
Definition life_1 : Database := register life_0 "i-1".
Definition life_2 : Database := with_tables life_1 (accepted_ledger (Some "i-1"%string) ledger_0 accepted_1).
Definition life_3 : Database := (recover_in_flight context_2 life_2).1.

Lemma queued_1_queued : queued [exchange_1] (λ _, 7%nat) queued_1.
Proof. intros p Hp. right. by apply queued_1_written. Qed.

Lemma accepted_1_priced : priced_ok accepted_1.
Proof. intros s Es. injection Es as <-. exact gate_1_priced. Qed.

Lemma accepted_1_consistent : ledger_consistent (tables life_2).
Proof. apply idle_insert_consistent; [apply consistent_empty | apply lookup_empty | apply accept_row_ok | apply accept_row_idle]. Qed.

Lemma queued_1_all n : write_all (finalized_ids queued_1) (Some "i-1"%string) queued_1 ledger_0 n = Ok (tables life_2, n + 1).
Proof.
  cbn [write_all queued_1]. unfold write_one. cbn [PendingWrite.record PendingWrite.op].
  rewrite (decide_False (P := _ ∈ _)) by (intros (p & r & ->%list_elem_of_singleton & [[=] _] & _)%finalized_ids_spec).
  by rewrite insert_accept_Ok by exact accepted_1_priced.
Qed.

Lemma queued_1_fits : batch_fits (Some "i-1"%string) queued_1 (tables life_1).
Proof.
  intros [|k] t n.
  - intros [= <- _]. apply consistent_empty.
  - change (take (S k) queued_1) with (PendingWrite.mk WriteOp.Accept (Some accepted_1) 7 :: take k []). rewrite take_nil.
    intros E. assert (t = tables life_2) as -> by (pose proof (eq_trans (eq_sym (queued_1_all 0)) E); congruence).
    apply accepted_1_consistent.
Qed.

Lemma life_3_fits : fits (usage_records (tables life_3)).
Proof.
  unfold life_3. rewrite (proj1 (recover_tables context_2 life_2)). cbn [usage_records tables life_2 with_tables accepted_ledger].
  change (usage_records ledger_0) with (∅ : Records). rewrite fmap_insert, fmap_empty.
  destruct (stranded _ _ _); apply fits_singleton; intros []; vm_compute; congruence.
Qed.

Lemma life_commits : rtc (commit [exchange_1] (λ _, 7%nat)) life_0 life_3.
Proof.
  eapply rtc_l; [apply (commit_register _ _ life_0 "i-1") |].
  eapply rtc_l; [apply (commit_batch _ _ life_1 "i-1" commits_at 0 queued_1); [exact queued_1_queued | exact queued_1_fits] |].
  assert (with_tables life_1 (fl_ledger (flush_with_retry commits_at (tables life_1) queued_1 0 (Some "i-1"%string))) = life_2) as -> by reflexivity.
  apply rtc_once, commit_recover. exact life_3_fits.
Qed.

Lemma ledger_agrees_throughout_witness :
  rtc (commit [exchange_1] (λ _, 7%nat)) life_0 life_3
  ∧ (Row.request_status <$> usage_records (tables life_3) !! "req-9"%string) = Some "interrupted"%string
  ∧ audit_consistency (usage_records (tables life_3)) (usage_hourly (tables life_3)) = Consistent.
Proof.
  split; [exact life_commits |]. split; [by vm_compute |].
  refine (proj1 (proj2 (ledger_agrees_throughout [exchange_1] (λ _, 7%nat) life_0 life_3 exchanges_1_distinct _ _ _ life_commits)) _).
  - intros x Hx. destruct (exchanges_1_ok x Hx) as [Hc Hp]. split; [| by split].
    apply list_elem_of_singleton in Hx as ->. exact ledger_instant_t1.
  - split; [apply consistent_empty | apply map_Forall_empty | apply map_Forall_empty].
  - intros x _. apply lookup_empty.
  - vm_compute. discriminate.
Defined.

(** The audit's warning is not only a drift of recovery or retention failing,
    as its documentation has it: the hour a sweep's cutoff falls in has lost its
    bucket, and keeps the rows of its later minutes. *)
Example audit_warns_after_a_sweep :
  audit_consistency (records_of tables_1) (hourly_of tables_1) = Consistent
  ∧ is_ok swept_1.2 = true
  ∧ audit_consistency (records_of swept_1.1) (hourly_of swept_1.1) = Disagree 1 0 1.
Proof. vm_compute. auto. Qed.
