(* ===== verification/Billed.v ===== *)
(** * What a request costs its caller ([src/src/proxy/handler.rs] to [src/src/billing/statements.rs])

    The request path, the ledger's life and the statement generator put
    together: the row a request leaves is on the statement of its caller's local
    day, under its model, at the prices of the check that let it in. *)

From stdpp Require Import base strings list gmap numbers fin_maps relations.
From Stdlib Require Import Ascii ZArith Lia.
From S2P Require Import Prelude Http TimeLib Calendar Timefmt Pricing Period Status Partner Context LedgerTypes Sql Rollup Json SseScan StreamMeter Statements Writer Proxy Metering Recovery Registry Agreement.

Local Open Scope Z_scope.

(** The group of a model at a price list. *)
Definition key_at (model : string) (prices : PricingSnapshot.t) : GroupKey :=
  let '(i, c, o) := PricingSnapshot.as_tuple prices in (model, Some i, Some c, Some o).

Section Billed.
Context `{TimeCrate, !TimeLaws, SerdeDocs, !SerdeJsonLaws, Memchr, !MemchrLaws, Http, RusqliteLaws}.

(** A row without figures is charged for nothing. *)
Lemma blank_not_billable r : Row.input_tokens r = None → row_billable r = false.
Proof. unfold row_billable. by intros ->. Qed.

Lemma line_key_unique l line line' :
  NoDup (line_key <$> l) → line ∈ l → line' ∈ l → line_key line = line_key line' → line = line'.
Proof.
  intros Hnd [i Hi]%list_elem_of_lookup [j Hj]%list_elem_of_lookup E.
  assert (i = j) as <-; [| congruence].
  apply (NoDup_lookup _ _ _ (line_key line) Hnd); rewrite list_lookup_fmap; [by rewrite Hi | by rewrite Hj, E].
Qed.

Lemma row_of_request_key x e m prices r :
  row_of_request (accepted x (e, m, prices)) r → group_key r = key_at m prices.
Proof.
  intros (_ & _ & Em & _ & Ep). unfold group_key, key_at, price_row in *.
  change (RequestRecord.pricing (accepted x (e, m, prices))) with (Some prices) in Ep.
  change (RequestRecord.model (accepted x (e, m, prices))) with m in Em.
  unfold price_columns in Ep. destruct (PricingSnapshot.as_tuple prices) as [[? ?] ?]. congruence.
Qed.

(** C3. A request is billed as it was accepted. Whatever became of it on the
    ledger, written, retried or recovered by whichever instance: its row is
    among those of a statement exactly when the statement is its caller's and
    of the local day it arrived on; while it is in flight it is charged for
    nothing; and once it is chargeable the statement has one line of its model
    at the prices of the check that let it in, with the exact sums of the
    chargeable rows of that group, unless the group's cost does not fit in
    micro-dollars. *)
Theorem request_is_billed_as_accepted (xs : list Exchange) (acks : Exchange → nat) (d d' : Database)
    (x : Exchange) (endpoint : Endpoint.t) (model : string) (prices : PricingSnapshot.t) (r : Row.t)
    (g : Generator.t) (partner : Partner.t) (day : BillingDay.t) (cutoff : OffsetDateTime) (draft : StatementDraft.t)
    (Hids : ∀ x y, x ∈ xs → y ∈ xs → request_id (env x) = request_id (env y) → x = y)
    (Hxs : ∀ x, x ∈ xs → exchange_ok x) (Hstart : ledger_sound (tables d))
    (Hnew : ∀ x, x ∈ xs → usage_records (tables d) !! request_id (env x) = None)
    (Hcommits : rtc (commit xs acks) d d')
    (Hx : x ∈ xs) (Hgate : exchange_gate x = Some (endpoint, model, prices))
    (Hr : usage_records (tables d') !! request_id (env x) = Some r)
    (Hday : day_ok day) (Htz : BillingTimezone.valid (Generator.timezone g))
    (Hopens : ledger_instant (BillingDay.start_utc day (Generator.timezone g)))
    (Hcloses : ledger_instant (BillingDay.end_exclusive_utc day (Generator.timezone g)))
    (Hdraft : Generator.statement_for_day g (usage_records (tables d')) partner day cutoff = Ok draft) :
  let bounds := BillingPeriod.to_bounds (BillingPeriod.for_day day (Generator.timezone g)) in
  let rows := period_rows (usage_records (tables d')) (Partner.consumer_id partner) bounds.1 bounds.2 in
  (r ∈ rows ↔ ConsumerContext.consumer_id (consumer x) = Partner.consumer_id partner
              ∧ BillingDay.of_instant (Proxy.now (env x)) (Generator.timezone g) = day)
  ∧ (in_flight r = true → row_billable r = false)
  ∧ (r ∈ rows → row_billable r = true →
       (∃ line, line ∈ StatementDraft.lines draft ∧ line_key line = key_at model prices ∧ line_of rows line
          ∧ ∀ line', line' ∈ StatementDraft.lines draft → line_key line' = key_at model prices → line' = line)
       ∨ ∃ group, usage_group rows (key_at model prices) = Ok group ∧ line_for group = Err CostOverflow).
Proof.
  intros bounds rows.
  destruct (commits_ok xs acks Hids Hxs d d') as [[[_ Hb Hpr] Hrows] _]; [by apply ledger_ok_start | done |].
  pose proof (Hrows x _ r Hx Hgate Hr) as Hof. pose proof (row_of_request_key _ _ _ _ _ Hof) as Hkey.
  destruct (Hxs x Hx) as (Hnow & _). split_and!.
  - unfold rows, period_rows, bounds. rewrite list_elem_of_filter.
    rewrite (period_rows_are_the_days r (Proxy.now (env x)) day (Generator.timezone g) _
      (proj1 Hof) Hnow Hday Htz Hopens Hcloses).
    assert (Row.consumer_id r = ConsumerContext.consumer_id (consumer x)) as -> by apply Hof.
    split; [tauto |]. intros Hc. split; [done |]. apply list_elem_of_fmap.
    exists (request_id (env x), r). by rewrite elem_of_map_to_list.
  - intros Hfl. apply blank_not_billable. by apply (Hb _ r Hr).
  - intros Hin Hbill.
    destruct (lines_exact g _ partner day cutoff draft Hdraft) as (Hl & Hnd & Hall); [by apply period_rows_Forall |].
    rewrite <- Hkey. destruct (Hall r Hin Hbill) as [(line & Hline & Ek)|Hover]; [left | by right].
    exists line. split_and!; [done | done | by apply (proj1 (Forall_forall _ _) Hl) |].
    intros line' Hline' Ek'. apply (line_key_unique (StatementDraft.lines draft)); [done | done | done | congruence].
Qed.
End Billed.

(** ** A request, its commit and its day's statement *)
Definition answer_body_2 : list ascii :=
  text (write_json (JObject [("id", JString "r1");
    ("usage", JObject [("input_tokens", JNumber 100); ("output_tokens", JNumber 20);
                       ("input_tokens_details", JObject [("cached_tokens", JNumber 40)])])]%string)).
Definition exchange_2 : Exchange :=
  mkExchange (env_with (Answered 200 answer_headers_1 (mkIncoming [FrameData answer_body_2] false)))
    caller_1 "POST" "/v1/responses" headers_1 request_body_1 [StreamMeter.Drop 400].
Definition accepted_2 : RequestRecord.t := accepted exchange_2 gate_1.
Definition completed_2 : RequestRecord.t :=
  completed_record (env exchange_2) accepted_2 200 (Usage.new (Some 100) (Some 20) (Some 40)).
Definition completed_bound_2 : Bound := mkBound (Some 100) (Some 20) (Some 40) None.
Definition billed_row : Row.t := inserted_row completed_2 completed_bound_2 (Some "i-1"%string).
Definition settled_2 : Ledger :=
  mkLedger (<["req-9"%string := billed_row]> ∅)
    (Contribution.add (Contribution.terminal completed_2 (BucketKey.from_record completed_2)) ∅).
Definition life_billed : Database := with_tables life_1 settled_2.

Lemma exchange_2_clock : exchange_clock exchange_2.
Proof. split; [| constructor; [| constructor]]; unfold clock, event_clock; cbn; unfold clock; ranges; lia. Qed.

Lemma exchange_2_gate : exchange_gate exchange_2 = Some gate_1.
Proof. by vm_compute. Qed.

Lemma exchange_2_closed : ¬ open_ended exchange_2.
Proof. intros [(s & h & b & E & Hb)|E]; [injection E as _ _ <-; done | done]. Qed.

Definition batch_2 : list PendingWrite.t :=
  [PendingWrite.mk WriteOp.Accept (Some accepted_2) 7; PendingWrite.mk WriteOp.Finalize (Some completed_2) 7].

Lemma batch_2_writes : writes 7 exchange_2 = batch_2.
Proof.
  apply finalized_writes; [exact exchange_2_clock | exact exchange_2_gate | reflexivity | exact exchange_2_closed |].
  by vm_compute.
Qed.

Lemma batch_2_queued : queued [exchange_2] (λ _, 7%nat) batch_2.
Proof.
  intros p Hp. right. apply list_elem_of_bind. exists exchange_2. rewrite batch_2_writes.
  split; [exact Hp | by apply list_elem_of_singleton].
Qed.

Lemma settled_2_final : finalize_record ledger_0 completed_2 (Some "i-1"%string) = Ok settled_2.
Proof.
  apply finalize_record_Ok. exists completed_bound_2. split; [reflexivity |].
  unfold final_row, ledger_0. cbn [usage_records usage_hourly settled_2].
  change (RequestRecord.request_id completed_2) with "req-9"%string. rewrite lookup_empty. split_and!; reflexivity.
Qed.

(** The accept is collapsed into the finalize of the same batch. *)
Lemma batch_2_prefixes k :
  write_all (finalized_ids batch_2) (Some "i-1"%string) (take k batch_2) ledger_0 0
    = match k with O | 1%nat => Ok (ledger_0, 0) | _ => Ok (settled_2, 1) end.
Proof.
  assert (write_one (finalized_ids batch_2) (Some "i-1"%string) (PendingWrite.mk WriteOp.Accept (Some accepted_2) 7) ledger_0 = Ok (ledger_0, 0)) as Ha.
  { unfold write_one. cbn [PendingWrite.record PendingWrite.op]. rewrite decide_True; [done |].
    apply finalized_ids_spec. exists (PendingWrite.mk WriteOp.Finalize (Some completed_2) 7), completed_2.
    split; [right; by left | done]. }
  assert (write_one (finalized_ids batch_2) (Some "i-1"%string) (PendingWrite.mk WriteOp.Finalize (Some completed_2) 7) ledger_0 = Ok (settled_2, 1)) as Hf.
  { unfold write_one. cbn [PendingWrite.record PendingWrite.op]. by rewrite settled_2_final. }
  destruct k as [|[|k]]; [done | |]; unfold batch_2 at 2; rewrite ?firstn_cons, ?take_nil, ?take_0; cbn [write_all];
    rewrite Ha; [done |]. cbn [write_all]. by rewrite Hf.
Qed.

Lemma settled_2_fits : fits (usage_records settled_2).
Proof. apply fits_singleton; intros []; vm_compute; congruence. Qed.

Lemma batch_2_fits : batch_fits (Some "i-1"%string) batch_2 (tables life_1).
Proof.
  intros k t n E. pose proof (eq_trans (eq_sym (batch_2_prefixes k)) E) as Ek.
  destruct k as [|[|k]]; injection Ek as <- _; [apply consistent_empty | apply consistent_empty | exact settled_2_fits].
Qed.

Lemma billed_commits : rtc (commit [exchange_2] (λ _, 7%nat)) life_0 life_billed.
Proof.
  eapply rtc_l; [apply (commit_register _ _ life_0 "i-1") |].
  eapply rtc_l; [apply (commit_batch _ _ life_1 "i-1" commits_at 0 batch_2); [exact batch_2_queued | exact batch_2_fits] |].
  assert (with_tables life_1 (fl_ledger (flush_with_retry commits_at (tables life_1) batch_2 0 (Some "i-1"%string))) = life_billed) as -> by reflexivity.
  apply rtc_refl.
Qed.

Lemma exchange_2_ok x : x ∈ [exchange_2] → exchange_ok x.
Proof.
  intros ->%list_elem_of_singleton. split; [exact ledger_instant_t1 |]. split; [exact exchange_2_clock |].
  intros e m p E. rewrite exchange_2_gate in E. injection E as _ _ <-. exact gate_1_priced.
Qed.

Lemma exchange_2_alone x y : x ∈ [exchange_2] → y ∈ [exchange_2] → request_id (env x) = request_id (env y) → x = y.
Proof. intros ->%list_elem_of_singleton ->%list_elem_of_singleton. done. Qed.

Lemma life_0_sound : ledger_sound (tables life_0).
Proof. split; [apply consistent_empty | apply map_Forall_empty | apply map_Forall_empty]. Qed.

Definition billed_draft : StatementDraft.t :=
  unwrap_or (Generator.statement_for_day generator_1 (usage_records (tables life_billed)) acme day_2026_09_24 cutoff_1) empty_draft.

Lemma billed_draft_Ok :
  Generator.statement_for_day generator_1 (usage_records (tables life_billed)) acme day_2026_09_24 cutoff_1 = Ok billed_draft.
Proof. apply is_ok_unwrap_or. vm_compute. reflexivity. Qed.

Lemma request_is_billed_as_accepted_witness :
  row_billable billed_row = true
  ∧ ∃ line, StatementDraft.lines billed_draft = [line] ∧ line_key line = key_at "gpt-4o" prices_1
      ∧ StatementLineDraft.input_tokens line = 100 ∧ StatementLineDraft.cached_input_tokens line = 40.
Proof.
  split; [by vm_compute |].
  destruct (request_is_billed_as_accepted [exchange_2] (λ _, 7%nat) life_0 life_billed exchange_2 Endpoint.Responses
    "gpt-4o" prices_1 billed_row generator_1 acme day_2026_09_24 cutoff_1 billed_draft exchange_2_alone exchange_2_ok
    life_0_sound (λ x _, lookup_empty _) billed_commits ltac:(by apply list_elem_of_singleton) exchange_2_gate
    (lookup_insert_eq _ _ _) ltac:(concrete) eq_refl ltac:(concrete) ltac:(concrete) billed_draft_Ok) as (Hin & _ & Hline).
  destruct (Hline (proj2 Hin (conj eq_refl eq_refl)) ltac:(by vm_compute)) as [(line & Hl & Hk & _ & _)|(group & Hg & Ho)].
  - assert (length (StatementDraft.lines billed_draft) = 1%nat) as Hlen by (by vm_compute).
    assert (Forall (λ l, StatementLineDraft.input_tokens l = 100 ∧ StatementLineDraft.cached_input_tokens l = 40)
      (StatementDraft.lines billed_draft)) as Hall by (vm_compute; repeat constructor).
    destruct (StatementDraft.lines billed_draft) as [|line' [|? ?]]; [discriminate | | discriminate].
    apply list_elem_of_singleton in Hl as ->. apply Forall_singleton in Hall as [E1 E2].
    exists line'. split; [reflexivity |]. split; [exact Hk |]. split; [exact E1 | exact E2].
  - exfalso. assert (match usage_group (period_rows (usage_records (tables life_billed)) (Partner.consumer_id acme)
        (BillingPeriod.to_bounds (BillingPeriod.for_day day_2026_09_24 (Generator.timezone generator_1))).1
        (BillingPeriod.to_bounds (BillingPeriod.for_day day_2026_09_24 (Generator.timezone generator_1))).2) (key_at "gpt-4o" prices_1) with
      | Ok group => is_ok (line_for group) | Err _ => false end = true) as E by (by vm_compute).
    rewrite Hg in E. rewrite Ho in E. discriminate E.
Defined.
