(* ===== verification/Background.v ===== *)
(** * The background tasks ([src/src/main.rs], [src/src/billing/worker.rs])

    The retention and billing timers, the recovery sweeper and the one-off
    consistency audit that run beside the server for the life of the process, with how long a
    stranded request can stay in flight under the sweeper. A pass runs to its end
    before the next sleep begins; a pass that fails or panics is only logged. *)

From stdpp Require Import base strings list gmap numbers.
From Stdlib Require Import ZArith Lia.
From S2P Require Import Prelude TimeLib Calendar Timefmt Period LedgerTypes Sql Rollup Config Retention BillingStore PartnerStore Smtp Worker Mailer Writer Recovery Registry Agreement.

Local Open Scope Z_scope.

(** ** The timers *)

(** How the blocking task of a pass ends: it has run, or it has panicked. *)
Inductive Join (A : Type) : Type := Joined (a : A) | Panicked.
Arguments Joined {_} _.
Arguments Panicked {_}.

Section Timer.
Context `{TimeCrate} {I S L : Type}.

(** One turn: what surrounds the pass, what a panic of it leaves when it has
    one, how long it takes; then the sleep, how much longer than asked it is,
    and whether the stop signal ends it. *)
Record Turn : Type := mkTurn {
  around : I;
  panics : option S;
  passed : Z;
  stopped : bool;
  overslept : Z }.

Variable interval : Z.
(** [None] is a pass that never ends. *)
Variable pass : I → OffsetDateTime → S → option (S * L).
Variable panicked : L.

Definition turn_pass (turn : Turn) (now : OffsetDateTime) (s : S) : option (S * L) :=
  match panics turn with Some s' => Some (s', panicked) | None => pass (around turn) now s end.

(** [loop { run; select! { stop => break, sleep => {} } }]: the passes as they
    start, the state they leave, whether the task has returned by the end of
    the turns. *)
Fixpoint timer (turns : list Turn) (now : OffsetDateTime) (s : S) : list (OffsetDateTime * L) * S * bool :=
  match turns with
  | [] => ([], s, false)
  | turn :: turns' =>
      match turn_pass turn now s with
      | None => ([], s, false)
      | Some (s', log) =>
          if stopped turn then ([(now, log)], s', true)
          else
            let '(passes, s'', ended) :=
              timer turns' (odt_add (odt_add now (passed turn)) (interval + overslept turn)) s' in
            ((now, log) :: passes, s'', ended)
      end
  end.

(** A pass that fails or panics ends nothing: as long as the passes end, there is
    one for every turn up to the one the stop signal ends, and the task returns
    by that signal alone. *)
Theorem timer_runs_until_stopped (turns : list Turn) (now : OffsetDateTime) (s : S)
    (Hends : ∀ turn now s, turn ∈ turns → is_Some (pass (around turn) now s)) :
  let '(passes, _, ended) := timer turns now s in
  ended = existsb stopped turns
  ∧ ∀ k, is_Some (passes !! k) ↔ is_Some (turns !! k) ∧ Forall (λ turn, stopped turn = false) (take k turns).
Proof.
  revert now s. induction turns as [|turn turns IH]; intros now s; cbn [timer].
  - split; [done |]. intros k. rewrite lookup_nil. split; [intros [? E]; discriminate | intros [[? E] _]; discriminate].
  - assert (is_Some (turn_pass turn now s)) as [[s' log] ->].
    { unfold turn_pass. destruct (panics turn); [by eexists |]. apply Hends. by left. }
    destruct (stopped turn) eqn:Es.
    + split; [cbn; by rewrite Es |]. intros [|k]; cbn [lookup list_lookup take].
      * split; [intros _; split; [by eexists | by constructor] | intros _; by eexists].
      * split; [intros [? E]; discriminate | intros [_ Ht]; inversion Ht; congruence].
    + specialize (IH ltac:(intros; apply Hends; by right)
        (odt_add (odt_add now (passed turn)) (interval + overslept turn)) s').
      destruct (timer turns _ s') as [[passes s''] ended]. destruct IH as [-> IH].
      split; [cbn; by rewrite Es |]. intros [|k]; cbn [lookup list_lookup take].
      * split; [intros _; split; [by eexists | by constructor] | intros _; by eexists].
      * destruct (IH k) as [IH1 IH2]. split.
        { intros [E F]%IH1. split; [exact E | by constructor]. }
        { intros [E F]. apply IH2. split; [exact E | by inversion F]. }
Qed.
End Timer.
Arguments Turn : clear implicits.

(** ** Retention *)
Section RetentionTask.
Context `{TimeCrate}.

Inductive RetentionLog : Type :=
  | Report (line : SweepReport)
  | NothingToDelete
  | RetentionFailed (e : SqlError)
  | RetentionPanicked.

Definition retention_log (run : Join (result RetentionStats.t SqlError)) : RetentionLog :=
  match run with
  | Joined (Ok stats) =>
      if (0 <? RetentionStats.total_deleted stats) || RetentionStats.hit_budget stats then Report (report stats) else NothingToDelete
  | Joined (Err e) => RetentionFailed e
  | Panicked => RetentionPanicked
  end.

(** In nanoseconds. *)
Definition retention_interval (db : DatabaseConfig.t) : Z :=
  Z.max (DatabaseConfig.retention_interval_secs db) 60 * NS_PER_SEC.

Definition retention_pass (db : DatabaseConfig.t) (page_size : Z) (w : Retention.World) (now : OffsetDateTime)
    (t : Retention.Tables) : option (Retention.Tables * RetentionLog) :=
  let '(t', r) := run_retention w now page_size (DatabaseConfig.retention_days db)
                    (DatabaseConfig.retention_batch_size db) DEFAULT_MAX_BATCHES t in
  Some (t', retention_log (Joined r)).

Definition spawn_retention (db : DatabaseConfig.t) (page_size : Z) (turns : list (Turn Retention.World Retention.Tables))
    (now : OffsetDateTime) (t : Retention.Tables) : list (OffsetDateTime * RetentionLog) * Retention.Tables * bool :=
  timer (retention_interval db) (retention_pass db page_size) (retention_log Panicked) turns now t.
End RetentionTask.

(** ** The billing schedule ([src/src/billing/worker.rs]) *)
Section BillingTask.
Context `{TimeCrate, Tls}.

(** What a tick meets: the relay, the usage rows each day of the walk sees, and
    the clock readings of its writes. *)
Record BillingInput : Type := mkBillingInput {
  mail : Mail;
  records_seen : string → BillingDay.t → Records;
  close_clock : string → BillingDay.t → string;
  mail_clock : Z → string;
  status_clock : string → string }.

Inductive BillingLog : Type := BillingTick (tick : Tick.t) (transitions : list (string * bool)) | NothingToDo (transitions : list (string * bool)) | BillingPanicked.

Definition billing_pass (input : BillingInput) (now : OffsetDateTime) (s : StoreDb * BillingWorker.t)
    : option ((StoreDb * BillingWorker.t) * BillingLog) :=
  match run_once (mail input) s.2 (records_seen input) now (close_clock input) (mail_clock input) (status_clock input) s.1 with
  | None => None
  | Some (db, tick, worker, transitions) =>
      Some ((db, worker), if Tick.did_anything tick then BillingTick tick transitions else NothingToDo transitions)
  end.

(** [Worker::spawn]; the clones of the worker share its observations. *)
Definition spawn (worker : BillingWorker.t) (turns : list (Turn BillingInput (StoreDb * BillingWorker.t)))
    (now : OffsetDateTime) (db : StoreDb) : list (OffsetDateTime * BillingLog) * (StoreDb * BillingWorker.t) * bool :=
  timer (BillingWorker.interval worker * NS_PER_SEC) billing_pass BillingPanicked turns now (db, worker).
End BillingTask.

(** ** The recovery sweeper *)
Section Sweeper.
Context `{TimeCrate}.

Inductive SweepLog : Type :=
  | Resolved (recovered instances_swept : Z)
  | NothingStranded
  | SweepFailed (e : SqlError)
  | SweepPanicked.

Definition sweep_log (report : RecoveryReport.t) : SweepLog :=
  if (0 <? RecoveryReport.recovered report) || (0 <? RecoveryReport.instances_swept report)
  then Resolved (RecoveryReport.recovered report) (RecoveryReport.instances_swept report)
  else NothingStranded.

Definition sweep_interval : Z := DEFAULT_UNKNOWN_OWNER_GRACE * NS_PER_SEC.

(** An error of the pass's transaction, which is then rolled back, or a panic
    before or after its commit. *)
Inductive Trouble : Type := TxError (e : SqlError) | Panic (committed : bool).

(** One turn: the stop signal during the sleep or how much longer the sleep is,
    what others commit before the pass, the lock files it probes, what goes
    wrong, and how long it takes. *)
Record SweepTurn : Type := mkSweepTurn {
  sweep_stopped : bool;
  late : Z;
  others : Database → Database;
  locks : string → LockFile;
  trouble : option Trouble;
  ran_for : Z }.

Definition sweep_pass (i : string) (turn : SweepTurn) (now : OffsetDateTime) (d : Database) : Database * SweepLog :=
  match trouble turn with
  | Some (TxError e) => (d, SweepFailed e)
  | Some (Panic committed) => (if committed then (recover_in_flight (new_context i (locks turn) now) d).1 else d, SweepPanicked)
  | None => let '(d', report) := recover_in_flight (new_context i (locks turn) now) d in (d', sweep_log report)
  end.

Fixpoint spawn_recovery_sweeper (i : string) (turns : list SweepTurn) (now : OffsetDateTime) (d : Database)
    : list (OffsetDateTime * SweepLog) * Database * bool :=
  match turns with
  | [] => ([], d, false)
  | turn :: turns' =>
      let d1 := others turn d in
      if sweep_stopped turn then ([], d1, true)
      else
        let at_ := odt_add now (sweep_interval + late turn) in
        let '(d2, log) := sweep_pass i turn at_ d1 in
        let '(passes, d3, ended) := spawn_recovery_sweeper i turns' (odt_add at_ (ran_for turn)) d2 in
        ((at_, log) :: passes, d3, ended)
  end.
End Sweeper.

(** ** The audit *)

(** [None]: no connection for the audit could be opened. *)
Definition spawn_consistency_audit (reader : result Ledger SqlError) : result Audit SqlError :=
  match reader with
  | Err e => Err e
  | Ok db => Ok (audit_consistency (usage_records db) (usage_hourly db))
  end.

(** ** How long a request stays stranded *)
Section Stranded.
Context `{TimeCrate, !TimeLaws}.

Abbreviation nanos := unix_timestamp_nanos.

(** A turn in which nothing goes wrong, and others only write as the ledger
    lets them. *)
Record quiet_turn (most_late most_ran : Z) (turn : SweepTurn) : Prop := {
  qt_on : sweep_stopped turn = false;
  qt_fine : trouble turn = None;
  qt_late : 0 ≤ late turn ≤ most_late;
  qt_ran : 0 ≤ ran_for turn ≤ most_ran;
  qt_others d : progresses (tables d) (tables (others turn d)) }.

(** Nobody can say that the owner of the row lives. *)
Definition unclaimed (i : string) (turn : SweepTurn) (r : Row.t) : Prop :=
  ∀ o, Row.instance_id r = Some o → o ≠ i ∧ probe (locks turn o) ≠ Liveness.Alive.

(** The row as it was, or finished. *)
Definition same_or_done (d : Database) (id : string) (r : Row.t) : Prop :=
  ∃ r', usage_records (tables d) !! id = Some r' ∧ (r' = r ∨ in_flight r' = false).

Lemma same_or_done_step d d' id r :
  same_or_done d id r → progresses (tables d) (tables d') → same_or_done d' id r.
Proof.
  intros (r1 & E1 & Hr1) Hp. destruct (Hp id r1 E1) as (r2 & E2 & [->|Hr2]); exists r2 + exists r1; eauto.
Qed.

Lemma sweep_pass_progresses i turn now d : progresses (tables d) (tables (sweep_pass i turn now d).1).
Proof.
  unfold sweep_pass. destruct (trouble turn) as [[e|[]]|]; [done | apply recover_progresses | done |].
  pose proof (recover_progresses (new_context i (locks turn) now) d) as Hp.
  by destruct (recover_in_flight _ d) as [d' report].
Qed.

(** A pass late enough resolves the row. *)
Lemma late_pass_resolves i turn now d id r c last :
  trouble turn = None → same_or_done d id r → in_flight r = true → unclaimed i turn r →
  Row.created_at r = format_ts c → ledger_instant c → ledger_instant last →
  nanos c + sweep_interval < nanos now ≤ nanos last →
  ∃ r', usage_records (tables (sweep_pass i turn now d).1) !! id = Some r' ∧ in_flight r' = false.
Proof.
  intros Hf (r0 & E0 & Hr0) Hfl Hun Hc Lc Ll Hnow. unfold sweep_pass. rewrite Hf.
  destruct Hr0 as [->|Hdone].
  2:{ pose proof (recover_resolves (new_context i (locks turn) now) d id r0 E0) as E.
      destruct (recover_in_flight _ d) as [d' report]. cbn [fst] in *. rewrite Hdone in E. by exists r0. }
  pose proof (recover_resolves (new_context i (locks turn) now) d id r E0) as E.
  destruct (recover_in_flight _ d) as [d' report]. cbn [fst] in *.
  assert (str_ltb (Row.created_at r) (old_before (new_context i (locks turn) now)) = true) as Hold.
  { unfold old_before. cbn [new_context Recovery.now unknown_owner_grace]. fold sweep_interval.
    assert (nanos (odt_add now (- sweep_interval)) = nanos now + - sweep_interval) as En.
    { apply (odt_add_between c _ _ last); [done | done |]. assert (0 ≤ sweep_interval) by (by vm_compute). lia. }
    assert (ledger_instant (odt_add now (- sweep_interval))) as Ln.
    { apply (ledger_instant_between c _ last); [done | done |]. assert (0 ≤ sweep_interval) by (by vm_compute). lia. }
    rewrite Hc. apply format_ts_lt; [done | done |]. lia. }
  assert (verdict (new_context i (locks turn) now) r = true) as Hv.
  { unfold verdict. cbn [new_context ctx_instance_id lock_file]. fold (new_context i (locks turn) now).
    destruct (Row.instance_id r) as [o|] eqn:Eo; [| done]. destruct (Hun o Eo) as [Hne Hal].
    rewrite decide_False by done. by destruct (probe _). }
  rewrite Hfl, Hv in E. by exists (interrupt_row r).
Qed.

(** What the sweeper's turns have in common. *)
Context (i id : string) (r : Row.t) (c start limit : OffsetDateTime) (most_late most_ran : Z).
Context (Hlate : 0 ≤ most_late) (Hran : 0 ≤ most_ran).
Context (Hflight : in_flight r = true) (Hcreated : Row.created_at r = format_ts c).
Context (Lc : ledger_instant c) (Ls : ledger_instant start) (Ll : ledger_instant limit).

Definition harmless (turn : SweepTurn) : Prop := quiet_turn most_late most_ran turn ∧ unclaimed i turn r.

(** The row is finished by a pass that starts at [limit] at the latest, the last
    of the first [S k]. *)
Definition finished_by (turns : list SweepTurn) (now : OffsetDateTime) (d : Database) (k : nat) : Prop :=
  ∃ passes t log d', spawn_recovery_sweeper i (take (S k) turns) now d = (passes, d', false)
    ∧ passes !! k = Some (t, log) ∧ nanos t ≤ nanos limit
    ∧ ∃ r', usage_records (tables d') !! id = Some r' ∧ in_flight r' = false.

Lemma sweeper_resolves turns now d base :
  Forall harmless turns → same_or_done d id r →
  nanos start ≤ nanos now → base ≤ nanos now → base ≤ nanos c + sweep_interval →
  nanos c + sweep_interval < base + Z.of_nat (length turns) * sweep_interval →
  nanos now + sweep_interval + most_late ≤ nanos limit →
  nanos c + sweep_interval + most_ran + sweep_interval + most_late ≤ nanos limit →
  ∃ k, finished_by turns now d k.
Proof.
  assert (0 < sweep_interval) as Hint by (by vm_compute).
  intros Ht. revert now d base. induction Ht as [|turn turns [[Hon Hfine Hl Hr Hoth] Hun] _ IH];
    intros now d base Hd Hs Hbn Hbc Hlen Hn Hlim; cbn [length] in Hlen; [lia |].
  pose proof (same_or_done_step _ _ _ _ Hd (Hoth d)) as Hd1.
  set (t := odt_add now (sweep_interval + late turn)).
  assert (nanos t = nanos now + (sweep_interval + late turn)) as Et
    by (apply (odt_add_between start _ _ limit); [done | done | lia]).
  destruct (sweep_pass i turn t (others turn d)) as [d2 log] eqn:Ep.
  destruct (decide (nanos c + sweep_interval < nanos t)) as [Hlt|Hge].
  - exists 0%nat, [(t, log)], t, log, d2. split_and!; [| done | lia |].
    + cbn [take spawn_recovery_sweeper]. rewrite Hon. fold t. rewrite Ep, take_0. done.
    + change d2 with (d2, log).1. rewrite <- Ep. by apply (late_pass_resolves i turn t _ id r c limit); [.. | lia].
  - assert (nanos (odt_add t (ran_for turn)) = nanos t + ran_for turn) as Er
      by (apply (odt_add_between start _ _ limit); [done | done | lia]).
    destruct (IH (odt_add t (ran_for turn)) d2 (nanos t)) as (k & passes & t' & log' & d' & E & El & Hle & Hrow);
      [| lia | lia | lia | lia | lia | lia |].
    + eapply same_or_done_step; [done |]. change d2 with (d2, log).1. rewrite <- Ep. apply sweep_pass_progresses.
    + exists (S k), ((t, log) :: passes), t', log', d'. split_and!; [| | done | done].
      * change (take (S (S k)) (turn :: turns)) with (turn :: take (S k) turns).
        cbn [spawn_recovery_sweeper]. rewrite Hon. fold t. by rewrite Ep, E.
      * done.
Qed.

(** No request stays stranded. An in-flight row that nobody can be shown to own,
    of whatever age when the sweeper starts, is finished by a pass that starts
    at most one interval after the row's grace period or the sweeper's start,
    whichever is later, plus what a pass took and a sleep overslept: for a row
    accepted while the sweeper runs, within two grace periods. *)
Theorem stranded_request_is_resolved (turns : list SweepTurn) (d : Database)
    (Hrow : usage_records (tables d) !! id = Some r) (Hturns : Forall harmless turns) (Hsome : turns ≠ [])
    (Henough : nanos c + sweep_interval < nanos start + Z.of_nat (length turns) * sweep_interval)
    (Hlimit : Z.max (nanos start) (nanos c + sweep_interval + most_ran) + sweep_interval + most_late ≤ nanos limit) :
  ∃ k, finished_by turns start d k.
Proof.
  assert (0 < sweep_interval) as Hint by (by vm_compute).
  assert (1 ≤ Z.of_nat (length turns)) by (destruct turns; [done | cbn [length]; lia]).
  apply (sweeper_resolves turns start d (Z.min (nanos start) (nanos c + sweep_interval))); [done | | lia | lia | lia | | lia | lia].
  - exists r. split; [done | by left].
  - destruct (Z.min_spec (nanos start) (nanos c + sweep_interval)) as [[? ->]|[? ->]]; nia.
Qed.
End Stranded.

(** ** A request whose owner cannot be probed *)
Definition unprobeable_turn : SweepTurn := mkSweepTurn false 0 (λ d, d) (λ _, OpenFailed) None 0.
Definition two_turns : list SweepTurn := [unprobeable_turn; unprobeable_turn].
Definition a_minute_on : OffsetDateTime := odt_add t1 (60 * NS_PER_SEC).

Lemma two_turns_harmless : Forall (harmless "i-2" stranded_row 0 0) two_turns.
Proof.
  assert (harmless "i-2" stranded_row 0 0 unprobeable_turn) as Hh.
  { split; [split; [reflexivity | reflexivity | cbn; lia | cbn; lia | intros d; reflexivity] |].
    intros o [= <-]. split; discriminate. }
  constructor; [exact Hh |]. constructor; [exact Hh | constructor].
Qed.

Lemma stranded_request_is_resolved_witness :
  unix_timestamp_nanos a_minute_on = unix_timestamp_nanos t1 + 2 * sweep_interval
  ∧ ∃ k, finished_by "i-2" "req-1" a_minute_on two_turns t1 stranded_db k.
Proof.
  split; [by vm_compute |].
  apply (stranded_request_is_resolved "i-2" "req-1" stranded_row t1 t1 a_minute_on 0 0);
    first [exact two_turns_harmless | exact ledger_instant_t1 | exact stranded_db_row | discriminate | concrete].
Defined.

(** Under the grace period the same sweeper leaves it. *)
Example first_pass_leaves_it :
  ((λ p : OffsetDateTime * SweepLog, p.2) <$> (spawn_recovery_sweeper "i-2" two_turns t1 stranded_db).1.1)
    = [NothingStranded; Resolved 1 0].
Proof. vm_compute. reflexivity. Qed.
