(* ===== verification/Events.v ===== *)
(** * Telling dashboards that something changed ([src/src/dashboard/sse.rs])

    A poller compares SQLite's [data_version] with the one it saw last and
    notifies the open event streams; an event says that something changed and
    nothing else. Commits, polls, streams and shutdown interleave as the steps of
    [step]. *)

From stdpp Require Import base strings list gmap numbers relations.
From Stdlib Require Import ZArith Lia.
From S2P Require Import Prelude Utf8 Sql.

Local Open Scope Z_scope.

(** ** The libraries *)

(** [PRAGMA data_version] on a connection that never writes: the value it reads
    after so many commits of others. Two reads differ when someone committed
    between them; the value is an unsigned counter. *)
Class DataVersion : Type := data_version : nat → Z.
Class DataVersionLaws `{DataVersion} : Prop := {
  data_version_differs a b : a ≠ b → data_version a ≠ data_version b;
  data_version_pos a : 0 ≤ data_version a }.

(** [tokio::sync::broadcast] of unit values and [tokio::sync::watch] of a flag.
    [recv] and [changed] are one attempt: what they find now. *)
Inductive Received (Receiver : Type) : Type :=
  | Value (rx : Receiver)
  | Lagged (n : nat) (rx : Receiver)
  | Closed
  | Empty.
Arguments Value {_}. Arguments Lagged {_}. Arguments Closed {_}. Arguments Empty {_}.

Class Channels : Type := {
  Sender : Type;
  Receiver : Type;
  channel : nat → Sender;
  send : Sender → Sender;
  subscribe : Sender → Sender * Receiver;
  recv : Sender → Receiver → Received Receiver;
  WatchSender : Type;
  WatchReceiver : Type;
  watch_channel : WatchSender;
  watch_send : WatchSender → WatchSender;
  watch_subscribe : WatchSender → WatchSender * WatchReceiver;
  changed : WatchSender → WatchReceiver → bool }.

(** A receiver is given every value sent after it subscribed, or told how many
    it lost; a channel is closed when its last sender is gone. A watch receiver
    has seen the value that was there when it subscribed, and not a later one. *)
Class ChannelLaws `{Channels} : Type := {
  subscribed : Sender → Receiver → Prop;
  unread : Sender → Receiver → nat;
  subscribe_new tx : subscribed (subscribe tx).1 (subscribe tx).2 ∧ unread (subscribe tx).1 (subscribe tx).2 = 0%nat;
  subscribe_others tx rx : subscribed tx rx → subscribed (subscribe tx).1 rx ∧ unread (subscribe tx).1 rx = unread tx rx;
  send_others tx rx : subscribed tx rx → subscribed (send tx) rx ∧ unread (send tx) rx = S (unread tx rx);
  recv_cases tx rx : subscribed tx rx →
    match recv tx rx with
    | Value rx' => subscribed tx rx' ∧ unread tx rx = S (unread tx rx')
    | Lagged n rx' => subscribed tx rx' ∧ (0 < n)%nat ∧ unread tx rx = (n + unread tx rx')%nat
    | Closed => False
    | Empty => unread tx rx = 0%nat
    end;
  watching : WatchSender → WatchReceiver → Prop;
  watch_new w : watching (watch_subscribe w).1 (watch_subscribe w).2 ∧ changed (watch_subscribe w).1 (watch_subscribe w).2 = false;
  watch_others w rx : watching w rx → watching (watch_subscribe w).1 rx ∧ changed (watch_subscribe w).1 rx = changed w rx;
  watch_changed w rx : watching w rx → watching (watch_send w) rx ∧ changed (watch_send w) rx = true }.

(** ** The source *)

Definition SSE_BUFFER : nat := 128.
Definition RETRY_HINT_MS : Z := 3000.

Inductive Event : Type := Connected | DataChanged | ServerShutdown.

(** The name, the reconnect delay and the data of an event. *)
Definition typed (name : string) : string := ("{" +:+ debug_str "type" +:+ ":" +:+ debug_str name +:+ "}")%string.
Definition event_fields (self : Event) : option string * option Z * string :=
  match self with
  | Connected => (Some "connected"%string, Some RETRY_HINT_MS, typed "connected")
  | DataChanged => (None, None, typed "data_changed")
  | ServerShutdown => (Some "server_shutdown"%string, Some RETRY_HINT_MS, typed "server_shutdown")
  end.

Definition get_data_version (read : result Z SqlError) : Z := match read with Ok v => v | Err _ => -1 end.

Module SseBroadcaster.
Section Source.
Context `{Channels}.

(** [last_version] is the local of the polling task, [None] until it first runs. *)
Record t : Type := mk {
  tx : Sender;
  poll_interval_ms : Z;
  shutdown_tx : WatchSender;
  last_version : option Z }.

(** [opened] is what opening the poll connection gives. *)
Definition new (opened : result unit SqlError) (poll_interval_ms : Z) : result t SqlError :=
  let? _ := opened in Ok (mk (channel SSE_BUFFER) (Z.max poll_interval_ms 1) watch_channel None).

Definition shutdown (self : t) : t := mk (tx self) (poll_interval_ms self) (watch_send (shutdown_tx self)) (last_version self).

(** One turn of the polling task; the first one only looks. *)
Definition poll (self : t) (read : result Z SqlError) : t :=
  let current := get_data_version read in
  match last_version self with
  | None => mk (tx self) (poll_interval_ms self) (shutdown_tx self) (Some current)
  | Some last =>
      if current =? last then self
      else mk (send (tx self)) (poll_interval_ms self) (shutdown_tx self) (Some current)
  end.
End Source.
Arguments t : clear implicits.
Arguments t {_}.
End SseBroadcaster.

(** ** A stream *)
Section Stream.
Context `{Channels}.

(** The generator of one response: before its first event, in its loop, or done. *)
Inductive Phase : Type := Opening | Looping | Ended.
Record Stream : Type := mkStream { rx : Receiver; shutdown_rx : WatchReceiver; phase : Phase }.

(** [sse_response]: what the handler does before the body is read. *)
Definition sse_response (self : SseBroadcaster.t) : SseBroadcaster.t * Stream :=
  let '(tx', rx) := subscribe (SseBroadcaster.tx self) in
  let '(shutdown', shutdown_rx) := watch_subscribe (SseBroadcaster.shutdown_tx self) in
  (SseBroadcaster.mk tx' (SseBroadcaster.poll_interval_ms self) shutdown' (SseBroadcaster.last_version self),
   mkStream rx shutdown_rx Opening).

(** What asking the body for its next event gives. *)
Inductive Turn : Type := Yields (event : Event) (s : Stream) | Waits | Finishes (s : Stream).

(** The two arms of the [select!], and the one it tries first. *)
Definition shutdown_arm (self : SseBroadcaster.t) (s : Stream) : Turn :=
  if changed (SseBroadcaster.shutdown_tx self) (shutdown_rx s)
  then Yields ServerShutdown (mkStream (rx s) (shutdown_rx s) Ended) else Waits.

Definition recv_arm (self : SseBroadcaster.t) (s : Stream) : Turn :=
  match recv (SseBroadcaster.tx self) (rx s) with
  | Value rx' => Yields DataChanged (mkStream rx' (shutdown_rx s) Looping)
  | Lagged _ rx' => Yields DataChanged (mkStream rx' (shutdown_rx s) Looping)
  | Closed => Finishes (mkStream (rx s) (shutdown_rx s) Ended)
  | Empty => Waits
  end.

Definition turn (shutdown_first : bool) (self : SseBroadcaster.t) (s : Stream) : Turn :=
  match phase s with
  | Opening => Yields Connected (mkStream (rx s) (shutdown_rx s) Looping)
  | Looping =>
      let '(first, second) := if shutdown_first then (shutdown_arm self s, recv_arm self s) else (recv_arm self s, shutdown_arm self s) in
      match first with Waits => second | _ => first end
  | Ended => Finishes s
  end.
End Stream.
Arguments Stream : clear implicits.
Arguments Stream {_}.
Arguments Turn : clear implicits.
Arguments Turn {_}.

(** ** Everything that happens *)
Section World.
Context `{DataVersion, Channels}.

(** The commits to the database so far, the broadcaster, and the streams, each
    with the number of commits there were when its last event was sent. *)
Record World : Type := mkWorld {
  commits : nat;
  broadcaster : SseBroadcaster.t;
  streams : gmap nat (Stream * nat) }.

Inductive step : World → World → Prop :=
  | step_commit w : step w (mkWorld (S (commits w)) (broadcaster w) (streams w))
  | step_poll w : step w (mkWorld (commits w) (SseBroadcaster.poll (broadcaster w) (Ok (data_version (commits w)))) (streams w))
  | step_poll_fails w e : step w (mkWorld (commits w) (SseBroadcaster.poll (broadcaster w) (Err e)) (streams w))
  | step_open w i : streams w !! i = None →
      step w (mkWorld (commits w) (sse_response (broadcaster w)).1 (<[i := ((sse_response (broadcaster w)).2, 0%nat)]> (streams w)))
  | step_event w i s n shutdown_first event s' :
      streams w !! i = Some (s, n) → turn shutdown_first (broadcaster w) s = Yields event s' →
      step w (mkWorld (commits w) (broadcaster w) (<[i := (s', commits w)]> (streams w)))
  | step_leave w i : step w (mkWorld (commits w) (broadcaster w) (delete i (streams w)))
  | step_shutdown w : step w (mkWorld (commits w) (SseBroadcaster.shutdown (broadcaster w)) (streams w)).
End World.

(** ** No change is missed *)
Section Missed.
Context `{DataVersionLaws, ChannelLaws}.
Implicit Types (self : SseBroadcaster.t) (s : Stream) (w : World).

Lemma poll_cases self read :
  let self' := SseBroadcaster.poll self read in
  SseBroadcaster.last_version self' = Some (get_data_version read)
  ∧ SseBroadcaster.shutdown_tx self' = SseBroadcaster.shutdown_tx self
  ∧ (SseBroadcaster.tx self' = send (SseBroadcaster.tx self)
     ∨ SseBroadcaster.tx self' = SseBroadcaster.tx self
       ∧ (SseBroadcaster.last_version self = None ∨ SseBroadcaster.last_version self = Some (get_data_version read))).
Proof.
  unfold SseBroadcaster.poll. destruct (SseBroadcaster.last_version self) as [v|] eqn:E; [| split_and!; auto].
  destruct (Z.eqb_spec (get_data_version read) v) as [Ev|]; [subst v | split_and!; auto]. rewrite E. split_and!; auto.
Qed.

(** The receivers of a stream are the broadcaster's. *)
Definition attached self s : Prop :=
  subscribed (SseBroadcaster.tx self) (rx s) ∧ watching (SseBroadcaster.shutdown_tx self) (shutdown_rx s).

Lemma attached_poll self read s : attached self s → attached (SseBroadcaster.poll self read) s.
Proof.
  intros [Ht Hw]. unfold attached. destruct (poll_cases self read) as (_ & -> & [->|[-> _]]); [| done].
  split; [by apply send_others | done].
Qed.

Lemma sse_response_attached self :
  attached (sse_response self).1 (sse_response self).2 ∧ phase (sse_response self).2 = Opening
  ∧ (∀ s, attached self s → attached (sse_response self).1 s)
  ∧ (∀ s, attached self s → unread (SseBroadcaster.tx (sse_response self).1) (rx s) = unread (SseBroadcaster.tx self) (rx s))
  ∧ (∀ s, attached self s →
       changed (SseBroadcaster.shutdown_tx (sse_response self).1) (shutdown_rx s) = changed (SseBroadcaster.shutdown_tx self) (shutdown_rx s))
  ∧ unread (SseBroadcaster.tx (sse_response self).1) (rx (sse_response self).2) = 0%nat
  ∧ changed (SseBroadcaster.shutdown_tx (sse_response self).1) (shutdown_rx (sse_response self).2) = false
  ∧ SseBroadcaster.last_version (sse_response self).1 = SseBroadcaster.last_version self.
Proof.
  unfold sse_response, attached. pose proof (subscribe_new (SseBroadcaster.tx self)) as [Hn1 Hn2].
  pose proof (subscribe_others (SseBroadcaster.tx self)) as Ho. pose proof (watch_new (SseBroadcaster.shutdown_tx self)) as [Hw1 Hw2].
  pose proof (watch_others (SseBroadcaster.shutdown_tx self)) as Hwo.
  destruct (subscribe _) as [tx' r]. destruct (watch_subscribe _) as [sh' sr]. cbn in *. split_and!; try done.
  - intros s [Ht Hw]. split; [by apply Ho | by apply Hwo].
  - intros s [Ht Hw]. by apply Ho.
  - intros s [Ht Hw]. by apply Hwo.
Qed.

(** What asking the body can give, by its phase. *)
Lemma turn_cases first self s :
  attached self s →
  match turn first self s with
  | Yields Connected s' => phase s = Opening ∧ s' = mkStream (rx s) (shutdown_rx s) Looping
  | Yields DataChanged s' => phase s = Looping ∧ phase s' = Looping ∧ shutdown_rx s' = shutdown_rx s ∧ attached self s'
      ∧ (unread (SseBroadcaster.tx self) (rx s') < unread (SseBroadcaster.tx self) (rx s))%nat
  | Yields ServerShutdown s' => phase s = Looping ∧ phase s' = Ended ∧ attached self s'
      ∧ changed (SseBroadcaster.shutdown_tx self) (shutdown_rx s) = true
  | Waits => phase s = Looping ∧ unread (SseBroadcaster.tx self) (rx s) = 0%nat
      ∧ changed (SseBroadcaster.shutdown_tx self) (shutdown_rx s) = false
  | Finishes s' => phase s = Ended ∧ s' = s
  end.
Proof.
  intros [Ht Hw]. unfold turn, recv_arm, shutdown_arm, attached. pose proof (recv_cases (SseBroadcaster.tx self) (rx s) Ht) as Hr.
  destruct (phase s) eqn:Ep; [done | | done].
  destruct first, (changed (SseBroadcaster.shutdown_tx self) (shutdown_rx s)) eqn:Ec,
    (recv (SseBroadcaster.tx self) (rx s)) as [rx'|k rx'| |]; try done; cbn [phase shutdown_rx rx]; split_and!; try done; try lia; try apply Hr.
Qed.

Lemma turn_attached first self s event s' : attached self s → turn first self s = Yields event s' → attached self s'.
Proof.
  intros Ha E. pose proof (turn_cases first self s Ha) as Ht. rewrite E in Ht. destruct event; [| apply Ht | apply Ht].
  destruct Ht as [_ ->]. exact Ha.
Qed.

(** A stream in its loop has been told of everything, or will be. *)
Definition told (w : World) (s : Stream) (n : nat) : Prop :=
  n = commits w ∨ (0 < unread (SseBroadcaster.tx (broadcaster w)) (rx s))%nat
  ∨ SseBroadcaster.last_version (broadcaster w) ≠ Some (data_version (commits w)).

Definition all_attached (w : World) : Prop := ∀ i s n, streams w !! i = Some (s, n) → attached (broadcaster w) s.

Lemma step_attached w w' s : step w w' → attached (broadcaster w) s → attached (broadcaster w') s.
Proof.
  destruct 1 as [w|w|w e|w i Hi|w i s1 n first event s' Hi Ht|w i|w]; cbn; try done; intros Ha.
  - by apply attached_poll.
  - by apply attached_poll.
  - by apply (sse_response_attached (broadcaster w)).
  - destruct Ha as [Ht Hw]. split; [done | by apply watch_changed].
Qed.

Lemma step_all_attached w w' : all_attached w → step w w' → all_attached w'.
Proof.
  intros Hall Hstep i s n Hi. pose proof (step_attached w w') as Hmono.
  destruct Hstep as [w|w|w e|w j Hj|w j s1 n1 first event s' Hj Ht|w j|w]; cbn in *;
    try (apply Hmono; [by constructor | by eapply Hall]).
  - apply lookup_insert_Some in Hi as [[<- [= <- <-]]|[_ Hi]]; [apply (proj1 (sse_response_attached _)) | apply Hmono; [by constructor | by eapply Hall]].
  - apply lookup_insert_Some in Hi as [[<- [= <- <-]]|[_ Hi]]; [eapply turn_attached; [by eapply Hall | done] | by eapply Hall].
  - apply lookup_delete_Some in Hi as [_ Hi]. by eapply Hall.
Qed.

Record world_ok (w : World) : Prop := {
  wo_started : is_Some (SseBroadcaster.last_version (broadcaster w));
  wo_version v : SseBroadcaster.last_version (broadcaster w) = Some v → v = -1 ∨ ∃ m, (m ≤ commits w)%nat ∧ v = data_version m;
  wo_attached : all_attached w;
  wo_streams i s n : streams w !! i = Some (s, n) → phase s = Looping → told w s n }.

Lemma poll_ok w read :
  world_ok w → (read = Ok (data_version (commits w)) ∨ ∃ e, read = Err e) →
  world_ok (mkWorld (commits w) (SseBroadcaster.poll (broadcaster w) read) (streams w)).
Proof.
  intros [Hst Hv Ha Hs] Hread. destruct (poll_cases (broadcaster w) read) as (Hlast & _ & Htx). split; cbn.
  - by rewrite Hlast.
  - intros v. rewrite Hlast. intros [= <-]. destruct Hread as [->|[e ->]]; cbn; [right; by eexists | by left].
  - intros i s n Hi. apply attached_poll. by eapply Ha.
  - intros i s n Hi Hp. unfold told. cbn. rewrite Hlast. destruct (Ha i s n Hi) as [Hsub _].
    destruct Htx as [->|[-> Hlv]]; [right; left; destruct (send_others _ _ Hsub) as [_ ->]; lia |].
    destruct Hlv as [E|E]; [rewrite E in Hst; by destruct Hst |].
    pose proof (Hs i s n Hi Hp) as Ht. unfold told in Ht. by rewrite E in Ht.
Qed.

(** A new commit has a version nobody has seen. *)
Lemma version_is_new w : world_ok w → SseBroadcaster.last_version (broadcaster w) ≠ Some (data_version (S (commits w))).
Proof.
  intros Hok E. destruct (wo_version _ Hok _ E) as [Hneg|(m & Hm & Em)]; [pose proof (data_version_pos (S (commits w))); lia |].
  apply (data_version_differs (S (commits w)) m); [lia | done].
Qed.

Lemma step_ok w w' : world_ok w → step w w' → world_ok w'.
Proof.
  intros Hok Hstep. pose proof (step_all_attached w w' (wo_attached _ Hok) Hstep) as Hatt.
  destruct Hstep as [w|w|w e|w i Hi|w i s n first event s' Hi Ht|w i|w]; try (apply poll_ok; [done |]; eauto);
    pose proof Hok as [Hst Hv Ha Hs].
  - split; cbn; [done | | exact Hatt |].
    + intros v E. destruct (Hv v E) as [?|(m & ? & ?)]; [by left | right; exists m; split; [lia | done]].
    + intros i s n Hi Hp. right. right. exact (version_is_new w Hok).
  - destruct (sse_response_attached (broadcaster w)) as (_ & Hop & _ & Hun & _ & _ & _ & Hlv).
    split; cbn; [by rewrite Hlv | by rewrite Hlv | exact Hatt |].
    intros j s n [[<- [= <- <-]]|[_ Hj]]%lookup_insert_Some Hp; [by rewrite Hop in Hp |].
    pose proof (Hs j s n Hj Hp) as Ht. unfold told in *. cbn. rewrite Hlv, Hun by (by eapply Ha). done.
  - split; cbn; [done | done | exact Hatt |].
    intros j s1 n1 [[<- [= <- <-]]|[_ Hj]]%lookup_insert_Some Hp; [by left | by apply (Hs j)].
  - split; cbn; [done | done | exact Hatt |]. intros j s n [_ Hj]%lookup_delete_Some. by apply (Hs j).
  - split; cbn; [done | done | exact Hatt |]. intros j s n Hj Hp. by apply (Hs j).
Qed.

Lemma steps_ok w w' : world_ok w → rtc step w w' → world_ok w'.
Proof. intros Hok Hs. induction Hs as [w|w w1 w2 Hstep _ IH]; [done |]. apply IH. by eapply step_ok. Qed.

(** The poller has looked, and no stream is open yet. *)
Definition started (w : World) : Prop :=
  streams w = ∅ ∧ ∃ m, (m ≤ commits w)%nat ∧ SseBroadcaster.last_version (broadcaster w) = Some (data_version m).

Lemma started_ok w : started w → world_ok w.
Proof.
  intros (Hemp & m & Hm & Hv). split; [by rewrite Hv | | intros i s n; by rewrite Hemp, lookup_empty | intros i s n; by rewrite Hemp, lookup_empty].
  rewrite Hv. intros v [= <-]. right. by exists m.
Qed.

(** C24. No change is missed. Whatever interleaves once the poller has looked for the
    first time: commits, polls that fail, streams that come, lag and go. A
    stream in its loop that was last told before the latest commit is told by
    the next poll that succeeds: its body then has an event to give, and giving
    it makes it up to date. *)
Theorem no_change_is_missed (w w' : World) (i : nat) (s : Stream) (n : nat)
    (Hstart : started w) (Hsteps : rtc step w w') (Hi : streams w' !! i = Some (s, n)) (Hloop : phase s = Looping) :
  n = commits w'
  ∨ ∃ s', turn false (SseBroadcaster.poll (broadcaster w') (Ok (data_version (commits w')))) s = Yields DataChanged s'
      ∧ phase s' = Looping.
Proof.
  pose proof (steps_ok w w' (started_ok w Hstart) Hsteps) as Hok'. pose proof (poll_ok w' _ Hok' (or_introl eq_refl)) as [_ _ Ha Hs].
  specialize (Hs i s n Hi Hloop). destruct (poll_cases (broadcaster w') (Ok (data_version (commits w')))) as (Hlast & _ & _).
  unfold told in Hs. cbn in Hs. destruct Hs as [->|[Hun|Hne]]; [by left | | by rewrite Hlast in Hne]. right.
  destruct (Ha i s n Hi) as [Hsub _]. cbn in Hsub.
  set (b := SseBroadcaster.poll _ _) in *. unfold turn. rewrite Hloop. unfold recv_arm.
  pose proof (recv_cases (SseBroadcaster.tx b) (rx s) Hsub) as Hr.
  destruct (recv (SseBroadcaster.tx b) (rx s)) as [rx'|k rx'| |]; [by eexists | by eexists | done | lia].
Qed.

(** ** Shutdown *)

(** Asking the body again and again, while nothing else happens: the events, and
    the stream where it stopped or waits. *)
Fixpoint drain (fuel : nat) (choices : nat → bool) self s : list Event * Stream :=
  match fuel with
  | O => ([], s)
  | S fuel' =>
      match turn (choices fuel) self s with
      | Yields event s' => let '(events, s2) := drain fuel' choices self s' in (event :: events, s2)
      | Waits => ([], s)
      | Finishes s' => ([], s')
      end
  end.

Definition signalled self s : Prop := changed (SseBroadcaster.shutdown_tx self) (shutdown_rx s) = true.

Lemma drain_ended fuel choices self s : phase s = Ended → drain fuel choices self s = ([], s).
Proof. intros E. destruct fuel; [done |]. cbn [drain]. unfold turn. by rewrite E. Qed.

Lemma drain_ends fuel choices self s :
  attached self s → signalled self s → phase s ≠ Ended →
  (unread (SseBroadcaster.tx self) (rx s) + (match phase s with Opening => 1 | _ => 0 end) < fuel)%nat →
  phase (drain fuel choices self s).2 = Ended ∧ last (drain fuel choices self s).1 = Some ServerShutdown.
Proof.
  revert s. induction fuel as [|fuel IH]; intros s Hatt Hsig Hne Hfuel; [lia |]. cbn [drain].
  pose proof (turn_cases (choices (S fuel)) self s Hatt) as Ht.
  destruct (turn (choices (S fuel)) self s) as [[]| |]; cycle 2.
  - destruct Ht as (_ & Ep' & _). by rewrite drain_ended.
  - destruct Ht as (_ & _ & E). unfold signalled in Hsig. congruence.
  - by destruct Ht.
  - destruct Ht as [Ep ->]. rewrite Ep in Hfuel. specialize (IH (mkStream (rx s) (shutdown_rx s) Looping) Hatt Hsig ltac:(done) ltac:(cbn; lia)).
    destruct (drain fuel choices self _) as [events s2]. destruct IH as [IH1 IH2]. split; [done |]. cbn in *. by destruct events.
  - destruct Ht as (Ep & Ep' & Esh & Ha' & Hlt). specialize (IH _ Ha' ltac:(unfold signalled; by rewrite Esh) ltac:(by rewrite Ep')).
    rewrite Ep' in IH. specialize (IH ltac:(lia)). destruct (drain fuel choices self s0) as [events s2]. destruct IH as [IH1 IH2].
    split; [done |]. cbn in *. by destruct events.
Qed.

Lemma step_signal w w' s :
  step w w' → attached (broadcaster w) s → signalled (broadcaster w) s → signalled (broadcaster w') s.
Proof.
  unfold signalled. destruct 1 as [w|w|w e|w i Hi|w i s1 n first event s' Hi Ht|w i|w]; cbn; try done; intros Ha.
  - by destruct (poll_cases (broadcaster w) (Ok (data_version (commits w)))) as (_ & -> & _).
  - by destruct (poll_cases (broadcaster w) (Err e)) as (_ & -> & _).
  - destruct (sse_response_attached (broadcaster w)) as (_ & _ & _ & _ & Hch & _). by rewrite Hch.
  - intros _. apply watch_changed, Ha.
Qed.

(** C25. Shutdown ends the streams that are open: in every state after the signal, a
    stream that was there before it ends within one event for each notification
    it has not read, whichever arm the [select!] tries first, and its last event
    says why. A stream that is opened after the signal is not told: after its
    first event it waits. *)
Theorem shutdown_ends_open_streams (w0 w w' : World) (i : nat) (s : Stream) (n : nat) (choices : nat → bool)
    (Hempty : streams w0 = ∅) (Hreach : rtc step w0 w) (Hi : streams w !! i = Some (s, n)) (Hopen : phase s ≠ Ended)
    (Hsteps : rtc step (mkWorld (commits w) (SseBroadcaster.shutdown (broadcaster w)) (streams w)) w') :
  (let '(events, s') := drain (2 + unread (SseBroadcaster.tx (broadcaster w')) (rx s)) choices (broadcaster w') s in
   phase s' = Ended ∧ last events = Some ServerShutdown)
  ∧ (let '(b, late) := sse_response (broadcaster w') in
     let '(events, s') := drain 2 choices b late in
     events = [Connected] ∧ phase s' = Looping ∧ turn true b s' = Waits ∧ turn false b s' = Waits).
Proof.
  assert (all_attached w) as Hall.
  { assert (all_attached w0) as Hall0 by (intros j s1 n1; by rewrite Hempty, lookup_empty). clear Hi Hsteps Hempty.
    induction Hreach as [w0|w0 w1 w2 Hstep _ IH]; [done |]. apply IH. by eapply step_all_attached. }
  assert (attached (broadcaster w') s ∧ signalled (broadcaster w') s) as [Hatt Hsig].
  { apply Hall in Hi as [Ht Hw]. remember (mkWorld _ _ _) as w1 eqn:E1.
    assert (attached (broadcaster w1) s ∧ signalled (broadcaster w1) s) as [Ha1 Hs1]
      by (subst; unfold attached, signalled; cbn; split_and!; [done | |]; by apply watch_changed).
    clear E1. induction Hsteps as [w1|w1 w2 w3 Hstep _ IH]; [done |].
    apply IH; [by eapply step_attached | by eapply step_signal]. }
  split.
  - pose proof (drain_ends (2 + unread (SseBroadcaster.tx (broadcaster w')) (rx s)) choices (broadcaster w') s Hatt Hsig Hopen) as Hd.
    destruct (drain _ _ _ _) as [events s']. apply Hd. destruct (phase s); lia.
  - destruct (sse_response_attached (broadcaster w')) as (Ha & Hop & _ & _ & _ & Hu & Hc & _).
    destruct (sse_response (broadcaster w')) as [b [r sr ph]]. cbn in Ha, Hop, Hu, Hc. subst ph.
    assert (∀ first, turn first b (mkStream r sr Looping) = Waits) as Hwaits.
    { intros first. pose proof (turn_cases first b (mkStream r sr Looping) Ha) as Ht. destruct (turn first b _) as [[]| |]; try done; cbn in Ht.
      - by destruct Ht.
      - destruct Ht as (_ & _ & _ & _ & Hlt). lia.
      - destruct Ht as (_ & _ & _ & E). congruence.
      - by destruct Ht. }
    cbn [drain]. change (turn (choices 2%nat) b (mkStream r sr Opening)) with (Yields Connected (mkStream r sr Looping)).
    cbn [drain]. by rewrite !Hwaits.
Qed.
End Missed.

(** ** Concrete libraries *)

Module Concrete.

(** The version counts the commits. *)
Definition counter_version : DataVersion := Z.of_nat.
#[export] Existing Instance counter_version.
#[export] Instance counter_version_laws : DataVersionLaws.
Proof. split; unfold data_version, counter_version; lia. Qed.

(** A sender is its capacity and how many values it has sent, a receiver the
    position it reads next; the watch counts what it was sent. *)
Definition ring_recv (tx : nat * nat) (rx : nat) : Received nat :=
  if (tx.2 <=? rx)%nat then Empty
  else if (tx.1 <? tx.2 - rx)%nat then Lagged (tx.2 - rx - tx.1) (tx.2 - tx.1)%nat
  else Value (S rx).
#[export] Instance ring : Channels := {|
  Sender := nat * nat;
  Receiver := nat;
  channel cap := (cap, 0%nat);
  send tx := (tx.1, S tx.2);
  subscribe tx := (tx, tx.2);
  recv := ring_recv;
  WatchSender := nat;
  WatchReceiver := nat;
  watch_channel := 0%nat;
  watch_send := S;
  watch_subscribe w := (w, w);
  changed w rx := (rx <? w)%nat |}.

#[export, refine] Instance ring_laws : ChannelLaws := {|
  subscribed (tx : Sender) (rx : Receiver) := (rx <= tx.2)%nat;
  unread (tx : Sender) (rx : Receiver) := (tx.2 - rx)%nat;
  watching (w : WatchSender) (rx : WatchReceiver) := (rx <= w)%nat |}.
Proof.
  all: cbn.
  - lia.
  - lia.
  - intros. split; lia.
  - intros [cap sent] rx Hrx. unfold ring_recv. cbn [fst snd] in *.
    destruct (Nat.leb_spec sent rx) as [Hle|Hgt]; [lia |]. destruct (Nat.ltb_spec cap (sent - rx)); lia.
  - intros w. split; [lia |]. apply Nat.ltb_irrefl.
  - done.
  - intros w rx Hrx. split; [lia |]. by apply Nat.leb_le.
Defined.

Definition broadcaster_0 (last : option Z) : SseBroadcaster.t := SseBroadcaster.mk (channel SSE_BUFFER) 250 watch_channel last.
Definition world_0 (last : option Z) : World := mkWorld 0 (broadcaster_0 last) ∅.
Definition looping_0 : Stream := mkStream (0%nat : Receiver) (0%nat : WatchReceiver) Looping.
(** A stream is open and was told once; then someone commits. *)
Definition world_1 (last : option Z) : World := mkWorld 1 (broadcaster_0 last) {[ 0%nat := (looping_0, 0%nat) ]}.

Lemma reach_1 last : rtc step (world_0 last) (world_1 last).
Proof.
  eapply rtc_l; [apply (step_open _ 0%nat); reflexivity |].
  eapply rtc_l; [eapply (step_event _ 0%nat _ _ true); reflexivity |].
  cbn [fst snd sse_response broadcaster world_0 broadcaster_0 subscribe watch_subscribe ring streams commits SseBroadcaster.tx SseBroadcaster.shutdown_tx].
  rewrite insert_insert_eq. eapply rtc_l; [apply step_commit |]. apply rtc_refl.
Qed.

(** Before the poller's first look there is nobody to compare with: a commit
    between a stream's first event and that look is never announced. *)
Example first_look_swallows_a_change :
  let b := SseBroadcaster.poll (SseBroadcaster.poll (broadcaster_0 None) (Ok (data_version 1))) (Ok (data_version 1)) in
  turn true b looping_0 = Waits ∧ turn false b looping_0 = Waits.
Proof. done. Qed.

(** A reader that fell behind is told once, not once for each change. *)
Example lagged_stream_is_told :
  let b := SseBroadcaster.mk (128, 1000)%nat 250 0%nat (Some 5) in
  turn false b looping_0 = Yields DataChanged (mkStream (872%nat : Receiver) (0%nat : WatchReceiver) Looping).
Proof. reflexivity. Qed.
End Concrete.

Import Concrete.

Lemma no_change_is_missed_witness :
  started (world_0 (Some 0))
  ∧ (∃ s', turn false (SseBroadcaster.poll (broadcaster (world_1 (Some 0))) (Ok (data_version 1))) looping_0 = Yields DataChanged s'
      ∧ phase s' = Looping).
Proof.
  assert (started (world_0 (Some 0))) as Hst by (split; [reflexivity | exists 0%nat; split; [lia | reflexivity]]).
  split; [exact Hst |].
  destruct (no_change_is_missed (world_0 (Some 0)) (world_1 (Some 0)) 0%nat looping_0 0%nat Hst
    (reach_1 (Some 0)) eq_refl eq_refl) as [E|E]; [discriminate E | exact E].
Defined.

Lemma shutdown_ends_open_streams_witness :
  streams (world_0 (Some 0)) = ∅
  ∧ (phase (drain 2 (λ _, false) (SseBroadcaster.shutdown (broadcaster_0 (Some 0))) looping_0).2 = Ended).
Proof.
  split; [reflexivity |].
  pose proof (shutdown_ends_open_streams (world_0 (Some 0)) (world_1 (Some 0))
    _ 0%nat looping_0 0%nat (λ _, false) eq_refl (reach_1 (Some 0)) eq_refl ltac:(done) (rtc_refl _ _)) as [X _].
  exact (proj1 X).
Defined.
