(* ===== verification/Migration.v ===== *)
(** * Opening the ledger file ([src/src/ledger/mod.rs], [src/src/ledger/schema.sql])

    [init_schema] brings a database of any earlier version to the current one,
    statement by statement, each of them committed before the next. A process
    may die between two of them, and the next start goes on from there. *)

From stdpp Require Import base strings list gmap numbers sorting fin_maps.
From Stdlib Require Import Ascii ZArith Lia.
From S2P Require Import Prelude Utf8 Pricing Partner LedgerTypes Sql BillingStore PartnerStore ApiKeys Cursor.

Local Open Scope Z_scope.

Definition SCHEMA_VERSION : Z := 6.

Inductive SchemaError : Type :=
  | SchemaSqlite (e : SqlError)
  | UnsupportedVersion (found supported : Z)
  | MigrationIncomplete (column : string).

(** [Display for SchemaError]; [db_text] is the text of a database error. *)
Definition schema_error_display (db_text : SqlError → string) (self : SchemaError) : string :=
  (match self with
   | SchemaSqlite e => db_text e
   | UnsupportedVersion found supported =>
       "ledger schema version " +:+ dec_string found +:+ " was written by a newer build; this binary supports up to "
       +:+ dec_string supported +:+ ". Refusing to open it: downgrading would relabel data this build cannot read"
   | MigrationIncomplete column =>
       "ledger migration did not produce the column " +:+ debug_str column
       +:+ "; the database is neither the old nor the new schema"
   end)%string.

(** ** The file *)

(** An element of a stored [allowed_models] array as [json_each] gives it. *)
Inductive JsonValue : Type := JsonText (s : string) | JsonOther.

Section File.
(** The rows of the tables the migration never reads. *)
Context {Others : Type}.

Record FileDb : Type := mkFileDb {
  columns : gmap string (gset string);
  indexes : gset string;
  api_keys : gmap Z KeyRow.t;
  allow_lists : gmap Z (list JsonValue);
  partners : gmap string Partner.t;
  partner_models : gmap (string * string) ModelRow.t;
  ledger_meta : Meta;
  others : Others }.

Definition with_columns (d : FileDb) c : FileDb :=
  mkFileDb c (indexes d) (api_keys d) (allow_lists d) (partners d) (partner_models d) (ledger_meta d) (others d).
Definition with_index (d : FileDb) (name : string) : FileDb :=
  mkFileDb (columns d) ({[name]} ∪ indexes d) (api_keys d) (allow_lists d) (partners d) (partner_models d) (ledger_meta d) (others d).
Definition with_keys (d : FileDb) k : FileDb :=
  mkFileDb (columns d) (indexes d) k (allow_lists d) (partners d) (partner_models d) (ledger_meta d) (others d).
Definition with_meta (d : FileDb) m : FileDb :=
  mkFileDb (columns d) (indexes d) (api_keys d) (allow_lists d) (partners d) (partner_models d) m (others d).

Definition table_exists (d : FileDb) (table : string) : bool := is_Some_b (columns d !! table).

(** [PRAGMA table_info] of a table that is not there lists nothing. *)
Definition column_exists (d : FileDb) (table column : string) : bool :=
  match columns d !! table with Some c => bool_decide (column ∈ c) | None => false end.

Definition has_columns (d : FileDb) (table : string) (cols : list string) : bool :=
  match columns d !! table with Some c => forallb (λ col, bool_decide (col ∈ c)) cols | None => false end.

Definition read_schema_version (d : FileDb) : result Z SchemaError :=
  if negb (table_exists d "ledger_meta") then Ok 0
  else match ledger_meta d !! "schema_version"%string with
       | None => Ok 0
       | Some value => ok_or (parse_u32 (trim value)) (SchemaSqlite InvalidColumnType)
       end.

Definition write_schema_version (version : Z) (d : FileDb) : result FileDb SchemaError :=
  Ok (with_meta d (<["schema_version"%string := dec_string version]> (ledger_meta d))).

(** ** Statements of [schema.sql] *)
Inductive Statement : Type :=
  | CreateTable (name : string) (cols : list string)
  | CreateIndex (name table : string) (cols : list string)
  | CreateOneActiveIndex
  | InsertOrIgnore (key value : string).

Definition ONE_ACTIVE : string := "idx_api_keys_one_active_per_consumer".

(** Two active keys of one consumer. *)
Definition duplicate_active (keys : gmap Z KeyRow.t) : bool :=
  existsb (λ p, existsb (λ q, negb (p.1 =? q.1) && is_active_row p.2 && is_active_row q.2
    && String.eqb (KeyRow.consumer_id p.2) (KeyRow.consumer_id q.2)) (map_to_list keys)) (map_to_list keys).

Definition create_index (name table : string) (cols : list string) (d : FileDb) : result FileDb SqlError :=
  if bool_decide (name ∈ indexes d) then Ok d
  else if has_columns d table cols then Ok (with_index d name) else Err OtherFailure.

Definition create_one_active (d : FileDb) : result FileDb SqlError :=
  if bool_decide (ONE_ACTIVE ∈ indexes d) then Ok d
  else if duplicate_active (api_keys d) then Err (SqliteFailure SQLITE_CONSTRAINT_UNIQUE)
  else create_index ONE_ACTIVE "api_keys" ["consumer_id"; "status"]%string d.

Definition exec (s : Statement) (d : FileDb) : result FileDb SqlError :=
  match s with
  | CreateTable name cols =>
      Ok (if table_exists d name then d else with_columns d (<[name := list_to_set cols]> (columns d)))
  | CreateIndex name table cols => create_index name table cols d
  | CreateOneActiveIndex => create_one_active d
  | InsertOrIgnore key value =>
      match ledger_meta d !! key with
      | Some _ => Ok d
      | None => Ok (with_meta d (<[key := value]> (ledger_meta d)))
      end
  end.

Definition USAGE_RECORDS : list string :=
  ["id"; "request_id"; "created_at"; "consumer_id"; "model"; "endpoint"; "streaming"; "http_status"; "request_status";
   "instance_id"; "input_tokens"; "output_tokens"; "cached_tokens"; "ttft_ms"; "duration_ms"; "usage_status";
   "error_message"; "error_body"; "input_price_snapshot"; "cached_input_price_snapshot"; "output_price_snapshot"]%string.
Definition USAGE_HOURLY : list string :=
  ["id"; "hour"; "consumer_id"; "model"; "endpoint"; "streaming"; "request_count"; "total_input_tokens";
   "total_output_tokens"; "total_cached_tokens"; "total_duration_ms"; "total_ttft_ms"; "ttft_count"; "success_count";
   "failure_count"]%string.
Definition API_KEYS : list string :=
  ["id"; "name"; "consumer_id"; "key_prefix"; "key_hash"; "status"; "created_at"; "updated_at"; "expires_at";
   "revoked_at"]%string.
Definition PARTNERS : list string :=
  ["consumer_id"; "name"; "billing_email"; "billing_mode"; "payment_terms_minutes"; "created_at"; "updated_at"]%string.
Definition PRICE_COLUMNS : list string :=
  ["input_price_micro_usd_per_million"; "cached_input_price_micro_usd_per_million"; "output_price_micro_usd_per_million"]%string.
Definition PARTNER_MODELS : list string :=
  ["consumer_id"; "model"]%string ++ PRICE_COLUMNS ++ ["created_at"; "updated_at"]%string.
Definition DAILY_STATEMENTS : list string :=
  ["id"; "consumer_id"; "billing_date"; "billing_mode"; "currency"; "period_start"; "period_end"; "billing_cutoff_at";
   "total_amount_micro_usd"; "incomplete_usage_count"; "due_at"; "paid_at"; "paid_by"; "payment_reference"; "payment_note";
   "email_sent_at"; "email_attempts"; "email_last_error"; "email_next_retry_at"; "email_claim_instance";
   "email_claimed_until"; "created_at"; "updated_at"]%string.
Definition STATEMENT_LINES : list string :=
  ["id"; "statement_id"; "model"]%string ++ PRICE_COLUMNS ++ ["request_count"; "input_tokens"; "cached_input_tokens";
   "uncached_input_tokens"; "output_tokens"; "input_cost_micro_usd"; "cached_input_cost_micro_usd"; "output_cost_micro_usd";
   "total_cost_micro_usd"]%string.

(** [blob] is what [randomblob(32)] gives. *)
Definition schema_sql (blob : list Z) : list Statement :=
  [CreateTable "usage_records" USAGE_RECORDS;
   CreateIndex "idx_usage_records_created_at" "usage_records" ["created_at"];
   CreateIndex "idx_usage_records_consumer_created_id" "usage_records" ["consumer_id"; "created_at"; "id"];
   CreateTable "ledger_instances" ["instance_id"; "booted_at"; "pid"; "host"];
   CreateTable "usage_hourly" USAGE_HOURLY;
   CreateIndex "idx_usage_hourly_hour" "usage_hourly" ["hour"];
   CreateIndex "idx_usage_hourly_consumer_hour" "usage_hourly" ["consumer_id"; "hour"];
   CreateTable "api_keys" API_KEYS;
   CreateIndex "idx_api_keys_active" "api_keys" ["status"];
   CreateOneActiveIndex;
   CreateIndex "idx_api_keys_consumer" "api_keys" ["consumer_id"];
   CreateTable "partners" PARTNERS;
   CreateTable "partner_models" PARTNER_MODELS;
   CreateIndex "idx_partner_models_consumer" "partner_models" ["consumer_id"; "model"];
   CreateTable "daily_statements" DAILY_STATEMENTS;
   CreateIndex "idx_daily_statements_consumer_date" "daily_statements" ["consumer_id"; "billing_date"];
   CreateIndex "idx_daily_statements_overdue" "daily_statements" ["consumer_id"; "due_at"; "paid_at"; "billing_mode"];
   CreateIndex "idx_daily_statements_email_pending" "daily_statements" ["email_next_retry_at"; "email_sent_at"];
   CreateTable "statement_lines" STATEMENT_LINES;
   CreateIndex "idx_statement_lines_statement" "statement_lines" ["statement_id"];
   CreateTable "ledger_meta" ["key"; "value"];
   InsertOrIgnore "cursor_key" (sql_hex blob);
   InsertOrIgnore "last_retention_run" "";
   InsertOrIgnore "last_recovery_run" ""]%string.

(** ** The steps *)

(** An active key that a newer active key of its consumer replaces. *)
Definition superseded (keys : gmap Z KeyRow.t) (id : Z) (k : KeyRow.t) : bool :=
  is_active_row k
  && existsb (λ p, is_active_row p.2 && String.eqb (KeyRow.consumer_id p.2) (KeyRow.consumer_id k) && (id <? p.1))
       (map_to_list keys).

Definition collapse_duplicate_active_keys (now : string) (d : FileDb) : result FileDb SchemaError :=
  if negb (table_exists d "api_keys") then Ok d
  else Ok (with_keys d (map_imap (λ id k, Some (if superseded (api_keys d) id k then revoked_row now k else k)) (api_keys d))).

(** [ALTER TABLE usage_records ADD COLUMN ...]. *)
Definition alter_add (column : string) (d : FileDb) : FileDb :=
  with_columns d (alter (λ c, {[column]} ∪ c) "usage_records"%string (columns d)).

(** The column is added where it is missing, and must be there afterwards. *)
Definition ensure_column (add : bool) (column reported : string) (d : FileDb) : result FileDb SchemaError :=
  let d := if add && negb (column_exists d "usage_records" column) then alter_add column d else d in
  if column_exists d "usage_records" column then Ok d else Err (MigrationIncomplete reported).

(** [MIN(name)] over rows. *)
Definition min_name (rows : list KeyRow.t) : string := default EmptyString (head (merge_sort key_le (KeyRow.name <$> rows))).

(** [INSERT INTO partners ... ON CONFLICT(consumer_id) DO NOTHING], with the
    defaults an upgraded partner gets. *)
Definition migrated_partner (now consumer_id name : string) : Partner.t :=
  Partner.mk consumer_id name "" BillingMode.Invoice 720 now now.
Definition insert_missing (now : string) (rows : list KeyRow.t) (p : gmap string Partner.t) (consumer_id : string)
    : gmap string Partner.t :=
  match p !! consumer_id with
  | Some _ => p
  | None => <[consumer_id := migrated_partner now consumer_id
                (min_name (filter (λ k, KeyRow.consumer_id k = consumer_id) rows))]> p
  end.
Definition insert_partners (now : string) (rows : list KeyRow.t) (p : gmap string Partner.t) : gmap string Partner.t :=
  foldl (insert_missing now rows) p (remove_dups (KeyRow.consumer_id <$> rows)).

Definition allow_list (d : FileDb) (id : Z) : list JsonValue := default [] (allow_lists d !! id).
Definition is_text (v : JsonValue) : bool := match v with JsonText _ => true | JsonOther => false end.

(** The active keys with a model in their list. *)
Definition exposed_keys (d : FileDb) : list (Z * KeyRow.t) :=
  filter (λ p, is_active_row p.2 && negb (bool_decide (allow_list d p.1 = [])) = true) (map_to_list (api_keys d)).

(** One transaction; an element that is not a text makes [serde_json] refuse
    the group, which takes the transaction back. *)
Definition migrate_model_allow_list (now : string) (d : FileDb) : result FileDb SchemaError :=
  if negb (column_exists d "api_keys" "allowed_models") then Ok d
  else if existsb (λ p, negb (forallb is_text (allow_list d p.1))) (exposed_keys d)
  then Err (SchemaSqlite OtherFailure)
  else
    let p := insert_partners now (exposed_keys d).*2 (partners d) in
    let p := insert_partners now (map_to_list (api_keys d)).*2 p in
    Ok (mkFileDb (columns d) (indexes d) (api_keys d) ((λ _, []) <$> allow_lists d) p (partner_models d) (ledger_meta d) (others d)).

(** The table rebuild, one transaction. *)
Definition drop_legacy_allow_list_column (d : FileDb) : result FileDb SchemaError :=
  if negb (column_exists d "api_keys" "allowed_models") then Ok d
  else if negb (has_columns d "api_keys" API_KEYS) then Err (SchemaSqlite OtherFailure)
  else if duplicate_active (api_keys d) then Err (SchemaSqlite (SqliteFailure SQLITE_CONSTRAINT_UNIQUE))
  else Ok (mkFileDb (<["api_keys"%string := list_to_set API_KEYS]> (columns d))
             ({["idx_api_keys_active"%string; ONE_ACTIVE; "idx_api_keys_consumer"%string]} ∪ indexes d)
             (api_keys d) ∅ (partners d) (partner_models d) (ledger_meta d) (others d)).

Fixpoint check_tables (tables : list string) (d : FileDb) : result FileDb SchemaError :=
  match tables with
  | [] => Ok d
  | table :: tables' => if table_exists d table then check_tables tables' d else Err (MigrationIncomplete table)
  end.

Definition sqlite {A} (r : result A SqlError) : result A SchemaError :=
  match r with Ok a => Ok a | Err e => Err (SchemaSqlite e) end.

Definition Step : Type := FileDb → result FileDb SchemaError.

(** What [init_schema] does on a file stamped [found], in order; each step is
    one commit, or reads. *)
Definition migration_steps (found : Z) (now : string) (blob : list Z) : list Step :=
  (if found <? 6 then [collapse_duplicate_active_keys now] else [])
  ++ ((λ s d, sqlite (exec s d)) <$> schema_sql blob)
  ++ [ensure_column true "instance_id" "usage_records.instance_id";
      ensure_column (found <? 4) "error_body" "usage_records.error_body"]
  ++ (if found <? 6 then
        [ensure_column true "input_price_snapshot" "usage_records.input_price_snapshot";
         ensure_column true "cached_input_price_snapshot" "usage_records.input_price_snapshot";
         ensure_column true "output_price_snapshot" "usage_records.input_price_snapshot";
         migrate_model_allow_list now;
         drop_legacy_allow_list_column]
      else [])
  ++ [(λ d, sqlite (create_index "idx_usage_records_instance_in_flight" "usage_records" ["instance_id"; "request_status"]%string d));
      check_tables ["partners"; "partner_models"; "daily_statements"; "statement_lines"]%string;
      write_schema_version SCHEMA_VERSION].

(** [left] is how many steps the process lives for; [None] is its death. *)
Fixpoint run (left : nat) (steps : list Step) (d : FileDb) {struct steps} : FileDb * option (result unit SchemaError) :=
  match steps with
  | [] => (d, Some (Ok ()))
  | step :: steps' =>
      match left with
      | O => (d, None)
      | S left' => match step d with Ok d' => run left' steps' d' | Err e => (d, Some (Err e)) end
      end
  end.

Definition init_schema (now : string) (blob : list Z) (left : nat) (d : FileDb) : FileDb * option (result unit SchemaError) :=
  match read_schema_version d with
  | Err e => (d, Some (Err e))
  | Ok found =>
      if SCHEMA_VERSION <? found then (d, Some (Err (UnsupportedVersion found SCHEMA_VERSION)))
      else run left (migration_steps found now blob) d
  end.
End File.
Arguments FileDb : clear implicits.

(** ** Chains of steps *)
Section Chains.
Context {Others : Type} (Inv : FileDb Others → Prop).

(** From [P], the steps succeed one after the other and end in [Q]; [Inv]
    holds wherever the process may die. *)
Inductive chain (P : FileDb Others → Prop) : list Step → (FileDb Others → Prop) → Prop :=
  | chain_nil (Q : FileDb Others → Prop) : (∀ d, P d → Q d) → chain P [] Q
  | chain_cons step steps P' Q :
      (∀ d, P d → Inv d) → (∀ d, P d → ∃ d', step d = Ok d' ∧ P' d') → chain P' steps Q → chain P (step :: steps) Q.

Lemma chain_weaken P P' steps Q : (∀ d, P d → P' d) → chain P' steps Q → chain P steps Q.
Proof. intros Hw Hc. destruct Hc; [constructor; auto |]. eapply chain_cons; eauto. Qed.

Lemma chain_app P steps1 steps2 Q R : chain P steps1 Q → chain Q steps2 R → chain P (steps1 ++ steps2) R.
Proof.
  induction 1 as [P Q Hq | P step steps P' Q Hi Hs _ IH]; intros Hc; [by eapply chain_weaken |].
  cbn. eapply chain_cons; eauto.
Qed.

Lemma run_chain P steps Q left d :
  chain P steps Q → P d →
  match run left steps d with
  | (d', None) => Inv d' ∧ (left < length steps)%nat
  | (d', Some r) => r = Ok () ∧ Q d'
  end.
Proof.
  intros Hc. revert left d. induction Hc as [P Q Hq | P step steps P' Q Hi Hs _ IH]; intros left d Hp; cbn [run].
  - destruct left; cbn; auto.
  - destruct left as [|left]; [cbn; split; [auto | lia] |]. destruct (Hs d Hp) as (d' & -> & Hp').
    specialize (IH left d' Hp'). destruct (run left steps d') as [d'' [r|]]; [done |]. cbn. split; [tauto | lia].
Qed.
End Chains.

(** ** What an upgrade keeps *)

(** Columns the indexes are built on, and those the rebuild of [api_keys]
    carries over. *)
Definition REQUIRED : list (string * string) :=
  [("usage_records", "created_at"); ("usage_records", "consumer_id"); ("usage_records", "id");
   ("usage_records", "request_status"); ("usage_hourly", "hour"); ("usage_hourly", "consumer_id");
   ("api_keys", "status"); ("api_keys", "consumer_id"); ("partner_models", "consumer_id"); ("partner_models", "model");
   ("daily_statements", "consumer_id"); ("daily_statements", "billing_date"); ("daily_statements", "due_at");
   ("daily_statements", "paid_at"); ("daily_statements", "billing_mode"); ("daily_statements", "email_next_retry_at");
   ("daily_statements", "email_sent_at"); ("statement_lines", "statement_id")]%string
  ++ (pair "api_keys"%string <$> API_KEYS).

Definition PRICE_SNAPSHOTS : list string :=
  ["input_price_snapshot"; "cached_input_price_snapshot"; "output_price_snapshot"]%string.

Section Upgrade.
Context {Others : Type}.
Implicit Types d db : FileDb Others.

(** A file an earlier build left, stamped [found]. *)
Record upgradable (found : Z) d : Prop := {
  up_version : read_schema_version d = Ok found;
  up_old : found ≤ SCHEMA_VERSION;
  up_meta : table_exists d "ledger_meta" = false → ledger_meta d !! "schema_version"%string = None;
  up_keys : table_exists d "api_keys" = false → api_keys d = ∅;
  up_required t col c : (t, col) ∈ REQUIRED → columns d !! t = Some c → col ∈ c;
  up_texts id vs : allow_lists d !! id = Some vs → forallb is_text vs = true;
  up_error_body c : 4 ≤ found → columns d !! "usage_records"%string = Some c → "error_body"%string ∈ c;
  up_six : found = SCHEMA_VERSION →
    (∀ col, col ∈ PRICE_SNAPSHOTS → column_exists d "usage_records" col = true)
    ∧ column_exists d "api_keys" "allowed_models" = false ∧ duplicate_active (api_keys d) = false }.

(** Every consumer of a key has an account. *)
Definition accounts_complete db d : Prop :=
  ∀ id k, api_keys db !! id = Some k → is_Some (partners d !! KeyRow.consumer_id k).

(** An active key with a newer active key of the same consumer. *)
Definition replaced (keys : gmap Z KeyRow.t) (id : Z) (k : KeyRow.t) : Prop :=
  is_active_row k = true
  ∧ ∃ j k', keys !! j = Some k' ∧ is_active_row k' = true ∧ KeyRow.consumer_id k' = KeyRow.consumer_id k ∧ id < j.

(** What is left of [db] on the way. *)
Record progress db d : Prop := {
  pr_keys id :
    match api_keys db !! id with
    | None => api_keys d !! id = None
    | Some k => api_keys d !! id = Some k
                ∨ (superseded (api_keys db) id k = true ∧ ∃ t, api_keys d !! id = Some (revoked_row t k))
    end;
  pr_partners c p : partners db !! c = Some p → partners d !! c = Some p;
  pr_new_partners c p : partners db !! c = None → partners d !! c = Some p →
    ∃ t name id k, p = migrated_partner t c name ∧ api_keys db !! id = Some k ∧ KeyRow.consumer_id k = c;
  pr_models : partner_models d = partner_models db;
  pr_others : others d = others db;
  pr_columns t c col : t ≠ "api_keys"%string → columns db !! t = Some c → col ∈ c →
    column_exists d t col = true;
  pr_meta key v : key ≠ "schema_version"%string → ledger_meta db !! key = Some v → ledger_meta d !! key = Some v;
  pr_legacy : column_exists db "api_keys" "allowed_models" = true →
    column_exists d "api_keys" "allowed_models" = true ∨ accounts_complete db d }.

Lemma progress_refl db : progress db db.
Proof.
  split; try done.
  - intros id. destruct (api_keys db !! id); [by left | done].
  - congruence.
  - intros t c col _ Hc Hcol. unfold column_exists. rewrite Hc. by apply bool_decide_eq_true_2.
  - by left.
Qed.

Lemma duplicate_active_spec (keys : gmap Z KeyRow.t) :
  duplicate_active keys = false ↔
  ∀ i j k k', keys !! i = Some k → keys !! j = Some k' → is_active_row k = true → is_active_row k' = true →
    KeyRow.consumer_id k = KeyRow.consumer_id k' → i = j.
Proof.
  unfold duplicate_active. split.
  - intros Hd i j k k' Hi Hj Hk Hk' Hc. destruct (Z.eq_dec i j) as [|Hne]; [done |]. exfalso.
    apply not_true_iff_false in Hd. apply Hd. rewrite existsb_exists. exists (i, k).
    split; [by apply list_elem_of_In, elem_of_map_to_list |]. rewrite existsb_exists. exists (j, k').
    split; [by apply list_elem_of_In, elem_of_map_to_list |]. cbn. rewrite Hk, Hk', Hc, String.eqb_refl.
    by apply Z.eqb_neq in Hne as ->.
  - intros Hall. apply not_true_iff_false. rewrite existsb_exists. intros ([i k] & Hi & Hex).
    rewrite existsb_exists in Hex. destruct Hex as ([j k'] & Hj & Hb). apply list_elem_of_In, elem_of_map_to_list in Hi, Hj.
    cbn in Hb. rewrite !andb_true_iff, negb_true_iff, Z.eqb_neq, String.eqb_eq in Hb.
    destruct Hb as (((Hne & ?) & ?) & ?). apply Hne. by eapply Hall.
Qed.

Lemma superseded_spec (keys : gmap Z KeyRow.t) id k : superseded keys id k = true ↔ replaced keys id k.
Proof.
  unfold superseded, replaced. rewrite andb_true_iff, existsb_exists. split.
  - intros [Ha ([j k'] & Hj & Hb)]. split; [done |]. apply list_elem_of_In, elem_of_map_to_list in Hj. cbn in Hb.
    rewrite !andb_true_iff, String.eqb_eq, Z.ltb_lt in Hb. exists j, k'. tauto.
  - intros [Ha (j & k' & Hj & Hk' & Hc & Hlt)]. split; [done |]. exists (j, k').
    split; [by apply list_elem_of_In, elem_of_map_to_list |]. cbn. rewrite Hk', Hc, String.eqb_refl. by apply Z.ltb_lt.
Qed.

(** A key still active is the key it was. *)
Lemma progress_active db d id k :
  progress db d → api_keys d !! id = Some k → is_active_row k = true → api_keys db !! id = Some k.
Proof.
  intros Hp Hk Ha. pose proof (pr_keys _ _ Hp id) as H. destruct (api_keys db !! id) as [k0|]; [| congruence].
  destruct H as [H|(_ & t & H)]; rewrite H in Hk; injection Hk as <-; [done |]. done.
Qed.

(** *** Revoking duplicates *)
Lemma collapse_step found db now d :
  upgradable found d → progress db d →
  ∃ d', collapse_duplicate_active_keys now d = Ok d'
    ∧ upgradable found d' ∧ progress db d' ∧ duplicate_active (api_keys d') = false.
Proof.
  intros Hu Hp. unfold collapse_duplicate_active_keys. destruct (table_exists d "api_keys") eqn:Et; cbn [negb].
  2:{ exists d. split_and!; try done. rewrite (up_keys _ _ Hu Et). by apply duplicate_active_spec. }
  set (keys := map_imap _ _). exists (with_keys d keys).
  assert (∀ id, keys !! id = (λ k, if superseded (api_keys d) id k then revoked_row now k else k) <$> api_keys d !! id) as Hk.
  { intros id. unfold keys. rewrite map_lookup_imap. by destruct (api_keys d !! id). }
  split_and!; [done | | |].
  - destruct Hu; split; try assumption; [by rewrite (Et : table_exists (with_keys d keys) _ = _) |].
    intros E. split_and!; [apply up_six0, E | apply up_six0, E |]. cbn [api_keys with_keys].
    apply duplicate_active_spec. intros i j k k' Hi Hj Ha Ha' Hc. rewrite Hk in Hi, Hj.
    apply fmap_Some in Hi as (k0 & Hi & ->), Hj as (k0' & Hj & ->).
    destruct (superseded _ i k0); [done |]. destruct (superseded _ j k0'); [done |].
    destruct (up_six0 E) as (_ & _ & Hdup). rewrite duplicate_active_spec in Hdup. by eapply Hdup.
  - pose proof (pr_keys _ _ Hp) as Hpk. pose proof Hp as Hp'. destruct Hp'. split; try assumption. cbn [api_keys with_keys].
    intros id. specialize (Hpk id). rewrite Hk.
    destruct (api_keys db !! id) as [k|] eqn:Edb; [| by rewrite Hpk].
    destruct Hpk as [->|(Hs & t & ->)]; cbn [fmap option_fmap option_map].
    + destruct (superseded (api_keys d) id k) eqn:Es; [| by left]. right. split; [| by exists now].
      apply superseded_spec in Es as (Ha & j & k' & Hj & Hk' & Hc & Hlt). apply superseded_spec. split; [done |].
      exists j, k'. split_and!; try done. by eapply (progress_active db d).
    + right. split; [done |]. exists t.
      by assert (superseded (api_keys d) id (revoked_row t k) = false) as -> by done.
  - cbn [api_keys with_keys]. apply duplicate_active_spec. intros i j k k' Hi Hj Ha Ha' Hc. rewrite Hk in Hi, Hj.
    apply fmap_Some in Hi as (k0 & Hi & ->), Hj as (k0' & Hj & ->).
    destruct (superseded (api_keys d) i k0) eqn:Ei; [done |]. destruct (superseded (api_keys d) j k0') eqn:Ej; [done |].
    apply not_true_iff_false in Ei, Ej. rewrite superseded_spec in Ei, Ej.
    destruct (Z.lt_total i j) as [Hlt|[|Hlt]]; [| done |]; exfalso; [apply Ei | apply Ej]; (split; [done |]);
      [exists j, k0' | exists i, k0]; split_and!; try done.
Qed.

(** *** The statements of the schema *)

(** An upgrade under way: the duplicates are gone, [T] are tables that are
    there, and [C] columns of [usage_records]. *)
Record under_way (found : Z) db (T C : list string) d : Prop := {
  uw_up : upgradable found d;
  uw_progress : progress db d;
  uw_unique : duplicate_active (api_keys d) = false;
  uw_tables t : t ∈ T → table_exists d t = true;
  uw_columns c : c ∈ C → column_exists d "usage_records" c = true }.

Definition inv (found : Z) db d : Prop := upgradable found d ∧ progress db d.

Lemma under_way_inv found db T C d : under_way found db T C d → inv found db d.
Proof. by intros []. Qed.

Lemma column_exists_table d t c : column_exists d t c = true → table_exists d t = true.
Proof. unfold column_exists, table_exists. by destruct (columns d !! t). Qed.

(** Changing the index set only. *)
Lemma under_way_index found db T C d name : under_way found db T C d → under_way found db T C (with_index d name).
Proof.
  intros [Hu Hp Hd Ht Hc]. split; try assumption; [destruct Hu | destruct Hp]; split; assumption.
Qed.

Lemma create_index_step found db T C d name table cols :
  under_way found db T C d → has_columns d table cols = true →
  ∃ d', create_index name table cols d = Ok d' ∧ under_way found db T C d'.
Proof.
  intros Hw Hcols. unfold create_index. destruct (bool_decide _); [by exists d |]. rewrite Hcols.
  eexists. split; [done | by apply under_way_index].
Qed.

(** What a [CREATE TABLE] of the schema must have. *)
Definition table_fine (name : string) (cols : list string) : bool :=
  forallb (λ r, negb (String.eqb r.1 name) || bool_decide (r.2 ∈ cols)) REQUIRED
  && (negb (String.eqb name "usage_records") || bool_decide ("error_body"%string ∈ cols))
  && (negb (String.eqb name "api_keys") || negb (bool_decide ("allowed_models"%string ∈ cols))).

Lemma create_table_step found db T C d name cols :
  under_way found db T C d → table_fine name cols = true →
  ∃ d', exec (CreateTable name cols) d = Ok d' ∧ under_way found db (name :: T) C d'.
Proof.
  intros Hw [[Hreq Herr]%andb_true_iff Hallow]%andb_true_iff. pose proof Hw as [Hu Hp Hd Ht Hc]. cbn [exec].
  destruct (table_exists d name) eqn:En.
  { exists d. split; [done |]. split; try assumption. by intros t [->|Ht']%elem_of_cons; [| apply Ht]. }
  set (d' := with_columns d _). exists d'. split; [done |].
  assert (columns d !! name = None) as Hnone by (unfold table_exists in En; by destruct (columns d !! name)).
  assert (∀ t, t ≠ name → columns d' !! t = columns d !! t) as Hne by (intros t Hn; by apply lookup_insert_ne).
  assert (columns d' !! name = Some (list_to_set cols)) as Heq by apply lookup_insert_eq.
  assert (∀ t, table_exists d t = true → columns d' !! t = columns d !! t) as Hold
    by (intros t Hte; apply Hne; intros ->; congruence).
  assert (∀ t c, column_exists d t c = true → column_exists d' t c = true) as Hcol
    by (intros t c Hce; unfold column_exists; rewrite Hold by (by eapply column_exists_table); exact Hce).
  assert (∀ t, table_exists d' t = false → table_exists d t = false) as Habs
    by (intros t Hf; unfold table_exists in *; destruct (decide (t = name)) as [->|Hn]; [by rewrite Hnone | by rewrite <- Hne]).
  split; [| | assumption | |].
  - split; try apply Hu.
    + pose proof (up_version _ _ Hu) as Hv. unfold read_schema_version in Hv |- *. change (ledger_meta d') with (ledger_meta d).
      destruct (table_exists d' "ledger_meta") eqn:E'; cbn [negb].
      * destruct (table_exists d "ledger_meta") eqn:E; cbn [negb] in Hv; [done |].
        by rewrite (up_meta _ _ Hu E).
      * by rewrite (Habs _ E') in Hv.
    + intros E. apply (up_meta _ _ Hu), Habs, E.
    + intros E. apply (up_keys _ _ Hu), Habs, E.
    + intros t col c Hin Ec. destruct (decide (t = name)) as [->|Hn].
      * rewrite Heq in Ec. injection Ec as <-. rewrite forallb_forall in Hreq.
        specialize (Hreq (name, col) ltac:(by apply list_elem_of_In)). cbn in Hreq. rewrite String.eqb_refl in Hreq.
        apply elem_of_list_to_set. by apply bool_decide_eq_true in Hreq.
      * rewrite Hne in Ec by done. by apply (up_required _ _ Hu t).
    + intros c Hf Ec. destruct (decide ("usage_records"%string = name)) as [<-|Hn].
      * rewrite Heq in Ec. injection Ec as <-. apply elem_of_list_to_set. by apply bool_decide_eq_true in Herr.
      * rewrite Hne in Ec by done. by apply (up_error_body _ _ Hu c).
    + intros E. destruct (up_six _ _ Hu E) as (H1 & H2 & H3). split_and!; [intros c Hcin; by apply Hcol, H1 | | exact H3].
      unfold column_exists. destruct (decide ("api_keys"%string = name)) as [<-|Hn]; [| rewrite Hne by done; exact H2].
      rewrite Heq. apply negb_true_iff in Hallow.
      apply bool_decide_eq_false_2. rewrite elem_of_list_to_set. by apply bool_decide_eq_false in Hallow.
  - split; try apply Hp.
    + intros t c col Hn Hc' Hcin. apply Hcol. by eapply (pr_columns _ _ Hp).
    + intros Hl. destruct (pr_legacy _ _ Hp Hl) as [H|H]; [left; by apply Hcol | by right].
  - intros t [->|Hin]%elem_of_cons; unfold table_exists; [by rewrite Heq |]. rewrite Hold; [exact (Ht t Hin) | exact (Ht t Hin)].
  - intros c Hin. by apply Hcol, Hc.
Qed.

Lemma insert_or_ignore_step found db T C d key value :
  under_way found db T C d → key ≠ "schema_version"%string →
  ∃ d', exec (InsertOrIgnore key value) d = Ok d' ∧ under_way found db T C d'.
Proof.
  intros [Hu Hp Hd Ht Hc] Hkey. cbn [exec]. destruct (ledger_meta d !! key) eqn:Ek; [by exists d |].
  eexists. split; [done |]. split; try assumption.
  - split; try apply Hu.
    + pose proof (up_version _ _ Hu) as Hv. unfold read_schema_version in Hv |- *. cbn [ledger_meta with_meta].
      rewrite lookup_insert_ne by done. exact Hv.
    + intros E. cbn [ledger_meta with_meta]. rewrite lookup_insert_ne by done. by apply (up_meta _ _ Hu).
  - split; try apply Hp. intros k v Hk Hv. cbn [ledger_meta with_meta].
    pose proof (pr_meta _ _ Hp k v Hk Hv) as Hd'. rewrite lookup_insert_ne; [done | congruence].
Qed.

Lemma required_columns found db T C d table cols :
  under_way found db T C d → table ∈ T → forallb (λ col, bool_decide ((table, col) ∈ REQUIRED)) cols = true →
  has_columns d table cols = true.
Proof.
  intros Hw Ht Hall. pose proof (uw_tables _ _ _ _ _ Hw table Ht) as He. unfold table_exists in He. unfold has_columns.
  destruct (columns d !! table) as [c|] eqn:Ec; [| done]. rewrite forallb_forall in Hall |- *. intros col Hcol.
  apply bool_decide_eq_true_2. apply (up_required _ _ (uw_up _ _ _ _ _ Hw) table col); [| done].
  apply (bool_decide_eq_true_1 _), Hall, Hcol.
Qed.

(** A statement list in which every index comes after its table; the tables
    that are there in the end. *)
Fixpoint schema_fine (T : list string) (stmts : list Statement) : option (list string) :=
  match stmts with
  | [] => Some T
  | CreateTable name cols :: rest => if table_fine name cols then schema_fine (name :: T) rest else None
  | CreateIndex _ table cols :: rest =>
      if bool_decide (table ∈ T) && forallb (λ col, bool_decide ((table, col) ∈ REQUIRED)) cols
      then schema_fine T rest else None
  | CreateOneActiveIndex :: rest => if bool_decide ("api_keys"%string ∈ T) then schema_fine T rest else None
  | InsertOrIgnore key _ :: rest => if String.eqb key "schema_version" then None else schema_fine T rest
  end.

Lemma schema_chain found db T C stmts T' :
  schema_fine T stmts = Some T' →
  chain (inv found db) (under_way found db T C) ((λ s d, sqlite (exec s d)) <$> stmts) (under_way found db T' C).
Proof.
  revert T. induction stmts as [|s stmts IH]; intros T; cbn [schema_fine].
  { intros [= <-]. by constructor. }
  intros Hf. cbn [fmap list_fmap].
  assert (∃ T1, (∀ d, under_way found db T C d → ∃ d', exec s d = Ok d' ∧ under_way found db T1 C d') ∧ schema_fine T1 stmts = Some T')
    as (T1 & Hstep & Hf1).
  { destruct s as [name cols | name table cols | | key value].
    - destruct (table_fine name cols) eqn:E; [| done]. exists (name :: T). split; [| done].
      intros d Hw. by apply create_table_step.
    - destruct (bool_decide (table ∈ T)) eqn:E1; [| done]. destruct (forallb _ cols) eqn:E2; [| done].
      exists T. split; [| done]. intros d Hw. cbn [exec]. apply bool_decide_eq_true in E1. apply create_index_step; [done |].
      by eapply required_columns.
    - destruct (bool_decide _) eqn:E1; [| done]. apply bool_decide_eq_true in E1. exists T. split; [| done]. intros d Hw.
      cbn [exec]. unfold create_one_active. destruct (bool_decide (ONE_ACTIVE ∈ _)); [by exists d |].
      rewrite (uw_unique _ _ _ _ _ Hw). apply create_index_step; [done |].
      eapply required_columns; [done | done | vm_compute; reflexivity].
    - destruct (String.eqb_spec key "schema_version"); [done |]. exists T. split; [| done]. intros d Hw.
      by apply insert_or_ignore_step. }
  eapply chain_cons; [intros d Hw; by eapply under_way_inv | | by apply IH].
  intros d Hw. destruct (Hstep d Hw) as (d' & E & Hw'). exists d'. by rewrite E.
Qed.

(** *** Columns *)
Lemma alter_add_columns d column t :
  columns (alter_add column d) !! t =
    if decide (t = "usage_records"%string) then (λ c, {[column]} ∪ c) <$> columns d !! t else columns d !! t.
Proof.
  unfold alter_add. cbn [columns with_columns]. destruct (decide _) as [->|Hn]; [by rewrite lookup_alter_eq | by rewrite lookup_alter_ne].
Qed.

Lemma alter_add_grows d column t c : column_exists d t c = true → column_exists (alter_add column d) t c = true.
Proof.
  unfold column_exists. rewrite alter_add_columns. destruct (columns d !! t) as [cs|]; [| done].
  intros Hc%bool_decide_eq_true. destruct (decide _); cbn; apply bool_decide_eq_true_2; set_solver.
Qed.

Lemma alter_add_under_way found db T C d column :
  under_way found db T C d → under_way found db T C (alter_add column d).
Proof.
  intros [Hu Hp Hd Ht Hc].
  assert (∀ t, table_exists (alter_add column d) t = table_exists d t) as Hte.
  { intros t. unfold table_exists. rewrite alter_add_columns. destruct (decide _); [by destruct (columns d !! t) | done]. }
  assert (∀ t cs col, columns (alter_add column d) !! t = Some cs → (∀ c, columns d !! t = Some c → col ∈ c) → col ∈ cs) as Hin.
  { intros t cs col. rewrite alter_add_columns. destruct (decide _); [| by intros E H; apply H].
    intros (c & Ec & ->)%fmap_Some H. specialize (H c Ec). set_solver. }
  split; try assumption.
  - split; try apply Hu.
    + pose proof (up_version _ _ Hu) as Hv. unfold read_schema_version in Hv |- *. by rewrite Hte.
    + rewrite Hte. apply (up_meta _ _ Hu).
    + rewrite Hte. apply (up_keys _ _ Hu).
    + intros t col c Hr Hcs. apply (Hin t c col Hcs). intros c' Hc'. by apply (up_required _ _ Hu t).
    + intros c Hf Hcs. apply (Hin _ c _ Hcs). intros c' Hc'. by apply (up_error_body _ _ Hu).
    + intros E. destruct (up_six _ _ Hu E) as (H1 & H2 & H3). split_and!; [intros c Hcin; by apply alter_add_grows, H1 | | exact H3].
      unfold column_exists in *. rewrite alter_add_columns. by rewrite decide_False by done.
  - split; try apply Hp.
    + intros t c col Hn Hc' Hcin. apply alter_add_grows. by eapply (pr_columns _ _ Hp).
    + intros Hl. destruct (pr_legacy _ _ Hp Hl) as [H|H]; [left; by apply alter_add_grows | by right].
  - intros t Hin'. rewrite Hte. by apply Ht.
  - intros c Hin'. by apply alter_add_grows, Hc.
Qed.

Lemma ensure_column_step found db T C d add column reported :
  under_way found db T C d → "usage_records"%string ∈ T →
  (add = false → column_exists d "usage_records" column = true) →
  ∃ d', ensure_column add column reported d = Ok d' ∧ under_way found db T (column :: C) d'.
Proof.
  intros Hw Hu Hadd. unfold ensure_column. set (d' := if add && _ then _ else _).
  assert (under_way found db T C d' ∧ column_exists d' "usage_records" column = true) as [Hw' Hc].
  { unfold d'. destruct (column_exists d "usage_records" column) eqn:E; [by rewrite andb_false_r |].
    destruct add; [| by specialize (Hadd eq_refl)]. cbn [andb negb]. split; [by apply alter_add_under_way |].
    unfold column_exists. rewrite alter_add_columns, decide_True by done.
    pose proof (uw_tables _ _ _ _ _ Hw _ Hu) as Ht. unfold table_exists in Ht. destruct (columns d !! _); [| done].
    cbn. apply bool_decide_eq_true_2. set_solver. }
  rewrite Hc. exists d'. split; [done |]. destruct Hw'. split; try assumption. by intros c [->|Hin]%elem_of_cons; [| apply uw_columns0].
Qed.

(** *** Accounts *)
Lemma insert_partners_spec now (rows : list KeyRow.t) (p : gmap string Partner.t) :
  (∀ c q, p !! c = Some q → insert_partners now rows p !! c = Some q)
  ∧ (∀ c q, p !! c = None → insert_partners now rows p !! c = Some q →
       ∃ name k, k ∈ rows ∧ KeyRow.consumer_id k = c ∧ q = migrated_partner now c name)
  ∧ (∀ k, k ∈ rows → is_Some (insert_partners now rows p !! KeyRow.consumer_id k)).
Proof.
  unfold insert_partners.
  assert (∀ cs, cs ⊆ KeyRow.consumer_id <$> rows → ∀ p,
    (∀ c q, p !! c = Some q → foldl (insert_missing now rows) p cs !! c = Some q)
    ∧ (∀ c q, p !! c = None → foldl (insert_missing now rows) p cs !! c = Some q →
         ∃ name k, k ∈ rows ∧ KeyRow.consumer_id k = c ∧ q = migrated_partner now c name)
    ∧ (∀ c, c ∈ cs → is_Some (foldl (insert_missing now rows) p cs !! c))) as Hall.
  { induction cs as [|c0 cs IH]; intros Hsub q; cbn [foldl].
    { split_and!; [done | congruence | intros c Hc; by apply elem_of_nil in Hc]. }
    destruct (IH ltac:(set_solver) (insert_missing now rows q c0)) as (I1 & I2 & I3).
    assert (∀ c x, q !! c = Some x → insert_missing now rows q c0 !! c = Some x) as Hkeep.
    { intros c x Hx. unfold insert_missing. destruct (q !! c0) eqn:E; [done |]. rewrite lookup_insert_ne; [done | congruence]. }
    split_and!.
    - auto.
    - intros c x Hn Hx. destruct (decide (c = c0)) as [->|Hne].
      + assert (insert_missing now rows q c0 !! c0 = Some (migrated_partner now c0
          (min_name (filter (λ k, KeyRow.consumer_id k = c0) rows)))) as Hi
          by (unfold insert_missing; rewrite Hn; apply lookup_insert_eq).
        rewrite (I1 _ _ Hi) in Hx. injection Hx as <-.
        assert (c0 ∈ KeyRow.consumer_id <$> rows) as (k & -> & Hk)%list_elem_of_fmap by set_solver. eauto.
      + apply I2; [| done]. unfold insert_missing. destruct (q !! c0); [done |]. by rewrite lookup_insert_ne.
    - intros c [->|Hc]%elem_of_cons; [| by apply I3].
      assert (is_Some (insert_missing now rows q c0 !! c0)) as [x Hx].
      { unfold insert_missing. destruct (q !! c0) eqn:E; [by rewrite E | by rewrite lookup_insert_eq]. }
      exists x. by apply I1. }
  destruct (Hall (remove_dups (KeyRow.consumer_id <$> rows)) ltac:(intros c; by rewrite elem_of_remove_dups) p) as (I1 & I2 & I3).
  split_and!; [done | done |]. intros k Hk. apply I3. rewrite elem_of_remove_dups. apply list_elem_of_fmap. eauto.
Qed.

Lemma progress_key db d id k :
  progress db d → api_keys d !! id = Some k → ∃ k0, api_keys db !! id = Some k0 ∧ KeyRow.consumer_id k0 = KeyRow.consumer_id k.
Proof.
  intros Hp Hk. pose proof (pr_keys _ _ Hp id) as H. destruct (api_keys db !! id) as [k0|]; [| congruence].
  exists k0. split; [done |]. destruct H as [H|(_ & t & H)]; rewrite H in Hk; by injection Hk as <-.
Qed.

Lemma migrate_step found db T C now d :
  under_way found db T C d →
  ∃ d', migrate_model_allow_list now d = Ok d' ∧ under_way found db T C d'
    ∧ (column_exists db "api_keys" "allowed_models" = true → accounts_complete db d').
Proof.
  intros Hw. pose proof Hw as [Hu Hp Hd Ht Hc]. unfold migrate_model_allow_list.
  destruct (column_exists d "api_keys" "allowed_models") eqn:Ecol; cbn [negb].
  2:{ exists d. split_and!; [done | done |]. intros Hl. destruct (pr_legacy _ _ Hp Hl); [congruence | done]. }
  assert (∀ id, forallb is_text (allow_list d id) = true) as Htext.
  { intros id. unfold allow_list. destruct (allow_lists d !! id) eqn:E; [| done]. by apply (up_texts _ _ Hu id). }
  assert (existsb (λ p, negb (forallb is_text (allow_list d p.1))) (exposed_keys d) = false) as ->.
  { apply not_true_iff_false. rewrite existsb_exists. intros (x & _ & Hx). by rewrite Htext in Hx. }
  set (p1 := insert_partners now (exposed_keys d).*2 (partners d)).
  set (p2 := insert_partners now (map_to_list (api_keys d)).*2 p1).
  destruct (insert_partners_spec now (exposed_keys d).*2 (partners d)) as (A1 & A2 & _). fold p1 in A1, A2.
  destruct (insert_partners_spec now (map_to_list (api_keys d)).*2 p1) as (B1 & B2 & B3). fold p2 in B1, B2, B3.
  assert (∀ k, k ∈ (map_to_list (api_keys d)).*2 → ∃ id k0, api_keys db !! id = Some k0 ∧ KeyRow.consumer_id k0 = KeyRow.consumer_id k) as Hkeys.
  { intros k ([id k'] & -> & Hin)%list_elem_of_fmap. apply elem_of_map_to_list in Hin.
    destruct (progress_key _ _ _ _ Hp Hin) as (k0 & ? & ?). by exists id, k0. }
  assert (∀ k, k ∈ (exposed_keys d).*2 → k ∈ (map_to_list (api_keys d)).*2) as Hexp.
  { intros k (x & -> & Hin)%list_elem_of_fmap. apply list_elem_of_fmap. exists x. split; [done |].
    unfold exposed_keys in Hin. by apply list_elem_of_filter in Hin as [_ ?]. }
  eexists. split; [done |]. split.
  - split; try assumption.
    + split; try apply Hu. cbn [allow_lists]. intros id vs Hvs. apply lookup_fmap_Some in Hvs as (? & <- & _). done.
    + split; try apply Hp; cbn [partners].
      * intros c q Hq. by apply B1, A1, (pr_partners _ _ Hp).
      * intros c q Hn Hq. destruct (p1 !! c) as [q1|] eqn:E1.
        -- rewrite (B1 _ _ E1) in Hq. injection Hq as <-. destruct (partners d !! c) as [q0|] eqn:E0.
           ++ rewrite (A1 _ _ E0) in E1. injection E1 as <-. by apply (pr_new_partners _ _ Hp c).
           ++ destruct (A2 _ _ E0 E1) as (name & k & Hk & <- & ->). destruct (Hkeys k (Hexp k Hk)) as (id & k0 & Hk0 & Hc0).
              by exists now, name, id, k0.
        -- destruct (B2 _ _ E1 Hq) as (name & k & Hk & <- & ->). destruct (Hkeys k Hk) as (id & k0 & Hk0 & Hc0). by exists now, name, id, k0.
      * intros Hl. by left.
  - intros _ id k Hk. cbn [partners]. pose proof (pr_keys _ _ Hp id) as H. rewrite Hk in H.
    assert (∃ k', api_keys d !! id = Some k' ∧ KeyRow.consumer_id k' = KeyRow.consumer_id k) as (k' & Hk' & <-)
      by (destruct H as [H|(_ & t & H)]; eauto).
    apply B3, list_elem_of_fmap. exists (id, k'). split; [done | by apply elem_of_map_to_list].
Qed.

(** *** The rebuilt table *)
Definition settled found db T C d : Prop :=
  under_way found db T C d ∧ column_exists d "api_keys" "allowed_models" = false
  ∧ (column_exists db "api_keys" "allowed_models" = true → accounts_complete db d).

Lemma drop_step found db T C d :
  under_way found db T C d → "api_keys"%string ∈ T →
  (column_exists db "api_keys" "allowed_models" = true → accounts_complete db d) →
  ∃ d', drop_legacy_allow_list_column d = Ok d' ∧ settled found db T C d'.
Proof.
  intros Hw Hin Hacc. unfold drop_legacy_allow_list_column.
  destruct (column_exists d "api_keys" "allowed_models") eqn:Ecol; cbn [negb]; [| by exists d].
  rewrite (required_columns _ _ _ _ _ "api_keys" API_KEYS Hw Hin) by (vm_compute; reflexivity). cbn [negb].
  pose proof Hw as [Hu Hp Hd Ht Hc]. rewrite Hd. eexists. split; [done |].
  set (d' := mkFileDb _ _ _ _ _ _ _ _).
  assert (∀ t, t ≠ "api_keys"%string → columns d' !! t = columns d !! t) as Hne by (intros t Hn; by apply lookup_insert_ne).
  assert (columns d' !! "api_keys"%string = Some (list_to_set API_KEYS)) as Heq by apply lookup_insert_eq.
  assert (∀ t, table_exists d' t = table_exists d t) as Hte.
  { intros t. unfold table_exists. destruct (decide (t = "api_keys"%string)) as [->|Hn]; [| by rewrite Hne].
    rewrite Heq. symmetry. by eapply column_exists_table. }
  assert (∀ t c, t ≠ "api_keys"%string → column_exists d' t c = column_exists d t c) as Hce
    by (intros t c Hn; unfold column_exists; by rewrite Hne).
  assert (column_exists d' "api_keys" "allowed_models" = false) as Hgone
    by (unfold column_exists; rewrite Heq; apply bool_decide_eq_false_2; rewrite elem_of_list_to_set; apply (bool_decide_eq_false_1 _); vm_compute; reflexivity).
  split_and!; [split | done | done].
  - split; try apply Hu.
    + pose proof (up_version _ _ Hu) as Hv. unfold read_schema_version in Hv |- *. by rewrite Hte.
    + rewrite Hte. apply (up_meta _ _ Hu).
    + rewrite Hte. apply (up_keys _ _ Hu).
    + intros t col c Hr Hcs. destruct (decide (t = "api_keys"%string)) as [->|Hn].
      * assert (c = list_to_set API_KEYS) as -> by congruence. apply elem_of_list_to_set.
        assert (forallb (λ r, negb (String.eqb r.1 "api_keys") || bool_decide (r.2 ∈ API_KEYS)) REQUIRED = true) as Hall
          by (vm_compute; reflexivity).
        rewrite forallb_forall in Hall. apply list_elem_of_In in Hr. specialize (Hall _ Hr).
        cbn [fst snd] in Hall. rewrite String.eqb_refl in Hall. by apply bool_decide_eq_true in Hall.
      * rewrite Hne in Hcs by done. by apply (up_required _ _ Hu t).
    + intros id vs. cbn [allow_lists d']. by rewrite lookup_empty.
    + intros c Hf Hcs. rewrite Hne in Hcs by done. by apply (up_error_body _ _ Hu).
    + intros E. destruct (up_six _ _ Hu E) as (H1 & H2 & H3). split_and!; [| exact Hgone | exact H3].
      intros c Hcin. rewrite Hce by done. by apply H1.
  - split; try apply Hp; [| by right; apply Hacc].
    intros t c col Hn Hc' Hcin. rewrite Hce by done. by eapply (pr_columns _ _ Hp).
  - assumption.
  - intros t Hin'. rewrite Hte. by apply Ht.
  - intros c Hin'. rewrite Hce by done. by apply Hc.
Qed.

Lemma check_tables_step found db T C d tables :
  under_way found db T C d → Forall (.∈ T) tables → check_tables tables d = Ok d.
Proof.
  intros Hw. induction 1 as [|t tables Hin _ IH]; cbn; [done |]. by rewrite (uw_tables _ _ _ _ _ Hw t Hin).
Qed.

(** *** A whole start *)

(** Membership in a list that is written out. *)
Ltac listed := apply (bool_decide_eq_true_1 _); vm_compute; reflexivity.

Definition TABLES : list string :=
  ["ledger_meta"; "statement_lines"; "daily_statements"; "partner_models"; "partners"; "api_keys"; "usage_hourly";
   "ledger_instances"; "usage_records"]%string.

Lemma schema_sql_fine blob : schema_fine [] (schema_sql blob) = Some TABLES.
Proof. vm_compute. reflexivity. Qed.

(** A file of the current version. *)
Record migrated db d : Prop := {
  mg_current : upgradable SCHEMA_VERSION d;
  mg_progress : progress db d;
  mg_tables t : t ∈ TABLES → table_exists d t = true;
  mg_columns c : c ∈ ["instance_id"; "error_body"]%string ++ PRICE_SNAPSHOTS → column_exists d "usage_records" c = true;
  mg_accounts : column_exists db "api_keys" "allowed_models" = true → accounts_complete db d }.

(** Ready to be stamped. *)
Definition ready found db d : Prop :=
  settled found db TABLES ["error_body"; "instance_id"]%string d
  ∧ ∀ c, c ∈ PRICE_SNAPSHOTS → column_exists d "usage_records" c = true.

Lemma ready_inv found db d : ready found db d → inv found db d.
Proof. intros [[Hw _] _]. by eapply under_way_inv. Qed.

Lemma under_way_columns found db T C C' d : C' ⊆ C → under_way found db T C d → under_way found db T C' d.
Proof. intros Hs []. split; try assumption. intros c Hc. by apply uw_columns0, Hs. Qed.

Lemma has_columns_cons d t c cols : has_columns d t (c :: cols) = column_exists d t c && has_columns d t cols.
Proof. unfold has_columns, column_exists. by destruct (columns d !! t). Qed.

Lemma in_flight_index_step found db d :
  ready found db d →
  ∃ d', create_index "idx_usage_records_instance_in_flight" "usage_records" ["instance_id"; "request_status"]%string d = Ok d'
    ∧ ready found db d'.
Proof.
  intros [(Hw & Hl & Ha) Hs]. unfold create_index. destruct (bool_decide _); [by exists d |].
  rewrite has_columns_cons, (uw_columns _ _ _ _ _ Hw) by listed.
  rewrite (required_columns _ _ _ _ _ "usage_records" ["request_status"]%string Hw) by listed.
  eexists. split; [done |]. split; [| exact Hs]. split_and!; [by apply under_way_index | done | done].
Qed.

Lemma stamp_step found db d :
  ready found db d → ∃ d', write_schema_version SCHEMA_VERSION d = Ok d' ∧ migrated db d'.
Proof.
  intros [([Hu Hp Hd Ht Hc] & Hl & Ha) Hs]. eexists. split; [done |]. split; try assumption.
  - split; try apply Hu; try done.
    + unfold read_schema_version. cbn [ledger_meta with_meta]. rewrite lookup_insert_eq.
      change (table_exists (with_meta d _) "ledger_meta") with (table_exists d "ledger_meta").
      rewrite Ht by listed. by vm_compute.
    + intros E. change (table_exists (with_meta d _) "ledger_meta") with (table_exists d "ledger_meta") in E.
      rewrite Ht in E; [done | listed].
    + intros c _ Ec. specialize (Hc "error_body"%string ltac:(listed)). unfold column_exists in Hc. cbn in Ec.
      rewrite Ec in Hc. by apply bool_decide_eq_true in Hc.
  - split; try apply Hp. intros key v Hk Hv. cbn [ledger_meta with_meta]. rewrite lookup_insert_ne by done.
    by apply (pr_meta _ _ Hp).
  - intros c [Hin|Hin]%elem_of_app; [apply Hc; set_solver | by apply Hs].
Qed.

Lemma final_chain found db :
  chain (inv found db) (ready found db)
    [(λ d, sqlite (create_index "idx_usage_records_instance_in_flight" "usage_records" ["instance_id"; "request_status"]%string d));
     check_tables ["partners"; "partner_models"; "daily_statements"; "statement_lines"]%string;
     write_schema_version SCHEMA_VERSION] (migrated db).
Proof.
  apply (chain_cons _ _ _ _ (ready found db)); [apply ready_inv | |].
  { intros d Hr. destruct (in_flight_index_step _ _ _ Hr) as (d' & -> & Hr'). by exists d'. }
  apply (chain_cons _ _ _ _ (ready found db)); [apply ready_inv | |].
  { intros d Hr. exists d. split; [| done]. destruct Hr as [(Hw & _) _]. apply (check_tables_step _ _ _ _ _ _ Hw).
    repeat (apply Forall_cons_2; [listed |]). apply Forall_nil_2. }
  apply (chain_cons _ _ _ _ (migrated db)); [apply ready_inv | apply stamp_step | by constructor].
Qed.

Lemma ensure_chain found db C add column reported steps Q :
  (∀ d, under_way found db TABLES C d → add = false → column_exists d "usage_records" column = true) →
  chain (inv found db) (under_way found db TABLES (column :: C)) steps Q →
  chain (inv found db) (under_way found db TABLES C) (ensure_column add column reported :: steps) Q.
Proof.
  intros Hadd Hc. eapply chain_cons; [intros d; apply under_way_inv | | exact Hc].
  intros d Hw. apply ensure_column_step; [done | listed | by apply Hadd].
Qed.

(** From a file without duplicates on. *)
Lemma legacy_chain found db now :
  found ≤ SCHEMA_VERSION →
  chain (inv found db) (under_way found db TABLES ["error_body"; "instance_id"]%string)
    (if found <? 6 then
        [ensure_column true "input_price_snapshot" "usage_records.input_price_snapshot";
         ensure_column true "cached_input_price_snapshot" "usage_records.input_price_snapshot";
         ensure_column true "output_price_snapshot" "usage_records.input_price_snapshot";
         migrate_model_allow_list now;
         drop_legacy_allow_list_column]
      else []) (ready found db).
Proof.
  intros Hf. destruct (Z.ltb_spec found 6) as [Hlt|Hge].
  - do 3 (apply ensure_chain; [done |]).
    eapply chain_cons; [intros d; apply under_way_inv | intros d; apply migrate_step |].
    apply (chain_cons _ _ _ _ (ready found db)); [intros d [Hw _]; by eapply under_way_inv | | by constructor].
    intros d [Hw Ha]. destruct (drop_step _ _ _ _ _ Hw ltac:(listed) Ha) as (d' & E & Hw' & Hl & Ha').
    exists d'. split; [done |]. split; [split_and!; [| done | done] |].
    + eapply under_way_columns; [| exact Hw']. do 3 apply list_subseteq_cons. done.
    + intros c Hc. apply (uw_columns _ _ _ _ _ Hw'). unfold PRICE_SNAPSHOTS in Hc.
      repeat (apply elem_of_cons in Hc as [->|Hc]; [listed |]). by apply elem_of_nil in Hc.
  - constructor. intros d Hw. assert (found = SCHEMA_VERSION) as E by (unfold SCHEMA_VERSION in *; lia).
    destruct (up_six _ _ (uw_up _ _ _ _ _ Hw) E) as (H1 & H2 & _). split; [split_and! |]; try done.
    intros Hl. destruct (pr_legacy _ _ (uw_progress _ _ _ _ _ Hw) Hl); [congruence | done].
Qed.

Lemma migration_chain found db now blob :
  found ≤ SCHEMA_VERSION → chain (inv found db) (inv found db) (migration_steps found now blob) (migrated db).
Proof.
  intros Hf. unfold migration_steps. apply (chain_app _ _ _ _ (under_way found db [] [])).
  { destruct (Z.ltb_spec found 6) as [Hlt|Hge].
    - eapply chain_cons; [done | | by constructor]. intros d [Hu Hp].
      destruct (collapse_step found db now d Hu Hp) as (d' & E & Hu' & Hp' & Hd). exists d'. split; [done |].
      split; [done | done | done | |]; intros ? []%elem_of_nil.
    - constructor. intros d [Hu Hp]. destruct (up_six _ _ Hu) as (_ & _ & Hd); [unfold SCHEMA_VERSION in *; lia |].
      split; [done | done | done | |]; intros ? []%elem_of_nil. }
  eapply chain_app; [apply schema_chain, schema_sql_fine |].
  apply (chain_app _ _ [_; _] _ (under_way found db TABLES ["error_body"; "instance_id"]%string)).
  { apply ensure_chain; [done |]. apply ensure_chain; [| by constructor].
    intros d Hw Hge%Z.ltb_ge. pose proof (uw_tables _ _ _ _ _ Hw "usage_records"%string ltac:(listed)) as Ht.
    unfold table_exists, column_exists in *. destruct (columns d !! _) as [c|] eqn:Ec; [| done].
    apply bool_decide_eq_true_2. by apply (up_error_body _ _ (uw_up _ _ _ _ _ Hw)). }
  eapply chain_app; [by apply legacy_chain | apply final_chain].
Qed.
End Upgrade.

(** ** Starts and crashes *)
Section Starts.
Context {Others : Type}.
Implicit Types d db : FileDb Others.

(** The file after starts that lived for [left] steps each. *)
Definition restarts (attempts : list (string * list Z * nat)) d : FileDb Others :=
  foldl (λ d a, (init_schema a.1.1 a.1.2 a.2 d).1) d attempts.

Lemma init_schema_steps found db now blob left d :
  inv found db d →
  match init_schema now blob left d with
  | (d', None) => inv found db d' ∧ (left < 35)%nat
  | (d', Some r) => r = Ok () ∧ migrated db d'
  end.
Proof.
  intros Hi. pose proof Hi as [Hu Hp]. unfold init_schema. rewrite (up_version _ _ Hu).
  pose proof (up_old _ _ Hu) as Ho. apply Z.ltb_ge in Ho as Hltb. rewrite Hltb.
  pose proof (run_chain _ _ _ _ left d (migration_chain found db now blob Ho) Hi) as Hr.
  destruct (run left _ d) as [d' [r|]]; [done |]. destruct Hr as [Hi' Hlen]. split; [done |].
  eapply Nat.lt_le_trans; [exact Hlen |]. unfold migration_steps. rewrite !length_app, length_fmap.
  destruct (found <? 6); cbn; lia.
Qed.

Lemma restarts_inv found db attempts d :
  inv found db d → ∃ found', inv found' db (restarts attempts d).
Proof.
  revert found d. induction attempts as [|[[now blob] left] attempts IH]; intros found d Hi; [by exists found |].
  cbn [restarts foldl fst snd]. pose proof (init_schema_steps found db now blob left d Hi) as Hs.
  destruct (init_schema now blob left d) as [d' [r|]]; cbn [fst].
  - destruct Hs as [_ Hm]. apply (IH SCHEMA_VERSION). split; [apply Hm | apply Hm].
  - apply (IH found). apply Hs.
Qed.

(** Indexes are only ever added. *)
Definition grows (step : Step (Others := Others)) : Prop := ∀ d d', step d = Ok d' → indexes d ⊆ indexes d'.

Lemma create_index_grows name table cols d d' : create_index name table cols d = Ok d' → indexes d ⊆ indexes d' ∧ name ∈ indexes d'.
Proof.
  unfold create_index. destruct (bool_decide _) eqn:E; [intros [= <-]; split; [done | by apply bool_decide_eq_true in E] |].
  destruct (has_columns _ _ _); [| done]. intros [= <-]. cbn. set_solver.
Qed.

Lemma create_one_active_grows d d' : create_one_active d = Ok d' → indexes d ⊆ indexes d' ∧ ONE_ACTIVE ∈ indexes d'.
Proof.
  unfold create_one_active. destruct (bool_decide _) eqn:E; [intros [= <-]; split; [done | by apply bool_decide_eq_true in E] |].
  destruct (duplicate_active _); [done |]. apply create_index_grows.
Qed.

Lemma sqlite_Ok {A} (r : result A SqlError) a : sqlite r = Ok a → r = Ok a.
Proof. destruct r; by intros [= ->]. Qed.

Lemma exec_grows s : grows (λ d, sqlite (exec s d)).
Proof.
  intros d d' E%sqlite_Ok. destruct s as [name cols | name table cols | | key value]; cbn [exec] in E.
  - injection E as <-. by destruct (table_exists d name).
  - by apply create_index_grows in E as [? _].
  - by apply create_one_active_grows in E as [? _].
  - destruct (ledger_meta d !! key); by injection E as <-.
Qed.

Lemma steps_grow found now blob : Forall grows (migration_steps found now blob).
Proof.
  assert (grows (collapse_duplicate_active_keys now)) as Hc
    by (intros d d'; unfold collapse_duplicate_active_keys; destruct (table_exists _ _); cbn; by intros [= <-]).
  assert (∀ add column reported, grows (ensure_column add column reported)) as He.
  { intros add column reported d d'. unfold ensure_column. set (d1 := if add && _ then _ else _).
    assert (indexes d1 = indexes d) as <- by (unfold d1; by destruct (add && _)).
    destruct (column_exists d1 _ _); [| done]. by intros [= <-]. }
  assert (grows (migrate_model_allow_list now)) as Hm.
  { intros d d'. unfold migrate_model_allow_list. destruct (column_exists _ _ _); cbn [negb]; [| by intros [= <-]].
    destruct (existsb _ _); [done |]. by intros [= <-]. }
  assert (grows drop_legacy_allow_list_column) as Hd.
  { intros d d'. unfold drop_legacy_allow_list_column. destruct (column_exists _ _ _); cbn [negb]; [| by intros [= <-]].
    destruct (has_columns _ _ _); [| done]. destruct (duplicate_active _); [done |]. intros [= <-]. cbn. set_solver. }
  assert (∀ tables, grows (check_tables tables)) as Ht.
  { intros tables d d'. induction tables as [|t tables IH]; cbn; [by intros [= <-] |]. by destruct (table_exists d t). }
  unfold migration_steps. rewrite !Forall_app, Forall_fmap. split_and!.
  - destruct (found <? 6); auto.
  - apply Forall_true. apply exec_grows.
  - auto.
  - destruct (found <? 6); auto 7.
  - apply Forall_cons_2; [| apply Forall_cons_2; [apply Ht | apply Forall_cons_2; [by intros d d' [= <-] | apply Forall_nil_2]]]. intros d d' E%sqlite_Ok. by apply create_index_grows in E as [? _].
Qed.

Lemma run_index name steps left d d' :
  Forall grows steps → Exists (λ step, ∀ d d', step d = Ok d' → name ∈ indexes d') steps ∨ name ∈ indexes d →
  run left steps d = (d', Some (Ok ())) → name ∈ indexes d'.
Proof.
  intros Hg. revert left d. induction Hg as [|step steps Hs Hg IH]; intros left d Hex; cbn [run].
  - intros [= <-]. by destruct Hex as [H%Exists_nil|].
  - destruct left as [|left]; [done |]. destruct (step d) as [d1|] eqn:E; [| done]. apply IH.
    destruct Hex as [[H|H]%Exists_cons|H]; [right; by eapply H | by left | right; by apply (Hs d)].
Qed.

Lemma init_schema_index now blob left d d' : init_schema now blob left d = (d', Some (Ok ())) → ONE_ACTIVE ∈ indexes d'.
Proof.
  unfold init_schema. destruct (read_schema_version d) as [found|]; [| done]. destruct (SCHEMA_VERSION <? found); [done |].
  apply run_index; [apply steps_grow |]. left. unfold migration_steps. rewrite !Exists_app. right. left.
  apply Exists_exists. exists (λ d, sqlite (exec CreateOneActiveIndex d)). split; [| intros d0 d1 E%sqlite_Ok; by apply create_one_active_grows in E as [_ ?]].
  apply list_elem_of_fmap. exists CreateOneActiveIndex. split; [done |]. unfold schema_sql. do 9 apply list_elem_of_further. apply list_elem_of_here.
Qed.

(** The newest active key of a consumer is not superseded. *)
Lemma newest_active (keys : gmap Z KeyRow.t) id k :
  keys !! id = Some k → is_active_row k = true →
  ∃ m km, keys !! m = Some km ∧ is_active_row km = true ∧ KeyRow.consumer_id km = KeyRow.consumer_id k
    ∧ superseded keys m km = false.
Proof.
  assert (∃ B, ∀ i x, keys !! i = Some x → i ≤ B) as [B HB].
  { induction keys as [|i x m Hi [B IH]] using map_ind; [exists 0; intros i x; by rewrite lookup_empty |].
    exists (Z.max i B). intros j y. destruct (decide (j = i)) as [->|]; [lia |]. rewrite lookup_insert_ne by done.
    intros Hj%IH. lia. }
  remember (Z.to_nat (B - id)) as n eqn:En. revert id k En.
  induction n as [n IH] using lt_wf_ind. intros id k -> Hk Ha.
  destruct (superseded keys id k) eqn:Es; [| by exists id, k].
  apply superseded_spec in Es as (_ & j & k' & Hj & Hk' & Hc & Hlt). pose proof (HB _ _ Hj).
  destruct (IH (Z.to_nat (B - j)) ltac:(lia) j k' eq_refl Hj Hk') as (m & km & ? & ? & ? & ?). exists m, km. split_and!; congruence.
Qed.

(** What became of every key. *)
Lemma migrated_keys db d id k :
  migrated db d → api_keys db !! id = Some k →
  (replaced (api_keys db) id k ∧ ∃ t, api_keys d !! id = Some (revoked_row t k))
  ∨ (¬ replaced (api_keys db) id k ∧ api_keys d !! id = Some k).
Proof.
  intros Hm Hk. rewrite <- superseded_spec. pose proof (mg_progress _ _ Hm) as Hp. pose proof (pr_keys _ _ Hp id) as H. rewrite Hk in H.
  destruct (superseded (api_keys db) id k) eqn:Es; destruct H as [H|[Hs H]]; auto; try done.
  exfalso. pose proof Es as [Ha _]%superseded_spec. destruct (newest_active _ _ _ Hk Ha) as (m & km & Hkm & Ham & Hc & Hn).
  pose proof (pr_keys _ _ Hp m) as H'. rewrite Hkm, Hn in H'. destruct H' as [H'|[? _]]; [| done].
  destruct (up_six _ _ (mg_current _ _ Hm) eq_refl) as (_ & _ & Hd). rewrite duplicate_active_spec in Hd.
  assert (id = m) as <- by (by eapply (Hd id m k km)). congruence.
Qed.

(** *** Which columns a file ends up with *)

(** What the migration can add to the columns of a table that is there. *)
Definition added (t : string) : gset string :=
  if String.eqb t "usage_records" then list_to_set (["instance_id"; "error_body"]%string ++ PRICE_SNAPSHOTS) else ∅.

Definition created (s : Statement) : option (string * list string) :=
  match s with CreateTable name cols => Some (name, cols) | _ => None end.
(** The tables of the script, with their columns. *)
Definition SCHEMA_TABLES : list (string * list string) := omap created (schema_sql []).

(** From columns [c] of the table [t] to columns [c']. *)
Definition widened (t : string) (c c' : gset string) : Prop :=
  if String.eqb t "api_keys" then c' = c ∨ ("allowed_models"%string ∈ c ∧ c' = list_to_set API_KEYS)
  else c ⊆ c' ∧ c' ⊆ c ∪ added t.

Lemma widened_refl t c : widened t c c.
Proof. unfold widened. destruct (String.eqb t "api_keys"); [by left | set_solver]. Qed.

Lemma widened_trans t c1 c2 c3 : widened t c1 c2 → widened t c2 c3 → widened t c1 c3.
Proof.
  unfold widened. destruct (String.eqb t "api_keys"); [| set_solver].
  intros [->|[H ->]] [->|[H' ->]]; [by left | by right | by right | by right].
Qed.

(** What one step, or many, do to the tables' shapes and to the old lists. *)
Record reshaped d d' : Prop := {
  rs_columns t :
    match columns d !! t, columns d' !! t with
    | Some c, Some c' => widened t c c'
    | Some _, None => False
    | None, Some c' => ∃ cols, (t, cols) ∈ SCHEMA_TABLES ∧ widened t (list_to_set cols) c'
    | None, None => True
    end;
  rs_lists : (∀ id, allow_list d' id = allow_list d id) ∨ (∀ id, allow_list d' id = []);
  rs_rebuilt c : columns d !! "api_keys"%string = Some c →
    columns d' !! "api_keys"%string = Some c ∨ ∀ id, allow_list d' id = [] }.

Lemma reshaped_same d d' : columns d' = columns d → allow_lists d' = allow_lists d → reshaped d d'.
Proof.
  intros Ec El. split.
  - intros t. rewrite Ec. destruct (columns d !! t); [apply widened_refl | done].
  - left. intros id. unfold allow_list. by rewrite El.
  - intros c Hc. left. by rewrite Ec.
Qed.

Lemma reshaped_trans d1 d2 d3 : reshaped d1 d2 → reshaped d2 d3 → reshaped d1 d3.
Proof.
  intros H12 H23. split.
  - intros t. pose proof (rs_columns _ _ H12 t) as A. pose proof (rs_columns _ _ H23 t) as B.
    destruct (columns d1 !! t), (columns d2 !! t), (columns d3 !! t); try done; [by eapply widened_trans |].
    destruct A as (cols & ? & ?). exists cols. split; [done | by eapply widened_trans].
  - destruct (rs_lists _ _ H12) as [A|A], (rs_lists _ _ H23) as [B|B]; [left | by right | right | by right];
      intros id; by rewrite B, A.
  - intros c Hc. destruct (rs_rebuilt _ _ H12 c Hc) as [A|A].
    + by apply (rs_rebuilt _ _ H23).
    + right. intros id. destruct (rs_lists _ _ H23) as [B|B]; by rewrite B.
Qed.

Definition reshapes (step : Step (Others := Others)) : Prop := ∀ d d', step d = Ok d' → reshaped d d'.

Lemma create_index_reshapes name table cols d d' : create_index name table cols d = Ok d' → reshaped d d'.
Proof.
  unfold create_index. destruct (bool_decide _); [by intros [= <-]; apply reshaped_same |].
  destruct (has_columns _ _ _); [| done]. by intros [= <-]; apply reshaped_same.
Qed.

Lemma exec_reshapes blob s : s ∈ schema_sql blob → reshapes (λ d, sqlite (exec s d)).
Proof.
  intros Hin d d' E%sqlite_Ok. destruct s as [name cols | name table cols | | key value]; cbn [exec] in E.
  - injection E as <-. unfold table_exists. destruct (columns d !! name) as [c|] eqn:En; cbn [is_Some_b]; [by apply reshaped_same |].
    assert ((name, cols) ∈ SCHEMA_TABLES) as Hs.
    { unfold SCHEMA_TABLES.
      assert (omap created (schema_sql blob) = omap created (schema_sql [])) as <- by (vm_compute; reflexivity).
      apply list_elem_of_omap. by exists (CreateTable name cols). }
    split; cbn.
    + intros t. destruct (decide (t = name)) as [->|Hne].
      * rewrite En, lookup_insert_eq. exists cols. split; [done | apply widened_refl].
      * rewrite lookup_insert_ne by done. destruct (columns d !! t); [apply widened_refl | done].
    + by left.
    + intros c Hc. left. rewrite lookup_insert_ne; [done |]. intros ->. congruence.
  - by apply create_index_reshapes in E.
  - unfold create_one_active in E. destruct (bool_decide _); [injection E as <-; by apply reshaped_same |].
    destruct (duplicate_active _); [done |]. by apply create_index_reshapes in E.
  - destruct (ledger_meta d !! key); injection E as <-; by apply reshaped_same.
Qed.

Lemma ensure_column_reshapes add column reported : column ∈ added "usage_records" → reshapes (ensure_column add column reported).
Proof.
  intros Hin d d'. unfold ensure_column. set (d1 := if add && _ then _ else _).
  assert (reshaped d d1) as Hd; [| destruct (column_exists d1 _ _); [by intros [= <-] | done]].
  unfold d1. destruct (add && _); [| by apply reshaped_same]. split; cbn.
  - intros t. destruct (decide (t = "usage_records"%string)) as [->|Hne].
    + rewrite lookup_alter_eq. destruct (columns d !! "usage_records"%string) as [c|]; cbn; [| done].
      unfold widened. cbn [String.eqb Ascii.eqb Bool.eqb]. set_solver.
    + rewrite lookup_alter_ne by done. destruct (columns d !! t); [apply widened_refl | done].
  - by left.
  - intros c Hc. left. by rewrite lookup_alter_ne.
Qed.

Lemma migrate_reshapes now : reshapes (migrate_model_allow_list now).
Proof.
  intros d d'. unfold migrate_model_allow_list. destruct (column_exists _ _ _); cbn [negb]; [| intros [= <-]; by apply reshaped_same].
  destruct (existsb _ _); [done |]. intros [= <-].
  assert (∀ id, default [] (((λ _, []) <$> allow_lists d) !! id) = ([] : list JsonValue)) as Hnil.
  { intros id. rewrite lookup_fmap. by destruct (allow_lists d !! id). }
  split; [intros t; cbn; destruct (columns d !! t); [apply widened_refl | done] | by right | intros; by left].
Qed.

Lemma drop_reshapes : reshapes drop_legacy_allow_list_column.
Proof.
  intros d d'. unfold drop_legacy_allow_list_column. destruct (column_exists d "api_keys" "allowed_models") eqn:E; cbn [negb];
    [| intros [= <-]; by apply reshaped_same].
  destruct (has_columns _ _ _); [| done]. destruct (duplicate_active _); [done |]. intros [= <-].
  unfold column_exists in E. destruct (columns d !! "api_keys"%string) as [c|] eqn:Ec; [| done]. apply bool_decide_eq_true in E.
  split; cbn.
  - intros t. destruct (decide (t = "api_keys"%string)) as [->|Hne].
    + rewrite Ec, lookup_insert_eq. right. done.
    + rewrite lookup_insert_ne by done. destruct (columns d !! t); [apply widened_refl | done].
  - right. intros id. unfold allow_list. cbn. by rewrite lookup_empty.
  - intros c' _. right. intros id. unfold allow_list. cbn. by rewrite lookup_empty.
Qed.

Lemma steps_reshape found now blob : Forall reshapes (migration_steps found now blob).
Proof.
  assert (∀ add column reported, bool_decide (column ∈ added "usage_records") = true → reshapes (ensure_column add column reported)) as He
    by (intros add column reported H%bool_decide_eq_true; by apply ensure_column_reshapes).
  assert (∀ tables, reshapes (check_tables tables)) as Ht.
  { intros tables d d'. induction tables as [|t tables IH]; cbn; [intros [= <-]; by apply reshaped_same |]. by destruct (table_exists d t). }
  unfold migration_steps. rewrite !Forall_app, Forall_fmap. split_and!.
  - destruct (found <? 6); [| constructor]. apply Forall_cons_2; [| apply Forall_nil_2].
    intros d d'. unfold collapse_duplicate_active_keys. destruct (table_exists _ _); cbn; intros [= <-]; by apply reshaped_same.
  - apply list.Forall_forall. intros s Hs. by apply (exec_reshapes blob).
  - apply Forall_cons_2; [by apply He | apply Forall_cons_2; [by apply He | apply Forall_nil_2]].
  - destruct (found <? 6); [| constructor].
    repeat (apply Forall_cons_2; [by apply He |]). apply Forall_cons_2; [apply migrate_reshapes |].
    apply Forall_cons_2; [apply drop_reshapes | apply Forall_nil_2].
  - apply Forall_cons_2; [| apply Forall_cons_2; [apply Ht | apply Forall_cons_2; [| apply Forall_nil_2]]].
    + intros d d' E%sqlite_Ok. by apply create_index_reshapes in E.
    + intros d d' [= <-]. by apply reshaped_same.
Qed.

Lemma init_schema_reshaped now blob left d : reshaped d (init_schema now blob left d).1.
Proof.
  unfold init_schema. destruct (read_schema_version d) as [found|]; [| by apply reshaped_same].
  destruct (SCHEMA_VERSION <? found); [by apply reshaped_same |].
  generalize (steps_reshape found now blob). generalize (migration_steps (Others := Others) found now blob). intros steps Hs.
  revert left d. induction Hs as [|step steps Hstep _ IH]; intros left d; cbn [run]; [by apply reshaped_same |].
  destruct left as [|left]; [by apply reshaped_same |]. destruct (step d) as [d1|] eqn:E; [| by apply reshaped_same].
  eapply reshaped_trans; [by apply Hstep | apply IH].
Qed.

Lemma restarts_reshaped attempts d : reshaped d (restarts attempts d).
Proof.
  unfold restarts. revert d. induction attempts as [|a attempts IH]; intros d; cbn [foldl]; [by apply reshaped_same |].
  eapply reshaped_trans; [apply init_schema_reshaped | apply IH].
Qed.

(** The columns of a table that was there, in a finished file. *)
Lemma finished_columns db d t c :
  reshaped db d → migrated db d → columns db !! t = Some c →
  columns d !! t = Some (if String.eqb t "api_keys" then if decide ("allowed_models"%string ∈ c) then list_to_set API_KEYS else c
                         else c ∪ added t).
Proof.
  intros Hr Hm Hc. pose proof (rs_columns _ _ Hr t) as H. rewrite Hc in H.
  destruct (columns d !! t) as [c'|] eqn:Ec; [| done]. f_equal. unfold widened in H.
  destruct (String.eqb_spec t "api_keys") as [->|Hne].
  - destruct (up_six _ _ (mg_current _ _ Hm) eq_refl) as (_ & Hgone & _). unfold column_exists in Hgone. rewrite Ec in Hgone.
    apply bool_decide_eq_false in Hgone. destruct H as [->|[Hin ->]]; [by rewrite decide_False | by rewrite decide_True].
  - apply set_eq. intros col. split; [set_solver |]. intros [Hin|Hin]%elem_of_union; [set_solver |].
    unfold added in Hin. destruct (String.eqb_spec t "usage_records") as [->|]; [| set_solver].
    apply elem_of_list_to_set in Hin. pose proof (mg_columns _ _ Hm col Hin) as H'. unfold column_exists in H'.
    rewrite Ec in H'. by apply bool_decide_eq_true in H'.
Qed.

(** And of one that was not. *)
Lemma finished_tables db d t cols :
  reshaped db d → migrated db d → columns db !! t = None → (t, cols) ∈ SCHEMA_TABLES →
  ∃ c, columns d !! t = Some c ∧ (∀ col, col ∈ cols → col ∈ c).
Proof.
  intros Hr Hm Hc Hin. pose proof (rs_columns _ _ Hr t) as H. rewrite Hc in H.
  assert (forallb (λ p, bool_decide (p.1 ∈ TABLES)) SCHEMA_TABLES = true
    ∧ forallb (λ p, forallb (λ q, negb (String.eqb p.1 q.1) || bool_decide (p.2 = q.2)) SCHEMA_TABLES) SCHEMA_TABLES = true
    ∧ forallb (λ p, negb (String.eqb p.1 "api_keys") || negb (bool_decide ("allowed_models"%string ∈ p.2))) SCHEMA_TABLES = true)
    as (Ht & Hf & Ha) by (vm_compute; auto).
  rewrite forallb_forall in Ht, Hf, Ha. apply list_elem_of_In in Hin. pose proof (Ht _ Hin) as HT%bool_decide_eq_true.
  apply (mg_tables _ _ Hm) in HT. unfold table_exists in HT. cbn in HT. destruct (columns d !! t) as [c'|]; [| done].
  exists c'. split; [done |]. destruct H as (cols' & Hin' & Hw). apply list_elem_of_In in Hin'.
  specialize (Hf _ Hin). rewrite forallb_forall in Hf. specialize (Hf _ Hin'). cbn in Hf. rewrite String.eqb_refl in Hf.
  apply bool_decide_eq_true in Hf as <-. specialize (Ha _ Hin). cbn in Ha. intros col Hcol. unfold widened in Hw.
  destruct (String.eqb t "api_keys"); cbn in Ha; [| apply Hw; by apply elem_of_list_to_set].
  apply negb_true_iff, bool_decide_eq_false in Ha.
  destruct Hw as [->|[Hal _]]; [by apply elem_of_list_to_set | by apply elem_of_list_to_set in Hal].
Qed.

(** C35. A start finishes the upgrade of the ledger file whatever became of the
    starts before it. [db] is an [upgradable] file, and the [attempts] are
    starts that each died after some number of statements, or finished. A start
    that then runs to its end succeeds and stamps the file 6. At most one active
    key per consumer is left and the index that keeps it so exists; the newest
    active key of every consumer is the key it was and those it replaced are
    revoked; no other key and no partner row changed, every consumer with a key
    in a file of the old shape has an account, and the rows of the other tables
    are what they were.

    Its columns are exactly these. Every table of the script is there, a new one
    with all the script gives it. A table that was there has the columns it had,
    [usage_records] also [instance_id], [error_body] and the three price
    snapshots, and [api_keys] loses [allowed_models] to the rebuild. Nothing else
    is added: a file that lacks another column, as those of version 1 lack
    [cached_tokens], is stamped 6 without it. And one thing is lost: the old
    allow lists, which the copy empties in its own transaction. At any death all
    of them are as they were or all are empty; a start that follows the copy
    finds no names to report in them, and a finished file has none. *)
Theorem migration_survives_crashes found db attempts now blob left :
  upgradable found db → (35 ≤ left)%nat →
  ∃ d, init_schema now blob left (restarts attempts db) = (d, Some (Ok ()))
    ∧ read_schema_version d = Ok SCHEMA_VERSION ∧ migrated db d
    ∧ duplicate_active (api_keys d) = false ∧ ONE_ACTIVE ∈ indexes d
    ∧ (∀ id, api_keys d !! id = None ↔ api_keys db !! id = None)
    ∧ (∀ id k, api_keys db !! id = Some k →
         (replaced (api_keys db) id k ∧ ∃ t, api_keys d !! id = Some (revoked_row t k))
         ∨ (¬ replaced (api_keys db) id k ∧ api_keys d !! id = Some k))
    ∧ (∀ t c, columns db !! t = Some c →
         columns d !! t = Some (if String.eqb t "api_keys"
                                then if decide ("allowed_models"%string ∈ c) then list_to_set API_KEYS else c
                                else c ∪ added t))
    ∧ (∀ t cols, columns db !! t = None → (t, cols) ∈ SCHEMA_TABLES →
         ∃ c, columns d !! t = Some c ∧ ∀ col, col ∈ cols → col ∈ c)
    ∧ ((∀ id, allow_list (restarts attempts db) id = allow_list db id)
       ∨ (∀ id, allow_list (restarts attempts db) id = []))
    ∧ (column_exists db "api_keys" "allowed_models" = true → ∀ id, allow_list d id = []).
Proof.
  intros Hu Hl. destruct (restarts_inv found db attempts db) as [found' Hi]; [split; [done | apply progress_refl] |].
  pose proof (init_schema_steps found' db now blob left _ Hi) as Hs.
  pose proof (restarts_reshaped attempts db) as Hr0. pose proof (init_schema_reshaped now blob left (restarts attempts db)) as Hr1.
  destruct (init_schema now blob left (restarts attempts db)) as [d [r|]] eqn:E; [| lia]. destruct Hs as [-> Hm].
  pose proof (reshaped_trans _ _ _ Hr0 Hr1) as Hr. cbn [fst] in Hr.
  destruct (up_six _ _ (mg_current _ _ Hm) eq_refl) as (_ & Hgone & Hd).
  exists d. split_and!; try done; [apply (mg_current _ _ Hm) | by eapply init_schema_index | | by intros; apply migrated_keys
    | by intros; apply (finished_columns db) | by intros; apply (finished_tables db) | apply Hr0 |].
  - intros id. pose proof (pr_keys _ _ (mg_progress _ _ Hm) id) as H. destruct (api_keys db !! id); [| done].
    split; [| done]. intros Hn. destruct H as [H|(_ & ? & H)]; congruence.
  - unfold column_exists in *. destruct (columns db !! "api_keys"%string) as [c|] eqn:Ec; [| done]. intros Hin.
    destruct (rs_rebuilt _ _ Hr c Ec) as [H|]; [| done]. rewrite H in Hgone. congruence.
Qed.

(** A file of a newer build is left as it is. *)
Lemma newer_file_refused found now blob left d :
  read_schema_version d = Ok found → SCHEMA_VERSION < found →
  init_schema now blob left d = (d, Some (Err (UnsupportedVersion found SCHEMA_VERSION))).
Proof. intros Hv Hlt. unfold init_schema. rewrite Hv. by apply Z.ltb_lt in Hlt as ->. Qed.
End Starts.

(** ** Concrete files *)

(** [upgradable] on a given file. *)
Definition upgradable_b {Others} (found : Z) (d : FileDb Others) : bool :=
  match read_schema_version d with Ok v => v =? found | Err _ => false end
  && (found <=? SCHEMA_VERSION) && table_exists d "ledger_meta" && table_exists d "api_keys"
  && forallb (λ r, negb (table_exists d r.1) || column_exists d r.1 r.2) REQUIRED
  && forallb (λ p, forallb is_text p.2) (map_to_list (allow_lists d))
  && ((found <? 4) || negb (table_exists d "usage_records") || column_exists d "usage_records" "error_body")
  && (found <? SCHEMA_VERSION).

Lemma column_exists_in {Others} (d : FileDb Others) t col c :
  negb (table_exists d t) || column_exists d t col = true → columns d !! t = Some c → col ∈ c.
Proof. unfold table_exists, column_exists. intros H E. rewrite E in H. by apply bool_decide_eq_true in H. Qed.

Lemma upgradable_b_sound {Others} found (d : FileDb Others) : upgradable_b found d = true → upgradable found d.
Proof.
  unfold upgradable_b. rewrite !andb_true_iff. intros (((((((Hv & Ho) & Hm) & Hk) & Hr) & Ha) & He) & H6). split.
  - destruct (read_schema_version d); [| done]. by apply Z.eqb_eq in Hv as ->.
  - by apply Z.leb_le.
  - congruence.
  - congruence.
  - intros t col c Hin Hc. rewrite forallb_forall in Hr. apply list_elem_of_In in Hin. specialize (Hr _ Hin).
    by eapply column_exists_in.
  - intros id vs Hvs. rewrite forallb_forall in Ha. apply (Ha (id, vs)). by apply list_elem_of_In, elem_of_map_to_list.
  - intros c Hf Hc. rewrite <- orb_assoc in He. apply Z.ltb_ge in Hf. rewrite Hf in He. by eapply column_exists_in.
  - intros E. apply Z.ltb_lt in H6. lia.
Qed.

Definition old_key (name consumer status : string) : KeyRow.t :=
  KeyRow.mk name consumer ("lg_" +:+ name) ("hash of " +:+ name) status "2026-01-01T00:00:00.000000000Z"
    "2026-01-01T00:00:00.000000000Z" None None.

(** A file of version 5: acme has two active keys, beta one. *)
Definition file_5 : FileDb (list Z) :=
  mkFileDb
    {[ "usage_records"%string := list_to_set (filter (λ c, c ∉ PRICE_SNAPSHOTS) USAGE_RECORDS) ∪ {["instance_id"%string]};
       "usage_hourly"%string := list_to_set USAGE_HOURLY;
       "ledger_instances"%string := list_to_set ["instance_id"; "booted_at"; "pid"; "host"]%string;
       "api_keys"%string := list_to_set ("allowed_models"%string :: API_KEYS);
       "ledger_meta"%string := list_to_set ["key"; "value"]%string ]}
    {["idx_api_keys_active"%string]}
    {[ 1 := old_key "first" "acme" "active"; 2 := old_key "second" "acme" "active"; 3 := old_key "third" "beta" "active" ]}
    {[ 1 := [JsonText "gpt-4o"]; 2 := [JsonText "gpt-4o-mini"]; 3 := [] ]}
    ∅ ∅ {[ "schema_version"%string := "5"%string ]} [7; 8].

Definition now_6 : string := "2026-10-08T00:00:00.000000000Z".

(** The first start dies after the duplicates are gone, the second after the
    accounts are made. *)
Definition attempts_5 : list (string * list Z * nat) := [(now_6, [1], 1%nat); (now_6, [2], 31%nat)].

Lemma file_5_upgradable : upgradable 5 file_5.
Proof. apply upgradable_b_sound. vm_compute. reflexivity. Qed.

Lemma migration_survives_crashes_witness :
  superseded (api_keys file_5) 1 (old_key "first" "acme" "active") = true
  ∧ superseded (api_keys file_5) 2 (old_key "second" "acme" "active") = false
  ∧ ∃ d, init_schema now_6 [3] 35 (restarts attempts_5 file_5) = (d, Some (Ok ()))
    ∧ read_schema_version d = Ok SCHEMA_VERSION ∧ duplicate_active (api_keys d) = false
    ∧ columns d !! "api_keys"%string = Some (list_to_set API_KEYS).
Proof.
  split; [vm_compute; reflexivity |]. split; [vm_compute; reflexivity |].
  destruct (migration_survives_crashes 5 file_5 attempts_5 now_6 [3] 35 file_5_upgradable (Nat.le_refl _))
    as (d & H1 & H2 & _ & H3 & _ & _ & _ & H4 & _).
  exists d. split_and!; [exact H1 | exact H2 | exact H3 |].
  assert (∃ c, columns file_5 !! "api_keys"%string = Some c ∧ "allowed_models"%string ∈ c) as (c & Hc & Hin).
  { exists (list_to_set ("allowed_models"%string :: API_KEYS)). split; [reflexivity | apply elem_of_list_to_set; by left]. }
  specialize (H4 _ _ Hc). rewrite decide_True in H4 by exact Hin. exact H4.
Defined.

(** The start that dies right after the copy has emptied the lists already, in
    the copy's own transaction: the next start finds no name in them. *)
Example allow_lists_are_emptied_by_the_copy :
  let d := restarts attempts_5 file_5 in
  column_exists d "api_keys" "allowed_models" = true
  ∧ allow_lists d !! 1 = Some [] ∧ allow_lists d !! 2 = Some []
  ∧ KeyRow.consumer_id <$> (exposed_keys file_5).*2 = ["acme"; "acme"]%string ∧ exposed_keys d = [].
Proof. vm_compute. repeat split. Qed.

(** A file of version 1 has no [cached_tokens]: it is stamped 6 without one. *)
Definition file_1 : FileDb unit :=
  mkFileDb
    {[ "usage_records"%string :=
         list_to_set (filter (λ c, c ∉ PRICE_SNAPSHOTS ++ ["cached_tokens"; "instance_id"; "error_body"]%string) USAGE_RECORDS);
       "usage_hourly"%string := list_to_set (filter (λ c, c ≠ "total_cached_tokens"%string) USAGE_HOURLY);
       "ledger_meta"%string := list_to_set ["key"; "value"]%string ]}
    ∅ ∅ ∅ ∅ ∅ {[ "schema_version"%string := "1"%string ]} ().

Example version_1_is_relabelled :
  let '(d, r) := init_schema now_6 [3] 35 file_1 in
  r = Some (Ok ()) ∧ read_schema_version d = Ok 6
  ∧ column_exists d "usage_records" "cached_tokens" = false
  ∧ column_exists d "usage_hourly" "total_cached_tokens" = false
  ∧ column_exists d "usage_records" "error_body" = true.
Proof. vm_compute. repeat split. Qed.
