(* ===== verification/Pool.v ===== *)
(** * The ledger pool ([src/src/ledger/pool.rs], [configure_sqlite] of [src/src/ledger/mod.rs])

    How a connection to the ledger file is opened and set up, what of that
    writes to the file, and the two answers of the instance about itself that
    read no state ([src/src/admin/mod.rs]). *)

From stdpp Require Import base strings list gmap numbers.
From Stdlib Require Import ZArith Lia.
From S2P Require Import Prelude Sql Migration.

Local Open Scope Z_scope.

Definition AUTO_VACUUM_INCREMENTAL : Z := 2.

(** ** The file and its connections *)

Section Pool.
Context {Others : Type}.

(** The content, the two persistent settings of the header, and the commits
    that setting up connections has made. *)
Record LedgerFile : Type := mkFile {
  content : FileDb Others;
  auto_vacuum : Z;
  wal : bool;
  setup_commits : nat }.

Definition with_content (f : LedgerFile) (d : FileDb Others) : LedgerFile :=
  mkFile d (auto_vacuum f) (wal f) (setup_commits f).

(** The count of the rows of [sqlite_master], up to the implicit indexes, which
    come with their tables. *)
Definition schema_objects (f : LedgerFile) : Z :=
  Z.of_nat (size (columns (content f)) + size (indexes (content f))).

(** What a connection keeps for itself. *)
Record Connection : Type := mkConnection {
  synchronous_full : bool;
  foreign_keys : bool;
  busy_timeout : Z;
  temp_store_memory : bool }.

Inductive Pragma : Type :=
  | SetAutoVacuum | JournalModeWal | SynchronousFull | ForeignKeysOn | BusyTimeout (ms : Z) | TempStoreMemory.

(** As SQLite documents them: [auto_vacuum] writes whenever it is set and takes
    effect on a file nothing has been written to; [journal_mode = WAL] is
    persistent and writes the header of a file in another mode. *)
Definition apply_pragma (p : Pragma) (f : LedgerFile) (c : Connection) : LedgerFile * Connection :=
  match p with
  | SetAutoVacuum =>
      (mkFile (content f) (if (schema_objects f =? 0) && negb (wal f) then AUTO_VACUUM_INCREMENTAL else auto_vacuum f)
         (wal f) (S (setup_commits f)), c)
  | JournalModeWal => (if wal f then f else mkFile (content f) (auto_vacuum f) true (S (setup_commits f)), c)
  | SynchronousFull => (f, mkConnection true (foreign_keys c) (busy_timeout c) (temp_store_memory c))
  | ForeignKeysOn => (f, mkConnection (synchronous_full c) true (busy_timeout c) (temp_store_memory c))
  | BusyTimeout ms => (f, mkConnection (synchronous_full c) (foreign_keys c) ms (temp_store_memory c))
  | TempStoreMemory => (f, mkConnection (synchronous_full c) (foreign_keys c) (busy_timeout c) true)
  end.

(** The errors SQLite answers one opening with. *)
Record Io : Type := mkIo {
  opened : result Connection SqlError;
  read_auto_vacuum : option SqlError;
  read_master : option SqlError;
  pragma_error : Pragma → option SqlError }.

(** [execute_batch]: statement by statement, up to the first error. *)
Fixpoint execute_batch (io : Io) (batch : list Pragma) (f : LedgerFile) (c : Connection)
    : LedgerFile * result Connection SqlError :=
  match batch with
  | [] => (f, Ok c)
  | p :: batch' =>
      match pragma_error io p with
      | Some e => (f, Err e)
      | None => let '(f', c') := apply_pragma p f c in execute_batch io batch' f' c'
      end
  end.

Definition CONNECTION_PRAGMAS : list Pragma :=
  [JournalModeWal; SynchronousFull; ForeignKeysOn; BusyTimeout 5000; TempStoreMemory].

(** The file, whether the operator is warned that the file will not shrink,
    and the connection. *)
Definition configure_sqlite (io : Io) (f : LedgerFile) (c : Connection)
    : LedgerFile * bool * result Connection SqlError :=
  match read_auto_vacuum io with
  | Some e => (f, false, Err e)
  | None =>
      if negb (auto_vacuum f =? AUTO_VACUUM_INCREMENTAL) then
        match read_master io with
        | Some e => (f, false, Err e)
        | None =>
            if schema_objects f =? 0 then
              match execute_batch io [SetAutoVacuum] f c with
              | (f', Err e) => (f', false, Err e)
              | (f', Ok c') => let '(f'', r) := execute_batch io CONNECTION_PRAGMAS f' c' in (f'', false, r)
              end
            else let '(f'', r) := execute_batch io CONNECTION_PRAGMAS f c in (f'', true, r)
        end
      else let '(f'', r) := execute_batch io CONNECTION_PRAGMAS f c in (f'', false, r)
  end.

(** [LedgerPool::new]; [left] is how many steps of the migration the process
    lives for, [None] its death. *)
Definition new (io : Io) (now : string) (blob : list Z) (left : nat) (f : LedgerFile)
    : LedgerFile * option (result Connection SchemaError) :=
  match opened io with
  | Err e => (f, Some (Err (SchemaSqlite e)))
  | Ok c =>
      match configure_sqlite io f c with
      | (f', _, Err e) => (f', Some (Err (SchemaSqlite e)))
      | (f', _, Ok c') =>
          let '(d, r) := init_schema now blob left (content f') in
          (with_content f' d,
           match r with
           | None => None
           | Some (Err e) => Some (Err e)
           | Some (Ok _) => Some (Ok c')
           end)
      end
  end.

(** [reader]: the file, the warning, the connection. *)
Definition reader (io : Io) (f : LedgerFile) : LedgerFile * bool * result Connection SqlError :=
  match opened io with
  | Err e => (f, false, Err e)
  | Ok c => configure_sqlite io f c
  end.

Definition read {T} (io : Io) (query : FileDb Others → result T SqlError) (f : LedgerFile)
    : LedgerFile * result T SqlError :=
  match reader io f with
  | (f', _, Err e) => (f', Err e)
  | (f', _, Ok _) => (f', query (content f'))
  end.

(** [write], on the connection the lock guards. *)
Definition write {T} (update : FileDb Others → FileDb Others * result T SqlError) (f : LedgerFile)
    : LedgerFile * result T SqlError :=
  let '(d, r) := update (content f) in (with_content f d, r).
End Pool.
Arguments LedgerFile : clear implicits.

(** ** What a reader writes *)
Section Readers.
Context {Others : Type}.
Implicit Types f : LedgerFile Others.

(** The settings of a file that is in use. *)
Definition in_use f : Prop := wal f = true ∧ schema_objects f ≠ 0.

Lemma connection_pragmas_file io f c :
  let '(f', r) := execute_batch io CONNECTION_PRAGMAS f c in
  content f' = content f ∧ auto_vacuum f' = auto_vacuum f
  ∧ (wal f = true → f' = f)
  ∧ ∀ c', r = Ok c' → wal f' = true ∧ c' = mkConnection true true 5000 true.
Proof.
  unfold CONNECTION_PRAGMAS. cbn [execute_batch apply_pragma].
  destruct (pragma_error io JournalModeWal); [by split_and!|]. destruct (wal f) eqn:Ew;
    repeat (destruct (pragma_error io _); [by split_and!|]); split_and!; try done; by intros c' [= <-].
Qed.

Lemma configure_file io f c :
  let '(f', warned, r) := configure_sqlite io f c in
  content f' = content f
  ∧ (in_use f → f' = f)
  ∧ ∀ c', r = Ok c' → wal f' = true ∧ c' = mkConnection true true 5000 true
      ∧ warned = negb (auto_vacuum f =? AUTO_VACUUM_INCREMENTAL) && negb (schema_objects f =? 0)
      ∧ auto_vacuum f' = (if (schema_objects f =? 0) && negb (wal f) then AUTO_VACUUM_INCREMENTAL else auto_vacuum f).
Proof.
  unfold configure_sqlite. destruct (read_auto_vacuum io); [by split_and! |].
  destruct (Z.eqb_spec (auto_vacuum f) AUTO_VACUUM_INCREMENTAL) as [Ev|Ev]; cbn [negb andb].
  - pose proof (connection_pragmas_file io f c) as Hp. destruct (execute_batch _ _ _ _) as [f' r].
    destruct Hp as (E1 & E2 & E3 & E4). split_and!; [done | intros [? _]; by apply E3 |].
    intros c' E. destruct (E4 c' E) as [? ->]. split_and!; try done. rewrite E2, Ev. by destruct (_ && _).
  - destruct (read_master io); [by split_and! |]. destruct (Z.eqb_spec (schema_objects f) 0) as [Es|Es]; cbn [negb].
    + cbn [execute_batch]. destruct (pragma_error io SetAutoVacuum); [by split_and! |].
      cbn [apply_pragma]. rewrite Es, Z.eqb_refl. cbn [andb]. set (f1 := mkFile _ _ _ _).
      pose proof (connection_pragmas_file io f1 c) as Hp. destruct (execute_batch _ _ _ _) as [f' r].
      destruct Hp as (E1 & E2 & E3 & E4). split; [done |]. split; [intros [_ Hne]; contradiction |].
      intros c' E. destruct (E4 c' E) as [? ->]. split_and!; try done.
    + pose proof (connection_pragmas_file io f c) as Hp. destruct (execute_batch _ _ _ _) as [f' r].
      destruct Hp as (E1 & E2 & E3 & E4). split_and!; [done | intros [? _]; by apply E3 |].
      intros c' E. destruct (E4 c' E) as [? ->]. by split_and!.
Qed.

(** A started pool's file is in use. *)
Lemma new_in_use io now blob left f f' c : new io now blob left f = (f', Some (Ok c)) → in_use f'.
Proof.
  unfold new. destruct (opened io) as [c0|]; [| done]. pose proof (configure_file io f c0) as Hc.
  destruct (configure_sqlite io f c0) as [[f1 warned] [c1|]]; [| done]. destruct Hc as (Ed & _ & Hc).
  destruct (Hc c1 eq_refl) as (Hw & _). destruct (init_schema now blob left (content f1)) as [d [[[]|]|]] eqn:Ei; [| done | done].
  intros [= <- <-]. split; [done |]. apply init_schema_index in Ei. unfold schema_objects, with_content. cbn [content].
  assert (size (indexes d) ≠ 0%nat) as Hs; [| lia]. intros Hs%size_empty_inv. set_solver.
Qed.

(** Readers never write. Once the pool has started, however the file came to
    it, opening any number of connections to read, whatever errors they meet,
    leaves the file exactly as it is, so that no reader announces a change to
    the others; a write changes nothing but the content. *)
Theorem readers_never_write (io : Io) (now : string) (blob : list Z) (left : nat) (f f' : LedgerFile Others) (c : Connection)
    (Hnew : new io now blob left f = (f', Some (Ok c))) (readers : list Io) :
  foldl (λ g r, (reader r g).1.1) f' readers = f'
  ∧ (∀ r c', (reader r f').2 = Ok c' → c' = mkConnection true true 5000 true)
  ∧ ∀ d, setup_commits (with_content f' d) = setup_commits f'.
Proof.
  apply new_in_use in Hnew as Hu.
  assert (∀ r, (reader r f').1.1 = f') as Hr.
  { intros r. unfold reader. destruct (opened r) as [c0|]; [| done]. pose proof (configure_file r f' c0) as Hc.
    destruct (configure_sqlite r f' c0) as [[f1 w] r1]. by apply Hc. }
  split_and!; [| | done].
  - induction readers as [|r readers IH]; [done |]. cbn [foldl]. by rewrite Hr.
  - intros r c'. unfold reader. destruct (opened r) as [c0|]; [| done]. pose proof (configure_file r f' c0) as Hc.
    destruct (configure_sqlite r f' c0) as [[f1 w] r1]. cbn. intros ->. by apply Hc.
Qed.

(** A file this build creates gives its free pages back. *)
Lemma new_file_shrinks io now blob left f f' c :
  new io now blob left f = (f', Some (Ok c)) → schema_objects f = 0 → wal f = false →
  auto_vacuum f' = AUTO_VACUUM_INCREMENTAL.
Proof.
  unfold new. destruct (opened io) as [c0|]; [| done]. pose proof (configure_file io f c0) as Hc.
  destruct (configure_sqlite io f c0) as [[f1 w] [c1|]]; [| done]. destruct Hc as (_ & _ & Hc).
  destruct (Hc c1 eq_refl) as (_ & _ & _ & Ha). destruct (init_schema _ _ _ _) as [d [[[]|]|]]; [| done | done].
  intros [= <- <-] Es Ew. rewrite Es, Ew in Ha. done.
Qed.

(** The warning about an older file is meant to be given once, at startup;
    every connection that is opened to read gives it again. *)
Theorem every_reader_warns_of_an_old_file (io : Io) (f : LedgerFile Others) (c : Connection)
    (Huse : in_use f) (Hold : auto_vacuum f ≠ AUTO_VACUUM_INCREMENTAL) (Hok : (reader io f).2 = Ok c) :
  reader io f = (f, true, Ok c).
Proof.
  unfold reader in *. destruct (opened io) as [c0|]; [| done]. pose proof (configure_file io f c0) as Hc.
  destruct (configure_sqlite io f c0) as [[f1 w] r]. cbn [snd] in Hok. subst r. destruct Hc as (_ & Hf & Hc).
  destruct (Hc c eq_refl) as (_ & _ & Hw & _). rewrite (Hf Huse).
  destruct Huse as [_ Hs]. apply Z.eqb_neq in Hold, Hs. rewrite Hold, Hs in Hw. by rewrite Hw.
Qed.
End Readers.

(** ** A new file, and one of an earlier build *)
Definition fine : Io := mkIo (Ok (mkConnection false false 0 false)) None None (λ _, None).
Definition blank_file : LedgerFile unit := mkFile (mkFileDb ∅ ∅ ∅ ∅ ∅ ∅ ∅ tt) 0 false 0.
Definition started : LedgerFile unit := (new fine "2026-10-08T00:00:00.000000000Z" [1; 2; 3] 40 blank_file).1.
Definition configured : Connection := mkConnection true true 5000 true.

Lemma started_Ok : new fine "2026-10-08T00:00:00.000000000Z" [1; 2; 3] 40 blank_file = (started, Some (Ok configured)).
Proof.
  assert ((new fine "2026-10-08T00:00:00.000000000Z" [1; 2; 3] 40 blank_file).2 = Some (Ok configured)) as E
    by (vm_compute; reflexivity).
  unfold started. rewrite <- E. apply surjective_pairing.
Qed.

(** A reader that meets a locked file. *)
Definition locked : Io := mkIo (Ok (mkConnection false false 0 false)) None None (λ p, match p with JournalModeWal => Some Busy | _ => None end).

Lemma readers_never_write_witness :
  auto_vacuum started = AUTO_VACUUM_INCREMENTAL ∧ setup_commits started = 2%nat
  ∧ foldl (λ g r, (reader r g).1.1) started [fine; locked; fine] = started.
Proof.
  split; [by vm_compute |]. split; [by vm_compute |].
  exact (proj1 (readers_never_write fine "2026-10-08T00:00:00.000000000Z" [1; 2; 3] 40 blank_file started configured started_Ok
    [fine; locked; fine])).
Defined.

Definition old_file : LedgerFile unit := mkFile (content started) 0 true 7.

Lemma every_reader_warns_of_an_old_file_witness : reader fine old_file = (old_file, true, Ok configured).
Proof.
  assert (schema_objects old_file = schema_objects started) as Es by (unfold schema_objects, old_file; reflexivity).
  assert (schema_objects started ≠ 0) as Hs by exact (proj2 (new_in_use _ _ _ _ _ _ _ started_Ok)).
  apply every_reader_warns_of_an_old_file; [split; [reflexivity | rewrite Es; exact Hs] | discriminate |].
  unfold reader, configure_sqlite. cbn [fine opened read_auto_vacuum read_master auto_vacuum old_file].
  change (negb (0 =? AUTO_VACUUM_INCREMENTAL)) with true. cbv iota. rewrite Es. apply Z.eqb_neq in Hs. rewrite Hs. reflexivity.
Defined.

(** ** What the instance says of itself *)

(** [GET /healthz]. *)
Definition healthz : Z * string := (200, "ok"%string).

Module VersionResponse.
Record t : Type := mk { version : string; commit : string; build_time : string; schema_version : Z }.
End VersionResponse.

(** [GET /version]; the arguments are the package version and the variables
    the build was run with. *)
Definition version (package : string) (git_commit build_time : option string) : Z * VersionResponse.t :=
  (200, VersionResponse.mk package (default "unknown"%string git_commit) (default "unknown"%string build_time) SCHEMA_VERSION).
