(* ===== verification/BillingApi.v ===== *)
(** * Statements and service status over HTTP ([src/src/billing/api.rs])

    What a credential reads of the billing tables: a page of statements, one
    statement with its lines, and the derived service status. *)

From stdpp Require Import base strings list gmap numbers sorting fin_maps.
From Stdlib Require Import Ascii ZArith Lia.
From S2P Require Import Prelude Utf8 Crypto TimeLib Calendar Timefmt Pricing Period Status Partner Context LedgerTypes Sql Rollup Statements BillingStore PartnerStore ApiKeys KeyLifecycle Worker Auth Cursor.

Local Open Scope Z_scope.

(** [From<BillingError> for DashboardError]. *)
Definition billing_failure (e : BillingError) : DashboardError :=
  (match e with
   | PartnerNotFound id => NotFound ("no partner with consumer_id " +:+ id)
   | PartnerExists id => BadRequest ("existing partner " +:+ id +:+ " cannot be created")
   | StatementNotPayable id _ => BadRequest ("statement " +:+ signed_dec_string id +:+ " carries no payment obligation")
   | Invalid msg => BadRequest msg
   | Statements.Database e => Cursor.Database e
   end)%string.

Definition from_billing {A} (r : result A BillingError) : result A DashboardError :=
  match r with Ok a => Ok a | Err e => Err (billing_failure e) end.

Definition DEFAULT_LIMIT : Z := 50.
Definition MAX_LIMIT : Z := 200.

Module StatementsQuery.
Record t : Type := mk {
  consumers : string;
  unpaid : bool;
  limit : Z;
  offset : Z }.

Definition default_query : t := mk "" false DEFAULT_LIMIT 0.

(** [i64::clamp] and [i64::max]. *)
Definition page (self : t) : Z * Z := (Z.min (Z.max (limit self) 0) MAX_LIMIT, Z.max (offset self) 0).
End StatementsQuery.

(** ** Views *)
Module StatementLineView.
Record t : Type := mk {
  model : string;
  input_per_million : string;
  cached_input_per_million : string;
  output_per_million : string;
  request_count : Z;
  input_tokens : Z;
  cached_input_tokens : Z;
  uncached_input_tokens : Z;
  output_tokens : Z;
  input_cost_micro_usd : Z;
  cached_input_cost_micro_usd : Z;
  output_cost_micro_usd : Z;
  total_cost_micro_usd : Z;
  total_cost : string }.

Definition from_row (line : StatementLine.t) : t :=
  let prices := StatementLine.prices line in
  mk (StatementLine.model line)
    (PricePerMillion.to_decimal_string (PricingSnapshot.input prices))
    (PricePerMillion.to_decimal_string (PricingSnapshot.cached_input prices))
    (PricePerMillion.to_decimal_string (PricingSnapshot.output prices))
    (StatementLine.request_count line) (StatementLine.input_tokens line) (StatementLine.cached_input_tokens line)
    (StatementLine.uncached_input_tokens line) (StatementLine.output_tokens line)
    (StatementLine.input_cost_micro_usd line) (StatementLine.cached_input_cost_micro_usd line)
    (StatementLine.output_cost_micro_usd line) (StatementLine.total_cost_micro_usd line)
    (MicroUsd.display (MicroUsd.from_i64 (StatementLine.total_cost_micro_usd line))).
End StatementLineView.

(** A field that is [None] is left out of the JSON where the source says so. *)
Module StatementView.
Record t : Type := mk {
  id : Z;
  consumer_id : string;
  billing_date : string;
  billing_mode : string;
  currency : string;
  period_start : string;
  period_end : string;
  billing_cutoff_at : string;
  total_amount_micro_usd : Z;
  total_amount : string;
  incomplete_usage_count : Z;
  has_incomplete_usage : bool;
  due_at : option string;
  paid_at : option string;
  outstanding : bool;
  can_suspend : bool;
  paid_by : option string;
  payment_reference : option string;
  payment_note : option string;
  email_sent_at : option string;
  email_attempts : option Z;
  email_last_error : option string;
  email_next_retry_at : option string;
  created_at : string;
  updated_at : string;
  lines : option (list StatementLineView.t) }.

(** [common] with the manager's fields and the lines; [common] itself leaves
    them all out. *)
Definition with_fields (statement : Z * Statement.t) (paid_by payment_reference payment_note email_sent_at : option string)
    (email_attempts : option Z) (email_last_error email_next_retry_at : option string)
    (lines : option (list StatementLineView.t)) : t :=
  let s := statement.2 in
  mk statement.1 (Statement.consumer_id s) (Statement.billing_date s) (Statement.billing_mode s) (Statement.currency s)
    (Statement.period_start s) (Statement.period_end s) (Statement.billing_cutoff_at s)
    (Statement.total_amount_micro_usd s) (MicroUsd.display (Statement.total s))
    (Statement.incomplete_usage_count s) (Statement.has_incomplete_usage s) (Statement.due_at s) (Statement.paid_at s)
    (Statement.is_outstanding s) (Statement.can_suspend s)
    paid_by payment_reference payment_note email_sent_at email_attempts email_last_error email_next_retry_at
    (Statement.created_at s) (Statement.updated_at s) lines.

Definition for_manager (statement : Z * Statement.t) (lines : option (list StatementLineView.t)) : t :=
  let s := statement.2 in
  with_fields statement (Statement.paid_by s) (Statement.payment_reference s) (Statement.payment_note s)
    (Statement.email_sent_at s) (Some (Statement.email_attempts s)) (Statement.email_last_error s)
    (Statement.email_next_retry_at s) lines.

Definition for_partner (statement : Z * Statement.t) (lines : option (list StatementLineView.t)) : t :=
  with_fields statement None None None None None None None lines.
End StatementView.

Module StatementList.
Record t : Type := mk {
  statements : list StatementView.t;
  total : Z;
  limit : Z;
  offset : Z;
  unpaid_count : Z;
  unpaid_total_micro_usd : Z;
  unpaid_total : string }.
End StatementList.

Module SuspensionReasonView.
Record t : Type := mk {
  code : string;
  statement_id : Z;
  billing_date : string;
  due_at : string;
  amount_micro_usd : Z;
  amount : string }.
End SuspensionReasonView.

Module ServiceStatusView.
Record t : Type := mk {
  consumer_id : string;
  status : string;
  suspended : bool;
  message : option string;
  reason : option SuspensionReasonView.t;
  overdue_statements : Z;
  overdue_amount_micro_usd : Z;
  overdue_amount : string }.
End ServiceStatusView.

(** ** Handlers *)
Section Handlers.
Context `{TimeCrate}.

(** Both views of one row. *)
Definition view_for (consumer : ConsumerContext.t) (statement : Z * Statement.t)
    (lines : option (list StatementLineView.t)) : StatementView.t :=
  if ConsumerContext.is_manager consumer then StatementView.for_manager statement lines
  else StatementView.for_partner statement lines.

Definition list_statements (db : StoreDb) (consumer : ConsumerContext.t) (query : StatementsQuery.t)
    : result StatementList.t DashboardError :=
  let scope := resolve_scope consumer (StatementsQuery.consumers query) in
  let '(limit, offset) := StatementsQuery.page query in
  let rows := PartnerStore.list_statements db scope limit offset (StatementsQuery.unpaid query) in
  let total := count_statements db scope in
  let? (unpaid_count, unpaid_total) := from_billing (outstanding_totals db scope) in
  Ok (StatementList.mk ((λ s, view_for consumer s None) <$> rows) total limit offset unpaid_count
        (MicroUsd.as_i64 unpaid_total) (MicroUsd.display unpaid_total)).

Definition get_statement (db : StoreDb) (consumer : ConsumerContext.t) (id : Z) (query : StatementsQuery.t)
    : result StatementView.t DashboardError :=
  let scope := resolve_scope consumer (StatementsQuery.consumers query) in
  match get_statement_by_id db id scope with
  | None => Err (NotFound "no statement with that id")
  | Some statement =>
      let lines := (λ l, StatementLineView.from_row l.2) <$> statement_lines_for db id scope in
      Ok (view_for consumer (id, statement) (Some lines))
  end.

Definition statement_scope (consumer : ConsumerContext.t) (consumers : string) : Scope.t := resolve_scope consumer consumers.

Definition reason_view (reason : SuspensionReason) : SuspensionReasonView.t :=
  let 'InvoiceOverdue overdue := reason in
  SuspensionReasonView.mk "invoice_overdue" (OverdueStatement.id overdue) (OverdueStatement.billing_date overdue)
    (format_ts (OverdueStatement.due_at overdue)) (MicroUsd.as_i64 (OverdueStatement.amount overdue))
    (MicroUsd.display (OverdueStatement.amount overdue)).

(** An amount that does not fit is left out of the sum. *)
Definition add_overdue (sum : MicroUsd.t) (row : OverdueRow.t) : MicroUsd.t :=
  default sum (MicroUsd.checked_add sum (MicroUsd.from_i64 (OverdueRow.total_amount_micro_usd row))).

Definition view_status (consumer_id : string) (status : ServiceStatus) (rows : list OverdueRow.t) : ServiceStatusView.t :=
  let overdue_amount := foldl add_overdue MicroUsd.ZERO rows in
  ServiceStatusView.mk consumer_id (if is_suspended status then "suspended" else "active") (is_suspended status)
    (suspension_message status) (reason_view <$> suspension_reason status)
    (Z.of_nat (length rows)) (MicroUsd.as_i64 overdue_amount) (MicroUsd.display overdue_amount).

Definition partners_in_scope (db : StoreDb) (scope : Scope.t) : list Partner.t :=
  match scope with
  | Scope.One id => option_list (get_partner db id)
  | Scope.List ids => filter (λ p, Partner.consumer_id p ∈ ids) (list_partners (billing db))
  | Scope.All => list_partners (billing db)
  end.

Definition overdue_for (scope : Scope.t) : option string := match scope with Scope.One id => Some id | _ => None end.

(** [overdue.entry(consumer_id).or_default().push(row)] per statement. *)
Definition group_overdue (rows : list (Z * Statement.t)) : gmap string (list OverdueRow.t) :=
  foldl (λ m p, <[Statement.consumer_id p.2 := default [] (m !! Statement.consumer_id p.2) ++ [Statement.to_overdue_row p.1 p.2]]> m)
    ∅ rows.

Fixpoint partner_statuses (now : OffsetDateTime) (overdue : gmap string (list OverdueRow.t)) (partners : list Partner.t)
    : list ServiceStatusView.t :=
  match partners with
  | [] => []
  | partner :: rest =>
      let consumer_id := Partner.consumer_id partner in
      let rows := default [] (overdue !! consumer_id) in
      let status := status_for (BillingMode.as_str (Partner.billing_mode partner)) now rows in
      view_status consumer_id status rows :: partner_statuses now (delete consumer_id overdue) rest
  end.

(** [clock] is the reading [overdue_statements] takes for itself. *)
Definition statuses_in_scope (db : StoreDb) (scope : Scope.t) (now : OffsetDateTime) (clock : string)
    : list ServiceStatusView.t :=
  partner_statuses now (group_overdue (overdue_statements (billing db) clock (overdue_for scope))) (partners_in_scope db scope).

Definition get_status (db : StoreDb) (consumer : ConsumerContext.t) (query : StatementsQuery.t) (now : OffsetDateTime)
    (clock : string) : result (list ServiceStatusView.t) DashboardError :=
  Ok (statuses_in_scope db (resolve_scope consumer (StatementsQuery.consumers query)) now clock).
End Handlers.

(** ** Orders *)

(** First by a key, then by another order. *)
Definition lex_le {A K} (lt : K → K → bool) (key : A → K) (R : A → A → Prop) (a b : A) : Prop :=
  lt (key a) (key b) = true ∨ (key a = key b ∧ R a b).

Record strict_order {K} (lt : K → K → bool) : Prop := {
  so_irrefl x : lt x x = false;
  so_trans x y z : lt x y = true → lt y z = true → lt x z = true;
  so_total x y : lt x y = false → lt y x = false → x = y }.

Lemma str_order : strict_order str_ltb.
Proof. split; [apply str_ltb_irrefl | apply str_ltb_trans | apply str_ltb_total]. Qed.

Lemma str_order_desc : strict_order (λ a b, str_ltb b a).
Proof.
  split; [apply str_ltb_irrefl | intros x y z H1 H2; by eapply str_ltb_trans | intros x y H1 H2; by apply str_ltb_total].
Qed.

Lemma text_order : strict_order text_lt.
Proof.
  split.
  - intros [x|]; [apply str_ltb_irrefl | done].
  - intros [x|] [y|] [z|]; cbn; try done. apply str_ltb_trans.
  - intros [x|] [y|]; cbn; try done. intros H1 H2. f_equal. by apply str_ltb_total.
Qed.

Lemma strict_asym {K} (lt : K → K → bool) x y : strict_order lt → lt x y = true → lt y x = false.
Proof.
  intros Ho Hxy. apply not_true_iff_false. intros Hyx. pose proof (so_trans _ Ho _ _ _ Hxy Hyx) as E.
  by rewrite (so_irrefl _ Ho) in E.
Qed.

Section Lex.
Context {A K : Type} (lt : K → K → bool) (key : A → K) (R : A → A → Prop).

Lemma lex_total : strict_order lt → Total R → Total (lex_le lt key R).
Proof.
  intros Ho Ht a b. unfold lex_le. destruct (lt (key a) (key b)) eqn:E1; [by left; left |].
  destruct (lt (key b) (key a)) eqn:E2; [by right; left |]. pose proof (so_total _ Ho _ _ E1 E2) as E.
  destruct (Ht a b); [left | right]; right; by split.
Qed.

Lemma lex_trans : strict_order lt → Transitive R → Transitive (lex_le lt key R).
Proof.
  intros Ho Ht a b c [H1|[E1 H1]] [H2|[E2 H2]].
  - left. by eapply so_trans.
  - left. by rewrite <- E2.
  - left. by rewrite E1.
  - right. split; [congruence | by eapply Ht].
Qed.

Lemma lex_antisym a b : strict_order lt → (R a b → R b a → a = b) → lex_le lt key R a b → lex_le lt key R b a → a = b.
Proof.
  intros Ho Ha [H1|[E1 H1]] [H2|[E2 H2]].
  - pose proof (strict_asym _ _ _ Ho H1). congruence.
  - rewrite E2, (so_irrefl _ Ho) in H1. done.
  - rewrite E1, (so_irrefl _ Ho) in H2. done.
  - by apply Ha.
Qed.
End Lex.

Definition id_le {A} (a b : Z * A) : Prop := a.1 ≤ b.1.
Definition id_ge {A} (a b : Z * A) : Prop := b.1 ≤ a.1.

#[global] Instance id_le_total {A} : Total (id_le (A := A)).
Proof. intros a b. unfold id_le. lia. Qed.
#[global] Instance id_le_trans {A} : Transitive (id_le (A := A)).
Proof. intros a b c. unfold id_le. lia. Qed.
#[global] Instance id_ge_total {A} : Total (id_ge (A := A)).
Proof. intros a b. unfold id_ge. lia. Qed.
#[global] Instance id_ge_trans {A} : Transitive (id_ge (A := A)).
Proof. intros a b c. unfold id_ge. lia. Qed.

(** The three orders of the statement queries are of this kind. *)
Lemma newest_le_lex a b : newest_le a b ↔ lex_le (λ x y, str_ltb y x) (λ p, Statement.billing_date p.2) id_ge a b.
Proof. done. Qed.

Lemma unpaid_le_lex a b :
  unpaid_le a b ↔ lex_le text_lt (λ p, Statement.due_at p.2) (lex_le str_ltb (λ p, Statement.consumer_id p.2) id_le) a b.
Proof. done. Qed.

Lemma due_le_lex a b : due_le a b ↔ lex_le text_lt (λ p, Statement.due_at p.2) id_le a b.
Proof.
  unfold due_le, lex_le, id_le. split; [| intros [?|[E ?]]; [by left | right; rewrite E, (so_irrefl _ text_order); done]].
  intros [?|[Hn Hi]]; [by left |]. destruct (text_lt (Statement.due_at a.2) (Statement.due_at b.2)) eqn:E; [by left |].
  right. split; [by apply (so_total _ text_order) | done].
Qed.

(** Orders on rows that tell rows apart by their ids. *)
Class RowOrder {A} (R : Z * A → Z * A → Prop) : Prop := {
  row_total :: Total R;
  row_trans :: Transitive R;
  row_antisym a b : R a b → R b a → a.1 = b.1 }.

Lemma row_order_of_lex {A K} (lt : K → K → bool) (key : Z * A → K) (R S : Z * A → Z * A → Prop) :
  strict_order lt → RowOrder R → (∀ a b, S a b ↔ lex_le lt key R a b) → RowOrder S.
Proof.
  intros Ho Hr HS. split.
  - intros a b. rewrite !HS. by apply lex_total; [| apply Hr].
  - intros a b c. rewrite !HS. by apply lex_trans; [| apply Hr].
  - intros a b. rewrite !HS. intros [H1|[E1 H1]] [H2|[E2 H2]].
    + pose proof (strict_asym _ _ _ Ho H1). congruence.
    + rewrite E2, (so_irrefl _ Ho) in H1. done.
    + rewrite E1, (so_irrefl _ Ho) in H2. done.
    + by apply (row_antisym (R := R)).
Qed.

#[global] Instance id_le_rows {A} : RowOrder (id_le (A := A)).
Proof. split; [apply _.. |]. unfold id_le. lia. Qed.
#[global] Instance id_ge_rows {A} : RowOrder (id_ge (A := A)).
Proof. split; [apply _.. |]. unfold id_ge. lia. Qed.
#[global] Instance newest_le_rows : RowOrder newest_le.
Proof. eapply row_order_of_lex; [apply str_order_desc | apply id_ge_rows | apply newest_le_lex]. Qed.
#[global] Instance unpaid_le_rows : RowOrder unpaid_le.
Proof.
  eapply row_order_of_lex; [apply text_order | | apply unpaid_le_lex].
  eapply (row_order_of_lex str_ltb); [apply str_order | apply id_le_rows | done].
Qed.
#[global] Instance due_le_rows : RowOrder due_le.
Proof. eapply row_order_of_lex; [apply text_order | apply id_le_rows | apply due_le_lex]. Qed.

(** Sorting rows of a table: the result depends on the set of rows only, and
    commutes with a filter. *)
Section SortRows.
Context {A : Type} (R : Z * A → Z * A → Prop) `{Hr : !RowOrder R} `{∀ a b, Decision (R a b)}.

(** A row's id tells what the row is. *)
Definition functional (l : list (Z * A)) : Prop := ∀ i x y, (i, x) ∈ l → (i, y) ∈ l → x = y.

Lemma sorted_rows_unique (l l' : list (Z * A)) :
  functional l → StronglySorted R l → StronglySorted R l' → l ≡ₚ l' → l = l'.
Proof.
  intros Hf Hs Hs' Hp. eapply (StronglySorted_unique_strong R); try done.
  intros [i x] [j y] Ha Hb Hab Hba. pose proof (row_antisym (R := R) _ _ Hab Hba) as E. cbn in E. subst j. f_equal.
  eapply Hf; [done |]. by rewrite Hp.
Qed.

Lemma sort_rows_perm (l l' : list (Z * A)) : functional l → l ≡ₚ l' → merge_sort R l = merge_sort R l'.
Proof.
  intros Hf Hp. apply sorted_rows_unique; [| apply (StronglySorted_merge_sort R).. |].
  - intros i x y. rewrite merge_sort_Permutation. apply Hf.
  - by rewrite !merge_sort_Permutation.
Qed.

Lemma sorted_filter (P : Z * A → Prop) `{∀ x, Decision (P x)} l : StronglySorted R l → StronglySorted R (filter P l).
Proof.
  induction 1 as [|x l Hs IH Hall]; [constructor |]. rewrite filter_cons. destruct (decide (P x)); [| done].
  constructor; [done |]. rewrite Forall_forall in Hall |- *. intros y [_ Hy]%list_elem_of_filter. by apply Hall.
Qed.

Lemma filter_sort_rows (P : Z * A → Prop) `{∀ x, Decision (P x)} l :
  functional l → filter P (merge_sort R l) = merge_sort R (filter P l).
Proof.
  intros Hf. apply sorted_rows_unique.
  - intros i x y. rewrite !list_elem_of_filter, merge_sort_Permutation. intros [_ ?] [_ ?]. by apply (Hf i).
  - apply sorted_filter. apply (StronglySorted_merge_sort R).
  - apply (StronglySorted_merge_sort R).
  - by rewrite !merge_sort_Permutation.
Qed.
End SortRows.

Lemma functional_map {A} (m : gmap Z A) (P : Z * A → Prop) `{∀ x, Decision (P x)} : functional (filter P (map_to_list m)).
Proof. intros i x y. rewrite !list_elem_of_filter, !elem_of_map_to_list. intros [_ ?] [_ ?]. congruence. Qed.

(** Two tables with the same rows of a kind. *)
Lemma filter_rows_perm {A} (m m' : gmap Z A) (P : Z * A → Prop) `{∀ x, Decision (P x)} :
  (∀ i x, P (i, x) → m !! i = Some x ↔ m' !! i = Some x) → filter P (map_to_list m) ≡ₚ filter P (map_to_list m').
Proof.
  intros Hm. apply NoDup_Permutation; [apply NoDup_filter, NoDup_map_to_list.. |].
  intros [i x]. rewrite !list_elem_of_filter, !elem_of_map_to_list. split; intros [Hp Hx]; (split; [done |]); by apply (Hm i x Hp).
Qed.

(** ** The status list *)
Section Status.
Context `{TimeCrate}.

Lemma group_overdue_lookup rows c :
  default [] (group_overdue rows !! c)
  = (λ p, Statement.to_overdue_row p.1 p.2) <$> filter (λ p, Statement.consumer_id p.2 = c) rows.
Proof.
  unfold group_overdue.
  assert (∀ m : gmap string (list OverdueRow.t),
    default [] (foldl (λ m p, <[Statement.consumer_id p.2 := default [] (m !! Statement.consumer_id p.2)
                                  ++ [Statement.to_overdue_row p.1 p.2]]> m) m rows !! c)
    = default [] (m !! c) ++ ((λ p, Statement.to_overdue_row p.1 p.2) <$> filter (λ p, Statement.consumer_id p.2 = c) rows)) as Hall.
  { induction rows as [|p rows IH]; intros m; cbn [foldl]; [by rewrite app_nil_r |]. rewrite IH, filter_cons.
    destruct (decide (Statement.consumer_id p.2 = c)) as [<-|Hne].
    - rewrite lookup_insert_eq. cbn. by rewrite <- app_assoc.
    - by rewrite lookup_insert_ne. }
  rewrite Hall. by rewrite lookup_empty.
Qed.

(** What a partner's own overdue rows make of its status. *)
Definition own_status (now : OffsetDateTime) (clock : string) (db : BillingDb) (partner : Partner.t) : ServiceStatusView.t :=
  let rows := (λ p, Statement.to_overdue_row p.1 p.2) <$> overdue_statements db clock (Some (Partner.consumer_id partner)) in
  view_status (Partner.consumer_id partner) (status_for (BillingMode.as_str (Partner.billing_mode partner)) now rows) rows.

Lemma partner_statuses_spec now overdue partners :
  NoDup (Partner.consumer_id <$> partners) →
  partner_statuses now overdue partners
  = (λ p, let rows := default [] (overdue !! Partner.consumer_id p) in
          view_status (Partner.consumer_id p) (status_for (BillingMode.as_str (Partner.billing_mode p)) now rows) rows) <$> partners.
Proof.
  revert overdue. induction partners as [|p partners IH]; intros overdue Hnd; [done |].
  cbn [fmap list_fmap] in Hnd |- *. apply NoDup_cons in Hnd as [Hni Hnd]. cbn [partner_statuses]. f_equal. rewrite IH by done.
  apply list_fmap_ext. intros i q Hq. rewrite lookup_delete_ne; [done |]. intros E. apply Hni. rewrite E.
  by eapply list_elem_of_fmap_2, list_elem_of_lookup_2.
Qed.

Lemma overdue_of_consumer db clock c :
  filter (λ p, Statement.consumer_id p.2 = c) (overdue_statements db clock None) = overdue_statements db clock (Some c).
Proof.
  unfold overdue_statements. rewrite (filter_sort_rows due_le) by apply functional_map. f_equal. rewrite list_filter_filter.
  apply list_filter_iff. intros [i s]. unfold overdue. cbn [fst snd]. rewrite !andb_true_iff, !String.eqb_eq. intuition.
Qed.

Lemma partners_keyed_wf db : store_wf db → partners_keyed (billing db).
Proof. intros Hwf c p Hp. by apply (wf_partner _ Hwf) in Hp as [? _]. Qed.

Lemma partners_in_scope_nodup db scope : store_wf db → NoDup (Partner.consumer_id <$> partners_in_scope db scope).
Proof.
  intros Hwf. destruct (list_partners_spec _ (partners_keyed_wf _ Hwf)) as [Hnd _]. destruct scope as [id|ids|]; cbn.
  - destruct (get_partner db id); cbn; [apply NoDup_singleton | constructor].
  - eapply sublist_NoDup; [exact Hnd | apply fmap_sublist, sublist_filter].
  - done.
Qed.

Lemma list_partners_elem db p : store_wf db → p ∈ list_partners (billing db) ↔ partner_rows db !! Partner.consumer_id p = Some p.
Proof.
  intros Hwf. split; [| by apply (list_partners_spec _ (partners_keyed_wf _ Hwf))].
  unfold list_partners. intros (c & _ & Hc)%list_elem_of_omap. by rewrite (partners_keyed_wf _ Hwf c p Hc).
Qed.

Lemma partners_in_scope_elem db scope p :
  store_wf db →
  p ∈ partners_in_scope db scope ↔
    partner_rows db !! Partner.consumer_id p = Some p ∧ Scope.admits scope (Partner.consumer_id p) = true.
Proof.
  intros Hwf. destruct scope as [id|ids|]; cbn [partners_in_scope Scope.admits].
  - rewrite String.eqb_eq. unfold get_partner. split.
    + destruct (partner_rows db !! id) as [q|] eqn:E; cbn; [| by intros ?%elem_of_nil].
      intros ->%list_elem_of_singleton. by destruct (wf_partner _ Hwf _ _ E) as [-> _].
    + intros [Hp <-]. rewrite Hp. by left.
  - rewrite list_elem_of_filter, list_partners_elem, bool_decide_eq_true by done. tauto.
  - rewrite list_partners_elem by done. tauto.
Qed.

(** Every entry is what the partner's own rows make of it, however wide the
    read was. *)
Lemma statuses_in_scope_spec db scope now clock :
  store_wf db →
  statuses_in_scope db scope now clock = own_status now clock (billing db) <$> partners_in_scope db scope.
Proof.
  intros Hwf. unfold statuses_in_scope. rewrite partner_statuses_spec by (by apply partners_in_scope_nodup).
  apply list_fmap_ext. intros i p Hp. apply list_elem_of_lookup_2 in Hp.
  apply (partners_in_scope_elem _ _ _ Hwf) in Hp as [_ Hs]. unfold own_status. rewrite group_overdue_lookup.
  assert (filter (λ q, Statement.consumer_id q.2 = Partner.consumer_id p) (overdue_statements (billing db) clock (overdue_for scope))
    = overdue_statements (billing db) clock (Some (Partner.consumer_id p))) as -> by
    (destruct scope as [id|ids|]; cbn [overdue_for];
     [ apply String.eqb_eq in Hs as ->; rewrite <- (overdue_of_consumer _ _ id), list_filter_filter; apply list_filter_iff; tauto
     | apply overdue_of_consumer.. ]).
  done.
Qed.
End Status.

(** Rows under their positions. *)
Section Positions.
Context {A : Type}.
Implicit Types l : list A.

Lemma imap_pair_elem l n x : (n, x) ∈ imap pair l ↔ l !! n = Some x.
Proof.
  rewrite list_elem_of_lookup. setoid_rewrite list_lookup_imap_Some. split.
  - by intros (i & y & Hy & [= -> ->]).
  - intros Hx. by exists n, x.
Qed.

Definition before (a b : nat * A) : Prop := (a.1 < b.1)%nat.

Lemma imap_pair_sorted l : StronglySorted before (imap pair l).
Proof.
  assert (∀ k, StronglySorted before (imap (λ n, pair (k + n)%nat) l)) as Hall.
  { induction l as [|x l IH]; intros k; [constructor |]. cbn. constructor.
    - specialize (IH (S k)). erewrite imap_ext; [exact IH |]. intros i y _. cbn. f_equal. lia.
    - rewrite Forall_forall. intros [n y] (i & Hi)%list_elem_of_lookup.
      apply list_lookup_imap_Some in Hi as (z & _ & [= -> ->]). unfold before. cbn. lia. }
  apply (Hall 0%nat).
Qed.

Lemma positions_same l l' (P : nat * A → Prop) `{∀ x, Decision (P x)} :
  (∀ n x, P (n, x) → l !! n = Some x ↔ l' !! n = Some x) → filter P (imap pair l) = filter P (imap pair l').
Proof.
  intros Hl.
  assert (∀ k, StronglySorted before k → StronglySorted before (filter P k)) as Hf.
  { induction 1 as [|x k Hs IH Hall]; [constructor |]. rewrite filter_cons. destruct (decide (P x)); [| done].
    constructor; [done |]. rewrite Forall_forall in Hall |- *. intros y [_ Hy]%list_elem_of_filter. by apply Hall. }
  assert (∀ k : list A, NoDup (filter P (imap pair k))) as Hnd.
  { intros k. apply NoDup_filter. pose proof (imap_pair_sorted k) as Hs. induction Hs as [|x m Hs IH Hall]; constructor; [| done].
    intros Hx. rewrite Forall_forall in Hall. specialize (Hall x Hx). unfold before in Hall. lia. }
  apply (StronglySorted_unique_strong before).
  - intros a b _ _ Hab Hba. unfold before in *. lia.
  - apply Hf, imap_pair_sorted.
  - apply Hf, imap_pair_sorted.
  - apply NoDup_Permutation; [apply Hnd.. |]. intros [n x]. rewrite !list_elem_of_filter, !imap_pair_elem.
    split; intros [Hp Hx]; (split; [done |]); by apply (Hl n x Hp).
Qed.
End Positions.

(** ** What a credential sees *)

Lemma sql_sum_perm l l' : l ≡ₚ l' → sql_sum l = sql_sum l'.
Proof.
  intros Hp. assert (omap id l ≡ₚ omap id l') as Ho by by rewrite Hp. unfold sql_sum.
  assert (foldr Z.add 0 (omap id l) = foldr Z.add 0 (omap id l')) as E by by apply zsum_perm.
  destruct (omap id l) as [|x xs]; [by apply Permutation_nil_l in Ho as <- |].
  destruct (omap id l') as [|y ys]; [by apply Permutation_nil_r in Ho |]. by rewrite E.
Qed.

(** Two databases that hold the same rows of one consumer, whatever else is in
    them. A line's position stands for its id. *)
Record same_bills (c : string) (db db' : StoreDb) : Prop := {
  sb_partner : partner_rows db !! c = partner_rows db' !! c;
  sb_statements i s : Statement.consumer_id s = c →
    daily_statements (billing db) !! i = Some s ↔ daily_statements (billing db') !! i = Some s;
  sb_lines n l s : daily_statements (billing db) !! StatementLine.statement_id l = Some s → Statement.consumer_id s = c →
    statement_lines (billing db) !! n = Some l ↔ statement_lines (billing db') !! n = Some l }.

Section Private.
Context `{TimeCrate} (c : string) (db db' : StoreDb) (Hsame : same_bills c db db').
Variables (scope : Scope.t) (Hscope : ∀ x, Scope.admits scope x = true → x = c).

Lemma in_scope_own s : in_scope scope s = true → Statement.consumer_id s = c.
Proof. rewrite in_scope_admits. apply Hscope. Qed.

Lemma statement_rows_same (P : Z * Statement.t → Prop) `{∀ p, Decision (P p)} :
  (∀ p, P p → in_scope scope p.2 = true) → filter P (statement_rows db) ≡ₚ filter P (statement_rows db').
Proof.
  intros HP. apply filter_rows_perm. intros i s Hp. by apply (sb_statements _ _ _ Hsame), in_scope_own, (HP (i, s)).
Qed.

Lemma list_statements_same limit offset only_unpaid :
  PartnerStore.list_statements db scope limit offset only_unpaid = PartnerStore.list_statements db' scope limit offset only_unpaid.
Proof.
  unfold PartnerStore.list_statements. f_equal. destruct only_unpaid.
  - apply (sort_rows_perm unpaid_le); [apply functional_map |]. apply statement_rows_same. intros p. rewrite andb_true_iff. tauto.
  - apply (sort_rows_perm newest_le); [apply functional_map |]. by apply statement_rows_same.
Qed.

Lemma count_statements_same : count_statements db scope = count_statements db' scope.
Proof. unfold count_statements. f_equal. apply Permutation_length. by apply statement_rows_same. Qed.

Lemma outstanding_totals_same : outstanding_totals db scope = outstanding_totals db' scope.
Proof.
  unfold outstanding_totals.
  assert (filter (λ p, in_scope scope p.2 && unpaid_invoice p.2 = true) (statement_rows db)
    ≡ₚ filter (λ p, in_scope scope p.2 && unpaid_invoice p.2 = true) (statement_rows db')) as Hp
    by (apply statement_rows_same; intros p; rewrite andb_true_iff; tauto).
  rewrite (sql_sum_perm _ _ (fmap_Permutation _ _ _ Hp)). by rewrite (Permutation_length Hp).
Qed.

Lemma get_statement_by_id_same i : get_statement_by_id db i scope = get_statement_by_id db' i scope.
Proof.
  apply option_eq. intros s.
  destruct (scoped_reads_isolated db scope i 0 0 false) as [-> _], (scoped_reads_isolated db' scope i 0 0 false) as [-> _].
  split; intros [Hs Ha]; (split; [| done]); by apply (sb_statements _ _ _ Hsame i s (Hscope _ Ha)).
Qed.

Lemma statement_lines_same i : statement_lines_for db i scope = statement_lines_for db' i scope.
Proof.
  unfold statement_lines_for. f_equal.
  assert (∀ l s, daily_statements (billing db) !! StatementLine.statement_id l = Some s ∧ in_scope scope s = true
    ↔ daily_statements (billing db') !! StatementLine.statement_id l = Some s ∧ in_scope scope s = true) as Hd.
  { intros l s. split; intros [Hs Hi]; (split; [| done]); by apply (sb_statements _ _ _ Hsame _ s (in_scope_own _ Hi)). }
  assert (∀ l, scoped_line db i scope l = scoped_line db' i scope l) as He.
  { intros l. unfold scoped_line. f_equal. specialize (Hd l).
    destruct (daily_statements (billing db) !! _) as [s|] eqn:E1, (daily_statements (billing db') !! _) as [s'|] eqn:E2; [| | | done].
    - destruct (in_scope scope s) eqn:F1; [pose proof (proj1 (Hd s) (conj eq_refl F1)) as [[= ->] ?]; by rewrite F1 |].
      destruct (in_scope scope s') eqn:F2; [| done]. pose proof (proj2 (Hd s') (conj eq_refl F2)) as [[= ->] ?]. congruence.
    - apply not_true_iff_false. intros F. by destruct (proj1 (Hd s) (conj eq_refl F)).
    - symmetry. apply not_true_iff_false. intros F. by destruct (proj2 (Hd s') (conj eq_refl F)). }
  transitivity (filter (λ p, scoped_line db i scope p.2 = true) (imap pair (statement_lines (billing db')))).
  - apply positions_same. intros n l Hl. cbn in Hl. unfold scoped_line in Hl. apply andb_true_iff in Hl as [_ Hl].
    destruct (daily_statements (billing db) !! _) as [s|] eqn:E; [| done].
    by apply (sb_lines _ _ _ Hsame n l s E), in_scope_own.
  - apply list_filter_iff. intros p. by rewrite He.
Qed.

Lemma overdue_statements_same clock : overdue_statements (billing db) clock (Some c) = overdue_statements (billing db') clock (Some c).
Proof.
  unfold overdue_statements. apply (sort_rows_perm due_le); [apply functional_map |]. apply filter_rows_perm.
  intros i s Ho. apply (sb_statements _ _ _ Hsame). unfold overdue in Ho. rewrite !andb_true_iff, !String.eqb_eq in Ho. tauto.
Qed.
End Private.

Section Answers.
Context `{TimeCrate}.

(** Nothing of how the account is operated. *)
Definition commercial_only (v : StatementView.t) : Prop :=
  StatementView.paid_by v = None ∧ StatementView.payment_reference v = None ∧ StatementView.payment_note v = None
  ∧ StatementView.email_sent_at v = None ∧ StatementView.email_attempts v = None
  ∧ StatementView.email_last_error v = None ∧ StatementView.email_next_retry_at v = None.

Lemma view_for_partner consumer p lines :
  ConsumerContext.is_manager consumer = false →
  StatementView.consumer_id (view_for consumer p lines) = Statement.consumer_id p.2 ∧ commercial_only (view_for consumer p lines).
Proof. intros Hm. unfold view_for. rewrite Hm. split_and!; done. Qed.

Lemma partner_scope consumer consumers :
  ConsumerContext.is_manager consumer = false →
  resolve_scope consumer consumers = Scope.One (ConsumerContext.consumer_id consumer).
Proof. intros Hm. unfold resolve_scope. by rewrite Hm. Qed.

(** C31. A partner reads its own bills and nothing else. On two databases that hold
    the same rows of the partner, whatever else they hold, the page of
    statements, a statement by its id and the service status are the same
    answers; every statement shown is the partner's, without the payment's and
    the mail's bookkeeping; and the id of another partner's statement is
    answered exactly as an id that does not exist. *)
Theorem statements_are_private (consumer : ConsumerContext.t) (query : StatementsQuery.t) (id : Z)
    (now : OffsetDateTime) (clock : string) (db db' : StoreDb)
    (Hpartner : ConsumerContext.is_manager consumer = false) (Hwf : store_wf db) (Hwf' : store_wf db')
    (Hsame : same_bills (ConsumerContext.consumer_id consumer) db db') :
  list_statements db consumer query = list_statements db' consumer query
  ∧ get_statement db consumer id query = get_statement db' consumer id query
  ∧ get_status db consumer query now clock = get_status db' consumer query now clock
  ∧ (∀ v, get_statement db consumer id query = Ok v →
       StatementView.consumer_id v = ConsumerContext.consumer_id consumer ∧ commercial_only v)
  ∧ (∀ l v, list_statements db consumer query = Ok l → v ∈ StatementList.statements l →
       StatementView.consumer_id v = ConsumerContext.consumer_id consumer ∧ commercial_only v)
  ∧ ((∀ s, daily_statements (billing db) !! id = Some s → Statement.consumer_id s ≠ ConsumerContext.consumer_id consumer) →
       get_statement db consumer id query = Err (NotFound "no statement with that id")).
Proof.
  set (c := ConsumerContext.consumer_id consumer) in *.
  assert (∀ x, Scope.admits (Scope.One c) x = true → x = c) as Hscope by (intros x Hx; by apply String.eqb_eq).
  unfold list_statements, get_statement, get_status. rewrite !partner_scope by done. fold c. split_and!.
  - destruct (StatementsQuery.page query) as [limit offset].
    by rewrite (list_statements_same c db db' Hsame _ Hscope), (count_statements_same c db db' Hsame _ Hscope),
      (outstanding_totals_same c db db' Hsame _ Hscope).
  - by rewrite (get_statement_by_id_same c db db' Hsame _ Hscope), (statement_lines_same c db db' Hsame _ Hscope).
  - rewrite !statuses_in_scope_spec by done. cbn [partners_in_scope]. unfold get_partner. rewrite (sb_partner _ _ _ Hsame).
    destruct (partner_rows db' !! c) as [p|] eqn:Ep; [| done]. cbn. destruct (wf_partner _ Hwf' _ _ Ep) as [Hc _].
    unfold own_status. by rewrite Hc, (overdue_statements_same c db db' Hsame).
  - intros v. destruct (get_statement_by_id db id (Scope.One c)) as [s|] eqn:E; [| done]. intros [= <-].
    apply (scoped_reads_isolated db (Scope.One c) id 0 0 false) in E as [_ Ha%Hscope].
    rewrite <- Ha. by apply view_for_partner.
  - intros l v. destruct (StatementsQuery.page query) as [limit offset].
    destruct (from_billing _) as [[n t]|]; [| done]. cbn. intros [= <-]. cbn. intros (p & -> & Hp)%list_elem_of_fmap.
    apply list_statements_elem in Hp as [_ Hl]. unfold listed in Hl. apply andb_true_iff in Hl as [Hi _].
    rewrite in_scope_admits in Hi. rewrite <- (Hscope _ Hi). by apply view_for_partner.
  - intros Hother. destruct (get_statement_by_id db id (Scope.One c)) as [s|] eqn:E; [| done].
    apply (scoped_reads_isolated db (Scope.One c) id 0 0 false) in E as [Hs Ha%Hscope]. by destruct (Hother s Hs).
Qed.

End Answers.

Section RequestPath.
Context `{TimeLaws, Digests}.

(** *** The status of a partner, read twice *)

Lemma filter_fmap_rows {A B} (f : A → B) (P : B → Prop) `{∀ x, Decision (P x)} (l : list A) :
  filter P (f <$> l) = f <$> filter (λ x, P (f x)) l.
Proof. induction l as [|x l IH]; [done |]. rewrite fmap_cons, !filter_cons. destruct (decide _); cbn; by rewrite IH. Qed.

(** The overdue rows that can be enforced, in the order of the status list, are
    those the snapshot's query orders. *)
Lemma enforceable_rows db now c :
  filter (λ q, Statement.incomplete_usage_count q.2 = 0 ∧ 0 < Statement.total_amount_micro_usd q.2)
    (overdue_statements (billing db) now (Some c))
  = merge_sort due_le (filter (λ q, overdue_invoice c now q.2 = true) (statement_rows db)).
Proof.
  unfold overdue_statements, statement_rows. rewrite (filter_sort_rows due_le) by apply functional_map. f_equal.
  rewrite list_filter_filter. apply list_filter_iff. intros [i s]. unfold overdue, overdue_invoice. cbn [fst snd].
  rewrite !andb_true_iff, !String.eqb_eq, Z.eqb_eq, Z.ltb_lt. intuition.
Qed.

Lemma oldest_is_unpaid db now c i s :
  map_Forall (λ _ s, statement_stored s) (daily_statements (billing db)) → ledger_instant now →
  oldest_overdue db c (format_ts now) = Some (i, s) →
  daily_statements (billing db) !! i = Some s ∧ unpaid_past_due c now s.
Proof.
  intros Hstored Hnow [Hs Ho]%oldest_overdue_Some. split; [done |].
  apply (overdue_invoice_spec db now c i s); [| done..].
  intros j x d Hx Ed. destruct (Hstored j x Hx) as [_ H']. by apply H'.
Qed.

(** The one row the snapshot takes gives the status that all of them give. *)
Lemma status_of_rows db now c mode :
  map_Forall (λ _ s, statement_stored s) (daily_statements (billing db)) → ledger_instant now →
  status_for mode now ((λ q, Statement.to_overdue_row q.1 q.2) <$> overdue_statements (billing db) (format_ts now) (Some c))
  = status_for mode now (option_list (overdue_row <$> oldest_overdue db c (format_ts now))).
Proof.
  intros Hstored Hnow. unfold status_for. destruct (negb _); [done |]. f_equal.
  rewrite filter_fmap_rows. cbn [OverdueRow.incomplete_usage_count OverdueRow.total_amount_micro_usd Statement.to_overdue_row].
  rewrite enforceable_rows. destruct (oldest_overdue db c (format_ts now)) as [[i s]|] eqn:Eo.
  - destruct (oldest_is_unpaid db now c i s Hstored Hnow Eo) as [Hs (_ & _ & _ & Hi & Ht & due & Hdue & Hld & Hle)].
    unfold oldest_overdue in Eo. destruct (merge_sort _ _) as [|q l]; [done |]. injection Eo as ->.
    change (option_list (overdue_row <$> Some (i, s))) with [overdue_row (i, s)]. rewrite filter_cons_True by done. cbn.
    unfold suspends. cbn. rewrite Hdue. cbn. destruct (parse_ts_stored due Hld) as (t' & -> & Et).
    unfold odt_lt. rewrite Et. by rewrite (proj2 (Z.ltb_ge _ _)) by done.
  - unfold oldest_overdue in Eo. by destruct (merge_sort _ _).
Qed.

(** What an entry of the list must show for a status. *)
Definition shows (v : ServiceStatusView.t) (status : ServiceStatus) : Prop :=
  match status with
  | Active =>
      ServiceStatusView.status v = "active"%string ∧ ServiceStatusView.suspended v = false
      ∧ ServiceStatusView.message v = None ∧ ServiceStatusView.reason v = None
  | Suspended (InvoiceOverdue o) =>
      ServiceStatusView.status v = "suspended"%string ∧ ServiceStatusView.suspended v = true
      ∧ ServiceStatusView.message v = Some "Service is suspended because an invoice is overdue"%string
      ∧ ServiceStatusView.reason v = Some (SuspensionReasonView.mk "invoice_overdue" (OverdueStatement.id o)
          (OverdueStatement.billing_date o) (format_ts (OverdueStatement.due_at o))
          (MicroUsd.as_i64 (OverdueStatement.amount o)) (MicroUsd.display (OverdueStatement.amount o)))
  end.

Lemma view_status_shows c status rows : shows (view_status c status rows) status.
Proof. by destruct status as [|[o]]. Qed.

(** The statements of a consumer that are past their deadline and unpaid. *)
Definition past_deadline (c : string) (now : OffsetDateTime) (s : Statement.t) : Prop :=
  Statement.consumer_id s = c ∧ Statement.billing_mode s = "invoice"%string ∧ Statement.paid_at s = None
  ∧ ∃ due, Statement.due_at s = Some (format_ts due) ∧ ledger_instant due
           ∧ unix_timestamp_nanos due ≤ unix_timestamp_nanos now.

Lemma overdue_statements_elem db now c i s :
  map_Forall (λ _ s, statement_stored s) (daily_statements (billing db)) → ledger_instant now →
  ((i, s) ∈ overdue_statements (billing db) (format_ts now) (Some c)) ↔
  daily_statements (billing db) !! i = Some s ∧ past_deadline c now s.
Proof.
  intros Hstored Hnow. unfold overdue_statements. rewrite merge_sort_Permutation, list_elem_of_filter, elem_of_map_to_list.
  assert (daily_statements (billing db) !! i = Some s →
    overdue (format_ts now) (Some c) s = true ↔ past_deadline c now s) as Hrow; [| cbn [snd]; tauto].
  intros Hs. unfold overdue, past_deadline. rewrite !andb_true_iff, !String.eqb_eq, is_Some_b_false.
  destruct (Statement.due_at s) as [d|] eqn:Ed; [| naive_solver].
  destruct (Hstored i s Hs) as [_ Hd]. destruct (Hd d Ed) as (t & Ht & ->). rewrite str_leb_format_ts by done. split.
  - intros [[[? ?] ?] ?]. split_and!; try done. by exists t.
  - intros (? & ? & ? & due & [= E] & Hdue & Hle). split_and!; try done.
    rewrite <- str_leb_format_ts by done. rewrite E. by apply str_leb_format_ts.
Qed.

(** The statement a suspension names. *)
Lemma status_for_statement db now c mode o :
  map_Forall (λ _ s, statement_stored s) (daily_statements (billing db)) → ledger_instant now →
  status_for mode now (option_list (overdue_row <$> oldest_overdue db c (format_ts now))) = Suspended (InvoiceOverdue o) →
  ∃ s, daily_statements (billing db) !! OverdueStatement.id o = Some s ∧ unpaid_past_due c now s
    ∧ OverdueStatement.billing_date o = Statement.billing_date s
    ∧ MicroUsd.as_i64 (OverdueStatement.amount o) = Statement.total_amount_micro_usd s
    ∧ ∃ due, Statement.due_at s = Some (format_ts due)
        ∧ unix_timestamp_nanos (OverdueStatement.due_at o) = unix_timestamp_nanos due.
Proof.
  intros Hstored Hnow. unfold status_for. destruct (negb _); [done |].
  destruct (oldest_overdue db c (format_ts now)) as [[i s]|] eqn:Eo; [| done].
  apply oldest_is_unpaid in Eo as [Hs Hu]; [| done..]. pose proof Hu as (_ & _ & _ & Hi & Ht & due & Hdue & Hld & Hle).
  change (option_list (overdue_row <$> Some (i, s))) with [overdue_row (i, s)]. rewrite filter_cons_True by done. cbn.
  unfold suspends. cbn. rewrite Hdue. cbn. destruct (parse_ts_stored due Hld) as (t' & -> & Et).
  unfold odt_lt. rewrite Et, (proj2 (Z.ltb_ge _ _)) by done. cbn. intros [= <-]. exists s. cbn.
  split_and!; try done. by exists due.
Qed.

(** The sum leaves nothing out when it fits. *)
Lemma add_overdue_sum rows sum :
  0 ≤ MicroUsd.as_i64 sum → Forall (λ r, 0 ≤ OverdueRow.total_amount_micro_usd r) rows →
  MicroUsd.as_i64 sum + zsum (OverdueRow.total_amount_micro_usd <$> rows) ≤ i64_max →
  MicroUsd.as_i64 (foldl add_overdue sum rows) = MicroUsd.as_i64 sum + zsum (OverdueRow.total_amount_micro_usd <$> rows).
Proof.
  intros Hsum Hrows. revert sum Hsum. induction Hrows as [|r rows Hr Hrows IH]; intros sum Hsum Hmax; [cbn; lia |].
  rewrite fmap_cons, zsum_cons in *. cbn [foldl].
  assert (0 ≤ zsum (OverdueRow.total_amount_micro_usd <$> rows)) as Hz.
  { by apply zsum_nonneg, Forall_fmap. }
  assert (add_overdue sum r = MicroUsd.from_i64 (MicroUsd.as_i64 sum + OverdueRow.total_amount_micro_usd r)) as ->.
  { unfold add_overdue, MicroUsd.checked_add. cbn. unfold i64_checked. rewrite checked_in; [done |].
    unfold i64_min. lia. }
  rewrite IH; cbn; lia.
Qed.

Lemma overdue_amount_exact c status l :
  let v := view_status c status ((λ q, Statement.to_overdue_row q.1 q.2) <$> l) in
  let owed := zsum ((λ q, Statement.total_amount_micro_usd q.2) <$> l) in
  Forall (λ q, 0 ≤ Statement.total_amount_micro_usd q.2) l → owed ≤ i64_max →
  ServiceStatusView.overdue_amount_micro_usd v = owed
  ∧ ServiceStatusView.overdue_amount v = MicroUsd.display (MicroUsd.from_i64 owed).
Proof.
  intros v owed Hpos Hmax.
  assert (OverdueRow.total_amount_micro_usd <$> ((λ q, Statement.to_overdue_row q.1 q.2) <$> l)
    = (λ q, Statement.total_amount_micro_usd q.2) <$> l) as El by by rewrite <- list_fmap_compose.
  assert (MicroUsd.as_i64 (foldl add_overdue MicroUsd.ZERO ((λ q, Statement.to_overdue_row q.1 q.2) <$> l)) = owed) as E.
  { rewrite add_overdue_sum; rewrite ?El; cbn; [done | done | | done]. by rewrite Forall_fmap. }
  unfold v, view_status. cbn. rewrite E. split; [done |]. rewrite <- E. by destruct (foldl _ _ _).
Qed.

(** C32. The status list says what the request path does. It has one entry for
    each partner the scope admits. The entry of a partner whose key is let in at
    that instant shows the very status that request is served or refused under:
    the label, the flag, the message of the refusal and, when it is suspended, as
    the reason the statement the request path holds, with its id, date, deadline
    and amount, which is an unpaid complete invoice past its deadline. So it is
    however wide the scope of the read was. Beside it stand the number and the
    sum of the partner's invoices that are past their deadline and unpaid. *)
Theorem status_is_the_request_paths (header : option string) (api_keys : ApiKeyStore.t) (manager : option string)
    (scope : Scope.t) (now : OffsetDateTime) (token : string) (ctx : ConsumerContext.t) (id : Z) (k : KeyRow.t) (p : Partner.t)
    (Hwf : keys_wf (ApiKeyStore.db api_keys)) (Hfresh : fresh api_keys now) (Hnow : ledger_instant now)
    (Hstored : map_Forall (λ _ s, statement_stored s) (daily_statements (billing (portal (ApiKeyStore.db api_keys)))))
    (Htoken : extract_bearer_token header = Ok token)
    (Hk : ApiKeys.api_keys (ApiKeyStore.db api_keys) !! id = Some k)
    (Hhash : KeyRow.key_hash k = derive_key_hash (ApiKeyStore.secret api_keys) token)
    (Husable : usable (format_ts now) k = true)
    (Hpartner : partner_rows (portal (ApiKeyStore.db api_keys)) !! KeyRow.consumer_id k = Some p)
    (Hctx : from_request_parts header api_keys manager = Ok ctx) :
  let statuses := statuses_in_scope (portal (ApiKeyStore.db api_keys)) scope now (format_ts now) in
  let statements := daily_statements (billing (portal (ApiKeyStore.db api_keys))) in
  NoDup (ServiceStatusView.consumer_id <$> statuses)
  ∧ (∀ c, c ∈ ServiceStatusView.consumer_id <$> statuses ↔
       is_Some (partner_rows (portal (ApiKeyStore.db api_keys)) !! c) ∧ Scope.admits scope c = true)
  ∧ (∀ o, ConsumerContext.service_status ctx = Suspended (InvoiceOverdue o) →
       ∃ s, statements !! OverdueStatement.id o = Some s ∧ unpaid_past_due (KeyRow.consumer_id k) now s
         ∧ OverdueStatement.billing_date o = Statement.billing_date s
         ∧ MicroUsd.as_i64 (OverdueStatement.amount o) = Statement.total_amount_micro_usd s
         ∧ ∃ due, Statement.due_at s = Some (format_ts due)
             ∧ unix_timestamp_nanos (OverdueStatement.due_at o) = unix_timestamp_nanos due)
  ∧ (∀ v, v ∈ statuses → ServiceStatusView.consumer_id v = KeyRow.consumer_id k →
       shows v (ConsumerContext.service_status ctx)
       ∧ ServiceStatusView.message v = suspension_message (ConsumerContext.service_status ctx)
       ∧ ∃ l, NoDup l ∧ (∀ i s, (i, s) ∈ l ↔ statements !! i = Some s ∧ past_deadline (KeyRow.consumer_id k) now s)
           ∧ ServiceStatusView.overdue_statements v = Z.of_nat (length l)
           ∧ (let owed := zsum ((λ q, Statement.total_amount_micro_usd q.2) <$> l) in
              Forall (λ q, 0 ≤ Statement.total_amount_micro_usd q.2) l → owed ≤ i64_max →
              ServiceStatusView.overdue_amount_micro_usd v = owed
              ∧ ServiceStatusView.overdue_amount v = MicroUsd.display (MicroUsd.from_i64 owed))).
Proof.
  cbv zeta. set (db := portal (ApiKeyStore.db api_keys)) in *. pose proof (kw_portal _ Hwf) as Hs.
  rewrite statuses_in_scope_spec by done.
  assert (ServiceStatusView.consumer_id <$> (own_status now (format_ts now) (billing db) <$> partners_in_scope db scope)
    = Partner.consumer_id <$> partners_in_scope db scope) as Hids by by rewrite <- list_fmap_compose.
  pose proof (authenticate_row api_keys now token id k Hwf Hfresh Hk Hhash) as Ha. rewrite Husable in Ha.
  destruct Ha as (cfg & Ea & Hd). unfold from_request_parts in Hctx. rewrite Htoken, Ea in Hctx. injection Hctx as <-.
  assert (ConsumerContext.service_status (ConsumerContext.new cfg) = PartnerRuntimeConfig.service_status cfg) as -> by done.
  pose proof (de_status _ _ _ _ Hd) as Est. fold db in Est.
  split_and!.
  - rewrite Hids. by apply partners_in_scope_nodup.
  - intros c. rewrite Hids, list_elem_of_fmap. split.
    + intros (q & -> & [Hq Ha]%(partners_in_scope_elem _ _ _ Hs)). by split.
    + intros [[q Hq] Ha]. exists q. destruct (wf_partner _ Hs _ _ Hq) as [Hc _].
      split; [done |]. apply (partners_in_scope_elem _ _ _ Hs). by rewrite Hc.
  - intros o Eo. rewrite Est in Eo. by apply status_for_statement in Eo.
  - intros v (q & -> & [Hq _]%(partners_in_scope_elem _ _ _ Hs))%list_elem_of_fmap Hv. cbn in Hv. rewrite Hv in Hq.
    assert (q = p) as -> by (unfold db in *; congruence).
    assert (PartnerRuntimeConfig.service_status cfg = status_for (BillingMode.as_str (Partner.billing_mode p)) now
      ((λ q, Statement.to_overdue_row q.1 q.2) <$> overdue_statements (billing db) (format_ts now) (Some (KeyRow.consumer_id k)))) as ->.
    { rewrite status_of_rows, Est by done. unfold mode_text. fold db in Hq. by rewrite Hq. }
    unfold own_status. cbn zeta. rewrite Hv. split; [apply view_status_shows |]. split; [done |].
    exists (overdue_statements (billing db) (format_ts now) (Some (KeyRow.consumer_id k))). split_and!.
    + unfold overdue_statements. rewrite merge_sort_Permutation. apply list.NoDup_filter, NoDup_map_to_list.
    + intros i s. by apply overdue_statements_elem.
    + cbn. by rewrite length_fmap.
    + intros Hpos Hmax. apply overdue_amount_exact; [| done]. done.
Qed.
End RequestPath.

(** ** Concrete databases *)

Definition api_partner (c : string) : ConsumerContext.t :=
  ConsumerContext.new (PartnerRuntimeConfig.new c "primary" BillingMode.Invoice "" Active ∅).

(** The database with an account more. *)
Definition portal_2 : StoreDb :=
  (create_partner portal_1 (NewPartner.mk "globex" "Globex" "" BillingMode.Invoice 720) "2026-09-25T00:00:00.000000000Z").1.

Lemma portal_2_wf : store_wf portal_2.
Proof. apply create_partner_wf, portal_1_wf. Qed.

Lemma portal_2_same : same_bills "acme" portal_1 portal_2.
Proof. split; [vm_compute; reflexivity | |]; intros; by replace (billing portal_2) with
  (billing (with_partners portal_1 (partner_rows portal_2))) by (vm_compute; reflexivity). Qed.

Lemma statements_are_private_witness :
  (is_ok (get_statement portal_1 (api_partner "acme") 1 StatementsQuery.default_query) = true
   ∧ get_statement portal_2 (api_partner "globex") 1 StatementsQuery.default_query = Err (NotFound "no statement with that id")
   ∧ get_statement portal_2 (api_partner "globex") 77 StatementsQuery.default_query = Err (NotFound "no statement with that id"))
  ∧ get_statement portal_1 (api_partner "acme") 1 StatementsQuery.default_query
    = get_statement portal_2 (api_partner "acme") 1 StatementsQuery.default_query.
Proof.
  split; [vm_compute; auto |].
  apply (statements_are_private (api_partner "acme") StatementsQuery.default_query 1 t1 (format_ts t1) portal_1 portal_2
    eq_refl portal_1_wf portal_2_wf portal_2_same).
Defined.

Lemma status_is_the_request_paths_witness :
  ledger_instant t1
  ∧ NoDup (ServiceStatusView.consumer_id <$> statuses_in_scope portal_1 Scope.All t1 (format_ts t1)).
Proof.
  split; [exact ledger_instant_t1 |].
  assert (extract_bearer_token (Some "Bearer dev-key"%string) = Ok "dev-key"%string) as Ht by (vm_compute; reflexivity).
  assert (∃ ctx, from_request_parts (Some "Bearer dev-key"%string) store_fresh None = Ok ctx) as [ctx Hctx].
  { destruct (authenticate_row store_fresh t1 "dev-key" 1 (key_1 None) (keys_1_wf None) eq_refl (keys_1_lookup None) eq_refl)
      as (cfg & Ea & _). eexists. unfold from_request_parts. rewrite Ht, Ea. reflexivity. }
  refine (proj1 (status_is_the_request_paths (Some "Bearer dev-key"%string) store_fresh None Scope.All t1 "dev-key" ctx 1 (key_1 None) acme
    (keys_1_wf None) eq_refl ledger_instant_t1 _ Ht (keys_1_lookup None) eq_refl eq_refl eq_refl Hctx)).
  intros i s E. unfold store_fresh, store_of, keys_1 in E. cbn in E. apply lookup_singleton_Some in E as [_ <-].
  split; [vm_compute; reflexivity |]. intros due Ed. exists due_1. split; [exact due_1_instant |].
  apply (inj Some) in Ed. rewrite <- Ed. vm_compute. reflexivity.
Defined.

(** The total of a list of what is still owed counts the paid statements too. *)
Definition portal_paid : StoreDb :=
  mkStoreDb (BillingStore.mark_paid store_1 1 "manager" None None "2026-09-25T00:00:00.000000000Z").1 ∅.

Example unpaid_total_is_wider :
  match list_statements portal_paid (api_partner "acme") (StatementsQuery.mk "" true 50 0) with
  | Ok l => StatementList.statements l = [] ∧ StatementList.total l = 1 ∧ StatementList.unpaid_count l = 0
  | Err _ => False
  end.
Proof. vm_compute. auto. Qed.

(** A key of a consumer that has no account: its status list is empty. *)
Example status_without_account :
  get_status portal_1 (api_partner "initech") StatementsQuery.default_query t1 (format_ts t1) = Ok [].
Proof. vm_compute. reflexivity. Qed.

Example page_examples :
  StatementsQuery.page StatementsQuery.default_query = (50, 0)
  ∧ StatementsQuery.page (StatementsQuery.mk "" false (-5) (-1)) = (0, 0)
  ∧ StatementsQuery.page (StatementsQuery.mk "" false 1000 7) = (200, 7).
Proof. vm_compute. auto. Qed.
