(* ===== verification/Admin.v ===== *)
(** * The administration surface ([src/src/admin/])

    What the manager's password may do: accounts and price lists
    ([partners.rs]), keys ([keys.rs]), statements and payments ([billing.rs]),
    behind one guard and one rendering of errors ([common.rs]). *)

From stdpp Require Import base strings list gmap numbers sorting fin_maps.
From Stdlib Require Import Ascii ZArith Lia.
From S2P Require Import Prelude Utf8 Crypto TimeLib Calendar Timefmt Pricing Trim Period Status Partner Context LedgerTypes Sql Rollup Statements BillingStore PartnerStore ApiKeys KeyLifecycle Worker Redaction Auth BillingApi.

Local Open Scope Z_scope.

(** ** Errors *)

Inductive ManagerOnlyError : Type := Unauthenticated (e : AuthError) | NotManager.

(** [Join] is a task that did not finish. *)
Module AdminError.
Inductive t : Type :=
  | BadRequest (msg : string)
  | KeyNotFound (id : Z)
  | PartnerNotFound (consumer_id : string)
  | PartnerExists (consumer_id : string)
  | StatementNotFound (id : Z)
  | StatementNotPayable (id : Z) (billing_mode : string)
  | Key (e : ApiKeyError)
  | Billing (e : BillingError)
  | Join.
End AdminError.

(** [Display for PriceError] ([src/src/billing/pricing.rs]). *)
Definition price_error_display (self : PriceError) : string :=
  (match self with
   | NoPriceSnapshot column => "no billing configuration: " +:+ column +:+ " is not set"
   | IncompleteUsage => "the provider did not report usage in full"
   | CachedExceedsInput input_tokens cached_tokens =>
       "upstream reported " +:+ dec_string cached_tokens +:+ " cached tokens out of " +:+ dec_string input_tokens +:+ " input tokens"
   | Overflow context => "the amount overflowed micro-dollars while " +:+ context
   | NotANumber text => debug_str text +:+ " is not a price in dollars per million tokens"
   | OutOfRange text => "the price " +:+ debug_str text +:+ " is out of range"
   end)%string.

(** ** Bodies *)

Module ModelPriceView.
Record t : Type := mk {
  model : string;
  input_per_million : string;
  cached_input_per_million : string;
  output_per_million : string }.

Definition from_row (row : ModelPrice.t) : t :=
  let '(input, cached, output) := PricingSnapshot.as_tuple (ModelPrice.prices row) in
  mk (ModelPrice.model row) (PricePerMillion.to_decimal_string (PricePerMillion.new input))
    (PricePerMillion.to_decimal_string (PricePerMillion.new cached))
    (PricePerMillion.to_decimal_string (PricePerMillion.new output)).
End ModelPriceView.

Module PartnerView.
Record t : Type := mk {
  consumer_id : string;
  name : string;
  billing_email : string;
  billing_mode : string;
  payment_terms_minutes : Z;
  emails_statements : bool;
  created_at : string;
  updated_at : string;
  total_billed_micro_usd : Z;
  total_billed : string;
  statement_count : Z;
  models : list ModelPriceView.t }.

Definition build (partner : Partner.t) (total_billed statement_count : Z) (models : list ModelPrice.t) : t :=
  mk (Partner.consumer_id partner) (Partner.name partner) (Partner.billing_email partner)
    (BillingMode.as_str (Partner.billing_mode partner)) (Partner.payment_terms_minutes partner)
    (BillingMode.owes_payment (Partner.billing_mode partner) && negb (str_is_empty (trim (Partner.billing_email partner))))
    (Partner.created_at partner) (Partner.updated_at partner) total_billed
    (MicroUsd.display (MicroUsd.from_i64 total_billed)) statement_count (ModelPriceView.from_row <$> models).
End PartnerView.

Module ApiKeyView.
Record t : Type := mk {
  id : Z;
  name : string;
  consumer_id : string;
  key_prefix : string;
  status : string;
  created_at : string;
  updated_at : string;
  expires_at : option string;
  revoked_at : option string }.

Definition from_row (row : ApiKeyRow.t) : t :=
  mk (ApiKeyRow.id row) (ApiKeyRow.name row) (ApiKeyRow.consumer_id row) (ApiKeyRow.key_prefix row)
    (match ApiKeyRow.status row with KeyStatus.Active => "active" | KeyStatus.Revoked => "revoked" end)
    (ApiKeyRow.created_at row) (ApiKeyRow.updated_at row) (ApiKeyRow.expires_at row) (ApiKeyRow.revoked_at row).
End ApiKeyView.

Module IssuedKeyView.
Record t : Type := mk { key : ApiKeyView.t; key_secret : option string }.
End IssuedKeyView.

Module BillingSummary.
Record t : Type := mk {
  partners : Z;
  suspended_partners : Z;
  statements : Z;
  unpaid_statements : Z;
  unpaid_total_micro_usd : Z;
  unpaid_total : string }.
End BillingSummary.

Inductive Body : Type :=
  | PartnerBody (view : PartnerView.t)
  | PartnersBody (views : list PartnerView.t)
  | DeletedBody (consumer_id : string)
  | ModelsBody (views : list ModelPriceView.t)
  | KeyBody (view : ApiKeyView.t)
  | KeysBody (views : list ApiKeyView.t)
  | IssuedBody (view : IssuedKeyView.t)
  | StatementsBody (view : StatementList.t)
  | StatementBody (view : StatementView.t)
  | SummaryBody (view : BillingSummary.t)
  | ErrorBody (message type code : string).

(** The status, the headers that matter here, and the JSON body. *)
Module Response.
Record t : Type := mk { status : Z; headers : list (string * string); body : Body }.
End Response.

Definition no_store (status : Z) (body : Body) : Response.t :=
  Response.mk status [("cache-control", "no-store"); ("pragma", "no-cache")]%string body.

(** [IntoResponse for AuthError] ([src/src/auth/middleware.rs]). *)
Definition auth_error_response (self : AuthError) : Response.t :=
  Response.mk 401 [("content-type", "application/json"); ("cache-control", "no-store")]%string
    (ErrorBody (auth_error_message self) "invalid_request_error" "invalid_api_key").

Definition manager_only_response (self : ManagerOnlyError) : Response.t :=
  match self with
  | Unauthenticated e => auth_error_response e
  | NotManager =>
      no_store 403 (ErrorBody "This credential is scoped to one consumer and cannot administer the product; use the manager password"
        "permission_error" "manager_required")
  end.

Definition not_payable (id : Z) (billing_mode : string) : string :=
  ("statement " +:+ signed_dec_string id +:+ " is a " +:+ billing_mode +:+ " statement and carries no payment obligation")%string.
Definition no_key (id : Z) : string := ("no api key with id " +:+ signed_dec_string id)%string.
Definition no_partner (consumer_id : string) : string := ("no partner with consumer_id " +:+ consumer_id)%string.

(** [IntoResponse for AdminError]: what is logged is not in the answer. *)
Definition admin_error_parts (self : AdminError.t) : Z * string * string :=
  (match self with
   | AdminError.BadRequest msg => (400, "invalid_request", msg)
   | AdminError.KeyNotFound id => (404, "not_found", no_key id)
   | AdminError.PartnerNotFound consumer_id => (404, "not_found", no_partner consumer_id)
   | AdminError.PartnerExists consumer_id =>
       (409, "partner_exists", "a partner with consumer_id " +:+ consumer_id
          +:+ " already exists; use PATCH /api/admin/partners/" +:+ consumer_id +:+ " to change it")
   | AdminError.StatementNotFound id => (404, "not_found", "no statement with id " +:+ signed_dec_string id)
   | AdminError.StatementNotPayable id billing_mode => (409, "statement_not_payable", not_payable id billing_mode)
   | AdminError.Key (InvalidKey msg) => (400, "invalid_request", msg)
   | AdminError.Key (NotFound id) => (404, "not_found", no_key id)
   | AdminError.Key (NotActive id) =>
       (409, "key_not_active", "api key " +:+ signed_dec_string id +:+ " is revoked and cannot be changed")
   | AdminError.Key (AlreadyActive consumer_id) =>
       (409, "key_already_active", "consumer " +:+ consumer_id
          +:+ " already has an active api key; rotate that key instead of creating a second one")
   | AdminError.Key (DatabaseError _) => (500, "internal_error", "database error")
   | AdminError.Billing (Invalid msg) => (400, "invalid_request", msg)
   | AdminError.Billing (PartnerNotFound consumer_id) => (404, "not_found", no_partner consumer_id)
   | AdminError.Billing (PartnerExists consumer_id) =>
       (409, "partner_exists", "a partner with consumer_id " +:+ consumer_id +:+ " already exists")
   | AdminError.Billing (StatementNotPayable id billing_mode) => (409, "statement_not_payable", not_payable id billing_mode)
   | AdminError.Billing (Database _) => (500, "internal_error", "database error")
   | AdminError.Join => (500, "internal_error", "internal error")
   end)%string.

Definition admin_error_response (self : AdminError.t) : Response.t :=
  let '(status, code, message) := admin_error_parts self in no_store status (ErrorBody message "admin_error" code).

(** [From<BillingError> for AdminError]. *)
Definition of_billing_error (e : BillingError) : AdminError.t :=
  match e with
  | PartnerNotFound consumer_id => AdminError.PartnerNotFound consumer_id
  | PartnerExists consumer_id => AdminError.PartnerExists consumer_id
  | StatementNotPayable id billing_mode => AdminError.StatementNotPayable id billing_mode
  | Invalid msg => AdminError.BadRequest msg
  | Database e => AdminError.Billing (Database e)
  end.

Definition or_billing {A} (r : result A BillingError) : result A AdminError.t :=
  match r with Ok a => Ok a | Err e => Err (of_billing_error e) end.
Definition or_key {A} (r : result A ApiKeyError) : result A AdminError.t :=
  match r with Ok a => Ok a | Err e => Err (AdminError.Key e) end.

(** ** Reading the wire *)

Definition parse_mode (raw : string) : result BillingMode.t AdminError.t :=
  ok_or (BillingMode.parse (trim raw))
    (AdminError.BadRequest ("`billing_mode` must be `invoice` or `reconciliation`, not " +:+ debug_str raw)).

Definition parse_price (model field raw : string) : result PricePerMillion.t AdminError.t :=
  match PricePerMillion.parse (trim raw) with
  | Ok p => Ok p
  | Err e => Err (AdminError.BadRequest (debug_str model +:+ ": `" +:+ field +:+ "`: " +:+ price_error_display e))
  end.

(** The loop, with the names seen. *)
Fixpoint parse_models_from (seen : list string) (views : list ModelPriceView.t) : result (list ModelPrice.t) AdminError.t :=
  match views with
  | [] => Ok []
  | view :: views' =>
      let model := trim (ModelPriceView.model view) in
      if str_is_empty model then Err (AdminError.BadRequest "a model name must not be blank")
      else if bool_decide (model ∈ seen)
      then Err (AdminError.BadRequest (debug_str model +:+ " is listed twice; a model has one price"))
      else
        let? input := parse_price (ModelPriceView.model view) "input_per_million" (ModelPriceView.input_per_million view) in
        let? cached := parse_price (ModelPriceView.model view) "cached_input_per_million" (ModelPriceView.cached_input_per_million view) in
        let? output := parse_price (ModelPriceView.model view) "output_per_million" (ModelPriceView.output_per_million view) in
        let? rest := parse_models_from (model :: seen) views' in
        Ok (ModelPrice.mk (ModelPriceView.model view) (PricingSnapshot.new input cached output) :: rest)
  end.
Definition parse_models (views : list ModelPriceView.t) : result (list ModelPrice.t) AdminError.t := parse_models_from [] views.

(** [Option::map(|s| s.trim())] with a blank as absent. *)
Definition non_empty (raw : option string) : option string :=
  match raw with
  | Some s => let s := trim s in if str_is_empty s then None else Some s
  | None => None
  end.

Definition parse_expiry `{TimeCrate} (raw : option string) : result (option OffsetDateTime) AdminError.t :=
  match raw with
  | None => Ok None
  | Some raw =>
      if str_is_empty (trim raw) then Ok None
      else match parse_ts raw with
           | Some t => Ok (Some t)
           | None => Err (AdminError.BadRequest ("`expires_at` is not ISO 8601: " +:+ debug_str raw))
           end
  end.

(** ** Requests *)

Module CreatePartnerRequest.
Record t : Type := mk {
  consumer_id : string;
  name : string;
  billing_email : string;
  billing_mode : string;
  payment_terms_minutes : option Z;
  models : list ModelPriceView.t }.
End CreatePartnerRequest.

Module UpdatePartnerRequest.
Record t : Type := mk {
  name : option string;
  billing_email : option string;
  billing_mode : option string;
  payment_terms_minutes : option Z }.
End UpdatePartnerRequest.

Module CreateKeyRequest.
Record t : Type := mk { name : string; consumer_id : string; expires_at : option string }.
End CreateKeyRequest.

Module MarkPaidRequest.
Record t : Type := mk { paid_by : option string; reference : option string; note : option string }.
End MarkPaidRequest.

(** The routes, with what axum has read from the path, query and body. *)
Inductive Route : Type :=
  | CreatePartner (req : CreatePartnerRequest.t)
  | ListPartners
  | GetPartner (consumer_id : string)
  | UpdatePartner (consumer_id : string) (req : UpdatePartnerRequest.t)
  | DeletePartner (consumer_id : string)
  | GetModels (consumer_id : string)
  | ReplaceModels (consumer_id : string) (models : list ModelPriceView.t)
  | CreateKey (req : CreateKeyRequest.t)
  | RotateKey (id : Z)
  | ListKeys (status : option string)
  | GetKey (id : Z)
  | UpdateKey (id : Z) (name : option string)
  | RevokeKey (id : Z)
  | ListStatements (query : StatementsQuery.t)
  | GetStatement (id : Z)
  | MarkPaid (id : Z) (req : MarkPaidRequest.t)
  | GetSummary (query : StatementsQuery.t).

Definition DEFAULT_PAYMENT_TERMS_MINUTES : Z := 720.

(** ** Handlers *)
Section Handlers.
Context `{TimeCrate, Digests}.

(** What one request meets: the readings of the clock by its first and second
    write and by the overdue query, the system's entropy, and what the database
    does to the key store's transaction and refresh. The billing tables answer. *)
Record Call : Type := mkCall {
  now : OffsetDateTime;
  now2 : OffsetDateTime;
  clock : string;
  entropy : result (list Z) string;
  io : ApiKeyStore.Io }.

(** A handler's effect on the instance and its answer. *)
Definition Reply : Type := ApiKeyStore.t * result (Z * Body) AdminError.t.

Definition portal_of (self : ApiKeyStore.t) : StoreDb := portal (ApiKeyStore.db self).
Definition with_portal (self : ApiKeyStore.t) (p : StoreDb) : ApiKeyStore.t :=
  ApiKeyStore.mk (mkKeyDb (api_keys (ApiKeyStore.db self)) (next_key_id (ApiKeyStore.db self)) p)
    (ApiKeyStore.secret self) (ApiKeyStore.snapshot self).

(** A refresh that fails is only logged. *)
Definition refresh_snapshot (call : Call) (self : ApiKeyStore.t) : ApiKeyStore.t := (ApiKeyStore.refresh self (io call)).1.1.

Definition manager_only (header : option string) (self : ApiKeyStore.t) (manager : option string)
    : result ConsumerContext.t ManagerOnlyError :=
  match from_request_parts header self manager with
  | Err e => Err (Unauthenticated e)
  | Ok consumer => if ConsumerContext.is_manager consumer then Ok consumer else Err NotManager
  end.

(** *** Accounts *)

(** The two readings that go with a partner's row. *)
Definition standing (db : StoreDb) (consumer_id : string) : result (Z * Z) BillingError :=
  let? billed := total_billed db consumer_id in
  Ok (MicroUsd.as_i64 billed, count_statements db (Scope.One consumer_id)).

Definition partner_view (db : StoreDb) (partner : Partner.t) : result PartnerView.t BillingError :=
  let? (billed, count) := standing db (Partner.consumer_id partner) in
  Ok (PartnerView.build partner billed count (models db (Partner.consumer_id partner))).

Definition create_partner (call : Call) (self : ApiKeyStore.t) (req : CreatePartnerRequest.t) : Reply :=
  match (let? mode := parse_mode (CreatePartnerRequest.billing_mode req) in
         let? models := parse_models (CreatePartnerRequest.models req) in Ok (mode, models)) with
  | Err e => (self, Err e)
  | Ok (mode, models) =>
      let new := NewPartner.mk (CreatePartnerRequest.consumer_id req) (CreatePartnerRequest.name req)
                   (CreatePartnerRequest.billing_email req) mode
                   (default DEFAULT_PAYMENT_TERMS_MINUTES (CreatePartnerRequest.payment_terms_minutes req)) in
      match PartnerStore.create_partner (portal_of self) new (format_ts (now call)) with
      | (db1, Err e) => (with_portal self db1, Err (of_billing_error e))
      | (db1, Ok partner) =>
          let consumer_id := Partner.consumer_id partner in
          let '(db2, replaced) :=
            match models with [] => (db1, Ok ()) | _ => PartnerStore.replace_models db1 consumer_id models (format_ts (now2 call)) end in
          let self2 := with_portal self db2 in
          match (let? _ := replaced in standing db2 consumer_id) with
          | Err e => (self2, Err (of_billing_error e))
          | Ok (billed, count) =>
              (refresh_snapshot call self2, Ok (201, PartnerBody (PartnerView.build partner billed count (PartnerStore.models db2 consumer_id))))
          end
      end
  end.

Definition list_partners (self : ApiKeyStore.t) : Reply :=
  let db := portal_of self in
  (self, let? views := or_billing (map_result (partner_view db) (Worker.list_partners (billing db))) in Ok (200, PartnersBody views)).

Definition get_partner (self : ApiKeyStore.t) (consumer_id : string) : Reply :=
  let db := portal_of self in
  (self,
   let? partner := or_billing (ok_or (PartnerStore.get_partner db consumer_id) (PartnerNotFound consumer_id)) in
   let? (billed, count) := or_billing (standing db consumer_id) in
   Ok (200, PartnerBody (PartnerView.build partner billed count (models db consumer_id)))).

Definition update_partner (call : Call) (self : ApiKeyStore.t) (consumer_id : string) (req : UpdatePartnerRequest.t) : Reply :=
  match match UpdatePartnerRequest.billing_mode req with
        | None => Ok None
        | Some raw => let? m := parse_mode raw in Ok (Some m)
        end with
  | Err e => (self, Err e)
  | Ok mode =>
      let terms := UpdatePartnerRequest.payment_terms_minutes req in
      if match terms with Some t => t <? 0 | None => false end
      then (self, Err (AdminError.BadRequest "payment_terms_minutes must not be negative"))
      else
        let patch := PartnerPatch.mk (UpdatePartnerRequest.name req) (UpdatePartnerRequest.billing_email req) mode terms in
        let '(db', r) := PartnerStore.update_partner (portal_of self) consumer_id patch (format_ts (now call)) in
        let self' := with_portal self db' in
        match (let? partner := r in let? st := standing db' consumer_id in Ok (partner, st)) with
        | Err e => (self', Err (of_billing_error e))
        | Ok (partner, (billed, count)) =>
            (refresh_snapshot call self', Ok (200, PartnerBody (PartnerView.build partner billed count (models db' consumer_id))))
        end
  end.

Definition delete_partner (call : Call) (self : ApiKeyStore.t) (consumer_id : string) : Reply :=
  let db := portal_of self in
  let statements := count_statements db (Scope.One consumer_id) in
  if 0 <? statements
  then (self, Err (of_billing_error (Invalid ("partner " +:+ consumer_id +:+ " has " +:+ signed_dec_string statements
          +:+ " statement(s) and cannot be deleted; their billing history is a financial record"))))
  else
    match PartnerStore.delete_partner db consumer_id with
    | (db', Err e) => (with_portal self db', Err (of_billing_error e))
    | (db', Ok _) => (refresh_snapshot call (with_portal self db'), Ok (200, DeletedBody consumer_id))
    end.

Definition get_models (self : ApiKeyStore.t) (consumer_id : string) : Reply :=
  let db := portal_of self in
  (self,
   match PartnerStore.get_partner db consumer_id with
   | None => Err (of_billing_error (PartnerNotFound consumer_id))
   | Some _ => Ok (200, ModelsBody (ModelPriceView.from_row <$> models db consumer_id))
   end).

Definition replace_models (call : Call) (self : ApiKeyStore.t) (consumer_id : string) (views : list ModelPriceView.t) : Reply :=
  match parse_models views with
  | Err e => (self, Err e)
  | Ok ms =>
      match PartnerStore.replace_models (portal_of self) consumer_id ms (format_ts (now call)) with
      | (db', Err e) => (with_portal self db', Err (of_billing_error e))
      | (db', Ok _) =>
          (refresh_snapshot call (with_portal self db'), Ok (200, ModelsBody (ModelPriceView.from_row <$> models db' consumer_id)))
      end
  end.

(** *** Keys *)

Definition issued_key (row : ApiKeyRow.t) (plaintext : string) : Z * Body :=
  (201, IssuedBody (IssuedKeyView.mk (ApiKeyView.from_row row) (Some plaintext))).

Definition create_key (call : Call) (self : ApiKeyStore.t) (req : CreateKeyRequest.t) : Reply :=
  match parse_expiry (CreateKeyRequest.expires_at req) with
  | Err e => (self, Err e)
  | Ok expires_at =>
      let '(self', r) := ApiKeyStore.create self (CreateKeyRequest.name req) (CreateKeyRequest.consumer_id req) expires_at
                           (entropy call) (now call) (io call) in
      (self', let? (row, plaintext) := or_key r in Ok (issued_key row plaintext))
  end.

Definition rotate_key (call : Call) (self : ApiKeyStore.t) (id : Z) : Reply :=
  let '(self', r) := ApiKeyStore.rotate self id (entropy call) (now call) (io call) in
  (self', let? (row, plaintext) := or_key r in Ok (issued_key row plaintext)).

Definition key_listed (filter : option string) (row : ApiKeyRow.t) : bool :=
  match filter with
  | None => true
  | Some s => if String.eqb s "active" then bool_decide (ApiKeyRow.status row = KeyStatus.Active)
              else bool_decide (ApiKeyRow.status row = KeyStatus.Revoked)
  end.

Definition list_keys (call : Call) (self : ApiKeyStore.t) (status : option string) : Reply :=
  let wanted := lowercase <$> status in
  (self,
   if match wanted with Some s => negb (String.eqb s "active") && negb (String.eqb s "revoked") | None => false end
   then Err (AdminError.BadRequest ("`status` must be `active` or `revoked`, not `" +:+ default EmptyString wanted +:+ "`"))
   else
     let? rows := or_key (ApiKeyStore.list_keys self (io call)) in
     Ok (200, KeysBody (ApiKeyView.from_row <$> filter (λ row, key_listed wanted row = true) rows))).

Definition get_key (call : Call) (self : ApiKeyStore.t) (id : Z) : Reply :=
  (self,
   let? row := or_key (ApiKeyStore.get self id (io call)) in
   match row with
   | Some row => Ok (200, KeyBody (ApiKeyView.from_row row))
   | None => Err (AdminError.KeyNotFound id)
   end).

Definition update_key (call : Call) (self : ApiKeyStore.t) (id : Z) (name : option string) : Reply :=
  let '(self', r) := ApiKeyStore.update self id name (now call) (io call) in
  (self', let? row := or_key r in Ok (200, KeyBody (ApiKeyView.from_row row))).

Definition revoke_key (call : Call) (self : ApiKeyStore.t) (id : Z) : Reply :=
  let '(self', r) := ApiKeyStore.revoke self id (now call) (io call) in
  (self', let? row := or_key r in Ok (200, KeyBody (ApiKeyView.from_row row))).

(** *** Statements and payments *)

Definition list_statements (self : ApiKeyStore.t) (manager : ConsumerContext.t) (query : StatementsQuery.t) : Reply :=
  let db := portal_of self in
  let scope := resolve_scope manager (StatementsQuery.consumers query) in
  let '(limit, offset) := StatementsQuery.page query in
  (self,
   let rows := PartnerStore.list_statements db scope limit offset (StatementsQuery.unpaid query) in
   let total := count_statements db scope in
   let? (unpaid_count, unpaid_total) := or_billing (outstanding_totals db scope) in
   Ok (200, StatementsBody (StatementList.mk ((λ s, StatementView.for_manager s None) <$> rows) total limit offset
              unpaid_count (MicroUsd.as_i64 unpaid_total) (MicroUsd.display unpaid_total)))).

Definition get_statement (self : ApiKeyStore.t) (id : Z) : Reply :=
  let db := portal_of self in
  (self,
   match get_statement_by_id db id Scope.All with
   | None => Err (AdminError.StatementNotFound id)
   | Some statement =>
       let lines := (λ l, StatementLineView.from_row l.2) <$> statement_lines_for db id Scope.All in
       Ok (200, StatementBody (StatementView.for_manager (id, statement) (Some lines)))
   end).

(** [req.paid_by] trimmed, a blank or absent one as ["manager"]. *)
Definition recorder (raw : option string) : string := default "manager"%string (non_empty raw).

Definition owes_payment (s : Statement.t) : bool :=
  match Statement.billing_mode_value s with Some m => BillingMode.owes_payment m | None => false end.

Definition mark_paid (call : Call) (self : ApiKeyStore.t) (id : Z) (req : MarkPaidRequest.t) : Reply :=
  let paid_by := recorder (MarkPaidRequest.paid_by req) in
  let reference := non_empty (MarkPaidRequest.reference req) in
  let note := non_empty (MarkPaidRequest.note req) in
  let db := portal_of self in
  match get_statement_by_id db id Scope.All with
  | None => (self, Err (AdminError.StatementNotFound id))
  | Some existing =>
      if negb (owes_payment existing)
      then (self, Err (of_billing_error (StatementNotPayable id (Statement.billing_mode existing))))
      else if Statement.is_paid existing
      then (self, Ok (200, StatementBody (StatementView.for_manager (id, existing) None)))
      else
        let '(b, r) := BillingStore.mark_paid (billing db) id paid_by reference note (format_ts (now call)) in
        (with_portal self (mkStoreDb b (partner_models db)),
         let? statement := or_billing r in Ok (200, StatementBody (StatementView.for_manager (id, statement) None)))
  end.

Definition get_summary (call : Call) (self : ApiKeyStore.t) (manager : ConsumerContext.t) (query : StatementsQuery.t) : Reply :=
  let db := portal_of self in
  let scope := resolve_scope manager (StatementsQuery.consumers query) in
  (self,
   let statements := count_statements db scope in
   let? (unpaid_count, unpaid_total) := or_billing (outstanding_totals db scope) in
   let statuses := statuses_in_scope db scope (now call) (clock call) in
   let suspended := Z.of_nat (length (filter (λ s, ServiceStatusView.suspended s = true) statuses)) in
   Ok (200, SummaryBody (BillingSummary.mk (Z.of_nat (length statuses)) suspended statements unpaid_count
              (MicroUsd.as_i64 unpaid_total) (MicroUsd.display unpaid_total)))).

(** *** The surface *)
Definition handle (call : Call) (self : ApiKeyStore.t) (manager : ConsumerContext.t) (route : Route) : Reply :=
  match route with
  | CreatePartner req => create_partner call self req
  | ListPartners => list_partners self
  | GetPartner consumer_id => get_partner self consumer_id
  | UpdatePartner consumer_id req => update_partner call self consumer_id req
  | DeletePartner consumer_id => delete_partner call self consumer_id
  | GetModels consumer_id => get_models self consumer_id
  | ReplaceModels consumer_id views => replace_models call self consumer_id views
  | CreateKey req => create_key call self req
  | RotateKey id => rotate_key call self id
  | ListKeys status => list_keys call self status
  | GetKey id => get_key call self id
  | UpdateKey id name => update_key call self id name
  | RevokeKey id => revoke_key call self id
  | ListStatements query => list_statements self manager query
  | GetStatement id => get_statement self id
  | MarkPaid id req => mark_paid call self id req
  | GetSummary query => get_summary call self manager query
  end.

(** [ManagerOnly] is extracted before the path, the query and the body. *)
Definition serve (header : option string) (manager : option string) (call : Call) (self : ApiKeyStore.t) (route : Route)
    : ApiKeyStore.t * Response.t :=
  match manager_only header self manager with
  | Err e => (self, manager_only_response e)
  | Ok ctx =>
      match handle call self ctx route with
      | (self', Ok (status, body)) => (self', no_store status body)
      | (self', Err e) => (self', admin_error_response e)
      end
  end.
End Handlers.

(** ** Who may call *)
Section Guard.
Context `{TimeLaws, Digests}.

(** The credential of the request is the manager's password. *)
Definition is_manager_request (header : option string) (manager : option string) (self : ApiKeyStore.t) : Prop :=
  ∃ token, extract_bearer_token header = Ok token ∧ manager = Some token ∧ ApiKeyStore.authenticate self token = None.

Lemma manager_only_cases header manager self :
  match manager_only header self manager with
  | Ok ctx => is_manager_request header manager self ∧ ctx = ConsumerContext.manager
  | Err _ => ¬ is_manager_request header manager self
  end.
Proof.
  unfold manager_only, from_request_parts, is_manager_request.
  destruct (extract_bearer_token header) as [token|e] eqn:Et; [| by intros (? & [=] & _)].
  destruct (ApiKeyStore.authenticate self token) as [partner|] eqn:Ea.
  - cbn. intros (t & [= <-] & _ & E). congruence.
  - destruct (find_manager manager token) as [p|] eqn:Em.
    + apply find_manager_Some in Em as (-> & -> & _). cbn. split; [| done]. by exists token.
    + intros (t & [= <-] & -> & _).
      apply extract_bearer_token_Ok in Et as (? & ? & _ & _ & _ & _ & Hne).
      assert (find_manager (Some token) token = Some token) as E by (by apply find_manager_Some). congruence.
Qed.

(** C27. Only the manager's password administers. Without it nothing of the
    instance changes, and the answer is a refusal that depends on the
    credential alone: 401 for one that is no credential, 403 for a partner's
    key, the same for every route, whatever the database holds. With it the
    request is handled. Every answer forbids caching. *)
Theorem only_the_manager_administers (header : option string) (manager : option string) (call : Call) (self : ApiKeyStore.t) (route : Route) :
  let '(self', response) := serve header manager call self route in
  (¬ is_manager_request header manager self →
     self' = self
     ∧ ((∃ e, from_request_parts header self manager = Err e ∧ response = auth_error_response e ∧ Response.status response = 401)
        ∨ (is_ok (from_request_parts header self manager) = true ∧ response = manager_only_response NotManager
           ∧ Response.status response = 403)))
  ∧ (is_manager_request header manager self →
       self' = (handle call self ConsumerContext.manager route).1
       ∧ response = match (handle call self ConsumerContext.manager route).2 with
                    | Ok (status, body) => no_store status body
                    | Err e => admin_error_response e
                    end)
  ∧ ("cache-control", "no-store")%string ∈ Response.headers response.
Proof.
  unfold serve. pose proof (manager_only_cases header manager self) as Hm.
  destruct (manager_only header self manager) as [ctx|e] eqn:E.
  - destruct Hm as [Hm ->]. destruct (handle call self ConsumerContext.manager route) as [self' [[status body]|err]]; cbn [fst snd].
    + split_and!; [done | done | by left].
    + split_and!; [done | done |]. unfold admin_error_response. destruct (admin_error_parts err) as [[? ?] ?]. by left.
  - split_and!; [intros _; split; [done |] | done |].
    + unfold manager_only in E. destruct (from_request_parts header self manager) as [ctx|e'] eqn:Ef.
      * destruct (ConsumerContext.is_manager ctx); [done |]. injection E as <-. right. done.
      * injection E as <-. left. by exists e'.
    + destruct e; cbn; [by right; left | by left].
Qed.
End Guard.

(** ** What a request does to the database *)
Section Steps.
Context `{TimeLaws, Digests}.
Implicit Types self : ApiKeyStore.t.

(** Zero or more committed transactions. *)
Definition steps (self self' : ApiKeyStore.t) : Prop :=
  rtc key_step (ApiKeyStore.db self) (ApiKeyStore.db self') ∧ ApiKeyStore.secret self' = ApiKeyStore.secret self.

Lemma steps_refl self : steps self self.
Proof. by split. Qed.

Lemma steps_trans a b c : steps a b → steps b c → steps a c.
Proof. intros [Ha Ea] [Hb Eb]. split; [by etrans | congruence]. Qed.

Lemma steps_portal self p : portal_step (portal_of self) p → steps self (with_portal self p).
Proof. intros Hp. split; [| done]. apply rtc_once. by apply (key_portal (ApiKeyStore.db self) p). Qed.

Lemma steps_refresh call self : steps self (refresh_snapshot call self).
Proof. unfold refresh_snapshot. destruct (refresh_db self (io call)) as [E1 E2]. split; [by rewrite E1 | done]. Qed.

Lemma portal_with_portal self p : portal_of (with_portal self p) = p.
Proof. done. Qed.

Lemma steps_mutate {T} self io (f : KeyDb → result (KeyDb * Outcome T) SqlError) :
  (∀ db db' out, f db = Ok (db', out) → key_step db db') → steps self (ApiKeyStore.mutate self io f).1.
Proof.
  intros Hf. pose proof (mutate_cases self io f) as Hm. destruct (ApiKeyStore.mutate self io f) as [self' [out|e]].
  - destruct Hm as (db' & E & Hdb & Hs & _). split; [| done]. cbn [fst]. rewrite Hdb. apply rtc_once. by eapply Hf.
  - cbn. rewrite Hm. apply steps_refl.
Qed.

Lemma steps_create self name consumer_id expires_at entropy now io :
  steps self (ApiKeyStore.create self name consumer_id expires_at entropy now io).1.
Proof.
  unfold ApiKeyStore.create, ApiKeyStore.create_with_plaintext. destruct (generate_plaintext entropy) as [pt|]; [| apply steps_refl].
  destruct (require_text "name" name) as [n|]; [| apply steps_refl].
  destruct (require_text "consumer_id" consumer_id) as [c|]; [| apply steps_refl].
  destruct (str_is_empty (trim pt)); [apply steps_refl |].
  pose proof (mutate_domain_cases self io (create_body
    (NewKey.mk n c (key_prefix_of pt) (derive_key_hash (ApiKeyStore.secret self) pt) (format_ts now) (format_ts <$> expires_at)))) as Hm.
  destruct (ApiKeyStore.mutate_domain self io _) as [self' [out|e]]; cbn [fst].
  - destruct Hm as (db' & E & Hdb & Hs & _). split; [| done]. rewrite Hdb. apply rtc_once. by eapply key_create.
  - rewrite Hm. apply steps_refl.
Qed.

Lemma steps_keys call self id name :
  steps self (ApiKeyStore.update self id name (now call) (io call)).1
  ∧ steps self (ApiKeyStore.revoke self id (now call) (io call)).1
  ∧ steps self (ApiKeyStore.rotate self id (entropy call) (now call) (io call)).1.
Proof.
  split_and!.
  - unfold ApiKeyStore.update. destruct (match name with Some n => _ | None => _ end); [| apply steps_refl].
    pose proof (steps_mutate self (io call) (update_body id name (format_ts (now call)))) as Hm.
    destruct (ApiKeyStore.mutate self (io call) _). apply Hm. intros. by eapply key_update.
  - unfold ApiKeyStore.revoke. pose proof (steps_mutate self (io call) (revoke_body id (format_ts (now call)))) as Hm.
    destruct (ApiKeyStore.mutate self (io call) _). apply Hm. intros. by eapply key_revoke.
  - unfold ApiKeyStore.rotate. destruct (generate_plaintext _) as [pt|]; [| apply steps_refl].
    pose proof (steps_mutate self (io call) (rotate_body id (derive_key_hash (ApiKeyStore.secret self) pt) (key_prefix_of pt)
      (format_ts (now call)))) as Hm.
    destruct (ApiKeyStore.mutate self (io call) _). apply Hm. intros. by eapply key_rotate.
Qed.

Lemma steps_create_partner call self req : steps self (create_partner call self req).1.
Proof.
  unfold create_partner. destruct (let? mode := _ in _) as [[mode models]|e]; [| apply steps_refl]. cbv zeta.
  set (new := NewPartner.mk _ _ _ _ _).
  pose proof (portal_create (portal_of self) new (format_ts (now call))) as Hc.
  destruct (PartnerStore.create_partner (portal_of self) new (format_ts (now call))) as [db1 [partner|e]];
    [| by apply steps_portal]. cbn [fst] in Hc. apply steps_portal in Hc.
  set (m := match models with [] => _ | _ => _ end).
  assert (steps (with_portal self db1) (with_portal (with_portal self db1) m.1)) as Hm.
  { unfold m. destruct models as [|x l]; [apply steps_refl |]. apply steps_portal, portal_models. }
  destruct m as [db2 replaced]. cbn [fst] in Hm. pose proof (steps_trans _ _ _ Hc Hm) as H2'.
  destruct (let? _ := replaced in _) as [[billed count]|e]; [| exact H2'].
  eapply steps_trans; [exact H2' | apply steps_refresh].
Qed.

Lemma steps_update_partner call self consumer_id req : steps self (update_partner call self consumer_id req).1.
Proof.
  unfold update_partner. destruct (match UpdatePartnerRequest.billing_mode req with Some _ => _ | None => _ end) as [mode|e]; [| apply steps_refl].
  cbv zeta. destruct (match UpdatePartnerRequest.payment_terms_minutes req with Some _ => _ | None => _ end); [apply steps_refl |].
  set (patch := PartnerPatch.mk _ _ _ _).
  pose proof (portal_update (portal_of self) consumer_id patch (format_ts (now call))) as Hc.
  destruct (PartnerStore.update_partner (portal_of self) consumer_id patch (format_ts (now call))) as [db' r].
  cbn [fst] in Hc. apply steps_portal in Hc. destruct (let? partner := r in _) as [[partner [billed count]]|e]; [| exact Hc].
  eapply steps_trans; [exact Hc | apply steps_refresh].
Qed.

Lemma steps_delete_partner call self consumer_id : steps self (delete_partner call self consumer_id).1.
Proof.
  unfold delete_partner. cbv zeta. destruct (0 <? _); [apply steps_refl |].
  pose proof (portal_delete (portal_of self) consumer_id) as Hc.
  destruct (PartnerStore.delete_partner (portal_of self) consumer_id) as [db' [[]|e]];
    cbn [fst] in Hc; apply steps_portal in Hc; [| exact Hc]. eapply steps_trans; [exact Hc | apply steps_refresh].
Qed.

Lemma steps_replace_models call self consumer_id views : steps self (replace_models call self consumer_id views).1.
Proof.
  unfold replace_models. destruct (parse_models views) as [ms|e]; [| apply steps_refl].
  pose proof (portal_models (portal_of self) consumer_id ms (format_ts (now call))) as Hc.
  destruct (PartnerStore.replace_models (portal_of self) consumer_id ms (format_ts (now call))) as [db' [[]|e]];
    cbn [fst] in Hc; apply steps_portal in Hc; [| exact Hc]. eapply steps_trans; [exact Hc | apply steps_refresh].
Qed.

Lemma steps_mark_paid call self id req : steps self (mark_paid call self id req).1.
Proof.
  unfold mark_paid. cbv zeta. destruct (get_statement_by_id (portal_of self) id Scope.All) as [s|]; [| apply steps_refl].
  destruct (negb (owes_payment s)); [apply steps_refl |]. destruct (Statement.is_paid s); [apply steps_refl |].
  pose proof (portal_billing (portal_of self) _ (step_pay (billing (portal_of self)) id (recorder (MarkPaidRequest.paid_by req))
    (non_empty (MarkPaidRequest.reference req)) (non_empty (MarkPaidRequest.note req)) (format_ts (now call)))) as Hc.
  destruct (BillingStore.mark_paid _ _ _ _ _ _) as [b r]. by apply steps_portal.
Qed.

Lemma handle_steps call self ctx route : steps self (handle call self ctx route).1.
Proof.
  destruct route as [req| |c|c req|c|c|c views|req|id|status|id|id name|id|query|id|id req|query]; cbn [handle].
  - apply steps_create_partner.
  - apply steps_refl.
  - apply steps_refl.
  - apply steps_update_partner.
  - apply steps_delete_partner.
  - apply steps_refl.
  - apply steps_replace_models.
  - unfold create_key. destruct (parse_expiry _) as [e|]; [| apply steps_refl].
    pose proof (steps_create self (CreateKeyRequest.name req) (CreateKeyRequest.consumer_id req) e (entropy call) (now call) (io call)) as Hc.
    by destruct (ApiKeyStore.create _ _ _ _ _ _ _).
  - unfold rotate_key. destruct (steps_keys call self id None) as (_ & _ & Hc). by destruct (ApiKeyStore.rotate _ _ _ _ _).
  - apply steps_refl.
  - apply steps_refl.
  - unfold update_key. destruct (steps_keys call self id name) as (Hc & _ & _). by destruct (ApiKeyStore.update _ _ _ _ _).
  - unfold revoke_key. destruct (steps_keys call self id None) as (_ & Hc & _). by destruct (ApiKeyStore.revoke _ _ _ _).
  - unfold list_statements. destruct (StatementsQuery.page query). apply steps_refl.
  - apply steps_refl.
  - apply steps_mark_paid.
  - apply steps_refl.
Qed.
End Steps.

(** ** What no request can do *)
Section Records.
Context `{TimeLaws, Digests}.

Lemma insert_key_portal db k db' : insert_key db k = Ok db' → portal db' = portal db.
Proof. unfold insert_key. destruct (key_conflict db k); [done |]. by intros [= <-]. Qed.

Lemma key_step_portal db db' : key_step db db' → portal db' = portal db ∨ portal_step (portal db) (portal db').
Proof.
  destruct 1 as [db k db' out E|db id name now db' out E|db id now db' out E|db id hash prefix now db' out E|db p Hp]; [left.. | by right].
  - unfold create_body in E. destruct (insert_key db k) as [d|] eqn:Ei; [| by destruct (_ && _)].
    destruct (fetch_written_row _ _); [| done]. injection E as <- _. by eapply insert_key_portal.
  - unfold update_body in E. destruct (fetch_row db id) as [[r|]|]; cbn in E; [| by injection E as <- _ | done].
    destruct (negb _); [by injection E as <- _ |]. destruct (fetch_written_row _ _); [| done]. by injection E as <- _.
  - unfold revoke_body in E. destruct (fetch_row db id) as [[r|]|]; cbn in E; [| by injection E as <- _ | done].
    destruct (bool_decide _); [| by injection E as <- _]. destruct (fetch_written_row _ _); [| done]. by injection E as <- _.
  - unfold rotate_body in E. destruct (fetch_row db id) as [[r|]|]; cbn in E; [| by injection E as <- _ | done].
    destruct (negb _); [by injection E as <- _ |]. destruct (insert_key _ _) as [d|] eqn:Ei; [| done]. cbn in E.
    destruct (fetch_written_row _ _); [| done]. injection E as <- _. by apply insert_key_portal in Ei.
Qed.

(** What is kept of a database: its keys, and its bills with their owners. *)
Definition records_kept (db db' : KeyDb) : Prop :=
  (∀ i k, api_keys db !! i = Some k → ∃ k', api_keys db' !! i = Some k' ∧ key_carries_on k k')
  ∧ (∀ i s, daily_statements (billing (portal db)) !! i = Some s →
       is_Some (partner_rows (portal db') !! Statement.consumer_id s)
       ∧ ∃ s', daily_statements (billing (portal db')) !! i = Some s' ∧ carries_on s s').

Lemma records_refl db : keys_wf db → records_kept db db.
Proof.
  intros Hwf. split; [intros i k Hk; by exists k |]. intros i s Hs.
  split; [by eapply (wf_statement _ (kw_portal _ Hwf)) | by exists s].
Qed.

Lemma records_trans db1 db2 db3 : records_kept db1 db2 → records_kept db2 db3 → records_kept db1 db3.
Proof.
  intros [K1 B1] [K2 B2]. split.
  - intros i k Hk. destruct (K1 i k Hk) as (k1 & Hk1 & C1). destruct (K2 i k1 Hk1) as (k2 & Hk2 & C2).
    exists k2. split; [done | by etrans].
  - intros i s Hs. destruct (B1 i s Hs) as (_ & s1 & Hs1 & C1). destruct (B2 i s1 Hs1) as (Hp & s2 & Hs2 & C2).
    assert (Statement.consumer_id s1 = Statement.consumer_id s) as E by apply C1. rewrite <- E.
    split; [done |]. exists s2. split; [done | by etrans].
Qed.

Lemma key_steps_keep db db' : keys_wf db → rtc key_step db db' → keys_wf db' ∧ records_kept db db'.
Proof.
  intros Hwf Hs. induction Hs as [db|db db1 db2 Hstep _ IH]; [split; [done | by apply records_refl] |].
  destruct (key_step_ok db db1 Hwf Hstep) as [Hwf1 Hk]. destruct (IH Hwf1) as [Hwf2 Hr]. split; [done |].
  refine (records_trans _ _ _ _ Hr). split; [exact Hk |]. intros i s Hs.
  destruct (key_step_portal _ _ Hstep) as [E|Hp].
  - rewrite E. split; [by eapply (wf_statement _ (kw_portal _ Hwf)) | by exists s].
  - destruct (portal_step_history _ _ _ _ (kw_portal _ Hwf) Hp Hs) as (s1 & Hs1 & C1).
    split; [| by exists s1]. assert (Statement.consumer_id s1 = Statement.consumer_id s) as <- by apply C1.
    by eapply (wf_statement _ (kw_portal _ Hwf1)).
Qed.

(** Any number of requests, each with its own credential. *)
Definition serve_all (manager : option string) (self : ApiKeyStore.t) (requests : list (option string * Call * Route)) : ApiKeyStore.t :=
  foldl (λ s r, (serve r.1.1 manager r.1.2 s r.2).1) self requests.

Lemma serve_steps header manager call self route : steps self (serve header manager call self route).1.
Proof.
  unfold serve. destruct (manager_only header self manager) as [ctx|e]; [| apply steps_refl].
  pose proof (handle_steps call self ctx route) as Hs.
  by destruct (handle call self ctx route) as [self' [[status body]|e]].
Qed.

(** C28. No sequence of administration requests, whoever sends them, breaks the
    tables or loses a record: the keys, accounts, price lists and bills stay
    well formed (one live key per consumer, one bill per partner and day, each
    the sum of its lines), no key row goes away and a revoked one never
    changes, no bill goes away, changes its amount or loses its account, a
    recorded payment is never overwritten, and the hashing secret is the one
    it was. *)
Theorem administration_keeps_the_records (manager : option string) (self : ApiKeyStore.t) (requests : list (option string * Call * Route))
    (Hwf : keys_wf (ApiKeyStore.db self)) :
  let self' := serve_all manager self requests in
  keys_wf (ApiKeyStore.db self') ∧ records_kept (ApiKeyStore.db self) (ApiKeyStore.db self')
  ∧ ApiKeyStore.secret self' = ApiKeyStore.secret self.
Proof.
  cbv zeta. assert (steps self (serve_all manager self requests)) as [Hs Hsec].
  { revert self Hwf. induction requests as [|r requests IH]; intros self Hwf; [apply steps_refl |].
    pose proof (serve_steps r.1.1 manager r.1.2 self r.2) as Hs. eapply steps_trans; [exact Hs |]. apply IH.
    by apply (key_steps_keep _ _ Hwf (proj1 Hs)). }
  destruct (key_steps_keep _ _ Hwf Hs). done.
Qed.
End Records.

(** ** Prices on the wire *)

Lemma parse_price_Ok model field raw p : parse_price model field raw = Ok p → price_in_range p.
Proof.
  unfold parse_price. destruct (PricePerMillion.parse (trim raw)) as [q|] eqn:E; [| done]. intros [= <-].
  by apply parse_price_range in E.
Qed.

Lemma parse_price_shown model field p :
  price_in_range p → parse_price model field (PricePerMillion.to_decimal_string (PricePerMillion.new (PricePerMillion.as_i64 p))) = Ok p.
Proof.
  intros Hp. unfold parse_price. by rewrite parse_shown_price.
Qed.

(** What [parse_models] lets through. *)
Definition acceptable (seen : list string) (ms : list ModelPrice.t) : Prop :=
  NoDup ((λ e, trim (ModelPrice.model e)) <$> ms)
  ∧ Forall (λ e, trim (ModelPrice.model e) ≠ ""%string ∧ (trim (ModelPrice.model e) ∉ seen)
                 ∧ prices_in_range (ModelPrice.prices e)) ms.

Lemma acceptable_cons seen e ms :
  acceptable seen (e :: ms) ↔
  (trim (ModelPrice.model e) ≠ ""%string ∧ (trim (ModelPrice.model e) ∉ seen) ∧ prices_in_range (ModelPrice.prices e))
  ∧ acceptable (trim (ModelPrice.model e) :: seen) ms.
Proof.
  unfold acceptable. rewrite fmap_cons, NoDup_cons, Forall_cons_iff, !Forall_forall.
  split.
  - intros [[Hn Hnd] [He Hall]]. split_and!; try tauto. intros x Hx. destruct (Hall x Hx) as (Hx1 & Hx2 & Hx3).
    split_and!; try done; try apply Hx3. apply not_elem_of_cons. split; [| done]. intros E. apply Hn. rewrite <- E.
    by apply (list_elem_of_fmap_2 (λ e, trim (ModelPrice.model e))).
  - intros [He [Hnd Hall]]. split_and!; try tauto.
    + intros (x & E & Hx)%list_elem_of_fmap. destruct (Hall x Hx) as (_ & Hn & _). apply Hn. rewrite <- E. by left.
    + intros x Hx. by destruct (Hall x Hx) as (? & [_ ?]%not_elem_of_cons & ?).
Qed.

Lemma parse_models_Ok seen views ms :
  parse_models_from seen views = Ok ms → acceptable seen ms ∧ ModelPrice.model <$> ms = ModelPriceView.model <$> views.
Proof.
  revert seen ms. induction views as [|v views IH]; intros seen ms; cbn [parse_models_from].
  { intros [= <-]. split; [by split; constructor | done]. }
  pose proof (str_is_empty_spec (trim (ModelPriceView.model v))) as Hemp.
  destruct (str_is_empty _); [done |]. case_bool_decide as Hseen; [done |].
  destruct (parse_price _ "input_per_million" _) as [pi|] eqn:Ei; [| done].
  destruct (parse_price _ "cached_input_per_million" _) as [pc|] eqn:Ec; [| done].
  destruct (parse_price _ "output_per_million" _) as [po|] eqn:Eo; [| done]. cbn.
  destruct (parse_models_from _ views) as [rest|] eqn:Er; [| done]. cbn. intros [= <-].
  apply IH in Er as [Hacc Hnames]. split; [| cbn; by f_equal]. apply acceptable_cons. cbn. split; [| done].
  split_and!; [naive_solver | done |].
  split_and!; by eapply parse_price_Ok.
Qed.

Lemma parse_models_shown seen ms :
  acceptable seen ms → parse_models_from seen (ModelPriceView.from_row <$> ms) = Ok ms.
Proof.
  revert seen. induction ms as [|e ms IH]; intros seen; [done |]. rewrite acceptable_cons. intros [(Hne & Hn & Hi & Hc & Ho) Hacc].
  rewrite fmap_cons. destruct e as [m [i c o]]. cbn [ModelPriceView.from_row PricingSnapshot.as_tuple] in *.
  cbn [parse_models_from ModelPriceView.from_row ModelPriceView.model ModelPrice.model] in *.
  unfold ModelPriceView.from_row. cbn [ModelPrice.prices PricingSnapshot.as_tuple PricingSnapshot.input PricingSnapshot.cached_input
    PricingSnapshot.output ModelPriceView.model ModelPriceView.input_per_million ModelPriceView.cached_input_per_million
    ModelPriceView.output_per_million ModelPrice.model] in *.
  destruct (str_is_empty (trim m)) eqn:Ee; [by apply str_is_empty_spec in Ee |].
  rewrite bool_decide_eq_false_2 by done. rewrite !parse_price_shown by done. cbn. fold ModelPriceView.from_row. by rewrite IH.
Qed.

Lemma models_elem db c e :
  e ∈ models db c ↔ ∃ r, partner_models db !! (c, ModelPrice.model e) = Some r ∧ ModelRow.prices r = ModelPrice.prices e.
Proof.
  unfold models, models_of. rewrite list_elem_of_fmap. setoid_rewrite merge_sort_Permutation.
  setoid_rewrite list_elem_of_fmap. setoid_rewrite list_elem_of_filter. setoid_rewrite elem_of_map_to_list'. split.
  - intros (mp & -> & [[c' m] r] & -> & [Hc Hr]). cbn in *. subst c'. by exists r.
  - intros (r & Hr & Ep). exists (ModelPrice.model e, ModelPrice.prices e). split; [by destruct e |].
    exists ((c, ModelPrice.model e), r). cbn. by rewrite Ep.
Qed.

Lemma models_names_nodup db c : NoDup (ModelPrice.model <$> models db c).
Proof.
  unfold models. rewrite <- list_fmap_compose. cbn. rewrite merge_sort_Permutation. unfold models_of.
  rewrite <- list_fmap_compose. cbn. pose proof (NoDup_fst_map_to_list (partner_models db)) as Hnd.
  induction (map_to_list (partner_models db)) as [|[[c' m] r] l IH]; [constructor |]. cbn in Hnd. apply NoDup_cons in Hnd as [Hn Hnd].
  rewrite filter_cons. destruct (decide _) as [E|]; [| by apply IH]. cbn in E. subst c'. rewrite fmap_cons. apply NoDup_cons.
  split; [| by apply IH]. intros ([[c' m'] r'] & E & [Hc Hin]%list_elem_of_filter)%list_elem_of_fmap. cbn in *. subst c' m'.
  apply Hn. apply list_elem_of_fmap. by exists ((c, m), r').
Qed.

Section PriceList.
Context `{TimeLaws, Digests}.

Lemma with_portal_same self : with_portal self (portal_of self) = self.
Proof. by destruct self as [[keys next p] secret snapshot]. Qed.

Lemma acceptable_prices ms : acceptable [] ms → Forall (λ e, trim (ModelPrice.model e) ≠ ""%string ∧ prices_ok (ModelPrice.prices e)) ms.
Proof.
  intros [_ Hall]. eapply Forall_impl; [exact Hall |]. cbn. intros e (Hne & _ & Hi & Hc & Ho). split; [done |].
  unfold prices_ok, price_in_range, PricingSnapshot.as_tuple in *. lia.
Qed.

(** C30. A price list takes effect as it was read. [PUT] succeeds exactly when every
    name is there once and not blank, every price is a decimal in range, and
    the account exists (or the list is empty); otherwise nothing changes. Then
    the account's models are those of the request; what the answer shows reads
    back as the very prices stored, for a later [PUT] too; and from the next
    request on a key of the partner may call exactly these models, each at its
    price. *)
Theorem price_list_takes_effect (call : Call) (self : ApiKeyStore.t) (c : string) (views : list ModelPriceView.t)
    (Hwf : keys_wf (ApiKeyStore.db self)) (Hread : ApiKeyStore.read (io call) = None) :
  let '(self', r) := replace_models call self c views in
  (is_ok r = true ↔
     is_ok (parse_models views) = true ∧ (views = [] ∨ is_Some (PartnerStore.get_partner (portal_of self) c)))
  ∧ match r with
    | Err _ => self' = self
    | Ok (status, body) =>
        ∃ ms shown, status = 200 ∧ body = ModelsBody shown ∧ parse_models views = Ok ms
        ∧ models (portal_of self') c ≡ₚ ms ∧ parse_models shown = Ok (models (portal_of self') c)
        ∧ ∀ token cfg, ApiKeyStore.authenticate self' token = Some cfg → PartnerRuntimeConfig.consumer_id cfg = c →
            ∀ model prices, PartnerRuntimeConfig.pricing_for cfg model = Some prices ↔ ModelPrice.mk model prices ∈ ms
    end.
Proof.
  pose proof (steps_replace_models call self c views) as [Hsteps _].
  unfold replace_models in *. destruct (parse_models views) as [ms|e] eqn:Ep; [| by split; [split; [done | by intros [? _]] |]].
  apply parse_models_Ok in Ep as [Hacc Hnames].
  pose proof (replace_models_exact (portal_of self) c ms (format_ts (now call))) as Hx.
  destruct (PartnerStore.replace_models (portal_of self) c ms (format_ts (now call))) as [db' [[]|e]]; destruct Hx as [Hok Hx]; cbn [is_ok fst] in *.
  2:{ rewrite Hx, with_portal_same. split; [| done]. split; [done |]. intros [_ Hp]. apply Hok. split_and!; [apply Hacc | by apply acceptable_prices |].
      destruct Hp as [->|Hp]; [left; by apply fmap_nil_inv in Hnames | by right]. }
  destruct Hx as (Hrows & _ & _). set (self' := refresh_snapshot call (with_portal self db')) in *.
  destruct (refresh_fresh (with_portal self db') (io call) Hread) as (Hf & Hdb & _). change ((ApiKeyStore.refresh _ _).1.1) with self' in Hf, Hdb.
  assert (portal_of self' = db') as Hportal by (unfold portal_of; by rewrite Hdb).
  destruct (key_steps_keep _ _ Hwf Hsteps) as [Hwf' _].
  assert (models db' c ≡ₚ ms) as Hperm.
  { apply NoDup_Permutation; [by apply (NoDup_fmap_1 ModelPrice.model), models_names_nodup
      | by apply (NoDup_fmap_1 ModelPrice.model), NoDup_trimmed, Hacc |].
    intros e. rewrite models_elem. split.
    - intros (r & Hr & E). apply Hrows in Hr as (e' & He' & Em & ->). cbn in E. destruct e as [m p], e' as [m' p']. cbn in *. by rewrite Em, <- E.
    - intros He. exists (ModelRow.mk (ModelPrice.prices e) (format_ts (now call)) (format_ts (now call))). split; [| done].
      apply Hrows. by exists e. }
  split.
  - split; [intros _; split; [done |] | done]. destruct (proj1 Hok eq_refl) as (_ & _ & [->|Hp]); [left | by right].
    symmetry in Hnames. by apply fmap_nil_inv in Hnames.
  - exists ms, (ModelPriceView.from_row <$> models db' c). rewrite Hportal. split_and!; try done.
    + apply parse_models_shown. destruct Hacc as [Hnd Hall]. split; by rewrite Hperm.
    + intros token cfg Ha Hc model prices. apply (authenticate_fresh self' _ token cfg Hwf' Hf) in Ha as (id & k & Hk & _ & _ & Hd).
      rewrite (de_models _ _ _ _ Hd), <- (de_consumer _ _ _ _ Hd), Hc. change (portal (ApiKeyStore.db self')) with (portal_of self').
      rewrite Hportal, <- Hperm, models_elem, fmap_Some. cbn [ModelPrice.model ModelPrice.prices]. clear. naive_solver.
Qed.
End PriceList.

(** ** Payments *)
Section Payments.
Context `{TimeLaws, Digests}.

Lemma recorder_not_blank raw : str_is_empty (trim (recorder raw)) = false.
Proof.
  apply not_true_iff_false. intros E%str_is_empty_spec. revert E. unfold recorder, non_empty.
  destruct raw as [s|]; [| by vm_compute]. destruct (str_is_empty (trim s)) eqn:E; [by vm_compute |]. cbn [default from_option id].
  rewrite trim_trim. intros Eq%str_is_empty_spec. congruence.
Qed.

Lemma owes_payment_invoice s : owes_payment s = String.eqb (Statement.billing_mode s) "invoice".
Proof.
  unfold owes_payment, Statement.billing_mode_value, BillingMode.parse.
  destruct (String.eqb _ "invoice"); [done |]. by destruct (String.eqb _ "reconciliation").
Qed.

Lemma get_statement_by_id_all db id : get_statement_by_id db id Scope.All = daily_statements (PartnerStore.billing db) !! id.
Proof.
  unfold get_statement_by_id. destruct (_ !! id) as [s|]; [| done]. by rewrite in_scope_admits.
Qed.

Lemma mark_paid_reply call self id req :
  mark_paid call self id req =
  match daily_statements (PartnerStore.billing (portal_of self)) !! id with
  | None => (self, Err (AdminError.StatementNotFound id))
  | Some s =>
      if negb (owes_payment s) then (self, Err (AdminError.StatementNotPayable id (Statement.billing_mode s)))
      else if Statement.is_paid s then (self, Ok (200, StatementBody (StatementView.for_manager (id, s) None)))
      else
        let s' := paid_row (format_ts (now call)) (recorder (MarkPaidRequest.paid_by req))
                    (non_empty (MarkPaidRequest.reference req)) (non_empty (MarkPaidRequest.note req)) s in
        (with_portal self (mkStoreDb (with_statements (PartnerStore.billing (portal_of self))
            (<[id := s']> (daily_statements (PartnerStore.billing (portal_of self))))) (partner_models (portal_of self))),
         Ok (200, StatementBody (StatementView.for_manager (id, s') None)))
  end.
Proof.
  unfold mark_paid. cbv zeta. rewrite get_statement_by_id_all.
  destruct (daily_statements _ !! id) as [s|] eqn:Es; [| done]. destruct (negb (owes_payment s)) eqn:Eo; [done |].
  destruct (Statement.is_paid s) eqn:Ep; [done |]. rewrite mark_paid_cases by apply recorder_not_blank. rewrite Es, Ep.
  rewrite owes_payment_invoice in Eo. by destruct (String.eqb _ _).
Qed.

(** A payment is recorded once. An id of no statement is a 404 and a
    reconciliation statement a 409, and nothing changes; an unpaid invoice
    takes the payment as given, trimmed, in the manager's name when no name
    is, and from then on cannot suspend anyone; a paid one is answered as it
    stands. No other statement and no key changes, and a second request,
    whatever it says, gets the first one's answer and changes nothing. *)
Theorem payment_is_recorded_once (call call2 : Call) (self : ApiKeyStore.t) (id : Z) (req req2 : MarkPaidRequest.t) :
  let rows s := daily_statements (PartnerStore.billing (portal_of s)) in
  let '(self1, r1) := mark_paid call self id req in
  match rows self !! id with
  | None => r1 = Err (AdminError.StatementNotFound id) ∧ self1 = self
  | Some s =>
      if negb (String.eqb (Statement.billing_mode s) "invoice")
      then r1 = Err (AdminError.StatementNotPayable id (Statement.billing_mode s)) ∧ self1 = self
      else if Statement.is_paid s then r1 = Ok (200, StatementBody (StatementView.for_manager (id, s) None)) ∧ self1 = self
      else ∃ s', r1 = Ok (200, StatementBody (StatementView.for_manager (id, s') None)) ∧ rows self1 !! id = Some s'
           ∧ Statement.paid_at s' = Some (format_ts (now call)) ∧ Statement.paid_by s' = Some (recorder (MarkPaidRequest.paid_by req))
           ∧ Statement.payment_reference s' = non_empty (MarkPaidRequest.reference req)
           ∧ Statement.total_amount_micro_usd s' = Statement.total_amount_micro_usd s ∧ Statement.can_suspend s' = false
  end
  ∧ (∀ j, j ≠ id → rows self1 !! j = rows self !! j) ∧ api_keys (ApiKeyStore.db self1) = api_keys (ApiKeyStore.db self)
  ∧ mark_paid call2 self1 id req2 = (self1, r1).
Proof.
  cbv zeta. rewrite mark_paid_reply. destruct (daily_statements _ !! id) as [s|] eqn:Es.
  2:{ split_and!; try done. by rewrite mark_paid_reply, Es. }
  rewrite <- owes_payment_invoice. destruct (owes_payment s) eqn:Eo; cbn [negb].
  2:{ split_and!; try done. by rewrite mark_paid_reply, Es, Eo. }
  destruct (Statement.is_paid s) eqn:Ep.
  { split_and!; try done. by rewrite mark_paid_reply, Es, Eo, Ep. }
  cbv zeta. set (s' := paid_row _ _ _ _ s). rewrite portal_with_portal.
  cbn [PartnerStore.billing with_statements daily_statements]. split_and!.
  - exists s'. rewrite lookup_insert_eq. split_and!; try done. unfold s', Statement.can_suspend, Statement.is_outstanding. cbn.
    by rewrite andb_false_r.
  - intros j Hj. by rewrite lookup_insert_ne.
  - done.
  - rewrite mark_paid_reply, portal_with_portal. cbn [PartnerStore.billing with_statements daily_statements]. rewrite lookup_insert_eq.
    change (owes_payment s') with (owes_payment s). by rewrite Eo.
Qed.
End Payments.

(** ** Secrets *)
Section Secrets.
Context `{TimeLaws, Digests}.

Lemma create_Ok self name consumer_id expires_at entropy now io self' row pt :
  keys_wf (ApiKeyStore.db self) → ApiKeyStore.create self name consumer_id expires_at entropy now io = (self', Ok (row, pt)) →
  generate_plaintext entropy = Ok pt
  ∧ let k := new_row (issued self name consumer_id expires_at pt now) in
    let id := next_key_id (ApiKeyStore.db self) in
    row = view id k ∧ api_keys (ApiKeyStore.db self') !! id = Some k ∧ keys_wf (ApiKeyStore.db self')
    ∧ ApiKeyStore.secret self' = ApiKeyStore.secret self
    ∧ (ApiKeyStore.read io = None → fresh self' (ApiKeyStore.refresh_now io)).
Proof.
  intros Hwf. unfold ApiKeyStore.create, ApiKeyStore.create_with_plaintext.
  destruct (generate_plaintext entropy) as [p|]; [| done].
  destruct (require_text "name" name) as [n|] eqn:En; [| done]. apply require_text_Ok in En as [-> _].
  destruct (require_text "consumer_id" consumer_id) as [c|] eqn:Ec; [| done]. apply require_text_Ok in Ec as [-> _].
  destruct (str_is_empty (trim p)); [done |].
  change (NewKey.mk _ _ _ _ _ _) with (issued self name consumer_id expires_at p now). set (key := issued _ _ _ _ _ _).
  pose proof (mutate_domain_cases self io (create_body key)) as Hm.
  destruct (ApiKeyStore.mutate_domain self io (create_body key)) as [s1 [out|e]]; [| done].
  destruct Hm as (db' & E & Hdb & Hsec & Hfresh). rewrite create_body_cases in E by done.
  destruct (insert_key (ApiKeyStore.db self) key) as [d|] eqn:Ei; [| by destruct (active_key_exists _ _)].
  injection E as <- <-. cbn. intros [= <- <- <-]. split; [done |].
  destruct (insert_key_Ok _ _ _ Hwf Ei) as (Hwf' & Ed & _). rewrite Hdb.
  split_and!; try done. rewrite Ed. cbn. apply lookup_insert_eq.
Qed.

Lemma rotate_fresh self id entropy now io self' x :
  ApiKeyStore.rotate self id entropy now io = (self', Ok x) →
  ApiKeyStore.secret self' = ApiKeyStore.secret self ∧ (ApiKeyStore.read io = None → fresh self' (ApiKeyStore.refresh_now io)).
Proof.
  unfold ApiKeyStore.rotate. destruct (generate_plaintext entropy) as [pt|]; [| done].
  pose proof (mutate_cases self io (rotate_body id (derive_key_hash (ApiKeyStore.secret self) pt) (key_prefix_of pt) (format_ts now))) as Hm.
  destruct (ApiKeyStore.mutate self io _) as [s1 [out|e]]; [| done]. destruct Hm as (db' & _ & _ & Hsec & Hf).
  intros [= <- _]. done.
Qed.

(** The other handlers' bodies. *)
Definition not_issued (r : Reply) : Prop := match r.2 with Ok (_, IssuedBody _) => False | _ => True end.

Lemma other_bodies call self manager route :
  match route with CreateKey _ | RotateKey _ => True | _ => not_issued (handle call self manager route) end.
Proof.
  destruct route; cbn [handle]; try done; unfold not_issued.
  - unfold create_partner. repeat case_match; simplify_eq/=; done.
  - unfold list_partners. cbn. by destruct (or_billing _).
  - unfold get_partner. cbn. destruct (or_billing _); [| done]. cbn. by destruct (or_billing _) as [[]|].
  - unfold update_partner. repeat case_match; simplify_eq/=; done.
  - unfold delete_partner. repeat case_match; simplify_eq/=; done.
  - unfold get_models. repeat case_match; simplify_eq/=; done.
  - unfold replace_models. repeat case_match; simplify_eq/=; done.
  - unfold list_keys. cbn. destruct (match lowercase <$> status with Some _ => _ | None => _ end); [done |]. by destruct (or_key _).
  - unfold get_key. cbn. by destruct (or_key _) as [[]|].
  - unfold update_key. destruct (ApiKeyStore.update _ _ _ _ _) as [? [?|?]]; done.
  - unfold revoke_key. destruct (ApiKeyStore.revoke _ _ _ _) as [? [?|?]]; done.
  - unfold list_statements. destruct (StatementsQuery.page query). cbn. by destruct (or_billing _) as [[]|].
  - unfold get_statement. repeat case_match; simplify_eq/=; done.
  - rewrite mark_paid_reply. repeat case_match; simplify_eq/=; done.
  - unfold get_summary. cbn. by destruct (or_billing _) as [[]|].
Qed.

(** C29. A secret is shown once, and works at once. Only issuing and rotating a key
    answer with a secret. The one shown was generated for this answer; its hash
    is the stored row's, the row is the one the answer describes and the only
    live key of its consumer, and from the next request on the secret
    authenticates as that consumer, unless the key's expiry has passed. *)
Theorem issued_secret_works_at_once (call : Call) (self self' : ApiKeyStore.t) (manager : ConsumerContext.t) (route : Route)
    (status : Z) (v : IssuedKeyView.t)
    (Hwf : keys_wf (ApiKeyStore.db self)) (Hread : ApiKeyStore.read (io call) = None)
    (Hres : handle call self manager route = (self', Ok (status, IssuedBody v))) :
  ((∃ req, route = CreateKey req) ∨ ∃ id, route = RotateKey id) ∧ status = 201
  ∧ ∃ pt id k, IssuedKeyView.key_secret v = Some pt ∧ generate_plaintext (entropy call) = Ok pt
    ∧ api_keys (ApiKeyStore.db self') !! id = Some k ∧ IssuedKeyView.key v = ApiKeyView.from_row (view id k)
    ∧ KeyRow.key_hash k = derive_key_hash (ApiKeyStore.secret self') pt
    ∧ is_active_row k = true
    ∧ (∀ j k', api_keys (ApiKeyStore.db self') !! j = Some k' → is_active_row k' = true →
         KeyRow.consumer_id k' = KeyRow.consumer_id k → j = id)
    ∧ (if usable (format_ts (ApiKeyStore.refresh_now (io call))) k
       then ∃ cfg, ApiKeyStore.authenticate self' pt = Some cfg ∧ PartnerRuntimeConfig.consumer_id cfg = KeyRow.consumer_id k
       else ApiKeyStore.authenticate self' pt = None).
Proof.
  assert (∀ id k pt, keys_wf (ApiKeyStore.db self') → fresh self' (ApiKeyStore.refresh_now (io call)) →
    api_keys (ApiKeyStore.db self') !! id = Some k → KeyRow.key_hash k = derive_key_hash (ApiKeyStore.secret self') pt →
    if usable (format_ts (ApiKeyStore.refresh_now (io call))) k
    then ∃ cfg, ApiKeyStore.authenticate self' pt = Some cfg ∧ PartnerRuntimeConfig.consumer_id cfg = KeyRow.consumer_id k
    else ApiKeyStore.authenticate self' pt = None) as Hauth.
  { intros id k pt Hw Hf Hk Hh. pose proof (authenticate_row self' _ pt id k Hw Hf Hk Hh) as Ha. destruct (usable _ k); [| done].
    destruct Ha as (cfg & Ea & Hd). exists cfg. split; [done | by apply Hd]. }
  pose proof (other_bodies call self manager route) as Hother.
  destruct route as [req| |c|c req|c|c|c views|req|id|st|id|id name|id|query|id|id req|query];
    try (unfold not_issued in Hother; by rewrite Hres in Hother); cbn [handle] in Hres.
  - unfold create_key in Hres. destruct (parse_expiry _) as [e|]; [| done].
    destruct (ApiKeyStore.create _ _ _ _ _ _ _) as [s1 [[row pt]|err]] eqn:Ec; [| done]. cbn in Hres. injection Hres as <- <- <-.
    destruct (create_Ok _ _ _ _ _ _ _ _ _ _ Hwf Ec) as (Hg & -> & Hk & Hwf' & Hsec & Hf).
    split; [left; by exists req |]. split; [done |]. eexists pt, _, _. split_and!; try done; [by rewrite Hsec | |].
    + intros j k' Hj Ha Hcons. by apply (kw_active _ Hwf' j _ k' _ Hj Hk Ha eq_refl).
    + apply (Hauth _ _ _ Hwf' (Hf Hread) Hk). by rewrite Hsec.
  - unfold rotate_key in Hres. pose proof (rotate_exact self id (entropy call) (now call) (io call) Hwf) as Hx.
    destruct (ApiKeyStore.rotate _ _ _ _ _) as [s1 [[row pt]|err]] eqn:Er; [| done]. cbn in Hres. injection Hres as <- <- <-.
    destruct Hx as (k & Hk & Ha & Hg & -> & Htab & Hwf' & Hone & _). destruct (rotate_fresh _ _ _ _ _ _ _ Er) as [Hsec Hf].
    split; [right; by exists id |]. split; [done |].
    assert (api_keys (ApiKeyStore.db s1) !! next_key_id (ApiKeyStore.db self)
      = Some (new_row (successor k (derive_key_hash (ApiKeyStore.secret self) pt) (key_prefix_of pt) (format_ts (now call))))) as Hnew
      by (rewrite Htab; apply lookup_insert_eq).
    eexists pt, _, _. split_and!; try done; [by rewrite Hsec |].
    apply (Hauth _ _ _ Hwf' (Hf Hread) Hnew). by rewrite Hsec.
Qed.
End Secrets.

(** ** At a concrete portal: one partner, one bill, one key *)
Section Example_portal.
Local Existing Instance Gregorian.

Definition call_1 : Call := mkCall t1 t1 (format_ts t1) (Ok [1; 2; 3]) io_1.
Definition view_1 : ModelPriceView.t := ModelPriceView.mk "gpt-4o" "0.095" "0.0475" "0.475".
Definition password : option string := Some "hunter2"%string.
Definition header_1 : option string := Some "Bearer hunter2"%string.
Definition requests_1 : list (option string * Call * Route) :=
  [(header_1, call_1, ReplaceModels "acme" [view_1]); (None, call_1, RevokeKey 1);
   (header_1, call_1, DeletePartner "acme"); (header_1, call_1, RotateKey 1);
   (header_1, call_1, MarkPaid 1 (MarkPaidRequest.mk None None None))].
End Example_portal.

Lemma administration_keeps_the_records_witness :
  keys_wf (keys_1 None)
  ∧ (let self' := serve_all password (store_of (keys_1 None)) requests_1 in
     is_Some (api_keys (ApiKeyStore.db self') !! 1) ∧ is_Some (partner_rows (portal_of self') !! "acme"%string)).
Proof.
  split; [exact (keys_1_wf None) |].
  destruct (administration_keeps_the_records password (store_of (keys_1 None)) requests_1 (keys_1_wf None)) as (_ & [Hk Hb] & _).
  split.
  - destruct (Hk 1 _ (keys_1_lookup None)) as (k' & E & _). by exists k'.
  - apply (Hb 1 statement_1). exact portal_1_statement.
Defined.

Lemma price_list_takes_effect_witness :
  keys_wf (keys_1 None) ∧ ApiKeyStore.read (io call_1) = None
  ∧ is_ok (replace_models call_1 (store_of (keys_1 None)) "acme" [view_1]).2 = true
  ∧ (replace_models call_1 (store_of (keys_1 None)) "acme" [view_1; view_1]).1 = store_of (keys_1 None).
Proof.
  split; [exact (keys_1_wf None) |]. split; [reflexivity |]. split.
  - pose proof (price_list_takes_effect call_1 (store_of (keys_1 None)) "acme" [view_1] (keys_1_wf None) eq_refl) as X.
    destruct (replace_models call_1 (store_of (keys_1 None)) "acme" [view_1]) as [self' r]. apply X.
    split; [vm_compute; reflexivity |]. right. eexists. vm_compute. reflexivity.
  - pose proof (price_list_takes_effect call_1 (store_of (keys_1 None)) "acme" [view_1; view_1] (keys_1_wf None) eq_refl) as X.
    destruct (replace_models call_1 (store_of (keys_1 None)) "acme" [view_1; view_1]) as [self' [[status body]|e]].
    + destruct X as [X _]. destruct (proj1 X eq_refl) as [X' _]. vm_compute in X'. discriminate X'.
    + apply X.
Defined.

Lemma issued_secret_works_at_once_witness :
  keys_wf keys_0 ∧ ApiKeyStore.read (io call_1) = None
  ∧ ∃ pt cfg, generate_plaintext (entropy call_1) = Ok pt
    ∧ ApiKeyStore.authenticate
        (handle call_1 (store_of keys_0) ConsumerContext.manager (CreateKey (CreateKeyRequest.mk "laptop" "acme" None))).1 pt = Some cfg.
Proof.
  split; [exact keys_0_wf |]. split; [reflexivity |].
  destruct (handle call_1 (store_of keys_0) ConsumerContext.manager (CreateKey (CreateKeyRequest.mk "laptop" "acme" None)))
    as [self' r] eqn:E.
  assert (match r with Ok (_, IssuedBody _) => true | _ => false end = true) as Hok.
  { pose proof (f_equal snd E) as E2. cbn [snd] in E2. rewrite <- E2. vm_compute. reflexivity. }
  destruct r as [[status [| | | | | | v | | | |]]|e]; try discriminate Hok.
  destruct (issued_secret_works_at_once call_1 (store_of keys_0) self' ConsumerContext.manager
    (CreateKey (CreateKeyRequest.mk "laptop" "acme" None)) status v keys_0_wf eq_refl E)
    as (_ & _ & pt & id & k & _ & Hg & Hk & _ & _ & Hactive & _ & Hcfg).
  assert (KeyRow.expires_at k = None) as He.
  { pose proof (f_equal (λ p, KeyRow.expires_at ∘ snd <$> map_to_list (api_keys (ApiKeyStore.db p.1))) E) as E2. cbn [fst] in E2.
    apply elem_of_map_to_list in Hk. apply (list_elem_of_fmap_2 (KeyRow.expires_at ∘ snd)) in Hk. rewrite <- E2 in Hk. vm_compute in Hk.
    by apply list_elem_of_singleton in Hk. }
  exists pt. unfold usable in Hcfg. rewrite Hactive, He in Hcfg. destruct Hcfg as (cfg & Ha & _).
  exists cfg. split; [exact Hg | exact Ha].
Defined.

(** A typo in an account's name is a 404 for [GET], but an empty price list
    [PUT] to it is a 200. *)
Example empty_price_list_of_no_account :
  (get_models (store_of keys_0) "acmee").2 = Err (AdminError.PartnerNotFound "acmee")
  ∧ (replace_models call_1 (store_of keys_0) "acmee" []).2 = Ok (200, ModelsBody []).
Proof. vm_compute. auto. Qed.
