(* ===== verification/Keygen.v ===== *)
(** * Provisioning a key from the command line ([src/src/keygen.rs], [src/src/main.rs])

    [partner-portal keygen] reads its flags, opens the ledger, records a partner
    with its prices, issues one key and prints it. *)

From stdpp Require Import base strings list gmap numbers sorting fin_maps.
From Stdlib Require Import Ascii ZArith Lia.
From S2P Require Import Prelude Utf8 Redaction Http Crypto TimeLib Calendar Timefmt Pricing Trim Period Migration Config Status Partner Context LedgerTypes Sql Rollup Statements BillingStore PartnerStore ApiKeys KeyLifecycle Email Admin.

Local Open Scope Z_scope.

(** ** The command line *)

Definition COMMAND : string := "keygen".
Definition CONFIG_ENV : string := "PARTNER_PORTAL_CONFIG".
Definition EXIT_USAGE : Z := 2.

Inductive Plaintext : Type := Generated | Supplied (value : string) | FromStdin.

(** A path is its text. *)
Module Request.
Record t : Type := mk {
  name : string;
  consumer_id : string;
  partner : NewPartner.t;
  models : list ModelPrice.t;
  plaintext : Plaintext;
  database : option string }.
End Request.

Inductive UsageError : Type :=
  | UnknownArgument (arg : string)
  | MissingValue (flag : string)
  | MissingFlag (flag : string)
  | Blank (flag : string)
  | BadModel (value reason : string)
  | BadBillingMode (mode : string)
  | BadPaymentTerms (value : string)
  | DuplicateModel (model : string).

(** [Display for UsageError]. *)
Definition usage_error_display (self : UsageError) : string :=
  (match self with
   | UnknownArgument arg => "unrecognised argument `" +:+ arg +:+ "`"
   | MissingValue flag => "`" +:+ flag +:+ "` needs a value"
   | MissingFlag flag => "`" +:+ flag +:+ "` is required"
   | Blank flag => "`" +:+ flag +:+ "` must not be blank"
   | BadModel value reason => "--model " +:+ debug_str value +:+ ": " +:+ reason
   | BadBillingMode mode => "--billing-mode " +:+ debug_str mode +:+ " is not a mode; expected `invoice` or `reconciliation`"
   | BadPaymentTerms value => "--payment-terms " +:+ debug_str value +:+ " is not a whole number of minutes"
   | DuplicateModel model => "--model " +:+ debug_str model +:+ " was given more than once"
   end)%string.

(** [args] is the whole vector, the program's name first. *)
Definition requested (args : list string) : bool :=
  match args !! 1%nat with Some word => String.eqb word COMMAND | None => false end.

(** [writeln!], line by line. *)
Definition writeln (lines : list string) : string := foldr (λ l out, (l +:+ NL +:+ out)%string) EmptyString lines.

Definition usage_lines : list string :=
  (["usage: partner-portal " +:+ COMMAND +:+ " [OPTIONS]";
   EmptyString;
   "Issue one partner API key into the ledger database and print it once.";
   EmptyString;
   "Options:";
   "  --name <NAME>              a label for the key, shown in the listing";
   "  --consumer-id <ID>         the consumer_id this key identifies as";
   "  --model <NAME:IN:CACHED:OUT>";
   "                             a model the partner may call and its price in";
   "                             dollars per million tokens: input, cached";
   "                             input, output. Repeatable, and at least one";
   "                             is required — a model with no price is a";
   "                             model the partner cannot call";
   "  --billing-mode <MODE>      `invoice` (default) or `reconciliation`. An";
   "                             invoice partner owes money and is suspended";
   "                             when a complete statement passes its due";
   "                             date; a reconciliation partner is statemented";
   "                             for the settlement record and owes nothing";
   "  --billing-email <ADDRESS>  where statements are sent. Optional: without";
   "                             it statements are still issued and simply not";
   "                             emailed";
   "  --payment-terms <MINUTES>  how long after a period closes payment is due.";
   "                             Default " +:+ dec_string DEFAULT_PAYMENT_TERMS_MINUTES +:+ " (twelve hours)";
   "  --plaintext <VALUE|->      register this plaintext instead of";
   "                             generating one; `-` reads a line from stdin.";
   "                             For migrating and for fixtures";
   "  --database <PATH>          the ledger file. Without it the database comes";
   "                             from the configuration file (`" +:+ CONFIG_ENV +:+ "`,";
   "                             else config.yaml) — the same one the server";
   "                             reads. With it, no configuration file is read";
   "  -h, --help                 print this text";
   EmptyString;
   "The hashing secret comes from PARTNER_PORTAL_API_KEY_SECRET and must be the";
   "secret the server runs with, or the key issued here authenticates nowhere.";
   EmptyString;
   "There is no `--all-models`: which models a partner may call and what each";
   "costs are one list (ADR 0012 as amended by 0015), and a generator that";
   "invented one would be granting access nobody asked for.";
   EmptyString;
   "The partner record is written here too, and writing it is what tells the";
   "worker who to bill. A second run for a consumer that already exists is";
   "refused rather than reconfiguring their models and prices from a command";
   "line; use the admin API to change an existing partner.";
   EmptyString;
   "`--plaintext` exists for two jobs, and neither of them is issuing a key to a";
   "partner. It registers a plaintext you already have — so a deployment moving";
   "off the config file can keep its partners' existing keys working instead of";
   "rotating every one of them — and it is what scripts/dev-seed-keys.sh uses to";
   "write the dev loop's memorable keys. A supplied plaintext is as strong as you";
   "made it, so for a real deployment prefer generating: a generated key carries";
   "256 bits and cannot be chosen badly."])%string.
Definition usage : string := writeln usage_lines.

(** [NAME:INPUT:CACHED:OUTPUT]. *)
Definition price (value text which : string) : result PricePerMillion.t UsageError :=
  match PricePerMillion.parse (trim text) with
  | Ok p => Ok p
  | Err e => Err (BadModel value (which +:+ " price: " +:+ price_error_display e))
  end.

Definition parse_model (value : string) : result ModelPrice.t UsageError :=
  match split_char ":" value with
  | [model; input; cached; output] =>
      let model := trim model in
      if str_is_empty model then Err (BadModel value "the model name is blank")
      else
        let? input := price value input "input" in
        let? cached := price value cached "cached input" in
        let? output := price value output "output" in
        Ok (ModelPrice.mk model (PricingSnapshot.new input cached output))
  | _ => Err (BadModel value "expected NAME:INPUT:CACHED:OUTPUT, with the prices in dollars per million tokens")
  end.

(** The local variables of [parse]. *)
Module Flags.
Record t : Type := mk {
  name : option string;
  consumer_id : option string;
  models : list ModelPrice.t;
  billing_mode : BillingMode.t;
  billing_email : string;
  payment_terms_minutes : Z;
  plaintext : Plaintext;
  database : option string }.
Definition initial : t := mk None None [] BillingMode.Invoice "" DEFAULT_PAYMENT_TERMS_MINUTES Generated None.
End Flags.

(** The flags [parse] matches on; every one takes a value. *)
Definition FLAGS : list string :=
  ["--name"; "--consumer-id"; "--model"; "--billing-mode"; "--billing-email"; "--payment-terms"; "--database"; "--plaintext"]%string.

(** One arm of the match: what [flag] makes of its value. *)
Definition set_flag (f : Flags.t) (flag value : string) : result Flags.t UsageError :=
  let 'Flags.mk name consumer models mode email terms plaintext database := f in
  if String.eqb flag "--name" then
    if str_is_empty (trim value) then Err (Blank "--name")
    else Ok (Flags.mk (Some value) consumer models mode email terms plaintext database)
  else if String.eqb flag "--consumer-id" then
    if str_is_empty (trim value) then Err (Blank "--consumer-id")
    else Ok (Flags.mk name (Some value) models mode email terms plaintext database)
  else if String.eqb flag "--model" then
    let? entry := parse_model value in
    if existsb (λ m, String.eqb (ModelPrice.model m) (ModelPrice.model entry)) models
    then Err (DuplicateModel (ModelPrice.model entry))
    else Ok (Flags.mk name consumer (models ++ [entry]) mode email terms plaintext database)
  else if String.eqb flag "--billing-mode" then
    let? mode := ok_or (BillingMode.parse (trim value)) (BadBillingMode value) in
    Ok (Flags.mk name consumer models mode email terms plaintext database)
  else if String.eqb flag "--billing-email" then
    Ok (Flags.mk name consumer models mode value terms plaintext database)
  else if String.eqb flag "--payment-terms" then
    match parse_i64 (trim value) with
    | Some n => if 0 <=? n then Ok (Flags.mk name consumer models mode email n plaintext database) else Err (BadPaymentTerms value)
    | None => Err (BadPaymentTerms value)
    end
  else if String.eqb flag "--database" then
    if str_is_empty (trim value) then Err (Blank "--database")
    else Ok (Flags.mk name consumer models mode email terms plaintext (Some value))
  else if String.eqb flag "--plaintext" then
    if String.eqb value "-" then Ok (Flags.mk name consumer models mode email terms FromStdin database)
    else if str_is_empty (trim value) then Err (Blank "--plaintext")
    else Ok (Flags.mk name consumer models mode email terms (Supplied value) database)
  else Err (UnknownArgument flag).

(** The loop, over what follows the subcommand word. *)
Fixpoint parse_flags (f : Flags.t) (rest : list string) : result Flags.t UsageError :=
  match rest with
  | [] => Ok f
  | arg :: rest =>
      if bool_decide (arg ∈ FLAGS) then
        match rest with
        | [] => Err (MissingValue arg)
        | value :: rest => let? f := set_flag f arg value in parse_flags f rest
        end
      else Err (UnknownArgument arg)
  end.

Definition parse (args : list string) : result Request.t UsageError :=
  let? f := parse_flags Flags.initial (drop 2 args) in
  match Flags.models f with
  | [] => Err (MissingFlag "--model")
  | models =>
      let name := default "unnamed"%string (Flags.name f) in
      let? consumer_id := ok_or (Flags.consumer_id f) (MissingFlag "--consumer-id") in
      Ok (Request.mk name consumer_id
            (NewPartner.mk consumer_id name (trim (Flags.billing_email f)) (Flags.billing_mode f) (Flags.payment_terms_minutes f))
            models (Flags.plaintext f) (Flags.database f))
  end.

(** ** Provisioning *)

Inductive KeygenError : Type :=
  | ConfigFailed (path : string) (source : ConfigError)
  | DatabaseFailed (path : string) (source : SchemaError)
  | StoreFailed (source : ApiKeyError)
  | BillingFailed (source : BillingError)
  | Stdin (e : string)
  | EmptyStdin.

(** [Display for ConfigError] ([src/src/config/loader.rs]). *)
Definition config_error_display (self : ConfigError) : string :=
  (match self with
   | Io e => "IO error: " +:+ e
   | YamlParse message => "YAML parse error: " +:+ message
   | InvalidUpstreamUrl message => "Invalid upstream URL: " +:+ message
   | Config.Invalid message => "Invalid configuration: " +:+ message
   end)%string.

(** [Display for KeygenError]; [db_text] is the text of a database error. *)
Definition keygen_error_display (db_text : SqlError → string) (self : KeygenError) : string :=
  (match self with
   | ConfigFailed path source => "could not read " +:+ path +:+ ": " +:+ config_error_display source
   | DatabaseFailed path source => "could not open " +:+ path +:+ ": " +:+ schema_error_display db_text source
   | StoreFailed source => "could not issue the key: " +:+ api_key_error_display db_text source
   | BillingFailed source => "could not record the partner: " +:+ billing_error_display db_text source
   | Stdin e => "--plaintext -: could not read stdin: " +:+ e
   | EmptyStdin => "--plaintext -: stdin was empty. Pipe the key in with `printf %s " +:+ q "$KEY"
        +:+ " |` or a here-string; a trailing newline is stripped, nothing else"
   end)%string.

(** [stdin] is what reading a line gives: the line with its terminator, empty
    at the end of the input, or an error's text. *)
Definition resolve_plaintext (source : Plaintext) (stdin : result string string) : result (option string) KeygenError :=
  match source with
  | Generated => Ok None
  | Supplied value => Ok (Some value)
  | FromStdin =>
      match stdin with
      | Err e => Err (Stdin e)
      | Ok line =>
          if str_is_empty line then Err EmptyStdin
          else Ok (Some (default line (strip_suffix_char LF line)))
      end
  end.

Definition load_hashing_secret (value : option string) : result (list Z) string :=
  match load_secret value with
  | Ok secret => Ok secret
  | Err e => Err (secret_error_display e
      +:+ ". The key issued here is hashed with that secret, so it must be the one the server runs with")%string
  end.

(** [{:<width}]: padded on the right, counted in characters. *)
Fixpoint char_count (s : string) : nat :=
  match s with EmptyString => 0%nat | String c s' => ((if is_continuation c then 0 else 1) + char_count s')%nat end.
Definition pad_right (width : nat) (s : string) : string := (s +:+ str_repeat " " (width - char_count s))%string.

Definition model_line (entry : ModelPrice.t) : string :=
  let '(input, cached, output) := PricingSnapshot.as_tuple (ModelPrice.prices entry) in
  ("    " +:+ pad_right 28 (ModelPrice.model entry)
   +:+ " in " +:+ pad_right 10 (PricePerMillion.to_decimal_string (PricePerMillion.new input))
   +:+ " cached " +:+ pad_right 10 (PricePerMillion.to_decimal_string (PricePerMillion.new cached))
   +:+ " out " +:+ PricePerMillion.to_decimal_string (PricePerMillion.new output))%string.

(** What the operator reads on stderr. *)
Definition report (db_path : string) (partner : Partner.t) (row : ApiKeyRow.t) (models : list ModelPrice.t)
    (supplied_by_operator : bool) : string :=
  writeln (([
   "issued key #" +:+ signed_dec_string (ApiKeyRow.id row);
   "  name:        " +:+ ApiKeyRow.name row;
   "  consumer_id: " +:+ ApiKeyRow.consumer_id row;
   "  key_prefix:  " +:+ ApiKeyRow.key_prefix row;
   "  billing:     " +:+ BillingMode.as_str (Partner.billing_mode partner);
   if str_is_empty (Partner.billing_email partner)
   then "  billing_email: (none — statements are issued and not emailed)"
   else "  billing_email: " +:+ Partner.billing_email partner;
   if BillingMode.owes_payment (Partner.billing_mode partner)
   then "  payment due: " +:+ signed_dec_string (Partner.payment_terms_minutes partner) +:+ " minutes after each day closes"
   else "  payment due: n/a (reconciliation — no deadline, never suspended)";
   "  models:"])%string
   ++ (model_line <$> models)
   ++ ["  database:    " +:+ db_path]%string
   ++ (if supplied_by_operator then
         [EmptyString; "This key's plaintext was supplied, not generated: it is exactly as strong as the value you gave it."]%string
         ++ (if (String.length (ApiKeyRow.key_prefix row) <? KEY_PREFIX_LEN)%nat
             then [("It is shorter than " +:+ dec_string (Z.of_nat KEY_PREFIX_LEN)
                    +:+ " characters, so the whole of it is stored in `key_prefix` and appears in every listing.")%string]
             else [])
       else [])
   ++ [EmptyString; "This is the only time the key is shown. Store it in the partner's secret manager now; it cannot be read back from the database or from any endpoint."]%string).

Section Run.
Context `{TimeCrate, Digests}.

(** What one run meets: the environment's secret and the standard input, the
    clock at its three writes, the system's entropy, and what the database does
    to the transaction of the key. The billing tables answer. *)
Record Call : Type := mkCall {
  now : OffsetDateTime;
  now2 : OffsetDateTime;
  now3 : OffsetDateTime;
  entropy : result (list Z) string;
  stdin : result string string;
  io : ApiKeyStore.Io }.

Definition with_store (db : KeyDb) (p : StoreDb) : KeyDb := mkKeyDb (api_keys db) (next_key_id db) p.

(** [run] on an opened ledger: the file it leaves, and the plaintext with what
    was written to stderr. *)
Definition run_on (call : Call) (db_path : string) (secret : list Z) (request : Request.t) (db : KeyDb)
    : KeyDb * result (string * string) KeygenError :=
  match PartnerStore.create_partner (portal db) (Request.partner request) (format_ts (now call)) with
  | (p1, Err e) => (with_store db p1, Err (BillingFailed e))
  | (p1, Ok partner) =>
      match PartnerStore.replace_models p1 (Partner.consumer_id partner) (Request.models request) (format_ts (now2 call)) with
      | (p2, Err e) => (with_store db p2, Err (BillingFailed e))
      | (p2, Ok _) =>
          let db2 := with_store db p2 in
          match resolve_plaintext (Request.plaintext request) (stdin call) with
          | Err e => (db2, Err e)
          | Ok supplied =>
              let store := ApiKeyStore.new db2 secret in
              let '(store', r) :=
                match supplied with
                | Some plaintext =>
                    let '(s, r) := ApiKeyStore.create_with_plaintext store (Request.name request) (Request.consumer_id request)
                                     None plaintext (now3 call) (io call) in
                    (s, let? row := r in Ok (row, plaintext))
                | None => ApiKeyStore.create store (Request.name request) (Request.consumer_id request) None
                            (entropy call) (now3 call) (io call)
                end in
              (ApiKeyStore.db store',
               match r with
               | Err e => Err (StoreFailed e)
               | Ok (row, plaintext) =>
                   Ok (plaintext, report db_path partner row (Request.models request) (is_Some_b supplied))
               end)
          end
      end
  end.

(** [run]; [opened] is what opening the ledger gives. *)
Definition run (call : Call) (opened : result KeyDb SchemaError) (db_path : string) (secret : list Z) (request : Request.t)
    : option KeyDb * result (string * string) KeygenError :=
  match opened with
  | Err source => (None, Err (DatabaseFailed db_path source))
  | Ok db => let '(db', r) := run_on call db_path secret request db in (Some db', r)
  end.

(** *** The process *)

(** How it ends: a status, what is on stdout and on stderr; an error that
    [main] returns is printed by the runtime. *)
Inductive Exit : Type :=
  | Succeeded (stdout stderr : string)
  | Misused (status : Z) (stderr : string)
  | Failed (error : string).

Context `{Http, !ConfigFormats}.

Definition config_path (env : option string) : string := default "config.yaml"%string env.

(** [content] is what reading the file gives. *)
Definition database_path (config_path : string) (content : result string string) : result string KeygenError :=
  match from_file content with
  | Err source => Err (ConfigFailed config_path source)
  | Ok config => Ok (DatabaseConfig.path (Config.database config))
  end.

(** The environment and the file system: the two variables, the file behind a
    path, the ledger behind a path. *)
Record World : Type := mkWorld {
  config_env : option string;
  secret_env : option string;
  read_file : string → result string string;
  open_ledger : string → result KeyDb SchemaError }.

Definition asks_for_help (argv : list string) : bool :=
  existsb (λ a, String.eqb a "-h" || String.eqb a "--help") (drop 1 argv).

(** The ledger of a run that got as far as opening one, and how it ended. *)
Definition run_keygen (db_text : SqlError → string) (call : Call) (world : World) (argv : list string) : option KeyDb * Exit :=
  if asks_for_help argv then (None, Succeeded usage EmptyString)
  else
    match parse argv with
    | Err e => (None, Misused EXIT_USAGE ("partner-portal keygen: " +:+ usage_error_display e +:+ NL +:+ NL +:+ usage))
    | Ok request =>
        match match Request.database request with
              | Some path => Ok path
              | None => let path := config_path (config_env world) in database_path path (read_file world path)
              end with
        | Err e => (None, Failed (keygen_error_display db_text e))
        | Ok db_path =>
            match load_hashing_secret (secret_env world) with
            | Err e => (None, Failed e)
            | Ok secret =>
                let '(db, r) := run call (open_ledger world db_path) db_path secret request in
                (db, match r with
                     | Err e => Failed (keygen_error_display db_text e)
                     | Ok (plaintext, report) => Succeeded (plaintext +:+ NL) report
                     end)
            end
        end
    end.
End Run.

(** ** The command line round trip *)

(** A model an operator can name: trimmed, without a colon, priced in range. *)
Definition model_ok (e : ModelPrice.t) : Prop :=
  trim (ModelPrice.model e) = ModelPrice.model e ∧ ModelPrice.model e ≠ ""%string
  ∧ avoids ":" (ModelPrice.model e) = true ∧ prices_in_range (ModelPrice.prices e).

Definition models_ok (ms : list ModelPrice.t) : Prop := NoDup (ModelPrice.model <$> ms) ∧ Forall model_ok ms.

Definition plaintext_ok (p : Plaintext) : Prop :=
  match p with Supplied v => v ≠ "-"%string ∧ trim v ≠ ""%string | _ => True end.

(** What a run of the command may ask for. *)
Record request_ok (r : Request.t) : Prop := {
  ro_name : trim (Request.name r) ≠ ""%string;
  ro_consumer : trim (Request.consumer_id r) ≠ ""%string;
  ro_partner_consumer : NewPartner.consumer_id (Request.partner r) = Request.consumer_id r;
  ro_partner_name : NewPartner.name (Request.partner r) = Request.name r;
  ro_email : trim (NewPartner.billing_email (Request.partner r)) = NewPartner.billing_email (Request.partner r);
  ro_terms : 0 ≤ NewPartner.payment_terms_minutes (Request.partner r) ≤ i64_max;
  ro_models : Request.models r ≠ [] ∧ models_ok (Request.models r);
  ro_plaintext : plaintext_ok (Request.plaintext r);
  ro_database : match Request.database r with Some d => trim d ≠ ""%string | None => True end }.

(** The argument vector that asks for a request. *)
Definition price_text (p : PricePerMillion.t) : string :=
  PricePerMillion.to_decimal_string (PricePerMillion.new (PricePerMillion.as_i64 p)).
Definition model_arg (e : ModelPrice.t) : string :=
  (ModelPrice.model e +:+ ":" +:+ price_text (PricingSnapshot.input (ModelPrice.prices e))
   +:+ ":" +:+ price_text (PricingSnapshot.cached_input (ModelPrice.prices e))
   +:+ ":" +:+ price_text (PricingSnapshot.output (ModelPrice.prices e)))%string.
Definition model_args (ms : list ModelPrice.t) : list string := ms ≫= λ e, ["--model"%string; model_arg e].
Definition plaintext_args (p : Plaintext) : list string :=
  match p with Generated => [] | Supplied v => ["--plaintext"%string; v] | FromStdin => ["--plaintext"; "-"]%string end.
Definition database_args (d : option string) : list string :=
  match d with Some path => ["--database"%string; path] | None => [] end.
Definition command_line (r : Request.t) : list string :=
  ["partner-portal"; COMMAND; "--consumer-id"; Request.consumer_id r; "--name"; Request.name r;
    "--billing-mode"; BillingMode.as_str (NewPartner.billing_mode (Request.partner r));
    "--billing-email"; NewPartner.billing_email (Request.partner r);
    "--payment-terms"; signed_dec_string (NewPartner.payment_terms_minutes (Request.partner r))]%string
  ++ database_args (Request.database r) ++ plaintext_args (Request.plaintext r) ++ model_args (Request.models r).

Lemma price_shown value which p : price_in_range p → price value (price_text p) which = Ok p.
Proof. intros Hp. unfold price, price_text. by rewrite parse_shown_price. Qed.

Lemma price_text_avoids p : price_in_range p → avoids ":" (price_text p) = true.
Proof.
  intros Hp. destruct (trimmed_decimal_value (PricePerMillion.as_i64 p)) as (V & n & E & _); [apply Hp |].
  refine (proj1 (decimal_chars _ _ V n _ _ E)); [| done].
  intros c. destruct c as [[] [] [] [] [] [] [] []]; intros Hc; try discriminate Hc; reflexivity.
Qed.

Lemma parse_model_arg e : model_ok e → parse_model (model_arg e) = Ok e.
Proof.
  intros (Ht & Hne & Hc & Hi & Hca & Ho). unfold parse_model.
  assert (split_char ":" (model_arg e) = [ModelPrice.model e; price_text (PricingSnapshot.input (ModelPrice.prices e));
    price_text (PricingSnapshot.cached_input (ModelPrice.prices e)); price_text (PricingSnapshot.output (ModelPrice.prices e))]) as ->.
  { unfold model_arg. cbn [String.append]. rewrite !split_char_sep by (done || by apply price_text_avoids).
    by rewrite split_char_avoid by by apply price_text_avoids. }
  rewrite Ht. destruct (str_is_empty (ModelPrice.model e)) eqn:Ee; [by apply str_is_empty_spec in Ee |].
  rewrite !price_shown by done. by destruct e as [m []].
Qed.

Lemma price_Ok value text which p : price value text which = Ok p → price_in_range p.
Proof. unfold price. destruct (PricePerMillion.parse _) as [x|] eqn:E; [| done]. intros [= <-]. by apply parse_price_range in E. Qed.

Lemma parse_model_Ok value e : parse_model value = Ok e → model_ok e.
Proof.
  unfold parse_model. pose proof (split_char_avoids ":" value) as Ha.
  destruct (split_char ":" value) as [|m [|i [|c [|o []]]]]; try done.
  destruct (str_is_empty (trim m)) eqn:Ee; [done |].
  destruct (price value i "input") as [pi|] eqn:Ei; [| done]. destruct (price value c "cached input") as [pc|] eqn:Ec; [| done].
  destruct (price value o "output") as [po|] eqn:Eo; [| done]. cbn. intros [= <-]. unfold model_ok. cbn. split_and!.
  - apply trim_trim.
  - intros E. rewrite E in Ee. done.
  - apply trim_all. by inversion Ha.
  - split_and!; by eapply price_Ok.
Qed.

(** *** The loop *)

Definition with_models (f : Flags.t) (ms : list ModelPrice.t) : Flags.t :=
  Flags.mk (Flags.name f) (Flags.consumer_id f) ms (Flags.billing_mode f) (Flags.billing_email f)
    (Flags.payment_terms_minutes f) (Flags.plaintext f) (Flags.database f).

Lemma name_taken ms e :
  existsb (λ m, String.eqb (ModelPrice.model m) (ModelPrice.model e)) ms = true ↔ ModelPrice.model e ∈ ModelPrice.model <$> ms.
Proof.
  rewrite existsb_exists, list_elem_of_fmap. setoid_rewrite String.eqb_eq. setoid_rewrite <- list_elem_of_In. naive_solver.
Qed.

Lemma parse_model_args f ms :
  models_ok (Flags.models f ++ ms) → parse_flags f (model_args ms) = Ok (with_models f (Flags.models f ++ ms)).
Proof.
  revert f. induction ms as [|e ms IH]; intros f [Hnd Hok]; [rewrite app_nil_r; by destruct f |].
  unfold model_args. cbn [mbind list_bind app parse_flags]. rewrite bool_decide_eq_true_2 by (apply (bool_decide_eq_true_1 _); reflexivity).
  assert (set_flag f "--model" (model_arg e) = Ok (with_models f (Flags.models f ++ [e]))) as ->.
  { destruct f as [name consumer models mode email terms plaintext database]. cbn in *.
    apply Forall_app in Hok as [_ [He _]%Forall_cons_iff]. rewrite parse_model_arg by done. cbn.
    destruct (existsb _ _) eqn:E; [| done]. apply name_taken in E. rewrite fmap_app, NoDup_app in Hnd.
    destruct Hnd as (_ & Hnd & _). exfalso. apply (Hnd _ E). by left. }
  assert (Flags.models f ++ e :: ms = (Flags.models f ++ [e]) ++ ms) as E by (by rewrite <- app_assoc).
  rewrite E in Hnd, Hok |- *. fold (model_args ms).
  apply (IH (with_models f (Flags.models f ++ [e]))). by split.
Qed.

Lemma parse_value_flags f flag value rest f' :
  flag ∈ FLAGS → set_flag f flag value = Ok f' → parse_flags f (flag :: value :: rest) = parse_flags f' rest.
Proof. intros Hf E. cbn [parse_flags]. by rewrite bool_decide_eq_true_2, E by done. Qed.

Lemma not_blank s : trim s ≠ ""%string → str_is_empty (trim s) = false.
Proof. intros Hs. apply not_true_iff_false. by rewrite str_is_empty_spec. Qed.

Lemma parse_terms t : 0 ≤ t ≤ i64_max → parse_i64 (trim (signed_dec_string t)) = Some t ∧ (0 <=? t) = true.
Proof.
  intros Ht. rewrite trim_visible; [split; [apply parse_i64_to_string; unfold is_i64; ranges; lia | lia] |].
  unfold signed_dec_string. destruct (Z.ltb_spec t 0); [lia |].
  apply (str_all_impl is_ascii_digit); [apply digit_visible | by apply dec_string_digits].
Qed.

Lemma trim_as_str m : BillingMode.parse (trim (BillingMode.as_str m)) = Some m.
Proof. by destruct m; vm_compute. Qed.

(** A flag's value, found among the flags. *)
Ltac flag := apply (bool_decide_eq_true_1 _); vm_compute; reflexivity.

Lemma parse_database_args f d rest :
  match d with Some p => trim p ≠ ""%string | None => True end →
  parse_flags f (database_args d ++ rest)
  = parse_flags (Flags.mk (Flags.name f) (Flags.consumer_id f) (Flags.models f) (Flags.billing_mode f) (Flags.billing_email f)
      (Flags.payment_terms_minutes f) (Flags.plaintext f) (match d with Some p => Some p | None => Flags.database f end)) rest.
Proof.
  destruct d as [p|]; intros Hd; [| by destruct f]. cbn [database_args app]. apply parse_value_flags; [flag |].
  destruct f. cbn [set_flag String.eqb Ascii.eqb Bool.eqb]. by rewrite not_blank.
Qed.

Lemma parse_plaintext_args f p rest :
  plaintext_ok p → Flags.plaintext f = Generated →
  parse_flags f (plaintext_args p ++ rest)
  = parse_flags (Flags.mk (Flags.name f) (Flags.consumer_id f) (Flags.models f) (Flags.billing_mode f) (Flags.billing_email f)
      (Flags.payment_terms_minutes f) p (Flags.database f)) rest.
Proof.
  destruct p as [|v|]; intros Hp Hf; cbn [plaintext_args app].
  - destruct f. cbn in *. by subst.
  - apply parse_value_flags; [flag |]. destruct f. cbn [set_flag String.eqb Ascii.eqb Bool.eqb]. destruct Hp as [Hd Hb].
    apply String.eqb_neq in Hd. rewrite Hd. by rewrite not_blank.
  - apply parse_value_flags; [flag |]. by destruct f.
Qed.

Lemma parse_command_line r : request_ok r → parse (command_line r) = Ok r.
Proof.
  intros [Hn Hc Hpc Hpn He Ht [Hne Hm] Hp Hd]. destruct r as [name consumer [pc pn email mode terms] models plaintext database].
  cbn [Request.name Request.consumer_id Request.partner Request.models Request.plaintext Request.database NewPartner.consumer_id
    NewPartner.name NewPartner.billing_email NewPartner.billing_mode NewPartner.payment_terms_minutes] in *. subst pc pn.
  unfold parse, command_line. cbn [drop app Request.name Request.consumer_id Request.partner Request.models Request.plaintext
    Request.database NewPartner.billing_email NewPartner.billing_mode NewPartner.payment_terms_minutes].
  erewrite parse_value_flags; [| flag | cbn [set_flag Flags.initial String.eqb Ascii.eqb Bool.eqb]; by rewrite not_blank].
  erewrite parse_value_flags; [| flag | cbn [set_flag Flags.initial String.eqb Ascii.eqb Bool.eqb]; by rewrite not_blank].
  erewrite parse_value_flags; [| flag | cbn [set_flag Flags.initial String.eqb Ascii.eqb Bool.eqb]; by rewrite trim_as_str].
  erewrite parse_value_flags; [| flag | reflexivity].
  destruct (parse_terms terms Ht) as [Hpt Hpos].
  erewrite parse_value_flags; [| flag | cbn [set_flag Flags.initial String.eqb Ascii.eqb Bool.eqb]; by rewrite Hpt, Hpos].
  rewrite parse_database_args, parse_plaintext_args, parse_model_args by done. cbn -[trim].
  destruct models; [done |]. rewrite He. by destruct database.
Qed.

(** *** What the loop lets through *)

Record flags_ok (f : Flags.t) : Prop := {
  fo_name n : Flags.name f = Some n → trim n ≠ ""%string;
  fo_consumer c : Flags.consumer_id f = Some c → trim c ≠ ""%string;
  fo_models : models_ok (Flags.models f);
  fo_terms : 0 ≤ Flags.payment_terms_minutes f ≤ i64_max;
  fo_plaintext : plaintext_ok (Flags.plaintext f);
  fo_database d : Flags.database f = Some d → trim d ≠ ""%string }.

Lemma initial_ok : flags_ok Flags.initial.
Proof. split; cbn; try done. split; [apply NoDup_nil_2 | constructor]. Qed.

Lemma parse_i64_range s z : parse_i64 s = Some z → is_i64 z.
Proof.
  unfold parse_i64, parse_int, parse_digits, is_i64.
  destruct s as [|c s]; [done |]. repeat case_match; try done; intros E%checked_Some; lia.
Qed.

Lemma blank_checked s : str_is_empty (trim s) = false → trim s ≠ ""%string.
Proof. intros E Hs. by rewrite Hs in E. Qed.

Lemma models_ok_snoc ms e :
  models_ok ms → model_ok e → existsb (λ m, String.eqb (ModelPrice.model m) (ModelPrice.model e)) ms = false →
  models_ok (ms ++ [e]).
Proof.
  intros [Hnd Hall] He Hne. split; [| by apply Forall_app; auto]. rewrite fmap_app. apply NoDup_app. split_and!; [done | | apply NoDup_singleton].
  intros x Hx ->%list_elem_of_singleton. apply name_taken in Hx. congruence.
Qed.

Lemma set_flag_ok f flag value f' : flags_ok f → set_flag f flag value = Ok f' → flags_ok f'.
Proof.
  intros [Hn Hc Hm Ht Hp Hd]. destruct f as [name consumer models mode email terms plaintext database]. cbn in *. unfold set_flag.
  destruct (String.eqb flag "--name").
  { destruct (str_is_empty (trim value)) eqn:E; [done |]. intros [= <-]. split; try done. cbn. intros n [= <-]. by apply blank_checked. }
  destruct (String.eqb flag "--consumer-id").
  { destruct (str_is_empty (trim value)) eqn:E; [done |]. intros [= <-]. split; try done. cbn. intros n [= <-]. by apply blank_checked. }
  destruct (String.eqb flag "--model").
  { destruct (parse_model value) as [e|] eqn:E; [| done]. cbn. destruct (existsb _ _) eqn:Ee; [done |]. intros [= <-].
    split; try done. apply models_ok_snoc; [done | by eapply parse_model_Ok | done]. }
  destruct (String.eqb flag "--billing-mode"); [destruct (BillingMode.parse _); [| done]; by intros [= <-] |].
  destruct (String.eqb flag "--billing-email"); [by intros [= <-] |].
  destruct (String.eqb flag "--payment-terms").
  { destruct (parse_i64 (trim value)) as [n|] eqn:E; [| done]. destruct (Z.leb_spec 0 n); [| done]. intros [= <-]. split; try done.
    cbn. apply parse_i64_range in E. unfold is_i64 in E. lia. }
  destruct (String.eqb flag "--database").
  { destruct (str_is_empty (trim value)) eqn:E; [done |]. intros [= <-]. split; try done. cbn. intros n [= <-]. by apply blank_checked. }
  destruct (String.eqb flag "--plaintext"); [| done].
  destruct (String.eqb_spec value "-"); [by intros [= <-] |].
  destruct (str_is_empty (trim value)) eqn:E; [done |]. intros [= <-]. split; try done. split; [done | by apply blank_checked].
Qed.

Lemma parse_flags_ok f rest f' : flags_ok f → parse_flags f rest = Ok f' → flags_ok f'.
Proof.
  assert (∀ n f rest, (length rest ≤ n)%nat → flags_ok f → parse_flags f rest = Ok f' → flags_ok f') as Hall; [| eauto].
  induction n as [|n IH]; intros g [|arg l] Hlen Hg; cbn [length parse_flags] in *; try lia; try by intros [= <-].
  case_bool_decide; [| done]. destruct l as [|value l]; [done |]. destruct (set_flag g arg value) as [g'|] eqn:E; [| done].
  cbn in Hlen |- *. apply IH; [lia | by eapply set_flag_ok].
Qed.

Lemma parse_Ok args r : parse args = Ok r → request_ok r.
Proof.
  unfold parse. destruct (parse_flags Flags.initial (drop 2 args)) as [f|] eqn:E; [| done]. cbn -[trim].
  apply parse_flags_ok in E as [Hn Hc Hm Ht Hp Hd]; [| apply initial_ok].
  destruct (Flags.models f) as [|e ms] eqn:Ems; [done |]. destruct (Flags.consumer_id f) as [c|]; [| done]. cbn -[trim].
  intros [= <-]. split; cbn -[trim]; try done; auto.
  - destruct (Flags.name f) as [n|]; [by apply Hn | by vm_compute].
  - apply trim_trim.
  - destruct (Flags.database f); auto.
Qed.

(** The command line says exactly what a run may do. Every request with names
    that are not blank, a non-empty list of distinct models each with a price in
    range, and terms that are not negative can be asked for, and is read back
    field by field; and nothing else is ever accepted, however the flags are
    ordered, repeated or cut short. So a run never grants a model without a
    price, and never attributes a key to a consumer nobody named. *)
Theorem command_line_round_trip (r : Request.t) :
  (request_ok r ↔ parse (command_line r) = Ok r)
  ∧ requested (command_line r) = true
  ∧ ∀ args, parse args = Ok r → request_ok r ∧ parse (command_line r) = Ok r.
Proof.
  split; [split; [apply parse_command_line | apply parse_Ok] |]. split; [done |].
  intros args E%parse_Ok. split; [done | by apply parse_command_line].
Qed.

(** ** What a run leaves behind *)

Lemma replace_models_partners db c ms now db' :
  PartnerStore.replace_models db c ms now = (db', Ok ()) →
  partner_rows db' = alter (λ p, Partner.mk (Partner.consumer_id p) (Partner.name p) (Partner.billing_email p)
    (Partner.billing_mode p) (Partner.payment_terms_minutes p) (Partner.created_at p) now) c (partner_rows db).
Proof.
  unfold PartnerStore.replace_models, replace_rows. destruct (check_names [] ms); [| done].
  destruct (insert_models _ c ms now) as [d|[]] eqn:E; try done. cbn. intros [= <-].
  unfold touch_partner, with_partners, partner_rows. cbn. by rewrite (insert_models_billing _ _ _ _ _ E).
Qed.

Section Provisioning.
Context `{TimeLaws, Digests}.

Definition consumer_of (r : Request.t) : string := trim (Request.consumer_id r).

(** The account a run records. *)
Definition account (r : Request.t) (created updated : string) : Partner.t :=
  Partner.mk (consumer_of r) (trim (Request.name r)) (NewPartner.billing_email (Request.partner r))
    (NewPartner.billing_mode (Request.partner r)) (NewPartner.payment_terms_minutes (Request.partner r)) created updated.

(** The tables with the account and exactly its prices, all else as it was. *)
Record provisioned (r : Request.t) (created updated : string) (db db' : StoreDb) : Prop := {
  pv_partner : partner_rows db' = <[consumer_of r := account r created updated]> (partner_rows db);
  pv_models m row : partner_models db' !! (consumer_of r, m) = Some row ↔
    ∃ e, e ∈ Request.models r ∧ m = ModelPrice.model e ∧ row = ModelRow.mk (ModelPrice.prices e) updated updated;
  pv_others c m : c ≠ consumer_of r → partner_models db' !! (c, m) = partner_models db !! (c, m);
  pv_statements : daily_statements (billing db') = daily_statements (billing db) }.

Lemma create_partner_request db r now :
  request_ok r →
  PartnerStore.create_partner db (Request.partner r) now =
  match partner_rows db !! consumer_of r with
  | Some _ => (db, Err (PartnerExists (consumer_of r)))
  | None => (with_partners db (<[consumer_of r := account r now now]> (partner_rows db)), Ok (account r now now))
  end.
Proof.
  intros [Hn Hc Hpc Hpn He Ht _ _ _]. unfold PartnerStore.create_partner, NewPartner.validated, insert_partner, consumer_of, account.
  cbn -[trim]. rewrite Hpc, Hpn, He, !not_blank by done.
  destruct (Z.ltb_spec (NewPartner.payment_terms_minutes (Request.partner r)) 0); [lia |]. cbn -[trim].
  destruct (Z.ltb_spec (NewPartner.payment_terms_minutes (Request.partner r)) 0); [lia |].
  destruct (partner_rows db !! trim (Request.consumer_id r)); [done |].
  unfold PartnerStore.get_partner. cbn -[trim]. by rewrite lookup_insert_eq.
Qed.

Lemma models_ok_storable ms :
  models_ok ms →
  NoDup ((λ e, trim (ModelPrice.model e)) <$> ms)
  ∧ Forall (λ e, trim (ModelPrice.model e) ≠ ""%string ∧ prices_ok (ModelPrice.prices e)) ms.
Proof.
  intros [Hnd Hall]. split.
  - rewrite <- (Forall_fmap_ext_1 ModelPrice.model); [done |]. eapply Forall_impl; [exact Hall |]. intros e (E & _). done.
  - eapply Forall_impl; [exact Hall |]. intros e (-> & Hne & _ & Hi & Hc & Ho). split; [done |].
    unfold prices_ok, price_in_range, PricingSnapshot.as_tuple in *. lia.
Qed.

Lemma account_recorded db r now now2 :
  request_ok r → partner_rows db !! consumer_of r = None →
  let '(p1, _) := PartnerStore.create_partner db (Request.partner r) now in
  let '(p2, res) := PartnerStore.replace_models p1 (consumer_of r) (Request.models r) now2 in
  res = Ok () ∧ provisioned r now now2 db p2.
Proof.
  intros Hr Hnone. rewrite (create_partner_request db r now Hr), Hnone. set (p1 := with_partners _ _).
  pose proof (replace_models_exact p1 (consumer_of r) (Request.models r) now2) as Hx.
  destruct (ro_models r Hr) as [_ [Hnd Hall]%models_ok_storable].
  assert (partner_rows p1 !! consumer_of r = Some (account r now now)) as Hp by (unfold p1, partner_rows; cbn; apply lookup_insert_eq).
  destruct (PartnerStore.replace_models p1 (consumer_of r) (Request.models r) now2) as [p2 [[]|e]] eqn:E; destruct Hx as [Hok Hx].
  2:{ assert (is_ok (Err e : result unit BillingError) = true) as Ho by (apply Hok; eauto). done. }
  split; [done |]. cbn in Hx. destruct Hx as (Hm & Ho & Hs). split; [| exact Hm | exact Ho | exact Hs].
  rewrite (replace_models_partners _ _ _ _ _ E). change (partner_rows p1) with (<[consumer_of r := account r now now]> (partner_rows db)).
  apply map_eq. intros c. destruct (decide (c = consumer_of r)) as [->|Hne].
  - by rewrite lookup_alter_eq, !lookup_insert_eq.
  - by rewrite lookup_alter_ne, !lookup_insert_ne.
Qed.

Lemma with_store_wf db p : keys_wf db → store_wf p → keys_wf (with_store db p).
Proof. intros [Ha Hh Hi Hs _] Hp. by split. Qed.

(** The plaintext a run is to issue. *)
Definition plaintext_of (call : Call) (r : Request.t) : result string KeygenError :=
  let? supplied := resolve_plaintext (Request.plaintext r) (stdin call) in
  match supplied with
  | Some pt => Ok pt
  | None => match generate_plaintext (entropy call) with Ok pt => Ok pt | Err e => Err (StoreFailed (ApiKeyStore.entropy_error e)) end
  end.

(** The tail of a run, on the tables with the account. *)
Definition issue (call : Call) (db_path : string) (secret : list Z) (r : Request.t) (partner : Partner.t) (db : KeyDb)
    : KeyDb * result (string * string) KeygenError :=
  match plaintext_of call r with
  | Err e => (db, Err e)
  | Ok pt =>
      let '(s, res) := ApiKeyStore.create_with_plaintext (ApiKeyStore.new db secret) (Request.name r) (Request.consumer_id r)
                         None pt (now3 call) (io call) in
      (ApiKeyStore.db s,
       match res with
       | Err e => Err (StoreFailed e)
       | Ok row => Ok (pt, report db_path partner row (Request.models r)
                             (match Request.plaintext r with Generated => false | _ => true end))
       end)
  end.

Lemma run_on_cases call db_path secret r db :
  request_ok r → keys_wf db →
  match partner_rows (portal db) !! consumer_of r with
  | Some _ => run_on call db_path secret r db = (db, Err (BillingFailed (PartnerExists (consumer_of r))))
  | None => ∃ p2, provisioned r (format_ts (now call)) (format_ts (now2 call)) (portal db) p2 ∧ keys_wf (with_store db p2)
      ∧ run_on call db_path secret r db
        = issue call db_path secret r (account r (format_ts (now call)) (format_ts (now call))) (with_store db p2)
  end.
Proof.
  intros Hr Hwf. unfold run_on. pose proof (create_partner_wf (portal db) (Request.partner r) (format_ts (now call)) (kw_portal _ Hwf)) as Hw1.
  pose proof (account_recorded (portal db) r (format_ts (now call)) (format_ts (now2 call)) Hr) as Hacc.
  rewrite create_partner_request in * by done.
  destruct (partner_rows (portal db) !! consumer_of r) as [q|]; [by destruct db |]. specialize (Hacc eq_refl).
  set (p1 := with_partners _ _) in *. change (Partner.consumer_id (account r _ _)) with (consumer_of r).
  pose proof (replace_models_wf p1 (consumer_of r) (Request.models r) (format_ts (now2 call)) Hw1) as Hw2.
  destruct (PartnerStore.replace_models p1 (consumer_of r) (Request.models r) (format_ts (now2 call))) as [p2 res].
  destruct Hacc as [-> Hp]. exists p2. split; [done |]. split; [by apply with_store_wf |].
  cbv zeta. unfold issue, plaintext_of. destruct (Request.plaintext r) as [|v|]; cbn [resolve_plaintext].
  - unfold ApiKeyStore.create. destruct (generate_plaintext (entropy call)) as [pt|e]; [| done].
    by destruct (ApiKeyStore.create_with_plaintext _ _ _ _ _ _ _) as [s [row|e]].
  - by destruct (ApiKeyStore.create_with_plaintext _ _ _ _ _ _ _) as [s [row|e]].
  - destruct (stdin call) as [line|e]; [| done]. destruct (str_is_empty line); [done |].
    by destruct (ApiKeyStore.create_with_plaintext _ _ _ _ _ _ _) as [s [row|e]].
Qed.

Lemma issuing_keeps_portal self name consumer_id pt now io :
  keys_wf (ApiKeyStore.db self) →
  portal (ApiKeyStore.db (ApiKeyStore.create_with_plaintext self name consumer_id None pt now io).1) = portal (ApiKeyStore.db self).
Proof.
  intros Hwf. unfold ApiKeyStore.create_with_plaintext.
  destruct (require_text "name" name) as [n|]; [| done]. destruct (require_text "consumer_id" consumer_id) as [c|]; [| done].
  destruct (str_is_empty (trim pt)); [done |]. set (key := NewKey.mk _ _ _ _ _ _).
  pose proof (mutate_domain_cases self io (create_body key)) as Hm.
  destruct (ApiKeyStore.mutate_domain self io (create_body key)) as [s [out|e]]; cbn [fst]; [| by rewrite Hm].
  destruct Hm as (db' & E & Hdb & _). rewrite Hdb. rewrite create_body_cases in E by done.
  destruct (insert_key (ApiKeyStore.db self) key) as [d|] eqn:Ei; [| by destruct (active_key_exists _ _)].
  injection E as <- _. by eapply insert_key_portal.
Qed.

(** A partner without statements is not suspended. *)
Lemma new_partner_served db now k cfg :
  (∀ i s, daily_statements (billing db) !! i = Some s → Statement.consumer_id s ≠ KeyRow.consumer_id k) →
  describes db now k cfg → PartnerRuntimeConfig.suspended cfg = false.
Proof.
  intros Hnone Hd. unfold PartnerRuntimeConfig.suspended. rewrite (de_status _ _ _ _ Hd).
  assert (oldest_overdue db (KeyRow.consumer_id k) (format_ts now) = None) as ->.
  { apply oldest_overdue_None. intros i s Hs. unfold overdue_invoice.
    destruct (String.eqb_spec (Statement.consumer_id s) (KeyRow.consumer_id k)) as [E|]; [| done]. by apply Hnone in Hs. }
  unfold status_for. by destruct (negb _).
Qed.

(** C23. A key that was printed works. A run on a ledger where the consumer has an
    account changes nothing and says so. Otherwise the account is recorded with
    exactly the prices of the command line, beside everything that was there;
    then the key is issued, if there is a plaintext that is not blank, its hash
    is new and the consumer has no live key, and else no key is written. The
    plaintext printed authenticates on every server that loads this ledger with
    this secret, as the consumer, not suspended, for exactly these models at
    these prices. *)
Theorem provisioned_key_authenticates (call : Call) (db_path : string) (secret : list Z) (r : Request.t) (db : KeyDb)
    (Hwf : keys_wf db) (Hr : request_ok r) (Hio : served (io call)) :
  let '(db', res) := run_on call db_path secret r db in
  match partner_rows (portal db) !! consumer_of r with
  | Some _ => db' = db ∧ res = Err (BillingFailed (PartnerExists (consumer_of r)))
  | None =>
      provisioned r (format_ts (now call)) (format_ts (now2 call)) (portal db) (portal db') ∧ keys_wf db'
      ∧ (is_ok res = true ↔
           ∃ pt, plaintext_of call r = Ok pt ∧ trim pt ≠ ""%string ∧ active_key_exists db (consumer_of r) = false
             ∧ ∀ i k, api_keys db !! i = Some k → KeyRow.key_hash k ≠ derive_key_hash secret pt)
      ∧ match res with
        | Err _ => api_keys db' = api_keys db
        | Ok (pt, _) =>
            plaintext_of call r = Ok pt
            ∧ (∃ k, api_keys db' = <[next_key_id db := k]> (api_keys db) ∧ KeyRow.key_hash k = derive_key_hash secret pt)
            ∧ ∀ io2, ApiKeyStore.read io2 = None →
                ∃ cfg, ApiKeyStore.authenticate (ApiKeyStore.refresh (ApiKeyStore.new db' secret) io2).1.1 pt = Some cfg
                  ∧ PartnerRuntimeConfig.consumer_id cfg = consumer_of r ∧ PartnerRuntimeConfig.suspended cfg = false
                  ∧ ∀ model prices, PartnerRuntimeConfig.pricing_for cfg model = Some prices ↔ ModelPrice.mk model prices ∈ Request.models r
        end
  end.
Proof.
  pose proof (run_on_cases call db_path secret r db Hr Hwf) as Hcases.
  destruct (partner_rows (portal db) !! consumer_of r) eqn:Enone; [by rewrite Hcases |].
  destruct Hcases as (p2 & Hpv & Hwf2 & ->). unfold issue. destruct (plaintext_of call r) as [pt|e] eqn:Ept.
  2:{ split_and!; try done. split; [done | by intros (pt & [=] & _)]. }
  pose proof (create_key_exact (ApiKeyStore.new (with_store db p2) secret) (Request.name r) (Request.consumer_id r) None pt
    (now3 call) (io call) Hwf2 Hio) as Hx.
  pose proof (issuing_keeps_portal (ApiKeyStore.new (with_store db p2) secret) (Request.name r) (Request.consumer_id r) pt
    (now3 call) (io call) Hwf2) as Hportal.
  destruct (ApiKeyStore.create_with_plaintext _ _ _ _ _ _ _) as [s [row|e]]; cbn [is_ok fst] in Hx, Hportal |- *; destruct Hx as (Hok & _ & Hx).
  2:{ rewrite Hx. split_and!; try done. split; [done |]. intros (pt' & [= <-] & Hb & Ha & Hh). apply Hok. split_and!; try done; apply Hr. }
  destruct Hx as (Hkeys & Hwf' & _). destruct (proj1 Hok eq_refl) as ((_ & _ & Hb) & Ha & Hh).
  change (portal _) with p2 in Hportal at 2.
  rewrite Hportal. split_and!; try done.
  - split; [intros _; exists pt; done | done].
  - eexists. split; [exact Hkeys | done].
  - intros io2 Hread. destruct (refresh_fresh (ApiKeyStore.new (ApiKeyStore.db s) secret) io2 Hread) as (Hf & Hdb & Hsec).
    set (server := (ApiKeyStore.refresh _ io2).1.1) in *. cbn in Hdb, Hsec.
    pose proof (authenticate_row server (ApiKeyStore.refresh_now io2) pt (next_key_id db) (new_row (issued (ApiKeyStore.new (with_store db p2) secret)
      (Request.name r) (Request.consumer_id r) None pt (now3 call)))) as Hauth.
    rewrite Hdb, Hsec, Hkeys in Hauth. specialize (Hauth Hwf' Hf (lookup_insert_eq _ _ _) eq_refl). cbn in Hauth.
    destruct Hauth as (cfg & Hcfg & Hd). exists cfg. split; [done |]. split; [by rewrite (de_consumer _ _ _ _ Hd) |]. rewrite Hportal in Hd. split.
    + apply (new_partner_served _ _ _ _) in Hd; [done |]. intros i st Hst E. rewrite (pv_statements _ _ _ _ _ Hpv) in Hst.
      apply (wf_statement _ (kw_portal _ Hwf)) in Hst as [q Hq]. rewrite E in Hq. cbn in Hq. unfold consumer_of in Enone. congruence.
    + intros model prices. rewrite (de_models _ _ _ _ Hd), fmap_Some. cbn [KeyRow.consumer_id new_row NewKey.consumer_id issued].
      setoid_rewrite (pv_models _ _ _ _ _ Hpv). split.
      * intros (row' & (e & He & -> & ->) & ->). by destruct e.
      * intros He. eexists. split; [by eexists | done].
Qed.
End Provisioning.

(** ** The process *)
Section Process.
Context `{TimeLaws, Digests, Http, !ConfigFormats}.

(** A ledger is written only for a command line that parses, with a usable
    secret, in the file the flag or the configuration names; whatever is on
    stdout is the key of such a run, or the help that was asked for. *)
Theorem keygen_process (db_text : SqlError → string) (call : Call) (world : World) (argv : list string) :
  let '(db, exit) := run_keygen db_text call world argv in
  (∀ d, db = Some d → ∃ r secret path opened,
     asks_for_help argv = false ∧ parse argv = Ok r ∧ load_secret (secret_env world) = Ok secret ∧ open_ledger world path = Ok opened
     ∧ match Request.database r with Some p => path = p | None => database_path (config_path (config_env world))
         (read_file world (config_path (config_env world))) = Ok path end
     ∧ d = (run_on call path secret r opened).1
     ∧ ∀ out err, exit = Succeeded out err → ∃ pt, (run_on call path secret r opened).2 = Ok (pt, err) ∧ out = (pt +:+ NL)%string)
  ∧ (db = None → ∀ out err, exit = Succeeded out err → asks_for_help argv = true ∧ out = usage ∧ err = ""%string).
Proof.
  unfold run_keygen. destruct (asks_for_help argv); [split; [done | by intros _ ? ? [= <- <-]] |].
  destruct (parse argv) as [r|e]; [| done].
  set (named := match Request.database r with Some _ => _ | None => _ end). destruct named as [path|e] eqn:Epath; [| done].
  unfold load_hashing_secret. destruct (load_secret (secret_env world)) as [secret|e]; [| done].
  unfold run. destruct (open_ledger world path) as [opened|e] eqn:Eo; [| done].
  destruct (run_on call path secret r opened) as [d res] eqn:Er. split; [| done]. intros d' [= <-]. exists r, secret, path, opened.
  rewrite Er. split_and!; try done.
  - unfold named in Epath. destruct (Request.database r); [by injection Epath | done].
  - intros out err. destruct res as [[pt rep]|e]; [| done]. intros [= <- <-]. by exists pt.
Qed.
End Process.

(** ** At a concrete ledger *)
Section Example_run.
Local Existing Instance Gregorian.

Definition argv_1 (plaintext : list string) : list string :=
  ["partner-portal"; "keygen"; "--model"; "gpt-4o:0.095:0.0475:0.475"; "--consumer-id"; " globex "; "--billing-email"; "ap@globex.test";
   "--database"; "/var/lib/ledger.db"]%string ++ plaintext.
Definition request_1 (plaintext : Plaintext) : Request.t :=
  Request.mk "unnamed" " globex " (NewPartner.mk " globex " "unnamed" "ap@globex.test" BillingMode.Invoice 720)
    [ModelPrice.mk "gpt-4o" (PricingSnapshot.new (PricePerMillion.new 95000) (PricePerMillion.new 47500) (PricePerMillion.new 475000))]
    plaintext (Some "/var/lib/ledger.db"%string).
Definition call_k (stdin : result string string) : Call := mkCall t1 t1 t1 (Ok [1; 2; 3]) stdin io_1.

Example argv_examples :
  parse (argv_1 []) = Ok (request_1 Generated)
  ∧ parse (argv_1 ["--plaintext"; "-"]%string) = Ok (request_1 FromStdin)
  ∧ parse (argv_1 ["--model"; "gpt-4o:1:1:1"]%string) = Err (DuplicateModel "gpt-4o")
  ∧ parse (argv_1 ["--name"]%string) = Err (MissingValue "--name")
  ∧ parse (argv_1 ["--all-models"; "x"]%string) = Err (UnknownArgument "--all-models")
  ∧ parse ["partner-portal"; "keygen"; "--consumer-id"; "x"]%string = Err (MissingFlag "--model")
  ∧ parse (argv_1 ["--payment-terms"; "-1"]%string) = Err (BadPaymentTerms "-1").
Proof. vm_compute. auto 10. Qed.

Lemma request_1_ok : request_ok (request_1 Generated).
Proof. apply (parse_Ok (argv_1 [])). vm_compute. reflexivity. Qed.

(** An empty stdin fails the run after the account is recorded, and the second
    attempt is refused because of it. *)
Example empty_stdin_leaves_the_account :
  let '(db, first) := run_on (call_k (Ok ""%string)) "" secret_1 (request_1 FromStdin) keys_0 in
  first = Err EmptyStdin ∧ is_Some_b (partner_rows (portal db) !! "globex"%string) = true
  ∧ (run_on (call_k (Ok "s3cret-of-globex")%string) "" secret_1 (request_1 FromStdin) db).2 = Err (BillingFailed (PartnerExists "globex")).
Proof. vm_compute. auto. Qed.

(** A supplied plaintext of twelve characters, or of fewer that take twelve
    bytes, is written whole to stderr and to every listing, without the warning. *)
Example whole_key_in_prefix :
  let stderr pt := match (run_on (call_k (Ok ""%string)) "" secret_1 (request_1 (Supplied pt)) keys_0).2 with Ok (_, err) => err | Err _ => ""%string end in
  let says pat s := is_Some_b (split_at_text pat s) in
  says "dev-key-0001" (stderr "dev-key-0001"%string) = true ∧ says "It is shorter" (stderr "dev-key-0001"%string) = false
  ∧ says "ключик" (stderr "ключик"%string) = true ∧ says "It is shorter" (stderr "ключик"%string) = false
  ∧ says "It is shorter" (stderr "dev-key"%string) = true.
Proof. vm_compute. auto. Qed.
End Example_run.

Lemma provisioned_key_authenticates_witness :
  keys_wf keys_0 ∧ request_ok (request_1 Generated) ∧ served io_1
  ∧ partner_rows (portal keys_0) !! "globex"%string = None
  ∧ ∃ pt cfg, generate_plaintext (Ok [1; 2; 3]) = Ok pt
    ∧ ApiKeyStore.authenticate (ApiKeyStore.refresh (ApiKeyStore.new
        (run_on (call_k (Ok ""%string)) "" secret_1 (request_1 Generated) keys_0).1 secret_1) io_1).1.1 pt = Some cfg
    ∧ PartnerRuntimeConfig.suspended cfg = false.
Proof.
  split; [exact keys_0_wf |]. split; [exact request_1_ok |]. split; [exact served_1 |]. split; [vm_compute; reflexivity |].
  pose proof (provisioned_key_authenticates (call_k (Ok ""%string)) "" secret_1 (request_1 Generated) keys_0 keys_0_wf request_1_ok served_1) as X.
  assert (partner_rows (portal keys_0) !! consumer_of (request_1 Generated) = None) as E by (vm_compute; reflexivity).
  destruct (run_on (call_k (Ok ""%string)) "" secret_1 (request_1 Generated) keys_0) as [db' res]. rewrite E in X.
  destruct X as (_ & _ & Hok & X). assert (is_ok res = true) as Hres.
  { apply Hok. eexists. split; [vm_compute; reflexivity |]. split; [vm_compute; congruence |]. split; [vm_compute; reflexivity |].
    intros i k Ek. cbn in Ek. by rewrite lookup_empty in Ek. }
  destruct res as [[pt rep]|e]; [| done]. destruct X as (Hpt & _ & Hauth). destruct (Hauth io_1 eq_refl) as (cfg & Ha & _ & Hs & _).
  exists pt, cfg. split; [| by split]. unfold plaintext_of in Hpt. cbn [request_1 Request.plaintext resolve_plaintext call_k entropy] in Hpt.
  destruct (generate_plaintext (Ok [1; 2; 3])) as [x|]; [| done]. by injection Hpt as ->.
Defined.
