(* ===== verification/Startup.v ===== *)
(** * The start of the process ([src/src/main.rs])

    What [run] does before it serves, in its order: the configuration, the
    ledger, the instance's claim, crash recovery, the writer, the key set, the
    change poller, retention, billing, the listener. Each step can refuse to
    start; the retention and billing tasks run from where they are spawned. *)

From stdpp Require Import base strings list gmap numbers sorting fin_maps.
From Stdlib Require Import Ascii ZArith Lia.
From S2P Require Import Prelude Utf8 Redaction Http Crypto TimeLib Calendar Timefmt Pricing Trim Period Migration Config Status Partner Context LedgerTypes Sql Rollup Writer WriterTask Recovery Registry Statements BillingStore PartnerStore ApiKeys KeyLifecycle Email Smtp Worker Mailer Dashboard Events Admin Keygen Retention Background.

Local Open Scope Z_scope.

(** ** Browser origins *)

(** [cors_layer]: the origins that are allowed and those that are logged and
    left out, or no layer at all. [from_str] says which texts are header values. *)
Definition cors_layer (from_str : string → bool) (origins : list string) : option (list string) * list string :=
  match origins with
  | [] => (None, [])
  | _ =>
      let allowed := filter (λ o, from_str o = true) origins in
      let ignored := filter (λ o, from_str o = false) origins in
      (match allowed with [] => None | _ => Some allowed end, ignored)
  end.

(** ** Billing *)

Inductive BillingWarning : Type :=
  (* no statement email will be sent *)
  | CredentialsUnreadable (e : string)
  (* they are set but email is disabled *)
  | CredentialsUnused.

(** [Display for TimezoneError]. *)
Definition timezone_error_display (self : BillingTimezone.TimezoneError) : string :=
  match self with
  | BillingTimezone.OutOfRange o lo hi =>
      ("billing.timezone_offset_minutes is " +:+ signed_dec_string o +:+ ", outside " +:+ signed_dec_string lo +:+ "..=" +:+ signed_dec_string hi)%string
  end.

(** [spawn_billing], with its warnings. *)
Definition spawn_billing (billing : BillingConfig.t) (username password : option string) (instance_id : string)
    : result BillingWorker.t string * list BillingWarning :=
  let '(credentials, unreadable) :=
    match parse_credentials username password with
    | Ok credentials => (credentials, [])
    | Err e => (None, [CredentialsUnreadable e])
    end in
  let unused := match credentials with
                | Some _ => if EmailConfig.enabled (BillingConfig.email billing) then [] else [CredentialsUnused]
                | None => []
                end in
  (match BillingWorker.new billing credentials instance_id with
   | Ok worker => Ok worker
   | Err e => Err ("billing scheduler could not be configured: " +:+ timezone_error_display e)%string
   end, unreadable ++ unused).

(** ** The start *)
Section Startup.
Context `{TimeCrate, Digests, Http, !ConfigFormats, Channels, Tls}.
Variable SocketAddr : Type.

(** What the outside answers to each step, and the texts of its errors. *)
Record Boot : Type := mkBoot {
  config_env : option string;
  read_file : string → result string string;
  open_error : option SchemaError;
  (* the claim: a fresh UUID, the lock file, the registration *)
  instance_id : string;
  lock_file_error : option string;
  register_error : option SqlError;
  probe_file : string → LockFile;
  recovery_error : option SqlError;
  clock : OffsetDateTime;
  secret_env : option string;
  keys_io : ApiKeyStore.Io;
  poller : result unit SqlError;
  (* the usage rows and the buckets in the order of their ids *)
  rows_by_id : Records → list (string * Row.t);
  buckets_by_id : Hourly → list (BucketKey.t * Bucket.t);
  page_size : Z;
  (* the passes of the retention task up to where the process serves or gives
     up, each with its clock; the last one may have got only so far, like one
     that is refused its next slice *)
  passes : list (Retention.World * OffsetDateTime);
  (* the ticks of the billing task that have ended by then *)
  ticks : list (BillingInput * OffsetDateTime);
  smtp_username : option string;
  smtp_password : option string;
  listen_env : option string;
  parse_addr : string → result SocketAddr string;
  addr_display : SocketAddr → string;
  bind : SocketAddr → result unit string;
  db_text : SqlError → string }.

(** Everything that serves. *)
Record Server : Type := mkServer {
  config : Config.t;
  instance : string;
  report : RecoveryReport.t;
  writer : Task;
  writer_config : LedgerWriterConfig.t;
  api_keys : ApiKeyRefresher.t;
  reloader : HotReloader.t;
  broadcaster : SseBroadcaster.t;
  scheduler : BillingWorker.t;
  warnings : list BillingWarning;
  address : SocketAddr }.

(** [InstanceGuard::acquire], as far as it can fail. *)
Definition acquire (b : Boot) (db : Recovery.Database) : result Recovery.Database InstanceError :=
  match lock_file_error b, register_error b with
  | Some e, _ => Err (InstanceIo e)
  | None, Some e => Err (InstanceSqlite e)
  | None, None => Ok (register db (instance_id b))
  end.

(** [RecoveryContext::new] and the pass in one transaction. *)
Definition recovery_context (b : Boot) : RecoveryContext :=
  new_context (instance_id b) (probe_file b) (clock b).

(** [LedgerWriterConfig::from], and the instance on top. *)
Definition writer_config_of (database : DatabaseConfig.t) (instance_id : string) : LedgerWriterConfig.t :=
  LedgerWriterConfig.mk (Z.to_nat (DatabaseConfig.queue_size database)) (Z.to_nat (DatabaseConfig.batch_size database))
    (DatabaseConfig.batch_timeout_ms database) (Some instance_id).

(** *** The tasks beside the start *)

(** The usage tables as a sweep finds them, and what it leaves of them. *)
Definition listed (b : Boot) (db : Recovery.Database) : Retention.Tables :=
  Retention.mkTables (rows_by_id b (Writer.usage_records (tables db))) (buckets_by_id b (Writer.usage_hourly (tables db)))
    (Recovery.ledger_meta db !! "last_retention_run"%string).

Definition unlisted (db : Recovery.Database) (t : Retention.Tables) : Recovery.Database :=
  mkDatabase (mkLedger (records_of t) (hourly_of t)) (ledger_instances db)
    (match last_retention_run t with Some at_ => <["last_retention_run"%string := at_]> (Recovery.ledger_meta db) | None => Recovery.ledger_meta db end).

(** [spawn_retention]: the first pass runs at once. *)
Definition sweep (b : Boot) (database : DatabaseConfig.t) (db : Recovery.Database) (pass : Retention.World * OffsetDateTime)
    : Recovery.Database :=
  match retention_pass database (page_size b) pass.1 pass.2 (listed b db) with
  | Some (t, _) => unlisted db t
  | None => db
  end.
Definition swept (b : Boot) (database : DatabaseConfig.t) (db : Recovery.Database) : Recovery.Database :=
  foldl (sweep b database) db (passes b).

(** [worker.spawn]: so does the first tick. It reads the usage tables and writes
    those of billing. *)
Definition ticked (b : Boot) (store : StoreDb) (worker : BillingWorker.t) : StoreDb * BillingWorker.t :=
  foldl (λ s tick, match billing_pass tick.1 tick.2 s with Some (s', _) => s' | None => s end) (store, worker) (ticks b).

Definition with_store (keys : KeyDb) (store : StoreDb) : KeyDb := mkKeyDb (ApiKeys.api_keys keys) (next_key_id keys) store.

(** What follows recovery. The sweeper and the watchers it starts sleep first or
    only read, and the audit only reads. *)
Definition assemble (b : Boot) (config : Config.t) (recovered : Recovery.Database) (report : RecoveryReport.t) (keys : KeyDb)
    : (Recovery.Database * KeyDb) * result Server string :=
  let path := DatabaseConfig.path (Config.database config) in
  match load_secret (secret_env b) with
  | Err e => ((recovered, keys), Err (secret_error_display e +:+ ". Generate one with `openssl rand -base64 32` and supply it through the deployment's environment; it is never stored in the database and never written to the config file")%string)
  | Ok secret =>
  match ApiKeyRefresher.new (ApiKeyStore.new keys secret) (ServerConfig.api_key_refresh_ms (Config.server config)) (keys_io b) with
  | Err source => ((recovered, keys), Err ("failed to start the api key refresher: could not load the partner api key set from "
        +:+ path +:+ ": " +:+ api_key_error_display (db_text b) source)%string)
  | Ok refresher =>
  match SseBroadcaster.new (poller b) (ServerConfig.sse_poll_interval_ms (Config.server config)) with
  | Err e => ((recovered, keys), Err ("failed to open the dashboard change poller: " +:+ db_text b e)%string)
  | Ok broadcaster =>
  let db := swept b (Config.database config) recovered in
  let '(scheduler, warnings) := spawn_billing (Config.billing config) (smtp_username b) (smtp_password b) (instance_id b) in
  match scheduler with
  | Err e => ((db, keys), Err e)
  | Ok scheduler =>
  let '(store, scheduler) := ticked b (portal keys) scheduler in
  let keys := with_store keys store in
  let refresher := ApiKeyRefresher.mk (with_db (ApiKeyRefresher.store refresher) keys) (ApiKeyRefresher.interval_ms refresher)
                     (ApiKeyRefresher.initial_keys refresher) in
  ((db, keys),
   let? addr := parse_listen_addr (parse_addr b) (listen_env b) in
   let? _ := match bind b addr with
     | Ok _ => Ok ()
     | Err e => Err ("failed to bind " +:+ addr_display b addr +:+ ": " +:+ e)%string
     end in
   Ok (mkServer config (instance_id b) report (new_task (tables db))
         (writer_config_of (Config.database config) (instance_id b)) refresher (HotReloader.new config) broadcaster
         scheduler warnings addr))
  end end end end.

(** [run], up to where it serves: the database it leaves, and the server or why
    there is none. *)
Definition boot (b : Boot) (db : Recovery.Database) (keys : KeyDb) : (Recovery.Database * KeyDb) * result Server string :=
  let path := config_path (config_env b) in
  match from_file (read_file b path) with
  | Err e => ((db, keys), Err ("failed to load " +:+ path +:+ ": " +:+ config_error_display e)%string)
  | Ok config =>
      let db_path := DatabaseConfig.path (Config.database config) in
      match open_error b with
      | Some e => ((db, keys), Err ("failed to open ledger at " +:+ db_path +:+ ": " +:+ schema_error_display (db_text b) e)%string)
      | None =>
          match acquire b db with
          | Err e => ((db, keys), Err ("failed to claim an instance identity beside " +:+ db_path +:+ ": " +:+ instance_error_display (db_text b) e)%string)
          | Ok claimed =>
              match recovery_error b with
              | Some e => ((claimed, keys), Err ("crash recovery failed: " +:+ db_text b e)%string)
              | None =>
                  let '(recovered, report) := recover_in_flight (recovery_context b) claimed in
                  assemble b config recovered report keys
              end
          end
      end
  end.

(** ** What a start leaves *)

(** What recovery makes of a row. *)
Definition resolved (b : Boot) (r : Row.t) : Row.t :=
  if in_flight r && verdict (recovery_context b) r then interrupt_row r else r.

Lemma recovered_rows b db id :
  Writer.usage_records (tables (recover_in_flight (recovery_context b) (register db (instance_id b))).1) !! id
  = resolved b <$> (Writer.usage_records (tables db) !! id).
Proof.
  destruct (Writer.usage_records (tables db) !! id) as [r|] eqn:E; cbn [fmap option_fmap option_map].
  - by apply (recover_resolves _ (register db (instance_id b))).
  - rewrite (proj1 (recover_tables _ _)). cbn [Writer.usage_records]. rewrite lookup_fmap.
    change (Writer.usage_records (tables (register db (instance_id b)))) with (Writer.usage_records (tables db)). by rewrite E.
Qed.

Lemma recovered_registers b db :
  instance_id b ∈ ledger_instances (recover_in_flight (recovery_context b) (register db (instance_id b))).1.
Proof.
  assert (ledger_instances (recover_in_flight (recovery_context b) (register db (instance_id b))).1
    = ledger_instances (register db (instance_id b)) ∖ list_to_set (confirmed (classify_candidates (recovery_context b) (register db (instance_id b))))) as ->.
  { unfold recover_in_flight, recover_in_tx. by destruct (RecoveryReport.is_empty _). }
  apply elem_of_difference. split; [cbn; set_solver |].
  intros [Hc _]%elem_of_list_to_set%confirmed_dead. by apply candidate_named in Hc as [_ ?].
Qed.

(** *** What the sweeps leave *)
Section Swept.
Context (b : Boot) (database : DatabaseConfig.t).

(** [rows_by_id] lists the rows. *)
Definition lists_rows : Prop := ∀ records, rows_by_id b records ≡ₚ map_to_list records.
(** Nobody else writes the usage tables meanwhile. *)
Definition alone : Prop := ∀ pass, pass ∈ passes b → ∀ k t, interleaved pass.1 k t = t.

Context (Hlist : lists_rows) (Halone : alone).

Definition before_cutoff (pass : Retention.World * OffsetDateTime) (r : Row.t) : bool :=
  str_ltb (Row.created_at r) (cutoff_for pass.2 (DatabaseConfig.retention_days database)).

Definition rows_of (db : Recovery.Database) : Records := Writer.usage_records (tables db).

Lemma listed_rows db id r : (id, r) ∈ Retention.usage_records (listed b db) ↔ rows_of db !! id = Some r.
Proof. cbn. rewrite (Hlist _). apply elem_of_map_to_list. Qed.

Lemma sweep_spec db pass id : pass ∈ passes b →
  (∀ r, rows_of (sweep b database db pass) !! id = Some r → rows_of db !! id = Some r)
  ∧ (∀ r, rows_of db !! id = Some r → before_cutoff pass r = false → rows_of (sweep b database db pass) !! id = Some r).
Proof.
  intros Hin. unfold sweep, retention_pass. set (l0 := Retention.usage_records (listed b db)).
  set (days := DatabaseConfig.retention_days database).
  pose (P := λ t, sublist (Retention.usage_records t) l0
    ∧ ∀ x, x ∈ l0 → raw_old (cutoff_for pass.2 days) x = false → x ∈ Retention.usage_records t).
  assert (NoDup l0.*1) as Hnd by (unfold l0; cbn; rewrite (Hlist _); apply NoDup_fst_map_to_list).
  assert (P (run_retention pass.1 pass.2 (page_size b) days (DatabaseConfig.retention_batch_size database) DEFAULT_MAX_BATCHES (listed b db)).1)
    as [Hsub Hkeep].
  { apply run_retention_inv; [intros k u Hu; by rewrite Halone | | by intros | by intros | by split].
    intros l u [Hs Hk]. split; cbn.
    - transitivity (Retention.usage_records u); [| done]. destruct (delete_slice _ _ _) as [kept n] eqn:E.
      by apply delete_slice_spec in E as [E _].
    - intros x Hx Hold. apply delete_slice_keeps; [done | by apply Hk]. }
  destruct (run_retention _ _ _ _ _ _ _) as [t' out]. cbn [fst] in Hsub, Hkeep. unfold rows_of. cbn [unlisted tables Writer.usage_records].
  assert (NoDup (Retention.usage_records t').*1) as Hnd' by (eapply sublist_NoDup; [done | by apply fmap_sublist]).
  split; intros r.
  - unfold records_of. rewrite <- elem_of_list_to_map by done. intros Hr. apply listed_rows. by eapply elem_of_sublist.
  - intros Er%listed_rows Hold. unfold records_of. rewrite <- elem_of_list_to_map by done. by apply Hkeep.
Qed.

Lemma swept_spec l db id : l ⊆ passes b → let db' := foldl (sweep b database) db l in
  (∀ r, rows_of db' !! id = Some r → rows_of db !! id = Some r)
  ∧ (∀ r, rows_of db !! id = Some r → rows_of db' !! id = Some r
       ∨ rows_of db' !! id = None ∧ ∃ pass, pass ∈ passes b ∧ before_cutoff pass r = true).
Proof.
  cbv zeta. revert db. induction l as [|pass l IH]; intros db Hin; cbn [foldl]; [auto |].
  destruct (sweep_spec db pass id (Hin _ ltac:(by left))) as [S1 S2].
  destruct (IH (sweep b database db pass) ltac:(set_solver)) as [I1 I2].
  split; [auto |]. intros r Er. destruct (before_cutoff pass r) eqn:Eb; [| by apply I2, S2].
  destruct (rows_of (foldl (sweep b database) (sweep b database db pass) l) !! id) as [r'|] eqn:E'.
  - left. pose proof (S1 r' (I1 r' eq_refl)). congruence.
  - right. split; [done |]. exists pass. split; [apply Hin; by left | done].
Qed.
End Swept.

Lemma swept_instances b database db : ledger_instances (swept b database db) = ledger_instances db.
Proof.
  unfold swept. generalize (passes b) as l. intros l. revert db. induction l as [|pass l IH]; intros db; cbn [foldl]; [done |].
  rewrite IH. unfold sweep, retention_pass. by destruct (run_retention _ _ _ _ _ _ _).
Qed.

(** A row that is older than the window of the configuration, by one of the
    passes' clocks. *)
Definition past_retention (b : Boot) (days : Z) (r : Row.t) : Prop :=
  ∃ pass, pass ∈ passes b ∧ ∀ a c, Row.created_at r = format_ts a → ledger_instant a →
    ledger_instant c → unix_timestamp_nanos c = unix_timestamp_nanos pass.2 - Z.max 1 days * NS_PER_DAY →
    unix_timestamp_nanos a < unix_timestamp_nanos c.

(** Every request is as recovery resolves it, or was past retention and swept. *)
Definition recovered_and_swept (b : Boot) (days : Z) (db db' : Recovery.Database) : Prop :=
  ∀ id, match rows_of db !! id with
        | None => rows_of db' !! id = None
        | Some r => rows_of db' !! id = Some (resolved b r) ∨ rows_of db' !! id = None ∧ past_retention b days r
        end.

Lemma swept_recovered `{!TimeLaws} b database db :
  lists_rows b → alone b →
  recovered_and_swept b (DatabaseConfig.retention_days database) db
    (swept b database (recover_in_flight (recovery_context b) (register db (instance_id b))).1).
Proof.
  intros Hl Ha id. pose proof (recovered_rows b db id) as Hrows.
  unfold swept.
  destruct (swept_spec b database Hl Ha (passes b) (recover_in_flight (recovery_context b) (register db (instance_id b))).1 id ltac:(done)) as [S1 S2].
  unfold rows_of in *. destruct (Writer.usage_records (tables db) !! id) as [r|]; cbn [fmap option_fmap option_map] in Hrows.
  - destruct (S2 _ Hrows) as [E|(E & pass & Hin & Hold)]; [by left |]. right. split; [done |]. exists pass. split; [done |].
    intros a c Hc Hia Hic Ec.
    destruct (odt_add_instant pass.2 (- (Z.max 1 (DatabaseConfig.retention_days database) * NS_PER_DAY)) c Hic ltac:(lia)) as [Hic' <-].
    apply (format_ts_lt a _ Hia Hic'). rewrite <- Hc. unfold before_cutoff, resolved in Hold.
    by destruct (in_flight r && verdict (recovery_context b) r).
  - destruct (Writer.usage_records (tables (foldl _ _ _)) !! id) eqn:E; [| done]. specialize (S1 _ eq_refl). congruence.
Qed.

(** Before the tasks run nothing is swept. *)
Lemma recovered_unswept b days db :
  recovered_and_swept b days db (recover_in_flight (recovery_context b) (register db (instance_id b))).1.
Proof.
  intros id. pose proof (recovered_rows b db id) as E. unfold rows_of. rewrite E.
  destruct (Writer.usage_records (tables db) !! id); [by left | done].
Qed.

Lemma load_secret_length env secret : load_secret env = Ok secret → (32 ≤ length secret)%nat.
Proof.
  unfold load_secret. destruct (str_is_empty _); [done |]. cbv zeta.
  destruct (Nat.ltb_spec (length (as_bytes (default EmptyString env))) MIN_SECRET_LEN); [done |]. by intros [= <-].
Qed.

(** The rest of the start: the ledger is the recovered one or what the sweeps
    have made of it, the keys are what they were, and a server is put together
    from the parts before it. *)
Lemma assemble_spec b cfg db report keys :
  keys_wf keys →
  let '((db', keys'), started) := assemble b cfg db report keys in
  (db' = db ∨ db' = swept b (Config.database cfg) db) ∧ ApiKeys.api_keys keys' = ApiKeys.api_keys keys
  ∧ match started with
    | Err _ => True
    | Ok s =>
        db' = swept b (Config.database cfg) db ∧ config s = cfg
        ∧ LedgerWriterConfig.instance_id (writer_config s) = Some (instance_id b) ∧ ledger (writer s) = tables db'
        ∧ ∃ secret, load_secret (secret_env b) = Ok secret ∧ (32 ≤ length secret)%nat
          ∧ ∀ pt c, ApiKeyStore.authenticate (ApiKeyRefresher.store (api_keys s)) pt = Some c ↔
              ∃ id k, ApiKeys.api_keys keys !! id = Some k ∧ KeyRow.key_hash k = derive_key_hash secret pt
                ∧ KeyRow.status k = "active"%string
                ∧ (∀ expiry, KeyRow.expires_at k = Some expiry → str_ltb (format_ts (ApiKeyStore.refresh_now (keys_io b))) expiry = true)
                ∧ describes (portal keys) (ApiKeyStore.refresh_now (keys_io b)) k c
    end.
Proof.
  intros Hkeys. unfold assemble. destruct (load_secret (secret_env b)) as [secret|] eqn:Es; [| by auto].
  unfold ApiKeyRefresher.new. pose proof (refresh_fresh (ApiKeyStore.new keys secret) (keys_io b)) as Hfresh.
  destruct (ApiKeyStore.refresh (ApiKeyStore.new keys secret) (keys_io b)) as [[store [count|e]] lines] eqn:Er; cbn; [| by auto].
  destruct (SseBroadcaster.new (poller b) _) as [broadcaster|]; cbn; [| by auto].
  destruct (spawn_billing _ _ _ _) as [[scheduler|] warnings]; cbn; [| by auto].
  destruct (ticked b (portal keys) scheduler) as [store' scheduler'].
  destruct (parse_listen_addr _ _) as [addr|]; cbn; [| by auto].
  destruct (bind b addr); cbn; [| by auto]. split_and!; [by right | done | done | done | done | done |].
  assert (ApiKeyStore.read (keys_io b) = None) as Hread.
  { unfold ApiKeyStore.refresh in Er. destruct (ApiKeyStore.read (keys_io b)); [done | done]. }
  destruct (Hfresh Hread) as (Hf & Hdb & Hsec). cbn in Hf, Hdb, Hsec.
  exists secret. split_and!; [done | by eapply load_secret_length |]. intros pt c.
  change (ApiKeyStore.authenticate (with_db store (with_store keys store')) pt) with (ApiKeyStore.authenticate store pt).
  rewrite (authenticate_fresh store (ApiKeyStore.refresh_now (keys_io b)) pt c), Hdb, Hsec by first [by rewrite Hdb | exact Hf].
  split; intros (id & k & Ek & Eh & Eu); exists id, k; rewrite usable_spec in *; tauto.
Qed.

(** C18. The server serves on a recovered ledger. It starts only under a
    configuration that loaded, as an instance that is registered, with a writer
    on a ledger where every request is as recovery resolves it, so that none
    whose owner is known to be gone is in flight, and where no row is missing
    but those past retention that the first sweeps, which run meanwhile, have
    got to; and with the key set of the database, hashed under a secret of at
    least 32 bytes: a plaintext authenticates exactly when its key is active and
    unexpired. A start that is refused before recovery has touched no request.
    One that is refused later leaves every request as recovery resolves it, and
    may have swept some that are past retention: all the requests inside the
    window are still there. *)
Theorem serves_on_a_recovered_ledger `{!TimeLaws} (b : Boot) (db : Recovery.Database) (keys : KeyDb)
    (Hkeys : keys_wf keys) (Hlist : lists_rows b) (Halone : alone b) :
  let '((db', keys'), started) := boot b db keys in
  (∀ s, started = Ok s →
     from_file (read_file b (config_path (config_env b))) = Ok (config s)
     ∧ instance_id b ∈ ledger_instances db'
     ∧ LedgerWriterConfig.instance_id (writer_config s) = Some (instance_id b)
     ∧ ledger (writer s) = tables db'
     ∧ recovered_and_swept b (DatabaseConfig.retention_days (Config.database (config s))) db db'
     ∧ ∃ secret, load_secret (secret_env b) = Ok secret ∧ (32 ≤ length secret)%nat
         ∧ ∀ pt cfg, ApiKeyStore.authenticate (ApiKeyRefresher.store (api_keys s)) pt = Some cfg ↔
             ∃ id k, ApiKeys.api_keys keys !! id = Some k ∧ KeyRow.key_hash k = derive_key_hash secret pt
               ∧ KeyRow.status k = "active"%string
               ∧ (∀ expiry, KeyRow.expires_at k = Some expiry → str_ltb (format_ts (ApiKeyStore.refresh_now (keys_io b))) expiry = true)
               ∧ describes (portal keys) (ApiKeyStore.refresh_now (keys_io b)) k cfg)
  ∧ (∀ e, started = Err e →
       rows_of db' = rows_of db
       ∨ ∃ cfg, from_file (read_file b (config_path (config_env b))) = Ok cfg
           ∧ recovered_and_swept b (DatabaseConfig.retention_days (Config.database cfg)) db db')
  ∧ ApiKeys.api_keys keys' = ApiKeys.api_keys keys.
Proof.
  unfold boot. destruct (from_file _) as [cfg|e] eqn:Ef; [| by split_and!; auto].
  destruct (open_error b); [by split_and!; auto |].
  unfold acquire. destruct (lock_file_error b); [by split_and!; auto |].
  destruct (register_error b); [by split_and!; auto |]. destruct (recovery_error b); [by split_and!; auto |].
  pose proof (swept_recovered b (Config.database cfg) db Hlist Halone) as Hswept.
  pose proof (recovered_registers b db) as Hreg. pose proof (recovered_unswept b (DatabaseConfig.retention_days (Config.database cfg)) db) as Hunswept.
  destruct (recover_in_flight (recovery_context b) (register db (instance_id b))) as [db1 report]. cbn [fst] in *.
  pose proof (assemble_spec b cfg db1 report keys Hkeys) as Ha.
  destruct (assemble b cfg db1 report keys) as [[db' keys'] started]. destruct Ha as (Hdb & Hk & Hs). split_and!; [| | done].
  - intros s ->. destruct Hs as (-> & -> & -> & -> & Hauth). by rewrite swept_instances.
  - intros e _. right. exists cfg. split; [done |]. by destruct Hdb as [->| ->].
Qed.
End Startup.

(** ** A start beside a crashed instance *)
Section Example_startup.
Local Existing Instance Gregorian.
Import Events.Concrete.

(** The first sweep runs at [at_], before the listener is bound. *)
Definition boot_1 (secret : option string) (at_ : OffsetDateTime) (bound : result unit string) : Boot string :=
  mkBoot string None (λ _, Ok "one"%string) None "i-2" None None (λ _, Recovery.NotFound) None t2 secret io_1 (Ok tt)
    map_to_list map_to_list 4096 [(quiet_world, at_)] [] None None None Ok id (λ _, bound) (λ _, "disk I/O error"%string).
Definition good_secret : option string := Some "0123456789abcdef0123456789abcdef"%string.

(** The state [boot] leaves, and what it says. *)
Definition booted (secret : option string) (at_ : OffsetDateTime) (bound : result unit string)
    : (Recovery.Database * KeyDb) * result (Server string) string :=
  boot string (boot_1 secret at_ bound) stranded_db (keys_1 None).

Definition refusal {A} (r : result A string) : string := match r with Err e => e | Ok _ => EmptyString end.

Definition years_on : OffsetDateTime := odt_add t2 (3653 * NS_PER_DAY).

Lemma boot_1_lists secret at_ bound : lists_rows string (boot_1 secret at_ bound).
Proof. intros records. reflexivity. Qed.

Lemma boot_1_alone secret at_ bound : alone string (boot_1 secret at_ bound).
Proof. intros pass Hin k t. cbn in Hin. by apply list_elem_of_singleton in Hin as ->. Qed.

(** A start that serves, and one whose clock is years on and whose address is
    taken: its sweep has run all the same. *)
Lemma serves_on_a_recovered_ledger_witness :
  keys_wf (keys_1 None) ∧ is_ok (booted good_secret t2 (Ok tt)).2 = true
  ∧ rows_of (booted good_secret t2 (Ok tt)).1.1 !! "req-1"%string = Some (interrupt_row stranded_row)
  ∧ (∀ s, (booted good_secret t2 (Ok tt)).2 = Ok s →
       "i-2"%string ∈ ledger_instances (booted good_secret t2 (Ok tt)).1.1
       ∧ ledger (writer string s) = tables (booted good_secret t2 (Ok tt)).1.1)
  ∧ refusal (booted good_secret years_on (Err "address in use"%string)).2 = "failed to bind 0.0.0.0:8080: address in use"%string
  ∧ rows_of (booted good_secret years_on (Err "address in use"%string)).1.1 !! "req-1"%string = None.
Proof.
  assert (is_ok (booted good_secret t2 (Ok tt)).2 = true) as Hok by (vm_compute; reflexivity).
  split; [exact (keys_1_wf None) |]. split; [exact Hok |].
  assert (bool_decide (is_Some (rows_of (booted good_secret t2 (Ok tt)).1.1 !! "req-1"%string)) = true) as Hthere by (vm_compute; reflexivity).
  pose proof (serves_on_a_recovered_ledger string (boot_1 good_secret t2 (Ok tt)) stranded_db (keys_1 None) (keys_1_wf None)
    (boot_1_lists _ _ _) (boot_1_alone _ _ _)) as X.
  change (boot string (boot_1 good_secret t2 (Ok tt)) stranded_db (keys_1 None)) with (booted good_secret t2 (Ok tt)) in X.
  destruct (booted good_secret t2 (Ok tt)) as [[db' keys'] [s|e]]; [| discriminate Hok]. destruct X as [X _].
  destruct (X s eq_refl) as (_ & Hreg & _ & Hl & Hrows & _). split_and!.
  - cbn [fst]. specialize (Hrows "req-1"%string). unfold rows_of at 1 in Hrows. rewrite stranded_db_row in Hrows.
    destruct Hrows as [Hrow|[Hnone _]]; [exact Hrow |]. cbn [fst] in Hthere. rewrite Hnone in Hthere. discriminate.
  - intros s' E. injection E as <-. split; [exact Hreg | exact Hl].
  - vm_compute. reflexivity.
  - vm_compute. reflexivity.
Defined.

(** Half a mail credential is refused where it is read; the process warns that
    no mail will be sent, and then sends it anonymously. *)
Definition mailing : BillingConfig.t :=
  BillingConfig.mk 0 5 30 (EmailConfig.mk true "mail.acme.test" 587 "billing@acme.test").

Example half_a_credential_sends_anonymously :
  is_ok (parse_credentials (Some "portal"%string) None) = false
  ∧ (∃ w e, spawn_billing mailing (Some "portal"%string) None "i-2" = (Ok w, [CredentialsUnreadable e])
       ∧ BillingWorker.email w = Some (Settings.mk "mail.acme.test" 587 "billing@acme.test" None)
       ∧ BillingWorker.sends_email w = true).
Proof. split; [reflexivity |]. eexists _, _. split; [reflexivity |]. split; reflexivity. Qed.

(** An origin that is no header value is left out, and logged; the process starts. *)
Definition printable (s : string) : bool := str_all (λ c, in_range 32 126 (byte_value c)) s.
Definition broken_origin : string := ("https://b.test" +:+ String (ascii_of_nat 10) "")%string.

Example invalid_origin_is_ignored :
  cors_layer printable ["https://a.test"; broken_origin]%string = (Some ["https://a.test"]%string, [broken_origin])
  ∧ cors_layer printable [broken_origin] = (None, [broken_origin]) ∧ cors_layer printable [] = (None, []).
Proof. vm_compute. auto. Qed.

Example refusals :
  refusal (booted None t2 (Ok tt)).2 = (SECRET_ENV +:+ " is not set. It keys the hash of every partner API key and must be supplied by the deployment; without it no key can be issued or verified. Generate one with `openssl rand -base64 32` and supply it through the deployment's environment; it is never stored in the database and never written to the config file")%string
  ∧ refusal (booted (Some "short"%string) t2 (Ok tt)).2
    = (SECRET_ENV +:+ " is 5 bytes; at least 32 are required. Generate one with `openssl rand -base64 32` and supply it through the deployment's environment; it is never stored in the database and never written to the config file")%string.
Proof. split; vm_compute; reflexivity. Qed.
End Example_startup.
